(* ===== verification/_CoqProject ===== *)
-Q . S2P
Prelude.v
Proto.v
Text.v
Layout.v
LayoutWeights.v
LayoutTree.v
LayoutGeometry.v
RingBuf.v
GitStatus.v
BlockParser.v
ShellHooks.v
PaneTracker.v
Libraries.v
Effects.v
Store.v
StoreBlocks.v
StoreWindows.v
EventBus.v
Registry.v
RegistryInv.v
RegistrySync.v
BlockIndex.v
Pty.v
PtyTask.v
Stream.v
Capture.v
Inspect.v
Server.v
ServerInv.v
WorkerRegistry.v
Worker.v
WorkerInv.v
Supervisor.v
SupervisorRpc.v
Hybrid.v
HybridInv.v
HybridLife.v
HybridClose.v
Batcher.v
BatcherInv.v
Mirror.v
MirrorHub.v
MirrorHubRuns.v
Migration.v
MigrationInv.v
Boot.v
Serve.v
Themes.v
Client.v
Pyrec.v
Json.v
Mcp.v
McpTools.v
McpRuns.v
Tui.v
TuiPanes.v
TuiKeys.v
TuiMouse.v
TuiDraw.v
TuiLoop.v
TuiExample.v
TuiEvents.v
TuiInv.v
TuiSafe.v
TuiRuns.v
TuiInput.v
TuiSessions.v
TuiStyle.v
TuiFire.v
TuiPaint.v
TuiOverlays.v
GpuPaint.v
Gpu.v
GpuApp.v
GpuFrame.v
GpuRuns.v
Github.v
GithubRuns.v
Gui.v
GuiRuns.v
