(* ===== verification/Prelude.v ===== *)
(** * pyre: a verification development of a terminal multiplexer

    Pyre is a terminal multiplexer: a daemon (crate [pyred]) owns the shells and
    everything known about them, and front ends talk to it: a terminal one
    ([pyre-tui]), a GPU one ([pyre-gpu]), a desktop application ([gui/src-tauri]), a
    command line that also records ([pyrec]) and a bridge for agents ([pyre-mcp]).
    This library models all of them and the data they share ([pyre-proto],
    [pyre-themes]) as executable definitions, and proves what makes them correct.
    Definitions keep the names of the source; file names below are under src/crates/
    unless they start with gui/.

    ** The program and its parts

    A client asks over RPC ([pyred/src/server.rs]) for sessions, windows and panes.
    The session registry ([session.rs]) keeps them in memory, emits a numbered event
    for each change and mirrors names, windows and layouts to a SQLite store
    ([store.rs]). A pane is a shell on a pseudo terminal ([pty.rs]): a reader thread
    copies what it prints into a replay buffer ([ringbuf.rs]), to the attached
    clients ([stream.rs]) and to the parser task, which finds the commands by
    their OSC 133 markers ([parser.rs]), records each as a block with its output
    in the store, keeps the state of the pane ([state.rs]) and feeds a full-text
    index ([index.rs]). Windows tile their panes by a tree of weighted splits
    ([pyre-proto/src/layout.rs]) that daemon and clients share.

    The daemon has a second mode of several processes. There the supervisor
    ([supervisor.rs]) answers the same procedures but owns no shell: it spawns one
    worker process per session ([worker.rs]), which keeps the panes and their rows
    in a database of its own, the shard ([shard.rs]), and calls back when a pane
    prints, changes or ends. The supervisor knows panes by the slot they have in
    their worker, keeps windows and layouts, turns the bytes it is sent into
    blocks (the batcher), restarts workers that die or fall silent, and copies the
    output of a pane to its clients through a mirror hub.

    A front end holds a control connection for requests, a stream per pane for its
    bytes, and follows the events. The terminal one is a loop over its state: output
    of the panes, answers, a frame, an event of keyboard or mouse.

    ** Files

    Base
    - Prelude: results, machine integers, list lemmas, notations and tactics.
    - Text: Rust's [str] operations (UTF-8, trimming, lines, integers).
    - Libraries: one class per third-party crate the store relies on (uuid,
      serde_json, SQLite's ordering, zstd, chrono), with its law and an instance.
    - Effects: the state and error monad [M S E A], its Hoare triples [triple] and
      the rules the invariants of the registry and the daemon are proved with.
    - Proto: wire types, the control handshake and connection dispatch
      (pyre-proto/src/{lib,sessions,service,blocks,handshake,socket}.rs,
      pyred/src/main.rs). Json: JSON values and the texts of serde_json (class
      [SerdeJson]).

    Components without shared state
    - Layout, LayoutWeights, LayoutTree, LayoutGeometry: pyre-proto/src/layout.rs.
    - RingBuf: ringbuf.rs. GitStatus: git.rs. BlockParser: parser.rs. ShellHooks:
      the scripts of pyre-proto/src/shell_integration.rs and what they print.
      PaneTracker: state.rs and agent_detect.rs. Capture: ansi.rs and the capture
      of server.rs. Inspect: inspect.rs. BlockIndex: index.rs.
      Themes: pyre-themes (palettes, registry, configuration).

    The stateful core
    - Store, StoreBlocks, StoreWindows: store.rs and the tables of
      pyred/migrations. [Store.St] is database, blob directory and the counts of
      clock readings, identifiers and statements used so far; [Store.Env] supplies
      the next ones and says which statements fail.
    - EventBus: [emit_event], [events_after] (session.rs), [next_pane_event] (server.rs).
    - Registry: session.rs, every method over [Registry.Reg] (sessions, bus, store);
      RegistryInv its invariant, RegistrySync its agreement with the database.
    - Pty, PtyTask: pty.rs; [Pty.Task] is the state of one parser task.
    - Stream: stream.rs as a labelled state machine beside the reader thread.
    - Server, ServerInv: server.rs, every RPC handler over [Server.Daemon]
      (registry, index, focus queue, recorded keystrokes and sizes).

    The mode of several processes
    - WorkerRegistry: the event bus and the pane index of supervisor.rs.
    - Worker, WorkerInv: worker.rs over [Worker.World] (the worker, its shard and what
      it can reach of the supervisor). What it calls there is the class
      [SupervisorWorker], so its theorems hold for every supervisor.
    - Supervisor: the state [Sup] of supervisor.rs and the callbacks, which make it
      an instance of [SupervisorWorker].
    - SupervisorRpc: the procedures, over [Hy]: the supervisor, the worker processes
      by pid and the shards. A call to a worker runs the worker's handler, and the
      callbacks it makes run within it.
    - Hybrid: restarts, the monitor, the shards at boot, and the whole as a function
      [step] of a label, with runs at its end; HybridInv has the invariant,
      HybridLife crashes and boots, HybridClose the contract of [close_pane].
    - Batcher, BatcherInv: the block batcher, and its agreement with the parser task.
    - Mirror: one stage of the output path of an attached client; a stage is
      generic in its buffer (class [ReplayBuffer]), which is the ring buffer in a
      worker and the accumulated snapshot in a mirror hub. MirrorHub, MirrorHubRuns:
      the registry of hubs, their tasks, and every client's connection in both
      directions, as steps that interleave.

    Start
    - Migration, MigrationInv: migration.rs and the opening of store and index
      (main.rs, index.rs), over [Migration.Host]: files, databases, shards, indexes.
    - Boot: config.rs, hooks.rs and the choice of main.rs between the modes.
    - Serve: daemons that share a directory of socket files, from main to the end.

    Clients
    - Client: the class [PyreDaemon], what a client can ask and what is promised of
      the answers, with an instance at its end. All front ends are proved against it.
    - Pyrec: pyrec/src/main.rs, the commands, the recording format and the replay.
    - Mcp, McpTools, McpRuns: pyre-mcp/src/main.rs: JSON-RPC, the schemas and
      the handlers of the tools, the loop over standard input, and whole runs.

    The terminal front end ([pyre-tui])
    - Tui: [AppState] and the pure operations of model/. TuiPanes: panes, tabs and
      sessions opened, split, closed (app/pane_ops.rs). TuiKeys, TuiMouse: the input
      (input/). TuiDraw: what a frame leaves in the state. TuiLoop: a round of the
      loop (app/run.rs). TuiEvents: the task that follows the events.
    - TuiStyle: theme.rs and fire_motion.rs as styles; TuiPaint: a pane on the screen
      (render/pane.rs); TuiOverlays: the whole frame (render/). TuiFire: splash.rs
      and clipboard.rs.
    - TuiInv, TuiSafe, TuiRuns, TuiInput, TuiSessions: invariant, safety of every
      step, runs, the way of bytes in and out, closing and following the daemon;
      TuiExample is a small screen for concrete runs.

    The GPU front end ([pyre-gpu])
    - GpuPaint, GpuFrame: every loop that writes into the frame buffer. Gpu: terminal
      views, search, toasts, menu, keys. GpuApp: the record [App] and its handlers.
      GpuRuns: the event loop and its runs, and the task behind a
      pane ([GpuStream]).

    The desktop application (gui/src-tauri)
    - Github, GithubRuns: github.rs. Gui, GuiRuns: lib.rs, its commands over the class
      [GuiHost] and the data it hands to the web view.

    ** What the theorems show

    - Invariants of everything reachable: [daemon_reachable_ok] (any requests, any
      answers of the operating system, any refused statements),
      [registry_reachable_ok], [reachable_layout_ok].
    - The record of a command: [block_events_protocol], [block_markers_refine] and
      [command_lifecycle] take bytes to block events under any chunking,
      [session_blocks] takes what the shell scripts print to them;
      [command_recorded] and [no_block_left_open] take them on to rows and blobs;
      [block_roundtrip], the listings and the reconciliation are the store's side.
    - Agreement of memory and database: [registry_db_in_sync]; the migration to
      windows in StoreWindows.
    - Attached clients: [stream_view] and [stream_open_exact]; events:
      [events_after_catch_up] and [next_pane_event_fresh]; captures: [capture_tail];
      search: [search_exact] and [backfill_indexes_all].
    - Contracts of procedures: [spawn_contract], [close_session_cleans],
      [gc_removes_empty], [unknown_pane_refused].
    - Start: [migration_copies_panes] and [migration_runs_once] are what the move to
      shards promises, [search_complete_at_start] the state of the index when the
      daemon begins to answer, [start_stays_inside] what a start may touch,
      [one_daemon_per_socket] who answers on a socket.
    - Several processes: [hybrid_reachable_ok] is the invariant after any steps of
      clients, workers and the system; [close_pane_contract] follows one request
      through supervisor, worker and shard; [worker_crash_recovery] and
      [crash_recovery_cycle] say what survives the death of a worker;
      [heartbeat_monitor_exact] and [reattach_gc_exact] which workers are replaced
      and which shards deleted; [wait_pane_state_ends] and [write_all_bytes_ends] are
      about loops that poll. [clients_follow_hub] and [input_is_serialised] are what
      the clients of a mirrored pane see and what their keystrokes become.
    - The two modes agree: [batcher_matches_task] on the blocks recorded,
      [supervisor_bus_equiv] on the events served; [mirror_view] is what a client of
      the second mode sees, to compare with [stream_view].
    - Geometry: [leaves_tile] and the theorems on splitting, closing, focus moves
      and weights, with the widths of the source's integers.
    - Front ends do not fail: [run_tui_never_panics], [keys_keep_state],
      [gpu_never_panics], [splash_is_safe], [bridge_answers], [tools_need_one_target],
      [commands_restore_terminal], [run_command_ends].
    - Bytes of the terminal front end: [typing_is_sent] in, [output_reaches_terminal]
      out; [closing_removes_pane], [sessions_follow_daemon] and [resize_weights_spec]
      for panes and sessions. Its screen: [screen_shows_grid], [highlight_is_copied],
      [clears_stay_inside], [one_cursor], [strip_hits], [picker_shows_cursor];
      [frame_painted_as_left] ties what is painted to what the state keeps.
    - Desktop: [one_pump_per_pane], [pyred_started_once], [polls_lose_nothing];
      [token_stays_secret], [token_roundtrip], [checks_are_gravest]. GPU streams:
      [bridge_keeps_order], [dropping_ends]. Clipboard: [tool_is_found_once].
    - What deviates is proved as it is, for example [live_failures_unsearchable],
      [stream_gap_lost], [exited_pane_stays_in_layout], [new_window_repeats_position]; in
      the second mode [worker_state_ignores_output], [respawn_renames_panes],
      [close_session_announces_strangers], [stranded_clients], [double_start]; in the
      front ends [burst_loses_first_chunk], [concurrent_attach_leaks],
      [scrolled_strip_is_off], [picker_leaves_screen], [dead_pane_spins].

    ** Conventions, bounds and fuel

    - A w-bit integer is a [Z] in its range; operations that can leave it wrap
      ([wrap_u16] and its siblings), as the release build does. A [Uuid] is the
      number of its 128 bits, an instant counts nanoseconds. In the clients a [usize]
      that is an index or a length is a [nat].
    - [Uuid::new_v4], [Utc::now] and [Instant::now] read from supplies that are
      arguments; the clock of a front end stands still within a round. Theorems that
      need identifiers to differ say so.
    - A [HashMap] iterates in the order of [HashOrder], of which only the elements
      are known; a broadcast receiver and a writer task read a script.
    - Rust iterators that always terminate are structural; where the recursion is
      not, the fuel is a length that suffices: [show_uint] has the 20 digits of a u64
      as fuel, [strip_csi] the length of the text. Loops that poll or write until
      something outside lets them end take fuel and say when it is enough.
    - The constants are those of the source: 64 KiB of replay buffer and 256 events
      of catch-up are arguments of the theorems on RingBuf, and [EVENT_RING_CAP] of
      those on the bus; 4096 bytes per output chunk; 256 KiB of indexed text per block.
    - Calls nobody waits for are listed as tasks and run in any order; requests are
      taken in the order in which they end. Positions of the mouse are whole pixels.
    - Floating point: the products that size overlays are computed exactly; sines,
      blending of colours, the share of a toast's life and the percentage of a drag
      are parameters ([FireMath], [FireField], [OverlayMath], arguments).

    ** What is not modelled

    - Inside the modelled files: logging, poisoned locks and, in the daemon, the
      interleaving of two requests. A handler runs to its end before the next one
      starts; where the source drops a lock between two steps ([stream.rs], the
      mirror hubs, the start of a daemon), the steps are apart.
    - Third-party code is a parameter with laws: the vte parser, tantivy, SQLite,
      serde and bincode, alacritty_terminal ([Alacritty], [TermCells], [GpuTerm]),
      ratatui's layout solver ([LayoutSolver]) and what it does with a widget, fontdue,
      the network and the operating system ([GuiHost], the environments).
    - The web view of the desktop application (TypeScript), the window system under
      the GPU front end, and the examples and integration tests. *)
From Stdlib Require Export ZArith Lia.
From stdpp Require Export prelude gmap strings list sorting.

(** ** Results: Rust's [Result<A, E>] *)
Inductive result (E A : Type) : Type :=
  | Ok (a : A)
  | Err (e : E).
Arguments Ok {E A} a.
Arguments Err {E A} e.

Declare Scope result_scope.
Delimit Scope result_scope with result.
Notation "'let?' x := e1 'in' e2" :=
  (match e1 with Ok x => e2 | Err err => Err err end)
  (at level 10, x name, e1 at level 100, e2 at level 200) : result_scope.
Open Scope result_scope.

Definition is_ok {E A} (r : result E A) : bool :=
  match r with Ok _ => true | Err _ => false end.

Definition result_map_err {E F A} (f : E → F) (r : result E A) : result F A :=
  match r with Ok a => Ok a | Err e => Err (f e) end.

Definition ok_or {E A} (o : option A) (e : E) : result E A :=
  match o with Some a => Ok a | None => Err e end.

(** ** Machine integers *)
Section Wrap.
Local Open Scope Z_scope.
Definition wrap_u (w z : Z) : Z := z mod 2 ^ w.
Definition wrap_u16 : Z → Z := wrap_u 16.
Definition wrap_u32 : Z → Z := wrap_u 32.
Definition wrap_u64 : Z → Z := wrap_u 64.
Definition wrap_i32 (z : Z) : Z := (z + 2 ^ 31) mod 2 ^ 32 - 2 ^ 31.

(** [Ord::clamp] *)
Definition clamp (z lo hi : Z) : Z := Z.min (Z.max z lo) hi.

Lemma wrap_u16_small z : 0 <= z < 65536 → wrap_u16 z = z.
Proof. intros. unfold wrap_u16, wrap_u. apply Z.mod_small. lia. Qed.
Lemma wrap_u32_small z : 0 <= z < 4294967296 → wrap_u32 z = z.
Proof. intros. unfold wrap_u32, wrap_u. apply Z.mod_small. lia. Qed.
Lemma wrap_i32_small z : -2147483648 <= z < 2147483648 → wrap_i32 z = z.
Proof. intros. unfold wrap_i32. rewrite Z.mod_small; lia. Qed.
Lemma clamp_bounds z lo hi : lo <= hi → lo <= clamp z lo hi <= hi.
Proof. unfold clamp. lia. Qed.
Lemma clamp_id z lo hi : lo <= z <= hi → clamp z lo hi = z.
Proof. unfold clamp. lia. Qed.
End Wrap.

(** ** Lists *)

(** [Iterator::position]. *)
Definition position {A} (f : A → bool) (l : list A) : option nat :=
  fst <$> list_find (λ x, f x = true) l.

(** [Iterator::find]. *)
Definition find_first {A} (f : A → bool) (l : list A) : option A :=
  snd <$> list_find (λ x, f x = true) l.

(** [Iterator::min_by_key]: the first of the smallest elements. *)
Fixpoint min_by_key {A} (key : A → Z) (l : list A) : option A :=
  match l with
  | [] => None
  | x :: l' =>
      match min_by_key key l' with
      | None => Some x
      | Some y => if (key y <? key x)%Z then Some y else Some x
      end
  end.

(** [Vec::dedup]: of equal neighbours one is kept. *)
Fixpoint dedup {A} `{EqDecision A} (l : list A) : list A :=
  match l with
  | x :: ((y :: _) as l') => if decide (x = y) then dedup l' else x :: dedup l'
  | _ => l
  end.

Definition sum_Z (l : list Z) : Z := foldr Z.add 0%Z l.

Section ListLemmas.
Context {A : Type}.
Implicit Types (l : list A) (f : A → bool).

Lemma position_Some f l i :
  position f l = Some i ↔
  ∃ x, l !! i = Some x ∧ f x = true ∧
       ∀ j y, l !! j = Some y → (j < i)%nat → f y = false.
Proof.
  unfold position. rewrite fmap_Some. split.
  - intros [[i' x] [H ->]]. apply list_find_Some in H as (Hl & Hf & Hmin).
    exists x. repeat split; [done..|]. intros j y Hj Hlt.
    specialize (Hmin j y Hj Hlt). by destruct (f y).
  - intros (x & Hl & Hf & Hmin). exists (i, x). split; [|done].
    apply list_find_Some. repeat split; [done..|].
    intros j y Hj Hlt. by rewrite (Hmin j y Hj Hlt).
Qed.

Lemma position_None f l : position f l = None ↔ Forall (λ x, f x = false) l.
Proof.
  unfold position. rewrite fmap_None, list_find_None, !Forall_forall.
  split; intros H x Hx; specialize (H x Hx); by destruct (f x).
Qed.

Lemma find_first_Some f l x :
  find_first f l = Some x → x ∈ l ∧ f x = true.
Proof.
  unfold find_first. rewrite fmap_Some. intros [[i y] [H ->]].
  apply list_find_Some in H as (Hl & Hf & _). split; [|done].
  by eapply list_elem_of_lookup_2.
Qed.

Lemma find_first_None f l : find_first f l = None ↔ Forall (λ x, f x = false) l.
Proof.
  unfold find_first. rewrite fmap_None, list_find_None, !Forall_forall.
  split; intros H x Hx; specialize (H x Hx); by destruct (f x).
Qed.

Lemma min_by_key_Some (key : A → Z) l x :
  min_by_key key l = Some x → x ∈ l ∧ Forall (λ y, (key x ≤ key y)%Z) l.
Proof.
  revert x. induction l as [|a l IH]; intros x; simpl; [done|].
  destruct (min_by_key key l) as [y|] eqn:E.
  - destruct (IH y eq_refl) as [Hin Hall].
    destruct (Z.ltb_spec (key y) (key a)); intros [= <-].
    + split; [by right|]. constructor; [lia|done].
    + split; [by left|]. constructor; [lia|].
      eapply Forall_impl; [exact Hall|]. simpl. lia.
  - intros [= <-]. destruct l as [|b l']; [|simpl in E; repeat case_match; done].
    split; [by left|]. constructor; [lia|constructor].
Qed.

Lemma min_by_key_None (key : A → Z) l : min_by_key key l = None ↔ l = [].
Proof. destruct l; simpl; [done|]. repeat case_match; done. Qed.

(** Pairwise relations and concatenation. *)
Lemma ForallOrdPairs_app (R : A → A → Prop) l1 l2 :
  ForallOrdPairs R l1 → ForallOrdPairs R l2 →
  Forall (λ x, Forall (R x) l2) l1 → ForallOrdPairs R (l1 ++ l2).
Proof.
  intros H1 H2. induction H1 as [|x l Hx H1 IH]; intros Hc; [done|].
  inversion Hc; subst. constructor; [|auto]. by apply Forall_app.
Qed.

Lemma ForallOrdPairs_lookup (R : A → A → Prop) l i j x y :
  ForallOrdPairs R l → (i < j)%nat → l !! i = Some x → l !! j = Some y → R x y.
Proof.
  intros H. revert i j. induction H as [|a l Ha H IH]; intros i j Hij Hi Hj; [done|].
  destruct j as [|j]; [lia|]. destruct i as [|i]; simpl in *.
  - injection Hi as ->. rewrite Forall_forall in Ha.
    apply Ha. by eapply list_elem_of_lookup_2.
  - eapply (IH i j); [lia|done..].
Qed.
End ListLemmas.

Section Dedup.
Context {A : Type} `{EqDecision A}.
Implicit Types (x : A) (l : list A).

Lemma dedup_cons x y l : dedup (x :: y :: l) = if decide (x = y) then dedup (y :: l) else x :: dedup (y :: l).
Proof. done. Qed.

Lemma dedup_elem x l : x ∈ dedup l ↔ x ∈ l.
Proof.
  induction l as [|y l IH]; [done|]. destruct l as [|z l]; [done|]. rewrite dedup_cons.
  destruct (decide (y = z)) as [<-|Hne]; rewrite ?elem_of_cons, IH, ?elem_of_cons; tauto.
Qed.

(** On a sorted list no two elements that remain are equal. *)
Lemma dedup_sorted (R : A → A → Prop) `{!AntiSymm (=) R} l :
  StronglySorted R l → StronglySorted (λ x y, R x y ∧ x ≠ y) (dedup l).
Proof.
  induction 1 as [|y l Hs IH Hy]; [constructor|]. destruct l as [|z l]; [repeat constructor|]. rewrite dedup_cons.
  destruct (decide (y = z)) as [<-|Hne]; [done|]. constructor; [done|].
  rewrite Forall_forall in *. intros x Hx. rewrite dedup_elem in Hx. split; [by apply Hy|]. intros <-.
  apply elem_of_cons in Hx as [->|Hx]; [done|]. apply Hne, (anti_symm R); [apply Hy; by left|].
  inversion Hs as [|?? _ Hz]; subst. rewrite Forall_forall in Hz. by apply Hz.
Qed.

Lemma dedup_NoDup (R : A → A → Prop) `{!AntiSymm (=) R} l : StronglySorted R l → NoDup (dedup l).
Proof.
  intros Hs%dedup_sorted; [|done]. induction Hs as [|x l' Hs IH Hx]; constructor; [|done].
  intros Hin. rewrite Forall_forall in Hx. by destruct (Hx x Hin).
Qed.
End Dedup.

Lemma filter_all {A} (P : A → Prop) `{∀ x, Decision (P x)} (l : list A) :
  (∀ x, P x) → filter P l = l.
Proof. intros HP. induction l as [|x l IH]; [done|]. by rewrite filter_cons_True, IH. Qed.

Lemma filter_none {A} (P : A → Prop) `{∀ x, Decision (P x)} (l : list A) :
  (∀ x, x ∈ l → ¬ P x) → filter P l = [].
Proof.
  intros HP. induction l as [|x l IH]; [done|]. rewrite filter_cons_False; [|apply HP; by left].
  apply IH. intros y Hy. apply HP. by right.
Qed.

Lemma filter_kept {A} (P : A → Prop) `{∀ x, Decision (P x)} (l : list A) : Forall P l → filter P l = l.
Proof. induction 1 as [|x l Hx _ IH]; [done|]. by rewrite filter_cons_True, IH. Qed.

Lemma NoDup_fmap_filter {A B} (f : A → B) (P : A → Prop) `{∀ x, Decision (P x)} (l : list A) :
  NoDup (f <$> l) → NoDup (f <$> filter P l).
Proof.
  induction l as [|x l IH]; [done|]. rewrite fmap_cons. intros Hnd.
  inversion Hnd as [|?? Hx Hnd']; subst. destruct (decide (P x)).
  - rewrite filter_cons_True, fmap_cons by done. constructor; [|auto].
    intros Hin. apply Hx. apply list_elem_of_fmap in Hin as (y & -> & Hy).
    apply list_elem_of_filter in Hy as [_ Hy]. by apply list_elem_of_fmap_2.
  - rewrite filter_cons_False by done. auto.
Qed.

Lemma sum_Z_app l1 l2 : sum_Z (l1 ++ l2) = (sum_Z l1 + sum_Z l2)%Z.
Proof. induction l1; simpl; lia. Qed.

Lemma sum_Z_bounds lo hi l :
  Forall (λ z, (lo ≤ z ≤ hi)%Z) l →
  (lo * Z.of_nat (length l) ≤ sum_Z l ≤ hi * Z.of_nat (length l))%Z.
Proof. induction 1; simpl; lia. Qed.

Lemma sum_Z_insert l i x y :
  l !! i = Some x → sum_Z (<[i:=y]> l) = (sum_Z l - x + y)%Z.
Proof.
  revert i. induction l as [|a l IH]; intros [|i] H; simpl in *; [done..| |].
  - injection H as ->. lia.
  - rewrite (IH i H). lia.
Qed.

(** The last [n] elements of a list. *)
Definition lastn {A} (n : nat) (l : list A) : list A := drop (length l - n) l.

Lemma lastn_all {A} n (l : list A) : length l ≤ n → lastn n l = l.
Proof. intros H. unfold lastn. by replace (length l - n) with 0 by lia. Qed.

Lemma lastn_app_lastn {A} n (l1 l2 : list A) :
  lastn n (lastn n l1 ++ l2) = lastn n (l1 ++ l2).
Proof.
  unfold lastn. rewrite !length_app, length_drop, <- (take_drop (length l1 - n) l1) at 1.
  rewrite !drop_app, !drop_drop, take_drop, length_drop.
  f_equal; [f_equal; lia|f_equal; lia].
Qed.

Lemma lastn_app_drop {A} n (l1 l2 : list A) :
  n ≤ length l2 → lastn n (l1 ++ drop (length l2 - n) l2) = lastn n (l1 ++ l2).
Proof.
  intros H. unfold lastn. rewrite !length_app, length_drop, !drop_app, drop_drop.
  rewrite !(drop_ge l1) by lia. simpl. f_equal. lia.
Qed.

Lemma lastn_length {A} n (l : list A) : length (lastn n l) = Nat.min n (length l).
Proof. unfold lastn. rewrite length_drop. lia. Qed.

(** Every case analysis the goal is stuck on. *)
Ltac cases := repeat (case_match; simplify_eq/=).

(** ** Maps *)

Lemma alter_insert_at {K A} `{Countable K} (m : gmap K A) i x (f : A → A) :
  m !! i = Some x → alter f i m = <[i := f x]> m.
Proof.
  intros Hx. apply map_eq. intros j. destruct (decide (j = i)) as [->|Hne].
  - by rewrite lookup_alter_eq, Hx, lookup_insert_eq.
  - by rewrite lookup_alter_ne, lookup_insert_ne.
Qed.

(** Rows inserted one after the other. *)
Lemma fold_insert_rows {K A B} `{Countable K} (l : list (K * (A * B))) (m0 : gmap K (A * B)) :
  fold_left (λ m r, <[r.1.1 := (r.1.2, r.2)]> m) ((λ r, (r.1, r.2.1, r.2.2)) <$> l) m0 =
  fold_left (λ m r, <[r.1 := r.2]> m) l m0.
Proof. revert m0. induction l as [|[i [a b]] l IH]; intros m0; [done|]. cbn. apply IH. Qed.

Lemma fold_insert_lookup {K A} `{Countable K} (l : list (K * A)) (m0 : gmap K A) i x :
  NoDup l.*1 → ((fold_left (λ m r, <[r.1 := r.2]> m) l m0) !! i = Some x) ↔
  (i, x) ∈ l ∨ i ∉ l.*1 ∧ m0 !! i = Some x.
Proof.
  revert m0. induction l as [|[j y] l IH]; intros m0 Hnd; cbn [fold_left fst snd].
  - split; [intros ?; right; split; [by apply not_elem_of_nil|done]|]. by intros [?%not_elem_of_nil|[_ ?]].
  - rewrite fmap_cons in Hnd |- *. inversion Hnd as [|?? Hj Hnd']; subst. rewrite IH, elem_of_cons, not_elem_of_cons by done.
    cbn [fst]. destruct (decide (i = j)) as [->|Hne].
    + rewrite lookup_insert_eq. split.
      * intros [Hin|[_ [= <-]]]; [|by left; left]. by left; right.
      * intros [[[= ->]|Hin]|[[? _] _]]; [by right|by left|done].
    + rewrite lookup_insert_ne by done. naive_solver.
Qed.

Lemma fold_insert_all {K A} `{Countable K} (l : list (K * A)) (m : gmap K A) :
  l ≡ₚ map_to_list m → fold_left (λ m r, <[r.1 := r.2]> m) l ∅ = m ∧
  fold_left (λ m r, <[r.1 := r.2]> m) l m = m.
Proof.
  intros Hl. assert (NoDup l.*1) as Hnd by (rewrite Hl; apply NoDup_fst_map_to_list).
  assert (∀ i x, (i, x) ∈ l ↔ m !! i = Some x) as Hin by (intros i x; rewrite Hl; apply elem_of_map_to_list).
  split; apply map_eq; intros i; apply option_eq; intros x; rewrite fold_insert_lookup, Hin by done.
  - rewrite lookup_empty. naive_solver.
  - naive_solver.
Qed.
