(* ===== verification/Proto.v ===== *)
(** * Proto: the wire types of the crate pyre-proto

    Identifiers, enumerations, records and RPC errors of
    [crates/pyre-proto/src/{lib,sessions,service,blocks}.rs], the control-plane
    handshake of [handshake.rs] and the stream header of [socket.rs].

    Conventions: a [Uuid] is the number its 128 bits denote; a [PathBuf] is the
    string it displays as; a [DateTime<Utc>] is a count of nanoseconds since the
    epoch; a byte buffer is a [list Byte.byte]. *)
From Stdlib Require Import Strings.Byte.
From S2P Require Import Prelude.
Local Open Scope Z_scope.

#[export] Instance byte_eq_decision : EqDecision Byte.byte := Byte.byte_eq_dec.

Abbreviation Uuid := N (only parsing).
Abbreviation PathBuf := string (only parsing).
Abbreviation DateTime := Z (only parsing).
Abbreviation Bytes := (list Byte.byte) (only parsing).

(** ** Identifiers (the [id_newtype!] macro) *)
Record SessionId := MkSessionId { session_uuid : Uuid }.
Record PaneId := MkPaneId { pane_uuid : Uuid }.
Record BlockId := MkBlockId { block_uuid : Uuid }.
Record WindowId := MkWindowId { window_uuid : Uuid }.

#[export] Instance SessionId_eq_dec : EqDecision SessionId.
Proof. solve_decision. Defined.
#[export] Instance PaneId_eq_dec : EqDecision PaneId.
Proof. solve_decision. Defined.
#[export] Instance BlockId_eq_dec : EqDecision BlockId.
Proof. solve_decision. Defined.
#[export] Instance WindowId_eq_dec : EqDecision WindowId.
Proof. solve_decision. Defined.
#[export] Instance SessionId_countable : Countable SessionId.
Proof. by refine (inj_countable' session_uuid MkSessionId _); intros []. Defined.
#[export] Instance PaneId_countable : Countable PaneId.
Proof. by refine (inj_countable' pane_uuid MkPaneId _); intros []. Defined.
#[export] Instance BlockId_countable : Countable BlockId.
Proof. by refine (inj_countable' block_uuid MkBlockId _); intros []. Defined.
#[export] Instance WindowId_countable : Countable WindowId.
Proof. by refine (inj_countable' window_uuid MkWindowId _); intros []. Defined.

(** ** Enumerations *)
Inductive AgentKind :=
  | AgUnknown | AgShell | AgClaudeCode | AgCodex | AgPi | AgOpenCode
  | AgCursorAgent | AgDroid | AgAmp.
#[export] Instance AgentKind_eq_dec : EqDecision AgentKind.
Proof. solve_decision. Defined.

Definition AgentKind_label (a : AgentKind) : string :=
  match a with
  | AgUnknown => "unknown" | AgShell => "shell" | AgClaudeCode => "claude"
  | AgCodex => "codex" | AgPi => "pi" | AgOpenCode => "opencode"
  | AgCursorAgent => "cursor" | AgDroid => "droid" | AgAmp => "amp"
  end.

Inductive PaneStateKind :=
  | Running | WaitingInput | Idle | Interactive | Crashed | Done.
#[export] Instance PaneStateKind_eq_dec : EqDecision PaneStateKind.
Proof. solve_decision. Defined.

Definition PaneStateKind_to_string (s : PaneStateKind) : string :=
  match s with
  | Running => "running" | WaitingInput => "waiting" | Idle => "idle"
  | Interactive => "interactive" | Crashed => "crashed" | Done => "done"
  end.

Inductive PaneEventKind := Spawned | StateChanged | Closed | LayoutChanged.
#[export] Instance PaneEventKind_eq_dec : EqDecision PaneEventKind.
Proof. solve_decision. Defined.

Record PaneEvent := MkPaneEvent {
  ev_seq : Z;
  ev_pane_id : PaneId;
  ev_kind : PaneEventKind;
  ev_state : option PaneStateKind;
  ev_agent : option AgentKind }.

(** ** Requests, replies and listing rows *)
Record PaneSize := MkPaneSize { ps_cols : Z; ps_rows : Z }.

Record Block := MkBlock {
  blk_id : BlockId;
  blk_pane : PaneId;
  blk_session : SessionId;
  blk_command : string;
  blk_cwd : option PathBuf;
  blk_started_at : DateTime;
  blk_ended_at : option DateTime;
  blk_exit_code : option Z;
  blk_stdout_len : Z }.

(** [DateTime::timestamp_millis] rounds towards minus infinity. *)
Definition timestamp_millis (t : DateTime) : Z := t / 1000000.
(** [Utc.timestamp_millis_opt(ms).single()], on the range it is defined on. *)
Definition from_timestamp_millis (ms : Z) : DateTime := ms * 1000000.

(** [Block::duration_ms]: [to_std] fails on a negative difference. *)
Definition duration_ms (b : Block) : option Z :=
  match blk_ended_at b with
  | None => None
  | Some ended =>
      let delta := ended - blk_started_at b in
      if delta <? 0 then None else Some (wrap_u64 (delta / 1000000))
  end.

Record SpawnReq := MkSpawnReq {
  sp_shell : option string;
  sp_cwd : option PathBuf;
  sp_cols : Z;
  sp_rows : Z;
  sp_env : list (string * string);
  sp_name : option string }.

Record OpenPaneReq := MkOpenPaneReq {
  op_session : SessionId;
  op_window : WindowId;
  op_shell : option string;
  op_cwd : option PathBuf;
  op_cols : Z;
  op_rows : Z;
  op_env : list (string * string);
  op_name : option string }.

Record SpawnResp := MkSpawnResp {
  sr_session : SessionId; sr_pane : PaneId; sr_window : WindowId }.

Record AttachAck := MkAttachAck {
  aa_session : SessionId; aa_cols : Z; aa_rows : Z }.

Record SessionInfo := MkSessionInfo {
  si_id : SessionId;
  si_name : string;
  si_pane_count : Z;
  si_created_at : DateTime;
  si_last_active_at : DateTime }.

Record WindowInfo := MkWindowInfo {
  wi_id : WindowId;
  wi_session : SessionId;
  wi_name : string;
  wi_position : Z;
  wi_pane_count : Z;
  wi_created_at : DateTime }.

Record PaneInfo := MkPaneInfo {
  pi_id : PaneId;
  pi_session : SessionId;
  pi_window : WindowId;
  pi_cols : Z;
  pi_rows : Z;
  pi_shell : string;
  pi_created_at : DateTime;
  pi_closed_at : option DateTime;
  pi_state : PaneStateKind;
  pi_state_reason : string;
  pi_last_activity : DateTime;
  pi_foreground_cmd : option string;
  pi_root_pid : Z;
  pi_agent : AgentKind;
  pi_seen : bool;
  pi_name : option string }.

Record ResizePaneReq := MkResizePaneReq { rz_pane_id : PaneId; rz_size : PaneSize }.
Record ReplayBlocks := MkReplayBlocks { rb_recent : list Block; rb_snapshot : Bytes }.
Record ListBlocksReq := MkListBlocksReq { lb_session : option SessionId; lb_limit : Z }.
Record SearchBlocksReq := MkSearchBlocksReq {
  sb_query : string;
  sb_limit : Z;
  sb_failures_only : bool;
  sb_session : option SessionId;
  sb_pane : option PaneId;
  sb_exit_code : option Z }.
Record BlockHit := MkBlockHit { bh_block : Block; bh_snippet : string }.

Record GitInfo := MkGitInfo {
  gi_branch : string;
  gi_dirty : Z;
  gi_ahead : Z;
  gi_behind : Z;
  gi_upstream : option string;
  gi_cwd : option string }.

Inductive PyreError :=
  | NoSuchSession (s : SessionId)
  | NoSuchPane (p : PaneId)
  | SpawnFailed (msg : string)
  | Io (msg : string).

Record OutputFrame := MkOutputFrame {
  of_session : SessionId; of_seq : Z; of_data : Bytes }.
Record InputFrame := MkInputFrame { if_session : SessionId; if_data : Bytes }.

(** ** Block events (blocks.rs) *)
Inductive BlockEvent :=
  | PromptStart (session : SessionId)
  | CommandStart (session : SessionId) (block : BlockId) (command : string)
      (cwd : option PathBuf)
  | OutputChunk (block : BlockId) (data : Bytes)
  | BlockEnd (block : BlockId) (exit_code : option Z).

(** ** Bytes and fixed-width integers *)
Definition byte_to_Z (b : Byte.byte) : Z := Z.of_N (Byte.to_N b).
Definition byte_of_Z (z : Z) : Byte.byte :=
  default x00 (Byte.of_N (Z.to_N (z mod 256))).

(** [u32::to_le_bytes] and [u32::from_le_bytes]. *)
Fixpoint to_le_bytes (n : nat) (z : Z) : Bytes :=
  match n with
  | O => []
  | S n' => byte_of_Z z :: to_le_bytes n' (z / 256)
  end.
Fixpoint from_le_bytes (bs : Bytes) : Z :=
  match bs with
  | [] => 0
  | b :: bs' => byte_to_Z b + 256 * from_le_bytes bs'
  end.

(** [Uuid::as_bytes] and [Uuid::from_bytes]: sixteen bytes, big-endian. *)
Definition uuid_as_bytes (u : Uuid) : Bytes := rev (to_le_bytes 16 (Z.of_N u)).
Definition uuid_from_bytes (bs : Bytes) : Uuid := Z.to_N (from_le_bytes (rev bs)).

(** ** Handshake *)
Definition MODE_CONTROL : Byte.byte := x01.
Definition MODE_STREAM : Byte.byte := x02.
Definition PROTO_VERSION : Z := 7.

Inductive IoError :=
  | UnexpectedEof
  | VersionMismatch (client server : Z)
  | ExpectedControlTag (got : Byte.byte)
  | UnknownModeTag (got : Byte.byte).

(** [AsyncReadExt::read_exact] on the bytes the peer will have sent. *)
Definition read_exact (n : nat) (input : Bytes) : result IoError (Bytes * Bytes) :=
  if (n <=? length input)%nat then Ok (take n input, drop n input)
  else Err UnexpectedEof.

(** The bytes a client writes before the tarpc transport starts. *)
Definition write_control_client : Bytes :=
  MODE_CONTROL :: to_le_bytes 4 PROTO_VERSION.

(** On success the functions return what is left of the input. *)
Definition read_control_version_after_tag (input : Bytes) : result IoError Bytes :=
  let? rd := read_exact 4 input in
  let client_ver := from_le_bytes rd.1 in
  if decide (client_ver ≠ PROTO_VERSION)
  then Err (VersionMismatch client_ver PROTO_VERSION)
  else Ok rd.2.

Definition read_control_server (input : Bytes) : result IoError Bytes :=
  let? rd := read_exact 1 input in
  match rd.1 with
  | [tag] =>
      if decide (tag ≠ MODE_CONTROL) then Err (ExpectedControlTag tag)
      else read_control_version_after_tag rd.2
  | _ => Err UnexpectedEof
  end.

(** The header [attach_stream] writes on a stream connection. *)
Definition attach_stream (session : SessionId) (pane : PaneId) : Bytes :=
  [MODE_STREAM] ++ uuid_as_bytes (session_uuid session)
    ++ uuid_as_bytes (pane_uuid pane).

(** What [handle_conn] (pyred/src/main.rs) does with a new connection: the mode
    tag selects the control transport, after the version check, or the stream
    handler, which starts by reading the two identifiers. *)
Inductive Conn :=
  | ControlConn (rest : Bytes)
  | StreamConn (session : SessionId) (pane : PaneId) (rest : Bytes).

Definition read_stream_header (input : Bytes) :
    result IoError (SessionId * PaneId * Bytes) :=
  let? r1 := read_exact 16 input in
  let? r2 := read_exact 16 r1.2 in
  Ok (MkSessionId (uuid_from_bytes r1.1), MkPaneId (uuid_from_bytes r2.1), r2.2).

Definition handle_conn (input : Bytes) : result IoError Conn :=
  let? rd := read_exact 1 input in
  match rd.1 with
  | [tag] =>
      if decide (tag = MODE_CONTROL) then
        let? rest := read_control_version_after_tag rd.2 in Ok (ControlConn rest)
      else if decide (tag = MODE_STREAM) then
        let? h := read_stream_header rd.2 in
        Ok (StreamConn h.1.1 h.1.2 h.2)
      else Err (UnknownModeTag tag)
  | _ => Err UnexpectedEof
  end.

(** ** Lemmas on bytes and little-endian numbers *)
Lemma byte_to_Z_range b : 0 <= byte_to_Z b < 256.
Proof. unfold byte_to_Z. pose proof (Byte.to_N_bounded b). lia. Qed.

Lemma byte_of_to_Z b : byte_of_Z (byte_to_Z b) = b.
Proof.
  unfold byte_of_Z. rewrite Z.mod_small by apply byte_to_Z_range.
  unfold byte_to_Z. by rewrite N2Z.id, Byte.of_to_N.
Qed.

Lemma byte_to_of_Z z : byte_to_Z (byte_of_Z z) = z mod 256.
Proof.
  unfold byte_of_Z, byte_to_Z.
  assert (0 <= z mod 256 < 256) by (apply Z.mod_pos_bound; lia).
  destruct (Byte.of_N _) as [b|] eqn:E; simpl.
  - apply Byte.to_of_N in E. rewrite E. lia.
  - apply Byte.of_N_None_iff in E. lia.
Qed.

Lemma to_le_bytes_length n z : length (to_le_bytes n z) = n.
Proof. revert z. induction n; intros; simpl; auto. Qed.

Lemma from_to_le_bytes n z :
  0 <= z < 256 ^ Z.of_nat n → from_le_bytes (to_le_bytes n z) = z.
Proof.
  revert z. induction n as [|n IH]; intros z Hz; simpl; [simpl in Hz; lia|].
  rewrite Nat2Z.inj_succ, Z.pow_succ_r in Hz by lia.
  rewrite byte_to_of_Z, IH.
  - pose proof (Z.div_mod z 256). lia.
  - split; [apply Z.div_pos; lia|]. apply Z.div_lt_upper_bound; lia.
Qed.

Lemma to_from_le_bytes bs : to_le_bytes (length bs) (from_le_bytes bs) = bs.
Proof.
  induction bs as [|b bs IH]; [done|]. cbn [length to_le_bytes from_le_bytes].
  pose proof (byte_to_Z_range b) as Hb. f_equal.
  - rewrite <- (byte_of_to_Z b) at 2. unfold byte_of_Z.
    rewrite (Z.mul_comm 256), Z_mod_plus_full, !Z.mod_small by lia. done.
  - rewrite (Z.mul_comm 256), Z.div_add, Z.div_small by lia. by rewrite Z.add_0_l.
Qed.

Lemma read_exact_ok n input r rest :
  read_exact n input = Ok (r, rest) ↔ length r = n ∧ input = r ++ rest.
Proof.
  unfold read_exact. case_match eqn:E; split.
  - apply Nat.leb_le in E. intros [= <- <-]. rewrite take_drop, length_take. split; [lia|done].
  - intros [<- ->]. by rewrite take_app_length, drop_app_length.
  - done.
  - intros [<- ->]. apply Nat.leb_gt in E. rewrite length_app in E. lia.
Qed.

Lemma read_exact_app r rest : read_exact (length r) (r ++ rest) = Ok (r, rest).
Proof. by apply read_exact_ok. Qed.

Lemma read_exact_1 b rest : read_exact 1 (b :: rest) = Ok ([b], rest).
Proof. done. Qed.

Lemma uuid_as_bytes_length u : length (uuid_as_bytes u) = 16%nat.
Proof. unfold uuid_as_bytes. by rewrite length_rev, to_le_bytes_length. Qed.

Lemma uuid_bytes_roundtrip u :
  (u < 2 ^ 128)%N → uuid_from_bytes (uuid_as_bytes u) = u.
Proof.
  intros Hu. unfold uuid_from_bytes, uuid_as_bytes. rewrite rev_involutive.
  rewrite from_to_le_bytes; [apply N2Z.id|].
  change (256 ^ Z.of_nat 16) with (Z.of_N (2 ^ 128)). lia.
Qed.

Lemma read_version_ok input rest :
  read_control_version_after_tag input = Ok rest ↔
  input = to_le_bytes 4 PROTO_VERSION ++ rest.
Proof.
  unfold read_control_version_after_tag. split.
  - destruct (read_exact 4 input) as [[ver tl]|] eqn:E; [|done].
    apply read_exact_ok in E as [Hlen ->]. cbn [fst snd].
    case_decide as Hv; [done|]. intros [= <-]. f_equal.
    rewrite <- Hv, <- Hlen at 1. by rewrite to_from_le_bytes.
  - intros ->. change 4%nat with (length (to_le_bytes 4 PROTO_VERSION)).
    by rewrite read_exact_app.
Qed.

Lemma read_stream_header_app s p rest :
  (session_uuid s < 2 ^ 128)%N → (pane_uuid p < 2 ^ 128)%N →
  read_stream_header (uuid_as_bytes (session_uuid s)
                        ++ uuid_as_bytes (pane_uuid p) ++ rest) = Ok (s, p, rest).
Proof.
  intros Hs Hp. unfold read_stream_header.
  rewrite <- (uuid_as_bytes_length (session_uuid s)) at 1. rewrite read_exact_app.
  cbn [fst snd]. rewrite <- (uuid_as_bytes_length (pane_uuid p)) at 1.
  rewrite read_exact_app. cbn [fst snd].
  rewrite !uuid_bytes_roundtrip by done. by destruct s, p.
Qed.

(** ** Properties *)

(** The control handshake accepts exactly the connections that start with
    the mode tag and the server's own protocol version: for every input, the
    server goes on with the remaining bytes if and only if the input is what
    [write_control_client] writes followed by them. Every other input, another
    version or a truncated header included, is rejected. *)
Theorem handshake_accepts_exactly input rest :
  read_control_server input = Ok rest ↔ input = write_control_client ++ rest.
Proof.
  unfold read_control_server. split.
  - destruct (read_exact 1 input) as [[tag tl]|] eqn:E; [|done].
    apply read_exact_ok in E as [Hlen ->]. cbn [fst snd].
    destruct tag as [|tag [|]]; [done| |done].
    case_decide as Htag; [done|]. rewrite read_version_ok. intros ->. by subst.
  - intros ->. unfold write_control_client. cbn [app]. rewrite read_exact_1.
    cbn [fst snd]. case_decide; [done|]. by apply read_version_ok.
Qed.

(** a connection opened by a client of the same version reaches the handler
    it asked for with nothing lost: the bytes of [write_control_client] lead
    to the control transport, and the header of [attach_stream] leads to the
    stream handler with the very session and pane identifiers it was given, the
    bytes that follow being left for the transport. *)
Theorem connection_dispatch_roundtrip s p rest
    (Hs : (session_uuid s < 2 ^ 128)%N) (Hp : (pane_uuid p < 2 ^ 128)%N) :
  handle_conn (write_control_client ++ rest) = Ok (ControlConn rest) ∧
  handle_conn (attach_stream s p ++ rest) = Ok (StreamConn s p rest).
Proof.
  unfold handle_conn. split.
  - unfold write_control_client. cbn [app]. rewrite read_exact_1. cbn [fst snd].
    case_decide; [|done]. by rewrite (proj2 (read_version_ok _ rest) eq_refl).
  - unfold attach_stream. cbn [app]. rewrite read_exact_1. cbn [fst snd].
    case_decide as H1; [done|]. case_decide as H2; [|done].
    by rewrite <- app_assoc, read_stream_header_app.
Qed.

Lemma connection_dispatch_roundtrip_witness :
  handle_conn (attach_stream (MkSessionId 5) (MkPaneId 77) ++ [x2a])
  = Ok (StreamConn (MkSessionId 5) (MkPaneId 77) [x2a]).
Proof.
  apply (connection_dispatch_roundtrip (MkSessionId 5) (MkPaneId 77) [x2a]);
    vm_compute; reflexivity.
Defined.
