(* ===== verification/Text.v ===== *)
(** * Text: the operations of Rust's [str] the daemon uses

    A [String] is the [string] of its UTF-8 bytes. This file models the parts of
    the Rust standard library the program's text handling goes through: UTF-8
    encoding, [str::from_utf8], [String::from_utf8_lossy], [trim], [lines],
    [find], [strip_prefix], [parse] for integers and their [Display]. *)
From Stdlib Require Import Strings.Byte.
From S2P Require Import Prelude Proto.
Local Open Scope Z_scope.

Definition str_bytes (s : string) : Bytes := String.list_byte_of_string s.
Definition bytes_str (bs : Bytes) : string := String.string_of_list_byte bs.

Lemma bytes_str_bytes s : bytes_str (str_bytes s) = s.
Proof. apply String.string_of_list_byte_of_string. Qed.
Lemma str_bytes_str bs : str_bytes (bytes_str bs) = bs.
Proof. apply String.list_byte_of_string_of_list_byte. Qed.

(** ** UTF-8 *)
Definition in_range (lo hi z : Z) : bool := (lo <=? z) && (z <=? hi).
Definition is_scalar (c : Z) : bool := in_range 0 0xD7FF c || in_range 0xE000 0x10FFFF c.

(** [char::encode_utf8] *)
Definition encode_char (c : Z) : Bytes :=
  if c <? 0x80 then [byte_of_Z c]
  else if c <? 0x800 then [byte_of_Z (0xC0 + c / 64); byte_of_Z (0x80 + c mod 64)]
  else if c <? 0x10000 then
    [byte_of_Z (0xE0 + c / 4096); byte_of_Z (0x80 + c / 64 mod 64);
     byte_of_Z (0x80 + c mod 64)]
  else
    [byte_of_Z (0xF0 + c / 262144); byte_of_Z (0x80 + c / 4096 mod 64);
     byte_of_Z (0x80 + c / 64 mod 64); byte_of_Z (0x80 + c mod 64)].

Definition encode (cs : list Z) : Bytes := flat_map encode_char cs.

Definition is_cont (z : Z) : bool := in_range 0x80 0xBF z.
(** The second byte allowed after a three- or four-byte lead. *)
Definition second3 (z0 z1 : Z) : bool :=
  if z0 =? 0xE0 then in_range 0xA0 0xBF z1
  else if z0 =? 0xED then in_range 0x80 0x9F z1 else is_cont z1.
Definition second4 (z0 z1 : Z) : bool :=
  if z0 =? 0xF0 then in_range 0x90 0xBF z1
  else if z0 =? 0xF4 then in_range 0x80 0x8F z1 else is_cont z1.

(** One entry per character, [None] for each maximal invalid sequence. *)
Fixpoint utf8_chunks (bs : Bytes) : list (option Z) :=
  match bs with
  | [] => []
  | b0 :: r0 =>
      let z0 := byte_to_Z b0 in
      if z0 <? 0x80 then Some z0 :: utf8_chunks r0
      else if in_range 0xC2 0xDF z0 then
        match r0 with
        | b1 :: r1 =>
            let z1 := byte_to_Z b1 in
            if is_cont z1 then Some ((z0 - 0xC0) * 64 + (z1 - 0x80)) :: utf8_chunks r1
            else None :: utf8_chunks r0
        | [] => [None]
        end
      else if in_range 0xE0 0xEF z0 then
        match r0 with
        | b1 :: r1 =>
            let z1 := byte_to_Z b1 in
            if second3 z0 z1 then
              match r1 with
              | b2 :: r2 =>
                  let z2 := byte_to_Z b2 in
                  if is_cont z2
                  then Some ((z0 - 0xE0) * 4096 + (z1 - 0x80) * 64 + (z2 - 0x80)) :: utf8_chunks r2
                  else None :: utf8_chunks r1
              | [] => [None]
              end
            else None :: utf8_chunks r0
        | [] => [None]
        end
      else if in_range 0xF0 0xF4 z0 then
        match r0 with
        | b1 :: r1 =>
            let z1 := byte_to_Z b1 in
            if second4 z0 z1 then
              match r1 with
              | b2 :: r2 =>
                  let z2 := byte_to_Z b2 in
                  if is_cont z2 then
                    match r2 with
                    | b3 :: r3 =>
                        let z3 := byte_to_Z b3 in
                        if is_cont z3
                        then Some ((z0 - 0xF0) * 262144 + (z1 - 0x80) * 4096
                                   + (z2 - 0x80) * 64 + (z3 - 0x80)) :: utf8_chunks r3
                        else None :: utf8_chunks r2
                    | [] => [None]
                    end
                  else None :: utf8_chunks r1
              | [] => [None]
              end
            else None :: utf8_chunks r0
        | [] => [None]
        end
      else None :: utf8_chunks r0
  end.

(** [str::from_utf8] and [String::from_utf8_lossy], as characters. *)
Definition from_utf8 (bs : Bytes) : option (list Z) := mapM id (utf8_chunks bs).
Definition from_utf8_lossy (bs : Bytes) : list Z := default 0xFFFD <$> utf8_chunks bs.

Definition chars (s : string) : list Z := from_utf8_lossy (str_bytes s).
Definition of_chars (cs : list Z) : string := bytes_str (encode cs).

(** ** Trimming: Unicode [White_Space] *)
Definition is_whitespace (c : Z) : bool :=
  in_range 9 13 c || (c =? 0x20) || (c =? 0x85) || (c =? 0xA0) || (c =? 0x1680)
  || in_range 0x2000 0x200A c || (c =? 0x2028) || (c =? 0x2029) || (c =? 0x202F)
  || (c =? 0x205F) || (c =? 0x3000).

Fixpoint drop_while {A} (f : A → bool) (l : list A) : list A :=
  match l with
  | [] => []
  | x :: l' => if f x then drop_while f l' else l
  end.
Fixpoint take_while {A} (f : A → bool) (l : list A) : list A :=
  match l with
  | [] => []
  | x :: l' => if f x then x :: take_while f l' else []
  end.

Definition trim_end (cs : list Z) : list Z := rev (drop_while is_whitespace (rev cs)).
Definition trim (cs : list Z) : list Z := trim_end (drop_while is_whitespace cs).
Definition str_trim (s : string) : string := of_chars (trim (chars s)).

(** ** Searching and splitting on ASCII patterns *)
Definition starts_with (pat l : Bytes) : bool := bool_decide (take (length pat) l = pat).
Definition strip_prefix (pat l : Bytes) : option Bytes :=
  if starts_with pat l then Some (drop (length pat) l) else None.
Fixpoint find_sub (pat l : Bytes) : option nat :=
  if starts_with pat l then Some 0%nat
  else match l with [] => None | _ :: l' => S <$> find_sub pat l' end.
Definition contains_sub (pat l : Bytes) : bool := bool_decide (is_Some (find_sub pat l)).

(** [str::split] on one byte: always at least one part. *)
Fixpoint split_on (c : Byte.byte) (l : Bytes) : list Bytes :=
  match l with
  | [] => [[]]
  | b :: l' =>
      if decide (b = c) then [] :: split_on c l'
      else match split_on c l' with
           | p :: ps => (b :: p) :: ps
           | [] => [[b]]
           end
  end.

Definition strip_cr (l : Bytes) : Bytes :=
  match rev l with x0d :: r => rev r | _ => l end.
(** [str::lines]: the parts between newlines, a carriage return before the
    newline dropped, no empty last line. *)
Fixpoint lines_of (parts : list Bytes) : list Bytes :=
  match parts with
  | [] => []
  | [last] => if decide (last = []) then [] else [last]
  | p :: ps => strip_cr p :: lines_of ps
  end.
Definition lines (l : Bytes) : list Bytes := lines_of (split_on x0a l).

(** ** Decimal integers *)
Definition is_ascii_digit (b : Byte.byte) : bool := in_range 48 57 (byte_to_Z b).
Definition digits_value (ds : Bytes) : Z := fold_left (λ a d, a * 10 + (byte_to_Z d - 48)) ds 0.
Definition parse_digits (ds : Bytes) : option Z :=
  if (0 <? Z.of_nat (length ds)) && forallb is_ascii_digit ds
  then Some (digits_value ds) else None.

(** [str::parse::<u32>] and [str::parse::<i32>] *)
Definition parse_u32 (l : Bytes) : option Z :=
  let ds := match l with x2b :: ds => ds | _ => l end in
  v ← parse_digits ds; if v <=? 4294967295 then Some v else None.
Definition parse_i32 (l : Bytes) : option Z :=
  match l with
  | x2d :: ds => v ← parse_digits ds; if v <=? 2147483648 then Some (- v) else None
  | x2b :: ds => v ← parse_digits ds; if v <=? 2147483647 then Some v else None
  | _ => v ← parse_digits l; if v <=? 2147483647 then Some v else None
  end.

(** [Display] of an unsigned integer of at most twenty digits. *)
Fixpoint digits_rev (fuel : nat) (n : Z) : Bytes :=
  match fuel with
  | O => []
  | S fuel' => byte_of_Z (48 + n mod 10) :: (if n <? 10 then [] else digits_rev fuel' (n / 10))
  end.
Definition show_uint (n : Z) : Bytes := rev (digits_rev 20 n).
Definition show_int (n : Z) : Bytes := if n <? 0 then x2d :: show_uint (- n) else show_uint n.
Definition show_Z (z : Z) : string := bytes_str (show_int z).
(** The character [\u{22}], which a literal here cannot hold. *)
Definition dq : string := bytes_str [x22].
(** [replace('\n', " ")] *)
Definition one_line (s : string) : string := bytes_str ((λ b, if decide (b = x0a) then x20 else b) <$> str_bytes s).

(** ** Lemmas: UTF-8 *)
Lemma in_range_spec lo hi z : in_range lo hi z = true ↔ lo ≤ z ≤ hi.
Proof. unfold in_range. rewrite andb_true_iff, !Z.leb_le. lia. Qed.
Lemma in_range_false lo hi z : in_range lo hi z = false ↔ ¬ (lo ≤ z ≤ hi).
Proof. rewrite <- in_range_spec. by destruct (in_range lo hi z). Qed.

Lemma byte_to_of_Z_small z : 0 ≤ z < 256 → byte_to_Z (byte_of_Z z) = z.
Proof. intros. by rewrite byte_to_of_Z, Z.mod_small. Qed.

Ltac range :=
  repeat match goal with
  | |- context [in_range ?a ?b ?z] =>
      first [ rewrite (proj2 (in_range_spec a b z)) by lia
            | rewrite (proj2 (in_range_false a b z)) by lia ]
  | |- context [?a <? ?b] =>
      first [ rewrite (proj2 (Z.ltb_lt a b)) by lia | rewrite (proj2 (Z.ltb_ge a b)) by lia ]
  | |- context [?a =? ?b] =>
      first [ rewrite (proj2 (Z.eqb_eq a b)) by lia | rewrite (proj2 (Z.eqb_neq a b)) by lia
            | destruct (Z.eqb_spec a b) ]
  end.

Lemma utf8_chunks_char c rest :
  is_scalar c = true → utf8_chunks (encode_char c ++ rest) = Some c :: utf8_chunks rest.
Proof.
  unfold is_scalar. rewrite orb_true_iff, !in_range_spec. intros Hc. unfold encode_char.
  pose proof (Z.div_mod c 64 ltac:(lia)). pose proof (Z.mod_pos_bound c 64 ltac:(lia)).
  pose proof (Z.div_mod (c / 64) 64 ltac:(lia)). pose proof (Z.mod_pos_bound (c / 64) 64 ltac:(lia)).
  pose proof (Z.div_mod (c / 4096) 64 ltac:(lia)). pose proof (Z.mod_pos_bound (c / 4096) 64 ltac:(lia)).
  assert (c / 64 / 64 = c / 4096) as E1 by (rewrite Z.div_div; f_equal; lia).
  assert (c / 4096 / 64 = c / 262144) as E2 by (rewrite Z.div_div; f_equal; lia).
  rewrite ?E1, ?E2 in *.
  destruct (Z.ltb_spec c 0x80); [|destruct (Z.ltb_spec c 0x800); [|destruct (Z.ltb_spec c 0x10000)]];
    cbn [app utf8_chunks]; rewrite ?byte_to_of_Z_small by lia; unfold second3, second4, is_cont.
  - by range.
  - range. do 2 f_equal; lia.
  - range; do 2 f_equal; lia.
  - range; do 2 f_equal; lia.
Qed.

Lemma utf8_chunks_encode cs :
  Forall (λ c, is_scalar c = true) cs → utf8_chunks (encode cs) = Some <$> cs.
Proof.
  induction 1 as [|c cs Hc Hcs IH]; [done|].
  cbn [encode flat_map]. rewrite utf8_chunks_char by done. rewrite fmap_cons. f_equal. exact IH.
Qed.

Lemma from_utf8_encode cs :
  Forall (λ c, is_scalar c = true) cs → from_utf8 (encode cs) = Some cs.
Proof.
  intros H. unfold from_utf8. rewrite utf8_chunks_encode by done.
  apply mapM_Some. clear H. induction cs; constructor; done.
Qed.

Lemma from_utf8_lossy_encode cs :
  Forall (λ c, is_scalar c = true) cs → from_utf8_lossy (encode cs) = cs.
Proof.
  intros H. unfold from_utf8_lossy. rewrite utf8_chunks_encode by done.
  rewrite <- list_fmap_compose. by apply list_fmap_id.
Qed.

(** ** Lemmas: decimal integers *)
Lemma digits_value_app ds d :
  digits_value (ds ++ [d]) = digits_value ds * 10 + (byte_to_Z d - 48).
Proof. unfold digits_value. by rewrite fold_left_app. Qed.

Lemma digits_rev_S fuel n :
  digits_rev (S fuel) n
  = byte_of_Z (48 + n mod 10) :: (if n <? 10 then [] else digits_rev fuel (n / 10)).
Proof. done. Qed.

Lemma digits_rev_digits fuel n :
  0 ≤ n → Forall (λ b, is_ascii_digit b = true) (digits_rev fuel n).
Proof.
  revert n. induction fuel as [|fuel IH]; intros n Hn; [constructor|].
  rewrite digits_rev_S. constructor.
  - unfold is_ascii_digit. rewrite byte_to_of_Z_small, in_range_spec;
      pose proof (Z.mod_pos_bound n 10 ltac:(lia)); lia.
  - destruct (n <? 10); [constructor|]. apply IH. apply Z.div_pos; lia.
Qed.

Lemma digits_rev_value fuel n :
  0 ≤ n < 10 ^ Z.of_nat fuel → digits_value (rev (digits_rev fuel n)) = n.
Proof.
  revert n. induction fuel as [|fuel IH]; intros n Hn.
  - simpl in *. unfold digits_value. simpl. lia.
  - rewrite digits_rev_S. cbn [rev]. rewrite digits_value_app.
    pose proof (Z.div_mod n 10 ltac:(lia)). pose proof (Z.mod_pos_bound n 10 ltac:(lia)).
    rewrite byte_to_of_Z_small by lia.
    rewrite Nat2Z.inj_succ, Z.pow_succ_r in Hn by lia.
    destruct (Z.ltb_spec n 10).
    + cbn [rev]. unfold digits_value. simpl. lia.
    + rewrite IH; [lia|]. split; [lia|]. apply Z.div_lt_upper_bound; lia.
Qed.

Lemma show_uint_digits n :
  0 ≤ n → Forall (λ b, is_ascii_digit b = true) (show_uint n).
Proof. intros. unfold show_uint. apply Forall_rev. by apply digits_rev_digits. Qed.

Lemma show_uint_nonempty n : show_uint n ≠ [].
Proof.
  unfold show_uint. rewrite (digits_rev_S 19). cbn [rev]. intros H.
  by apply app_eq_nil in H as [_ ?].
Qed.

Lemma parse_digits_show n : 0 ≤ n < 10 ^ 20 → parse_digits (show_uint n) = Some n.
Proof.
  intros Hn. unfold parse_digits. pose proof (show_uint_nonempty n) as Hne.
  assert (forallb is_ascii_digit (show_uint n) = true) as ->.
  { apply forallb_forall. intros x Hx. pose proof (show_uint_digits n ltac:(lia)) as HF.
    rewrite Forall_forall in HF. apply HF. by apply list_elem_of_In. }
  destruct (show_uint n) eqn:E; [done|]. simpl. f_equal. rewrite <- E.
  unfold show_uint. by apply (digits_rev_value 20).
Qed.

Lemma parse_u32_show n : 0 ≤ n ≤ 4294967295 → parse_u32 (show_uint n) = Some n.
Proof.
  intros Hn. unfold parse_u32.
  assert (match show_uint n with x2b :: ds => ds | _ => show_uint n end = show_uint n) as ->.
  { pose proof (show_uint_digits n ltac:(lia)) as H. destruct (show_uint n) as [|b ds]; [done|].
    inversion H as [|?? Hb]; subst. by destruct b. }
  rewrite parse_digits_show by lia. cbn [mbind option_bind].
  by rewrite (proj2 (Z.leb_le _ _)) by lia.
Qed.

Lemma parse_i32_show n : -2147483648 ≤ n ≤ 2147483647 → parse_i32 (show_int n) = Some n.
Proof.
  intros Hn. unfold show_int. destruct (Z.ltb_spec n 0).
  - cbn [parse_i32]. rewrite parse_digits_show by lia. cbn [mbind option_bind].
    rewrite (proj2 (Z.leb_le _ _)) by lia. f_equal. lia.
  - unfold parse_i32. pose proof (show_uint_digits n ltac:(lia)) as HF.
    pose proof (parse_digits_show n ltac:(lia)) as Hp.
    destruct (show_uint n) as [|b ds] eqn:E; [by apply show_uint_nonempty in E|].
    inversion HF as [|?? Hb]; subst.
    assert (b ≠ x2d ∧ b ≠ x2b) as [??] by (by split; intros ->).
    destruct b; try done; rewrite Hp; cbn [mbind option_bind];
      by rewrite (proj2 (Z.leb_le _ _)) by lia.
Qed.

(** ** Lemmas: searching *)
Lemma starts_with_spec pat l : starts_with pat l = true ↔ ∃ r, l = pat ++ r.
Proof.
  unfold starts_with. rewrite bool_decide_eq_true. split.
  - intros H. exists (drop (length pat) l). rewrite <- H at 1. by rewrite take_drop.
  - intros [r ->]. by rewrite take_app_length.
Qed.

Lemma starts_with_app pat r : starts_with pat (pat ++ r) = true.
Proof. apply starts_with_spec. eauto. Qed.

Lemma strip_prefix_app pat r : strip_prefix pat (pat ++ r) = Some r.
Proof. unfold strip_prefix. by rewrite starts_with_app, drop_app_length. Qed.

Lemma find_sub_found pat l i :
  find_sub pat l = Some i →
  (∃ a r, l = a ++ pat ++ r ∧ length a = i)%nat.
Proof.
  revert i. induction l as [|b l IH]; intros i; simpl.
  - destruct (starts_with pat []) eqn:E; [|done]. intros [= <-].
    apply starts_with_spec in E as [r E]. exists [], r. done.
  - destruct (starts_with pat (b :: l)) eqn:E.
    + intros [= <-]. apply starts_with_spec in E as [r E]. exists [], r. by rewrite E.
    + destruct (find_sub pat l) as [j|]; [|done]. intros [= <-].
      destruct (IH j eq_refl) as (a & r & -> & <-). by exists (b :: a), r.
Qed.

(** A pattern whose first byte is not in [a] is found right after [a]. *)
Lemma find_sub_skip c pat a r :
  c ∉ a → find_sub (c :: pat) (a ++ (c :: pat) ++ r) = Some (length a).
Proof.
  induction a as [|b a IH]; intros Ha.
  - simpl app. destruct (starts_with (c :: pat) (c :: pat ++ r)) eqn:E.
    + simpl. by rewrite E.
    + exfalso. pose proof (starts_with_app (c :: pat) r) as H. simpl in H. congruence.
  - rewrite not_elem_of_cons in Ha. destruct Ha as [Hbc Ha].
    cbn [app find_sub length]. destruct (starts_with (c :: pat) (b :: a ++ c :: pat ++ r)) eqn:E.
    + apply starts_with_spec in E as [r' E]. by injection E as ->.
    + specialize (IH Ha). cbn [app] in IH. by rewrite IH.
Qed.

Lemma find_sub_absent c pat l : c ∉ l → find_sub (c :: pat) l = None.
Proof.
  intros H. destruct (find_sub (c :: pat) l) as [i|] eqn:E; [|done].
  apply find_sub_found in E as (a & r & -> & _).
  exfalso. apply H. set_solver.
Qed.

Lemma split_on_nonempty c l : split_on c l ≠ [].
Proof. induction l as [|b l IH]; simpl; [done|]. case_decide; [done|]. by destruct (split_on c l). Qed.

Lemma split_on_app c a r : c ∉ a → split_on c (a ++ c :: r) = a :: split_on c r.
Proof.
  induction a as [|b a IH]; intros Ha; simpl; [by rewrite decide_True|].
  rewrite not_elem_of_cons in Ha. destruct Ha as [Hb Ha].
  rewrite decide_False by done. by rewrite IH.
Qed.

Lemma split_on_absent c a : c ∉ a → split_on c a = [a].
Proof.
  induction a as [|b a IH]; intros Ha; simpl; [done|].
  rewrite not_elem_of_cons in Ha. destruct Ha as [Hb Ha].
  rewrite decide_False by done. by rewrite IH.
Qed.

Lemma strip_cr_id l : x0d ∉ l → strip_cr l = l.
Proof.
  intros H. unfold strip_cr. destruct (rev l) as [|b r] eqn:E; [done|].
  assert (b ≠ x0d) as Hb.
  { intros ->. apply H. rewrite <- (rev_involutive l), E. cbn [rev]. set_solver. }
  by destruct b.
Qed.

(** Newline-terminated lines come back. *)
Lemma lines_unlines ls :
  Forall (λ l, (x0a ∉ l) ∧ (x0d ∉ l)) ls → lines (flat_map (λ l, l ++ [x0a]) ls) = ls.
Proof.
  unfold lines. induction 1 as [|l ls [H1 H2] Hls IH]; [done|].
  cbn [flat_map]. rewrite <- app_assoc. cbn [app]. rewrite split_on_app by done.
  cbn [lines_of]. rewrite strip_cr_id by done.
  destruct (split_on x0a _) eqn:E; [by apply split_on_nonempty in E|]. by rewrite IH.
Qed.

(** ** Lemmas: ASCII text *)
Definition is_ascii (b : Byte.byte) : Prop := byte_to_Z b < 0x80.

Lemma utf8_chunks_ascii bs :
  Forall is_ascii bs → utf8_chunks bs = Some <$> (byte_to_Z <$> bs).
Proof.
  induction 1 as [|b bs Hb H IH]; [done|]. cbn [utf8_chunks]. unfold is_ascii in Hb.
  rewrite (proj2 (Z.ltb_lt _ _)) by done. rewrite !fmap_cons. by f_equal.
Qed.

Lemma from_utf8_ascii bs : Forall is_ascii bs → from_utf8 bs = Some (byte_to_Z <$> bs).
Proof.
  intros H. unfold from_utf8. rewrite utf8_chunks_ascii by done.
  apply mapM_Some. clear H. induction bs; constructor; done.
Qed.

Lemma encode_ascii bs : Forall is_ascii bs → encode (byte_to_Z <$> bs) = bs.
Proof.
  induction 1 as [|b bs Hb H IH]; [done|]. rewrite fmap_cons. cbn [encode flat_map].
  unfold encode_char at 1. unfold is_ascii in Hb. rewrite (proj2 (Z.ltb_lt _ _)) by done.
  rewrite byte_of_to_Z. cbn [app]. f_equal. exact IH.
Qed.

Lemma drop_while_none {A} (f : A → bool) l : Forall (λ x, f x = false) l → drop_while f l = l.
Proof. destruct 1 as [|x l Hx]; [done|]. simpl. by rewrite Hx. Qed.

Lemma trim_none cs : Forall (λ c, is_whitespace c = false) cs → trim cs = cs.
Proof.
  intros H. unfold trim, trim_end. rewrite (drop_while_none _ cs) by done.
  rewrite drop_while_none by (by apply Forall_rev). apply rev_involutive.
Qed.

(** The text of an i32 survives trimming and is ASCII. *)
Lemma show_int_clean n :
  Forall (λ b, is_ascii b ∧ is_whitespace (byte_to_Z b) = false) (show_int n).
Proof.
  assert (∀ m, 0 ≤ m → Forall (λ b, is_ascii b ∧ is_whitespace (byte_to_Z b) = false) (show_uint m)) as Hu.
  { intros m Hm. eapply Forall_impl; [by apply show_uint_digits|]. intros b Hb. by destruct b. }
  unfold show_int. destruct (Z.ltb_spec n 0); [constructor; [done|]|]; apply Hu; lia.
Qed.

Lemma parse_shown_int n :
  -2147483648 ≤ n ≤ 2147483647 →
  (cs ← from_utf8 (show_int n); parse_i32 (encode (trim cs))) = Some n.
Proof.
  intros Hn. pose proof (show_int_clean n) as H.
  apply Forall_and in H as [H1 H2]. rewrite from_utf8_ascii by done. cbn [mbind option_bind].
  rewrite trim_none by (by apply Forall_fmap). rewrite encode_ascii by done. by apply parse_i32_show.
Qed.

(** [str::split_whitespace] *)
Fixpoint split_whitespace_go (acc : list Z) (cs : list Z) : list (list Z) :=
  match cs with
  | [] => if decide (acc = []) then [] else [acc]
  | c :: cs' =>
      if is_whitespace c
      then (if decide (acc = []) then [] else [acc]) ++ split_whitespace_go [] cs'
      else split_whitespace_go (acc ++ [c]) cs'
  end.
Definition split_whitespace (cs : list Z) : list (list Z) := split_whitespace_go [] cs.

(** [str::to_lowercase]: ASCII by the language, the rest by Unicode's tables. *)
Class UnicodeLower := { lower_non_ascii : Z → list Z }.
Definition to_lowercase `{UnicodeLower} (cs : list Z) : list Z :=
  flat_map (λ c, if in_range 65 90 c then [c + 32]
                 else if c <? 0x80 then [c] else lower_non_ascii c) cs.

Definition strip_suffix (suf l : Bytes) : option Bytes :=
  if starts_with (rev suf) (rev l) then Some (take (length l - length suf) l) else None.
(** [s.rsplit(c).next()]: what follows the last [c]. *)
Definition rsplit_last (c : Byte.byte) (l : Bytes) : Bytes := default [] (last (split_on c l)).
