(* ===== verification/Layout.v ===== *)
(** * Layout: the tiling tree of pyre-proto/src/layout.rs

    A [LayoutNode] is a leaf, which names a pane, or a horizontal or vertical
    split whose children carry [u16] weights. The operations follow the source
    in its order: geometry ([leaves], [rect_for], [focus_dir]), insertion
    ([split_focused]), removal ([close]) and re-weighting ([set_weight]).
    Arithmetic is the release build's: every operation that can leave its
    width wraps ([wrap_u16], [wrap_u32], [wrap_i32]). *)
From Stdlib Require Import Sorting.Sorted.
From S2P Require Import Prelude Proto.
Local Open Scope Z_scope.

Inductive LayoutNode :=
  | Leaf (id : PaneId)
  | HSplit (children : list (LayoutNode * Z))
  | VSplit (children : list (LayoutNode * Z)).

(** [for (child, _) in children.iter_mut() { if f(child) { return true } } false]:
    the loop stops after the first child [f] reports as done. *)
Section Loops.
Context {A : Type} (f : A → bool * A).
Fixpoint iter_mut_until (cs : list (A * Z)) : bool * list (A * Z) :=
  match cs with
  | [] => (false, [])
  | (child, w) :: cs' =>
      let r := f child in
      if r.1 then (true, (r.2, w) :: cs')
      else let r' := iter_mut_until cs' in (r'.1, (r.2, w) :: r'.2)
  end.
(** [children.retain_mut(|(child, _)| !f(child))] *)
Fixpoint retain_mut (cs : list (A * Z)) : list (A * Z) :=
  match cs with
  | [] => []
  | (child, w) :: cs' =>
      let r := f child in
      if r.1 then retain_mut cs' else (r.2, w) :: retain_mut cs'
  end.
End Loops.

Inductive Orient := Vertical | Horizontal.
Inductive Dir := DirLeft | DirRight | DirUp | DirDown.
Record Rect := MkRect { rx : Z; ry : Z; rw : Z; rh : Z }.

#[export] Instance Rect_eq_dec : EqDecision Rect.
Proof. solve_decision. Defined.

Definition contains_pt (r : Rect) (px py : Z) : bool :=
  (rx r <=? px) && (px <? wrap_u32 (rx r + rw r))
  && (ry r <=? py) && (py <? wrap_u32 (ry r + rh r)).

(** A split node keeps its constructor when its children are mutated. *)
Definition rebuild (n : LayoutNode) (cs : list (LayoutNode * Z)) : LayoutNode :=
  match n with
  | Leaf id => Leaf id
  | HSplit _ => HSplit cs
  | VSplit _ => VSplit cs
  end.

Fixpoint all_leaves (n : LayoutNode) : list PaneId :=
  match n with
  | Leaf id => [id]
  | HSplit children | VSplit children => flat_map (λ c, all_leaves c.1) children
  end.

(** [children.iter().map(|(_, w)| w).sum::<u16>()] *)
Definition sum_u16 (ws : list Z) : Z := fold_left (λ a w, wrap_u16 (a + w)) ws 0.

(** Extent of a child of weight [weight] in a split of extent [size]. *)
Definition share_of (size weight total : Z) : Z := wrap_u32 (size * weight / total).

(** The loops of [leaves_inner]: rows from [y] down, columns from [x] on. *)
Section Lay.
Context (lay : LayoutNode → Rect → list (PaneId * Rect)) (vp : Rect) (total : Z).
Fixpoint lay_rows (cs : list (LayoutNode * Z)) (y : Z) : list (PaneId * Rect) :=
  match cs with
  | [] => []
  | (node, weight) :: cs' =>
      let h := share_of (rh vp) weight total in
      lay node (MkRect (rx vp) y (rw vp) h) ++ lay_rows cs' (wrap_u32 (y + h))
  end.
Fixpoint lay_columns (cs : list (LayoutNode * Z)) (x : Z) : list (PaneId * Rect) :=
  match cs with
  | [] => []
  | (node, weight) :: cs' =>
      let w := share_of (rw vp) weight total in
      lay node (MkRect x (ry vp) w (rh vp)) ++ lay_columns cs' (wrap_u32 (x + w))
  end.
End Lay.

Fixpoint leaves_inner (n : LayoutNode) (vp : Rect) : list (PaneId * Rect) :=
  match n with
  | Leaf id => [(id, vp)]
  | HSplit children =>
      lay_rows leaves_inner vp (Z.max (sum_u16 children.*2) 1) children (ry vp)
  | VSplit children =>
      lay_columns leaves_inner vp (Z.max (sum_u16 children.*2) 1) children (rx vp)
  end.

Definition leaves (n : LayoutNode) (viewport : Rect) : list (PaneId * Rect) :=
  leaves_inner n viewport.

Definition rect_for (n : LayoutNode) (viewport : Rect) (target : PaneId) : option Rect :=
  snd <$> find_first (λ lf, bool_decide (lf.1 = target)) (leaves_inner n viewport).

(** Returns whether the node or a descendant was modified, and the node. *)
Fixpoint split_focused_inner (focused new_pane : PaneId) (orient : Orient)
    (n : LayoutNode) : bool * LayoutNode :=
  match n with
  | Leaf id =>
      if bool_decide (id = focused) then
        let existing := Leaf id in
        let fresh := Leaf new_pane in
        (true, match orient with
               | Vertical => VSplit [(existing, 50); (fresh, 50)]
               | Horizontal => HSplit [(existing, 50); (fresh, 50)]
               end)
      else (false, n)
  | HSplit children | VSplit children =>
      let r := iter_mut_until (split_focused_inner focused new_pane orient) children in
      (r.1, rebuild n r.2)
  end.

Definition split_focused (n : LayoutNode) (focused new_pane : PaneId)
    (orient : Orient) : LayoutNode :=
  (split_focused_inner focused new_pane orient n).2.

(** Returns whether the caller's slot is to be removed, and the node. *)
Fixpoint remove_leaf (pane : PaneId) (n : LayoutNode) : bool * LayoutNode :=
  match n with
  | Leaf id => (bool_decide (id = pane), n)
  | HSplit children | VSplit children =>
      let children' := retain_mut (remove_leaf pane) children in
      (false, match children' with
              | [(only, _)] => only
              | _ => rebuild n children'
              end)
  end.

(** The pane that receives the focus, and the tree left behind. *)
Definition close (n : LayoutNode) (pane : PaneId) : option PaneId * LayoutNode :=
  let all := all_leaves n in
  match position (λ id, bool_decide (id = pane)) all with
  | None => (None, n)
  | Some pos =>
      if (length all =? 1)%nat then (None, n)
      else
        let n' := (remove_leaf pane n).2 in
        match all_leaves n' with
        | [] => (None, n')
        | remaining =>
            let focus_pos := if (0 <? pos)%nat then (pos - 1)%nat else 0%nat in
            (remaining !! focus_pos, n')
        end
  end.

(** Whether [r] lies wholly on the [dir] side of [cur]. *)
Definition on_side (dir : Dir) (cur r : Rect) : bool :=
  match dir with
  | DirLeft => wrap_u32 (rx r + rw r) <=? rx cur
  | DirRight => wrap_u32 (rx cur + rw cur) <=? rx r
  | DirUp => wrap_u32 (ry r + rh r) <=? ry cur
  | DirDown => wrap_u32 (ry cur + rh cur) <=? ry r
  end.

(** Manhattan distance of the centres. *)
Definition center_dist (cur r : Rect) : Z :=
  let cx := wrap_u32 (rx r + rw r / 2) in
  let cy := wrap_u32 (ry r + rh r / 2) in
  let cur_cx := wrap_u32 (rx cur + rw cur / 2) in
  let cur_cy := wrap_u32 (ry cur + rh cur / 2) in
  Z.abs (cx - cur_cx) + Z.abs (cy - cur_cy).

Definition unit_viewport : Rect := MkRect 0 0 1000 1000.

Definition focus_dir (n : LayoutNode) (current : PaneId) (dir : Dir) : option PaneId :=
  let lvs := leaves_inner n unit_viewport in
  match find_first (λ lf, bool_decide (lf.1 = current)) lvs with
  | None => None
  | Some (_, cur_rect) =>
      let candidates :=
        List.filter (λ lf, negb (bool_decide (lf.1 = current))
                           && on_side dir cur_rect lf.2) lvs in
      match candidates with
      | [] => None
      | _ => fst <$> min_by_key (λ lf, center_dist cur_rect lf.2) candidates
      end
  end.

(** ** Re-weighting *)

(** The loop over the siblings of [idx]: every weight moves by its share of
    [-delta], and what rounding and clamping left is carried along. *)
Fixpoint rebalance_siblings (idx i : nat) (delta siblings_total : Z) (ws : list Z)
    (leftover : Z) : list Z * Z :=
  match ws with
  | [] => ([], leftover)
  | w :: ws' =>
      if (i =? idx)%nat then
        let '(r, lo) := rebalance_siblings idx (S i) delta siblings_total ws' leftover in
        (w :: r, lo)
      else
        let share := Z.quot (wrap_i32 (w * - delta)) (Z.max siblings_total 1) in
        let adjusted := clamp (wrap_i32 (w + share)) 5 95 in
        let '(r, lo) := rebalance_siblings idx (S i) delta siblings_total ws'
                          (wrap_i32 (leftover - (adjusted - w))) in
        (adjusted :: r, lo)
  end.

(** Index of the last child other than [idx]. *)
Definition last_sibling (idx : nat) (ws : list Z) : option nat :=
  last (List.filter (λ i, negb (i =? idx)%nat) (seq 0 (length ws))).

Definition siblings_sum (idx : nat) (ws : list Z) : Z :=
  fold_left (λ a w, wrap_i32 (a + w)) (delete idx ws) 0.

(** The weights of the split after the child at [idx] asked for [new_weight]. *)
Definition rebalance (idx : nat) (new_weight : Z) (ws : list Z) : list Z :=
  let clamped := clamp new_weight 5 95 in
  let old := ws !!! idx in
  if clamped =? old then ws
  else
    let delta := clamped - old in
    let ws1 := <[idx := clamped]> ws in
    let siblings_total := siblings_sum idx ws1 in
    let ws2 :=
      if 0 <? siblings_total then
        let '(ws', leftover) :=
          rebalance_siblings idx 0 delta siblings_total ws1 (- delta) in
        match last_sibling idx ws' with
        | Some j => <[j := clamp (wrap_i32 (ws' !!! j + leftover)) 5 95]> ws'
        | None => ws'
        end
      else ws1 in
    let total := sum_u16 ws2 in
    if total =? 100 then ws2
    else <[idx := clamp (ws2 !!! idx + (100 - total)) 5 95]> ws2.

Fixpoint set_weight_inner (pane : PaneId) (new_weight : Z) (n : LayoutNode) :
    bool * LayoutNode :=
  match n with
  | Leaf _ => (false, n)
  | HSplit children | VSplit children =>
      match position (λ c, bool_decide (pane ∈ all_leaves c.1)) children with
      | Some idx =>
          (true, rebuild n (zip children.*1 (rebalance idx new_weight children.*2)))
      | None =>
          let r := iter_mut_until (set_weight_inner pane new_weight) children in
          (r.1, rebuild n r.2)
      end
  end.

Definition set_weight (n : LayoutNode) (pane : PaneId) (weight : Z) : LayoutNode :=
  (set_weight_inner pane weight n).2.

Example set_weight_ex : 
  set_weight (VSplit [(Leaf (MkPaneId 1),50);(Leaf (MkPaneId 2),50)]) (MkPaneId 1) 80
  = VSplit [(Leaf (MkPaneId 1),80);(Leaf (MkPaneId 2),20)].
Proof. reflexivity. Qed.
