(* ===== verification/LayoutWeights.v ===== *)
(** * LayoutWeights: the weights of a split stay sane under [set_weight]

    The lemmas follow the loop of [rebalance]: what the siblings lose or gain
    ([rebalance_siblings]), the correction of the last one, the final
    normalisation of the target. *)
From S2P Require Import Prelude Proto Layout.
Local Open Scope Z_scope.

(** The documented invariant of a split: two children or more, every weight
    between 5 and 95, and a sum of 100. *)
Definition ok_weight (w : Z) : Prop := 5 <= w <= 95.
Definition wf_weights (ws : list Z) : Prop :=
  (2 <= length ws)%nat ∧ Forall ok_weight ws ∧ sum_Z ws = 100.

(** Decides [wf_weights] of a concrete list. *)
Ltac solve_wf_weights :=
  split; [simpl; lia|split; [|reflexivity]];
  simpl; repeat (apply Forall_cons; split; [unfold ok_weight; lia|]); apply Forall_nil; exact I.

#[local] Hint Extern 4 (ok_weight _) => (unfold ok_weight in *; lia) : core.

(** ** Machine sums agree with mathematical ones on small weights *)
Lemma fold_wrap_sum (wrap : Z → Z) (bound : Z) ws acc :
  (∀ z, 0 <= z < bound → wrap z = z) →
  0 <= acc → Forall (λ w, 0 <= w) ws → acc + sum_Z ws < bound →
  fold_left (λ a w, wrap (a + w)) ws acc = acc + sum_Z ws.
Proof.
  intros Hwrap. revert acc. induction ws as [|w ws IH]; intros acc Ha Hw Hb; simpl in *.
  - lia.
  - apply Forall_cons in Hw as [Hw Hws].
    assert (0 <= sum_Z ws) by (clear -Hws; induction Hws; simpl; lia).
    rewrite Hwrap by lia. rewrite IH by (done || lia). lia.
Qed.

Lemma sum_u16_small ws :
  Forall (λ w, 0 <= w) ws → sum_Z ws < 65536 → sum_u16 ws = sum_Z ws.
Proof.
  intros H1 H2. unfold sum_u16.
  rewrite (fold_wrap_sum wrap_u16 65536); try done; try lia. exact wrap_u16_small.
Qed.

Lemma siblings_sum_small idx ws :
  Forall (λ w, 0 <= w) ws → sum_Z ws < 65536 →
  siblings_sum idx ws = sum_Z (delete idx ws).
Proof.
  intros H1 H2. unfold siblings_sum.
  assert (sum_Z (delete idx ws) <= sum_Z ws).
  { clear H2. revert idx. induction H1 as [|w ws Hw H1 IH]; intros [|idx]; simpl; try lia.
    specialize (IH idx). lia. }
  rewrite (fold_wrap_sum wrap_i32 65536); try done; try lia.
  - intros. apply wrap_i32_small. lia.
  - by apply Forall_delete.
Qed.

(** ** The sibling loop *)
Section Loop.
Context (idx : nat) (delta total : Z).
Hypothesis Hdelta : -90 <= delta <= 90.
Hypothesis Htotal : 0 < total <= 65535.

(** What one step of the loop does to a weight. *)
Definition adjust (w : Z) : Z := clamp (w + Z.quot (w * - delta) total) 5 95.

Lemma adjust_step w :
  ok_weight w →
  clamp (wrap_i32 (w + Z.quot (wrap_i32 (w * - delta)) (Z.max total 1))) 5 95 = adjust w.
Proof.
  intros Hw. unfold ok_weight, adjust in *.
  assert (-8550 <= w * - delta <= 8550) by nia.
  assert (-8550 <= Z.quot (w * - delta) total <= 8550).
  { destruct (Z.le_gt_cases 0 (w * - delta)).
    - rewrite Z.quot_div_nonneg by lia.
      assert (0 <= w * - delta / total) by (apply Z.div_pos; lia).
      assert (w * - delta / total <= 8550) by (apply Z.div_le_upper_bound; nia).
      lia.
    - assert (w * - delta = - (- (w * - delta))) as -> by lia.
      rewrite Z.quot_opp_l, Z.quot_div_nonneg by lia.
      assert (0 <= - (w * - delta) / total) by (apply Z.div_pos; lia).
      assert (- (w * - delta) / total <= 8550) by (apply Z.div_le_upper_bound; nia).
      lia. }
  rewrite (wrap_i32_small (w * - delta)) by lia.
  rewrite Z.max_l by lia. by rewrite wrap_i32_small by lia.
Qed.

Lemma adjust_ok w : ok_weight (adjust w).
Proof. unfold adjust, ok_weight, clamp. lia. Qed.

(** A growing target shrinks its siblings, by at most their share. *)
Lemma adjust_shrink w :
  0 <= delta → ok_weight w → adjust w <= w ∧ total * (w - adjust w) <= w * delta.
Proof.
  intros Hd Hw. unfold ok_weight in Hw. unfold adjust.
  assert (w * - delta = - (w * delta)) as -> by lia.
  rewrite Z.quot_opp_l, Z.quot_div_nonneg by nia.
  pose proof (Z.mul_div_le (w * delta) total ltac:(lia)).
  assert (0 <= w * delta / total) by (apply Z.div_pos; nia).
  unfold clamp. nia.
Qed.

(** A shrinking target feeds its siblings, by at most their share. *)
Lemma adjust_grow w :
  delta <= 0 → ok_weight w → w <= adjust w ∧ total * (adjust w - w) <= w * - delta.
Proof.
  intros Hd Hw. unfold ok_weight in Hw. unfold adjust.
  rewrite Z.quot_div_nonneg by nia.
  pose proof (Z.mul_div_le (w * - delta) total ltac:(lia)).
  assert (0 <= w * - delta / total) by (apply Z.div_pos; nia).
  unfold clamp. nia.
Qed.

(** The loop maps [adjust] over the siblings and keeps the books. *)
Lemma rebalance_siblings_spec ws i lo :
  Forall ok_weight ws → (length ws <= 20)%nat → Z.abs lo <= 90 * (21 - Z.of_nat (length ws)) →
  rebalance_siblings idx i delta total ws lo =
    (imap (λ k w, if (i + k =? idx)%nat then w else adjust w) ws,
     lo - sum_Z (imap (λ k w, if (i + k =? idx)%nat then 0 else adjust w - w) ws)).
Proof.
  revert i lo. induction ws as [|w ws IH]; intros i lo Hws Hlen Hlo; [simpl; f_equal; lia|].
  apply Forall_cons in Hws as [Hw Hws]. cbn [length] in *.
  assert (∀ (f : nat → Z → Z), imap (λ k w, f (i + S k)%nat w) ws
                       = imap (λ k w, f (S i + k)%nat w) ws) as Himap.
  { intros f. apply imap_ext. intros. f_equal. lia. }
  cbn [rebalance_siblings imap]. rewrite Nat.add_0_r.
  pose proof (adjust_ok w) as Hok. unfold ok_weight in Hw, Hok.
  destruct (i =? idx)%nat.
  - rewrite IH by (done || lia). cbn [sum_Z foldr]. f_equal; [f_equal|].
    + symmetry. apply (Himap (λ n w, if (n =? idx)%nat then w else adjust w)).
    + rewrite Z.add_0_l. do 2 f_equal.
      symmetry. apply (Himap (λ n w, if (n =? idx)%nat then 0 else adjust w - w)).
  - rewrite adjust_step by done. rewrite wrap_i32_small by lia.
    rewrite IH by (done || lia). cbn [sum_Z foldr]. f_equal; [f_equal|].
    + symmetry. apply (Himap (λ n w, if (n =? idx)%nat then w else adjust w)).
    + unfold compose. rewrite (Himap (λ n w, if (n =? idx)%nat then 0 else adjust w - w)).
      unfold sum_Z. lia.
Qed.
End Loop.

(** ** The list seen from [idx]: the target and its siblings *)
Lemma sum_Z_delete l i x : l !! i = Some x → sum_Z l = x + sum_Z (delete i l).
Proof.
  revert i. induction l as [|a l IH]; intros [|i] H; simpl in *; [done..| |].
  - by injection H as ->.
  - rewrite (IH i H). lia.
Qed.

Lemma sum_imap_skip (g : Z → Z) idx l :
  (idx < length l)%nat →
  sum_Z (imap (λ k w, if (k =? idx)%nat then 0 else g w) l) = sum_Z (g <$> delete idx l).
Proof.
  revert idx. induction l as [|a l IH]; intros [|idx] H; cbn [length] in H; [lia..| |].
  - cbn. rewrite Z.add_0_l. f_equal. unfold compose. cbn.
    clear. induction l using rev_ind; [done|]. by rewrite imap_app, fmap_app, IHl.
  - cbn. f_equal. apply IH. lia.
Qed.

Lemma imap_skip_lookup (g : Z → Z) idx l x :
  l !! idx = Some x → imap (λ k w, if (k =? idx)%nat then w else g w) l !! idx = Some x.
Proof. intros H. rewrite list_lookup_imap, H. simpl. by rewrite Nat.eqb_refl. Qed.

Lemma imap_skip_delete (g : Z → Z) idx l :
  delete idx (imap (λ k w, if (k =? idx)%nat then w else g w) l) = g <$> delete idx l.
Proof.
  revert idx. induction l as [|a l IH]; intros [|idx]; [done..| |].
  - cbn. unfold compose. cbn. clear. induction l using rev_ind; [done|].
    by rewrite imap_app, fmap_app, IHl.
  - cbn. f_equal. apply IH.
Qed.

Lemma Forall_delete_lookup (P : Z → Prop) l i x :
  l !! i = Some x → P x → Forall P (delete i l) → Forall P l.
Proof.
  revert i. induction l as [|a l IH]; intros [|i] H Hx Hd; simpl in *; [done..| |].
  - injection H as ->. by constructor.
  - apply Forall_cons in Hd as [? ?]. constructor; eauto.
Qed.

Lemma last_sibling_Some idx ws j :
  last_sibling idx ws = Some j → j ≠ idx ∧ (j < length ws)%nat.
Proof.
  unfold last_sibling. intros H. apply last_Some_elem_of in H.
  apply list_elem_of_In, filter_In in H as [Hin Hne].
  apply in_seq in Hin. apply negb_true_iff, Nat.eqb_neq in Hne. lia.
Qed.

Lemma wf_weights_length ws : wf_weights ws → (length ws <= 20)%nat.
Proof.
  intros (_ & Hok & Hsum). apply (sum_Z_bounds 5 95) in Hok. lia.
Qed.

Lemma sum_fmap_sub (g : Z → Z) l :
  sum_Z ((λ w, g w - w) <$> l) = sum_Z (g <$> l) - sum_Z l.
Proof. unfold sum_Z. induction l as [|w l IH]; cbn in *; lia. Qed.

Lemma ok_nonneg ws : Forall ok_weight ws → Forall (λ w, 0 <= w) ws.
Proof. intros H. eapply Forall_impl; [exact H|]. unfold ok_weight. lia. Qed.

(** Sums of shares: [adjust] in total takes at most [delta] from the siblings,
    or hands at most [-delta] to them. *)
Lemma adjust_sum delta total ws :
  -90 <= delta <= 90 → 0 < total <= 65535 → Forall ok_weight ws →
  (0 <= delta → sum_Z (adjust delta total <$> ws) <= sum_Z ws ∧
     total * (sum_Z ws - sum_Z (adjust delta total <$> ws)) <= sum_Z ws * delta) ∧
  (delta <= 0 → sum_Z ws <= sum_Z (adjust delta total <$> ws) ∧
     total * (sum_Z (adjust delta total <$> ws) - sum_Z ws) <= sum_Z ws * - delta).
Proof.
  intros Hd Ht. induction 1 as [|w ws Hw Hws [IH1 IH2]]; [simpl; split; lia|].
  cbn [sum_Z foldr fmap list_fmap]. fold (sum_Z ws).
  change (foldr Z.add 0 (adjust delta total <$> ws)) with (sum_Z (adjust delta total <$> ws)).
  split; intros Hs.
  - destruct (IH1 Hs), (adjust_shrink delta total Hd Ht w Hs Hw). split; [lia|nia].
  - destruct (IH2 Hs), (adjust_grow delta total Hd Ht w Hs Hw). split; [lia|nia].
Qed.

(** ** The weights after one call *)
Section Rebalance.
Context (idx : nat) (new_weight old : Z) (ws : list Z).
Hypothesis Hwf : wf_weights ws.
Hypothesis Hidx : ws !! idx = Some old.
Let target : Z := clamp new_weight 5 95.
Let delta : Z := target - old.
Let others : list Z := delete idx ws.

Lemma target_ok : ok_weight target ∧ ok_weight old ∧ -90 <= delta <= 90 ∧
  Forall ok_weight others ∧ sum_Z others = 100 - old ∧ (1 <= length others)%nat.
Proof.
  destruct Hwf as (Hlen & Hok & Hsum).
  pose proof (Forall_lookup_1 _ _ _ _ Hok Hidx) as Ho.
  pose proof (clamp_bounds new_weight 5 95 ltac:(lia)).
  rewrite (sum_Z_delete _ _ _ Hidx) in Hsum.
  unfold ok_weight, delta, target in *. repeat split; try lia.
  - by apply Forall_delete.
  - fold others in Hsum. lia.
  - unfold others. rewrite length_delete by eauto. lia.
Qed.

(** The list between the sibling loop and the normalisation. *)
Definition shifted : list Z :=
  imap (λ k w, if (k =? idx)%nat then w else adjust delta (100 - old) w)
       (<[idx := target]> ws).

Lemma shifted_facts :
  shifted !! idx = Some target ∧ length shifted = length ws ∧
  delete idx shifted = adjust delta (100 - old) <$> others.
Proof.
  assert (idx < length ws)%nat by (by eapply lookup_lt_Some).
  unfold shifted, others. repeat split.
  - apply imap_skip_lookup. by apply list_lookup_insert_eq.
  - by rewrite length_imap, length_insert.
  - rewrite imap_skip_delete. f_equal. clear -H. revert idx H.
    induction ws as [|w l IH]; intros [|i] Hi; cbn [length] in Hi; [done..| |]; cbn; [done|].
    f_equal. apply IH. lia.
Qed.

Lemma loop_result :
  rebalance_siblings idx 0 delta (siblings_sum idx (<[idx := target]> ws))
    (<[idx := target]> ws) (- delta) = (shifted, 100 - sum_Z shifted)
  ∧ 0 < siblings_sum idx (<[idx := target]> ws).
Proof.
  destruct target_ok as (Ht & Ho & Hd & Hoth & Hsum & Hlen).
  destruct shifted_facts as (Hsh & _ & Hdel).
  assert (Hlt : (idx < length ws)%nat) by (by eapply lookup_lt_Some).
  pose proof (wf_weights_length _ Hwf). destruct Hwf as (_ & Hok & Hs).
  assert (Hdi : delete idx (<[idx := target]> ws) = others).
  { unfold others. clear -Hlt. revert idx Hlt.
    induction ws as [|w l IH]; intros [|i] Hi; cbn [length] in Hi; cbn; [lia..|done|].
    f_equal. apply IH. lia. }
  assert (Hok1 : Forall ok_weight (<[idx := target]> ws)) by (by apply Forall_insert).
  assert (Hss : siblings_sum idx (<[idx := target]> ws) = 100 - old).
  { rewrite siblings_sum_small, Hdi; [done|by apply ok_nonneg|].
    rewrite (sum_Z_insert _ _ _ _ Hidx). unfold ok_weight in *. lia. }
  rewrite Hss. unfold ok_weight in Ht, Ho. split; [|lia].
  rewrite rebalance_siblings_spec; [|exact Hd|lia|done|rewrite length_insert; lia|
    rewrite length_insert; lia].
  f_equal. cbn [Nat.add].
  rewrite (sum_imap_skip (λ w, adjust delta (100 - old) w - w)) by (rewrite length_insert; lia).
  rewrite Hdi. fold shifted. rewrite (sum_Z_delete _ _ _ Hsh), Hdel.
  rewrite (sum_fmap_sub (adjust delta (100 - old))). unfold delta. lia.
Qed.

Lemma shifted_ok : Forall ok_weight shifted.
Proof.
  destruct target_ok as (Ht & _), shifted_facts as (Hsh & _ & Hdel).
  eapply Forall_delete_lookup; [exact Hsh|done|]. rewrite Hdel.
  apply Forall_fmap, Forall_true. intros w. apply adjust_ok.
Qed.

(** Sum of the siblings after the loop, seen against 100 - target. *)
Lemma shifted_sum :
  (0 <= delta → 100 - sum_Z shifted <= 0 ∧ sum_Z shifted <= target + 95) ∧
  (delta <= 0 → 0 <= 100 - sum_Z shifted).
Proof.
  destruct target_ok as (Ht & Ho & Hd & Hoth & Hsum & Hlen).
  destruct shifted_facts as (Hsh & _ & Hdel). unfold ok_weight in Ht, Ho.
  rewrite (sum_Z_delete _ _ _ Hsh), Hdel.
  destruct (adjust_sum delta (100 - old) others Hd ltac:(lia) Hoth) as [H1 H2].
  rewrite Hsum in H1, H2. split; intros Hs.
  - destruct (H1 Hs). unfold delta in *. split; [nia|lia].
  - destruct (H2 Hs). unfold delta in *. nia.
Qed.

(** The last sibling absorbs the leftover: the siblings end in range, and
    their sum does not exceed 95. *)
Lemma corrected_facts j :
  last_sibling idx shifted = Some j →
  let ws2 := <[j := clamp (wrap_i32 (shifted !!! j + (100 - sum_Z shifted))) 5 95]> shifted in
  length ws2 = length ws ∧ Forall ok_weight ws2 ∧ ws2 !! idx = Some target ∧
  5 <= sum_Z ws2 - target <= 95 ∧ 100 <= sum_Z ws2 ∧ (delta <= 0 → sum_Z ws2 = 100).
Proof.
  intros Hj ws2. destruct (last_sibling_Some _ _ _ Hj) as [Hne Hjlt].
  destruct target_ok as (Ht & Ho & Hd & _), shifted_facts as (Hsh & Hlen & _).
  pose proof shifted_ok as Hok. destruct shifted_sum as [S1 S2].
  destruct (lookup_lt_is_Some_2 _ _ Hjlt) as [x Hx].
  pose proof (Forall_lookup_1 _ _ _ _ Hok Hx) as Hxok. unfold ok_weight in Hxok, Ht, Ho.
  pose proof (wf_weights_length _ Hwf).
  pose proof (sum_Z_bounds 5 95 shifted Hok) as Hb. rewrite Hlen in Hb.
  assert (Hws2 : ws2 = <[j := clamp (x + (100 - sum_Z shifted)) 5 95]> shifted).
  { unfold ws2. rewrite (list_lookup_total_correct _ _ _ Hx), wrap_i32_small by lia. done. }
  assert (Hok2 : Forall ok_weight ws2).
  { rewrite Hws2. apply Forall_insert; [done|]. apply clamp_bounds. lia. }
  assert (Hidx2 : ws2 !! idx = Some target).
  { rewrite Hws2. by rewrite list_lookup_insert_ne. }
  assert (Hlen2 : length ws2 = length ws) by (rewrite Hws2; by rewrite length_insert).
  assert (Hsum2 : sum_Z ws2 = sum_Z shifted - x + clamp (x + (100 - sum_Z shifted)) 5 95).
  { rewrite Hws2. by apply sum_Z_insert. }
  assert (Hlow : 5 <= sum_Z ws2 - target).
  { rewrite (sum_Z_delete _ _ _ Hidx2).
    pose proof (sum_Z_bounds 5 95 (delete idx ws2)
                  (Forall_delete _ _ _ Hok2)) as Hb2.
    rewrite length_delete in Hb2 by eauto. destruct Hwf. lia. }
  assert (Hrest : x + 5 <= sum_Z shifted).
  { rewrite (sum_Z_delete _ _ _ Hx).
    pose proof (sum_Z_bounds 5 95 (delete j shifted) (Forall_delete _ _ _ Hok)) as Hb3.
    rewrite length_delete, Hlen in Hb3 by eauto. destruct Hwf. lia. }
  clear -Hlen2 Hok2 Hidx2 Hlow Hsum2 Hrest S1 S2 Hxok Hd Ht Ho.
  unfold clamp in Hsum2. destruct (Z.le_ge_cases delta 0) as [Hs|Hs].
  - specialize (S2 Hs). repeat split; try done; unfold delta in *; lia.
  - destruct (S1 Hs). repeat split; try done; unfold delta in *; lia.
Qed.

Lemma last_sibling_exists : is_Some (last_sibling idx shifted).
Proof.
  destruct shifted_facts as (_ & Hlen & _). unfold last_sibling. apply last_is_Some.
  intros Hnil. destruct Hwf as (H2 & _).
  set (k := if (idx =? 0)%nat then 1%nat else 0%nat).
  assert (Hk : k ∈ List.filter (λ i, negb (i =? idx)%nat) (seq 0 (length shifted))).
  { apply list_elem_of_In, filter_In. split; [apply in_seq|apply negb_true_iff, Nat.eqb_neq];
      subst k; destruct (Nat.eqb_spec idx 0); lia. }
  rewrite Hnil in Hk. by apply not_elem_of_nil in Hk.
Qed.

(** The result of [rebalance], in closed form: the target ends at what its
    siblings leave of 100. *)
Lemma rebalance_facts :
  ∃ ws', rebalance idx new_weight ws = ws' ∧ wf_weights ws' ∧ length ws' = length ws ∧
    ∃ w, ws' !! idx = Some w ∧ w <= target ∧ (delta <= 0 → w = target).
Proof.
  exists (rebalance idx new_weight ws). split; [done|].
  destruct target_ok as (Ht & Ho & Hd & Hoth & Hsum & Hlen).
  unfold rebalance. rewrite (list_lookup_total_correct _ _ _ Hidx).
  fold target. fold delta. destruct (Z.eqb_spec target old) as [He|He].
  { split; [done|]. split; [done|]. exists old. split; [done|]. split; [lia|done]. }
  destruct loop_result as [Hloop Hpos]. apply Z.ltb_lt in Hpos. rewrite Hpos, Hloop.
  destruct last_sibling_exists as [j Hj]. rewrite Hj.
  destruct (corrected_facts j Hj) as (Hl2 & Hok2 & Hi2 & Hs2 & Hge & Hle).
  set (ws2 := <[j:=_]> shifted) in *. unfold ok_weight in Ht, Ho.
  rewrite (sum_u16_small ws2) by (try apply ok_nonneg; try done; lia).
  destruct Hwf as (Hlen2 & _).
  destruct (Z.eqb_spec (sum_Z ws2) 100) as [H100|H100].
  { repeat split; try done; [by rewrite Hl2|]. exists target. split; [done|]. split; [lia|done]. }
  rewrite (list_lookup_total_correct _ _ _ Hi2).
  assert (Hc : clamp (target + (100 - sum_Z ws2)) 5 95 = target + (100 - sum_Z ws2))
    by (apply clamp_id; lia).
  rewrite Hc. repeat split.
  - rewrite length_insert. by rewrite Hl2.
  - apply Forall_insert; [done|]. unfold ok_weight. lia.
  - rewrite (sum_Z_insert _ _ _ _ Hi2). lia.
  - by rewrite length_insert.
  - exists (target + (100 - sum_Z ws2)). split.
    + apply list_lookup_insert_eq. by eapply lookup_lt_Some.
    + split; [lia|]. intros Hneg. specialize (Hle Hneg). lia.
Qed.
End Rebalance.
