(* ===== verification/LayoutTree.v ===== *)
(** * LayoutTree: what the tree operations do to leaves and weights

    The leaves of the result of [split_focused], [close] and [set_weight] in
    terms of the leaves before, and the invariant of every tree the daemon can
    build: splits of two children whose weights lie in 5..95 and sum to 100,
    and no pane twice. *)
From S2P Require Import Prelude Proto Layout LayoutWeights.
Local Open Scope Z_scope.

(** ** Induction over the nested tree *)
Definition is_split (mk : list (LayoutNode * Z) → LayoutNode) : Prop :=
  mk = HSplit ∨ mk = VSplit.

Lemma LayoutNode_ind' (P : LayoutNode → Prop) :
  (∀ id, P (Leaf id)) →
  (∀ mk cs, is_split mk → Forall (λ c, P c.1) cs → P (mk cs)) →
  ∀ n, P n.
Proof.
  intros Hl Hs. fix IH 1. intros [id|cs|cs]; [apply Hl| |];
    (apply Hs; [unfold is_split; auto|]);
    induction cs as [|[c w] cs IHcs]; constructor; (apply IH || exact IHcs).
Qed.

Ltac split_kind H := destruct H as [->| ->].

(** A property of the weights of every split of a tree. *)
Fixpoint all_splits (P : list Z → Prop) (n : LayoutNode) : Prop :=
  match n with
  | Leaf _ => True
  | HSplit cs | VSplit cs =>
      P cs.*2 ∧ foldr (λ c acc, all_splits P c.1 ∧ acc) True cs
  end.

Lemma all_splits_split P mk cs :
  is_split mk →
  all_splits P (mk cs) ↔ P cs.*2 ∧ Forall (λ c, all_splits P c.1) cs.
Proof.
  intros Hmk. split_kind Hmk; simpl; (apply and_iff_compat_l);
    (induction cs as [|c cs IH]; simpl; [split; constructor|]);
    rewrite IH, Forall_cons; done.
Qed.

Lemma all_leaves_split mk cs :
  is_split mk → all_leaves (mk cs) = flat_map (λ c, all_leaves c.1) cs.
Proof. intros Hmk. by split_kind Hmk. Qed.

Lemma rebuild_split mk cs cs' : is_split mk → rebuild (mk cs) cs' = mk cs'.
Proof. intros Hmk. by split_kind Hmk. Qed.

(** ** [split_focused] *)
Section Split.
Context (focused new_pane : PaneId) (orient : Orient).
Local Abbreviation split_in := (split_focused_inner focused new_pane orient).

Lemma split_inner_split mk cs :
  is_split mk →
  split_in (mk cs) = ((iter_mut_until split_in cs).1, mk (iter_mut_until split_in cs).2).
Proof. intros Hmk. by split_kind Hmk. Qed.

(** Untouched when the focused pane is absent. *)
Lemma split_absent n : focused ∉ all_leaves n → split_in n = (false, n).
Proof.
  induction n as [id|mk cs Hmk IH] using LayoutNode_ind'; intros Hn.
  - simpl in *. rewrite list_elem_of_singleton in Hn.
    by rewrite bool_decide_eq_false_2 by congruence.
  - rewrite (all_leaves_split _ _ Hmk) in Hn. rewrite split_inner_split by done.
    assert (iter_mut_until split_in cs = (false, cs)) as ->; [|done].
    induction cs as [|[c w] cs IHcs]; [done|]. simpl in *.
    apply Forall_cons in IH as [Hc IH]. cbn [fst] in Hc. rewrite not_elem_of_app in Hn.
    rewrite (Hc (proj1 Hn)). simpl. by rewrite (IHcs IH (proj2 Hn)).
Qed.

(** The new pane enters right after the first occurrence of the focused one. *)
Lemma split_present n l1 l2 :
  all_leaves n = l1 ++ focused :: l2 → focused ∉ l1 →
  (split_in n).1 = true ∧
  all_leaves (split_in n).2 = l1 ++ focused :: new_pane :: l2.
Proof.
  revert l1 l2. induction n as [id|mk cs Hmk IH] using LayoutNode_ind'; intros l1 l2 Hn Hl1.
  - simpl in Hn. destruct l1 as [|? l1]; [|by destruct l1].
    injection Hn as -> <-. simpl. rewrite bool_decide_eq_true_2 by done.
    by destruct orient.
  - rewrite (all_leaves_split _ _ Hmk) in Hn. rewrite split_inner_split by done.
    cbn [fst snd]. rewrite (all_leaves_split _ _ Hmk).
    revert l1 l2 Hn Hl1. induction cs as [|[c w] cs IHcs]; intros l1 l2 Hn Hl1.
    { by destruct l1. }
    apply Forall_cons in IH as [Hc IH]. cbn [fst] in Hc. cbn [flat_map fst] in Hn. cbn [iter_mut_until].
    destruct (decide (focused ∈ all_leaves c)) as [Hin|Hnin].
    + apply list_elem_of_split_l in Hin as (m1 & m2 & Hm & Hm1).
      rewrite Hm, <- app_assoc in Hn. cbn [app] in Hn.
      assert (m1 = l1 ∧ m2 ++ flat_map (λ c, all_leaves c.1) cs = l2) as [-> <-].
      { clear -Hn Hm1 Hl1. revert l1 Hn Hl1.
        induction m1 as [|x m1 IHm]; intros [|y l1] Hn Hl1; cbn in Hn.
        - by injection Hn.
        - injection Hn as -> _. exfalso. apply Hl1. by left.
        - injection Hn as -> _. exfalso. apply Hm1. by left.
        - injection Hn as -> Hn. rewrite not_elem_of_cons in Hm1, Hl1.
          by destruct (IHm (proj2 Hm1) l1 Hn (proj2 Hl1)) as [-> ->]. }
      destruct (Hc _ _ Hm Hm1) as [Hd Ha]. rewrite Hd. cbn. rewrite Ha.
      split; [done|]. by rewrite <- app_assoc.
    + rewrite split_absent by done. cbn [fst snd flat_map].
      assert (∃ l1', l1 = all_leaves c ++ l1' ∧
                flat_map (λ c, all_leaves c.1) cs = l1' ++ focused :: l2) as (l1' & -> & Hn').
      { clear -Hn Hnin. cbn in Hnin. revert l1 Hn. induction (all_leaves c) as [|x l IHl].
        - intros l1 Hn. by exists l1.
        - intros [|y l1] Hn; cbn in Hn; injection Hn as ->.
          + exfalso. apply Hnin. by left.
          + rewrite not_elem_of_cons in Hnin.
            destruct (IHl (proj2 Hnin) l1 H) as (l1' & -> & ?). by exists l1'. }
      rewrite not_elem_of_app in Hl1.
      destruct (IHcs IH l1' l2 Hn' (proj2 Hl1)) as [Hd Ha].
      split; [done|]. rewrite Ha. by rewrite <- app_assoc.
Qed.
End Split.

(** ** [remove_leaf] and [close] *)
Definition leaf_of (pane : PaneId) (n : LayoutNode) : Prop := n = Leaf pane.

Section Remove.
Context (pane : PaneId).

Lemma remove_leaf_split mk cs :
  is_split mk →
  remove_leaf pane (mk cs) =
    (false, match retain_mut (remove_leaf pane) cs with
            | [(only, _)] => only
            | cs' => mk cs'
            end).
Proof. intros Hmk. split_kind Hmk; simpl; by destruct (retain_mut _ _) as [|[] [|]]. Qed.

Lemma remove_leaf_spec n :
  ((remove_leaf pane n).1 = true → n = Leaf pane) ∧
  ((remove_leaf pane n).1 = false →
   all_leaves (remove_leaf pane n).2 = filter (λ id, id ≠ pane) (all_leaves n)).
Proof.
  induction n as [id|mk cs Hmk IH] using LayoutNode_ind'.
  - simpl. case_bool_decide; subst; [done|]. split; [done|].
    intros _. by rewrite filter_cons_True by done.
  - rewrite remove_leaf_split by done. cbn [fst snd]. split; [done|]. intros _.
    trans (flat_map (λ c, all_leaves c.1) (retain_mut (remove_leaf pane) cs)).
    { destruct (retain_mut _ _) as [|[only w] [|]]; cbn [flat_map fst];
        by rewrite ?(all_leaves_split _ _ Hmk), ?app_nil_r. }
    rewrite (all_leaves_split _ _ Hmk).
    induction cs as [|[c w] cs IHcs]; [done|].
    apply Forall_cons in IH as [[Hc1 Hc2] IH]. cbn [fst] in *.
    cbn [retain_mut flat_map fst]. rewrite filter_app.
    destruct (remove_leaf pane c).1 eqn:E.
    + rewrite (Hc1 eq_refl). cbn [all_leaves].
      rewrite filter_cons_False by auto. by apply IHcs.
    + cbn [flat_map fst]. by rewrite (Hc2 eq_refl), IHcs.
Qed.

(** Two leaves of one pane would be needed to empty a split of two. *)
Lemma retain_mut_two cs :
  length cs = 2%nat → NoDup (flat_map (λ c, all_leaves c.1) cs) →
  retain_mut (remove_leaf pane) cs ≠ [].
Proof.
  destruct cs as [|[c1 w1] [|[c2 w2] [|]]]; try done. intros _ Hnd. simpl.
  destruct (remove_leaf pane c1).1 eqn:E1; [|done].
  destruct (remove_leaf pane c2).1 eqn:E2; [|done].
  apply remove_leaf_spec in E1 as ->. apply remove_leaf_spec in E2 as ->.
  simpl in Hnd. apply NoDup_cons in Hnd as [Hnd _]. exfalso. apply Hnd. by left.
Qed.
End Remove.

(** ** The invariant of the trees the daemon builds *)
Definition two_ok (ws : list Z) : Prop := length ws = 2%nat ∧ wf_weights ws.
Definition layout_ok (n : LayoutNode) : Prop :=
  all_splits two_ok n ∧ NoDup (all_leaves n).

Lemma iter_mut_until_weights {A} (f : A → bool * A) cs :
  (iter_mut_until f cs).2.*2 = cs.*2.
Proof.
  induction cs as [|[c w] cs IH]; [done|]. cbn [iter_mut_until].
  destruct (f c).1; [done|]. cbn [snd]. by rewrite !fmap_cons, IH.
Qed.

Lemma iter_mut_until_Forall {A} (P : A → Prop) (f : A → bool * A) cs :
  Forall (λ c, P (f c.1).2) cs → Forall (λ c, P c.1) cs →
  Forall (λ c, P c.1) (iter_mut_until f cs).2.
Proof.
  induction cs as [|[c w] cs IH]; intros H1 H2; [done|].
  apply Forall_cons in H1 as [? ?]. apply Forall_cons in H2 as [? ?].
  simpl. destruct (f c).1; constructor; auto.
Qed.

Lemma two_ok_fifty : two_ok [50; 50].
Proof. split; [done|]. solve_wf_weights. Qed.

Lemma split_all_splits P focused new_pane orient n :
  P [50; 50] → all_splits P n → all_splits P (split_focused n focused new_pane orient).
Proof.
  intros H50. unfold split_focused.
  induction n as [id|mk cs Hmk IH] using LayoutNode_ind'; intros Hn.
  - simpl. case_bool_decide; [|done]. destruct orient; by repeat split.
  - rewrite split_inner_split by done. cbn [snd]. rewrite all_splits_split in Hn by done.
    rewrite all_splits_split by done. destruct Hn as [HP Hcs]. rewrite iter_mut_until_weights. split; [done|].
    apply iter_mut_until_Forall; [|done].
    rewrite Forall_forall in *. auto.
Qed.

Lemma NoDup_flat_map_member {A B} (f : A → list B) l x :
  NoDup (flat_map f l) → x ∈ l → NoDup (f x).
Proof.
  induction l as [|a l IH]; simpl; intros Hnd Hx; [by apply not_elem_of_nil in Hx|].
  apply NoDup_app in Hnd as (H1 & _ & H2).
  apply elem_of_cons in Hx as [->|Hx]; auto.
Qed.

Lemma remove_all_splits pane n :
  layout_ok n → all_splits two_ok (remove_leaf pane n).2.
Proof.
  induction n as [id|mk cs Hmk IH] using LayoutNode_ind'; intros [Hn Hnd]; [done|].
  rewrite remove_leaf_split by done. cbn [snd]. rewrite all_splits_split in Hn by done.
  rewrite (all_leaves_split _ _ Hmk) in Hnd. destruct Hn as [[Hlen Hw] Hcs].
  rewrite length_fmap in Hlen.
  assert (Hch : Forall (λ c, all_splits two_ok (remove_leaf pane c.1).2) cs).
  { rewrite Forall_forall in *. intros c Hc. apply (IH c Hc). split; [by apply Hcs|].
    by apply (NoDup_flat_map_member _ _ _ Hnd). }
  pose proof (retain_mut_two pane cs Hlen Hnd) as Hne.
  destruct cs as [|[c1 w1] [|[c2 w2] [|]]]; try done. simpl in *.
  inversion Hch as [|? ? H1 Hch']; subst. inversion Hch' as [|? ? H2 _]; subst.
  destruct (remove_leaf pane c1).1, (remove_leaf pane c2).1; try done.
  rewrite all_splits_split by done. split; [by split|]. by repeat constructor.
Qed.

(** ** [set_weight] *)
Lemma set_weight_split pane w mk cs :
  is_split mk →
  set_weight_inner pane w (mk cs) =
    match position (λ c, bool_decide (pane ∈ all_leaves c.1)) cs with
    | Some idx => (true, mk (zip cs.*1 (rebalance idx w cs.*2)))
    | None => ((iter_mut_until (set_weight_inner pane w) cs).1,
               mk (iter_mut_until (set_weight_inner pane w) cs).2)
    end.
Proof. intros Hmk. split_kind Hmk; simpl; by case_match. Qed.

Lemma rebalance_length idx w ws :
  wf_weights ws → (idx < length ws)%nat → length (rebalance idx w ws) = length ws.
Proof.
  intros Hwf [old Hold]%lookup_lt_is_Some_2.
  by destruct (rebalance_facts idx w old ws Hwf Hold) as (ws' & -> & _ & ? & _).
Qed.

Lemma set_weight_absent pane w n :
  pane ∉ all_leaves n → set_weight_inner pane w n = (false, n).
Proof.
  induction n as [id|mk cs Hmk IH] using LayoutNode_ind'; intros Hn; [done|].
  rewrite set_weight_split by done. rewrite (all_leaves_split _ _ Hmk) in Hn.
  destruct (position _ cs) as [idx|] eqn:E.
  { apply position_Some in E as (c & Hc & Hin & _). apply bool_decide_eq_true in Hin.
    destruct Hn. apply list_elem_of_In, in_flat_map. exists c.
    rewrite <- !list_elem_of_In. split; [|done]. by eapply list_elem_of_lookup_2. }
  clear E. assert (iter_mut_until (set_weight_inner pane w) cs = (false, cs)) as ->; [|done].
  induction cs as [|[c wc] cs IHcs]; [done|]. apply Forall_cons in IH as [Hc IH].
  cbn [flat_map fst] in *. rewrite not_elem_of_app in Hn. simpl.
  rewrite (Hc (proj1 Hn)). simpl. by rewrite (IHcs IH (proj2 Hn)).
Qed.

(** A call on a pane of the tree acts on the root split alone. *)
Lemma set_weight_present pane w mk cs :
  is_split mk → pane ∈ all_leaves (mk cs) →
  ∃ idx, (idx < length cs)%nat ∧
    position (λ c, bool_decide (pane ∈ all_leaves c.1)) cs = Some idx ∧
    set_weight (mk cs) pane w = mk (zip cs.*1 (rebalance idx w cs.*2)).
Proof.
  intros Hmk Hin. unfold set_weight. rewrite set_weight_split by done.
  rewrite (all_leaves_split _ _ Hmk) in Hin.
  destruct (position _ cs) as [idx|] eqn:E.
  - exists idx. split; [|done]. apply position_Some in E as (c & Hc & _).
    by eapply lookup_lt_Some.
  - exfalso. apply position_None in E. rewrite Forall_forall in E.
    apply list_elem_of_In, in_flat_map in Hin as (c & Hc & Hp).
    apply list_elem_of_In in Hc, Hp. specialize (E c Hc).
    by apply bool_decide_eq_false in E.
Qed.

Lemma flat_map_fst (cs : list (LayoutNode * Z)) :
  flat_map (λ c, all_leaves c.1) cs = flat_map all_leaves cs.*1.
Proof. induction cs as [|c cs IH]; [done|]. cbn [flat_map]. by rewrite fmap_cons, IH. Qed.

(** Leaves and the subtrees below the root are kept by [set_weight]. *)
Lemma set_weight_leaves pane w n :
  wf_weights (match n with Leaf _ => [50; 50] | HSplit cs | VSplit cs => cs.*2 end) →
  all_leaves (set_weight n pane w) = all_leaves n.
Proof.
  intros Hwf. destruct (decide (pane ∈ all_leaves n)) as [Hin|Hin].
  2:{ unfold set_weight. by rewrite set_weight_absent by done. }
  assert (∀ mk cs, is_split mk → n = mk cs → wf_weights cs.*2 →
            all_leaves (set_weight n pane w) = all_leaves n) as Hgen.
  { intros mk cs Hmk -> Hw.
    destruct (set_weight_present pane w mk cs Hmk Hin) as (idx & Hidx & _ & ->).
    rewrite !(all_leaves_split _ _ Hmk), !flat_map_fst, fst_zip; [done|].
    rewrite rebalance_length by (rewrite ?length_fmap; done). by rewrite !length_fmap. }
  destruct n as [id|cs|cs]; [done| |]; (eapply Hgen; [|done..]); unfold is_split; auto.
Qed.

Lemma set_weight_all_splits pane w n :
  all_splits two_ok n → all_splits two_ok (set_weight n pane w).
Proof.
  intros Hn. destruct (decide (pane ∈ all_leaves n)) as [Hin|Hin].
  2:{ unfold set_weight. by rewrite set_weight_absent by done. }
  assert (∀ mk cs, is_split mk → n = mk cs → all_splits two_ok (set_weight n pane w)) as Hgen.
  { intros mk cs Hmk ->.
    destruct (set_weight_present pane w mk cs Hmk Hin) as (idx & Hidx & _ & ->).
    rewrite all_splits_split in Hn by done. destruct Hn as [[Hlen Hw] Hcs].
    rewrite <- (length_fmap snd) in Hidx.
    destruct (lookup_lt_is_Some_2 _ _ Hidx) as [old Hold].
    destruct (rebalance_facts idx w old _ Hw Hold) as (ws' & -> & Hwf' & Hlen' & _).
    rewrite all_splits_split by done. split.
    - rewrite snd_zip by (rewrite Hlen', !length_fmap; done). split; [lia|done].
    - rewrite Forall_forall in *. intros [c wc] Hc.
      apply elem_of_zip_l in Hc. apply list_elem_of_fmap in Hc as ([c' wc'] & -> & Hc').
      exact (Hcs _ Hc'). }
  destruct n as [id|cs|cs]; [done| |]; (eapply Hgen; [|done]); unfold is_split; auto.
Qed.

(** ** Steps of a layout *)

(** What the registry does to the layout of a window: a split with a pane that
    is new to it, a close, a change of weight. *)
Inductive layout_step : LayoutNode → LayoutNode → Prop :=
  | step_split n focused new_pane orient :
      new_pane ∉ all_leaves n →
      layout_step n (split_focused n focused new_pane orient)
  | step_close n pane : layout_step n (close n pane).2
  | step_weight n pane w : layout_step n (set_weight n pane w).

Lemma split_leaves n focused new_pane orient :
  all_leaves (split_focused n focused new_pane orient) = all_leaves n ∨
  ∃ l1 l2, all_leaves n = l1 ++ focused :: l2 ∧
    all_leaves (split_focused n focused new_pane orient) = l1 ++ focused :: new_pane :: l2.
Proof.
  unfold split_focused. destruct (decide (focused ∈ all_leaves n)) as [Hin|Hin].
  - right. apply list_elem_of_split_l in Hin as (l1 & l2 & Hn & Hl1).
    exists l1, l2. split; [done|]. by apply split_present.
  - left. by rewrite split_absent.
Qed.

Lemma NoDup_insert_middle {A} (l1 l2 : list A) x y :
  NoDup (l1 ++ x :: l2) → y ∉ l1 ++ x :: l2 → NoDup (l1 ++ x :: y :: l2).
Proof.
  intros Hnd Hy. assert (l1 ++ x :: y :: l2 = (l1 ++ [x]) ++ y :: l2) as ->
    by (by rewrite <- app_assoc).
  rewrite <- Permutation_middle, <- app_assoc. by constructor.
Qed.

Lemma filter_absent (pane : PaneId) (l : list PaneId) :
  pane ∉ l → filter (λ id, id ≠ pane) l = l.
Proof.
  induction l as [|x l IH]; intros H; [done|]. apply not_elem_of_cons in H as [H1 H2].
  rewrite filter_cons_True by auto. by rewrite IH.
Qed.

Lemma close_cases n pane :
  (close n pane).2 = n ∨
  (all_leaves n ≠ [pane] ∧ (close n pane).2 = (remove_leaf pane n).2 ∧
   (remove_leaf pane n).1 = false).
Proof.
  unfold close. destruct (position _ _) as [pos|] eqn:E; [|by left].
  destruct (Nat.eqb_spec (length (all_leaves n)) 1) as [|Hlen]; [by left|].
  right. split; [intros Heq; by rewrite Heq in Hlen|]. split; [by case_match|].
  destruct (remove_leaf pane n).1 eqn:Er; [|done].
  apply remove_leaf_spec in Er as ->. by simpl in Hlen.
Qed.

Lemma layout_step_ok n n' : layout_step n n' → layout_ok n → layout_ok n'.
Proof.
  intros Hstep [Hn Hnd]. destruct Hstep as [n f p o Hp|n p|n p w].
  - split; [by apply split_all_splits; [apply two_ok_fifty|]|].
    destruct (split_leaves n f p o) as [->|(l1 & l2 & Hl & ->)]; [done|].
    rewrite Hl in *. by apply NoDup_insert_middle.
  - destruct (close_cases n p) as [->|(_ & -> & Hr)]; [by split|].
    split; [by apply remove_all_splits|].
    rewrite (proj2 (remove_leaf_spec p n) Hr). by apply NoDup_filter.
  - split; [by apply set_weight_all_splits|]. rewrite set_weight_leaves; [done|].
    destruct n as [id|cs|cs]; [apply two_ok_fifty|apply Hn..].
Qed.

Lemma leaf_layout_ok p : layout_ok (Leaf p).
Proof. split; [done|]. apply NoDup_singleton. Qed.

(** The leaves an operation can leave behind. *)
Lemma close_leaves_subset n pane p : p ∈ all_leaves (close n pane).2 → p ∈ all_leaves n.
Proof.
  destruct (close_cases n pane) as [->|(_ & -> & Hr)]; [done|].
  rewrite (proj2 (remove_leaf_spec pane n) Hr). intros Hp. by apply list_elem_of_filter in Hp as [_ ?].
Qed.

Lemma set_weight_leaves_ok n pane w : layout_ok n → all_leaves (set_weight n pane w) = all_leaves n.
Proof.
  intros [Hn _]. apply set_weight_leaves. destruct n as [id|cs|cs]; [apply two_ok_fifty|apply Hn..].
Qed.

Lemma split_leaves_subset n f p o q :
  q ∈ all_leaves (split_focused n f p o) → q ∈ all_leaves n ∨ q = p.
Proof.
  destruct (split_leaves n f p o) as [->|(l1 & l2 & -> & ->)]; [by left|]. set_solver.
Qed.

(** ** Properties *)

(** C15: every layout a window can reach, from the single leaf of its first pane
    by any sequence of splits with new panes, closes and weight changes (any
    pane and any requested weight), satisfies the documented invariant: the
    weights of every split lie between 5 and 95 and sum to 100, the splits have
    two children, and no pane occurs twice. *)
Theorem reachable_layout_ok first n
    (Hn : rtc layout_step (Leaf first) n) : layout_ok n.
Proof.
  assert (H0 : layout_ok (Leaf first)) by (split; [done|apply NoDup_singleton]).
  induction Hn as [|x y z Hxy _ IH]; [done|]. apply IH. by eapply layout_step_ok.
Qed.

Lemma reachable_layout_ok_witness :
  layout_ok (set_weight (close (split_focused (split_focused (Leaf (MkPaneId 1))
    (MkPaneId 1) (MkPaneId 2) Vertical) (MkPaneId 2) (MkPaneId 3) Horizontal)
    (MkPaneId 2)).2 (MkPaneId 3) 80).
Proof.
  apply (reachable_layout_ok (MkPaneId 1)).
  eapply rtc_l; [apply (step_split _ (MkPaneId 1) (MkPaneId 2) Vertical)|].
  { vm_compute. set_solver. }
  eapply rtc_l; [apply (step_split _ (MkPaneId 2) (MkPaneId 3) Horizontal)|].
  { vm_compute. set_solver. }
  eapply rtc_l; [apply (step_close _ (MkPaneId 2))|].
  eapply rtc_l; [apply (step_weight _ (MkPaneId 3) 80)|]. apply rtc_refl.
Defined.

(** [split_focused] puts the new pane right after the focused one in the
    order of the leaves, whatever the depth at which it is found, and leaves the
    tree alone when the focused pane is not in it. *)
Theorem split_focused_order n focused new_pane orient l1 l2 :
  (focused ∉ all_leaves n → split_focused n focused new_pane orient = n) ∧
  (all_leaves n = l1 ++ focused :: l2 → focused ∉ l1 →
   all_leaves (split_focused n focused new_pane orient)
   = l1 ++ focused :: new_pane :: l2).
Proof.
  unfold split_focused. split.
  - intros H. by rewrite split_absent.
  - intros. by apply split_present.
Qed.

Lemma split_focused_order_witness :
  let n := VSplit [(Leaf (MkPaneId 1), 50);
                   (HSplit [(Leaf (MkPaneId 2), 50); (Leaf (MkPaneId 3), 50)], 50)] in
  all_leaves (split_focused n (MkPaneId 2) (MkPaneId 9) Vertical)
  = [MkPaneId 1; MkPaneId 2; MkPaneId 9; MkPaneId 3].
Proof.
  apply (split_focused_order _ (MkPaneId 2) (MkPaneId 9) Vertical [MkPaneId 1] [MkPaneId 3]);
    [reflexivity|vm_compute; set_solver].
Defined.

(** Closing a pane removes exactly it from the leaves, keeping their order,
    and hands the focus to the pane before it, or to the one after it when it
    was the first. Closing the only pane, or one the tree does not hold, changes
    nothing and reports that nobody gets the focus. *)
Theorem close_spec n pane l1 l2 (Hnd : NoDup (all_leaves n)) :
  (pane ∉ all_leaves n → close n pane = (None, n)) ∧
  (all_leaves n = l1 ++ pane :: l2 →
   (if decide (l1 ++ l2 = []) then close n pane = (None, n)
    else all_leaves (close n pane).2 = l1 ++ l2 ∧
         (close n pane).1 = (match last l1 with Some f => Some f | None => head l2 end))).
Proof.
  split.
  - intros Hn. unfold close. rewrite (proj2 (position_None _ _)); [done|].
    apply Forall_forall. intros x Hx. apply bool_decide_eq_false. by intros ->.
  - intros Hn. assert (Hp : (pane ∉ l1) ∧ (pane ∉ l2)).
    { rewrite Hn, NoDup_app, NoDup_cons in Hnd. set_solver. }
    assert (Hpos : position (λ id, bool_decide (id = pane)) (all_leaves n)
                   = Some (length l1)).
    { rewrite Hn. apply position_Some. exists pane. rewrite list_lookup_middle by done.
      split; [done|]. split; [by apply bool_decide_eq_true|]. intros j y Hj Hlt.
      rewrite lookup_app_l in Hj by done. apply bool_decide_eq_false.
      intros ->. apply list_elem_of_lookup_2 in Hj. by destruct Hp. }
    unfold close. rewrite Hpos, Hn, length_app. cbn [length].
    case_decide as Hnil.
    { apply app_eq_nil in Hnil as [-> ->]. done. }
    destruct (Nat.eqb_spec (length l1 + S (length l2)) 1) as [Hlen|Hlen].
    { destruct l1, l2; simpl in *; try done; lia. }
    assert (Hrem : all_leaves (remove_leaf pane n).2 = l1 ++ l2).
    { rewrite (proj2 (remove_leaf_spec pane n)).
      - rewrite Hn, filter_app, filter_cons_False by auto.
        by rewrite !filter_absent by tauto.
      - destruct (remove_leaf pane n).1 eqn:Er; [|done].
        apply remove_leaf_spec in Er as ->. exfalso. apply Hlen.
        apply (f_equal length) in Hn. rewrite length_app in Hn. simpl in *. lia. }
    rewrite Hrem. destruct (l1 ++ l2) as [|x l] eqn:El; [done|]. cbn [snd fst].
    split; [done|]. rewrite <- El. clear -Hlen.
    destruct l1 as [|y l1] using rev_ind; [by destruct l2|].
    rewrite last_snoc, length_app, Nat.add_comm. simpl.
    rewrite Nat.sub_0_r, <- app_assoc. by apply list_lookup_middle.
Qed.

Lemma close_spec_witness :
  let n := VSplit [(Leaf (MkPaneId 1), 50);
                   (HSplit [(Leaf (MkPaneId 2), 50); (Leaf (MkPaneId 3), 50)], 50)] in
  (close n (MkPaneId 3)).1 = Some (MkPaneId 2).
Proof.
  intros n. assert (Hnd : NoDup (all_leaves n)) by (refine (bool_decide_unpack _ _); vm_compute; exact I).
  exact (proj2 (proj2 (close_spec n (MkPaneId 3) [MkPaneId 1; MkPaneId 2] [] Hnd)
                  eq_refl)).
Defined.

(** [set_weight] on a pane of a split whose weights are sane (any number of
    children) rewrites the weights of that root split only: the subtrees stay
    as they are, even when the pane is nested deeper, the new weights lie in
    5..95 and sum to 100 again, and the child that holds the pane ends with the
    requested weight, clamped, when it shrinks, and with at most it when it
    grows. *)
Theorem set_weight_root mk cs pane w idx old
    (Hmk : is_split mk) (Hwf : wf_weights cs.*2)
    (Hpos : position (λ c, bool_decide (pane ∈ all_leaves c.1)) cs = Some idx)
    (Hold : cs.*2 !! idx = Some old) :
  ∃ ws', set_weight (mk cs) pane w = mk (zip cs.*1 ws') ∧
    length ws' = length cs ∧ wf_weights ws' ∧
    ∃ w', ws' !! idx = Some w' ∧ w' <= clamp w 5 95 ∧
          (clamp w 5 95 <= old → w' = clamp w 5 95).
Proof.
  destruct (rebalance_facts idx w old _ Hwf Hold)
    as (ws' & Hws & Hwf' & Hlen & w' & Hw' & Hle & Heq).
  exists ws'. split; [|split; [by rewrite Hlen, length_fmap|]].
  - unfold set_weight. rewrite set_weight_split by done. rewrite Hpos. simpl. by rewrite Hws.
  - split; [done|]. exists w'. split; [done|]. split; [done|]. intros H. apply Heq. lia.
Qed.

Lemma set_weight_root_witness :
  ∃ ws', set_weight (VSplit [(Leaf (MkPaneId 1), 40); (Leaf (MkPaneId 2), 30);
                             (Leaf (MkPaneId 3), 30)]) (MkPaneId 1) 20
         = VSplit (zip [Leaf (MkPaneId 1); Leaf (MkPaneId 2); Leaf (MkPaneId 3)] ws') ∧
         wf_weights ws' ∧ ws' !! 0%nat = Some 20.
Proof.
  destruct (set_weight_root VSplit
    [(Leaf (MkPaneId 1), 40); (Leaf (MkPaneId 2), 30); (Leaf (MkPaneId 3), 30)]
    (MkPaneId 1) 20 0%nat 40) as (ws' & H1 & _ & H2 & w' & H3 & _ & H4).
  - by right.
  - solve_wf_weights.
  - reflexivity.
  - reflexivity.
  - exists ws'. split; [exact H1|]. split; [exact H2|].
    rewrite H4 in H3 by (unfold clamp; lia). exact H3.
Defined.
