(* ===== verification/LayoutGeometry.v ===== *)
(** * LayoutGeometry: the rectangles of the leaves, and moving between them

    [leaves] assigns every leaf a rectangle inside the viewport, no two of which
    overlap, as long as the weights of a split do not overflow [u16] and the
    viewport does not overflow [u32]; [focus_dir] picks the nearest of the panes
    that lie wholly on the requested side. *)
From Stdlib Require Import Sorting.Sorted.
From S2P Require Import Prelude Proto Layout LayoutWeights LayoutTree.
Local Open Scope Z_scope.

(** Weights of a split whose [u16] sum is exact. *)
Definition summable (ws : list Z) : Prop := Forall (λ w, 0 <= w) ws ∧ sum_Z ws <= 65535.

(** A rectangle whose right and bottom edges are [u32] numbers. *)
Definition rect_ok (r : Rect) : Prop :=
  0 <= rx r ∧ 0 <= ry r ∧ 0 <= rw r ∧ 0 <= rh r ∧
  rx r + rw r < 2 ^ 32 ∧ ry r + rh r < 2 ^ 32.

Definition inside (vp r : Rect) : Prop :=
  0 <= rw r ∧ 0 <= rh r ∧ rx vp <= rx r ∧ ry vp <= ry r ∧
  rx r + rw r <= rx vp + rw vp ∧ ry r + rh r <= ry vp + rh vp.

Definition apart (a b : Rect) : Prop :=
  rx a + rw a <= rx b ∨ rx b + rw b <= rx a ∨ ry a + rh a <= ry b ∨ ry b + rh b <= ry a.

(** The rectangles of a list of leaves lie inside [vp] and do not overlap. *)
Definition tiles (vp : Rect) (l : list (PaneId * Rect)) : Prop :=
  Forall (λ lf, inside vp lf.2) l ∧ ForallOrdPairs (λ a b, apart a.2 b.2) l.

Lemma inside_ok vp r : rect_ok vp → inside vp r → rect_ok r.
Proof. unfold rect_ok, inside. lia. Qed.

Lemma inside_trans a b c : inside a b → inside b c → inside a c.
Proof. unfold inside. lia. Qed.

(** Shares of consecutive children never exceed the share of their sum. *)
Lemma div_add_le a b t : 0 < t → 0 <= a → 0 <= b → a / t + b / t <= (a + b) / t.
Proof.
  intros Ht Ha Hb. apply Z.div_le_lower_bound; [done|].
  pose proof (Z.mul_div_le a t Ht). pose proof (Z.mul_div_le b t Ht). lia.
Qed.

(** One step of a loop: [rest] is the weight of the children still to come. *)
Lemma share_step size w rest total :
  0 < total → 0 <= size < 2 ^ 32 → 0 <= w → 0 <= rest → w + rest <= total →
  let h := share_of size w total in
  0 <= h ∧ h + size * rest / total <= size * (w + rest) / total <= size.
Proof.
  intros Ht Hs Hw Hr Hle. simpl. unfold share_of.
  assert (Hb : 0 <= size * w / total <= size).
  { split; [apply Z.div_pos; nia|]. apply Z.div_le_upper_bound; nia. }
  rewrite wrap_u32_small by lia. split; [lia|]. rewrite Z.mul_add_distr_l. split.
  - apply div_add_le; nia.
  - apply Z.div_le_upper_bound; nia.
Qed.

(** Bands stacked along one axis keep their contents apart. *)
Lemma tiles_app vp b1 b2 l1 l2 :
  inside vp b1 → inside vp b2 → apart b1 b2 →
  tiles b1 l1 → tiles b2 l2 → tiles vp (l1 ++ l2).
Proof.
  intros Hb1 Hb2 Hap [H1 P1] [H2 P2]. split.
  - apply Forall_app. split; (eapply Forall_impl; [eassumption|]);
      intros lf Hlf; (eapply inside_trans; [|exact Hlf]); done.
  - apply ForallOrdPairs_app; [done..|].
    eapply Forall_impl; [exact H1|]. intros lf Hlf.
    eapply Forall_impl; [exact H2|]. intros lf' Hlf'.
    unfold inside, apart in *. lia.
Qed.

Section Loops.
Context (vp : Rect) (total : Z).
Hypothesis Hvp : rect_ok vp.
Hypothesis Htotal : 0 < total.

Lemma lay_rows_tiles cs y :
  Forall (λ c, ∀ b, rect_ok b → tiles b (leaves_inner c.1 b)) cs →
  Forall (λ w, 0 <= w) cs.*2 → sum_Z cs.*2 <= total →
  ry vp <= y → y + rh vp * sum_Z cs.*2 / total <= ry vp + rh vp →
  tiles (MkRect (rx vp) y (rw vp) (rh vp * sum_Z cs.*2 / total))
        (lay_rows leaves_inner vp total cs y).
Proof.
  revert y. induction cs as [|[c w] cs IH]; intros y Hc Hw Hsum Hy Hend.
  { split; constructor. }
  apply Forall_cons in Hc as [Hc Hcs]. rewrite fmap_cons in *. cbn [fst snd] in *.
  apply Forall_cons in Hw as [Hw Hws]. cbn [lay_rows].
  change (sum_Z (w :: cs.*2)) with (w + sum_Z cs.*2) in *.
  assert (0 <= sum_Z cs.*2) by (clear -Hws; induction Hws; simpl; unfold sum_Z in *; lia).
  unfold rect_ok in Hvp.
  destruct (share_step (rh vp) w (sum_Z cs.*2) total) as (Hh0 & Hh1 & Hh2); [lia..|].
  set (h := share_of (rh vp) w total) in *.
  assert (0 <= rh vp * sum_Z cs.*2 / total) by (apply Z.div_pos; nia).
  rewrite wrap_u32_small by lia.
  apply (tiles_app _ (MkRect (rx vp) y (rw vp) h)
           (MkRect (rx vp) (y + h) (rw vp) (rh vp * sum_Z cs.*2 / total))).
  - unfold inside; simpl; lia.
  - unfold inside; simpl; lia.
  - unfold apart; simpl; lia.
  - apply Hc. unfold rect_ok; simpl; lia.
  - apply IH; [done|done|lia|lia|lia].
Qed.

Lemma lay_columns_tiles cs x :
  Forall (λ c, ∀ b, rect_ok b → tiles b (leaves_inner c.1 b)) cs →
  Forall (λ w, 0 <= w) cs.*2 → sum_Z cs.*2 <= total →
  rx vp <= x → x + rw vp * sum_Z cs.*2 / total <= rx vp + rw vp →
  tiles (MkRect x (ry vp) (rw vp * sum_Z cs.*2 / total) (rh vp))
        (lay_columns leaves_inner vp total cs x).
Proof.
  revert x. induction cs as [|[c w] cs IH]; intros x Hc Hw Hsum Hx Hend.
  { split; constructor. }
  apply Forall_cons in Hc as [Hc Hcs]. rewrite fmap_cons in *. cbn [fst snd] in *.
  apply Forall_cons in Hw as [Hw Hws]. cbn [lay_columns].
  change (sum_Z (w :: cs.*2)) with (w + sum_Z cs.*2) in *.
  assert (0 <= sum_Z cs.*2) by (clear -Hws; induction Hws; simpl; unfold sum_Z in *; lia).
  unfold rect_ok in Hvp.
  destruct (share_step (rw vp) w (sum_Z cs.*2) total) as (Hh0 & Hh1 & Hh2); [lia..|].
  set (h := share_of (rw vp) w total) in *.
  assert (0 <= rw vp * sum_Z cs.*2 / total) by (apply Z.div_pos; nia).
  rewrite wrap_u32_small by lia.
  apply (tiles_app _ (MkRect x (ry vp) h (rh vp))
           (MkRect (x + h) (ry vp) (rw vp * sum_Z cs.*2 / total) (rh vp))).
  - unfold inside; simpl; lia.
  - unfold inside; simpl; lia.
  - unfold apart; simpl; lia.
  - apply Hc. unfold rect_ok; simpl; lia.
  - apply IH; [done|done|lia|lia|lia].
Qed.
End Loops.

Lemma tiles_mono vp b l : inside vp b → tiles b l → tiles vp l.
Proof.
  intros Hb [H1 H2]. split; [|done]. eapply Forall_impl; [exact H1|].
  intros lf Hlf. by eapply inside_trans.
Qed.

Lemma leaves_inner_tiles n vp :
  all_splits summable n → rect_ok vp → tiles vp (leaves_inner n vp).
Proof.
  revert vp. induction n as [id|mk cs Hmk IH] using LayoutNode_ind'; intros vp Hn Hvp.
  { split; (constructor; [|constructor]); [|constructor].
    unfold inside, rect_ok in *; simpl; lia. }
  rewrite all_splits_split in Hn by done. destruct Hn as [[Hw Hsum] Hcs].
  assert (Hc : Forall (λ c, ∀ b, rect_ok b → tiles b (leaves_inner c.1 b)) cs).
  { rewrite Forall_forall in *. auto. }
  assert (0 <= sum_Z cs.*2) by (clear -Hw; induction Hw; simpl; unfold sum_Z in *; lia).
  assert (Hs : sum_u16 cs.*2 = sum_Z cs.*2) by (apply sum_u16_small; [done|lia]).
  pose proof Hvp as Hvp'. unfold rect_ok in Hvp'.
  assert (∀ size, 0 <= size → 0 <= size * sum_Z cs.*2 / Z.max (sum_Z cs.*2) 1 <= size) as Hd.
  { intros size Hz. split; [apply Z.div_pos; nia|]. apply Z.div_le_upper_bound; nia. }
  pose proof (Hd (rh vp) ltac:(lia)). pose proof (Hd (rw vp) ltac:(lia)).
  split_kind Hmk; cbn [leaves_inner]; rewrite Hs.
  - eapply tiles_mono; [|eapply lay_rows_tiles; try done; lia].
    unfold inside; simpl; lia.
  - eapply tiles_mono; [|eapply lay_columns_tiles; try done; lia].
    unfold inside; simpl; lia.
Qed.

Lemma leaves_inner_ids n vp : (leaves_inner n vp).*1 = all_leaves n.
Proof.
  revert vp. induction n as [id|mk cs Hmk IH] using LayoutNode_ind'; intros vp; [done|].
  split_kind Hmk; cbn [leaves_inner all_leaves]; generalize (Z.max (sum_u16 cs.*2) 1);
    intros total; [generalize (ry vp) as y|generalize (rx vp) as y];
    (induction cs as [|[c w] cs IHcs]; intros y; [done|]);
    apply Forall_cons in IH as [Hc IH]; cbn [fst] in Hc;
    simpl; rewrite fmap_app, Hc, IHcs by done; done.
Qed.

(** ** Properties *)

Lemma contains_pt_spec r px py :
  rect_ok r →
  contains_pt r px py = true ↔
  rx r <= px < rx r + rw r ∧ ry r <= py < ry r + rh r.
Proof.
  unfold rect_ok, contains_pt. intros Hr. rewrite !wrap_u32_small by lia.
  rewrite !andb_true_iff, !Z.leb_le, !Z.ltb_lt. lia.
Qed.

(** C34: [leaves] lists every pane once per leaf, in order, and cuts the viewport
    without overlap: a pixel of a leaf is a pixel of the viewport, and no pixel
    belongs to two leaves. It needs only that the weights of each split sum
    within [u16] and that the viewport's edges are [u32] numbers. *)
Theorem leaves_tile n vp i j a b ra rb px py
    (Hn : all_splits summable n) (Hvp : rect_ok vp)
    (Hi : leaves n vp !! i = Some (a, ra)) (Hj : leaves n vp !! j = Some (b, rb))
    (Hpa : contains_pt ra px py = true) :
  (leaves n vp).*1 = all_leaves n ∧ contains_pt vp px py = true ∧
  (contains_pt rb px py = true → i = j).
Proof.
  destruct (leaves_inner_tiles n vp Hn Hvp) as [Hin Hap].
  pose proof (Forall_lookup_1 _ _ _ _ Hin Hi) as Ha.
  pose proof (Forall_lookup_1 _ _ _ _ Hin Hj) as Hb. cbn [snd] in *.
  apply contains_pt_spec in Hpa; [|by eapply inside_ok].
  split; [apply leaves_inner_ids|]. split.
  - apply contains_pt_spec; [done|]. unfold inside in Ha. lia.
  - intros Hpb. apply contains_pt_spec in Hpb; [|by eapply inside_ok].
    destruct (Nat.lt_trichotomy i j) as [Hlt|[->|Hlt]]; [|done|].
    + pose proof (ForallOrdPairs_lookup _ _ _ _ _ _ Hap Hlt Hi Hj) as H.
      unfold apart in H. simpl in H. lia.
    + pose proof (ForallOrdPairs_lookup _ _ _ _ _ _ Hap Hlt Hj Hi) as H.
      unfold apart in H. simpl in H. lia.
Qed.

Definition sample_tree : LayoutNode :=
  VSplit [(Leaf (MkPaneId 1), 50);
          (HSplit [(Leaf (MkPaneId 2), 50); (Leaf (MkPaneId 3), 50)], 50)].

Lemma sample_tree_summable : all_splits summable sample_tree.
Proof. repeat split; simpl; try lia; repeat (apply Forall_cons; split; [lia|]); by apply Forall_nil. Qed.

Lemma leaves_tile_witness :
  contains_pt (MkRect 0 0 1000 1000) 600 700 = true.
Proof.
  apply (leaves_tile sample_tree (MkRect 0 0 1000 1000) 2%nat 2%nat
           (MkPaneId 3) (MkPaneId 3) (MkRect 500 500 500 500) (MkRect 500 500 500 500) 600 700).
  - apply sample_tree_summable.
  - unfold rect_ok; simpl; lia.
  - reflexivity.
  - reflexivity.
  - reflexivity.
Defined.

(** [r] lies wholly on the [dir] side of [cur], in plain arithmetic. *)
Definition beyond (dir : Dir) (cur r : Rect) : Prop :=
  match dir with
  | DirLeft => rx r + rw r <= rx cur
  | DirRight => rx cur + rw cur <= rx r
  | DirUp => ry r + rh r <= ry cur
  | DirDown => ry cur + rh cur <= ry r
  end.

Lemma on_side_beyond dir cur r :
  rect_ok cur → rect_ok r → on_side dir cur r = true ↔ beyond dir cur r.
Proof.
  unfold rect_ok, on_side, beyond. intros Hc Hr.
  destruct dir; rewrite wrap_u32_small by lia; apply Z.leb_le.
Qed.

(** Keyboard focus moves to the nearest pane on the requested side: the
    answer of [focus_dir] is another pane of the layout, lies wholly beyond the
    edge of the current pane, and no other such pane has a closer centre; there
    is no answer exactly when the current pane is not in the layout or no pane
    lies on that side. *)
Theorem focus_dir_nearest n current dir (Hn : all_splits summable n) :
  match focus_dir n current dir with
  | Some p =>
      ∃ rc rp, (current, rc) ∈ leaves n unit_viewport ∧
        (p, rp) ∈ leaves n unit_viewport ∧ p ≠ current ∧ beyond dir rc rp ∧
        ∀ q rq, (q, rq) ∈ leaves n unit_viewport → q ≠ current → beyond dir rc rq →
                center_dist rc rp <= center_dist rc rq
  | None =>
      current ∉ all_leaves n ∨
      ∃ rc, (current, rc) ∈ leaves n unit_viewport ∧
        ∀ q rq, (q, rq) ∈ leaves n unit_viewport → q ≠ current → ¬ beyond dir rc rq
  end.
Proof.
  assert (Hvp : rect_ok unit_viewport) by (unfold rect_ok; simpl; lia).
  destruct (leaves_inner_tiles n _ Hn Hvp) as [Hin _].
  assert (Hok : ∀ q rq, (q, rq) ∈ leaves n unit_viewport → rect_ok rq).
  { intros q rq Hq. rewrite Forall_forall in Hin. apply (inside_ok _ _ Hvp (Hin _ Hq)). }
  unfold focus_dir. fold (leaves n unit_viewport).
  destruct (find_first _ _) as [[c rc]|] eqn:Ef.
  2:{ left. rewrite <- (leaves_inner_ids n unit_viewport). intros Hc.
      apply list_elem_of_fmap in Hc as ([q rq] & -> & Hq).
      apply find_first_None in Ef. rewrite Forall_forall in Ef. specialize (Ef _ Hq).
      by apply bool_decide_eq_false in Ef. }
  apply find_first_Some in Ef as [Hc Heq]. apply bool_decide_eq_true in Heq.
  cbn [fst] in Heq. subst c. set (cand := List.filter _ _).
  assert (Hcand : ∀ q rq, (q, rq) ∈ cand ↔
            (q, rq) ∈ leaves n unit_viewport ∧ q ≠ current ∧ beyond dir rc rq).
  { intros q rq. unfold cand. rewrite list_elem_of_In, filter_In, <- list_elem_of_In.
    cbn [fst snd]. rewrite andb_true_iff, negb_true_iff, bool_decide_eq_false.
    split; intros (Hq & Hne & Hs); (split; [done|]); (split; [done|]);
      apply (on_side_beyond dir rc rq (Hok _ _ Hc) (Hok _ _ Hq)); done. }
  clearbody cand. destruct (min_by_key _ cand) as [[p rp]|] eqn:Em.
  - apply min_by_key_Some in Em as [Hp Hmin].
    assert (fst <$> Some (p, rp) = Some p) as Hfst by done.
    destruct cand as [|x cand']; [by apply not_elem_of_nil in Hp|]. rewrite Hfst.
    apply Hcand in Hp as (Hp & Hne & Hb). exists rc, rp. repeat split; try done.
    intros q rq Hq Hqne Hqb. rewrite Forall_forall in Hmin.
    apply (Hmin (q, rq)). by apply Hcand.
  - apply min_by_key_None in Em as ->. right. exists rc. split; [done|].
    intros q rq Hq Hne Hb. eapply not_elem_of_nil, Hcand. done.
Qed.

Lemma focus_dir_nearest_witness :
  focus_dir sample_tree (MkPaneId 2) DirDown = Some (MkPaneId 3) ∧
  ∃ rc rp, beyond DirDown rc rp ∧ (MkPaneId 3, rp) ∈ leaves sample_tree unit_viewport.
Proof.
  split; [reflexivity|].
  destruct (focus_dir_nearest sample_tree (MkPaneId 2) DirDown sample_tree_summable)
    as (rc & rp & _ & H1 & _ & H2 & _).
  exists rc, rp. split; [exact H2|exact H1].
Defined.
