(* ===== verification/RingBuf.v ===== *)
(** * RingBuf: the replay buffer of pyred/src/ringbuf.rs

    A circular buffer of [cap] bytes. The specification is the list of the last
    [cap] bytes ever pushed ([lastn]); [snapshot] refines it. *)
From Stdlib Require Import Strings.Byte.
From S2P Require Import Prelude Proto.

Module RingBuf.

Record RingBuf := MkRingBuf {
  rb_buf : list Byte.byte;
  rb_head : nat;
  rb_len : nat;
  rb_cap : nat }.

Definition new (cap : nat) : RingBuf := MkRingBuf (replicate cap x00) 0 0 cap.

(** The body of the [for &b in bytes] loop. *)
Definition push_byte (rb : RingBuf) (b : Byte.byte) : RingBuf :=
  let write_pos := (rb_head rb + rb_len rb) mod rb_cap rb in
  let buf := <[write_pos := b]> (rb_buf rb) in
  if rb_len rb <? rb_cap rb
  then MkRingBuf buf (rb_head rb) (rb_len rb + 1) (rb_cap rb)
  else MkRingBuf buf ((rb_head rb + 1) mod rb_cap rb) (rb_len rb) (rb_cap rb).

Definition push (rb : RingBuf) (bytes : Bytes) : RingBuf :=
  if (rb_cap rb =? 0) || (length bytes =? 0) then rb
  else
    let bytes := if rb_cap rb <=? length bytes
                 then drop (length bytes - rb_cap rb) bytes else bytes in
    fold_left push_byte bytes rb.

Definition snapshot (rb : RingBuf) : Bytes :=
  if rb_len rb =? 0 then []
  else if rb_head rb + rb_len rb <=? rb_cap rb
  then take (rb_len rb) (drop (rb_head rb) (rb_buf rb))
  else drop (rb_head rb) (rb_buf rb)
       ++ take (rb_len rb - (rb_cap rb - rb_head rb)) (rb_buf rb).

Definition is_empty (rb : RingBuf) : bool := rb_len rb =? 0.

(** ** Invariant and abstraction *)
Definition ring_ok (rb : RingBuf) : Prop :=
  length (rb_buf rb) = rb_cap rb ∧ rb_len rb ≤ rb_cap rb ∧
  (rb_cap rb = 0 ∨ rb_head rb < rb_cap rb).

(** Reading [len] cells from [head] on, around the end of the buffer. *)
Definition rotate (rb : RingBuf) : Bytes := drop (rb_head rb) (rb_buf rb) ++ take (rb_head rb) (rb_buf rb).

Lemma snapshot_rotate rb : ring_ok rb → snapshot rb = take (rb_len rb) (rotate rb).
Proof.
  intros (Hl & Hn & Hh). unfold snapshot, rotate.
  destruct (Nat.eqb_spec (rb_len rb) 0) as [->|Hne]; [done|].
  destruct (Nat.leb_spec (rb_head rb + rb_len rb) (rb_cap rb)) as [Hle|Hgt].
  - by rewrite take_app_le by (rewrite length_drop; lia).
  - rewrite take_app_ge by (rewrite length_drop; lia). rewrite length_drop, take_take.
    do 2 f_equal. lia.
Qed.

Lemma new_ring_ok cap : ring_ok (new cap).
Proof. unfold ring_ok, new. simpl. rewrite length_replicate. lia. Qed.

Lemma mod_wrap h i c :
  h < c → i ≤ c → (h + i) mod c = if decide (h + i < c) then h + i else h + i - c.
Proof.
  intros. case_decide; [by apply Nat.mod_small|].
  replace (h + i) with (h + i - c + 1 * c) at 1 by lia.
  rewrite Nat.Div0.mod_add. apply Nat.mod_small. lia.
Qed.

Lemma snapshot_length rb : ring_ok rb → length (snapshot rb) = rb_len rb.
Proof.
  intros Hok. rewrite snapshot_rotate by done. destruct Hok as (Hl & Hn & Hh).
  unfold rotate. rewrite length_take, length_app, length_drop, length_take. lia.
Qed.

Lemma snapshot_lookup rb i :
  ring_ok rb → i < rb_len rb →
  snapshot rb !! i = rb_buf rb !! ((rb_head rb + i) mod rb_cap rb).
Proof.
  intros Hok Hi. rewrite snapshot_rotate by done. destruct Hok as (Hl & Hn & Hh).
  rewrite lookup_take_lt by lia. unfold rotate. rewrite mod_wrap by lia. case_decide.
  - rewrite lookup_app_l by (rewrite length_drop; lia). by rewrite lookup_drop.
  - rewrite lookup_app_r by (rewrite length_drop; lia).
    rewrite length_drop, lookup_take_lt by lia. f_equal. lia.
Qed.

Lemma push_ring_ok rb b : ring_ok rb → rb_cap rb ≠ 0 → ring_ok (push_byte rb b).
Proof.
  intros (Hl & Hn & Hh) Hc. unfold push_byte, ring_ok.
  destruct (Nat.ltb_spec (rb_len rb) (rb_cap rb)); simpl; rewrite length_insert;
    (split; [done|]); (split; [lia|]); right; [lia|].
  by apply Nat.mod_upper_bound.
Qed.

Lemma push_byte_cap rb b : rb_cap (push_byte rb b) = rb_cap rb.
Proof. unfold push_byte. by case_match. Qed.

(** One byte is one step of the specification. *)
Lemma push_byte_snapshot rb b :
  ring_ok rb → rb_cap rb ≠ 0 →
  snapshot (push_byte rb b) = lastn (rb_cap rb) (snapshot rb ++ [b]).
Proof.
  intros Hok Hc. pose proof (push_ring_ok rb b Hok Hc) as Hok'.
  pose proof (snapshot_length rb Hok) as Hlen. pose proof (snapshot_length _ Hok') as Hlen'.
  apply list_eq_same_length with (n := rb_len (push_byte rb b)); [| |].
  - rewrite lastn_length, length_app, Hlen. simpl. destruct Hok as (Hl & Hn & _).
    unfold push_byte. destruct (Nat.ltb_spec (rb_len rb) (rb_cap rb)); simpl; lia.
  - done.
  - intros i x y Hi Hx Hy. rewrite snapshot_lookup in Hx by done.
    unfold lastn in Hy. rewrite lookup_drop, length_app, Hlen in Hy. cbn [length] in Hy.
    destruct Hok as (Hl & Hn & Hh). revert Hi Hx Hy. unfold push_byte.
    destruct (Nat.ltb_spec (rb_len rb) (rb_cap rb)) as [Hlt|Hge]; simpl; intros Hi Hx Hy.
    + replace (rb_len rb + 1 - rb_cap rb + i) with i in Hy by lia.
      rewrite !mod_wrap in Hx by lia. destruct (decide (i = rb_len rb)) as [->|Hne].
      * rewrite list_lookup_insert_eq in Hx by (case_decide; lia).
        rewrite lookup_app_r, Hlen, Nat.sub_diag in Hy by lia. simpl in Hy. congruence.
      * rewrite list_lookup_insert_ne in Hx by (repeat case_decide; lia).
        rewrite lookup_app_l, snapshot_lookup, mod_wrap in Hy by (done || lia). congruence.
    + assert (rb_len rb = rb_cap rb) as Hfull by lia.
      replace (rb_len rb + 1 - rb_cap rb + i) with (S i) in Hy by lia.
      rewrite (mod_wrap (rb_head rb) (rb_len rb)) in Hx by lia.
      rewrite (mod_wrap (rb_head rb) 1) in Hx by lia.
      rewrite mod_wrap in Hx by (try case_decide; lia).
      destruct (decide (S i = rb_len rb)) as [Hli|Hli].
      * rewrite list_lookup_insert in Hx. rewrite Hli, lookup_app_r, Hlen, Nat.sub_diag in Hy by lia.
        simpl in Hy. repeat case_decide; try lia; congruence.
      * rewrite lookup_app_l, snapshot_lookup, mod_wrap in Hy by (done || lia).
        rewrite list_lookup_insert_ne in Hx by (repeat case_decide; lia).
        apply (inj Some). rewrite <- Hx, <- Hy. repeat case_decide; try lia; f_equal; lia.
Qed.

Lemma push_bytes_snapshot bytes rb :
  ring_ok rb → rb_cap rb ≠ 0 →
  ring_ok (fold_left push_byte bytes rb) ∧
  rb_cap (fold_left push_byte bytes rb) = rb_cap rb ∧
  snapshot (fold_left push_byte bytes rb) = lastn (rb_cap rb) (snapshot rb ++ bytes).
Proof.
  revert rb. induction bytes as [|b bytes IH]; intros rb Hok Hc; simpl.
  - rewrite app_nil_r, lastn_all; [done|]. rewrite snapshot_length by done. apply Hok.
  - destruct (IH (push_byte rb b)) as (H1 & H2 & H3);
      [by apply push_ring_ok|by rewrite push_byte_cap|].
    rewrite push_byte_cap in *. split; [done|]. split; [done|].
    by rewrite H3, push_byte_snapshot, lastn_app_lastn, <- app_assoc.
Qed.

Lemma push_refines rb bytes :
  ring_ok rb →
  ring_ok (push rb bytes) ∧ rb_cap (push rb bytes) = rb_cap rb ∧
  snapshot (push rb bytes) = lastn (rb_cap rb) (snapshot rb ++ bytes).
Proof.
  intros Hok. unfold push. pose proof (snapshot_length rb Hok) as Hlen.
  destruct (Nat.eqb_spec (rb_cap rb) 0) as [H0|H0]; simpl.
  { split; [done|]. split; [done|]. destruct Hok as (_ & Hn & _).
    assert (snapshot rb = []) as -> by (apply nil_length_inv; lia).
    rewrite H0. unfold lastn. by rewrite drop_ge by (simpl; lia). }
  destruct (Nat.eqb_spec (length bytes) 0) as [Hb|Hb].
  { apply nil_length_inv in Hb as ->. rewrite app_nil_r, lastn_all; [done|].
    rewrite Hlen. apply Hok. }
  destruct (Nat.leb_spec (rb_cap rb) (length bytes)) as [Hle|Hgt].
  - destruct (push_bytes_snapshot (drop (length bytes - rb_cap rb) bytes) rb Hok H0)
      as (H1 & H2 & H3). rewrite H3, lastn_app_drop; done.
  - by apply push_bytes_snapshot.
Qed.

(** ** Properties *)

Lemma snapshot_tail cap chunks :
  snapshot (fold_left push chunks (new cap)) = lastn cap (concat chunks).
Proof.
  assert (H : ∀ rb hist, ring_ok rb → snapshot rb = lastn (rb_cap rb) hist →
    ring_ok (fold_left push chunks rb) ∧
    snapshot (fold_left push chunks rb) = lastn (rb_cap rb) (hist ++ concat chunks)).
  { induction chunks as [|c chunks IH]; intros rb hist Hok Hs; simpl.
    - by rewrite app_nil_r.
    - destruct (push_refines rb c Hok) as (H1 & H2 & H3).
      rewrite app_assoc, <- H2. apply IH; [done|].
      by rewrite H3, Hs, H2, lastn_app_lastn. }
  destruct (H (new cap) [] (new_ring_ok cap)) as [_ ->]; [|done].
  unfold lastn. by simpl.
Qed.

(** Whatever sequence of chunks the PTY reader pushes, of any sizes, into a
    fresh ring buffer of any capacity, the snapshot replayed on reattach is
    exactly the last [cap] bytes of the output, oldest first. *)
Theorem snapshot_is_tail cap chunks :
  snapshot (fold_left push chunks (new cap)) = lastn cap (concat chunks).
Proof. apply snapshot_tail. Qed.

End RingBuf.
