(* ===== verification/GitStatus.v ===== *)
(** * GitStatus: reading git's porcelain output (pyred/src/git.rs)

    [parse_porcelain] reads the output of [git status --porcelain=v1 --branch];
    [git_info] wraps it with the outcome of running git, which is an argument.
    The specification renders a repository state the way git prints it. *)
From Stdlib Require Import Strings.Byte.
From S2P Require Import Prelude Proto Text.
Local Open Scope Z_scope.

Definition lit : string → Bytes := str_bytes.

(** The number that follows [prefix] in [s]. *)
Definition extract_count (s prefix : Bytes) : option Z :=
  pos ← find_sub prefix s;
  let rest := drop (pos + length prefix) s in
  parse_u32 (take_while is_ascii_digit rest).

Definition empty_info : GitInfo := MkGitInfo "" 0 0 0 None None.

(** The header line without its ["## "]: branch, upstream, ahead, behind. *)
Definition parse_header (header : Bytes) : Bytes * option Bytes * Z * Z :=
  match strip_prefix (lit "No commits yet on ") header with
  | Some rest => (rest, None, 0, 0)
  | None =>
      if starts_with (lit "HEAD (no branch)") header then (lit "HEAD", None, 0, 0)
      else match find_sub (lit "...") header with
      | Some dot_pos =>
          let after := drop (dot_pos + 3) header in
          match find_sub (lit " [") after with
          | Some bracket_pos =>
              let bracket_content := drop (bracket_pos + 2) after in
              (take dot_pos header, Some (take bracket_pos after),
               default 0 (extract_count bracket_content (lit "ahead ")),
               default 0 (extract_count bracket_content (lit "behind ")))
          | None => (take dot_pos header, Some after, 0, 0)
          end
      | None => (header, None, 0, 0)
      end
  end.

Definition parse_porcelain (out : Bytes) : GitInfo :=
  match lines out with
  | h :: ls =>
      if starts_with (lit "## ") h then
        let '(branch, upstream, ahead, behind) := parse_header (drop 3 h) in
        let dirty := wrap_u32 (Z.of_nat (length (filter (λ l, l ≠ []) ls))) in
        MkGitInfo (bytes_str branch) dirty ahead behind (bytes_str <$> upstream) None
      else empty_info
  | [] => empty_info
  end.

(** [git_info]: [output] is what running git gave, [None] when it could not be
    run, otherwise whether it exited with success and its standard output. *)
Definition git_info (output : option (bool * Bytes)) (cwd : PathBuf) : option GitInfo :=
  o ← output;
  if negb o.1 then None else
  _ ← from_utf8 o.2;
  let info := parse_porcelain o.2 in
  Some (MkGitInfo (gi_branch info) (gi_dirty info) (gi_ahead info) (gi_behind info)
          (gi_upstream info) (Some cwd)).

(** ** What git prints *)
Inductive Tracking :=
  | InSync | Ahead (a : Z) | Behind (b : Z) | Diverged (a b : Z) | Gone.
Inductive Head :=
  | Unborn (branch : Bytes)
  | Detached
  | LocalOnly (branch : Bytes)
  | Tracks (branch upstream : Bytes) (t : Tracking).

Definition render_tracking (t : Tracking) : Bytes :=
  match t with
  | InSync => []
  | Ahead a => lit " [" ++ lit "ahead " ++ show_uint a ++ lit "]"
  | Behind b => lit " [" ++ lit "behind " ++ show_uint b ++ lit "]"
  | Diverged a b =>
      lit " [" ++ lit "ahead " ++ show_uint a ++ lit ", " ++ lit "behind " ++ show_uint b ++ lit "]"
  | Gone => lit " [" ++ lit "gone]"
  end.

Definition render_head (h : Head) : Bytes :=
  match h with
  | Unborn b => lit "No commits yet on " ++ b
  | Detached => lit "HEAD (no branch)"
  | LocalOnly b => b
  | Tracks b u t => b ++ lit "..." ++ u ++ render_tracking t
  end.

(** The whole output: the header line, then one line per changed file. *)
Definition render_status (h : Head) (files : list Bytes) : Bytes :=
  flat_map (λ l, l ++ [x0a]) ((lit "## " ++ render_head h) :: files).

Definition head_branch (h : Head) : Bytes :=
  match h with Unborn b | LocalOnly b | Tracks b _ _ => b | Detached => lit "HEAD" end.
Definition head_upstream (h : Head) : option Bytes :=
  match h with Tracks _ u _ => Some u | _ => None end.
Definition head_ahead (h : Head) : Z :=
  match h with Tracks _ _ (Ahead a | Diverged a _) => a | _ => 0 end.
Definition head_behind (h : Head) : Z :=
  match h with Tracks _ _ (Behind b | Diverged _ b) => b | _ => 0 end.

(** git's rules for reference names, as far as the format needs them: no space,
    no newline, no two dots in a row, no dot at the end. *)
Definition refname_ok (b : Bytes) : bool :=
  forallb (λ c, negb (bool_decide (c = x20 ∨ c = x0a ∨ c = x0d))) b
  && negb (contains_sub (lit "..") b)
  && match rev b with x2e :: _ => false | _ => true end.

Definition u32_ok (n : Z) : bool := in_range 0 4294967295 n.
Definition head_ok (h : Head) : bool :=
  match h with
  | Unborn b | LocalOnly b => refname_ok b
  | Detached => true
  | Tracks b u t =>
      refname_ok b && refname_ok u &&
      match t with
      | InSync | Gone => true
      | Ahead n | Behind n => u32_ok n
      | Diverged a b => u32_ok a && u32_ok b
      end
  end.
(** A file line has its two status letters and a name without line breaks. *)
Definition file_line_ok (l : Bytes) : bool :=
  bool_decide (l ≠ []) && forallb (λ c, negb (bool_decide (c = x0a ∨ c = x0d))) l.

(** ** Lemmas *)
Lemma refname_chars b :
  refname_ok b = true → (x20 ∉ b) ∧ (x0a ∉ b) ∧ (x0d ∉ b).
Proof.
  unfold refname_ok. rewrite !andb_true_iff, forallb_forall. intros [[H _] _].
  repeat split; intros Hin; apply list_elem_of_In, H in Hin; by vm_compute in Hin.
Qed.

(** The three dots after a reference name are the first ones. *)
Lemma find_dots b r :
  find_sub (lit "..") b = None → match rev b with x2e :: _ => false | _ => true end = true →
  find_sub (lit "...") (b ++ lit "..." ++ r) = Some (length b).
Proof.
  induction b as [|c b IH]; intros Hdd Hend; [done|].
  cbn [find_sub] in Hdd. destruct (starts_with (lit "..") (c :: b)) eqn:Ec; [done|].
  assert (find_sub (lit "..") b = None) as Hb by (by destruct (find_sub (lit "..") b)).
  assert (b ≠ [] → match rev b with x2e :: _ => false | _ => true end = true) as Hend'.
  { intros Hne. cbn [rev] in Hend. destruct (rev b) eqn:E; [|done].
    by apply (f_equal (@rev _)) in E; rewrite rev_involutive in E. }
  cbn [app find_sub length].
  destruct (starts_with (lit "...") (c :: b ++ lit "..." ++ r)) eqn:E.
  - exfalso. apply starts_with_spec in E as [r' E]. injection E as -> E.
    destruct b as [|d b']; [done|]. injection E as -> E.
    change (starts_with (lit "..") (lit ".." ++ b') = false) in Ec.
    by rewrite starts_with_app in Ec.
  - destruct (decide (b = [])) as [->|Hne]; [by cbn|].
    by rewrite (IH Hb (Hend' Hne)).
Qed.

Lemma find_dots_absent b : find_sub (lit "..") b = None → find_sub (lit "...") b = None.
Proof.
  induction b as [|c b IH]; intros H; [done|]. cbn [find_sub] in *.
  destruct (starts_with (lit "..") (c :: b)) eqn:Ec; [done|].
  destruct (starts_with (lit "...") (c :: b)) eqn:E.
  - apply starts_with_spec in E as [r E]. exfalso. rewrite E in Ec.
    change (starts_with (lit "..") (lit ".." ++ lit "." ++ r) = false) in Ec.
    by rewrite starts_with_app in Ec.
  - rewrite IH; [done|]. by destruct (find_sub (lit "..") b).
Qed.

Lemma take_while_digits ds c r :
  Forall (λ b, is_ascii_digit b = true) ds → is_ascii_digit c = false →
  take_while is_ascii_digit (ds ++ c :: r) = ds.
Proof.
  intros H Hc. induction H as [|d ds Hd H IH]; simpl.
  - by rewrite Hc.
  - by rewrite Hd, IH.
Qed.

Lemma extract_count_found a c p n d r :
  c ∉ a → u32_ok n = true → is_ascii_digit d = false →
  default 0 (extract_count (a ++ (c :: p) ++ show_uint n ++ d :: r) (c :: p)) = n.
Proof.
  unfold u32_ok. rewrite in_range_spec. intros Ha Hn Hd. unfold extract_count.
  rewrite (find_sub_skip c p a _ Ha). cbn [mbind option_bind].
  rewrite app_assoc, <- length_app, drop_app_length.
  rewrite take_while_digits by (done || (apply show_uint_digits; lia)).
  by rewrite parse_u32_show by lia.
Qed.

Lemma extract_count_absent c p s : c ∉ s → default 0 (extract_count s (c :: p)) = 0.
Proof. intros H. unfold extract_count. by rewrite find_sub_absent. Qed.

Lemma show_uint_no_letter n c : 0 ≤ n → is_ascii_digit c = false → c ∉ show_uint n.
Proof.
  intros Hn Hc Hin. pose proof (show_uint_digits n Hn) as H.
  rewrite Forall_forall in H. apply H in Hin. congruence.
Qed.

Ltac not_in :=
  repeat first
    [ rewrite not_elem_of_app; split
    | apply show_uint_no_letter; [lia|done]
    | refine (bool_decide_unpack _ _); vm_compute; exact I ].

(** The counts in the brackets are read back. *)
Lemma tracking_counts u t :
  x20 ∉ u → (match t with
             | InSync | Gone => true | Ahead n | Behind n => u32_ok n
             | Diverged a b => u32_ok a && u32_ok b end) = true →
  (match find_sub (lit " [") (u ++ render_tracking t) with
   | Some p => let c := drop (p + 2) (u ++ render_tracking t) in
       (Some (take p (u ++ render_tracking t)), default 0 (extract_count c (lit "ahead ")),
        default 0 (extract_count c (lit "behind ")))
   | None => (Some (u ++ render_tracking t), 0, 0)
   end) = (Some u, head_ahead (Tracks [] u t), head_behind (Tracks [] u t)).
Proof.
  intros Hu Ht. assert (∀ c, find_sub (lit " [") (u ++ lit " [" ++ c) = Some (length u)
    ∧ take (length u) (u ++ lit " [" ++ c) = u ∧ drop (length u + 2) (u ++ lit " [" ++ c) = c) as Hf.
  { intros c. split; [by apply (find_sub_skip x20)|]. split; [by rewrite take_app_length|].
    by rewrite app_assoc, (drop_app_length' (u ++ lit " [")) by (by rewrite length_app). }
  assert (∀ n, u32_ok n = true → 0 ≤ n) as Hpos by (intros n; unfold u32_ok; rewrite in_range_spec; lia).
  destruct t as [|a|b|a b|]; cbn [render_tracking];
    [assert (find_sub (lit " [") u = None) as Hn by (by apply (find_sub_absent x20));
     rewrite app_nil_r; by rewrite Hn| | | |];
    match goal with |- context [u ++ lit " [" ++ ?c] => destruct (Hf c) as (-> & -> & ->) end;
    cbn [head_ahead head_behind]; [..|done];
    match goal with |- (_, default 0 ?x, default 0 ?y) = (_, ?a, ?b) =>
      enough (default 0 x = a ∧ default 0 y = b) as [-> ->]; [done|] end.
  - pose proof (Hpos a Ht). split.
    + by apply (extract_count_found [] x61 (lit "head ") a x5d []); [not_in|..].
    + apply (extract_count_absent x62 (lit "ehind ")). not_in.
  - pose proof (Hpos b Ht). split.
    + apply (extract_count_absent x61 (lit "head ")). not_in.
    + by apply (extract_count_found [] x62 (lit "ehind ") b x5d []); [not_in|..].
  - apply andb_true_iff in Ht as [Ht1 Ht2]. pose proof (Hpos a Ht1). split.
    + by apply (extract_count_found [] x61 (lit "head ") a x2c); [not_in|..].
    + rewrite (app_assoc (show_uint a)), (app_assoc (lit "ahead ")).
      apply (extract_count_found (lit "ahead " ++ show_uint a ++ lit ", ") x62 (lit "ehind ") b x5d []);
        [not_in|done..].
Qed.

(** A reference name followed by a dot does not start with words. *)
Lemma no_words p q b rest :
  x20 ∉ b → x2e ∉ p → starts_with (p ++ x20 :: q) (b ++ x2e :: rest) = false.
Proof.
  intros Hb Hp. apply not_true_iff_false. rewrite starts_with_spec. intros [r E].
  revert b Hb E. induction p as [|d p IH]; intros [|c b] Hb E; simpl in *; try done.
  - injection E as -> E. by apply Hb; left.
  - injection E as <- E. by apply Hp; left.
  - injection E as _ E. rewrite not_elem_of_cons in Hb, Hp. destruct Hb, Hp. by eapply IH.
Qed.

Lemma no_words_name p q b : x20 ∉ b → starts_with (p ++ x20 :: q) b = false.
Proof.
  intros Hb. apply not_true_iff_false. rewrite starts_with_spec. intros [r ->]. set_solver.
Qed.

Lemma parse_header_render h :
  head_ok h = true →
  parse_header (render_head h) = (head_branch h, head_upstream h, head_ahead h, head_behind h).
Proof.
  destruct h as [b| |b|b u t]; cbn [head_ok render_head]; intros H; [|done|..].
  - unfold parse_header. by rewrite strip_prefix_app.
  - destruct (refname_chars b H) as (Hs & _ & _). unfold parse_header, strip_prefix.
    change (lit "No commits yet on ") with (lit "No" ++ x20 :: lit "commits yet on ").
    change (lit "HEAD (no branch)") with (lit "HEAD" ++ x20 :: lit "(no branch)").
    rewrite !no_words_name by done. rewrite find_dots_absent; [done|].
    unfold refname_ok in H. rewrite !andb_true_iff, negb_true_iff in H. destruct H as [[_ H] _].
    apply bool_decide_eq_false in H. by rewrite <- eq_None_not_Some in H.
  - rewrite !andb_true_iff in H. destruct H as [[Hb Hu] Ht].
    destruct (refname_chars b Hb) as (Hs & _ & _). destruct (refname_chars u Hu) as (Hsu & _ & _).
    assert (find_sub (lit "...") (b ++ lit "..." ++ u ++ render_tracking t) = Some (length b)) as Hd.
    { unfold refname_ok in Hb. rewrite !andb_true_iff, negb_true_iff in Hb. destruct Hb as [[_ H1] H2].
      apply bool_decide_eq_false in H1. rewrite <- eq_None_not_Some in H1. by apply find_dots. }
    assert (starts_with (lit "No commits yet on ") (b ++ lit "..." ++ u ++ render_tracking t) = false) as H1
      by (apply (no_words (lit "No") (lit "commits yet on ") b); [done|not_in]).
    assert (starts_with (lit "HEAD (no branch)") (b ++ lit "..." ++ u ++ render_tracking t) = false) as H2
      by (apply (no_words (lit "HEAD") (lit "(no branch)") b); [done|not_in]).
    unfold parse_header, strip_prefix. rewrite H1, H2, Hd, take_app_length.
    rewrite app_assoc, drop_app_length' by (by rewrite length_app).
    pose proof (tracking_counts u t Hsu Ht) as Hc.
    destruct (find_sub (lit " [") (u ++ render_tracking t)) as [p|];
      injection Hc as E1 E2 E3; cbn [head_branch head_upstream head_ahead head_behind] in *; congruence.
Qed.

Lemma render_head_clean h : head_ok h = true → (x0a ∉ render_head h) ∧ (x0d ∉ render_head h).
Proof.
  assert (∀ n c, u32_ok n = true → is_ascii_digit c = false → c ∉ show_uint n) as Hn.
  { intros n c. unfold u32_ok. rewrite in_range_spec. intros. apply show_uint_no_letter; [lia|done]. }
  assert (∀ s c, bool_decide (c ∉ lit s) = true → c ∉ lit s) as Hl by (intros s c; apply bool_decide_eq_true).
  destruct h as [b| |b|b u t]; cbn [head_ok render_head]; intros H.
  - destruct (refname_chars b H) as (_ & H1 & H2). rewrite !not_elem_of_app. split; split; try done; by apply Hl.
  - split; by apply Hl.
  - by destruct (refname_chars b H) as (_ & H1 & H2).
  - rewrite !andb_true_iff in H. destruct H as [[Hb Hu] Ht].
    destruct (refname_chars b Hb) as (_ & H1 & H2). destruct (refname_chars u Hu) as (_ & H3 & H4).
    destruct t as [|a|a|a a'|]; cbn [render_tracking];
      [| | |apply andb_true_iff in Ht as [Ht Ht']|];
      repeat rewrite not_elem_of_app; repeat (split || by auto); by apply not_elem_of_nil.
Qed.

Lemma file_lines_clean files :
  forallb file_line_ok files = true →
  Forall (λ l, (x0a ∉ l) ∧ (x0d ∉ l)) files ∧ filter (λ l, l ≠ []) files = files.
Proof.
  induction files as [|l files IH]; cbn [forallb]; [done|].
  rewrite andb_true_iff. intros [Hl Hf]. destruct (IH Hf) as [H1 H2].
  unfold file_line_ok in Hl. rewrite andb_true_iff, forallb_forall, bool_decide_eq_true in Hl.
  destruct Hl as [Hne Hc]. split.
  - constructor; [|done]. split; intros Hin; apply list_elem_of_In, Hc in Hin; by vm_compute in Hin.
  - by rewrite filter_cons_True, H2.
Qed.

(** ** Property *)

(** For every state git can report (a branch without commits, a detached
    head, a branch with or without upstream, in sync, ahead, behind, diverged or
    with the upstream gone) and any list of changed files, parsing git's output
    gives back the branch, the upstream, both commit counts and the number of
    changed files as a u32. *)
Theorem parse_porcelain_roundtrip h files
  (Hh : head_ok h = true) (Hf : forallb file_line_ok files = true) :
  parse_porcelain (render_status h files) =
  MkGitInfo (bytes_str (head_branch h)) (wrap_u32 (Z.of_nat (length files)))
    (head_ahead h) (head_behind h) (bytes_str <$> head_upstream h) None.
Proof.
  destruct (render_head_clean h Hh) as [H1 H2]. destruct (file_lines_clean files Hf) as [H3 H4].
  unfold parse_porcelain, render_status. rewrite lines_unlines.
  2: { constructor; [|done]. rewrite !not_elem_of_app. repeat split; try done; not_in. }
  rewrite starts_with_app, (drop_app_length' (lit "## ")) by done.
  by rewrite parse_header_render, H4.
Qed.

Lemma parse_porcelain_roundtrip_witness :
  parse_porcelain (lit "## release-1.2...origin/main [ahead 2, behind 30]" ++ [x0a]
                   ++ lit " M src/foo.rs" ++ [x0a]) =
  MkGitInfo "release-1.2" 1 2 30 (Some "origin/main") None.
Proof.
  apply (parse_porcelain_roundtrip
    (Tracks (lit "release-1.2") (lit "origin/main") (Diverged 2 30)) [lit " M src/foo.rs"]);
    vm_compute; reflexivity.
Defined.
