(* ===== verification/BlockParser.v ===== *)
(** * BlockParser: command blocks from OSC 133 markers (pyred/src/parser.rs)

    [BlockMachine] is the [vte::Perform] implementation; the vte parser itself is
    a third-party crate and a parameter ([VteParser]): whatever calls it makes,
    in whatever order, are the [VteAction]s of a chunk. [Uuid::new_v4] is the
    supply [fresh], a counter [minted] says how many have been drawn. *)
From Stdlib Require Import Strings.Byte.
From S2P Require Import Prelude Proto Text.

Module BlockParser.

Definition OUTPUT_FLUSH_BYTES : nat := 4096.

Record BlockMachine := MkBlockMachine {
  bm_session : SessionId;
  bm_current_block : option BlockId;
  bm_cmd_buf : Bytes;
  bm_capturing_cmd : bool;
  bm_out_buf : Bytes;
  bm_pending : list BlockEvent }.

Definition new_machine (session : SessionId) : BlockMachine :=
  MkBlockMachine session None [] false [] [].

Definition flush_output (m : BlockMachine) : BlockMachine :=
  match bm_current_block m with
  | Some block =>
      if decide (bm_out_buf m = []) then m
      else MkBlockMachine (bm_session m) (bm_current_block m) (bm_cmd_buf m)
             (bm_capturing_cmd m) [] (bm_pending m ++ [OutputChunk block (bm_out_buf m)])
  | None => m
  end.

Definition push_byte (m : BlockMachine) (b : Byte.byte) : BlockMachine :=
  match bm_current_block m with
  | Some _ =>
      let m' := MkBlockMachine (bm_session m) (bm_current_block m) (bm_cmd_buf m)
                  (bm_capturing_cmd m) (bm_out_buf m ++ [b]) (bm_pending m) in
      if (OUTPUT_FLUSH_BYTES <=? length (bm_out_buf m')) || bool_decide (b = x0a)
      then flush_output m' else m'
  | None =>
      if bm_capturing_cmd m && negb (bool_decide (b = x00))
      then MkBlockMachine (bm_session m) None (bm_cmd_buf m ++ [b])
             (bm_capturing_cmd m) (bm_out_buf m) (bm_pending m)
      else m
  end.

(** The calls a [vte::Parser] makes on its [Perform]. Those [BlockMachine] does
    not override have empty bodies. *)
Inductive VteAction :=
  | Print (c : Z)
  | Execute (b : Byte.byte)
  | OscDispatch (params : list Bytes).

Definition print (m : BlockMachine) (c : Z) : BlockMachine :=
  fold_left push_byte (encode_char c) m.
Definition execute (m : BlockMachine) (b : Byte.byte) : BlockMachine := push_byte m b.

(** [String::from_utf8_lossy(&cmd_buf).trim_end()] *)
Definition command_text (cmd_buf : Bytes) : string :=
  of_chars (trim_end (from_utf8_lossy cmd_buf)).

(** The exit code of an [133;D] marker. *)
Definition exit_code_of (params : list Bytes) : option Z :=
  p ← params !! 2; cs ← from_utf8 p; parse_i32 (encode (trim cs)).

Definition add_event (m : BlockMachine) (current : option BlockId) (cmd_buf : Bytes)
    (capturing : bool) (ev : BlockEvent) : BlockMachine :=
  MkBlockMachine (bm_session m) current cmd_buf capturing (bm_out_buf m) (bm_pending m ++ [ev]).

(** The kinds of marker, by the first byte of the second parameter. *)
Definition osc_133 (params : list Bytes) : option Bytes :=
  match params with
  | p0 :: _ => if decide (p0 = [x31; x33; x33]) then Some (default [] (params !! 1)) else None
  | [] => None
  end.

(** [osc_dispatch]; [block] is the identifier drawn on an output-start marker. *)
Definition osc_dispatch (block : BlockId) (m : BlockMachine) (params : list Bytes) : BlockMachine :=
  match osc_133 params with
  | None => m
  | Some sub =>
      if starts_with [x41] sub then
        let m := flush_output m in
        add_event m None [] true (PromptStart (bm_session m))
      else if starts_with [x42] sub then m
      else if starts_with [x43] sub then
        add_event m (Some block) [] false
          (CommandStart (bm_session m) block (command_text (bm_cmd_buf m)) None)
      else if starts_with [x44] sub then
        let m := flush_output m in
        match bm_current_block m with
        | Some blk => add_event m None (bm_cmd_buf m) (bm_capturing_cmd m)
                        (BlockEnd blk (exit_code_of params))
        | None => m
        end
      else m
  end.

(** Whether a call draws an identifier. *)
Definition draws (a : VteAction) : bool :=
  match a with
  | OscDispatch params =>
      match osc_133 params with
      | Some sub => starts_with [x43] sub
      | None => false
      end
  | _ => false
  end.

Section Feed.
Context (fresh : nat → BlockId).

Definition perform (st : nat * BlockMachine) (a : VteAction) : nat * BlockMachine :=
  (if draws a then S st.1 else st.1,
   match a with
   | Print c => print st.2 c
   | Execute b => execute st.2 b
   | OscDispatch params => osc_dispatch (fresh st.1) st.2 params
   end).

(** The part of [feed] after the parser ran: flush, then hand over the events. *)
Definition feed_actions (st : nat * BlockMachine) (acts : list VteAction) :
    nat * BlockMachine * list BlockEvent :=
  let st := fold_left perform acts st in
  let m := flush_output st.2 in
  (st.1, MkBlockMachine (bm_session m) (bm_current_block m) (bm_cmd_buf m)
           (bm_capturing_cmd m) (bm_out_buf m) [], bm_pending m).

Fixpoint feed_all (st : nat * BlockMachine) (batches : list (list VteAction)) :
    nat * BlockMachine * list BlockEvent :=
  match batches with
  | [] => (st, [])
  | acts :: rest =>
      let '(st, evs) := feed_actions st acts in
      let '(st, evs') := feed_all st rest in
      (st, evs ++ evs')
  end.
End Feed.

(** A vte parser: a state and what a chunk of bytes makes it call. *)
Class VteParser (P : Type) := {
  vte_new : P;
  vte_advance : P → Bytes → P * list VteAction }.

Record BlockParser (P : Type) := MkBlockParser {
  bp_parser : P;
  bp_minted : nat;
  bp_machine : BlockMachine }.
Arguments MkBlockParser {P}.
Arguments bp_parser {P}. Arguments bp_minted {P}. Arguments bp_machine {P}.

Definition new `{VteParser P} (session : SessionId) : BlockParser P :=
  MkBlockParser vte_new 0 (new_machine session).

Definition feed `{VteParser P} (fresh : nat → BlockId) (bp : BlockParser P) (bytes : Bytes) :
    BlockParser P * list BlockEvent :=
  let '(parser, acts) := vte_advance (bp_parser bp) bytes in
  let '(st, evs) := feed_actions fresh (bp_minted bp, bp_machine bp) acts in
  (MkBlockParser parser st.1 st.2, evs).

(** ** Specification: the protocol of the event stream *)

(** Which block is open after an event, [None] when the event is not allowed. *)
Definition proto_step (cur : option BlockId) (ev : BlockEvent) : option (option BlockId) :=
  match ev with
  | PromptStart _ => Some None
  | CommandStart _ b _ _ => Some (Some b)
  | OutputChunk b data =>
      if decide (cur = Some b) then
        if (1 <=? length data) && (length data <=? OUTPUT_FLUSH_BYTES) then Some cur else None
      else None
  | BlockEnd b _ => if decide (cur = Some b) then Some None else None
  end.

Fixpoint proto_run (cur : option BlockId) (evs : list BlockEvent) : option (option BlockId) :=
  match evs with
  | [] => Some cur
  | ev :: evs' => cur' ← proto_step cur ev; proto_run cur' evs'
  end.

(** The bytes a call prints. *)
Definition action_bytes (a : VteAction) : Bytes :=
  match a with Print c => encode_char c | Execute b => [b] | OscDispatch _ => [] end.
Definition chunk_data (ev : BlockEvent) : Bytes :=
  match ev with OutputChunk _ data => data | _ => [] end.

(** Whether a block is open after a call, and the bytes printed while one is. *)
Definition open_after (open : bool) (a : VteAction) : bool :=
  match a with
  | OscDispatch params =>
      match osc_133 params with
      | Some sub =>
          if starts_with [x41] sub then false
          else if starts_with [x42] sub then open
          else if starts_with [x43] sub then true
          else if starts_with [x44] sub then false else open
      | None => open
      end
  | _ => open
  end.
Fixpoint block_output (open : bool) (acts : list VteAction) : Bytes :=
  match acts with
  | [] => []
  | a :: acts' => (if open then action_bytes a else []) ++ block_output (open_after open a) acts'
  end.

(** ** Lemmas *)
Lemma proto_run_app cur evs1 evs2 :
  proto_run cur (evs1 ++ evs2) = (proto_run cur evs1 ≫= λ c, proto_run c evs2).
Proof.
  revert cur. induction evs1 as [|ev evs1 IH]; intros cur; simpl; [done|].
  destruct (proto_step cur ev); simpl; auto.
Qed.

Definition is_open (m : BlockMachine) : bool := bool_decide (is_Some (bm_current_block m)).
(** Everything the machine has taken as block output. *)
Definition written (m : BlockMachine) : Bytes := flat_map chunk_data (bm_pending m) ++ bm_out_buf m.

Definition machine_ok (cur : option BlockId) (m : BlockMachine) : Prop :=
  proto_run cur (bm_pending m) = Some (bm_current_block m) ∧
  length (bm_out_buf m) < OUTPUT_FLUSH_BYTES ∧
  (bm_current_block m = None → bm_out_buf m = []).

(** Between the push and the flush the buffer may be full. *)
Lemma flush_run cur m :
  proto_run cur (bm_pending m) = Some (bm_current_block m) →
  length (bm_out_buf m) ≤ OUTPUT_FLUSH_BYTES →
  proto_run cur (bm_pending (flush_output m)) = Some (bm_current_block m).
Proof.
  intros Hrun Hlen. unfold flush_output. destruct (bm_current_block m) as [b|] eqn:Ec; [|done].
  case_decide; [done|]. cbn [bm_pending]. rewrite proto_run_app, Hrun. cbn [mbind option_bind].
  cbn [proto_run proto_step]. rewrite decide_True by done.
  assert (1 ≤ length (bm_out_buf m)) by (destruct (bm_out_buf m); simpl; [done|lia]).
  by rewrite (proj2 (Nat.leb_le _ _)), (proj2 (Nat.leb_le _ _)) by lia.
Qed.

Lemma flush_current m : bm_current_block (flush_output m) = bm_current_block m.
Proof. unfold flush_output. by cases. Qed.

Lemma flush_session m : bm_session (flush_output m) = bm_session m.
Proof. unfold flush_output. by cases. Qed.

Lemma flush_empties m :
  (bm_current_block m = None → bm_out_buf m = []) → bm_out_buf (flush_output m) = [].
Proof. unfold flush_output. intros H. cases; auto. Qed.

Lemma flush_written m : written (flush_output m) = written m.
Proof.
  unfold flush_output, written. destruct (bm_current_block m); [|done]. case_decide; [done|].
  cbn [bm_pending bm_out_buf]. rewrite flat_map_app. cbn [flat_map chunk_data].
  by rewrite !app_nil_r.
Qed.

Lemma flush_ok cur m : machine_ok cur m → machine_ok cur (flush_output m).
Proof.
  intros (H1 & H2 & H3). split; [|split].
  - rewrite flush_current. apply flush_run; [done|lia].
  - rewrite flush_empties by done. unfold OUTPUT_FLUSH_BYTES. simpl. lia.
  - intros _. by apply flush_empties.
Qed.

Lemma push_byte_current m b : bm_current_block (push_byte m b) = bm_current_block m.
Proof.
  unfold push_byte. destruct (bm_current_block m) eqn:E.
  - destruct (_ || _); rewrite ?flush_current; by cbn.
  - by destruct (_ && _).
Qed.

Lemma push_byte_ok cur m b : machine_ok cur m → machine_ok cur (push_byte m b).
Proof.
  intros (H1 & H2 & H3). unfold push_byte. destruct (bm_current_block m) as [blk|] eqn:Ec.
  - set (m' := MkBlockMachine _ _ _ _ (bm_out_buf m ++ [b]) _).
    assert (length (bm_out_buf m') = S (length (bm_out_buf m))) as Hl
      by (unfold m'; cbn [bm_out_buf]; rewrite length_app; simpl; lia).
    destruct (Nat.leb_spec OUTPUT_FLUSH_BYTES (length (bm_out_buf m'))) as [Hle|Hlt]; simpl orb.
    2: destruct (bool_decide (b = x0a)).
    3: { split; [done|]. split; [lia|done]. }
    all: split; [rewrite flush_current; apply (flush_run cur m'); [done|lia]|].
    all: rewrite flush_empties by done; split; [unfold OUTPUT_FLUSH_BYTES; simpl; lia|done].
  - destruct (_ && _); [|by split; rewrite ?Ec]. split; [done|]. by cbn.
Qed.

Lemma push_byte_written m b :
  written (push_byte m b) = written m ++ (if is_open m then [b] else []).
Proof.
  unfold push_byte, is_open. destruct (bm_current_block m) as [b0|].
  - change (bool_decide (is_Some (Some b0))) with true. destruct (_ || _); rewrite ?flush_written;
      unfold written; cbn [bm_pending bm_out_buf]; by rewrite app_assoc.
  - rewrite app_nil_r. by destruct (_ && _).
Qed.

Lemma push_bytes_spec cur bs m :
  machine_ok cur m →
  machine_ok cur (fold_left push_byte bs m) ∧
  bm_current_block (fold_left push_byte bs m) = bm_current_block m ∧
  written (fold_left push_byte bs m) = written m ++ (if is_open m then bs else []).
Proof.
  revert m. induction bs as [|b bs IH]; intros m Hm; simpl.
  - destruct (is_open m); by rewrite app_nil_r.
  - destruct (IH (push_byte m b)) as (H1 & H2 & H3); [by apply push_byte_ok|].
    rewrite H2, H3, push_byte_current, push_byte_written. split; [done|]. split; [done|].
    assert (is_open (push_byte m b) = is_open m) as -> by (unfold is_open; by rewrite push_byte_current).
    destruct (is_open m); by rewrite <- app_assoc.
Qed.

Lemma add_event_ok cur m c cmd cap ev :
  proto_run cur (bm_pending m) = Some (bm_current_block m) →
  proto_step (bm_current_block m) ev = Some c →
  length (bm_out_buf m) < OUTPUT_FLUSH_BYTES → (c = None → bm_out_buf m = []) →
  machine_ok cur (add_event m c cmd cap ev).
Proof.
  intros H1 H2 H3 H4. split; [|by cbn]. cbn [add_event bm_pending bm_current_block].
  rewrite proto_run_app, H1. cbn [mbind option_bind proto_run]. by rewrite H2.
Qed.

Lemma add_event_written m c cmd cap ev :
  chunk_data ev = [] → written (add_event m c cmd cap ev) = written m.
Proof.
  intros H. unfold written, add_event. cbn [bm_pending bm_out_buf].
  rewrite flat_map_app. cbn [flat_map]. by rewrite H, !app_nil_r.
Qed.

(** One marker keeps the invariant, writes nothing and opens or closes the block
    as the specification says. *)
Lemma osc_dispatch_spec cur blk m params :
  machine_ok cur m →
  machine_ok cur (osc_dispatch blk m params) ∧
  written (osc_dispatch blk m params) = written m ∧
  is_open (osc_dispatch blk m params) = open_after (is_open m) (OscDispatch params).
Proof.
  intros Hm. pose proof (flush_ok cur m Hm) as Hf. destruct Hm as (H1 & H2 & H3).
  pose proof (flush_empties m H3) as He. pose proof Hf as (F1 & F2 & F3).
  unfold osc_dispatch, open_after. destruct (osc_133 params) as [sub|]; [|done].
  destruct (starts_with [x41] sub).
  { split; [by apply add_event_ok|]. by rewrite add_event_written, flush_written. }
  destruct (starts_with [x42] sub); [done|].
  destruct (starts_with [x43] sub).
  { split; [by apply add_event_ok|]. by rewrite add_event_written. }
  destruct (starts_with [x44] sub); [|done].
  destruct (bm_current_block (flush_output m)) as [b|] eqn:Ec.
  - split; [|by rewrite add_event_written, flush_written].
    apply add_event_ok; [by rewrite F1, Ec|by rewrite Ec; simpl; rewrite decide_True|done|done].
  - split; [done|]. rewrite flush_written. split; [done|]. unfold is_open. by rewrite Ec.
Qed.

Lemma perform_spec fresh cur n m a :
  machine_ok cur m →
  machine_ok cur (perform fresh (n, m) a).2 ∧
  is_open (perform fresh (n, m) a).2 = open_after (is_open m) a ∧
  written (perform fresh (n, m) a).2 = written m ++ (if is_open m then action_bytes a else []).
Proof.
  intros Hm. destruct a as [c|b|params]; cbn [perform snd fst].
  - destruct (push_bytes_spec cur (encode_char c) m Hm) as (H1 & H2 & H3).
    split; [done|]. split; [|done]. unfold is_open, print. by rewrite H2.
  - destruct (push_bytes_spec cur [b] m Hm) as (H1 & H2 & H3).
    split; [done|]. split; [|done]. unfold is_open, execute. simpl in H2. by rewrite H2.
  - destruct (osc_dispatch_spec cur (fresh n) m params Hm) as (H1 & H2 & H3).
    split; [done|]. split; [done|]. rewrite H2. cbn [action_bytes]. destruct (is_open m); by rewrite app_nil_r.
Qed.

Lemma performs_spec fresh cur acts st :
  machine_ok cur st.2 →
  machine_ok cur (fold_left (perform fresh) acts st).2 ∧
  is_open (fold_left (perform fresh) acts st).2 = fold_left open_after acts (is_open st.2) ∧
  written (fold_left (perform fresh) acts st).2 = written st.2 ++ block_output (is_open st.2) acts.
Proof.
  revert st. induction acts as [|a acts IH]; intros [n m] Hm; cbn [fold_left block_output snd].
  - by rewrite app_nil_r.
  - destruct (perform_spec fresh cur n m a Hm) as (H1 & H2 & H3).
    destruct (IH _ H1) as (G1 & G2 & G3). rewrite G2, G3, H2, H3.
    split; [done|]. by rewrite <- app_assoc.
Qed.

Lemma block_output_app open acts1 acts2 :
  block_output open (acts1 ++ acts2)
  = block_output open acts1 ++ block_output (fold_left open_after acts1 open) acts2.
Proof.
  revert open. induction acts1 as [|a acts1 IH]; intros open; simpl; [done|].
  by rewrite IH, app_assoc.
Qed.

(** Between two calls of [feed] nothing is buffered. *)
Definition rest_ok (m : BlockMachine) : Prop := bm_out_buf m = [] ∧ bm_pending m = [].

Lemma feed_actions_spec fresh st acts :
  rest_ok st.2 →
  let r := feed_actions fresh st acts in
  rest_ok r.1.2 ∧
  proto_run (bm_current_block st.2) r.2 = Some (bm_current_block r.1.2) ∧
  is_open r.1.2 = fold_left open_after acts (is_open st.2) ∧
  flat_map chunk_data r.2 = block_output (is_open st.2) acts.
Proof.
  intros [Ho Hp]. assert (machine_ok (bm_current_block st.2) st.2) as Hm.
  { split; [by rewrite Hp|]. rewrite Ho. split; [unfold OUTPUT_FLUSH_BYTES; simpl; lia|done]. }
  destruct (performs_spec fresh _ acts st Hm) as (H1 & H2 & H3).
  unfold feed_actions. set (st' := fold_left (perform fresh) acts st) in *. cbn [fst snd].
  pose proof (flush_ok _ _ H1) as (G1 & G2 & G3). pose proof (flush_written st'.2) as Hw.
  destruct H1 as (_ & _ & H1). pose proof (flush_empties _ H1) as He.
  unfold rest_ok. cbn [bm_out_buf bm_pending bm_current_block]. repeat split; [done..| |].
  - unfold is_open in *. cbn [bm_current_block]. by rewrite flush_current.
  - rewrite <- Hw in H3. unfold written in H3. rewrite He, Ho, Hp in H3. by rewrite app_nil_r in H3.
Qed.

Lemma feed_all_spec fresh batches st :
  rest_ok st.2 →
  let r := feed_all fresh st batches in
  rest_ok r.1.2 ∧
  proto_run (bm_current_block st.2) r.2 = Some (bm_current_block r.1.2) ∧
  flat_map chunk_data r.2 = block_output (is_open st.2) (concat batches).
Proof.
  revert st. induction batches as [|acts rest IH]; intros st Hr; [by cbn|].
  destruct (feed_actions_spec fresh st acts Hr) as (H1 & H2 & H3 & H4).
  cbn [feed_all concat]. destruct (feed_actions fresh st acts) as [st1 evs1]. cbn [fst snd] in *.
  destruct (IH st1 H1) as (G1 & G2 & G3).
  destruct (feed_all fresh st1 rest) as [st2 evs2]. cbn [fst snd] in *.
  split; [done|]. split.
  - rewrite proto_run_app, H2. done.
  - by rewrite flat_map_app, H4, G3, block_output_app, H3.
Qed.

(** ** Specification: the marker events, without the output chunks *)
Definition is_marker (ev : BlockEvent) : Prop :=
  match ev with OutputChunk _ _ => False | _ => True end.
#[export] Instance is_marker_dec ev : Decision (is_marker ev).
Proof. destruct ev; solve_decision. Defined.
Definition markers (evs : list BlockEvent) : list BlockEvent := filter is_marker evs.

(** What is left of the machine when the output is forgotten. *)
Record Core := MkCore {
  co_minted : nat;
  co_block : option BlockId;
  co_cmd : Bytes;
  co_capturing : bool }.

Definition not_nul (b : Byte.byte) : Prop := b ≠ x00.
Definition core_print (c : Core) (bs : Bytes) : Core :=
  match co_block c with
  | Some _ => c
  | None => if co_capturing c
            then MkCore (co_minted c) None (co_cmd c ++ filter not_nul bs) true else c
  end.

Definition core_step (fresh : nat → BlockId) (session : SessionId) (c : Core) (a : VteAction) :
    Core * list BlockEvent :=
  match a with
  | OscDispatch params =>
      match osc_133 params with
      | None => (c, [])
      | Some sub =>
          if starts_with [x41] sub
          then (MkCore (co_minted c) None [] true, [PromptStart session])
          else if starts_with [x42] sub then (c, [])
          else if starts_with [x43] sub then
            let b := fresh (co_minted c) in
            (MkCore (S (co_minted c)) (Some b) [] false,
             [CommandStart session b (command_text (co_cmd c)) None])
          else if starts_with [x44] sub then
            match co_block c with
            | Some b => (MkCore (co_minted c) None (co_cmd c) (co_capturing c),
                         [BlockEnd b (exit_code_of params)])
            | None => (c, [])
            end
          else (c, [])
      end
  | _ => (core_print c (action_bytes a), [])
  end.

Fixpoint core_run (fresh : nat → BlockId) (session : SessionId) (c : Core)
    (acts : list VteAction) : Core * list BlockEvent :=
  match acts with
  | [] => (c, [])
  | a :: acts' =>
      let '(c, evs) := core_step fresh session c a in
      let '(c, evs') := core_run fresh session c acts' in
      (c, evs ++ evs')
  end.

Definition core_of (st : nat * BlockMachine) : Core :=
  MkCore st.1 (bm_current_block st.2) (bm_cmd_buf st.2) (bm_capturing_cmd st.2).

Lemma core_run_app fresh s c acts1 acts2 :
  core_run fresh s c (acts1 ++ acts2) =
  (let '(c, evs) := core_run fresh s c acts1 in
   let '(c, evs') := core_run fresh s c acts2 in (c, evs ++ evs')).
Proof.
  revert c. induction acts1 as [|a acts1 IH]; intros c; simpl.
  - by destruct (core_run fresh s c acts2).
  - destruct (core_step fresh s c a) as [c1 e1]. rewrite IH.
    destruct (core_run fresh s c1 acts1) as [c2 e2]. destruct (core_run fresh s c2 acts2).
    by rewrite app_assoc.
Qed.

Lemma flush_core n m :
  core_of (n, flush_output m) = core_of (n, m) ∧
  markers (bm_pending (flush_output m)) = markers (bm_pending m).
Proof.
  unfold flush_output. destruct (bm_current_block m) eqn:E; [|done]. case_decide; [done|].
  unfold core_of, markers. cbn [fst snd bm_current_block bm_cmd_buf bm_capturing_cmd bm_pending].
  by rewrite E, filter_app, app_nil_r.
Qed.

Lemma push_byte_core n m b :
  core_of (n, push_byte m b) = core_print (core_of (n, m)) [b] ∧
  bm_session (push_byte m b) = bm_session m ∧
  markers (bm_pending (push_byte m b)) = markers (bm_pending m).
Proof.
  unfold push_byte, core_print, core_of. cbn [fst snd co_block co_cmd co_capturing co_minted].
  destruct (bm_current_block m) as [blk|] eqn:E.
  - destruct (_ || _); [|by cbn].
    match goal with |- context [flush_output ?m'] => destruct (flush_core n m') as [H1 H2] end.
    rewrite flush_session. split; [exact H1|]. split; [done|exact H2].
  - destruct (bm_capturing_cmd m) eqn:Ec; cbn [andb]; [|by rewrite E, Ec].
    case_bool_decide; cbn [negb].
    + rewrite filter_cons_False by (intros Hn; by apply Hn). by rewrite app_nil_r, E, Ec.
    + rewrite filter_cons_True by done. done.
Qed.

Lemma core_print_app c bs1 bs2 :
  core_print (core_print c bs1) bs2 = core_print c (bs1 ++ bs2).
Proof.
  unfold core_print. destruct (co_block c) eqn:E; [by rewrite E|].
  destruct (co_capturing c) eqn:Ec; cbn; [|by rewrite E, Ec].
  by rewrite filter_app, app_assoc.
Qed.

Lemma push_bytes_core n bs m :
  core_of (n, fold_left push_byte bs m) = core_print (core_of (n, m)) bs ∧
  bm_session (fold_left push_byte bs m) = bm_session m ∧
  markers (bm_pending (fold_left push_byte bs m)) = markers (bm_pending m).
Proof.
  revert m. induction bs as [|b bs IH]; intros m; cbn [fold_left].
  - split; [|done]. unfold core_print, core_of. cbn [co_block co_capturing co_cmd co_minted].
    cases; try done. by rewrite filter_nil, app_nil_r.
  - destruct (IH (push_byte m b)) as (-> & -> & ->). destruct (push_byte_core n m b) as (-> & -> & ->).
    by rewrite core_print_app.
Qed.

Lemma perform_core fresh n m a :
  core_of (perform fresh (n, m) a) = (core_step fresh (bm_session m) (core_of (n, m)) a).1 ∧
  bm_session (perform fresh (n, m) a).2 = bm_session m ∧
  markers (bm_pending (perform fresh (n, m) a).2)
  = markers (bm_pending m) ++ (core_step fresh (bm_session m) (core_of (n, m)) a).2.
Proof.
  destruct a as [c|b|params]; unfold perform; cbn [core_step fst snd draws].
  - rewrite app_nil_r. apply push_bytes_core.
  - rewrite app_nil_r. apply (push_bytes_core n [b]).
  - unfold osc_dispatch. destruct (osc_133 params) as [sub|]; [|by rewrite app_nil_r].
    destruct (flush_core n m) as [F1 F2]. pose proof (flush_session m) as F3.
    destruct (starts_with [x41] sub) eqn:EA.
    { assert (starts_with [x43] sub = false) as -> by (destruct sub as [|[] ?]; done).
      cbn [add_event bm_pending bm_session]. unfold markers. rewrite filter_app, F3. by fold (markers (bm_pending (flush_output m))); rewrite F2. }
    destruct (starts_with [x42] sub) eqn:EB.
    { assert (starts_with [x43] sub = false) as -> by (destruct sub as [|[] ?]; done). by rewrite app_nil_r. }
    destruct (starts_with [x43] sub) eqn:EC.
    { cbn [add_event bm_pending bm_session]. unfold markers. by rewrite filter_app. }
    destruct (starts_with [x44] sub) eqn:ED; [|by rewrite app_nil_r].
    cbn [core_of co_block fst snd]. rewrite flush_current.
    destruct (bm_current_block m) as [b|] eqn:Eb.
    + cbn [add_event bm_pending bm_session bm_cmd_buf bm_capturing_cmd]. injection F1 as _ F4 F5.
      unfold markers. rewrite filter_app, F3. fold (markers (bm_pending (flush_output m))). rewrite F2.
      unfold core_of. cbn. by rewrite F4, F5.
    + by rewrite F1, F2, F3, app_nil_r.
Qed.

Lemma performs_core fresh acts st :
  core_of (fold_left (perform fresh) acts st)
  = (core_run fresh (bm_session st.2) (core_of st) acts).1 ∧
  bm_session (fold_left (perform fresh) acts st).2 = bm_session st.2 ∧
  markers (bm_pending (fold_left (perform fresh) acts st).2)
  = markers (bm_pending st.2) ++ (core_run fresh (bm_session st.2) (core_of st) acts).2.
Proof.
  revert st. induction acts as [|a acts IH]; intros [n m]; cbn [fold_left core_run snd fst].
  - by rewrite app_nil_r.
  - destruct (perform_core fresh n m a) as (H1 & H2 & H3).
    destruct (IH (perform fresh (n, m) a)) as (-> & -> & ->). rewrite H1, H2, H3.
    destruct (core_step fresh (bm_session m) (core_of (n, m)) a) as [c1 e1]. cbn [fst snd].
    destruct (core_run fresh (bm_session m) c1 acts) as [c2 e2]. cbn [fst snd].
    by rewrite app_assoc.
Qed.

Lemma feed_all_core fresh batches st :
  rest_ok st.2 →
  markers (feed_all fresh st batches).2
  = (core_run fresh (bm_session st.2) (core_of st) (concat batches)).2.
Proof.
  revert st. induction batches as [|acts rest IH]; intros st Hr; [done|].
  destruct (feed_actions_spec fresh st acts Hr) as (Hr' & _).
  cbn [feed_all concat]. rewrite core_run_app.
  destruct (performs_core fresh acts st) as (H1 & H2 & H3). destruct Hr as [_ Hp].
  destruct (feed_actions fresh st acts) as [st1 evs1] eqn:E. unfold feed_actions in E.
  set (st' := fold_left (perform fresh) acts st) in *. injection E as E1 E2.
  destruct (flush_core st'.1 st'.2) as [F1 F2].
  assert (core_of st1 = core_of st') as Hc.
  { rewrite <- E1. exact F1. }
  assert (bm_session st1.2 = bm_session st.2) as Hs.
  { rewrite <- E1. cbn. by rewrite flush_session. }
  pose proof (IH st1 Hr') as IHst. rewrite Hc, Hs, H1 in IHst.
  destruct (core_run fresh (bm_session st.2) (core_of st) acts) as [c1 e1]. cbn [fst snd] in *.
  destruct (feed_all fresh st1 rest) as [st2 evs2]. cbn [fst snd] in *.
  destruct (core_run fresh (bm_session st.2) c1 (concat rest)) as [c2 e2]. cbn [fst snd] in *.
  unfold markers in *. rewrite filter_app, IHst. f_equal.
  rewrite <- E2. unfold markers in F2, H3. by rewrite F2, H3, Hp, filter_nil.
Qed.

(** ** The parser over byte chunks *)
Section Chunks.
Context `{VteParser P} (fresh : nat → BlockId).

Fixpoint feed_chunks (bp : BlockParser P) (chunks : list Bytes) : BlockParser P * list BlockEvent :=
  match chunks with
  | [] => (bp, [])
  | c :: rest =>
      let '(bp, evs) := feed fresh bp c in
      let '(bp, evs') := feed_chunks bp rest in
      (bp, evs ++ evs')
  end.

(** The calls the vte parser makes, chunk by chunk. *)
Fixpoint vte_actions (p : P) (chunks : list Bytes) : list (list VteAction) :=
  match chunks with
  | [] => []
  | c :: rest => let '(p, acts) := vte_advance p c in acts :: vte_actions p rest
  end.

Lemma feed_chunks_all bp chunks :
  let r := feed_all fresh (bp_minted bp, bp_machine bp) (vte_actions (bp_parser bp) chunks) in
  (feed_chunks bp chunks).2 = r.2 ∧ bp_machine (feed_chunks bp chunks).1 = r.1.2.
Proof.
  revert bp. induction chunks as [|c rest IH]; intros bp; [done|].
  cbn [feed_chunks vte_actions]. unfold feed.
  destruct (vte_advance (bp_parser bp) c) as [p' acts]. cbn [feed_all].
  destruct (feed_actions fresh _ acts) as [[n1 m1] evs]. specialize (IH (MkBlockParser p' n1 m1)).
  cbn [fst snd bp_minted bp_machine bp_parser] in *.
  destruct (feed_chunks _ rest) as [bp2 evs2]. destruct (feed_all fresh (n1, m1) _) as [st2 evs3].
  cbn [fst snd] in *. destruct IH as [-> ->]. done.
Qed.
End Chunks.

Lemma new_machine_rest s : rest_ok (new_machine s).
Proof. done. Qed.

(** The exit code a shell prints in its block-end marker is read back. *)
Lemma exit_code_of_shown n :
  (-2147483648 ≤ n ≤ 2147483647)%Z →
  exit_code_of [[x31; x33; x33]; [x44]; show_int n] = Some n.
Proof. apply parse_shown_int. Qed.

(** ** The life of one command *)
Definition osc (k : Byte.byte) (extra : list Bytes) : VteAction :=
  OscDispatch ([x31; x33; x33] :: [k] :: extra).
Definition is_text (a : VteAction) : bool :=
  match a with OscDispatch _ => false | _ => true end.

Lemma core_step_A fresh s c extra :
  core_step fresh s c (osc x41 extra) = (MkCore (co_minted c) None [] true, [PromptStart s]).
Proof. done. Qed.
Lemma core_step_C fresh s c extra :
  core_step fresh s c (osc x43 extra)
  = (MkCore (S (co_minted c)) (Some (fresh (co_minted c))) [] false,
     [CommandStart s (fresh (co_minted c)) (command_text (co_cmd c)) None]).
Proof. done. Qed.
Lemma core_step_D fresh s c b extra :
  co_block c = Some b →
  core_step fresh s c (osc x44 extra)
  = (MkCore (co_minted c) None (co_cmd c) (co_capturing c),
     [BlockEnd b (exit_code_of ([x31; x33; x33] :: [x44] :: extra))]).
Proof. intros H. unfold core_step, osc. cbn [osc_133]. rewrite decide_True by done. by rewrite H. Qed.

Lemma core_run_text fresh s c acts :
  forallb is_text acts = true →
  core_run fresh s c acts = (core_print c (flat_map action_bytes acts), []).
Proof.
  revert c. induction acts as [|a acts IH]; intros c H; cbn [forallb] in H.
  - cbn [core_run flat_map]. f_equal. unfold core_print. destruct c; cbn. cases; try done.
    by rewrite app_nil_r.
  - apply andb_true_iff in H as [Ha H]. cbn [core_run flat_map].
    assert (core_step fresh s c a = (core_print c (action_bytes a), [])) as -> by (by destruct a).
    rewrite IH by done. by rewrite core_print_app.
Qed.

Lemma proto_closed evs c m ms :
  proto_run None evs = Some c → markers evs = m :: ms →
  ∃ evs', evs = m :: evs' ∧ markers evs' = ms ∧ (proto_step None m ≫= λ c, proto_run c evs') = Some c.
Proof.
  destruct evs as [|ev evs]; [done|]. intros Hr Hm. exists evs.
  destruct ev as [| |b d|]; cbn [proto_run] in Hr.
  3: { by cbn [proto_step] in Hr; rewrite decide_False in Hr. }
  all: unfold markers in Hm; rewrite filter_cons_True in Hm by done; by injection Hm as <- Hm.
Qed.

Lemma proto_closed_end evs c : proto_run None evs = Some c → markers evs = [] → evs = [].
Proof.
  destruct evs as [|ev evs]; [done|]. intros Hr Hm.
  destruct ev as [| |b d|]; cbn [proto_run] in Hr.
  3: { by cbn [proto_step] in Hr; rewrite decide_False in Hr. }
  all: unfold markers in Hm; by rewrite filter_cons_True in Hm.
Qed.

Definition chunk_ok (d : Bytes) : Prop := 1 ≤ length d ≤ OUTPUT_FLUSH_BYTES.

Lemma proto_open b evs c m ms :
  proto_run (Some b) evs = Some c → markers evs = m :: ms →
  ∃ data evs', evs = (OutputChunk b <$> data) ++ m :: evs' ∧ Forall chunk_ok data ∧
    markers evs' = ms ∧ (proto_step (Some b) m ≫= λ c, proto_run c evs') = Some c.
Proof.
  revert c. induction evs as [|ev evs IH]; intros c Hr Hm; [done|].
  destruct (decide (is_marker ev)) as [Hk|Hk].
  - unfold markers in Hm. rewrite filter_cons_True in Hm by done. injection Hm as <- Hm.
    exists [], evs. repeat split; [constructor|done..].
  - destruct ev as [| |b' d|]; try by (exfalso; apply Hk). unfold markers in Hm.
    rewrite filter_cons_False in Hm by done. cbn [proto_run proto_step] in Hr.
    case_decide as Hb; [|done]. injection Hb as <-.
    destruct ((1 <=? length d) && (length d <=? OUTPUT_FLUSH_BYTES)) eqn:El; [|done].
    apply andb_true_iff in El as [E1 E2]. rewrite Nat.leb_le in E1, E2.
    destruct (IH c Hr Hm) as (data & evs' & -> & H1 & H2 & H3).
    exists (d :: data), evs'. repeat split; [by constructor|done..].
Qed.

Lemma chunks_data b data : flat_map chunk_data (OutputChunk b <$> data) = concat data.
Proof. induction data as [|d data IH]; [done|]. rewrite fmap_cons. cbn [flat_map concat]. by rewrite IH. Qed.

Lemma block_output_text open acts :
  forallb is_text acts = true →
  block_output open acts = (if open then flat_map action_bytes acts else []) ∧
  fold_left open_after acts open = open.
Proof.
  revert open. induction acts as [|a acts IH]; intros open H; cbn [forallb] in H; [by destruct open|].
  apply andb_true_iff in H as [Ha H]. cbn [block_output fold_left flat_map].
  assert (open_after open a = open) as -> by (by destruct a). destruct (IH open H) as [-> ->].
  by destruct open.
Qed.

Lemma feed_chunks_markers `{VteParser P} (fresh : nat → BlockId) s chunks :
  markers (feed_chunks fresh (new s) chunks).2
  = (core_run fresh s (MkCore 0 None [] false) (concat (vte_actions vte_new chunks))).2.
Proof.
  destruct (feed_chunks_all fresh (new s) chunks) as [-> _].
  exact (feed_all_core fresh (vte_actions vte_new chunks) (0, new_machine s) (new_machine_rest s)).
Qed.

(** The events of one command. *)
Lemma lifecycle_events `{VteParser P} (fresh : nat → BlockId) s chunks cmd out code
  (Hacts : concat (vte_actions vte_new chunks)
           = osc x41 [] :: cmd ++ osc x43 [] :: out ++ [osc x44 [show_int code]])
  (Hcmd : forallb is_text cmd = true) (Hout : forallb is_text out = true)
  (Hcode : (-2147483648 ≤ code ≤ 2147483647)%Z) :
  ∃ data,
    (feed_chunks fresh (new s) chunks).2 =
      PromptStart s
      :: CommandStart s (fresh 0) (command_text (filter not_nul (flat_map action_bytes cmd))) None
      :: (OutputChunk (fresh 0) <$> data)
      ++ [BlockEnd (fresh 0) (Some code)] ∧
    concat data = flat_map action_bytes out ∧ Forall chunk_ok data.
Proof.
  destruct (feed_chunks_all fresh (new s) chunks) as [He _].
  pose proof (feed_all_core fresh (vte_actions vte_new chunks) (0, new_machine s) (new_machine_rest s)) as Hm.
  destruct (feed_all_spec fresh (vte_actions vte_new chunks) (0, new_machine s) (new_machine_rest s))
    as (_ & Hp & Hd). cbn [new bp_minted bp_machine bp_parser] in He. rewrite <- He in Hm, Hp, Hd.
  clear He. set (evs := (feed_chunks fresh (new s) chunks).2) in *. rewrite Hacts in Hm, Hd.
  assert (markers evs = [PromptStart s;
    CommandStart s (fresh 0) (command_text (filter not_nul (flat_map action_bytes cmd))) None;
    BlockEnd (fresh 0) (Some code)]) as Hmk.
  { rewrite Hm. cbn [core_run]. rewrite core_step_A, core_run_app, core_run_text by done.
    cbn [core_run]. rewrite core_step_C, core_run_app, core_run_text by done.
    cbn [core_run]. by rewrite (core_step_D _ _ _ (fresh 0)), exit_code_of_shown. }
  clear Hm. rename Hmk into Hm.
  destruct (proto_closed _ _ _ _ Hp Hm) as (evs1 & E1 & Hm1 & Hp1).
  destruct (proto_closed _ _ _ _ Hp1 Hm1) as (evs2 & E2 & Hm2 & Hp2).
  destruct (proto_open _ _ _ _ _ Hp2 Hm2) as (data & evs3 & E3 & Hdata & Hm3 & Hp3).
  cbn [proto_step] in Hp3. rewrite decide_True in Hp3 by done.
  pose proof (proto_closed_end _ _ Hp3 Hm3) as ->. exists data. rewrite E1, E2, E3.
  split; [done|]. split; [|done]. rewrite E1, E2, E3 in Hd. cbn [flat_map chunk_data app] in Hd.
  rewrite flat_map_app, chunks_data in Hd. cbn [flat_map chunk_data] in Hd. rewrite !app_nil_r in Hd.
  rewrite Hd. cbn [block_output action_bytes osc app is_open].
  rewrite block_output_app. change (open_after _ _) with false.
  destruct (block_output_text false cmd Hcmd) as [-> ->]. cbn [block_output app].
  rewrite block_output_app. change (open_after _ _) with true.
  destruct (block_output_text true out Hout) as [-> ->]. cbn. by rewrite app_nil_r.
Qed.

(** ** Properties *)

(** C26: whatever bytes the shell prints, in whatever chunks they arrive, the
    block events obey the protocol their consumers rely on: output chunks and
    block ends name the block opened by the last command start, no chunk is empty
    or longer than 4096 bytes; nothing printed while a block is open is lost,
    duplicated or reordered; and nothing stays buffered between two chunks. *)
Theorem block_events_protocol `{VteParser P} (fresh : nat → BlockId) s chunks :
  let r := feed_chunks fresh (new s) chunks in
  proto_run None r.2 = Some (bm_current_block (bp_machine r.1)) ∧
  flat_map chunk_data r.2 = block_output false (concat (vte_actions vte_new chunks)) ∧
  bm_out_buf (bp_machine r.1) = [].
Proof.
  destruct (feed_chunks_all fresh (new s) chunks) as [H1 H2].
  destruct (feed_all_spec fresh (vte_actions vte_new chunks) (0, new_machine s) (new_machine_rest s))
    as (G1 & G2 & G3). cbn zeta. rewrite H1, H2. split; [exact G2|]. split; [exact G3|apply G1].
Qed.

(** C27: the marker events (prompt, command start with its text, block end with
    its exit code) depend only on the calls the vte parser makes and not on how
    the byte stream is cut into chunks: they are those of the reference machine
    that forgets the output. *)
Theorem block_markers_refine `{VteParser P} (fresh : nat → BlockId) s chunks :
  markers (feed_chunks fresh (new s) chunks).2
  = (core_run fresh s (MkCore 0 None [] false) (concat (vte_actions vte_new chunks))).2.
Proof. apply feed_chunks_markers. Qed.

(** the life of one command. When the calls of the vte parser, over any
    chunking, are prompt start, the characters of a command line, output start,
    the characters of its output and a block end, the events are one prompt
    start, one command start with the trimmed text of the line (without NUL bytes),
    output chunks of that block whose concatenation is exactly the output, and one
    block end with the exit code of the marker. *)
Theorem command_lifecycle `{VteParser P} (fresh : nat → BlockId) s chunks cmd out code
  (Hacts : concat (vte_actions vte_new chunks)
           = osc x41 [] :: cmd ++ osc x43 [] :: out ++ [osc x44 [show_int code]])
  (Hcmd : forallb is_text cmd = true) (Hout : forallb is_text out = true)
  (Hcode : (-2147483648 ≤ code ≤ 2147483647)%Z) :
  ∃ data,
    (feed_chunks fresh (new s) chunks).2 =
      PromptStart s
      :: CommandStart s (fresh 0) (command_text (filter not_nul (flat_map action_bytes cmd))) None
      :: (OutputChunk (fresh 0) <$> data)
      ++ [BlockEnd (fresh 0) (Some code)] ∧
    concat data = flat_map action_bytes out ∧ Forall chunk_ok data.
Proof. by apply lifecycle_events. Qed.

(** A small vte: OSC strings ended by BEL, printable ASCII, control bytes. *)
Inductive MiniVte := Ground | Escape | Osc (acc : Bytes).
Definition mini_byte (st : MiniVte * list VteAction) (b : Byte.byte) : MiniVte * list VteAction :=
  match st.1 with
  | Ground =>
      if decide (b = x1b) then (Escape, st.2)
      else if (byte_to_Z b <? 32)%Z then (Ground, st.2 ++ [Execute b])
      else (Ground, st.2 ++ [Print (byte_to_Z b)])
  | Escape => if decide (b = x5d) then (Osc [], st.2) else (Ground, st.2)
  | Osc acc =>
      if decide (b = x07) then (Ground, st.2 ++ [OscDispatch (split_on x3b acc)])
      else (Osc (acc ++ [b]), st.2)
  end.
#[export] Instance mini_vte : VteParser MiniVte := {
  vte_new := Ground;
  vte_advance p bytes := fold_left mini_byte bytes (p, []) }.

Definition esc_osc (s : string) : Bytes := [x1b; x5d] ++ str_bytes s ++ [x07].

(** "ls" with two lines of output and exit code 1, cut inside the C marker. *)
Lemma command_lifecycle_witness :
  let chunks := [esc_osc "133;A" ++ str_bytes "ls " ++ [x1b; x5d; x31];
                 str_bytes "33;C" ++ [x07] ++ str_bytes "a" ++ [x0a] ++ str_bytes "b";
                 esc_osc "133;D;1"] in
  ∃ data,
    (feed_chunks (P := MiniVte) (λ n, MkBlockId (N.of_nat n)) (new (MkSessionId 9)) chunks).2 =
      PromptStart (MkSessionId 9)
      :: CommandStart (MkSessionId 9) (MkBlockId 0) "ls" None
      :: (OutputChunk (MkBlockId 0) <$> data) ++ [BlockEnd (MkBlockId 0) (Some 1%Z)] ∧
    concat data = str_bytes "a" ++ [x0a] ++ str_bytes "b" ∧ Forall chunk_ok data.
Proof.
  apply (command_lifecycle (P := MiniVte) (λ n, MkBlockId (N.of_nat n)) (MkSessionId 9)
    [esc_osc "133;A" ++ str_bytes "ls " ++ [x1b; x5d; x31];
     str_bytes "33;C" ++ [x07] ++ str_bytes "a" ++ [x0a] ++ str_bytes "b"; esc_osc "133;D;1"]
    [Print 108; Print 115; Print 32] [Print 97; Execute x0a; Print 98] 1);
    [vm_compute; reflexivity..|lia].
Defined.

End BlockParser.
