(* ===== verification/ShellHooks.v ===== *)
(** * ShellHooks: the shell snippets (pyre-proto/src/shell_integration.rs)

    The two hooks each snippet installs, as functions on the variables they keep, and
    what the markers they print make of a session once the block parser reads them.
    How a shell calls its hooks is documented behaviour of the shells: bash runs the
    DEBUG trap before every simple command, those of PROMPT_COMMAND included; zsh and
    fish run preexec once for a line that is not empty. *)
From Stdlib Require Import Strings.Byte.
From S2P Require Import Prelude Proto Text BlockParser.
Import BlockParser.
Local Open Scope Z_scope.

(** What a hook prints: [ESC ] 133 ; X BEL]. *)
Inductive Marker := PromptMark | StartMark | EndMark (exit : Z).
Definition marker_bytes (m : Marker) : Bytes :=
  [x1b; x5d] ++ str_bytes "133;"
    ++ match m with PromptMark => [x41] | StartMark => [x43] | EndMark e => x44 :: x3b :: show_int e end ++ [x07].
(** The call of the vte parser such a sequence ends in. *)
Definition marker_action (m : Marker) : VteAction :=
  match m with PromptMark => osc x41 [] | StartMark => osc x43 [] | EndMark e => osc x44 [show_int e] end.

(** ** bash *)
Record Hooks := MkHooks { at_prompt : bool; cmd_started : bool }.
Definition no_hooks : Hooks := MkHooks false false.

Definition pyre_prompt_cmd (exit : Z) (h : Hooks) : Hooks * list Marker :=
  (MkHooks true false, (if cmd_started h then [EndMark exit] else []) ++ [PromptMark]).
(** [completing]: COMP_LINE is set; [subshell]: BASH_SUBSHELL. *)
Definition pyre_preexec (completing : bool) (subshell : Z) (h : Hooks) : Hooks * list Marker :=
  if completing then (h, [])
  else if negb (subshell =? 0) then (h, [])
  else if negb (at_prompt h) then (h, [])
  else (MkHooks false true, [StartMark]).

(** The DEBUG trap before [n] simple commands of the shell itself. *)
Fixpoint debug_traps (n : nat) (h : Hooks) : Hooks * list Marker :=
  match n with
  | O => (h, [])
  | S n' =>
      let '(h1, ms1) := pyre_preexec false 0 h in
      let '(h2, ms2) := debug_traps n' h1 in
      (h2, ms1 ++ ms2)
  end.

(** A line of a session: what the terminal shows up to Enter, how many simple commands
    it runs, what they print, the status the prompt hook finds in [$?], what the entries
    of PROMPT_COMMAND that were there before print after them. (That status is the one of
    the line unless PROMPT_COMMAND was a string with a command in it: then it is the one
    of this command.) *)
Record ShellLine := MkLine {
  sl_text : list VteAction;
  sl_commands : nat;
  sl_output : list VteAction;
  sl_exit : Z;
  sl_hooks : list VteAction }.

(** PROMPT_COMMAND: [entries] simple commands, then [__pyre_prompt_cmd]. *)
Definition bash_prompt (entries : nat) (exit : Z) (printed : list VteAction) (h : Hooks) : Hooks * list VteAction :=
  let '(h1, ms1) := debug_traps (S entries) h in
  let '(h2, ms2) := pyre_prompt_cmd exit h1 in
  (h2, (marker_action <$> ms1) ++ printed ++ (marker_action <$> ms2)).
Definition bash_line (entries : nat) (l : ShellLine) (h : Hooks) : Hooks * list VteAction :=
  let '(h1, ms) := debug_traps (sl_commands l) h in
  let '(h2, prompt) := bash_prompt entries (sl_exit l) (sl_hooks l) h1 in
  (h2, sl_text l ++ (marker_action <$> ms) ++ sl_output l ++ prompt).
Fixpoint bash_lines (entries : nat) (ls : list ShellLine) (h : Hooks) : list VteAction :=
  match ls with
  | [] => []
  | l :: ls' => let '(h', acts) := bash_line entries l h in acts ++ bash_lines entries ls' h'
  end.
Definition bash_session (entries : nat) (ls : list ShellLine) : list VteAction :=
  let '(h, acts) := bash_prompt entries 0 [] no_hooks in acts ++ bash_lines entries ls h.

(** ** zsh, and fish *)
Definition zsh_precmd (exit : Z) (started : bool) : bool * list Marker :=
  if started then (false, [EndMark exit; PromptMark]) else (started, [PromptMark]).
Definition zsh_preexec (started : bool) : bool * list Marker := (true, [StartMark]).
Definition fish_precmd (status : Z) (started : bool) : bool * list Marker :=
  if started then (false, [EndMark status; PromptMark]) else (started, [PromptMark]).
Definition fish_preexec (started : bool) : bool * list Marker := (true, [StartMark]).

Section Events.
Context (precmd : Z → bool → bool * list Marker) (preexec : bool → bool * list Marker).

Definition event_line (l : ShellLine) (started : bool) : bool * list VteAction :=
  let '(st1, ms1) := if (sl_commands l =? 0)%nat then (started, []) else preexec started in
  let '(st2, ms2) := precmd (sl_exit l) st1 in
  (st2, sl_text l ++ (marker_action <$> ms1) ++ sl_output l ++ sl_hooks l ++ (marker_action <$> ms2)).
Fixpoint event_lines (ls : list ShellLine) (started : bool) : list VteAction :=
  match ls with
  | [] => []
  | l :: ls' => let '(st, acts) := event_line l started in acts ++ event_lines ls' st
  end.
Definition event_session (ls : list ShellLine) : list VteAction :=
  let '(st, ms) := precmd 0 false in (marker_action <$> ms) ++ event_lines ls st.
End Events.
Definition zsh_session : list ShellLine → list VteAction := event_session zsh_precmd zsh_preexec.
Definition fish_session : list ShellLine → list VteAction := event_session fish_precmd fish_preexec.

(** ** What the parser makes of a session *)

(** A line: its texts hold no marker, an empty one prints nothing of its own, its
    status is one the parser can read. *)
Definition line_ok (l : ShellLine) : Prop :=
  forallb is_text (sl_text l) = true ∧ forallb is_text (sl_output l) = true ∧ forallb is_text (sl_hooks l) = true ∧
  (sl_commands l = 0%nat → sl_output l = []) ∧ -2147483648 ≤ sl_exit l ≤ 2147483647.

Section Session.
Context (fresh : nat → BlockId) (s : SessionId).

Definition line_text (l : ShellLine) : string := command_text (filter not_nul (flat_map action_bytes (sl_text l))).
(** The events of the lines; [every]: an empty line is a block too. *)
Fixpoint session_events (every : bool) (n : nat) (ls : list ShellLine) : list BlockEvent :=
  match ls with
  | [] => []
  | l :: ls' =>
      if every || negb (sl_commands l =? 0)%nat then
        CommandStart s (fresh n) (line_text l) None :: BlockEnd (fresh n) (Some (sl_exit l)) :: PromptStart s
          :: session_events every (S n) ls'
      else PromptStart s :: session_events every n ls'
  end.

Lemma traps_off n c : debug_traps n (MkHooks false c) = (MkHooks false c, []).
Proof. induction n as [|n IH]; [done|]. cbn. by rewrite IH. Qed.
Lemma traps_on n : debug_traps (S n) (MkHooks true false) = (MkHooks false true, [StartMark]).
Proof. cbn. by rewrite traps_off. Qed.

(** Between two lines: a prompt was printed, its text is being captured. *)
Definition waiting (n : nat) : Core := MkCore n None [] true.

Lemma first_prompt c acts :
  (core_run fresh s c (osc x41 [] :: acts)).2 = PromptStart s :: (core_run fresh s (waiting (co_minted c)) acts).2.
Proof. cbn [core_run]. rewrite core_step_A. fold (waiting (co_minted c)). by destruct (core_run fresh s _ acts). Qed.

(** A line whose markers are a start and an end. *)
Lemma command_run n text output l :
  forallb is_text text = true → forallb is_text output = true → -2147483648 ≤ sl_exit l ≤ 2147483647 →
  core_run fresh s (waiting n) (text ++ osc x43 [] :: output ++ [osc x44 [show_int (sl_exit l)]; osc x41 []])
  = (waiting (S n),
     [CommandStart s (fresh n) (command_text (filter not_nul (flat_map action_bytes text))) None;
      BlockEnd (fresh n) (Some (sl_exit l)); PromptStart s]).
Proof.
  intros Ht Ho He. rewrite core_run_app, core_run_text by done. cbn [core_run]. rewrite core_step_C, core_run_app, core_run_text by done.
  cbn [core_run]. rewrite (core_step_D _ _ _ (fresh n)) by done. rewrite exit_code_of_shown by done. by rewrite core_step_A.
Qed.
(** A line without them. *)
Lemma empty_run n text :
  forallb is_text text = true →
  core_run fresh s (waiting n) (text ++ [osc x41 []]) = (waiting n, [PromptStart s]).
Proof. intros Ht. rewrite core_run_app, core_run_text by done. cbn [core_run]. by rewrite core_step_A. Qed.

Lemma bash_line_acts entries l :
  line_ok l →
  bash_line entries l (MkHooks true false) =
  (MkHooks true false,
   sl_text l ++ osc x43 [] :: (sl_output l ++ sl_hooks l) ++ [osc x44 [show_int (sl_exit l)]; osc x41 []]).
Proof.
  intros (_ & _ & _ & He & _). unfold bash_line, bash_prompt. destruct (sl_commands l) as [|n] eqn:Hn.
  - rewrite He by done. cbn [debug_traps]. cbn. by rewrite traps_off.
  - rewrite traps_on, traps_off. cbn. by rewrite <- app_assoc.
Qed.

Lemma bash_lines_run entries ls n :
  Forall line_ok ls →
  (core_run fresh s (waiting n) (bash_lines entries ls (MkHooks true false))).2 = session_events true n ls.
Proof.
  intros Hls. revert n. induction Hls as [|l ls Hl Hls IH]; intros n; [done|]. cbn [bash_lines session_events orb].
  rewrite bash_line_acts, core_run_app by done. destruct Hl as (Ht & Ho & Hh & _ & He).
  rewrite command_run; [|done|rewrite forallb_app; by rewrite Ho, Hh|done]. specialize (IH (S n)).
  destruct (core_run fresh s (waiting (S n)) _) as [c evs]. cbn in IH. by rewrite IH.
Qed.

Lemma zsh_line_acts l :
  event_line zsh_precmd zsh_preexec l false =
  (false, if (sl_commands l =? 0)%nat then sl_text l ++ sl_output l ++ sl_hooks l ++ [osc x41 []]
          else sl_text l ++ osc x43 [] :: sl_output l ++ sl_hooks l ++ [osc x44 [show_int (sl_exit l)]; osc x41 []]).
Proof. unfold event_line. by destruct (sl_commands l =? 0)%nat. Qed.

Lemma zsh_lines_run ls n :
  Forall line_ok ls →
  (core_run fresh s (waiting n) (event_lines zsh_precmd zsh_preexec ls false)).2 = session_events false n ls.
Proof.
  intros Hls. revert n. induction Hls as [|l ls Hl Hls IH]; intros n; [done|]. cbn [event_lines session_events orb].
  rewrite zsh_line_acts. destruct Hl as (Ht & Ho & Hh & _ & He). rewrite core_run_app. destruct (sl_commands l =? 0)%nat; cbn [negb].
  - assert (forallb is_text ((sl_text l ++ sl_output l) ++ sl_hooks l) = true) as Hall.
    { rewrite !forallb_app. by rewrite Ht, Ho, Hh. }
    rewrite 2!app_assoc. rewrite (empty_run n _ Hall). specialize (IH n).
    destruct (core_run fresh s (waiting n) _) as [c evs]. cbn in IH. by rewrite IH.
  - rewrite (app_assoc (sl_output l)), command_run; [|done|rewrite forallb_app; by rewrite Ho, Hh|done]. specialize (IH (S n)).
    destruct (core_run fresh s (waiting (S n)) _) as [c evs]. cbn in IH. by rewrite IH.
Qed.
Lemma fish_as_zsh ls : fish_session ls = zsh_session ls.
Proof. done. Qed.
End Session.


(** [ls] and an empty line, in bash with one more entry in PROMPT_COMMAND. *)
Definition two_lines : list ShellLine :=
  [MkLine (Print <$> [108; 115]) 1 (Print <$> [97]) 0 [Print 84]; MkLine [] 0 [] 0 [Print 84]].
Definition session_bytes : Bytes :=
  marker_bytes PromptMark ++ [x6c; x73] ++ marker_bytes StartMark ++ [x61; x54] ++ marker_bytes (EndMark 0) ++ marker_bytes PromptMark
    ++ marker_bytes StartMark ++ [x54] ++ marker_bytes (EndMark 0) ++ marker_bytes PromptMark.
