(* ===== verification/PaneTracker.v ===== *)
(** * PaneTracker: the pane life-cycle engine (pyred/src/state.rs, agent_detect.rs)

    A tracker holds what is known of a pane's process; [evaluate] applies the
    heuristic rules in their order of priority. Instants are nanoseconds; each
    call of [Instant::now] is a reading given as an argument. What the operating
    system answers (/proc) is the record [ProcFs]. *)
From Stdlib Require Import Strings.Byte.
From S2P Require Import Prelude Proto Text.
Local Open Scope Z_scope.

Module PaneTracker.

Inductive Osc133Marker := MarkA | MarkB | MarkC | MarkD (exit_code : option Z).

Definition AGENT_IDLE_SECS : Z := 15.
Definition secs (n : Z) : Z := n * 1000000000.

Definition INTERACTIVE_SET : list string :=
  ["vim"; "nvim"; "vi"; "less"; "more"; "top"; "htop"; "btop"; "man"; "nano"; "emacs";
   "emacs-nox"; "helix"; "hx"; "lazygit"; "fzf"; "ranger"; "nnn"; "mc"].
Definition SHELL_SET : list string :=
  ["bash"; "zsh"; "fish"; "sh"; "dash"; "ksh"; "tcsh"; "csh"].
Definition is_shell (name : string) : bool := bool_decide (name ∈ SHELL_SET).

Record PaneStateTracker := MkTracker {
  tr_state : PaneStateKind;
  tr_reason : string;
  tr_last_output_at : Z;
  tr_last_marker : option Osc133Marker;
  tr_last_d_at : option Z;
  tr_foreground_cmd : option string;
  tr_agent : AgentKind;
  tr_seen : bool;
  tr_root_pid : Z;
  tr_override_until : option Z;
  tr_overridden_state : option PaneStateKind;
  tr_overridden_reason : option string;
  (** the value held by the watch channel [watch_tx] *)
  tr_watch : PaneStateKind }.

Definition new (now root_pid : Z) : PaneStateTracker :=
  MkTracker Running "init" now None None None AgUnknown true root_pid None None None Running.

Definition touch_output (now : Z) (t : PaneStateTracker) : PaneStateTracker :=
  MkTracker (tr_state t) (tr_reason t) now (tr_last_marker t) (tr_last_d_at t)
    (tr_foreground_cmd t) (tr_agent t) (tr_seen t) (tr_root_pid t) (tr_override_until t)
    (tr_overridden_state t) (tr_overridden_reason t) (tr_watch t).

Definition push_marker (now : Z) (marker : Osc133Marker) (t : PaneStateTracker) :
    PaneStateTracker :=
  MkTracker (tr_state t) (tr_reason t) (tr_last_output_at t) (Some marker)
    (match marker with MarkD _ => Some now | _ => tr_last_d_at t end)
    (tr_foreground_cmd t) (tr_agent t) (tr_seen t) (tr_root_pid t) (tr_override_until t)
    (tr_overridden_state t) (tr_overridden_reason t) (tr_watch t).

Definition set_override (now : Z) (state : PaneStateKind) (reason : string) (s : Z)
    (t : PaneStateTracker) : PaneStateTracker :=
  MkTracker (tr_state t) (tr_reason t) (tr_last_output_at t) (tr_last_marker t)
    (tr_last_d_at t) (tr_foreground_cmd t) (tr_agent t) (tr_seen t) (tr_root_pid t)
    (Some (now + secs s)) (Some state) (Some reason) (tr_watch t).

Definition mark_seen (t : PaneStateTracker) : PaneStateTracker :=
  MkTracker (tr_state t) (tr_reason t) (tr_last_output_at t) (tr_last_marker t)
    (tr_last_d_at t) (tr_foreground_cmd t) (tr_agent t) true (tr_root_pid t)
    (tr_override_until t) (tr_overridden_state t) (tr_overridden_reason t) (tr_watch t).

Definition subscribe (t : PaneStateTracker) : PaneStateKind := tr_watch t.

(** [apply]: nothing when the state stays; leaving for [Done] clears [seen]. *)
Definition apply (new_state : PaneStateKind) (new_reason : string) (t : PaneStateTracker) :
    bool * PaneStateTracker :=
  if decide (tr_state t = new_state) then (false, t)
  else (true,
    MkTracker new_state new_reason (tr_last_output_at t) (tr_last_marker t)
      (tr_last_d_at t) (tr_foreground_cmd t) (tr_agent t)
      (if decide (new_state = Done) then false else tr_seen t) (tr_root_pid t)
      (tr_override_until t) (tr_overridden_state t) (tr_overridden_reason t) new_state).

Definition clear_override (t : PaneStateTracker) : PaneStateTracker :=
  MkTracker (tr_state t) (tr_reason t) (tr_last_output_at t) (tr_last_marker t)
    (tr_last_d_at t) (tr_foreground_cmd t) (tr_agent t) (tr_seen t) (tr_root_pid t)
    None None None (tr_watch t).

(** The calls of [Instant::now] and [elapsed] of one [evaluate], in order. *)
Record Readings := MkReadings { at_override : Z; at_prompt : Z; at_agent : Z; at_block : Z }.

(** [Instant::elapsed], which saturates at zero. *)
Definition elapsed (now t : Z) : Z := Z.max 0 (now - t).

Definition last_exit (t : PaneStateTracker) : option Z :=
  match tr_last_marker t with Some (MarkD code) => code | _ => None end.

Definition fg_base (t : PaneStateTracker) : string :=
  bytes_str (rsplit_last x2f (str_bytes (default "" (tr_foreground_cmd t)))).

(** Rules 1 to 5, with the reason each gives. *)
Definition heuristic (pid_alive : Z → bool) (rd : Readings) (t : PaneStateTracker) :
    PaneStateKind * string :=
  if (0 <? tr_root_pid t) && negb (pid_alive (tr_root_pid t)) then
    match last_exit t with
    | Some c => if decide (c ≠ 0) then (Crashed, "process exited non-zero") else (Done, "process exited")
    | None => (Done, "process exited")
    end
  else if bool_decide (fg_base t ∈ INTERACTIVE_SET) then (Interactive, fg_base t)
  else if match tr_last_marker t with Some MarkA | Some MarkB => true | _ => false end
       && (secs 2 <? elapsed (at_prompt rd) (tr_last_output_at t)) && is_shell (fg_base t)
  then (WaitingInput, "shell prompt, idle > 2s")
  else if negb (bool_decide (tr_agent t = AgUnknown)) && negb (bool_decide (tr_agent t = AgShell))
       && (secs AGENT_IDLE_SECS <? elapsed (at_agent rd) (tr_last_output_at t))
  then (WaitingInput, "agent idle >15s")
  else if match tr_last_d_at t with
          | Some d_at => (secs 5 <? elapsed (at_block rd) d_at)
                         && (tr_last_output_at t <? d_at + secs 1)
          | None => false
          end
  then (Idle, "quiet after block end")
  else (Running, "active").

Definition evaluate (pid_alive : Z → bool) (rd : Readings) (t : PaneStateTracker) :
    bool * PaneStateTracker :=
  match tr_override_until t with
  | Some until =>
      if at_override rd <? until then
        apply (default Running (tr_overridden_state t))
              (default "override" (tr_overridden_reason t)) t
      else
        let t := clear_override t in
        let h := heuristic pid_alive rd t in apply h.1 h.2 t
  | None => let h := heuristic pid_alive rd t in apply h.1 h.2 t
  end.

(** ** The foreground process *)
Record ProcFs := MkProcFs {
  pf_exists : Z → bool;                 (** /proc/<pid> *)
  pf_children : Z → option string;      (** /proc/<pid>/task/<pid>/children *)
  pf_comm : Z → option string }.        (** /proc/<pid>/comm *)

Definition direct_child (fs : ProcFs) (pid : Z) : Z :=
  match pf_children fs pid with
  | Some content =>
      default pid (last (omap (λ w, parse_u32 (encode w)) (split_whitespace (chars content))))
  | None => pid
  end.
Definition read_comm (fs : ProcFs) (pid : Z) : option string := str_trim <$> pf_comm fs pid.
Definition foreground_of (fs : ProcFs) (root_pid : Z) : option string :=
  read_comm fs (direct_child fs root_pid).

(** agent_detect.rs *)
Definition classify_foreground `{UnicodeLower} (comm : string) : AgentKind :=
  let base := encode (to_lowercase (trim (chars comm))) in
  let base := default base (strip_suffix (str_bytes ".exe") base) in
  let name := bytes_str base in
  if bool_decide (name ∈ ["claude"; "claude-code"]) then AgClaudeCode
  else if bool_decide (name = "codex") then AgCodex
  else if bool_decide (name = "pi") then AgPi
  else if bool_decide (name = "opencode") then AgOpenCode
  else if bool_decide (name ∈ ["cursor"; "cursor-agent"; "cursor-agent-cli"]) then AgCursorAgent
  else if bool_decide (name ∈ ["droid"; "factory"]) then AgDroid
  else if bool_decide (name = "amp") then AgAmp
  else if bool_decide (name ∈ ["bash"; "zsh"; "fish"; "sh"; "dash"; "ksh"; "tcsh"; "csh"; "nu"])
  then AgShell
  else if contains_sub (str_bytes "claude") base then AgClaudeCode
  else if contains_sub (str_bytes "codex") base then AgCodex
  else AgUnknown.

(** ** One tick of the engine ([spawn_state_engine]) on one tracker *)
Definition set_foreground `{UnicodeLower} (fs : ProcFs) (t : PaneStateTracker) : PaneStateTracker :=
  let fg := foreground_of fs (tr_root_pid t) in
  MkTracker (tr_state t) (tr_reason t) (tr_last_output_at t) (tr_last_marker t)
    (tr_last_d_at t) fg
    (match fg with Some cmd => classify_foreground cmd | None => tr_agent t end)
    (tr_seen t) (tr_root_pid t) (tr_override_until t)
    (tr_overridden_state t) (tr_overridden_reason t) (tr_watch t).

(** The tracker after the tick and, when the state changed, what the hooks and
    the event bus are told. *)
Definition tick `{UnicodeLower} (fs : ProcFs) (rd : Readings) (t : PaneStateTracker) :
    PaneStateTracker * option (PaneStateKind * string) :=
  let '(changed, t) := evaluate (pf_exists fs) rd (set_foreground fs t) in
  (t, if changed then Some (tr_state t, tr_reason t) else None).

(** One round over the trackers of the registry: each pane is evaluated with what
    /proc and the clock say at its turn; the transitions go, in order, to the
    hooks and the event bus. *)
Fixpoint engine_tick `{UnicodeLower}
    (panes : list (SessionId * PaneId * ProcFs * Readings * PaneStateTracker)) :
    list (SessionId * PaneId * PaneStateTracker) * list (SessionId * PaneId * PaneStateKind * string) :=
  match panes with
  | [] => ([], [])
  | (s, p, fs, rd, t) :: rest =>
      let '(t, change) := tick fs rd t in
      let '(ts, changes) := engine_tick rest in
      ((s, p, t) :: ts,
       match change with Some (st, r) => (s, p, st, r) :: changes | None => changes end)
  end.

(** ** The life of a tracker *)
Inductive tracker_op :=
  | OpTouch (now : Z)
  | OpMarker (now : Z) (m : Osc133Marker)
  | OpOverride (now : Z) (state : PaneStateKind) (reason : string) (s : Z)
  | OpSeen
  | OpTick (fs : ProcFs) (rd : Readings).

Definition run_op `{UnicodeLower} (op : tracker_op) (t : PaneStateTracker) :
    PaneStateTracker * option (PaneStateKind * string) :=
  match op with
  | OpTouch now => (touch_output now t, None)
  | OpMarker now m => (push_marker now m t, None)
  | OpOverride now st r s => (set_override now st r s t, None)
  | OpSeen => (mark_seen t, None)
  | OpTick fs rd => tick fs rd t
  end.

(** A sequence of operations and the transitions it announces. *)
Fixpoint run_ops `{UnicodeLower} (ops : list tracker_op) (t : PaneStateTracker) :
    PaneStateTracker * list (PaneStateKind * string) :=
  match ops with
  | [] => (t, [])
  | op :: ops' =>
      let '(t, change) := run_op op t in
      let '(t, changes) := run_ops ops' t in
      (t, match change with Some c => c :: changes | None => changes end)
  end.

Definition tracker_ok (t : PaneStateTracker) : Prop :=
  tr_watch t = tr_state t ∧
  (is_Some (tr_override_until t) ↔ is_Some (tr_overridden_state t)) ∧
  (is_Some (tr_override_until t) ↔ is_Some (tr_overridden_reason t)) ∧
  (∀ c, tr_last_marker t = Some (MarkD c) → is_Some (tr_last_d_at t)).

Section Tracker.
Context `{UnicodeLower}.

Lemma apply_spec st r t b t' :
  apply st r t = (b, t') →
  tr_state t' = st ∧ (b = true ↔ tr_state t ≠ st) ∧
  (b = false → t' = t) ∧
  (tracker_ok t → tracker_ok t') ∧
  tr_override_until t' = tr_override_until t ∧
  tr_overridden_state t' = tr_overridden_state t ∧
  tr_seen t' = (if decide (b = true ∧ st = Done) then false else tr_seen t).
Proof.
  unfold apply. case_decide as E; intros [= <- <-].
  - split_and!; repeat case_decide; naive_solver.
  - split_and!; cbn; try done; [intros (?&?&?&?); by split_and!|repeat case_decide; naive_solver].
Qed.

Lemma clear_override_ok t : tracker_ok t → tracker_ok (clear_override t).
Proof. intros (H1 & H2 & H3 & H4). repeat split; cbn; try done; by intros [? ?]. Qed.

Lemma evaluate_ok alive rd t b t' :
  tracker_ok t → evaluate alive rd t = (b, t') →
  tracker_ok t' ∧ (b = true ↔ tr_state t ≠ tr_state t') .
Proof.
  intros Ht. unfold evaluate. assert (Hc := clear_override_ok t Ht).
  destruct (tr_override_until t); [case_match|]; intros He;
    destruct (apply_spec _ _ _ _ _ He) as (Hs & Hb & _ & Hok & _); rewrite Hs; split; auto.
Qed.

Lemma set_foreground_ok fs t : tracker_ok t → tracker_ok (set_foreground fs t).
Proof. by intros. Qed.

Lemma run_tracker_op_ok op t : tracker_ok t → tracker_ok (run_op op t).1.
Proof.
  intros Ht. destruct op as [now|now m|now st r s| |fs rd]; cbn [run_op fst].
  - done.
  - destruct Ht as (H1 & H2 & H3 & H4). repeat split; cbn; try done; try apply H2; try apply H3.
    intros c [= ->]. by eexists.
  - destruct Ht as (H1 & H2 & H3 & H4). repeat split; cbn; done.
  - done.
  - unfold tick. destruct (evaluate _ _ _) as [b t'] eqn:E. cbn [fst].
    by destruct (evaluate_ok _ _ _ _ _ (set_foreground_ok fs t Ht) E).
Qed.

Lemma tick_change fs rd t t' c :
  tracker_ok t → tick fs rd t = (t', c) →
  match c with
  | Some (st, r) => st = tr_state t' ∧ r = tr_reason t' ∧ tr_state t ≠ tr_state t'
  | None => tr_state t' = tr_state t
  end.
Proof.
  intros Ht. unfold tick. destruct (evaluate _ _ _) as [b t1] eqn:E. intros [= <- <-].
  destruct (evaluate_ok _ _ _ _ _ (set_foreground_ok fs t Ht) E) as [_ Hb].
  change (tr_state (set_foreground fs t)) with (tr_state t) in Hb.
  destruct b; [naive_solver|]. destruct (decide (tr_state t = tr_state t1)); [done|].
  by apply Hb in n.
Qed.

Lemma run_ops_app ops1 ops2 t :
  run_ops (ops1 ++ ops2) t =
  (let '(t, c1) := run_ops ops1 t in let '(t, c2) := run_ops ops2 t in (t, c1 ++ c2)).
Proof.
  revert t. induction ops1 as [|op ops1 IH]; intros t; simpl; [by destruct (run_ops ops2 t)|].
  destruct (run_op op t) as [t1 c]. rewrite IH. destruct (run_ops ops1 t1) as [t2 c1].
  destruct (run_ops ops2 t2) as [t3 c2]. by destruct c.
Qed.

(** Each announced state differs from the one before it. *)
Fixpoint chained (st : PaneStateKind) (l : list PaneStateKind) : Prop :=
  match l with [] => True | x :: l' => x ≠ st ∧ chained x l' end.

Lemma run_ops_chain ops t :
  tracker_ok t →
  tracker_ok (run_ops ops t).1 ∧
  chained (tr_state t) (run_ops ops t).2.*1 ∧
  tr_state (run_ops ops t).1 = default (tr_state t) (last (run_ops ops t).2.*1).
Proof.
  revert t. induction ops as [|op ops IH]; intros t Ht; [done|]. cbn [run_ops].
  pose proof (run_tracker_op_ok op t Ht) as Hok.
  assert (match (run_op op t).2 with
          | Some (st, _) => st = tr_state (run_op op t).1 ∧ tr_state t ≠ st
          | None => tr_state (run_op op t).1 = tr_state t end) as Hch.
  { destruct op as [| | | |fs rd]; try done. cbn [run_op].
    destruct (tick fs rd t) as [t' c] eqn:E. pose proof (tick_change _ _ _ _ _ Ht E) as Hc.
    cbn [fst snd]. destruct c as [[st r]|]; naive_solver. }
  destruct (run_op op t) as [t1 c]. cbn [fst snd] in *.
  destruct (IH t1 Hok) as (G1 & G2 & G3). destruct (run_ops ops t1) as [t2 cs]. cbn [fst snd] in *.
  destruct c as [[st r]|].
  - destruct Hch as [-> Hne]. split; [done|]. cbn [fmap list_fmap fst chained].
    split; [split; [congruence|done]|]. rewrite G3. rewrite last_cons. by destruct (last cs.*1).
  - rewrite <- Hch. done.
Qed.

(** The operations that leave a running override alone. *)
Definition within (until : Z) (op : tracker_op) : Prop :=
  match op with
  | OpOverride _ _ _ _ => False
  | OpTick _ rd => at_override rd < until
  | _ => True
  end.

Definition overridden (until : Z) (st : PaneStateKind) (t : PaneStateTracker) : Prop :=
  tr_override_until t = Some until ∧ tr_overridden_state t = Some st.

Lemma tick_overridden until st fs rd t :
  overridden until st t → at_override rd < until →
  overridden until st (tick fs rd t).1 ∧ tr_state (tick fs rd t).1 = st.
Proof.
  intros [H1 H2] Hlt. unfold tick, evaluate. cbn [set_foreground tr_override_until].
  change (tr_override_until (set_foreground fs t)) with (tr_override_until t).
  rewrite H1, (proj2 (Z.ltb_lt _ _)) by done.
  change (tr_overridden_state (set_foreground fs t)) with (tr_overridden_state t). rewrite H2.
  destruct (apply _ _ _) as [b t'] eqn:E.
  destruct (apply_spec _ _ _ _ _ E) as (G1 & _ & _ & _ & G2 & G3 & _). cbn [fst].
  split; [|done]. split; [by rewrite G2|by rewrite G3].
Qed.

Lemma run_ops_overridden until st ops t :
  Forall (within until) ops → overridden until st t → overridden until st (run_ops ops t).1.
Proof.
  intros H1. revert t. induction H1 as [|op ops Hop Hops IH]; intros t Ht; [done|].
  cbn [run_ops]. assert (overridden until st (run_op op t).1) as Ho.
  { destruct op as [| | | |fs rd]; try done. by apply tick_overridden. }
  destruct (run_op op t) as [t1 c]. specialize (IH t1 Ho). by destruct (run_ops ops t1).
Qed.

Lemma tick_heuristic fs rd t :
  tr_override_until t = None →
  tr_state (tick fs rd t).1 = (heuristic (pf_exists fs) rd (set_foreground fs t)).1 ∧
  tr_override_until (tick fs rd t).1 = None.
Proof.
  intros Hu. unfold tick, evaluate.
  change (tr_override_until (set_foreground fs t)) with (tr_override_until t). rewrite Hu.
  destruct (apply _ _ _) as [b t'] eqn:E.
  destruct (apply_spec _ _ _ _ _ E) as (G1 & _ & _ & _ & G2 & _). cbn [fst]. by rewrite G1, G2.
Qed.

(** What a dead process leaves the pane in. *)
Definition exit_state (t : PaneStateTracker) : PaneStateKind :=
  match last_exit t with Some c => if decide (c ≠ 0) then Crashed else Done | None => Done end.

Definition after_exit (pid : Z) (op : tracker_op) : Prop :=
  match op with
  | OpTick fs _ => pf_exists fs pid = false
  | OpTouch _ | OpSeen => True
  | _ => False
  end.

Lemma tick_dead fs rd t :
  0 < tr_root_pid t → pf_exists fs (tr_root_pid t) = false → tr_override_until t = None →
  tr_state (tick fs rd t).1 = exit_state t ∧
  (fst <$> (tick fs rd t).2) = (if decide (tr_state t = exit_state t) then None else Some (exit_state t)) ∧
  tr_override_until (tick fs rd t).1 = None ∧ tr_root_pid (tick fs rd t).1 = tr_root_pid t ∧
  exit_state (tick fs rd t).1 = exit_state t.
Proof.
  intros Hp Hd Hu. unfold tick, evaluate.
  change (tr_override_until (set_foreground fs t)) with (tr_override_until t). rewrite Hu.
  assert (heuristic (pf_exists fs) rd (set_foreground fs t) =
    (exit_state t, if decide (exit_state t = Crashed) then "process exited non-zero" else "process exited")) as ->.
  { unfold heuristic. change (tr_root_pid (set_foreground fs t)) with (tr_root_pid t).
    rewrite (proj2 (Z.ltb_lt _ _)), Hd by done. cbn [andb negb]. unfold exit_state.
    change (last_exit (set_foreground fs t)) with (last_exit t). by cases. }
  unfold apply. cbn [fst snd]. change (tr_state (set_foreground fs t)) with (tr_state t).
  case_decide; cbn; by rewrite ?Hu.
Qed.

Lemma ticks_dead pid ops t :
  0 < pid → tr_root_pid t = pid → tr_override_until t = None → tr_state t = exit_state t →
  Forall (after_exit pid) ops →
  (run_ops ops t).2 = [] ∧ tr_state (run_ops ops t).1 = tr_state t.
Proof.
  intros Hp Hr Hu Hs HF. revert t Hr Hu Hs. induction HF as [|op ops Hop HF IH]; intros t Hr Hu Hs; [done|].
  cbn [run_ops]. destruct op as [now| | | |fs rd]; try done; cbn [run_op].
  - destruct (IH (touch_output now t)) as [H1 H2]; [done..|]. by destruct (run_ops ops _).
  - destruct (IH (mark_seen t)) as [H1 H2]; [done..|]. by destruct (run_ops ops _).
  - cbn [after_exit] in Hop. rewrite <- Hr in Hp, Hop.
    destruct (tick_dead fs rd t Hp Hop Hu) as (G1 & G2 & G3 & G4 & G5).
    destruct (tick fs rd t) as [t1 c]. cbn [fst snd] in *.
    rewrite decide_True in G2 by done. destruct c as [[? ?]|]; [done|].
    destruct (IH t1) as [H1 H2]; [congruence..|]. destruct (run_ops ops t1). cbn in *. by rewrite H2, G1.
Qed.
End Tracker.

Definition all_ascii_lower : UnicodeLower := {| lower_non_ascii c := [c] |}.
Existing Instance all_ascii_lower | 100.
Example classify_ex :
  (classify_foreground "claude
", classify_foreground "CODEX.exe", classify_foreground "node", classify_foreground "nu")
  = (AgClaudeCode, AgCodex, AgUnknown, AgShell).
Proof. vm_compute. reflexivity. Qed.


(** ** Properties *)

(** In any sequence of output, markers, overrides, acknowledgements and engine
    ticks from a fresh tracker, the watch channel always holds the tracked state,
    the override fields are set and cleared together, and the announced transitions
    never repeat a state and end in the current one: a subscriber that replays
    the state-changed events knows the state of the pane. *)
Theorem transitions_track_state `{UnicodeLower} now pid ops :
  let r := run_ops ops (new now pid) in
  tracker_ok r.1 ∧ chained Running r.2.*1 ∧ tr_state r.1 = default Running (last r.2.*1).
Proof.
  assert (tracker_ok (new now pid)) as Hn.
  { repeat split; cbn; try done; by intros [? ?]. }
  exact (run_ops_chain ops (new now pid) Hn).
Qed.

(** a self-reported state holds for its window: whatever output, markers and
    ticks happen before the deadline, a tick before the deadline leaves the pane in
    the reported state; the first tick at or after it behaves as if there had been
    no override. *)
Theorem override_window `{UnicodeLower} now st reason s t ops fs rd rd'
  (Hops : Forall (within (now + secs s)) ops)
  (Hin : at_override rd < now + secs s) (Hout : now + secs s ≤ at_override rd') :
  let t' := (run_ops ops (set_override now st reason s t)).1 in
  tr_state (tick fs rd t').1 = st ∧ tick fs rd' t' = tick fs rd' (clear_override t').
Proof.
  assert (overridden (now + secs s) st (set_override now st reason s t)) as H0 by done.
  pose proof (run_ops_overridden _ _ _ _ Hops H0) as H1. cbn zeta.
  set (t' := (run_ops ops (set_override now st reason s t)).1) in *.
  split; [by apply (tick_overridden _ _ fs rd t' H1)|].
  unfold tick, evaluate. change (tr_override_until (set_foreground fs t')) with (tr_override_until t').
  destruct H1 as [-> _]. by rewrite (proj2 (Z.ltb_ge _ _)) by done.
Qed.

Lemma override_window_witness :
  let fs := MkProcFs (λ _, true) (λ _, None) (λ _, Some "bash") in
  tr_state (tick fs (MkReadings 9 9 9 9) (run_ops [OpTouch 3; OpTick fs (MkReadings 5 5 5 5)]
    (set_override 1 WaitingInput "asked" 1 (new 0 42))).1).1 = WaitingInput.
Proof.
  refine (proj1 (override_window 1 WaitingInput "asked" 1 (new 0 42)
    [OpTouch 3; OpTick (MkProcFs (λ _, true) (λ _, None) (λ _, Some "bash")) (MkReadings 5 5 5 5)]
    (MkProcFs (λ _, true) (λ _, None) (λ _, Some "bash"))
    (MkReadings 9 9 9 9) (MkReadings 2000000000 0 0 0) _ _ _)).
  - apply Forall_cons; split; [done|]. apply Forall_cons; split; [|by apply Forall_nil].
    vm_compute. reflexivity.
  - vm_compute. reflexivity.
  - vm_compute. discriminate.
Defined.

(** False "waiting" verdicts heal: a tick within two seconds of the last
    output of a live pane whose foreground program is not an interactive one puts
    the pane back to Running, whatever state, markers and agent it had. *)
Theorem output_heals `{UnicodeLower} fs rd t
  (Halive : pf_exists fs (tr_root_pid t) = true)
  (Hfg : fg_base (set_foreground fs t) ∉ INTERACTIVE_SET)
  (Hov : tr_override_until t = None)
  (Hp : at_prompt rd ≤ tr_last_output_at t + secs 2)
  (Ha : at_agent rd ≤ tr_last_output_at t + secs 2)
  (Hb : at_block rd ≤ tr_last_output_at t + secs 2) :
  tr_state (tick fs rd t).1 = Running.
Proof.
  destruct (tick_heuristic fs rd t Hov) as [-> _]. unfold heuristic.
  change (tr_root_pid (set_foreground fs t)) with (tr_root_pid t). rewrite Halive, andb_false_r.
  rewrite bool_decide_eq_false_2 by done.
  change (tr_last_output_at (set_foreground fs t)) with (tr_last_output_at t).
  change (tr_last_d_at (set_foreground fs t)) with (tr_last_d_at t).
  unfold elapsed, secs, AGENT_IDLE_SECS in *.
  rewrite (proj2 (Z.ltb_ge (2 * _) _)) by lia. rewrite andb_false_r. cbn [andb].
  rewrite (proj2 (Z.ltb_ge (15 * _) _)) by lia. rewrite andb_false_r.
  destruct (tr_last_d_at t) as [d|]; [|done].
  destruct (Z.ltb_spec (5 * 1000000000) (Z.max 0 (at_block rd - d))); [|done].
  by rewrite (proj2 (Z.ltb_ge _ _)) by lia.
Qed.

Lemma output_heals_witness :
  let fs := MkProcFs (λ _, true) (λ _, None) (λ _, Some "claude") in
  let t := touch_output (secs 100) (tick fs (MkReadings (secs 50) (secs 50) (secs 50) (secs 50)) (new 0 42)).1 in
  tr_state t = WaitingInput ∧ tr_state (tick fs (MkReadings (secs 101) (secs 101) (secs 101) (secs 101)) t).1 = Running.
Proof.
  split; [vm_compute; reflexivity|].
  apply (output_heals (MkProcFs (λ _, true) (λ _, None) (λ _, Some "claude"))
    (MkReadings (secs 101) (secs 101) (secs 101) (secs 101))
    (touch_output (secs 100) (tick (MkProcFs (λ _, true) (λ _, None) (λ _, Some "claude"))
       (MkReadings (secs 50) (secs 50) (secs 50) (secs 50)) (new 0 42)).1));
    try (vm_compute; (reflexivity || discriminate)).
  refine (bool_decide_unpack _ _). vm_compute. exact I.
Defined.

(** The end of a pane's process is announced exactly once: the first tick that
    finds it dead moves the pane to Crashed when the last block ended with a
    non-zero code and to Done otherwise, and announces it unless the pane was
    there already; no later tick, output or acknowledgement announces anything. *)
Theorem exit_announced_once `{UnicodeLower} fs rd ops t
  (Hpid : 0 < tr_root_pid t) (Hov : tr_override_until t = None)
  (Hdead : pf_exists fs (tr_root_pid t) = false)
  (Hops : Forall (after_exit (tr_root_pid t)) ops) :
  let r := run_ops (OpTick fs rd :: ops) t in
  tr_state r.1 = exit_state t ∧
  r.2.*1 = (if decide (tr_state t = exit_state t) then [] else [exit_state t]).
Proof.
  destruct (tick_dead fs rd t Hpid Hdead Hov) as (G1 & G2 & G3 & G4 & G5).
  cbn [run_ops run_op]. destruct (tick fs rd t) as [t1 c]. cbn [fst snd] in *.
  destruct (ticks_dead (tr_root_pid t) ops t1 Hpid G4 G3) as [H1 H2]; [congruence|done|].
  destruct (run_ops ops t1) as [t2 cs]. cbn [fst snd] in *. subst cs. split; [congruence|].
  destruct c as [[st r]|]; cbn [fmap list_fmap fst option_fmap option_map] in *; case_decide; congruence.
Qed.

Lemma exit_announced_once_witness :
  let dead := MkProcFs (λ _, false) (λ _, None) (λ _, None) in
  let t := push_marker 5 (MarkD (Some 2)) (new 0 42) in
  let r := run_ops [OpTick dead (MkReadings 9 9 9 9); OpSeen; OpTick dead (MkReadings 99 99 99 99)] t in
  tr_state r.1 = Crashed ∧ r.2.*1 = [Crashed].
Proof.
  apply (exit_announced_once (MkProcFs (λ _, false) (λ _, None) (λ _, None)) (MkReadings 9 9 9 9)
    [OpSeen; OpTick (MkProcFs (λ _, false) (λ _, None) (λ _, None)) (MkReadings 99 99 99 99)]
    (push_marker 5 (MarkD (Some 2)) (new 0 42))); [done..|].
  apply Forall_cons; split; [done|]. apply Forall_cons; split; [done|by apply Forall_nil].
Defined.

End PaneTracker.
