(* ===== verification/Libraries.v ===== *)
(** * Libraries: what the daemon relies on in its third-party crates

    Interfaces of the crates the persistent store goes through, each with the law
    the daemon counts on, and concrete instances that satisfy them:
    - [UuidText]: [Uuid::to_string] and [Uuid::parse_str] (crate uuid);
    - [LayoutJson]: [serde_json::to_string] and [from_str] on [LayoutNode];
    - [SqlOrder]: the row order of a SQLite [ORDER BY], free among equal keys;
    - [Zstd]: compression of block output;
    - [ChronoRange]: the instants chrono can represent. *)
From Stdlib Require Import Strings.Ascii Strings.Byte.
From S2P Require Import Prelude Proto Layout LayoutTree.

Class UuidText := {
  uuid_to_string : Uuid → string;
  uuid_parse : string → option Uuid;
  uuid_parse_to_string u : uuid_parse (uuid_to_string u) = Some u }.

Class LayoutJson := {
  layout_to_json : LayoutNode → string;
  layout_from_json : string → option LayoutNode;
  layout_json_roundtrip n : layout_from_json (layout_to_json n) = Some n }.

Class SqlOrder := {
  order_by : ∀ {A}, (A → Z) → list A → list A;
  order_by_perm : ∀ {A} (key : A → Z) (l : list A), order_by key l ≡ₚ l;
  order_by_sorted : ∀ {A} (key : A → Z) (l : list A),
    StronglySorted (λ x y, (key x ≤ key y)%Z) (order_by key l) }.

Class Zstd := {
  zstd_compress : list Byte.byte → list Byte.byte;
  zstd_decompress : list Byte.byte → option (list Byte.byte);
  zstd_roundtrip bs : zstd_decompress (zstd_compress bs) = Some bs }.

Class ChronoRange := { chrono_ok : Z → bool }.

#[export] Instance uuid_to_string_inj `{UuidText} : Inj (=) (=) uuid_to_string.
Proof. intros u v E. apply (f_equal uuid_parse) in E. rewrite !uuid_parse_to_string in E. by injection E. Qed.

(** ** Concrete instances *)

(** A number as the string of its binary digits. *)
Fixpoint pos_to_string (p : positive) : string :=
  match p with
  | xH => ""
  | xO p' => String "0"%char (pos_to_string p')
  | xI p' => String "1"%char (pos_to_string p')
  end.
Fixpoint pos_of_string (s : string) : option positive :=
  match s with
  | EmptyString => Some xH
  | String c s' =>
      p ← pos_of_string s';
      if decide (c = "0"%char) then Some (xO p) else if decide (c = "1"%char) then Some (xI p) else None
  end.
Lemma pos_of_to_string p : pos_of_string (pos_to_string p) = Some p.
Proof. induction p as [p IH|p IH|]; simpl; by rewrite ?IH. Qed.

Lemma binary_uuid_law u : (Pos.pred_N <$> pos_of_string (pos_to_string (N.succ_pos u))) = Some u.
Proof. rewrite pos_of_to_string. simpl. by rewrite N.pos_pred_succ. Qed.
Definition binary_uuid : UuidText := {|
  uuid_to_string u := pos_to_string (N.succ_pos u);
  uuid_parse s := Pos.pred_N <$> pos_of_string s;
  uuid_parse_to_string := binary_uuid_law |}.

(** Layout trees as generic trees, which stdpp can encode as numbers. *)
Fixpoint layout_tree (n : LayoutNode) : gen_tree (N + Z) :=
  match n with
  | Leaf p => GenLeaf (inl (pane_uuid p))
  | HSplit cs => GenNode 0 (map (λ c, GenNode 2 [GenLeaf (inr c.2); layout_tree c.1]) cs)
  | VSplit cs => GenNode 1 (map (λ c, GenNode 2 [GenLeaf (inr c.2); layout_tree c.1]) cs)
  end.
Fixpoint layout_of_tree (t : gen_tree (N + Z)) : LayoutNode :=
  match t with
  | GenLeaf (inl u) => Leaf (MkPaneId u)
  | GenNode k ts =>
      let cs := map (λ t, match t with
                          | GenNode 2 [GenLeaf (inr w); t'] => (layout_of_tree t', w)
                          | _ => (Leaf (MkPaneId 0), 0%Z) end) ts in
      if decide (k = 0) then HSplit cs else VSplit cs
  | GenLeaf (inr _) => Leaf (MkPaneId 0)
  end.
Lemma layout_of_to_tree n : layout_of_tree (layout_tree n) = n.
Proof.
  induction n as [[u]|mk cs Hmk IH] using LayoutNode_ind'; [done|].
  split_kind Hmk; simpl; rewrite map_map; f_equal;
    induction IH as [|[c w] cs Hc IH IHcs]; simpl in *; try done; by rewrite Hc, IHcs.
Qed.

Lemma binary_json_law n :
  (layout_of_tree <$> (pos_of_string (pos_to_string (encode (layout_tree n))) ≫= decode)) = Some n.
Proof. rewrite pos_of_to_string. simpl. rewrite decode_encode. simpl. by rewrite layout_of_to_tree. Qed.
Definition binary_json : LayoutJson := {|
  layout_to_json n := pos_to_string (encode (layout_tree n));
  layout_from_json s := layout_of_tree <$> (pos_of_string s ≫= decode);
  layout_json_roundtrip := binary_json_law |}.

(** Insertion sort, stable. *)
Fixpoint insert_by {A} (key : A → Z) (x : A) (l : list A) : list A :=
  match l with
  | [] => [x]
  | y :: l' => if (key x <=? key y)%Z then x :: l else y :: insert_by key x l'
  end.
Definition sort_by {A} (key : A → Z) (l : list A) : list A := foldr (insert_by key) [] l.

Lemma insert_by_perm {A} (key : A → Z) x l : insert_by key x l ≡ₚ x :: l.
Proof. induction l as [|y l IH]; simpl; [done|]. case_match; [done|]. rewrite IH. by constructor. Qed.
Lemma sort_by_perm {A} (key : A → Z) l : sort_by key l ≡ₚ l.
Proof. induction l as [|x l IH]; simpl; [done|]. by rewrite insert_by_perm, IH. Qed.
Lemma insert_by_sorted {A} (key : A → Z) x l :
  StronglySorted (λ a b, (key a ≤ key b)%Z) l →
  StronglySorted (λ a b, (key a ≤ key b)%Z) (insert_by key x l).
Proof.
  induction 1 as [|y l Hs IH Hy]; simpl; [repeat constructor|].
  destruct (Z.leb_spec (key x) (key y)).
  - constructor; [by constructor|]. constructor; [lia|]. eapply Forall_impl; [exact Hy|]. simpl. lia.
  - constructor; [done|]. rewrite insert_by_perm. constructor; [lia|done].
Qed.
Lemma sort_by_sorted {A} (key : A → Z) l : StronglySorted (λ a b, (key a ≤ key b)%Z) (sort_by key l).
Proof. induction l; simpl; [constructor|]. by apply insert_by_sorted. Qed.

Definition stable_order : SqlOrder := {|
  order_by A := sort_by; order_by_perm A := sort_by_perm; order_by_sorted A := sort_by_sorted |}.

Definition no_compression : Zstd := {|
  zstd_compress bs := bs; zstd_decompress bs := Some bs; zstd_roundtrip bs := eq_refl |}.

(** The range of [DateTime<Utc>] of chrono 0.4, in milliseconds. *)
Definition chrono_0_4 : ChronoRange := {|
  chrono_ok ms := ((-8334601228800000 <=? ms) && (ms <=? 8210266876799999))%Z |}.
