(* ===== verification/Effects.v ===== *)
(** * Effects: the monad the stateful components are written in

    A computation of type [M S E A] runs from a state of type [S] to a new state
    and a result: Rust's [async fn] with [&self] state and [Result<A, E>]. A
    failure keeps the state changes made before it, as in the source. *)
From S2P Require Import Prelude.

Definition M (S E A : Type) : Type := S → S * result E A.

Section Monad.
Context {S E : Type}.

Definition ret {A} (a : A) : M S E A := λ s, (s, Ok a).
Definition throw {A} (e : E) : M S E A := λ s, (s, Err e).
Definition bind {A B} (m : M S E A) (k : A → M S E B) : M S E B :=
  λ s, let '(s', r) := m s in
       match r with Ok a => k a s' | Err e => (s', Err e) end.
Definition gets {A} (f : S → A) : M S E A := λ s, (s, Ok (f s)).
Definition modify (f : S → S) : M S E unit := λ s, (f s, Ok tt).
Definition of_result {A} (r : result E A) : M S E A := λ s, (s, r).
(** [option.ok_or_else(|| e)?] *)
Definition expect {A} (o : option A) (e : E) : M S E A := of_result (ok_or o e).
(** [if let Err(e) = m { warn }] *)
Definition attempt {A} (m : M S E A) : M S E unit := λ s, ((m s).1, Ok tt).

Fixpoint for_each {A} (f : A → M S E unit) (l : list A) : M S E unit :=
  match l with
  | [] => ret tt
  | x :: l' => bind (f x) (λ _, for_each f l')
  end.
End Monad.

(** Running a computation on a part of the state. *)
Definition zoom {S T E F A} (get : S → T) (put : T → S → S) (err : E → F) (m : M T E A) :
    M S F A :=
  λ s, let '(t, r) := m (get s) in (put t s, result_map_err err r).

Declare Scope effect_scope.
Delimit Scope effect_scope with effect.
Notation "'let!' x := e1 'in' e2" := (bind e1 (λ x, e2))
  (at level 10, x name, e1 at level 100, e2 at level 200) : effect_scope.
Notation "'do!' e1 'in' e2" := (bind e1 (λ _, e2))
  (at level 10, e1 at level 100, e2 at level 200) : effect_scope.
Open Scope effect_scope.

Section MonadLemmas.
Context {S E : Type}.
Implicit Types s : S.

Lemma bind_ok {A B} (m : M S E A) (k : A → M S E B) s s' a :
  m s = (s', Ok a) → bind m k s = k a s'.
Proof. intros H. unfold bind. by rewrite H. Qed.
Lemma bind_err {A B} (m : M S E A) (k : A → M S E B) s s' e :
  m s = (s', Err e) → bind m k s = (s', Err e).
Proof. intros H. unfold bind. by rewrite H. Qed.
Lemma bind_inv {A B} (m : M S E A) (k : A → M S E B) s s2 b :
  bind m k s = (s2, Ok b) → ∃ s1 a, m s = (s1, Ok a) ∧ k a s1 = (s2, Ok b).
Proof. unfold bind. destruct (m s) as [s1 [a|e]]; [eauto|done]. Qed.

(** Loop invariant. *)
Lemma for_each_inv {A} (I : list A → S → Prop) (f : A → M S E unit) l s s' :
  (∀ x rest s1 s2, I (x :: rest) s1 → f x s1 = (s2, Ok tt) → I rest s2) →
  I l s → for_each f l s = (s', Ok tt) → I [] s'.
Proof.
  intros Hstep. revert s. induction l as [|x l IH]; intros s HI Hrun; cbn [for_each] in Hrun.
  - injection Hrun as <-. done.
  - apply bind_inv in Hrun as (s1 & [] & H1 & H2). eapply IH; [|exact H2]. by eapply Hstep.
Qed.

(** A predicate every step keeps, whatever fails. *)
Definition keeps {A} (I : S → Prop) (m : M S E A) : Prop := ∀ s, I s → I (m s).1.

Lemma keeps_ret {A} I (a : A) : keeps I (ret a).
Proof. by intros s. Qed.
Lemma keeps_throw {A} I (e : E) : keeps (A := A) I (throw e).
Proof. by intros s. Qed.
Lemma keeps_gets {A} I (f : S → A) : keeps I (gets f).
Proof. by intros s. Qed.
Lemma keeps_of_result {A} I (r : result E A) : keeps I (of_result r).
Proof. by intros s. Qed.
Lemma keeps_expect {A} I (o : option A) (e : E) : keeps I (expect o e).
Proof. by intros s. Qed.
Lemma keeps_bind {A B} I (m : M S E A) (k : A → M S E B) :
  keeps I m → (∀ a, keeps I (k a)) → keeps I (bind m k).
Proof.
  intros Hm Hk s Hs. specialize (Hm s Hs). unfold bind.
  destruct (m s) as [s' [a|e]]; [by apply Hk|done].
Qed.
Lemma keeps_attempt {A} I (m : M S E A) : keeps I m → keeps I (attempt m).
Proof. intros Hm s Hs. by apply Hm. Qed.
Lemma keeps_for_each {A} I (f : A → M S E unit) l : (∀ x, keeps I (f x)) → keeps I (for_each f l).
Proof.
  intros Hf. induction l as [|x l IH]; cbn [for_each]; [apply keeps_ret|].
  apply keeps_bind; [apply Hf|]. by intros _.
Qed.
End MonadLemmas.

(** ** Hoare triples: [Q] after success, [X] after failure. *)
Section Triples.
Context {S E : Type}.
Implicit Types P X : S → Prop.

Definition triple {A} P (m : M S E A) (Q : A → S → Prop) X : Prop :=
  ∀ s, P s → match m s with (s', Ok a) => Q a s' | (s', Err _) => X s' end.

Lemma triple_bind {A B} P (m : M S E A) (k : A → M S E B) R Q X :
  triple P m R X → (∀ a, triple (R a) (k a) Q X) → triple P (bind m k) Q X.
Proof.
  intros Hm Hk s Hs. specialize (Hm s Hs). unfold bind.
  destruct (m s) as [s' [a|e]]; [|done]. exact (Hk a s' Hm).
Qed.
Lemma triple_ret {A} P (a : A) Q X : (∀ s, P s → Q a s) → triple P (ret a) Q X.
Proof. intros HQ s Hs. by apply HQ. Qed.
Lemma triple_throw {A} P (e : E) (Q : A → S → Prop) X :
  (∀ s, P s → X s) → triple P (throw e) Q X.
Proof. intros HQ s Hs. by apply HQ. Qed.
Lemma triple_gets {A} P (f : S → A) Q X : (∀ s, P s → Q (f s) s) → triple P (gets f) Q X.
Proof. intros HQ s Hs. by apply HQ. Qed.
Lemma triple_modify P f (Q : unit → S → Prop) X :
  (∀ s, P s → Q tt (f s)) → triple P (modify f) Q X.
Proof. intros HQ s Hs. by apply HQ. Qed.
Lemma triple_expect {A} P (o : option A) (e : E) (Q : A → S → Prop) X :
  (∀ a s, o = Some a → P s → Q a s) → (∀ s, P s → X s) → triple P (expect o e) Q X.
Proof. intros HQ HX s Hs. unfold expect, of_result. destruct o; cbn; auto. Qed.
Lemma triple_attempt {A} P (m : M S E A) (Q : unit → S → Prop) X :
  triple P m (λ _, Q tt) (Q tt) → triple P (attempt m) Q X.
Proof. intros Hm s Hs. specialize (Hm s Hs). unfold attempt. by destruct (m s) as [s' [a|e]]. Qed.
Lemma triple_conseq {A} P P' (m : M S E A) Q Q' X X' :
  triple P m Q X → (∀ s, P' s → P s) → (∀ a s, Q a s → Q' a s) → (∀ s, X s → X' s) →
  triple P' m Q' X'.
Proof.
  intros Hm HP HQ HX s Hs. specialize (Hm s (HP s Hs)). destruct (m s) as [s' [a|e]]; auto.
Qed.
Lemma triple_for_each {A} (I : S → Prop) (f : A → M S E unit) l X :
  (∀ x, triple I (f x) (λ _, I) X) → triple I (for_each f l) (λ _, I) X.
Proof.
  intros Hf. induction l as [|x l IH]; cbn [for_each].
  - by apply triple_ret.
  - eapply triple_bind; [apply Hf|]. intros []. exact IH.
Qed.
(** A fact about the values at hand. *)
Lemma triple_pure {A} (φ : Prop) P (m : M S E A) Q X :
  (φ → triple P m Q X) → triple (λ s, P s ∧ φ) m Q X.
Proof. intros Hm s [Hs Hφ]. by apply (Hm Hφ). Qed.
(** What holds whether the computation succeeds or fails. *)
Lemma triple_state {A} P (m : M S E A) I :
  triple P m (λ _, I) I → ∀ s, P s → I (m s).1.
Proof. intros Hm s Hs. specialize (Hm s Hs). by destruct (m s) as [s' [a|e]]. Qed.
End Triples.

Create HintDb effects.
#[export] Hint Resolve keeps_ret keeps_throw keeps_gets keeps_of_result keeps_expect
  keeps_bind keeps_attempt keeps_for_each : effects.
