(* ===== verification/Store.v ===== *)
(** * Store: the persistent store (pyred/src/store.rs, pyred/migrations)

    The four SQLite tables are maps from the text of a row's primary key to its
    other columns. A statement is a function on the database; [env_fault] says
    which statements fail, so that every method is modelled with the failures of
    each of its statements. [Utc::now] and [Uuid::new_v4] read from the supplies of
    the environment. *)
From Stdlib Require Import Strings.Byte.
From S2P Require Import Prelude Proto Text Layout Libraries Effects.
Local Open Scope Z_scope.

Module Store.

(** ** Rows (the columns of migrations 0001 to 0004) *)
Record SessionRow := MkSessionRow {
  sr_name : string; sr_created_at : Z; sr_last_active_at : Z; sr_layout : option string }.
Record PaneRow := MkPaneRow {
  pr_session_id : string; pr_argv : string; pr_cwd : option string; pr_cols : Z; pr_rows : Z;
  pr_created_at : Z; pr_closed_at : option Z; pr_name : option string; pr_window_id : option string }.
Record BlockRow := MkBlockRow {
  br_pane_id : string; br_session_id : string; br_command : string; br_started_at : Z;
  br_ended_at : option Z; br_exit_code : option Z; br_cwd : option string;
  br_stdout_blob_path : string; br_stdout_len : Z }.
Record WindowRow := MkWindowRow {
  wr_session_id : string; wr_name : string; wr_layout : option string; wr_position : Z;
  wr_created_at : Z }.

Record Db := MkDb {
  db_sessions : gmap string SessionRow;
  db_panes : gmap string PaneRow;
  db_blocks : gmap string BlockRow;
  db_windows : gmap string WindowRow }.

(** A blob file: being written, or finished with its compressed bytes. *)
Inductive BlobFile := Unfinished | Finished (bytes : Bytes).

Record Env := MkEnv {
  env_fault : nat → bool;
  env_uuid : nat → Uuid;
  env_clock : nat → DateTime }.

Record St := MkSt {
  st_stmts : nat;       (** statements run so far *)
  st_uuids : nat;       (** identifiers drawn so far *)
  st_clocks : nat;      (** clock readings so far *)
  st_db : Db;
  st_blobs : gmap string BlobFile;
  st_data_dir : string }.

Inductive StoreError :=
  | SqlFailed              (** the database refused the statement *)
  | UniqueViolation        (** INSERT of an existing primary key *)
  | BadUuid (s : string)
  | BadBlob.

Definition S (A : Type) : Type := M St StoreError A.

Section Store.
Context `{UuidText, LayoutJson, SqlOrder, Zstd, ChronoRange}.
Context (env : Env).

(** ** Statements *)
Definition after_stmt (db : Db) (st : St) : St :=
  MkSt (st_stmts st + 1) (st_uuids st) (st_clocks st) db (st_blobs st) (st_data_dir st).

Definition query {A} (f : Db → result StoreError (Db * A)) : S A :=
  λ st, if env_fault env (st_stmts st) then (after_stmt (st_db st) st, Err SqlFailed)
        else match f (st_db st) with
             | Ok (db, a) => (after_stmt db st, Ok a)
             | Err e => (after_stmt (st_db st) st, Err e)
             end.
Definition execute (f : Db → Db) : S unit := query (λ db, Ok (f db, tt)).
Definition fetch {A} (f : Db → A) : S A := query (λ db, Ok (db, f db)).

Definition now : S DateTime :=
  λ st, (MkSt (st_stmts st) (st_uuids st) (st_clocks st + 1) (st_db st) (st_blobs st) (st_data_dir st),
         Ok (env_clock env (st_clocks st))).
Definition new_uuid : S Uuid :=
  λ st, (MkSt (st_stmts st) (st_uuids st + 1) (st_clocks st) (st_db st) (st_blobs st) (st_data_dir st),
         Ok (env_uuid env (st_uuids st))).
Definition now_millis : S Z := let! t := now in ret (timestamp_millis t).

Definition with_sessions (f : gmap string SessionRow → gmap string SessionRow) (db : Db) : Db :=
  MkDb (f (db_sessions db)) (db_panes db) (db_blocks db) (db_windows db).
Definition with_panes (f : gmap string PaneRow → gmap string PaneRow) (db : Db) : Db :=
  MkDb (db_sessions db) (f (db_panes db)) (db_blocks db) (db_windows db).
Definition with_blocks (f : gmap string BlockRow → gmap string BlockRow) (db : Db) : Db :=
  MkDb (db_sessions db) (db_panes db) (f (db_blocks db)) (db_windows db).
Definition with_windows (f : gmap string WindowRow → gmap string WindowRow) (db : Db) : Db :=
  MkDb (db_sessions db) (db_panes db) (db_blocks db) (f (db_windows db)).

Definition session_key (id : SessionId) : string := uuid_to_string (session_uuid id).
Definition pane_key (id : PaneId) : string := uuid_to_string (pane_uuid id).
Definition block_key (id : BlockId) : string := uuid_to_string (block_uuid id).
Definition window_key (id : WindowId) : string := uuid_to_string (window_uuid id).

(** SELECT ... WHERE ... ORDER BY key, rows with their primary key. *)
Definition select {R} (where_ : string → R → bool) (key : string * R → Z) (m : gmap string R) :
    list (string * R) :=
  order_by key (filter (λ kr, where_ kr.1 kr.2 = true) (map_to_list m)).

(** [u64 as i64] *)
Definition as_i64 (z : Z) : Z := (z + 2 ^ 63) mod 2 ^ 64 - 2 ^ 63.

(** ** Sessions *)
Definition upsert_session (id : SessionId) (name : string) : S unit :=
  let! t := now_millis in
  execute (with_sessions (λ m,
    <[session_key id :=
        match m !! session_key id with
        | Some r => MkSessionRow name (sr_created_at r) t (sr_layout r)
        | None => MkSessionRow name t t None
        end]> m)).

Definition upsert_session_layout (id : SessionId) (layout_json : string) : S unit :=
  execute (with_sessions (alter (λ r,
    MkSessionRow (sr_name r) (sr_created_at r) (sr_last_active_at r) (Some layout_json)) (session_key id))).

Definition get_session_layout_json (id : SessionId) : S (option string) :=
  fetch (λ db, db_sessions db !! session_key id ≫= sr_layout).

Definition list_session_layouts : S (list (SessionId * option string)) :=
  let! rows := fetch (λ db, select (λ _ _, true) (λ kr, sr_created_at kr.2) (db_sessions db)) in
  ret (omap (λ kr, (λ u, (MkSessionId u, sr_layout kr.2)) <$> uuid_parse kr.1) rows).

Definition get_session_name (id : SessionId) : S (option string) :=
  fetch (λ db, sr_name <$> db_sessions db !! session_key id).

Definition list_session_ids : S (list SessionId) :=
  let! rows := fetch (λ db, select (λ _ _, true) (λ kr, sr_created_at kr.2) (db_sessions db)) in
  ret (omap (λ kr, MkSessionId <$> uuid_parse kr.1) rows).

(** ** Panes *)
Definition upsert_pane (id : PaneId) (session : SessionId) (argv : string) (cwd : option PathBuf)
    (cols rows : Z) : S unit :=
  let! t := now_millis in
  execute (with_panes (λ m,
    <[pane_key id :=
        match m !! pane_key id with
        | Some r => MkPaneRow (pr_session_id r) (pr_argv r) cwd cols rows (pr_created_at r)
                      (pr_closed_at r) (pr_name r) (pr_window_id r)
        | None => MkPaneRow (session_key session) argv cwd cols rows t None None None
        end]> m)).

(** INSERT OR IGNORE of a stub row. *)
Definition ensure_pane_row (id : PaneId) (session : SessionId) (t : Z) : S unit :=
  execute (with_panes (λ m,
    match m !! pane_key id with
    | Some _ => m
    | None => <[pane_key id := MkPaneRow (session_key session) "" None 0 0 t None None None]> m
    end)).

Definition set_pane_name (name : string) (r : PaneRow) : PaneRow :=
  MkPaneRow (pr_session_id r) (pr_argv r) (pr_cwd r) (pr_cols r) (pr_rows r) (pr_created_at r)
    (pr_closed_at r) (Some name) (pr_window_id r).
Definition set_pane_window (w : string) (r : PaneRow) : PaneRow :=
  MkPaneRow (pr_session_id r) (pr_argv r) (pr_cwd r) (pr_cols r) (pr_rows r) (pr_created_at r)
    (pr_closed_at r) (pr_name r) (Some w).

Definition rename_pane (id : PaneId) (session : SessionId) (name : string) : S unit :=
  let! t := now_millis in
  do! ensure_pane_row id session t in
  execute (with_panes (alter (set_pane_name name) (pane_key id))).

Definition nonempty (o : option string) : option string :=
  match o with Some n => if decide (n = "") then None else Some n | None => None end.

Definition get_pane_name (id : PaneId) : S (option string) :=
  fetch (λ db, nonempty (db_panes db !! pane_key id ≫= pr_name)).

Definition assign_pane_window (pane : PaneId) (session : SessionId) (window : WindowId) : S unit :=
  let! t := now_millis in
  do! ensure_pane_row pane session t in
  execute (with_panes (alter (set_pane_window (window_key window)) (pane_key pane))).

Definition list_panes_for_window (window : WindowId) : S (list PaneId) :=
  let! rows := fetch (λ db,
    select (λ _ r, bool_decide (pr_window_id r = Some (window_key window))) (λ _, 0) (db_panes db)) in
  ret (omap (λ kr, MkPaneId <$> uuid_parse kr.1) rows).

(** ** Blocks *)
Definition path_join (a b : string) : string :=
  if String.prefix "/" b then b else if decide (a = "") then b
  else if bool_decide (last (str_bytes a) = Some x2f) then (a +:+ b)%string else (a +:+ "/" +:+ b)%string.

Definition blob_path_for (data_dir : string) (id : BlockId) : string :=
  path_join (path_join data_dir "blocks") (block_key id +:+ ".zst").

Definition create_block (block : Block) : S unit :=
  let! dir := gets st_data_dir in
  query (λ db,
    match db_blocks db !! block_key (blk_id block) with
    | Some _ => Err UniqueViolation
    | None => Ok (with_blocks (<[block_key (blk_id block) :=
        MkBlockRow (pane_key (blk_pane block)) (session_key (blk_session block)) (blk_command block)
          (timestamp_millis (blk_started_at block)) None None (blk_cwd block)
          (blob_path_for dir (blk_id block)) 0]>) db, tt)
    end).

Definition finalize_row (ended_at : Z) (exit : option Z) (stdout_len : Z) (r : BlockRow) : BlockRow :=
  MkBlockRow (br_pane_id r) (br_session_id r) (br_command r) (br_started_at r) (Some ended_at)
    exit (br_cwd r) (br_stdout_blob_path r) (as_i64 stdout_len).

Definition finalize_block (id : BlockId) (ended_at : DateTime) (exit : option Z) (stdout_len : Z) :
    S unit :=
  execute (with_blocks (alter (finalize_row (timestamp_millis ended_at) exit stdout_len) (block_key id))).

(** [Utc.timestamp_millis_opt(ms).single()] *)
Definition timestamp_millis_opt (ms : Z) : option DateTime :=
  if chrono_ok ms then Some (from_timestamp_millis ms) else None.

Definition parse_id (s : string) : S Uuid := expect (uuid_parse s) (BadUuid s).

Definition row_to_block (kr : string * BlockRow) : S Block :=
  let r := kr.2 in
  let! id := parse_id kr.1 in
  let! pane := parse_id (br_pane_id r) in
  let! session := parse_id (br_session_id r) in
  let! started :=
    match timestamp_millis_opt (br_started_at r) with Some t => ret t | None => now end in
  ret (MkBlock (MkBlockId id) (MkPaneId pane) (MkSessionId session) (br_command r) (br_cwd r)
    started (br_ended_at r ≫= timestamp_millis_opt) (wrap_i32 <$> br_exit_code r)
    (Z.max 0 (br_stdout_len r))).

(** [rows.into_iter().map(row_to_block).collect()] *)
Fixpoint rows_to_blocks (rows : list (string * BlockRow)) : S (list Block) :=
  match rows with
  | [] => ret []
  | r :: rows' =>
      let! b := row_to_block r in let! bs := rows_to_blocks rows' in ret (b :: bs)
  end.

(** ORDER BY started_at DESC LIMIT. *)
Definition newest (where_ : BlockRow → bool) (limit : Z) (m : gmap string BlockRow) :
    list (string * BlockRow) :=
  take (Z.to_nat limit) (select (λ _, where_) (λ kr, - br_started_at kr.2) m).

Definition list_blocks (session : option SessionId) (limit : Z) : S (list Block) :=
  let! rows :=
    match session with
    | Some s => fetch (λ db,
        newest (λ r, bool_decide (br_session_id r = session_key s)) limit (db_blocks db))
    | None => fetch (λ db, newest (λ _, true) limit (db_blocks db))
    end in
  rows_to_blocks rows.

Definition list_blocks_for_pane (pane : PaneId) (limit : Z) : S (list Block) :=
  let! rows := fetch (λ db,
    newest (λ r, bool_decide (br_pane_id r = pane_key pane)) limit (db_blocks db)) in
  rows_to_blocks rows.

Definition get_block (id : BlockId) : S (option Block) :=
  let! row := fetch (λ db, db_blocks db !! block_key id) in
  match row with
  | Some r => let! b := row_to_block (block_key id, r) in ret (Some b)
  | None => ret None
  end.

Definition count_blocks : S Z := fetch (λ db, Z.of_nat (size (db_blocks db))).

(** ** Windows *)
Definition upsert_window (id : WindowId) (session : SessionId) (name : string)
    (position created_at : Z) : S unit :=
  execute (with_windows (λ m,
    <[window_key id :=
        match m !! window_key id with
        | Some r => MkWindowRow (wr_session_id r) name (wr_layout r) position (wr_created_at r)
        | None => MkWindowRow (session_key session) name None position created_at
        end]> m)).

Definition set_window_layout (json : string) (r : WindowRow) : WindowRow :=
  MkWindowRow (wr_session_id r) (wr_name r) (Some json) (wr_position r) (wr_created_at r).
Definition set_window_name (name : string) (r : WindowRow) : WindowRow :=
  MkWindowRow (wr_session_id r) name (wr_layout r) (wr_position r) (wr_created_at r).

Definition upsert_window_layout (id : WindowId) (layout_json : string) : S unit :=
  execute (with_windows (alter (set_window_layout layout_json) (window_key id))).

Definition get_window_layout_json (id : WindowId) : S (option string) :=
  fetch (λ db, db_windows db !! window_key id ≫= wr_layout).

Definition list_windows (session : SessionId) : S (list (WindowId * string * Z)) :=
  let! rows := fetch (λ db,
    select (λ _ r, bool_decide (wr_session_id r = session_key session))
      (λ kr, wr_position kr.2) (db_windows db)) in
  ret (omap (λ kr, (λ u, (MkWindowId u, wr_name kr.2, wrap_u32 (Z.max 0 (wr_position kr.2))))
                   <$> uuid_parse kr.1) rows).

Definition rename_window (id : WindowId) (name : string) : S unit :=
  execute (with_windows (alter (set_window_name name) (window_key id))).

Definition get_window_name (id : WindowId) : S (option string) :=
  fetch (λ db, nonempty (wr_name <$> db_windows db !! window_key id)).

Definition delete_window (id : WindowId) : S unit :=
  execute (with_windows (delete (window_key id))).

(** ** Blobs *)
Record BlobWriter := MkBlobWriter { bw_path : string; bw_enc : option Bytes; bw_len : Z }.

Definition set_blob (path : string) (f : BlobFile) (st : St) : St :=
  MkSt (st_stmts st) (st_uuids st) (st_clocks st) (st_db st) (<[path := f]> (st_blobs st))
    (st_data_dir st).

(** [io] says whether the file operations succeed. *)
Definition blob_open (io : bool) (path : string) : S BlobWriter :=
  if io then do! modify (set_blob path Unfinished) in ret (MkBlobWriter path (Some []) 0)
  else throw BadBlob.
Definition blob_write (io : bool) (bytes : Bytes) (bw : BlobWriter) : result StoreError BlobWriter :=
  match bw_enc bw with
  | Some data =>
      if io then Ok (MkBlobWriter (bw_path bw) (Some (data ++ bytes))
                       (wrap_u64 (bw_len bw + Z.of_nat (length bytes))))
      else Err BadBlob
  | None => Ok bw
  end.
Definition blob_close (io : bool) (bw : BlobWriter) : S Z :=
  match bw_enc bw with
  | Some data =>
      if io then do! modify (set_blob (bw_path bw) (Finished (zstd_compress data))) in ret (bw_len bw)
      else throw BadBlob
  | None => ret (bw_len bw)
  end.

(** Reading a blob another task is still writing fails or gives a prefix: the
    outcome is [partial]. *)
Definition read_block_stdout (partial : result StoreError Bytes) (id : BlockId) : S Bytes :=
  let! st := gets (λ st, st) in
  match st_blobs st !! blob_path_for (st_data_dir st) id with
  | None => ret []
  | Some Unfinished => of_result partial
  | Some (Finished z) => expect (zstd_decompress z) BadBlob
  end.

(** [char::from(b)], with line breaks and tabs as spaces; as characters. *)
Definition snippet_char (b : Byte.byte) : Z :=
  if bool_decide (b = x0a ∨ b = x0d ∨ b = x09) then 32 else byte_to_Z b.
Definition stdout_snippet (partial : result StoreError Bytes) (id : BlockId) (max_chars : Z) :
    St → string :=
  λ st, match (read_block_stdout partial id st).2 with
        | Ok bytes => of_chars (take (Z.to_nat max_chars) (snippet_char <$> bytes))
        | Err _ => ""
        end.

(** ** Opening the store *)
Definition resolve_data_dir (env_dir data_home : option string) : string :=
  match env_dir with
  | Some p => p
  | None => path_join (default "/tmp" data_home) "pyre"
  end.

(** Giving a standalone pane its own window. *)
Definition backfill_pane (sid : SessionId) (t : Z) (kp : nat * (string * PaneRow)) : S unit :=
  let '(k, (pid_str, prow)) := kp in
  match uuid_parse pid_str with
  | None => ret tt
  | Some pid =>
      let! wk := new_uuid in
      let win_name := default (bytes_str (show_uint (Z.of_nat k + 1))) (nonempty (pr_name prow)) in
      do! execute (with_windows (λ m,
            <[uuid_to_string wk :=
                match m !! uuid_to_string wk with
                | Some r => set_window_name win_name r
                | None => MkWindowRow (session_key sid) win_name None (Z.of_nat k + 1) t
                end]> m)) in
      do! execute (with_windows (alter (set_window_layout (layout_to_json (Leaf (MkPaneId pid))))
                                       (uuid_to_string wk))) in
      execute (with_panes (alter (set_pane_window (uuid_to_string wk)) (uuid_to_string pid)))
  end.

Definition tree_panes (layout_json : option string) : list PaneId :=
  match layout_json ≫= layout_from_json with Some node => all_leaves node | None => [] end.

Definition backfill_session (kr : string * SessionRow) : S unit :=
  let '(sid_str, row) := kr in
  match uuid_parse sid_str with
  | None => ret tt
  | Some u =>
      let sid := MkSessionId u in
      let! t := now_millis in
      let tree := tree_panes (sr_layout row) in
      let! w0 := new_uuid in
      do! execute (with_windows (λ m,
            <[uuid_to_string w0 :=
                match m !! uuid_to_string w0 with
                | Some r => set_window_name "1" r
                | None => MkWindowRow (session_key sid) "1" None 0 t
                end]> m)) in
      do! match sr_layout row with
          | Some json =>
              execute (with_windows (alter (set_window_layout json) (uuid_to_string w0)))
          | None => ret tt
          end in
      do! (if decide (tree = []) then ret tt
           else execute (with_panes (map_imap (λ k r, Some
                  (if bool_decide (pr_session_id r = session_key sid)
                      && bool_decide (k ∈ (pane_key <$> tree))
                   then set_pane_window (uuid_to_string w0) r else r))))) in
      let! standalone := fetch (λ db,
        select (λ _ r, bool_decide (pr_session_id r = session_key sid)
                       && bool_decide (pr_window_id r = None))
          (λ kr, pr_created_at kr.2) (db_panes db)) in
      for_each (backfill_pane sid t) (imap pair standalone)
  end.

Definition backfill_windows : S unit :=
  let! win_count := fetch (λ db, size (db_windows db)) in
  let! sess_count := fetch (λ db, size (db_sessions db)) in
  if (0 <? Z.of_nat win_count) || (Z.of_nat sess_count =? 0) then ret tt
  else
    let! rows := fetch (λ db, select (λ _ _, true) (λ kr, sr_created_at kr.2) (db_sessions db)) in
    for_each backfill_session rows.

(** Blocks a killed daemon left running are stamped as ended. *)
Definition reconcile_row (t : Z) (r : BlockRow) : BlockRow :=
  match br_ended_at r with
  | None => MkBlockRow (br_pane_id r) (br_session_id r) (br_command r) (br_started_at r) (Some t)
              None (br_cwd r) (br_stdout_blob_path r) (br_stdout_len r)
  | Some _ => r
  end.
Definition boot_reconcile : S unit :=
  let! t := now_millis in execute (with_blocks (fmap (reconcile_row t))).

(** [open] after the schema is in place: backfill, then reconcile. *)
Definition open_store : S unit := do! backfill_windows in boot_reconcile.

End Store.
End Store.
