(* ===== verification/StoreBlocks.v ===== *)
(** * StoreBlocks: what the store promises about command blocks

    A block that was created and finalized is read back with its data however
    many other operations run, and fail, in between; listings return the newest
    blocks in order; the reconciliation at start closes exactly the blocks a
    killed daemon left open. *)
From Stdlib Require Import Strings.Byte.
From S2P Require Import Prelude Proto Text Layout Libraries Effects Store.
Local Open Scope Z_scope.

Import Store.

(** ** The operations that change the store *)
Inductive StoreOp :=
  | OUpsertSession (id : SessionId) (name : string)
  | OSessionLayout (id : SessionId) (json : string)
  | OUpsertPane (id : PaneId) (s : SessionId) (argv : string) (cwd : option PathBuf) (cols rows : Z)
  | ORenamePane (id : PaneId) (s : SessionId) (name : string)
  | OAssignPane (id : PaneId) (s : SessionId) (w : WindowId)
  | OCreateBlock (b : Block)
  | OFinalizeBlock (id : BlockId) (ended_at : DateTime) (exit : option Z) (len : Z)
  | OUpsertWindow (id : WindowId) (s : SessionId) (name : string) (pos created : Z)
  | OWindowLayout (id : WindowId) (json : string)
  | ORenameWindow (id : WindowId) (name : string)
  | ODeleteWindow (id : WindowId).

Section Blocks.
Context `{UuidText, LayoutJson, SqlOrder, Zstd, ChronoRange}.
Context (env : Env).

Definition run_op (op : StoreOp) : S unit :=
  match op with
  | OUpsertSession id n => upsert_session env id n
  | OSessionLayout id j => upsert_session_layout env id j
  | OUpsertPane id s a c co ro => upsert_pane env id s a c co ro
  | ORenamePane id s n => rename_pane env id s n
  | OAssignPane id s w => assign_pane_window env id s w
  | OCreateBlock b => create_block env b
  | OFinalizeBlock id e x l => finalize_block env id e x l
  | OUpsertWindow id s n p c => upsert_window env id s n p c
  | OWindowLayout id j => upsert_window_layout env id j
  | ORenameWindow id n => rename_window env id n
  | ODeleteWindow id => delete_window env id
  end.

(** A sequence of operations; each may fail and the next still runs. *)
Definition run_ops (ops : list StoreOp) (st : St) : St :=
  fold_left (λ st op, (run_op op st).1) ops st.

Definition touches (id : BlockId) (op : StoreOp) : bool :=
  match op with
  | OCreateBlock b => bool_decide (blk_id b = id)
  | OFinalizeBlock id' _ _ _ => bool_decide (id' = id)
  | _ => false
  end.

(** ** Running statements *)
Lemma execute_cases f st :
  execute env f st = (after_stmt (st_db st) st, Err SqlFailed) ∨
  execute env f st = (after_stmt (f (st_db st)) st, Ok tt).
Proof. unfold execute, query. destruct (env_fault env (st_stmts st)); auto. Qed.

Lemma keeps_query {A} (P : Db → Prop) (f : Db → result StoreError (Db * A)) :
  (∀ db db' a, P db → f db = Ok (db', a) → P db') → keeps (λ st, P (st_db st)) (query env f).
Proof.
  intros Hf st Hst. unfold query. destruct (env_fault env _); [done|].
  destruct (f (st_db st)) as [[db' a]|e] eqn:E; [by eapply Hf|done].
Qed.

Lemma keeps_execute (P : Db → Prop) f :
  (∀ db, P db → P (f db)) → keeps (λ st, P (st_db st)) (execute env f).
Proof. intros Hf. apply keeps_query. intros db db' a Hp [= <- <-]. auto. Qed.

Lemma keeps_now_millis (P : Db → Prop) : keeps (λ st, P (st_db st)) (now_millis env).
Proof. by intros st Hst. Qed.

Lemma block_key_inj id id' : block_key id = block_key id' → id = id'.
Proof. destruct id, id'. unfold block_key. simpl. intros E. f_equal. by apply (inj uuid_to_string). Qed.

(** Operations on sessions, panes and windows leave the blocks alone. *)
Lemma run_op_keeps (P : gmap string BlockRow → Prop) op :
  (∀ b m dir, op = OCreateBlock b → P m → m !! block_key (blk_id b) = None →
     P (<[block_key (blk_id b) := MkBlockRow (pane_key (blk_pane b)) (session_key (blk_session b))
           (blk_command b) (timestamp_millis (blk_started_at b)) None None (blk_cwd b)
           (blob_path_for dir (blk_id b)) 0]> m)) →
  (∀ id e x l m, op = OFinalizeBlock id e x l → P m →
     P (alter (finalize_row (timestamp_millis e) x l) (block_key id) m)) →
  keeps (λ st, P (db_blocks (st_db st))) (run_op op).
Proof.
  intros Hc Hf.
  destruct op; cbn [run_op];
    unfold upsert_session, upsert_session_layout, upsert_pane, rename_pane, assign_pane_window,
      ensure_pane_row, upsert_window, upsert_window_layout, rename_window, delete_window,
      finalize_block, create_block;
    repeat (apply keeps_bind; [first [apply (keeps_now_millis (λ db, P (db_blocks db)))
                                     |apply keeps_gets
                                     |apply (keeps_execute (λ db, P (db_blocks db))); by intros []]|intros ?]);
    try (apply (keeps_execute (λ db, P (db_blocks db))); by intros []).
  - apply (keeps_query (λ db, P (db_blocks db))). intros db db' u Hp.
    destruct (db_blocks db !! _) eqn:E; [done|]. intros [= <- <-]. cbn. by eapply Hc.
  - apply (keeps_execute (λ db, P (db_blocks db))). intros db Hp. cbn. by apply Hf.
Qed.

Lemma run_ops_keeps (I : St → Prop) ops st :
  (∀ op, op ∈ ops → keeps I (run_op op)) → I st → I (run_ops ops st).
Proof.
  revert st. induction ops as [|op ops IH]; intros st Hk Hst; [done|]. cbn.
  apply IH; [|apply Hk; [by left|done]]. intros op' Hin. apply Hk. by right.
Qed.

(** The row of a block is untouched by the operations of others. *)
Lemma run_ops_frame id ops row st :
  Forall (λ op, touches id op = false) ops →
  db_blocks (st_db st) !! block_key id = Some row →
  db_blocks (st_db (run_ops ops st)) !! block_key id = Some row.
Proof.
  intros Hops. apply (run_ops_keeps (λ st, db_blocks (st_db st) !! block_key id = Some row)).
  intros op Hin. rewrite Forall_forall in Hops. specialize (Hops op Hin).
  apply (run_op_keeps (λ m, m !! block_key id = Some row)).
  - intros b m dir -> Hm Hnew. rewrite lookup_insert_ne; [done|].
    intros E. apply block_key_inj in E. cbn in Hops. by rewrite bool_decide_eq_true_2 in Hops.
  - intros id' e x l m -> Hm. rewrite lookup_alter_ne; [done|].
    intros E. apply block_key_inj in E. cbn in Hops. by rewrite bool_decide_eq_true_2 in Hops.
Qed.

(** ** Rows and blocks *)
Definition row_ok (r : BlockRow) : Prop :=
  is_Some (uuid_parse (br_pane_id r)) ∧ is_Some (uuid_parse (br_session_id r)) ∧
  chrono_ok (br_started_at r) = true.
Definition blocks_ok (m : gmap string BlockRow) : Prop :=
  map_Forall (λ k r, is_Some (uuid_parse k) ∧ row_ok r) m.

(** The block a well-formed row denotes. *)
Definition block_of (kr : string * BlockRow) : Block :=
  MkBlock (MkBlockId (default 0%N (uuid_parse kr.1)))
    (MkPaneId (default 0%N (uuid_parse (br_pane_id kr.2))))
    (MkSessionId (default 0%N (uuid_parse (br_session_id kr.2)))) (br_command kr.2) (br_cwd kr.2)
    (from_timestamp_millis (br_started_at kr.2)) (br_ended_at kr.2 ≫= timestamp_millis_opt)
    (wrap_i32 <$> br_exit_code kr.2) (Z.max 0 (br_stdout_len kr.2)).

Lemma row_to_block_ok k r st :
  is_Some (uuid_parse k) → row_ok r → row_to_block env (k, r) st = (st, Ok (block_of (k, r))).
Proof.
  intros [u Hu] ([p Hp] & [s Hs] & Hc).
  unfold row_to_block, parse_id, expect, of_result, bind, ok_or, timestamp_millis_opt, block_of.
  cbn [fst snd]. by rewrite Hu, Hp, Hs, Hc.
Qed.

Lemma rows_to_blocks_ok rows st :
  Forall (λ kr, is_Some (uuid_parse kr.1) ∧ row_ok kr.2) rows →
  rows_to_blocks env rows st = (st, Ok (block_of <$> rows)).
Proof.
  induction 1 as [|[k r] rows [Hk Hr] Hrows IH]; [done|]. cbn [rows_to_blocks].
  rewrite (bind_ok _ _ _ _ _ (row_to_block_ok k r st Hk Hr)).
  by rewrite (bind_ok _ _ _ _ _ IH).
Qed.

Lemma create_row_ok b dir :
  chrono_ok (timestamp_millis (blk_started_at b)) = true →
  is_Some (uuid_parse (block_key (blk_id b))) ∧
  row_ok (MkBlockRow (pane_key (blk_pane b)) (session_key (blk_session b)) (blk_command b)
    (timestamp_millis (blk_started_at b)) None None (blk_cwd b) (blob_path_for dir (blk_id b)) 0).
Proof.
  intros Hc. unfold row_ok, block_key, pane_key, session_key. cbn.
  rewrite !uuid_parse_to_string. by repeat split; eauto.
Qed.

Definition start_in_range (op : StoreOp) : bool :=
  match op with OCreateBlock b => chrono_ok (timestamp_millis (blk_started_at b)) | _ => true end.

(** Every block row the daemon writes can be read back. *)
Lemma run_ops_blocks_ok ops st :
  forallb start_in_range ops = true → blocks_ok (db_blocks (st_db st)) →
  blocks_ok (db_blocks (st_db (run_ops ops st))).
Proof.
  rewrite forallb_forall. intros Hops. apply (run_ops_keeps (λ st, blocks_ok (db_blocks (st_db st)))).
  intros op Hin. apply list_elem_of_In, Hops in Hin.
  apply (run_op_keeps blocks_ok).
  - intros b m dir -> Hm Hnew. apply map_Forall_insert_2; [by apply create_row_ok|done].
  - intros id e x l m -> Hm k r. destruct (decide (k = block_key id)) as [->|Hne].
    + rewrite lookup_alter_eq. intros Hr. apply fmap_Some in Hr as (r0 & Hr0 & ->).
      exact (Hm _ _ Hr0).
    + rewrite lookup_alter_ne by done. apply Hm.
Qed.

Definition empty_db : Db := MkDb ∅ ∅ ∅ ∅.
Definition fresh_store (dir : string) : St := MkSt 0 0 0 empty_db ∅ dir.

(** The stored form of an instant: whole milliseconds. *)
Definition trunc_ms (t : DateTime) : DateTime := from_timestamp_millis (timestamp_millis t).


Lemma as_i64_small z : 0 ≤ z < 2 ^ 63 → as_i64 z = z.
Proof. intros Hz. unfold as_i64. rewrite Z.mod_small; lia. Qed.

Lemma create_block_row b st st' :
  create_block env b st = (st', Ok tt) →
  db_blocks (st_db st') !! block_key (blk_id b) = Some
    (MkBlockRow (pane_key (blk_pane b)) (session_key (blk_session b)) (blk_command b)
       (timestamp_millis (blk_started_at b)) None None (blk_cwd b)
       (blob_path_for (st_data_dir st) (blk_id b)) 0).
Proof.
  unfold create_block, bind, gets, query. destruct (env_fault env _); [done|].
  destruct (db_blocks (st_db st) !! _) eqn:E; [done|]. intros [= <-]. cbn. by rewrite lookup_insert_eq.
Qed.

Lemma finalize_block_row id e x l st st' row :
  finalize_block env id e x l st = (st', Ok tt) →
  db_blocks (st_db st) !! block_key id = Some row →
  db_blocks (st_db st') !! block_key id = Some (finalize_row (timestamp_millis e) x l row).
Proof.
  unfold finalize_block, execute, query. destruct (env_fault env _); [done|].
  intros [= <-] Hr. cbn. by rewrite lookup_alter_eq, Hr.
Qed.

Lemma get_block_row id row st :
  env_fault env (st_stmts st) = false → row_ok row →
  db_blocks (st_db st) !! block_key id = Some row →
  (get_block env id st).2 = Ok (Some (block_of (block_key id, row))).
Proof.
  intros Hf Hok Hr. unfold get_block, bind at 1, fetch, query. rewrite Hf, Hr.
  assert (is_Some (uuid_parse (block_key id))) as Hk
    by (unfold block_key; rewrite uuid_parse_to_string; eauto).
  by rewrite (bind_ok _ _ _ _ _ (row_to_block_ok _ _ _ Hk Hok)).
Qed.

(** ** Listings *)
Lemma select_perm {R} (w : string → R → bool) key (m : gmap string R) :
  select w key m ≡ₚ filter (λ kr, w kr.1 kr.2 = true) (map_to_list m).
Proof. apply order_by_perm. Qed.

Lemma StronglySorted_app_inv {A} (R : A → A → Prop) l1 l2 :
  StronglySorted R (l1 ++ l2) →
  StronglySorted R l1 ∧ ∀ x y, x ∈ l1 → y ∈ l2 → R x y.
Proof.
  induction l1 as [|a l1 IH]; cbn; intros Hs; [split; [constructor|set_solver]|].
  inversion Hs as [|?? Hs' Ha]; subst. destruct (IH Hs') as [H1' H2'].
  rewrite Forall_app, !Forall_forall in Ha. destruct Ha as [Ha1 Ha2]. split.
  - constructor; [done|]. by rewrite Forall_forall.
  - intros x y [->|Hx]%elem_of_cons Hy; auto.
Qed.

Lemma StronglySorted_weaken {A} (R R' : A → A → Prop) l :
  (∀ x y, R x y → R' x y) → StronglySorted R l → StronglySorted R' l.
Proof.
  intros HR. induction 1 as [|x l Hs IH Hx]; constructor; [done|].
  eapply Forall_impl; [exact Hx|]. auto.
Qed.

Lemma StronglySorted_fmap {A B} (f : A → B) (R : B → B → Prop) l :
  StronglySorted (λ x y, R (f x) (f y)) l → StronglySorted R (f <$> l).
Proof.
  induction 1 as [|x l Hs IH Hx]; [constructor|]. rewrite fmap_cons. constructor; [done|].
  by apply Forall_fmap.
Qed.
End Blocks.

Lemma boot_reconcile_run env st :
  (st_db (boot_reconcile env st).1 = st_db st ∧ env_fault env (st_stmts st) = true) ∨
  ((boot_reconcile env st).2 = Ok tt ∧
   st_db (boot_reconcile env st).1
   = with_blocks (fmap (reconcile_row (timestamp_millis (env_clock env (st_clocks st))))) (st_db st)).
Proof.
  unfold boot_reconcile, now_millis, bind, now, ret, execute, query. cbn [st_stmts].
  destruct (env_fault env (st_stmts st)); auto.
Qed.

(** ** Properties *)

(** C30: a block that was created and then finalized is read back as it was given,
    with instants in whole milliseconds, whatever other operations ran in between
    and whichever of them the database refused: command, working directory, pane
    and session, start and end, exit code and output length. *)
Theorem block_roundtrip `{UuidText, LayoutJson, SqlOrder, Zstd, ChronoRange} env st0 b ops1 ops2
  ended exit len st1 st2
  (Hcreate : create_block env b st0 = (st1, Ok tt))
  (Hops1 : Forall (λ op, touches (blk_id b) op = false) ops1)
  (Hfinal : finalize_block env (blk_id b) ended exit len (run_ops env ops1 st1) = (st2, Ok tt))
  (Hops2 : Forall (λ op, touches (blk_id b) op = false) ops2)
  (Hread : env_fault env (st_stmts (run_ops env ops2 st2)) = false)
  (Hstart : chrono_ok (timestamp_millis (blk_started_at b)) = true)
  (Hend : chrono_ok (timestamp_millis ended) = true)
  (Hlen : 0 ≤ len < 2 ^ 63)
  (Hexit : match exit with Some c => -2147483648 ≤ c < 2147483648 | None => True end) :
  (get_block env (blk_id b) (run_ops env ops2 st2)).2 =
  Ok (Some (MkBlock (blk_id b) (blk_pane b) (blk_session b) (blk_command b) (blk_cwd b)
    (trunc_ms (blk_started_at b)) (Some (trunc_ms ended)) exit len)).
Proof.
  pose proof (create_block_row env b st0 st1 Hcreate) as Hr1.
  pose proof (run_ops_frame env _ _ _ _ Hops1 Hr1) as Hr2.
  pose proof (finalize_block_row env _ _ _ _ _ _ _ Hfinal Hr2) as Hr3.
  pose proof (run_ops_frame env _ _ _ _ Hops2 Hr3) as Hr4.
  destruct (create_row_ok b (st_data_dir st0) Hstart) as [_ Hok].
  erewrite get_block_row; [|done| |exact Hr4]; [|exact Hok].
  unfold block_of, finalize_row, block_key, pane_key, session_key, trunc_ms, timestamp_millis_opt.
  cbn [fst snd br_pane_id br_session_id br_command br_cwd br_started_at br_ended_at br_exit_code
       br_stdout_len mbind option_bind].
  rewrite !uuid_parse_to_string, Hend, as_i64_small, Z.max_r by lia.
  destruct b as [[?] [?] [?] ??????]; cbn. do 3 f_equal.
  destruct exit as [c|]; [|done]. cbn. by rewrite wrap_i32_small.
Qed.

(** Listing the blocks of a session, after any sequence of store operations
    (some refused by the database) on an empty store, succeeds unless its own
    statement is refused, and returns exactly the min(limit, n) newest of the n
    blocks of that session, newest first, each decoded from its row. *)
Theorem list_blocks_newest `{UuidText, LayoutJson, SqlOrder, Zstd, ChronoRange} env dir ops s limit
  (Hops : forallb start_in_range ops = true)
  (Hread : env_fault env (st_stmts (run_ops env ops (fresh_store dir))) = false) :
  let st := run_ops env ops (fresh_store dir) in
  ∃ rows rest,
    (list_blocks env (Some s) limit st).2 = Ok (block_of <$> rows) ∧
    rows ++ rest ≡ₚ filter (λ kr, br_session_id kr.2 = session_key s) (map_to_list (db_blocks (st_db st))) ∧
    length rows = Nat.min (Z.to_nat limit) (length (rows ++ rest)) ∧
    StronglySorted (λ b1 b2, blk_started_at b2 ≤ blk_started_at b1) (block_of <$> rows) ∧
    (∀ r r', r ∈ rows → r' ∈ rest → br_started_at r'.2 ≤ br_started_at r.2).
Proof.
  cbn zeta. set (st := run_ops env ops (fresh_store dir)) in *.
  assert (blocks_ok (db_blocks (st_db st))) as Hok by (by apply run_ops_blocks_ok).
  set (w := λ (_ : string) r, bool_decide (br_session_id r = session_key s)).
  set (sel := select w (λ kr, - br_started_at kr.2) (db_blocks (st_db st))).
  exists (take (Z.to_nat limit) sel), (drop (Z.to_nat limit) sel). rewrite take_drop.
  assert (sel ≡ₚ filter (λ kr, br_session_id kr.2 = session_key s) (map_to_list (db_blocks (st_db st)))) as Hperm.
  { unfold sel. rewrite select_perm. erewrite list_filter_iff; [reflexivity|].
    intros [k r]. unfold w. cbn. by rewrite bool_decide_eq_true. }
  pose proof (order_by_sorted (λ kr, - br_started_at kr.2)
    (filter (λ kr, w kr.1 kr.2 = true) (map_to_list (db_blocks (st_db st))))) as Hsort.
  fold (select w (λ kr, - br_started_at kr.2) (db_blocks (st_db st))) in Hsort. fold sel in Hsort.
  rewrite <- (take_drop (Z.to_nat limit) sel) in Hsort.
  apply StronglySorted_app_inv in Hsort as [Hsort Hcross].
  split_and!.
  - unfold list_blocks, bind at 1, fetch, query. rewrite Hread. unfold newest.
    rewrite rows_to_blocks_ok; [done|]. apply Forall_take. rewrite Forall_forall. intros [k r] Hin.
    fold w sel in Hin. rewrite Hperm in Hin. apply list_elem_of_filter in Hin as [_ Hin].
    apply elem_of_map_to_list in Hin. exact (Hok _ _ Hin).
  - done.
  - rewrite length_take. lia.
  - apply StronglySorted_fmap. eapply StronglySorted_weaken; [|exact Hsort].
    intros x y Hxy. unfold block_of, from_timestamp_millis. cbn. cbn in Hxy. lia.
  - intros r r' Hr Hr'. specialize (Hcross r r' Hr Hr'). cbn in Hcross. lia.
Qed.

(** the reconciliation at start leaves no block running and touches nothing
    else: afterwards every block row has an end, rows that had one are unchanged,
    and the others differ only in being stamped with the start-up instant and no
    exit code; sessions, panes and windows stay as they were, and running it again
    changes no block. *)
Theorem boot_reconcile_closes env st :
  env_fault env (st_stmts st) = false →
  ∃ st', boot_reconcile env st = (st', Ok tt) ∧
    db_blocks (st_db st') = reconcile_row (timestamp_millis (env_clock env (st_clocks st))) <$> db_blocks (st_db st) ∧
    map_Forall (λ _ r, is_Some (br_ended_at r)) (db_blocks (st_db st')) ∧
    (∀ k r, db_blocks (st_db st) !! k = Some r → is_Some (br_ended_at r) →
       db_blocks (st_db st') !! k = Some r) ∧
    db_sessions (st_db st') = db_sessions (st_db st) ∧ db_panes (st_db st') = db_panes (st_db st) ∧
    db_windows (st_db st') = db_windows (st_db st) ∧
    db_blocks (st_db (boot_reconcile env st').1) = db_blocks (st_db st').
Proof.
  intros Hf. destruct (boot_reconcile_run env st) as [[_ E]|[Er Ed]]; [congruence|].
  destruct (boot_reconcile env st) as [st' r] eqn:E. cbn [fst snd] in *. subst r.
  exists st'. assert (∀ t r, is_Some (br_ended_at (reconcile_row t r))) as Hend
    by (intros t r; unfold reconcile_row; destruct (br_ended_at r) eqn:Er; cbn; rewrite ?Er; eauto).
  assert (∀ t r, is_Some (br_ended_at r) → reconcile_row t r = r) as Hid
    by (intros t r [e He]; unfold reconcile_row; by rewrite He).
  rewrite Ed. cbn [with_blocks db_blocks db_sessions db_panes db_windows].
  split_and!; [done|done| | |done|done|done|].
  - apply map_Forall_fmap. intros k r Hk. cbn. apply Hend.
  - intros k r Hk Hr. rewrite lookup_fmap, Hk. cbn. by rewrite Hid.
  - destruct (boot_reconcile_run env st') as [[Ed' _]|[_ Ed']]; rewrite Ed', Ed; [done|].
    cbn [with_blocks db_blocks]. rewrite <- map_fmap_compose. apply map_fmap_ext.
    intros k r _. cbn. by apply Hid.
Qed.

(** ** Witnesses *)
Section Witnesses.
#[local] Existing Instances binary_uuid binary_json stable_order no_compression chrono_0_4.
Definition calm : Env := MkEnv (λ _, false) (λ n, N.of_nat n) (λ n, Z.of_nat n * 1000000).
Definition block1 : Block :=
  MkBlock (MkBlockId 7) (MkPaneId 3) (MkSessionId 2) "ls" None 5000000 None None 0.
Definition block2 : Block :=
  MkBlock (MkBlockId 8) (MkPaneId 3) (MkSessionId 2) "make" None 9000000 None None 0.

Lemma block_roundtrip_witness :
  (get_block calm (MkBlockId 7) (run_ops calm [OCreateBlock block2]
     (finalize_block calm (MkBlockId 7) 6500000 (Some 1) 12
        (run_ops calm [OUpsertSession (MkSessionId 2) "s"]
           (create_block calm block1 (fresh_store "/d")).1)).1)).2
  = Ok (Some (MkBlock (MkBlockId 7) (MkPaneId 3) (MkSessionId 2) "ls" None 5000000
                (Some 6000000) (Some 1) 12)).
Proof.
  refine (block_roundtrip calm (fresh_store "/d") block1 [OUpsertSession (MkSessionId 2) "s"]
    [OCreateBlock block2] 6500000 (Some 1) 12 _ _ _ _ _ _ _ _ _ _ _).
  - vm_compute. reflexivity.
  - by apply Forall_singleton.
  - vm_compute. reflexivity.
  - by apply Forall_singleton.
  - reflexivity.
  - reflexivity.
  - reflexivity.
  - lia.
  - lia.
Defined.

Lemma list_blocks_newest_witness :
  let st := run_ops calm [OCreateBlock block1; OCreateBlock block2] (fresh_store "/d") in
  ∃ rows rest,
    (list_blocks calm (Some (MkSessionId 2)) 1 st).2 = Ok (block_of <$> rows) ∧
    rows ++ rest ≡ₚ filter (λ kr, br_session_id kr.2 = session_key (MkSessionId 2))
                      (map_to_list (db_blocks (st_db st))) ∧
    length rows = Nat.min (Z.to_nat 1) (length (rows ++ rest)) ∧
    StronglySorted (λ b1 b2, blk_started_at b2 ≤ blk_started_at b1) (block_of <$> rows) ∧
    (∀ r r', r ∈ rows → r' ∈ rest → br_started_at r'.2 ≤ br_started_at r.2).
Proof. by apply (list_blocks_newest calm "/d" [OCreateBlock block1; OCreateBlock block2]). Defined.

Lemma boot_reconcile_closes_witness :
  let st := run_ops calm [OCreateBlock block1] (fresh_store "/d") in
  ∃ st', boot_reconcile calm st = (st', Ok tt) ∧
    map_Forall (λ _ r, is_Some (br_ended_at r)) (db_blocks (st_db st')).
Proof.
  destruct (boot_reconcile_closes calm (run_ops calm [OCreateBlock block1] (fresh_store "/d")) eq_refl)
    as (st' & H1 & _ & H2 & _). by exists st'.
Defined.
End Witnesses.
