(* ===== verification/StoreWindows.v ===== *)
(** * StoreWindows: the migration to windows

    [backfill_windows] gives the panes of a database that predates windows their
    windows. The invariant of its two nested loops: panes of the sessions done so
    far are placed, panes of the others still have no window, and the identifiers
    not yet drawn name no window. *)
From Stdlib Require Import Strings.Byte.
From S2P Require Import Prelude Proto Text Layout Libraries Effects Store StoreBlocks.
Local Open Scope Z_scope.

Import Store.

Section Backfill.
Context `{UuidText, LayoutJson, SqlOrder, Zstd, ChronoRange}.
Context (env : Env).
Context (no_fault : ∀ n, env_fault env n = false).
Context (distinct : ∀ i j, env_uuid env i = env_uuid env j → i = j).

Definition canonical (k : string) : Prop := ∃ u, k = uuid_to_string u.
Definition panes_canonical (db : Db) : Prop := map_Forall (λ k _, canonical k) (db_panes db).

(** The pane [k] is in the layout tree of a window of its own session. *)
Definition placed (db : Db) (k : string) (r : PaneRow) : Prop :=
  ∃ w wr node p, pr_window_id r = Some w ∧ db_windows db !! w = Some wr ∧
    wr_session_id wr = pr_session_id r ∧ wr_layout wr ≫= layout_from_json = Some node ∧
    k = pane_key p ∧ p ∈ all_leaves node.

Definition fresh_windows (st : St) : Prop :=
  ∀ n, (st_uuids st ≤ n)%nat → db_windows (st_db st) !! uuid_to_string (env_uuid env n) = None.

Lemma placed_mono db db' k r :
  db_windows db ⊆ db_windows db' → placed db k r → placed db' k r.
Proof.
  intros Hsub (w & wr & node & p & H1' & H2' & H3'). exists w, wr, node, p.
  split; [done|]. split; [|done]. by eapply lookup_weaken.
Qed.

Lemma canonical_parse k u : canonical k → uuid_parse k = Some u → k = uuid_to_string u.
Proof. intros [v ->] E. rewrite uuid_parse_to_string in E. by injection E as ->. Qed.

Lemma statement_run f st : execute env f st = (after_stmt (f (st_db st)) st, Ok tt).
Proof. unfold execute, query. by rewrite no_fault. Qed.
Lemma fetch_run {A} (f : Db → A) st : fetch env f st = (after_stmt (st_db st) st, Ok (f (st_db st))).
Proof. unfold fetch, query. by rewrite no_fault. Qed.

Definition after_uuid (st : St) : St :=
  MkSt (st_stmts st) (st_uuids st + 1) (st_clocks st) (st_db st) (st_blobs st) (st_data_dir st).
Lemma new_uuid_run st : new_uuid env st = (after_uuid st, Ok (env_uuid env (st_uuids st))).
Proof. done. Qed.
Definition after_clock (st : St) : St :=
  MkSt (st_stmts st) (st_uuids st) (st_clocks st + 1) (st_db st) (st_blobs st) (st_data_dir st).
Lemma now_millis_run st :
  now_millis env st = (after_clock st, Ok (timestamp_millis (env_clock env (st_clocks st)))).
Proof. done. Qed.

(** ** One standalone pane *)
Lemma backfill_pane_run sid t k pid_str prow st :
  fresh_windows st → canonical pid_str →
  ∃ st' row, backfill_pane env sid t (k, (pid_str, prow)) st = (st', Ok tt) ∧
    let wk := uuid_to_string (env_uuid env (st_uuids st)) in
    st_uuids st' = (st_uuids st + 1)%nat ∧
    db_sessions (st_db st') = db_sessions (st_db st) ∧
    db_windows (st_db st') = <[wk := row]> (db_windows (st_db st)) ∧
    wr_session_id row = session_key sid ∧
    (∃ u, pid_str = uuid_to_string u ∧ wr_layout row = Some (layout_to_json (Leaf (MkPaneId u)))) ∧
    db_panes (st_db st') = alter (set_pane_window wk) pid_str (db_panes (st_db st)).
Proof.
  intros Hfr [u ->]. unfold backfill_pane. rewrite uuid_parse_to_string.
  eexists _, _. split.
  { rewrite (bind_ok _ _ _ _ _ (new_uuid_run _)).
    rewrite (bind_ok _ _ _ _ _ (statement_run _ _)), (bind_ok _ _ _ _ _ (statement_run _ _)).
    apply statement_run. }
  cbn. split; [done|]. split; [done|].
  rewrite (Hfr _ (le_n _)), alter_insert_eq. split; [done|]. cbn. eauto.
Qed.

(** What holds of the panes of session [sid] while its standalone panes are
    being placed, and of the panes of the other sessions. *)
Definition session_inv (sid : string) (others : string → PaneRow → Db → Prop)
    (rest : list string) (st : St) : Prop :=
  fresh_windows st ∧ panes_canonical (st_db st) ∧
  (∀ k r, db_panes (st_db st) !! k = Some r → pr_session_id r = sid →
     placed (st_db st) k r ∨ k ∈ rest) ∧
  (∀ k r, db_panes (st_db st) !! k = Some r → pr_session_id r ≠ sid → others k r (st_db st)) ∧
  (∀ k, k ∈ rest → ∃ r, db_panes (st_db st) !! k = Some r ∧ pr_session_id r = sid) ∧
  db_windows (st_db st) ≠ ∅.

Lemma backfill_pane_step sid t others k pid_str prow rest st :
  (∀ k r db db', db_windows db ⊆ db_windows db' → others k r db → others k r db') →
  session_inv (session_key sid) others (pid_str :: rest) st →
  ∃ st', backfill_pane env sid t (k, (pid_str, prow)) st = (st', Ok tt) ∧
    db_sessions (st_db st') = db_sessions (st_db st) ∧
    session_inv (session_key sid) others rest st'.
Proof.
  intros Hmono (Hfr & Hcan & Hsid & Hoth & Hrest & _).
  destruct (Hrest pid_str ltac:(by left)) as (r0 & Hr0 & Hs0).
  destruct (backfill_pane_run sid t k pid_str prow st Hfr (Hcan _ _ Hr0))
    as (st' & row & Hrun & Hu & Hss & Hw & Hws & (u & Eu & Hwl) & Hp).
  exists st'. split; [done|]. split; [done|].
  set (wk := uuid_to_string (env_uuid env (st_uuids st))) in *.
  assert (db_windows (st_db st) ⊆ db_windows (st_db st')) as Hsub
    by (rewrite Hw; apply insert_subseteq, Hfr; lia).
  assert (∀ k' r', db_panes (st_db st') !! k' = Some r' →
    (k' ≠ pid_str ∧ db_panes (st_db st) !! k' = Some r') ∨
    (k' = pid_str ∧ r' = set_pane_window wk r0)) as Hlk.
  { intros k' r'. rewrite Hp. destruct (decide (k' = pid_str)) as [->|Hne].
    - rewrite lookup_alter_eq, Hr0. intros [= <-]. by right.
    - rewrite lookup_alter_ne by done. by left. }
  split_and!.
  - intros n Hn. rewrite Hw, lookup_insert_ne; [apply Hfr; lia|].
    intros E. apply (inj uuid_to_string), distinct in E. lia.
  - intros k' r' Hk'. destruct (Hlk _ _ Hk') as [[_ Hold]|[-> _]]; [by eapply Hcan|by eapply Hcan].
  - intros k' r' Hk' Hs'. destruct (Hlk _ _ Hk') as [[Hne Hold]|[-> ->]].
    + destruct (Hsid _ _ Hold Hs') as [Hpl|Hin]; [left; by eapply placed_mono|].
      right. by apply elem_of_cons in Hin as [->|Hin].
    + left. exists wk, row, (Leaf (MkPaneId u)), (MkPaneId u).
      rewrite Hw, lookup_insert_eq, Hwl. cbn. rewrite layout_json_roundtrip, Hws, Hs0.
      repeat split; try done. apply list_elem_of_singleton. done.
  - intros k' r' Hk' Hs'. destruct (Hlk _ _ Hk') as [[Hne Hold]|[-> ->]].
    + by eapply Hmono, Hoth.
    + cbn in Hs'. congruence.
  - intros k' Hk'. destruct (Hrest k' ltac:(by right)) as (r' & Hr' & Hs').
    rewrite Hp. destruct (decide (k' = pid_str)) as [->|Hne].
    + rewrite lookup_alter_eq, Hr'. cbn. eauto.
    + rewrite lookup_alter_ne by done. eauto.
  - rewrite Hw. apply insert_non_empty.
Qed.

Lemma backfill_panes_run sid t others l st :
  (∀ k r db db', db_windows db ⊆ db_windows db' → others k r db → others k r db') →
  session_inv (session_key sid) others (l.*2.*1) st →
  ∃ st', for_each (backfill_pane env sid t) l st = (st', Ok tt) ∧
    db_sessions (st_db st') = db_sessions (st_db st) ∧
    session_inv (session_key sid) others [] st'.
Proof.
  intros Hmono. revert st. induction l as [|[k [pid prow]] l IH]; intros st Hinv; [by exists st|].
  destruct (backfill_pane_step sid t others k pid prow (l.*2.*1) st Hmono Hinv)
    as (st1 & Hrun & Hs1 & Hinv1).
  destruct (IH st1 Hinv1) as (st2 & Hrun2 & Hs2 & Hinv2). exists st2.
  cbn [for_each]. rewrite (bind_ok _ _ _ _ _ Hrun). split; [done|]. by rewrite Hs2.
Qed.

(** ** One session *)

(** The panes after those of the tree have been given to the window [w]. *)
Definition assign_tree (sid w : string) (tree : list PaneId) (m : gmap string PaneRow) :
    gmap string PaneRow :=
  map_imap (λ k r, Some (if bool_decide (pr_session_id r = sid) && bool_decide (k ∈ (pane_key <$> tree))
                         then set_pane_window w r else r)) m.

Lemma assign_tree_nil sid w m : assign_tree sid w [] m = m.
Proof.
  apply map_eq. intros k. unfold assign_tree. rewrite map_lookup_imap.
  destruct (m !! k) as [r|]; [|done]. cbn [mbind option_bind fmap list_fmap].
  by rewrite (bool_decide_eq_false_2 (k ∈ [])), andb_false_r by apply not_elem_of_nil.
Qed.

Definition without_window (sid : string) (db : Db) : list (string * PaneRow) :=
  select (λ _ r, bool_decide (pr_session_id r = sid) && bool_decide (pr_window_id r = None))
    (λ kr, pr_created_at kr.2) (db_panes db).

Lemma backfill_session_run u row st :
  fresh_windows st →
  let sid := MkSessionId u in
  let w0 := uuid_to_string (env_uuid env (st_uuids st)) in
  ∃ st' t, backfill_session env (uuid_to_string u, row) st
           = for_each (backfill_pane env sid t) (imap pair (without_window (session_key sid) (st_db st'))) st' ∧
    st_uuids st' = (st_uuids st + 1)%nat ∧
    db_sessions (st_db st') = db_sessions (st_db st) ∧
    db_windows (st_db st') = <[w0 := MkWindowRow (session_key sid) "1" (sr_layout row) 0 t]> (db_windows (st_db st)) ∧
    db_panes (st_db st') = assign_tree (session_key sid) w0 (tree_panes (sr_layout row)) (db_panes (st_db st)).
Proof.
  intros Hfr sid w0. unfold backfill_session. rewrite uuid_parse_to_string.
  rewrite (bind_ok _ _ _ _ _ (now_millis_run _)), (bind_ok _ _ _ _ _ (new_uuid_run _)).
  rewrite (bind_ok _ _ _ _ _ (statement_run _ _)). cbn [after_uuid after_clock st_uuids].
  set (t := timestamp_millis (env_clock env (st_clocks st))).
  set (st3 := after_stmt _ _).
  assert (db_windows (st_db st3) = <[w0 := MkWindowRow (session_key sid) "1" None 0 t]> (db_windows (st_db st))) as Hw3.
  { unfold st3. cbn. by rewrite (Hfr _ (le_n _)). }
  assert (st_uuids st3 = (st_uuids st + 1)%nat ∧ db_sessions (st_db st3) = db_sessions (st_db st)
          ∧ db_panes (st_db st3) = db_panes (st_db st)) as (Hu3 & Hs3 & Hp3) by done.
  clearbody st3. fold w0 sid.
  assert (∃ st4, (match sr_layout row with
      | Some json => execute env (with_windows (alter (set_window_layout json) w0))
      | None => ret tt end) st3 = (st4, Ok tt) ∧ st_uuids st4 = st_uuids st3 ∧
      db_sessions (st_db st4) = db_sessions (st_db st3) ∧ db_panes (st_db st4) = db_panes (st_db st3) ∧
      db_windows (st_db st4) = <[w0 := MkWindowRow (session_key sid) "1" (sr_layout row) 0 t]> (db_windows (st_db st)))
    as (st4 & E4 & Hu4 & Hs4 & Hp4 & Hw4).
  { destruct (sr_layout row) as [json|]; [|by exists st3]. rewrite statement_run. eexists. split; [done|].
    cbn. by rewrite Hw3, alter_insert_eq. }
  rewrite (bind_ok _ _ _ _ _ E4).
  assert (∃ st5, (if decide (tree_panes (sr_layout row) = []) then ret tt
      else execute env (with_panes (assign_tree (session_key sid) w0 (tree_panes (sr_layout row))))) st4 = (st5, Ok tt) ∧
      st_uuids st5 = st_uuids st4 ∧ db_sessions (st_db st5) = db_sessions (st_db st4) ∧
      db_windows (st_db st5) = db_windows (st_db st4) ∧
      db_panes (st_db st5) = assign_tree (session_key sid) w0 (tree_panes (sr_layout row)) (db_panes (st_db st4)))
    as (st5 & E5 & Hu5 & Hs5 & Hw5 & Hp5).
  { case_decide as Ht; [exists st4; rewrite Ht, assign_tree_nil; done|].
    rewrite statement_run. by eexists. }
  rewrite (bind_ok _ _ _ _ _ E5), (bind_ok _ _ _ _ _ (fetch_run _ _)).
  exists (after_stmt (st_db st5) st5), t. split; [done|]. cbn. by rewrite Hu5, Hu4, Hu3, Hs5, Hs4, Hs3, Hw5, Hw4, Hp5, Hp4, Hp3.
Qed.

(** The invariant between two sessions. *)
Definition backfill_inv (fin todo : list string) (st : St) : Prop :=
  fresh_windows st ∧ panes_canonical (st_db st) ∧
  (∀ k r, db_panes (st_db st) !! k = Some r →
     (pr_session_id r ∈ todo → pr_window_id r = None) ∧
     (pr_session_id r ∈ fin → placed (st_db st) k r)) ∧
  (fin ≠ [] → db_windows (st_db st) ≠ ∅).

Lemma elem_of_without_window sid db k :
  k ∈ (imap pair (without_window sid db)).*2.*1 ↔
  ∃ r, db_panes db !! k = Some r ∧ pr_session_id r = sid ∧ pr_window_id r = None.
Proof.
  assert ((imap pair (without_window sid db)).*2 = without_window sid db) as ->.
  { rewrite fmap_imap. trans (imap (const id) (without_window sid db)); [done|].
    by rewrite imap_const, list_fmap_id. }
  unfold without_window. rewrite select_perm. rewrite list_elem_of_fmap. split.
  - intros ([k' r] & -> & Hin). apply list_elem_of_filter in Hin as [Hw Hin].
    apply elem_of_map_to_list in Hin. cbn in Hw. rewrite andb_true_iff, !bool_decide_eq_true in Hw. naive_solver.
  - intros (r & Hr & Hs & Hw). exists (k, r). split; [done|]. apply list_elem_of_filter.
    split; [|by apply elem_of_map_to_list]. cbn. by rewrite !bool_decide_eq_true_2.
Qed.

Lemma assign_tree_lookup sid w tree m k r' :
  assign_tree sid w tree m !! k = Some r' →
  ∃ r, m !! k = Some r ∧
    ((r' = set_pane_window w r ∧ pr_session_id r = sid ∧ k ∈ (pane_key <$> tree)) ∨
     (r' = r ∧ ¬ (pr_session_id r = sid ∧ k ∈ (pane_key <$> tree)))).
Proof.
  unfold assign_tree. rewrite map_lookup_imap. destruct (m !! k) as [r|]; [|done].
  cbn [mbind option_bind]. intros [= <-]. exists r. split; [done|].
  destruct (bool_decide _ && bool_decide _) eqn:E.
  - rewrite andb_true_iff, !bool_decide_eq_true in E. naive_solver.
  - right. split; [done|]. intros [Hs Hk].
    by rewrite !bool_decide_eq_true_2 in E.
Qed.

(** After the window of the tree has been created, what is left to do for the
    session are exactly its panes without window. *)
Lemma session_inv_start u row fin todo st st' t :
  let sid := session_key (MkSessionId u) in
  let w0 := uuid_to_string (env_uuid env (st_uuids st)) in
  backfill_inv fin (sid :: todo) st →
  st_uuids st' = (st_uuids st + 1)%nat →
  db_windows (st_db st') = <[w0 := MkWindowRow sid "1" (sr_layout row) 0 t]> (db_windows (st_db st)) →
  db_panes (st_db st') = assign_tree sid w0 (tree_panes (sr_layout row)) (db_panes (st_db st)) →
  session_inv sid
    (λ k r db, (pr_session_id r ∈ todo → pr_window_id r = None) ∧ (pr_session_id r ∈ fin → placed db k r))
    (imap pair (without_window sid (st_db st'))).*2.*1 st'.
Proof.
  intros sid w0 (Hfr & Hcan & Hpanes & _) Hu Hw Hp.
  assert (db_windows (st_db st) ⊆ db_windows (st_db st')) as Hsub
    by (rewrite Hw; apply insert_subseteq, Hfr; lia).
  split_and!.
  - intros n Hn. rewrite Hw, lookup_insert_ne; [apply Hfr; lia|].
    intros E. apply (inj uuid_to_string), distinct in E. lia.
  - intros k r. rewrite Hp. intros Hk. apply assign_tree_lookup in Hk as (r0 & Hr0 & _). by eapply Hcan.
  - intros k r Hk Hs. rewrite elem_of_without_window. pose proof Hk as Hk'. rewrite Hp in Hk'.
    apply assign_tree_lookup in Hk' as (r0 & Hr0 & [(-> & Hs0 & Hin)|[-> _]]).
    + left. apply list_elem_of_fmap in Hin as (p & -> & Hin). unfold tree_panes in Hin.
      destruct (sr_layout row ≫= layout_from_json) as [node|] eqn:En; [|by apply not_elem_of_nil in Hin].
      exists w0, (MkWindowRow sid "1" (sr_layout row) 0 t), node, p. cbn.
      rewrite Hw, lookup_insert_eq. done.
    + right. exists r0. split; [done|]. split; [done|]. apply (Hpanes k r0 Hr0). rewrite Hs. by left.
  - intros k r Hk Hs. rewrite Hp in Hk.
    apply assign_tree_lookup in Hk as (r0 & Hr0 & [(-> & Hs0 & _)|[-> _]]); [done|].
    destruct (Hpanes k r0 Hr0) as [G1 G2]. split; [intros Hin; apply G1; by right|].
    intros Hin. eapply placed_mono; [exact Hsub|]. by apply G2.
  - intros k Hk. apply elem_of_without_window in Hk as (r & Hr & Hs & _). eauto.
  - rewrite Hw. apply insert_non_empty.
Qed.

Lemma backfill_session_step u row fin todo st :
  backfill_inv fin (uuid_to_string u :: todo) st → uuid_to_string u ∉ todo →
  ∃ st', backfill_session env (uuid_to_string u, row) st = (st', Ok tt) ∧
    db_sessions (st_db st') = db_sessions (st_db st) ∧
    backfill_inv (uuid_to_string u :: fin) todo st'.
Proof.
  intros Hinv Hnd. pose proof Hinv as (Hfr & _ & _).
  destruct (backfill_session_run u row st Hfr) as (st1 & t & Hrun & Hu & Hs & Hw & Hp).
  pose proof (session_inv_start u row fin todo st st1 t Hinv Hu Hw Hp) as Hinv1.
  edestruct (backfill_panes_run (MkSessionId u) t) as (st2 & Hrun2 & Hs2 & Hfr2 & Hcan2 & G1 & G2 & _ & G0);
    [|exact Hinv1|].
  { intros k r db db' Hsub [G1 G2]. split; [done|]. intros Hin. eapply placed_mono; [exact Hsub|by apply G2]. }
  exists st2. rewrite Hrun. split; [done|]. split; [by rewrite Hs2|].
  split; [done|]. split; [done|]. split; [|done]. intros k r Hk.
  destruct (decide (pr_session_id r = uuid_to_string u)) as [E|E].
  - split; [by rewrite E|]. intros _. destruct (G1 k r Hk E) as [|Hnil]; [done|].
    by apply not_elem_of_nil in Hnil.
  - destruct (G2 k r Hk E) as [G3 G4]. split; [done|].
    intros [?|Hin]%elem_of_cons; [done|by apply G4].
Qed.

Lemma backfill_sessions_run rows fin st :
  backfill_inv fin rows.*1 st → NoDup rows.*1 → Forall canonical rows.*1 →
  ∃ st', for_each (backfill_session env) rows st = (st', Ok tt) ∧
    db_sessions (st_db st') = db_sessions (st_db st) ∧
    backfill_inv (rev rows.*1 ++ fin) [] st'.
Proof.
  revert fin st. induction rows as [|[k row] rows IH]; intros fin st Hinv Hnd Hcan.
  - by exists st.
  - rewrite fmap_cons in *. inversion Hnd as [|?? Hk Hnd']; subst.
    inversion Hcan as [|?? [u Eu] Hcan']; subst. cbn [fst] in *.
    destruct (backfill_session_step u row fin rows.*1 st Hinv Hk) as (st1 & Hrun & Hs & Hinv1).
    destruct (IH _ st1 Hinv1 Hnd' Hcan') as (st2 & Hrun2 & Hs2 & Hinv2).
    exists st2. cbn [for_each]. rewrite (bind_ok _ _ _ _ _ Hrun). split; [done|].
    split; [by rewrite Hs2|]. cbn [rev]. by rewrite <- app_assoc.
Qed.

Lemma backfill_windows_run st :
  db_windows (st_db st) = ∅ →
  map_Forall (λ k _, canonical k) (db_sessions (st_db st)) →
  map_Forall (λ k r, canonical k ∧ pr_window_id r = None) (db_panes (st_db st)) →
  ∃ st', backfill_windows env st = (st', Ok tt) ∧
    db_sessions (st_db st') = db_sessions (st_db st) ∧
    (db_sessions (st_db st) = ∅ ∨ db_windows (st_db st') ≠ ∅) ∧
    (∀ k r, db_panes (st_db st') !! k = Some r →
       is_Some (db_sessions (st_db st) !! pr_session_id r) → placed (st_db st') k r).
Proof.
  intros Hw Hses Hpan. unfold backfill_windows.
  rewrite (bind_ok _ _ _ _ _ (fetch_run _ _)), (bind_ok _ _ _ _ _ (fetch_run _ _)).
  cbn [after_stmt st_db]. rewrite Hw, map_size_empty. cbn [Z.of_nat Z.ltb Z.compare orb].
  destruct (Z.eqb_spec (Z.of_nat (size (db_sessions (st_db st)))) 0) as [Hz|Hnz].
  { assert (db_sessions (st_db st) = ∅) as He by (apply map_size_empty_inv; lia).
    eexists. split; [done|]. cbn. rewrite He. split; [done|]. split; [by left|].
    intros k r _ [? Hx]. by rewrite lookup_empty in Hx. }
  change ((0 <? Z.of_nat 0) || false) with false. cbv beta iota. rewrite (bind_ok _ _ _ _ _ (fetch_run _ _)). cbn [after_stmt st_db].
  set (rows := select (λ _ _, true) (λ kr, sr_created_at kr.2) (db_sessions (st_db st))).
  assert (rows ≡ₚ map_to_list (db_sessions (st_db st))) as Hperm.
  { unfold rows. rewrite select_perm. by rewrite filter_all. }
  match goal with |- context [for_each _ rows ?st0] => set (st1 := st0) end.
  edestruct (backfill_sessions_run rows [] st1) as (st' & Hrun & Hs & _ & _ & Hpl & Hne).
  - split; [|split; [|split; [|done]]].
    + intros n _. unfold st1. cbn. by rewrite Hw, lookup_empty.
    + intros k r Hk. by apply (Hpan k r).
    + intros k r Hk. split; [intros _; by apply (Hpan k r)|]. by intros ?%not_elem_of_nil.
  - rewrite Hperm. apply NoDup_fst_map_to_list.
  - rewrite Hperm, Forall_fmap. apply map_Forall_to_list in Hses.
    eapply Forall_impl; [exact Hses|]. by intros [].
  - exists st'. split; [exact Hrun|]. split; [exact Hs|]. rewrite app_nil_r in Hpl, Hne. split.
    + right. apply Hne. intros E. apply (f_equal length) in E.
      rewrite length_rev, length_fmap, Hperm, length_map_to_list in E. cbn in E. lia.
    + intros k r Hk [row Hrow]. apply (Hpl k r Hk). rewrite list_elem_of_In, <- in_rev, <- list_elem_of_In.
      rewrite Hperm. apply list_elem_of_fmap. exists (pr_session_id r, row). split; [done|].
      by apply elem_of_map_to_list.
Qed.

Lemma backfill_windows_idle st :
  db_sessions (st_db st) = ∅ ∨ db_windows (st_db st) ≠ ∅ →
  st_db (backfill_windows env st).1 = st_db st.
Proof.
  intros Hor. unfold backfill_windows.
  rewrite (bind_ok _ _ _ _ _ (fetch_run _ _)), (bind_ok _ _ _ _ _ (fetch_run _ _)). cbn [after_stmt st_db].
  assert ((0 <? Z.of_nat (size (db_windows (st_db st)))) || (Z.of_nat (size (db_sessions (st_db st))) =? 0) = true) as ->; [|done].
  destruct Hor as [->|Hne]; [by rewrite map_size_empty, orb_true_r|].
  apply orb_true_iff. left. apply Z.ltb_lt. rewrite <- map_size_non_empty_iff in Hne. lia.
Qed.
End Backfill.

(** ** Property *)

(** The migration to windows places every pane: on a database without windows,
    with identifiers as the daemon writes them, it succeeds, and afterwards each pane
    of a known session is assigned to a window of that session whose layout tree
    contains the pane (the session's tree, or a window of its own); the sessions are
    untouched and a second run changes nothing. *)
Theorem backfill_places_panes `{UuidText, LayoutJson, SqlOrder, Zstd, ChronoRange} env st
  (no_fault : ∀ n, env_fault env n = false)
  (distinct : ∀ i j, env_uuid env i = env_uuid env j → i = j)
  (Hwin : db_windows (st_db st) = ∅)
  (Hses : map_Forall (λ k _, canonical k) (db_sessions (st_db st)))
  (Hpan : map_Forall (λ k r, canonical k ∧ pr_window_id r = None) (db_panes (st_db st))) :
  ∃ st', backfill_windows env st = (st', Ok tt) ∧
    (∀ k r, db_panes (st_db st') !! k = Some r →
       is_Some (db_sessions (st_db st) !! pr_session_id r) → placed (st_db st') k r) ∧
    db_sessions (st_db st') = db_sessions (st_db st) ∧
    st_db (backfill_windows env st').1 = st_db st'.
Proof.
  destruct (backfill_windows_run env no_fault distinct st Hwin Hses Hpan) as (st' & Hrun & Hs & Hor & Hpl).
  exists st'. split; [done|]. split; [done|]. split; [done|].
  apply backfill_windows_idle; [done|]. by rewrite Hs.
Qed.

Section Witnesses.
#[local] Existing Instances binary_uuid binary_json stable_order no_compression chrono_0_4.

(** Two panes in the tree of one session and a third on its own. *)
Definition old_db : Db :=
  let s := uuid_to_string 2 in
  let pane := MkPaneRow s "bash" None 80 24 5 None None None in
  MkDb {[ s := MkSessionRow "main" 1 1 (Some (layout_to_json
            (VSplit [(Leaf (MkPaneId 10), 50); (Leaf (MkPaneId 11), 50)]))) ]}
    (<[uuid_to_string 10 := pane]> (<[uuid_to_string 11 := pane]> {[ uuid_to_string 12 := pane ]})) ∅ ∅.

Lemma backfill_places_panes_witness :
  let st := MkSt 0 0 0 old_db ∅ "/d" in
  ∃ st', backfill_windows calm st = (st', Ok tt) ∧
    st_db (backfill_windows calm st').1 = st_db st'.
Proof.
  destruct (backfill_places_panes calm (MkSt 0 0 0 old_db ∅ "/d")) as (st' & H1 & _ & _ & H2).
  - done.
  - intros i j. cbn. lia.
  - done.
  - apply (proj2 (map_Forall_singleton _ _ _)). by exists 2%N.
  - apply map_Forall_insert_2; [by split; [exists 10%N|]|].
    apply map_Forall_insert_2; [by split; [exists 11%N|]|].
    apply (proj2 (map_Forall_singleton _ _ _)). by split; [exists 12%N|].
  - exists st'. exact (conj H1 H2).
Defined.
End Witnesses.
