(* ===== verification/EventBus.v ===== *)
(** * EventBus: numbered pane events with catch-up

    [emit_event] and [events_after] of the session registry (pyred/src/session.rs):
    a counter, a ring of the last 256 events and a broadcast channel; and the
    long-poll [next_pane_event] of pyred/src/server.rs that reads them. The
    specification is the list of all events ever emitted. *)
From S2P Require Import Prelude Proto.
Local Open Scope Z_scope.

Module EventBus.

Definition EVENT_RING_CAP : nat := 256.

Record Bus := MkBus {
  eb_seq : Z;                   (** the atomic counter, a u64 *)
  eb_ring : list PaneEvent }.   (** [VecDeque], oldest first *)

Definition new : Bus := MkBus 0 [].

(** What an emission says, before it is numbered. *)
Record Note := MkNote {
  nt_pane : PaneId; nt_kind : PaneEventKind;
  nt_state : option PaneStateKind; nt_agent : option AgentKind }.

Definition number (seq : Z) (n : Note) : PaneEvent :=
  MkPaneEvent seq (nt_pane n) (nt_kind n) (nt_state n) (nt_agent n).

(** The counter step: [seq.fetch_add(1) + 1]. *)
Definition take_seq (b : Bus) : Z * Bus :=
  (wrap_u64 (eb_seq b + 1), MkBus (wrap_u64 (eb_seq b + 1)) (eb_ring b)).
(** The ring step, under the lock. *)
Definition push_ring (ev : PaneEvent) (b : Bus) : Bus :=
  let ring := if (EVENT_RING_CAP <=? length (eb_ring b))%nat then drop 1 (eb_ring b) else eb_ring b in
  MkBus (eb_seq b) (ring ++ [ev]).

(** The event emitted is also what the broadcast channel carries. *)
Definition emit_event (n : Note) (b : Bus) : Bus * PaneEvent :=
  let '(seq, b) := take_seq b in
  let ev := number seq n in (push_ring ev b, ev).

Definition events_after (after_seq : Z) (b : Bus) : list PaneEvent :=
  filter (λ e, after_seq < ev_seq e) (eb_ring b).

(** ** The long poll *)

(** What a receive of the live channel gives; a lagging receiver reads the ring
    again, whose answer comes with it. *)
Inductive Recv :=
  | RecvEvent (ev : PaneEvent)
  | RecvLagged (missed : list PaneEvent)
  | RecvClosed
  | RecvTimeout.

(** Waiting for the first event; [None] when the deadline passes. *)
Fixpoint await_first (after_seq : Z) (script : list Recv) : option (list PaneEvent * list Recv) :=
  match script with
  | [] | RecvTimeout :: _ => None
  | RecvEvent ev :: script' =>
      if after_seq <? ev_seq ev then Some ([ev], script') else await_first after_seq script'
  | RecvLagged missed :: script' =>
      if decide (missed = []) then await_first after_seq script' else Some (missed, script')
  | RecvClosed :: script' => Some ([], script')
  end.

(** Events that follow within the coalescing window. *)
Fixpoint coalesce (after_seq : Z) (script : list Recv) : list PaneEvent :=
  match script with
  | RecvEvent ev :: script' =>
      if after_seq <? ev_seq ev then ev :: coalesce after_seq script' else []
  | _ => []
  end.

Definition next_pane_event (after_seq : Z) (b : Bus) (script : list Recv) : list PaneEvent :=
  let history := events_after after_seq b in
  if decide (history = [])
  then match await_first after_seq script with
       | None => []
       | Some (collected, rest) => collected ++ coalesce after_seq rest
       end
  else history.

(** ** Specification: the log of everything emitted *)
Fixpoint emit_all (notes : list Note) (b : Bus) : Bus * list PaneEvent :=
  match notes with
  | [] => (b, [])
  | n :: ns => let '(b, ev) := emit_event n b in let '(b, evs) := emit_all ns b in (b, ev :: evs)
  end.

Definition log_of (notes : list Note) : list PaneEvent :=
  imap (λ i n, number (Z.of_nat i + 1) n) notes.

Definition bus_ok (log : list PaneEvent) (b : Bus) : Prop :=
  eb_seq b = Z.of_nat (length log) ∧ eb_ring b = lastn EVENT_RING_CAP log ∧
  ∀ i ev, log !! i = Some ev → ev_seq ev = Z.of_nat i + 1.

(** ** Lemmas *)
Lemma push_lastn {A} cap (log : list A) x :
  (0 < cap)%nat →
  (if (cap <=? length (lastn cap log))%nat then drop 1 (lastn cap log) else lastn cap log) ++ [x]
  = lastn cap (log ++ [x]).
Proof.
  intros Hc. rewrite lastn_length. unfold lastn. rewrite length_app. cbn [length].
  destruct (Nat.leb_spec cap (Nat.min cap (length log))).
  - rewrite drop_drop, drop_app_le by lia. f_equal. f_equal. lia.
  - rewrite drop_app_le by lia. f_equal. f_equal. lia.
Qed.

Lemma emit_ok log b n :
  bus_ok log b → Z.of_nat (length log) + 1 < 2 ^ 64 →
  (emit_event n b).2 = number (Z.of_nat (length log) + 1) n ∧
  bus_ok (log ++ [(emit_event n b).2]) (emit_event n b).1.
Proof.
  intros (Hs & Hr & Hl) Hmax. unfold emit_event, take_seq.
  assert (wrap_u64 (eb_seq b + 1) = Z.of_nat (length log) + 1) as Hw
    by (unfold wrap_u64, wrap_u; rewrite Hs, Z.mod_small; lia).
  cbn [fst snd]. rewrite Hw. split; [done|]. split; [|split].
  - cbn. rewrite length_app. cbn. lia.
  - unfold push_ring. cbn [eb_ring]. rewrite Hr. apply push_lastn. unfold EVENT_RING_CAP. lia.
  - intros i ev Hi. apply lookup_app_Some in Hi as [Hi|[Hge Hi]]; [by apply Hl|].
    destruct (i - length log)%nat as [|k] eqn:E; [|done]. injection Hi as <-. cbn. lia.
Qed.

Lemma emit_all_ok notes log b :
  bus_ok log b → Z.of_nat (length log + length notes) < 2 ^ 64 →
  bus_ok (log ++ (emit_all notes b).2) (emit_all notes b).1 ∧
  (emit_all notes b).2 = imap (λ i n, number (Z.of_nat (length log + i) + 1) n) notes.
Proof.
  revert log b. induction notes as [|n ns IH]; intros log b Hb Hmax; cbn [emit_all].
  - by rewrite app_nil_r.
  - cbn [length] in Hmax. destruct (emit_ok log b n Hb ltac:(lia)) as [He Hb'].
    destruct (emit_event n b) as [b' ev]. cbn [fst snd] in *.
    destruct (IH (log ++ [ev]) b' Hb') as [Hb'' Hi]; [rewrite length_app; cbn; lia|].
    destruct (emit_all ns b') as [b'' evs]. cbn [fst snd] in *. split; [by rewrite <- app_assoc in Hb''|].
    cbn [imap]. rewrite He, Nat.add_0_r. f_equal. rewrite Hi. apply imap_ext. intros i x _.
    rewrite length_app. cbn. f_equal. lia.
Qed.

Lemma new_ok : bus_ok [] new.
Proof. split; [done|]. split; [done|]. intros i ev Hi. by rewrite lookup_nil in Hi. Qed.

(** Filtering by sequence number drops a prefix. *)
Lemma filter_seq (log : list PaneEvent) base n :
  (∀ i ev, log !! i = Some ev → ev_seq ev = base + Z.of_nat i + 1) →
  filter (λ e, n < ev_seq e) log = drop (Z.to_nat (n - base)) log.
Proof.
  revert base. induction log as [|ev log IH]; intros base Hl; [by rewrite drop_nil|].
  pose proof (Hl 0%nat ev eq_refl) as H0.
  assert (filter (λ e, n < ev_seq e) log = drop (Z.to_nat (n - (base + 1))) log) as IH'.
  { apply (IH (base + 1)). intros i e Hi. rewrite (Hl (S i) e Hi). lia. }
  destruct (decide (n < ev_seq ev)) as [Hlt|Hge].
  - rewrite filter_cons_True, IH' by done.
    replace (Z.to_nat (n - base)) with 0%nat by lia.
    by replace (Z.to_nat (n - (base + 1))) with 0%nat by lia.
  - rewrite filter_cons_False, IH' by done.
    replace (Z.to_nat (n - base)) with (S (Z.to_nat (n - (base + 1)))) by lia. done.
Qed.

Lemma events_after_log log b n :
  bus_ok log b → 0 ≤ n →
  events_after n b = drop (Nat.max (length log - EVENT_RING_CAP) (Z.to_nat n)) log.
Proof.
  intros (Hs & Hr & Hl) Hn. unfold events_after. rewrite Hr. unfold lastn.
  set (k := (length log - EVENT_RING_CAP)%nat).
  rewrite (filter_seq _ (Z.of_nat k)).
  - rewrite drop_drop. f_equal. lia.
  - intros i ev Hi. rewrite lookup_drop in Hi. rewrite (Hl _ _ Hi). lia.
Qed.

(** ** Properties *)

(** Events are numbered 1, 2, 3, ... in the order they are emitted, and a
    client that asks for the events after the [n]-th gets exactly the later ones,
    in order and without gaps, as long as no more than 256 were emitted since; a
    client further behind gets exactly the last 256. *)
Theorem events_after_catch_up notes n
  (Hmax : Z.of_nat (length notes) < 2 ^ 64) (Hn : 0 ≤ n) :
  let '(b, evs) := emit_all notes new in
  evs = log_of notes ∧
  events_after n b = drop (Nat.max (length notes - EVENT_RING_CAP) (Z.to_nat n)) (log_of notes).
Proof.
  destruct (emit_all_ok notes [] new new_ok Hmax) as [Hb He].
  destruct (emit_all notes new) as [b evs]. cbn [fst snd app] in *.
  assert (evs = log_of notes) as -> by done. split; [done|].
  rewrite (events_after_log _ _ _ Hb Hn). unfold log_of at 1. by rewrite length_imap.
Qed.

Lemma events_after_catch_up_witness :
  let p := MkPaneId 1 in
  let notes := [MkNote p Spawned (Some Running) None; MkNote p StateChanged (Some Idle) None;
                MkNote p Closed None None] in
  let '(b, evs) := emit_all notes new in
  evs = log_of notes ∧ events_after 1 b = drop 1 (log_of notes).
Proof.
  apply (events_after_catch_up [MkNote (MkPaneId 1) Spawned (Some Running) None;
    MkNote (MkPaneId 1) StateChanged (Some Idle) None; MkNote (MkPaneId 1) Closed None None] 1);
    [cbn; lia|lia].
Defined.

(** Receives are honest when a lagging receiver is answered from the ring. *)
Definition recv_ok (after_seq : Z) (r : Recv) : Prop :=
  match r with RecvLagged missed => Forall (λ e, after_seq < ev_seq e) missed | _ => True end.

Lemma await_first_after after_seq script collected rest :
  Forall (recv_ok after_seq) script → await_first after_seq script = Some (collected, rest) →
  Forall (λ e, after_seq < ev_seq e) collected.
Proof.
  induction 1 as [|r script Hr Hs IH]; [done|]. destruct r as [ev|missed| |]; cbn.
  - destruct (Z.ltb_spec after_seq (ev_seq ev)); [|done]. intros [= <- <-]. by constructor.
  - case_decide; [done|]. intros [= <- <-]. exact Hr.
  - intros [= <- <-]. constructor.
  - done.
Qed.

Lemma coalesce_after after_seq script : Forall (λ e, after_seq < ev_seq e) (coalesce after_seq script).
Proof.
  induction script as [|r script IH]; [constructor|]. destruct r as [ev| | |]; cbn; try constructor.
  destruct (Z.ltb_spec after_seq (ev_seq ev)); [by constructor|constructor].
Qed.

(** The long poll never repeats what its caller has seen: every event it
    returns, from the ring, from the live channel or after the receiver lagged,
    is numbered above the caller's cursor; and when the ring already holds later
    events it returns exactly those at once. *)
Theorem next_pane_event_fresh after_seq b script
  (Hscript : Forall (recv_ok after_seq) script) :
  Forall (λ e, after_seq < ev_seq e) (next_pane_event after_seq b script) ∧
  (events_after after_seq b ≠ [] → next_pane_event after_seq b script = events_after after_seq b).
Proof.
  unfold next_pane_event. case_decide as Hh; [|split; [|done]].
  - split; [|done]. destruct (await_first after_seq script) as [[collected rest]|] eqn:E; [|constructor].
    apply Forall_app. split; [by eapply await_first_after|apply coalesce_after].
  - unfold events_after. rewrite Forall_forall. intros e He. by apply list_elem_of_filter in He as [? _].
Qed.

Lemma next_pane_event_fresh_witness :
  let ev := MkPaneEvent 4 (MkPaneId 1) Closed None None in
  Forall (λ e, 3 < ev_seq e) (next_pane_event 3 (MkBus 3 []) [RecvLagged []; RecvEvent ev; RecvTimeout]).
Proof.
  refine (proj1 (next_pane_event_fresh 3 (MkBus 3 [])
    [RecvLagged []; RecvEvent (MkPaneEvent 4 (MkPaneId 1) Closed None None); RecvTimeout] _)).
  apply Forall_cons; split; [by apply Forall_nil|]. apply Forall_cons; split; [done|].
  by apply Forall_singleton.
Defined.

End EventBus.
