(* ===== verification/Registry.v ===== *)
(** * Registry: sessions, windows and panes (pyred/src/session.rs)

    The session registry of the daemon: its state is the map of live sessions,
    each with its windows (in display order) and its panes, the event bus and the
    store. Every method is a computation of the monad [R]; what the operating
    system answers during a call (spawning a shell, sending a signal, the clocks)
    is the record [Os] given to it. [HashOrder] is the iteration order of a
    [HashMap], of which only the elements are known. *)
From Stdlib Require Import Strings.Byte.
From S2P Require Import Prelude Proto Text Layout Libraries Effects EventBus RingBuf PaneTracker Store.
Local Open Scope Z_scope.

Class HashOrder := {
  hash_order : ∀ {A}, list A → list A;
  hash_order_perm : ∀ {A} (l : list A), hash_order l ≡ₚ l }.

Definition map_values {K A} `{Countable K, HashOrder} (m : gmap K A) : list A :=
  hash_order (map_to_list m).*2.

Module Registry.

Record WindowState := MkWindow {
  ws_id : WindowId;
  ws_session : SessionId;
  ws_name : string;
  ws_layout : option LayoutNode;
  ws_position : Z;
  ws_created_at : DateTime }.

Record PaneState := MkPane {
  pa_id : PaneId;
  pa_session : SessionId;
  pa_window : WindowId;
  pa_name : option string;
  pa_cols : Z;
  pa_rows : Z;
  pa_shell : string;
  pa_created_at : DateTime;
  pa_closed_at : option DateTime;
  pa_child_pid : Z;
  pa_ringbuf : RingBuf.RingBuf;
  pa_tracker : PaneTracker.PaneStateTracker;
  pa_cancelled : bool }.   (** the close token *)

Record SessionState := MkSession {
  se_id : SessionId;
  se_name : string;
  se_created_at : DateTime;
  se_last_active_at : DateTime;
  se_panes : gmap PaneId PaneState;
  se_windows : list WindowState }.

Record Reg := MkReg {
  rg_sessions : gmap SessionId SessionState;
  rg_bus : EventBus.Bus;
  rg_store : Store.St;
  (** history: each event with the sessions and the database at its emission *)
  rg_history : list (PaneEvent * gmap SessionId SessionState * Store.Db) }.

Inductive RegError :=
  | ENoSession (id : SessionId)
  | ENoWindows (id : SessionId)
  | ENoPane (id : PaneId)
  | ENoWindow (id : WindowId)
  | ENoLayout
  | ESpawn
  | EKill (pid : Z)
  | EStore (e : Store.StoreError).

Definition R (A : Type) : Type := M Reg RegError A.

Record Os := MkOs {
  os_spawn : option Z;      (** the pid of the new shell, [None] if any step failed *)
  os_shell : option string; (** $SHELL *)
  os_kill : Z → bool;       (** whether SIGTERM could be sent *)
  os_instant : Z }.

Definition set_sessions (f : gmap SessionId SessionState → gmap SessionId SessionState) (s : Reg) : Reg :=
  MkReg (f (rg_sessions s)) (rg_bus s) (rg_store s) (rg_history s).
Definition set_store (st : Store.St) (s : Reg) : Reg :=
  MkReg (rg_sessions s) (rg_bus s) st (rg_history s).

Definition with_panes (f : gmap PaneId PaneState → gmap PaneId PaneState) (s : SessionState) : SessionState :=
  MkSession (se_id s) (se_name s) (se_created_at s) (se_last_active_at s) (f (se_panes s)) (se_windows s).
Definition with_windows (f : list WindowState → list WindowState) (s : SessionState) : SessionState :=
  MkSession (se_id s) (se_name s) (se_created_at s) (se_last_active_at s) (se_panes s) (f (se_windows s)).
Definition with_active (t : DateTime) (s : SessionState) : SessionState :=
  MkSession (se_id s) (se_name s) (se_created_at s) t (se_panes s) (se_windows s).
Definition with_name (n : string) (s : SessionState) : SessionState :=
  MkSession (se_id s) n (se_created_at s) (se_last_active_at s) (se_panes s) (se_windows s).

Definition window_layout (l : option LayoutNode) (w : WindowState) : WindowState :=
  MkWindow (ws_id w) (ws_session w) (ws_name w) l (ws_position w) (ws_created_at w).
Definition window_name (n : string) (w : WindowState) : WindowState :=
  MkWindow (ws_id w) (ws_session w) n (ws_layout w) (ws_position w) (ws_created_at w).
Definition pane_name (n : option string) (p : PaneState) : PaneState :=
  MkPane (pa_id p) (pa_session p) (pa_window p) n (pa_cols p) (pa_rows p) (pa_shell p)
    (pa_created_at p) (pa_closed_at p) (pa_child_pid p) (pa_ringbuf p) (pa_tracker p) (pa_cancelled p).
Definition pane_closed (t : DateTime) (p : PaneState) : PaneState :=
  MkPane (pa_id p) (pa_session p) (pa_window p) (pa_name p) (pa_cols p) (pa_rows p) (pa_shell p)
    (pa_created_at p) (Some t) (pa_child_pid p) (pa_ringbuf p) (pa_tracker p) (pa_cancelled p).

Definition is_window (id : WindowId) (w : WindowState) : bool := bool_decide (ws_id w = id).
(** Changing the windows with a given identifier, in place. *)
Definition update_window (id : WindowId) (f : WindowState → WindowState) (s : SessionState) : SessionState :=
  with_windows (map (λ w, if is_window id w then f w else w)) s.

Section Registry.
Context `{UuidText, LayoutJson, SqlOrder, Zstd, ChronoRange, HashOrder}.
Context (env : Store.Env).

(** A call of the store: its error is returned, or logged and dropped. *)
Definition store_call {A} (m : Store.S A) : R A := zoom rg_store set_store EStore m.
Definition log_store {A} (m : Store.S A) : R unit := attempt (store_call m).
Definition utc_now : R DateTime := store_call (Store.now env).
Definition fresh_uuid : R Uuid := store_call (Store.new_uuid env).

Definition modify_sessions (f : gmap SessionId SessionState → gmap SessionId SessionState) : R unit :=
  modify (set_sessions f).
Definition modify_session (id : SessionId) (f : SessionState → SessionState) : R unit :=
  modify_sessions (alter f id).

Definition emit_event (pane : PaneId) (kind : PaneEventKind) (state : option PaneStateKind)
    (agent : option AgentKind) : R unit :=
  modify (λ s,
    let '(bus, ev) := EventBus.emit_event (EventBus.MkNote pane kind state agent) (rg_bus s) in
    MkReg (rg_sessions s) bus (rg_store s)
      (rg_history s ++ [(ev, rg_sessions s, Store.st_db (rg_store s))])).

(** ** Look-ups *)
Definition sessions_values (s : Reg) : list SessionState := map_values (rg_sessions s).

Definition get_session (id : SessionId) (s : Reg) : option SessionState := rg_sessions s !! id.

Fixpoint scan_pane (pane : PaneId) (l : list SessionState) : option (SessionState * PaneState) :=
  match l with
  | [] => None
  | sess :: l' =>
      match se_panes sess !! pane with
      | Some p => Some (sess, p)
      | None => scan_pane pane l'
      end
  end.
Definition get_pane (pane : PaneId) (s : Reg) : option (SessionState * PaneState) :=
  scan_pane pane (sessions_values s).

Fixpoint scan_window (w : WindowId) (l : list SessionState) : option (SessionState * WindowState) :=
  match l with
  | [] => None
  | sess :: l' =>
      match find_first (is_window w) (se_windows sess) with
      | Some win => Some (sess, win)
      | None => scan_window w l'
      end
  end.
(** The window and, to update it in place, the session that holds it. *)
Definition find_window (w : WindowId) (s : Reg) : option (SessionState * WindowState) :=
  scan_window w (sessions_values s).

(** The window [wid] of a session, as it is now. *)
Definition window_in (wid : WindowId) (sess : option SessionState) : option WindowState :=
  s ← sess; find_first (is_window wid) (se_windows s).

(** ** Sessions *)
Definition short8 (id : SessionId) : string :=
  of_chars (take 8 (chars (uuid_to_string (session_uuid id)))).

Definition new_session (name : option string) : R SessionState :=
  let! u := fresh_uuid in
  let id := MkSessionId u in
  let resolved_name := default ("session-" +:+ short8 id) (Store.nonempty name) in
  let! t := utc_now in
  let! w := fresh_uuid in
  let default_window := MkWindow (MkWindowId w) id "1" None 0 t in
  let state := MkSession id resolved_name t t ∅ [default_window] in
  do! modify_sessions <[id := state]> in
  do! log_store (Store.upsert_session env id resolved_name) in
  do! log_store (Store.upsert_window env (MkWindowId w) id "1" 0 (timestamp_millis t)) in
  ret state.

(** ** Panes *)
Definition resolve_shell (req_shell env_shell : option string) : string :=
  match req_shell with Some s => s | None => default "/bin/bash" env_shell end.

(** [spawn_pty] (pty.rs): the process, then the rows, then the pane. *)
Definition spawn_pty (os : Os) (req : SpawnReq) (session_id : SessionId) (window_id : WindowId)
    (name : option string) (session_name : string) : R PaneState :=
  let shell := resolve_shell (sp_shell req) (os_shell os) in
  let! child_pid := expect (os_spawn os) ESpawn in
  let! u := fresh_uuid in
  let pane_id := MkPaneId u in
  do! store_call (Store.upsert_session env session_id session_name) in
  do! store_call (Store.upsert_pane env pane_id session_id shell (sp_cwd req) (sp_cols req) (sp_rows req)) in
  let tracker := PaneTracker.new (os_instant os) (if 0 <? child_pid then child_pid else 0) in
  let! t := utc_now in
  ret (MkPane pane_id session_id window_id name (sp_cols req) (sp_rows req) shell t None child_pid
         (RingBuf.new (Z.to_nat 65536)) tracker false).

(** The layout of a window that had none becomes its first pane. *)
Definition init_layout (sid : SessionId) (wid : WindowId) (pane : PaneId) : R unit :=
  let! sess := gets (get_session sid) in
  match window_in wid sess with
  | Some w =>
      match ws_layout w with
      | None =>
          do! modify_session sid (update_window wid (window_layout (Some (Leaf pane)))) in
          log_store (Store.upsert_window_layout env wid (layout_to_json (Leaf pane)))
      | Some _ => ret tt
      end
  | None => ret tt
  end.

Definition target_window (wid : WindowId) (s : SessionState) : option WindowState :=
  match find_first (is_window wid) (se_windows s) with
  | Some w => Some w
  | None => head (se_windows s)
  end.

Definition open_pane (os : Os) (session_id : SessionId) (req : OpenPaneReq) : R PaneState :=
  let! found := gets (get_session session_id) in
  let! session := expect found (ENoSession session_id) in
  let! window := expect (target_window (op_window req) session) (ENoWindows session_id) in
  let window_id := ws_id window in
  let spawn_req := MkSpawnReq (op_shell req) (op_cwd req) (op_cols req) (op_rows req) (op_env req) None in
  let! pane := spawn_pty os spawn_req session_id window_id (op_name req) (se_name session) in
  do! log_store (Store.assign_pane_window env (pa_id pane) session_id window_id) in
  do! modify_session session_id (with_panes <[pa_id pane := pane]>) in
  let! t := utc_now in
  do! modify_session session_id (with_active t) in
  do! init_layout session_id window_id (pa_id pane) in
  do! emit_event (pa_id pane) Spawned (Some Running) (Some (PaneTracker.tr_agent (pa_tracker pane))) in
  ret pane.

(** [PaneState::kill] *)
Definition kill (os : Os) (p : PaneState) : R unit :=
  if os_kill os (pa_child_pid p) then ret tt else throw (EKill (pa_child_pid p)).

Definition evict_session_if_empty (id : SessionId) : R unit :=
  let! found := gets (get_session id) in
  match found with
  | Some s => if decide (se_panes s = ∅) then modify_sessions (delete id) else ret tt
  | None => ret tt
  end.

(** The part of [close_pane] after the pane left the session: the tree of its
    window loses the leaf, is persisted, and only then announced. *)
Definition close_in_layout (sid : SessionId) (wid : WindowId) (pane : PaneId) : R unit :=
  let! sess := gets (get_session sid) in
  match window_in wid sess ≫= ws_layout with
  | Some tree =>
      let tree' := (close tree pane).2 in
      do! modify_session sid (update_window wid (window_layout (Some tree'))) in
      do! log_store (Store.upsert_window_layout env wid (layout_to_json tree')) in
      emit_event pane LayoutChanged None None
  | None => ret tt
  end.

Definition close_pane (os : Os) (pane_id : PaneId) : R unit :=
  let! found := gets (get_pane pane_id) in
  let! sp := expect found (ENoPane pane_id) in
  let '(session, pane) := sp in
  do! kill os pane in
  let! t := utc_now in
  do! modify_session (se_id session) (with_panes (alter (pane_closed t) pane_id)) in
  do! modify_session (se_id session) (with_panes (delete pane_id)) in
  do! close_in_layout (se_id session) (pa_window pane) pane_id in
  do! evict_session_if_empty (se_id session) in
  emit_event pane_id Closed None None.

Definition open_pane_split (os : Os) (parent_pane : PaneId) (orient : Orient) (name : option string)
    (cwd : option PathBuf) (cmd : option string) : R PaneId :=
  let! found := gets (get_pane parent_pane) in
  let! sp := expect found (ENoPane parent_pane) in
  let '(session, parent) := sp in
  let window_id := pa_window parent in
  let! window := expect (find_first (is_window window_id) (se_windows session)) (ENoWindow window_id) in
  let open_req := MkOpenPaneReq (se_id session) window_id
    (match cmd with Some c => Some c | None => Some (pa_shell parent) end)
    cwd (pa_cols parent) (pa_rows parent) [] name in
  let! new_pane := open_pane os (se_id session) open_req in
  let! sess := gets (get_session (se_id session)) in
  let layout := window_in window_id sess ≫= ws_layout in
  let tree := split_focused (default (Leaf parent_pane) layout) parent_pane (pa_id new_pane) orient in
  do! modify_session (se_id session) (update_window window_id (window_layout (Some tree))) in
  do! log_store (Store.upsert_window_layout env window_id (layout_to_json tree)) in
  do! emit_event (pa_id new_pane) LayoutChanged None None in
  ret (pa_id new_pane).

Definition set_pane_weight (pane : PaneId) (weight : Z) : R unit :=
  let! found := gets (get_pane pane) in
  let! sp := expect found (ENoPane pane) in
  let '(session, p) := sp in
  let window_id := pa_window p in
  let! window := expect (find_first (is_window window_id) (se_windows session)) (ENoWindow window_id) in
  let! tree := expect (ws_layout window) ENoLayout in
  let tree' := set_weight tree pane weight in
  do! modify_session (se_id session) (update_window window_id (window_layout (Some tree'))) in
  do! store_call (Store.upsert_window_layout env window_id (layout_to_json tree')) in
  emit_event pane LayoutChanged None None.

(** ** Layouts *)
Definition get_layout (session_id : SessionId) (s : Reg) : option LayoutNode :=
  session ← get_session session_id s;
  window ← head (se_windows session);
  match ws_layout window with
  | Some tree => Some tree
  | None => (λ p, Leaf (pa_id p)) <$> head (map_values (se_panes session))
  end.

Fixpoint scan_pane_of_window (w : WindowId) (l : list SessionState) : option PaneState :=
  match l with
  | [] => None
  | sess :: l' =>
      match find_first (λ p, bool_decide (pa_window p = w)) (map_values (se_panes sess)) with
      | Some p => Some p
      | None => scan_pane_of_window w l'
      end
  end.

Definition get_window_layout (window_id : WindowId) (s : Reg) : option LayoutNode :=
  '(_, window) ← find_window window_id s;
  match ws_layout window with
  | Some tree => Some tree
  | None => (λ p, Leaf (pa_id p)) <$> scan_pane_of_window window_id (sessions_values s)
  end.

(** ** Windows *)
Definition new_window (session_id : SessionId) (name : option string) : R WindowState :=
  let! found := gets (get_session session_id) in
  let! session := expect found (ENoSession session_id) in
  let position := wrap_u32 (Z.of_nat (length (se_windows session))) in
  let win_name := default (bytes_str (show_uint (position + 1))) (Store.nonempty name) in
  let! t := utc_now in
  let! u := fresh_uuid in
  let window := MkWindow (MkWindowId u) session_id win_name None position t in
  do! modify_session session_id (with_windows (λ ws, ws ++ [window])) in
  do! log_store (Store.upsert_window env (MkWindowId u) session_id win_name position (timestamp_millis t)) in
  ret window.

Definition list_windows (session_id : SessionId) (s : Reg) : list WindowInfo :=
  match get_session session_id s with
  | None => []
  | Some session =>
      let pane_windows := pa_window <$> map_values (se_panes session) in
      map (λ w,
        MkWindowInfo (ws_id w) session_id (ws_name w) (ws_position w)
          (wrap_u32 (Z.of_nat (length (filter (λ wid, wid = ws_id w) pane_windows))))
          (ws_created_at w)) (se_windows session)
  end.

Definition rename_window (window_id : WindowId) (name : string) : R unit :=
  let! found := gets (find_window window_id) in
  let! sw := expect found (ENoWindow window_id) in
  do! modify_session (se_id sw.1) (update_window window_id (window_name name)) in
  store_call (Store.rename_window env window_id name).

(** The panes of a window, with the session that has it. *)
Fixpoint scan_window_panes (w : WindowId) (l : list SessionState) : option (SessionId * list PaneId) :=
  match l with
  | [] => None
  | sess :: l' =>
      if existsb (is_window w) (se_windows sess)
      then Some (se_id sess,
                 pa_id <$> filter (λ p, pa_window p = w) (map_values (se_panes sess)))
      else scan_window_panes w l'
  end.

Definition close_window (os : Os) (window_id : WindowId) : R unit :=
  let! found := gets (λ s, scan_window_panes window_id (sessions_values s)) in
  let! sp := expect found (ENoWindow window_id) in
  let '(session_id, pane_ids) := sp in
  do! for_each (λ p, attempt (close_pane os p)) pane_ids in
  let! sess := gets (get_session session_id) in
  do! match sess with
      | Some _ =>
          do! modify_session session_id (with_windows (filter (λ w, ws_id w ≠ window_id))) in
          let! sess' := gets (get_session session_id) in
          match sess' with
          | Some s' => if decide (se_windows s' = []) then modify_sessions (delete session_id) else ret tt
          | None => ret tt
          end
      | None => ret tt
      end in
  log_store (Store.delete_window env window_id).

(** ** Removal *)
Definition kill_session (os : Os) (session_id : SessionId) : R unit :=
  let! found := gets (get_session session_id) in
  let! session := expect found (ENoSession session_id) in
  do! modify_sessions (delete session_id) in
  for_each (λ p,
    do! attempt (kill os p) in
    emit_event (pa_id p) Closed None None) (map_values (se_panes session)).

(** The child-wait task calls this when the shell has exited. *)
Definition remove_pane (pane_id : PaneId) : R unit :=
  let! found := gets (get_pane pane_id) in
  do! match found with
      | Some (sess, _) =>
          do! modify_session (se_id sess) (with_panes (delete pane_id)) in
          if decide (delete pane_id (se_panes sess) = ∅)
          then modify_sessions (delete (se_id sess)) else ret tt
      | None => ret tt
      end in
  emit_event pane_id Closed None None.

(** ** Names *)
Definition rename_pane (pane_id : PaneId) (name : string) : R unit :=
  let! found := gets (get_pane pane_id) in
  let! sp := expect found (ENoPane pane_id) in
  do! modify_session (se_id sp.1) (with_panes (alter (pane_name (Some name)) pane_id)) in
  store_call (Store.rename_pane env pane_id (pa_session sp.2) name).

Definition rename_session (session_id : SessionId) (name : string) : R unit :=
  let! found := gets (get_session session_id) in
  let! session := expect found (ENoSession session_id) in
  do! modify_session session_id (with_name name) in
  store_call (Store.upsert_session env session_id name).

(** ** Listings *)
Definition list_sessions (s : Reg) : list SessionInfo :=
  map (λ x, MkSessionInfo (se_id x) (se_name x) (wrap_u32 (Z.of_nat (size (se_panes x))))
              (se_created_at x) (se_last_active_at x)) (sessions_values s).

(** [now] and [instant] are the readings of the two clocks. *)
Definition pane_info_from_state (now instant : Z) (p : PaneState) : PaneInfo :=
  let t := pa_tracker p in
  MkPaneInfo (pa_id p) (pa_session p) (pa_window p) (pa_cols p) (pa_rows p) (pa_shell p)
    (pa_created_at p) None (PaneTracker.tr_state t) (PaneTracker.tr_reason t)
    (now - PaneTracker.elapsed instant (PaneTracker.tr_last_output_at t))
    (PaneTracker.tr_foreground_cmd t) (PaneTracker.tr_root_pid t) (PaneTracker.tr_agent t)
    (PaneTracker.tr_seen t) (pa_name p).

Definition list_panes (now instant : Z) (session_id : SessionId) (s : Reg) : list PaneInfo :=
  match get_session session_id s with
  | Some sess => pane_info_from_state now instant <$> map_values (se_panes sess)
  | None => []
  end.
Definition list_all_panes (now instant : Z) (s : Reg) : list PaneInfo :=
  flat_map (λ sess, pane_info_from_state now instant <$> map_values (se_panes sess)) (sessions_values s).
Definition all_trackers (s : Reg) : list (SessionId * PaneId * PaneTracker.PaneStateTracker) :=
  flat_map (λ sess, (λ p, (se_id sess, pa_id p, pa_tracker p)) <$> map_values (se_panes sess))
    (sessions_values s).

End Registry.
End Registry.
