(* ===== verification/RegistryInv.v ===== *)
(** * RegistryInv: the invariant of the session registry

    Every state the registry reaches, whatever the clients ask, the operating
    system answers and the database refuses, is well formed: identifiers are used
    once, each session has a window, panes and windows know their session, and
    every layout tree is one the layout operations allow. *)
From Stdlib Require Import Strings.Byte.
From S2P Require Import Prelude Proto Text Layout LayoutTree Libraries Effects EventBus RingBuf.
From S2P Require Import PaneTracker Store StoreBlocks Registry.
Local Open Scope Z_scope.

Import Registry.

(** ** The operations of the registry *)
Inductive RegOp :=
  | RNewSession (name : option string)
  | ROpenPane (os : Os) (sid : SessionId) (req : OpenPaneReq)
  | RClosePane (os : Os) (p : PaneId)
  | RSplit (os : Os) (parent : PaneId) (orient : Orient) (name : option string)
      (cwd : option PathBuf) (cmd : option string)
  | RWeight (p : PaneId) (w : Z)
  | RNewWindow (sid : SessionId) (name : option string)
  | RRenameWindow (w : WindowId) (name : string)
  | RCloseWindow (os : Os) (w : WindowId)
  | RKill (os : Os) (sid : SessionId)
  | RRemove (p : PaneId)
  | RRenamePane (p : PaneId) (name : string)
  | RRenameSession (sid : SessionId) (name : string).

Section Inv.
Context `{UuidText, LayoutJson, SqlOrder, Zstd, ChronoRange, HashOrder}.
Context (env : Store.Env).

Definition run_op (op : RegOp) (s : Reg) : Reg :=
  match op with
  | RNewSession n => (new_session env n s).1
  | ROpenPane os sid req => (open_pane env os sid req s).1
  | RClosePane os p => (close_pane env os p s).1
  | RSplit os p o n cwd cmd => (open_pane_split env os p o n cwd cmd s).1
  | RWeight p w => (set_pane_weight env p w s).1
  | RNewWindow sid n => (new_window env sid n s).1
  | RRenameWindow w n => (rename_window env w n s).1
  | RCloseWindow os w => (close_window env os w s).1
  | RKill os sid => (kill_session os sid s).1
  | RRemove p => (remove_pane p s).1
  | RRenamePane p n => (rename_pane env p n s).1
  | RRenameSession sid n => (rename_session env sid n s).1
  end.
Definition run_ops (ops : list RegOp) (s : Reg) : Reg := fold_left (λ s op, run_op op s) ops s.

Definition fresh_reg (dir : string) : Reg := MkReg ∅ EventBus.new (fresh_store dir) [].

(** ** The invariant *)
Definition drawn (n : nat) (u : Uuid) : Prop := ∃ i, (i < n)%nat ∧ Store.env_uuid env i = u.

Definition window_ok (n : nat) (sid : SessionId) (w : WindowState) : Prop :=
  ws_session w = sid ∧ drawn n (window_uuid (ws_id w)) ∧
  ∀ t, ws_layout w = Some t → layout_ok t ∧ Forall (λ p, drawn n (pane_uuid p)) (all_leaves t).

Definition session_ok (n : nat) (sid : SessionId) (s : SessionState) : Prop :=
  se_id s = sid ∧ drawn n (session_uuid sid) ∧ NoDup (ws_id <$> se_windows s) ∧
  Forall (window_ok n sid) (se_windows s) ∧
  map_Forall (λ pid p, pa_id p = pid ∧ pa_session p = sid ∧ drawn n (pane_uuid pid)) (se_panes s).

Definition has_pane (p : PaneId) (s : SessionState) : Prop := is_Some (se_panes s !! p).
Definition has_window (w : WindowId) (s : SessionState) : Prop := w ∈ (ws_id <$> se_windows s).
(** An item is in at most one session. *)
Definition exclusive (has : SessionState → Prop) (m : gmap SessionId SessionState) : Prop :=
  ∀ i j s t, m !! i = Some s → m !! j = Some t → has s → has t → i = j.

(** [ex] are the sessions that may be between losing their last window and being
    removed. *)
Definition sessions_ok (ex : SessionId → Prop) (n : nat) (m : gmap SessionId SessionState) : Prop :=
  map_Forall (session_ok n) m ∧
  (∀ p, exclusive (has_pane p) m) ∧ (∀ w, exclusive (has_window w) m) ∧
  map_Forall (λ sid s, ex sid ∨ se_windows s ≠ []) m.

Definition none : SessionId → Prop := λ _, False.
Definition reg_ok (s : Reg) : Prop :=
  sessions_ok none (Store.st_uuids (rg_store s)) (rg_sessions s).

(** ** Drawing identifiers *)
Lemma drawn_mono n n' u : (n ≤ n')%nat → drawn n u → drawn n' u.
Proof. intros Hle (i & Hi & Hu). exists i. split; [lia|done]. Qed.

Lemma window_ok_mono n n' sid w : (n ≤ n')%nat → window_ok n sid w → window_ok n' sid w.
Proof.
  intros Hle (H1' & H2' & H3'). split; [done|]. split; [by eapply drawn_mono|].
  intros t Ht. destruct (H3' t Ht) as [Hok Hl]. split; [done|].
  eapply Forall_impl; [exact Hl|]. intros p. by apply drawn_mono.
Qed.

Lemma session_ok_mono n n' sid s : (n ≤ n')%nat → session_ok n sid s → session_ok n' sid s.
Proof.
  intros Hle (H1' & H2' & H3' & H4' & H5'). split_and!; [done|by eapply drawn_mono|done| |].
  - eapply Forall_impl; [exact H4'|]. intros w. by apply window_ok_mono.
  - intros p x Hx. destruct (H5' p x Hx) as (? & ? & ?). split_and!; [done..|by eapply drawn_mono].
Qed.

Lemma sessions_ok_mono ex n n' m : (n ≤ n')%nat → sessions_ok ex n m → sessions_ok ex n' m.
Proof.
  intros Hle (H1' & H2' & H3' & H4'). split; [|done].
  intros sid s Hs. eapply session_ok_mono; [exact Hle|]. by apply H1'.
Qed.

(** The next identifier is not in use. *)
Lemma fresh_not_drawn n :
  (∀ i j, Store.env_uuid env i = Store.env_uuid env j → i = j) → ¬ drawn n (Store.env_uuid env n).
Proof. intros Hd (i & Hi & E). apply Hd in E. lia. Qed.

(** ** Changing one session *)

(** A change that keeps the session well formed and adds neither pane nor window. *)
Definition shrinks (n : nat) (sid : SessionId) (f : SessionState → SessionState) : Prop :=
  ∀ s, session_ok n sid s →
    session_ok n sid (f s) ∧ (∀ p, has_pane p (f s) → has_pane p s) ∧
    (∀ w, has_window w (f s) → has_window w s) ∧ (se_windows s ≠ [] → se_windows (f s) ≠ []).

Lemma sessions_ok_alter ex n sid f m :
  shrinks n sid f → sessions_ok ex n m → sessions_ok ex n (alter f sid m).
Proof.
  intros Hf (H1' & H2' & H3' & H4').
  assert (∀ i s, alter f sid m !! i = Some s → ∃ s0, m !! i = Some s0 ∧
    (i = sid ∧ s = f s0 ∨ s = s0)) as Hlk.
  { intros i s. destruct (decide (i = sid)) as [->|Hne].
    - rewrite lookup_alter_eq. intros Hs. apply fmap_Some in Hs as (s0 & -> & ->). eauto.
    - rewrite lookup_alter_ne by done. eauto. }
  assert (∀ i s s0, m !! i = Some s0 → i = sid ∧ s = f s0 ∨ s = s0 →
    session_ok n i s ∧ (∀ p, has_pane p s → has_pane p s0) ∧ (∀ w, has_window w s → has_window w s0) ∧
    (se_windows s0 ≠ [] → se_windows s ≠ [])) as Hboth.
  { intros i s s0 Hs0 [[-> ->]| ->]; [apply Hf; by apply H1'|by split; [apply H1'|]]. }
  split_and!.
  - intros i s Hs. destruct (Hlk i s Hs) as (s0 & Hs0 & Hc). by apply (Hboth i s s0).
  - intros p i j s t Hs Ht Hp Hq. destruct (Hlk i s Hs) as (s0 & Hs0 & Hc).
    destruct (Hlk j t Ht) as (t0 & Ht0 & Hd). eapply H2'; [exact Hs0|exact Ht0|..].
    + by apply (Hboth i s s0).
    + by apply (Hboth j t t0).
  - intros w i j s t Hs Ht Hp Hq. destruct (Hlk i s Hs) as (s0 & Hs0 & Hc).
    destruct (Hlk j t Ht) as (t0 & Ht0 & Hd). eapply H3'; [exact Hs0|exact Ht0|..].
    + by apply (Hboth i s s0).
    + by apply (Hboth j t t0).
  - intros i s Hs. destruct (Hlk i s Hs) as (s0 & Hs0 & Hc).
    destruct (H4' i s0 Hs0) as [|Hne]; [by left|]. right. by apply (Hboth i s s0).
Qed.

Lemma sessions_ok_delete ex n sid m : sessions_ok ex n m → sessions_ok ex n (delete sid m).
Proof.
  intros (H1' & H2' & H3' & H4').
  assert (∀ i s, delete sid m !! i = Some s → m !! i = Some s) as Hlk
    by (intros i s Hs; by apply lookup_delete_Some in Hs as [_ ?]).
  split_and!.
  - intros i s Hs. by apply H1', Hlk.
  - intros p i j s t Hs Ht. apply (H2' p); by apply Hlk.
  - intros w i j s t Hs Ht. apply (H3' w); by apply Hlk.
  - intros i s Hs. by apply H4', Hlk.
Qed.

(** The windows of a session under a change of some of them. *)
Lemma shrinks_panes n sid f :
  (∀ m, map_Forall (λ pid p, pa_id p = pid ∧ pa_session p = sid ∧ drawn n (pane_uuid pid)) m →
     map_Forall (λ pid p, pa_id p = pid ∧ pa_session p = sid ∧ drawn n (pane_uuid pid)) (f m)) →
  (∀ m p, is_Some (f m !! p) → is_Some (m !! p)) →
  shrinks n sid (with_panes f).
Proof. intros Hf Hd s (H1' & H2' & H3' & H4' & H5'). split; [by do 4 (split; [done|]); apply Hf|]. split; [|done].
  intros p. apply Hd.
Qed.

Lemma shrinks_delete_pane n sid p : shrinks n sid (with_panes (delete p)).
Proof.
  apply shrinks_panes.
  - intros m Hm q x Hx. apply lookup_delete_Some in Hx as [_ Hx]. by apply Hm.
  - intros m q [x Hx]. apply lookup_delete_Some in Hx as [_ Hx]. eauto.
Qed.

Lemma shrinks_alter_pane n sid p f :
  (∀ x, pa_id (f x) = pa_id x ∧ pa_session (f x) = pa_session x) →
  shrinks n sid (with_panes (alter f p)).
Proof.
  intros Hf. apply shrinks_panes.
  - intros m Hm q x. destruct (decide (q = p)) as [->|Hne].
    + rewrite lookup_alter_eq. intros Hx. apply fmap_Some in Hx as (x0 & Hx0 & ->).
      destruct (Hf x0) as [-> ->]. by apply Hm.
    + rewrite lookup_alter_ne by done. apply Hm.
  - intros m q. destruct (decide (q = p)) as [->|Hne].
    + rewrite lookup_alter_eq. by rewrite fmap_is_Some.
    + by rewrite lookup_alter_ne.
Qed.

Lemma shrinks_meta n sid f :
  (∀ s, se_id (f s) = se_id s ∧ se_panes (f s) = se_panes s ∧ se_windows (f s) = se_windows s) →
  shrinks n sid f.
Proof.
  intros Hf s Hs. destruct (Hf s) as (E1 & E2 & E3). unfold session_ok, has_pane, has_window in *.
  by rewrite E1, E2, E3.
Qed.

Lemma update_window_ids wid f s :
  (∀ w, ws_id (f w) = ws_id w) → ws_id <$> se_windows (update_window wid f s) = ws_id <$> se_windows s.
Proof.
  intros Hf. cbn. rewrite <- (list_fmap_compose _ ws_id). apply list_fmap_ext. intros i w _. cbn.
  case_match; [apply Hf|done].
Qed.

Lemma shrinks_window n sid wid f :
  (∀ w, ws_id (f w) = ws_id w) → (∀ w, window_ok n sid w → window_ok n sid (f w)) →
  shrinks n sid (update_window wid f).
Proof.
  intros Hid Hok s (H1' & H2' & H3' & H4' & H5'). split_and!.
  - split_and!; try done; [by rewrite update_window_ids|].
    cbn. apply Forall_fmap. eapply Forall_impl; [exact H4'|]. intros w Hw. cbn. case_match; auto.
  - done.
  - intros w. unfold has_window. by rewrite update_window_ids.
  - cbn. intros Hne Hnil. by apply map_eq_nil in Hnil.
Qed.

Lemma window_layout_ok n sid w t :
  layout_ok t → Forall (λ p, drawn n (pane_uuid p)) (all_leaves t) →
  window_ok n sid w → window_ok n sid (window_layout (Some t) w).
Proof. intros Ht Hl (H1' & H2' & _). split; [done|]. split; [done|]. by intros t' [= <-]. Qed.

(** ** Adding *)
Lemma sessions_ok_insert ex n sid s m :
  session_ok n sid s → (∀ p, ¬ has_pane p s ∨ ∀ i t, i ≠ sid → m !! i = Some t → ¬ has_pane p t) →
  (∀ w, ¬ has_window w s ∨ ∀ i t, i ≠ sid → m !! i = Some t → ¬ has_window w t) →
  se_windows s ≠ [] → sessions_ok ex n m → sessions_ok ex n (<[sid := s]> m).
Proof.
  intros Hs Hp Hw Hne (H1' & H2' & H3' & H4').
  assert (∀ has, (¬ has s ∨ ∀ i t, i ≠ sid → m !! i = Some t → ¬ has t) → exclusive has m →
    exclusive has (<[sid := s]> m)) as Hex.
  { intros has Hor Hm i j x y Hx Hy Hhx Hhy.
    apply lookup_insert_Some in Hx as [[<- <-]|[Hi Hx]], Hy as [[<- <-]|[Hj Hy]]; [done| | |by eapply Hm].
    - destruct Hor as [?|Ho]; [done|]. exfalso. by eapply Ho.
    - destruct Hor as [?|Ho]; [done|]. exfalso. by eapply (Ho i x). }
  split_and!.
  - by apply map_Forall_insert_2.
  - intros p. by apply Hex.
  - intros w. by apply Hex.
  - apply map_Forall_insert_2; [by right|done].
Qed.

(** An identifier that has not been drawn names no pane, leaf or window. *)
Lemma not_drawn_pane ex n m i s p :
  sessions_ok ex n m → m !! i = Some s → ¬ drawn n (pane_uuid p) → ¬ has_pane p s.
Proof. intros (H1' & _) Hs Hd [x Hx]. apply H1' in Hs as (_ & _ & _ & _ & Hp). by destruct (Hp p x Hx) as (_ & _ & ?). Qed.

Lemma not_drawn_window ex n m i s w :
  sessions_ok ex n m → m !! i = Some s → ¬ drawn n (window_uuid w) → ¬ has_window w s.
Proof.
  intros (H1' & _) Hs Hd Hw. apply H1' in Hs as (_ & _ & _ & Hws & _).
  apply list_elem_of_fmap in Hw as (x & -> & Hx). rewrite Forall_forall in Hws.
  by destruct (Hws x Hx) as (_ & ? & _).
Qed.

(** ** Store calls only ever draw more identifiers *)
Definition grows {A} (m : Store.S A) : Prop :=
  ∀ st, (Store.st_uuids st ≤ Store.st_uuids (m st).1)%nat.

Lemma grows_query {A} (f : Store.Db → result Store.StoreError (Store.Db * A)) : grows (Store.query env f).
Proof. intros st. unfold Store.query. destruct (Store.env_fault env _); [done|]. destruct (f _) as [[? ?]|]; done. Qed.
Lemma grows_execute f : grows (Store.execute env f).
Proof. apply grows_query. Qed.
Lemma grows_bind {A B} (m : Store.S A) (k : A → Store.S B) :
  grows m → (∀ a, grows (k a)) → grows (bind m k).
Proof.
  intros Hm Hk st. specialize (Hm st). unfold bind. destruct (m st) as [st' [a|e]]; cbn in *; [|done].
  specialize (Hk a st'). lia.
Qed.
Lemma grows_now_millis : grows (Store.now_millis env).
Proof. intros st. cbn. done. Qed.

Lemma grows_upsert_session id n : grows (Store.upsert_session env id n).
Proof. apply grows_bind; [apply grows_now_millis|]. intros t. apply grows_execute. Qed.
Lemma grows_upsert_pane id s a c co ro : grows (Store.upsert_pane env id s a c co ro).
Proof. apply grows_bind; [apply grows_now_millis|]. intros t. apply grows_execute. Qed.
Lemma grows_two id s g : grows (bind (Store.now_millis env) (λ t,
  bind (Store.ensure_pane_row env id s t) (λ _, Store.execute env g))).
Proof.
  apply grows_bind; [apply grows_now_millis|]. intros t. apply grows_bind; [apply grows_execute|].
  intros _. apply grows_execute.
Qed.

(** ** Look-ups *)
Lemma elem_of_map_values {K A} `{Countable K} (m : gmap K A) x :
  x ∈ map_values m ↔ ∃ k, m !! k = Some x.
Proof.
  unfold map_values. rewrite hash_order_perm, list_elem_of_fmap. split.
  - intros ([k y] & -> & Hin). apply elem_of_map_to_list in Hin. eauto.
  - intros [k Hk]. exists (k, x). split; [done|]. by apply elem_of_map_to_list.
Qed.

Lemma scan_pane_Some p l sess x :
  scan_pane p l = Some (sess, x) → sess ∈ l ∧ se_panes sess !! p = Some x.
Proof.
  induction l as [|s l IH]; [done|]. cbn. destruct (se_panes s !! p) eqn:E.
  - intros [= <- <-]. split; [by left|done].
  - intros [? ?]%IH. split; [by right|done].
Qed.

Lemma scan_pane_None p l : scan_pane p l = None → ∀ sess, sess ∈ l → se_panes sess !! p = None.
Proof.
  induction l as [|s l IH]; [by intros _ sess ?%not_elem_of_nil|]. cbn.
  destruct (se_panes s !! p) eqn:E; [done|]. intros Hl sess [->|Hin]%elem_of_cons; auto.
Qed.

Lemma get_pane_Some p s sess x :
  map_Forall (λ sid x, se_id x = sid) (rg_sessions s) → get_pane p s = Some (sess, x) →
  rg_sessions s !! se_id sess = Some sess ∧ se_panes sess !! p = Some x.
Proof.
  intros Hid Hg. apply scan_pane_Some in Hg as [Hin Hp]. apply elem_of_map_values in Hin as [k Hk].
  by rewrite (Hid k sess Hk).
Qed.

Lemma scan_window_Some w l sess x :
  scan_window w l = Some (sess, x) → sess ∈ l ∧ x ∈ se_windows sess ∧ ws_id x = w.
Proof.
  induction l as [|s l IH]; [done|]. cbn. destruct (find_first (is_window w) (se_windows s)) eqn:E.
  - intros [= <- <-]. apply find_first_Some in E as [Hin Hw]. split; [by left|]. split; [done|].
    by apply bool_decide_eq_true in Hw.
  - intros (? & ? & ?)%IH. split; [by right|done].
Qed.

Lemma window_in_Some wid s w :
  window_in wid s = Some w → ∃ sess, s = Some sess ∧ w ∈ se_windows sess ∧ ws_id w = wid.
Proof.
  destruct s as [sess|]; [|done]. cbn. intros Hf. apply find_first_Some in Hf as [Hin Hw].
  apply bool_decide_eq_true in Hw. eauto.
Qed.

Lemma sessions_ok_ids ex n m : sessions_ok ex n m → map_Forall (λ sid x, se_id x = sid) m.
Proof. intros (H1' & _) sid x Hx. by destruct (H1' sid x Hx). Qed.

(** ** Triples of the primitives, on assertions about sessions and supply *)
Definition onJ (J : nat → gmap SessionId SessionState → Prop) (s : Reg) : Prop :=
  J (Store.st_uuids (rg_store s)) (rg_sessions s).
Definition monoJ (J : nat → gmap SessionId SessionState → Prop) : Prop :=
  ∀ n n' m, (n ≤ n')%nat → J n m → J n' m.

Lemma store_call_J {A} J (m : Store.S A) :
  monoJ J → grows m → triple (onJ J) (store_call m) (λ _, onJ J) (onJ J).
Proof.
  intros Hm Hg s Hs. unfold store_call, zoom. specialize (Hg (rg_store s)).
  destruct (m (rg_store s)) as [st' [a|e]]; cbn in *; by eapply Hm.
Qed.
Lemma log_store_J {A} J (m : Store.S A) X :
  monoJ J → grows m → triple (onJ J) (log_store m) (λ _, onJ J) X.
Proof. intros Hm Hg. apply triple_attempt. by apply store_call_J. Qed.
Lemma utc_now_J J : monoJ J → triple (onJ J) (utc_now env) (λ _, onJ J) (onJ J).
Proof. intros Hm. apply store_call_J; [done|]. intros st. cbn. done. Qed.
Lemma emit_J J p k st ag X : triple (onJ J) (emit_event p k st ag) (λ _, onJ J) X.
Proof. apply triple_modify. intros s Hs. unfold onJ. by destruct (EventBus.emit_event _ _). Qed.
Lemma modify_session_J J J' sid f X :
  (∀ n m, J n m → J' n (alter f sid m)) → triple (onJ J) (modify_session sid f) (λ _, onJ J') X.
Proof. intros Hf. apply triple_modify. intros s Hs. by apply Hf. Qed.
Lemma modify_sessions_J J J' f X :
  (∀ n m, J n m → J' n (f m)) → triple (onJ J) (modify_sessions f) (λ _, onJ J') X.
Proof. intros Hf. apply triple_modify. intros s Hs. by apply Hf. Qed.
Lemma kill_J J os p : triple (onJ J) (kill os p) (λ _, onJ J) (onJ J).
Proof. unfold kill. destruct (os_kill os _); [by apply triple_ret|by apply triple_throw]. Qed.

Definition okJ : nat → gmap SessionId SessionState → Prop := sessions_ok none.
Lemma okJ_mono : monoJ okJ.
Proof. intros n n' m. apply sessions_ok_mono. Qed.

(** ** Panes *)
Context (distinct : ∀ i j, Store.env_uuid env i = Store.env_uuid env j → i = j).

(** [p] is drawn and appears in no tree but possibly as its only leaf, and none of
    the panes [K] that were there before is [p]. *)
Definition leaf_new (p : PaneId) (m : gmap SessionId SessionState) : Prop :=
  ∀ i s w t, m !! i = Some s → w ∈ se_windows s → ws_layout w = Some t →
    p ∉ all_leaves t ∨ t = Leaf p.
Definition knownJ (K : PaneId → Prop) (n : nat) (m : gmap SessionId SessionState) : Prop :=
  okJ n m ∧ ∀ q, K q → drawn n (pane_uuid q).
Definition newJ (K : PaneId → Prop) (p : PaneId) (n : nat) (m : gmap SessionId SessionState) : Prop :=
  knownJ K n m ∧ drawn n (pane_uuid p) ∧ (¬ K p) ∧ leaf_new p m.
Definition absentJ (K : PaneId → Prop) (p : PaneId) (n : nat) (m : gmap SessionId SessionState) : Prop :=
  newJ K p n m ∧ ∀ i s, m !! i = Some s → ¬ has_pane p s.

Lemma knownJ_mono K : monoJ (knownJ K).
Proof.
  intros n n' m Hle [H1' H2']. split; [by eapply okJ_mono|]. intros q Hq.
  eapply drawn_mono; [exact Hle|]. by apply H2'.
Qed.
Lemma newJ_mono K p : monoJ (newJ K p).
Proof.
  intros n n' m Hle (H1' & H2' & H3'). split; [by eapply knownJ_mono|]. split; [by eapply drawn_mono|done].
Qed.
Lemma absentJ_mono K p : monoJ (absentJ K p).
Proof. intros n n' m Hle [H1' H2']. split; [by eapply newJ_mono|done]. Qed.

Lemma fresh_pane_J K :
  triple (onJ (knownJ K)) (fresh_uuid env) (λ u, onJ (absentJ K (MkPaneId u))) (onJ okJ).
Proof.
  intros s [Hok HK]. unfold fresh_uuid, store_call, zoom. cbn.
  set (n := Store.st_uuids (rg_store s)) in *.
  assert (¬ drawn n (Store.env_uuid env n)) as Hnd by (by apply fresh_not_drawn).
  split; [|intros i x Hx; by eapply not_drawn_pane].
  split; [eapply knownJ_mono; [|by split]; cbn; unfold n; lia|].
  split; [exists n; cbn; split; [unfold n; cbn; lia|done]|]. split; [intros Hk; by apply HK in Hk|].
  intros i x w t Hx Hw Ht. left. intros Hin. destruct Hok as (H1' & _).
  apply H1' in Hx as (_ & _ & _ & Hws & _). rewrite Forall_forall in Hws.
  destruct (Hws w Hw) as (_ & _ & Hl). destruct (Hl t Ht) as [_ Hd].
  rewrite Forall_forall in Hd. by apply Hd in Hin.
Qed.

Lemma spawn_pty_J K os req sid wid name sname :
  triple (onJ (knownJ K)) (spawn_pty env os req sid wid name sname)
    (λ p s, onJ (absentJ K (pa_id p)) s ∧ pa_session p = sid) (onJ okJ).
Proof.
  unfold spawn_pty. eapply triple_bind.
  { apply (triple_expect _ _ _ (λ _, onJ (knownJ K))); [done|]. by intros s [? _]. }
  intros pid. eapply triple_bind; [apply fresh_pane_J|]. intros u. cbn zeta.
  assert (∀ s, onJ (absentJ K (MkPaneId u)) s → onJ okJ s) as Hw by (by intros s [[[? _] _] _]).
  eapply triple_bind.
  { eapply triple_conseq; [apply (store_call_J (absentJ K (MkPaneId u))); [apply absentJ_mono|apply grows_upsert_session]|done|done|done]. }
  intros []. eapply triple_bind.
  { eapply triple_conseq; [apply (store_call_J (absentJ K (MkPaneId u))); [apply absentJ_mono|apply grows_upsert_pane]|done|done|done]. }
  intros []. eapply triple_bind.
  { eapply triple_conseq; [apply (utc_now_J (absentJ K (MkPaneId u))); apply absentJ_mono|done|done|done]. }
  intros t. apply triple_ret. intros s Hs. by split.
Qed.

Lemma add_pane_J K sid p :
  pa_session p = sid → ∀ n m, absentJ K (pa_id p) n m → newJ K (pa_id p) n (alter (with_panes <[pa_id p := p]>) sid m).
Proof.
  intros Hsid n m [([Hok HKd] & Hd & HK & Hl) Hno].
  destruct (m !! sid) as [s|] eqn:E; [|by rewrite (alter_id _ m sid); [done|congruence]].
  assert (alter (with_panes <[pa_id p := p]>) sid m = <[sid := with_panes <[pa_id p := p]> s]> m) as ->.
  { by apply alter_insert_at. }
  assert (session_ok n sid s) as Hs by (by apply Hok). pose proof Hok as (_ & Hxp & Hxw & Hne).
  split; [split; [|done]|split; [done|split; [done|]]].
  - apply sessions_ok_insert; [| | | |exact Hok].
    + destruct Hs as (G1 & G2 & G3 & G4 & G5). split_and!; try done. cbn.
      apply map_Forall_insert_2; [done|exact G5].
    + intros q. destruct (decide (q = pa_id p)) as [->|Hq]; [right; intros i t _ Ht; by eapply Hno|].
      destruct (decide (is_Some (se_panes s !! q))) as [Hin|Hin].
      * right. intros i t Hi Ht Hq'. apply Hi. by eapply (Hxp q i sid).
      * left. unfold has_pane. cbn. by rewrite lookup_insert_ne.
    + intros w. destruct (decide (w ∈ (ws_id <$> se_windows s))) as [Hin|Hin]; [|by left].
      right. intros i t Hi Ht Hw'. apply Hi. by eapply (Hxw w i sid).
    + cbn. by destruct (Hne sid s E).
  - intros i x w t Hx Hw Ht. apply lookup_insert_Some in Hx as [[<- <-]|[_ Hx]]; by eapply Hl.
Qed.

(** A new tree for a window. *)
Lemma set_layout_J sid wid t n m :
  layout_ok t → Forall (λ p, drawn n (pane_uuid p)) (all_leaves t) →
  okJ n m → okJ n (alter (update_window wid (window_layout (Some t))) sid m).
Proof.
  intros Ht Hl Hm. apply sessions_ok_alter; [|done].
  apply shrinks_window; [done|]. intros w. by apply window_layout_ok.
Qed.


Lemma init_layout_J K sid wid p X :
  triple (onJ (newJ K p)) (init_layout env sid wid p) (λ _, onJ (newJ K p)) X.
Proof.
  unfold init_layout. eapply triple_bind; [by apply (triple_gets _ _ (λ _, onJ (newJ K p)))|].
  intros sess. destruct (window_in wid sess) as [w|]; [|by apply triple_ret].
  destruct (ws_layout w); [by apply triple_ret|]. eapply triple_bind.
  - apply (modify_session_J _ (newJ K p)). intros n m ([Hok HKd] & Hd & HK & Hl). split; [split; [|done]|split; [done|split; [done|]]].
    + apply set_layout_J; [apply leaf_layout_ok|by apply Forall_singleton|done].
    + intros i s w' t. destruct (decide (i = sid)) as [->|Hne].
      * rewrite lookup_alter_eq. intros Hs. apply fmap_Some in Hs as (s0 & Hs0 & ->). cbn.
        intros Hw. apply list_elem_of_fmap in Hw as (w0 & -> & Hw0). case_match.
        -- intros [= <-]. by right.
        -- by eapply Hl.
      * rewrite lookup_alter_ne by done. apply Hl.
  - intros []. apply log_store_J; [apply newJ_mono|apply grows_execute].
Qed.

Lemma open_pane_J K os sid req :
  triple (onJ (knownJ K)) (open_pane env os sid req) (λ p, onJ (newJ K (pa_id p))) (onJ okJ).
Proof.
  unfold open_pane. eapply triple_bind; [by apply (triple_gets _ _ (λ _, onJ (knownJ K)))|].
  intros found. eapply triple_bind; [apply (triple_expect _ _ _ (λ _, onJ (knownJ K))); [done|by intros s [? _]]|].
  intros session. eapply triple_bind; [apply (triple_expect _ _ _ (λ _, onJ (knownJ K))); [done|by intros s [? _]]|].
  intros window. eapply triple_bind; [apply spawn_pty_J|]. intros p. cbn beta.
  intros s [Hs Hsid]. revert s Hs. change (triple (onJ (absentJ K (pa_id p)))
    (do! log_store (Store.assign_pane_window env (pa_id p) sid (ws_id window)) in
     do! modify_session sid (with_panes <[pa_id p := p]>) in
     let! t := utc_now env in
     do! modify_session sid (with_active t) in
     do! init_layout env sid (ws_id window) (pa_id p) in
     do! emit_event (pa_id p) Spawned (Some Running) (Some (PaneTracker.tr_agent (pa_tracker p))) in
     ret p) (λ p, onJ (newJ K (pa_id p))) (onJ okJ)).
  eapply triple_bind; [apply log_store_J; [apply absentJ_mono|apply grows_two]|]. intros [].
  eapply triple_bind; [by apply (modify_session_J _ (newJ K (pa_id p))), add_pane_J|]. intros [].
  eapply triple_bind; [eapply triple_conseq; [apply (utc_now_J (newJ K (pa_id p))), newJ_mono|done|done|by intros s [[? _] _]]|].
  intros t. eapply triple_bind.
  { apply (modify_session_J _ (newJ K (pa_id p))). intros n m ([Hok HKd] & Hd & HK & Hl).
    split; [split; [apply sessions_ok_alter; [by apply shrinks_meta|done]|done]|]. split; [done|]. split; [done|].
    intros i s w t'. destruct (decide (i = sid)) as [->|Hne].
    - rewrite lookup_alter_eq. intros Hs. apply fmap_Some in Hs as (s0 & Hs0 & ->). exact (Hl sid s0 w t' Hs0).
    - rewrite lookup_alter_ne by done. apply Hl. }
  intros []. eapply triple_bind; [apply init_layout_J|]. intros [].
  eapply triple_bind; [apply emit_J|]. intros []. by apply triple_ret.
Qed.

(** A pane that was found is known. *)
Lemma get_pane_known p sess x s :
  onJ okJ s → get_pane p s = Some (sess, x) →
  onJ (knownJ (λ q, q = p)) s ∧ rg_sessions s !! se_id sess = Some sess.
Proof.
  intros Hok Hg. destruct (get_pane_Some p s sess x (sessions_ok_ids _ _ _ Hok) Hg) as [Hs Hp].
  split; [|done]. split; [done|]. intros q ->. destruct Hok as (H1' & _).
  apply H1' in Hs as (_ & _ & _ & _ & Hps). by destruct (Hps p x Hp) as (_ & _ & ?).
Qed.

Lemma split_tree_ok n m parent p orient (K : PaneId → Prop) t :
  newJ K p n m → K parent →
  (t = Leaf parent ∨ ∃ i s w, m !! i = Some s ∧ w ∈ se_windows s ∧ ws_layout w = Some t) →
  layout_ok (split_focused t parent p orient) ∧
  Forall (λ q, drawn n (pane_uuid q)) (all_leaves (split_focused t parent p orient)).
Proof.
  intros ([Hok HKd] & Hd & HK & Hl) Hpar Ht. pose proof (HKd parent Hpar) as Hdp.
  assert (parent ≠ p) as Hne by (by intros ->).
  assert (layout_ok t ∧ Forall (λ q, drawn n (pane_uuid q)) (all_leaves t) ∧ (p ∉ all_leaves t ∨ t = Leaf p))
    as (Htok & Htd & Hor).
  { destruct Ht as [->|(i & s & w & Hs & Hw & Ht)].
    - split; [apply leaf_layout_ok|]. split; [by apply Forall_singleton|]. left. cbn. set_solver.
    - pose proof (Hl i s w t Hs Hw Ht) as Hor. destruct Hok as (H1' & _).
      apply H1' in Hs as (_ & _ & _ & Hws & _). rewrite Forall_forall in Hws.
      destruct (Hws w Hw) as (_ & _ & Hlay). by destruct (Hlay t Ht). }
  split.
  - destruct Hor as [Hp| ->]; [by apply (layout_step_ok t); [constructor|]|].
    unfold split_focused. rewrite split_absent; [done|]. cbn. set_solver.
  - rewrite Forall_forall in *. intros q Hq. apply split_leaves_subset in Hq as [Hq| ->]; auto.
Qed.

Lemma open_pane_split_J os parent orient name cwd cmd :
  triple (onJ okJ) (open_pane_split env os parent orient name cwd cmd) (λ _, onJ okJ) (onJ okJ).
Proof.
  unfold open_pane_split. set (K := λ q, q = parent). eapply triple_bind.
  { apply (triple_gets _ _ (λ f s, onJ okJ s ∧ f = get_pane parent s)). by intros s Hs. }
  intros found. eapply triple_bind.
  { apply (triple_expect _ _ _ (λ sp s, onJ (knownJ K) s)).
    - intros [sess x] s -> [Hs Hg]. symmetry in Hg. by destruct (get_pane_known _ _ _ _ Hs Hg).
    - by intros s [? _]. }
  intros [sess x]. eapply triple_bind.
  { apply (triple_expect _ _ _ (λ _, onJ (knownJ K))); [done|by intros s [? _]]. }
  intros window. eapply triple_bind.
  { intros s Hs. pose proof Hs as [_ HK]. pose proof (open_pane_J K os (se_id sess)
      (MkOpenPaneReq (se_id sess) (pa_window x) (match cmd with Some c => Some c | None => Some (pa_shell x) end)
         cwd (pa_cols x) (pa_rows x) [] name) s Hs) as Ho.
    exact Ho. }
  intros p. cbn beta. eapply triple_bind.
  { apply (triple_gets _ _ (λ f s, onJ (newJ K (pa_id p)) s ∧ f = get_session (se_id sess) s)). by intros s Hs. }
  intros sess'. cbn zeta. eapply triple_bind.
  { apply (triple_modify _ _ (λ _, onJ okJ)). intros s [Hs ->]. unfold onJ. cbn [set_sessions rg_store rg_sessions].
    destruct (split_tree_ok (Store.st_uuids (rg_store s)) (rg_sessions s) parent (pa_id p) orient K
      (default (Leaf parent) (window_in (pa_window x) (get_session (se_id sess) s) ≫= ws_layout)) Hs eq_refl)
      as [Hok Hd].
    2: { apply set_layout_J; [exact Hok|exact Hd|apply Hs]. }
    destruct (window_in (pa_window x) (get_session (se_id sess) s)) as [w|] eqn:Ew; [|by left].
    cbn. destruct (ws_layout w) as [t|] eqn:Et; [|by left]. right.
    apply window_in_Some in Ew as (sx & Hsx & Hw & _). by exists (se_id sess), sx, w. }
  intros []. eapply triple_bind; [apply (log_store_J okJ); [apply okJ_mono|apply grows_execute]|]. intros [].
  eapply triple_bind; [apply emit_J|]. intros []. by apply triple_ret.
Qed.

(** ** The operations that draw nothing *)
Definition preserves {A} (m : R A) : Prop := triple (onJ okJ) m (λ _, onJ okJ) (onJ okJ).

Lemma preserves_bind {A B} (m : R A) (k : A → R B) :
  preserves m → (∀ a, preserves (k a)) → preserves (bind m k).
Proof. intros Hm Hk. by eapply triple_bind. Qed.
Lemma preserves_ret {A} (a : A) : preserves (ret a).
Proof. by apply triple_ret. Qed.
Lemma preserves_gets {A} (f : Reg → A) : preserves (gets f).
Proof. by apply triple_gets. Qed.
Lemma preserves_expect {A} (o : option A) e : preserves (expect o e).
Proof. by apply triple_expect. Qed.
Lemma preserves_emit p k st ag : preserves (emit_event p k st ag).
Proof. apply emit_J. Qed.
Lemma preserves_kill os p : preserves (kill os p).
Proof. apply kill_J. Qed.
Lemma preserves_attempt {A} (m : R A) : preserves m → preserves (attempt m).
Proof. intros Hm. by apply triple_attempt. Qed.
Lemma preserves_store {A} (m : Store.S A) : grows m → preserves (store_call m).
Proof. intros Hm. apply store_call_J; [apply okJ_mono|done]. Qed.
Lemma preserves_log {A} (m : Store.S A) : grows m → preserves (log_store m).
Proof. intros Hm. by apply preserves_attempt, preserves_store. Qed.
Lemma preserves_now : preserves (utc_now env).
Proof. apply utc_now_J, okJ_mono. Qed.
Lemma preserves_alter sid f : (∀ n, shrinks n sid f) → preserves (modify_session sid f).
Proof. intros Hf. apply modify_session_J. intros n m. by apply sessions_ok_alter. Qed.
Lemma preserves_delete sid : preserves (modify_sessions (delete sid)).
Proof. apply modify_sessions_J. intros n m. apply sessions_ok_delete. Qed.
Lemma preserves_for_each {A} (f : A → R unit) l : (∀ x, preserves (f x)) → preserves (for_each f l).
Proof. intros Hf. by apply triple_for_each. Qed.

Lemma close_in_layout_preserves sid wid p : preserves (close_in_layout env sid wid p).
Proof.
  unfold close_in_layout, preserves. eapply triple_bind.
  { apply (triple_gets _ _ (λ f s, onJ okJ s ∧ f = get_session sid s)). by intros s Hs. }
  intros sess. destruct (window_in wid sess) as [w|] eqn:Ew; cbn [mbind option_bind].
  2: { apply triple_ret. by intros s [? _]. }
  destruct (ws_layout w) as [tree|] eqn:Et; [|apply triple_ret; by intros s [? _]].
  eapply triple_bind.
  { apply (triple_modify _ _ (λ _, onJ okJ)). intros s [Hs ->]. unfold onJ. cbn [set_sessions rg_store rg_sessions].
    apply window_in_Some in Ew as (sx & Hsx & Hw & _). pose proof Hs as (H1' & _).
    apply H1' in Hsx as (_ & _ & _ & Hws & _). rewrite Forall_forall in Hws.
    destruct (Hws w Hw) as (_ & _ & Hl). destruct (Hl tree Et) as [Hok Hd].
    apply set_layout_J; [by apply (layout_step_ok tree); [constructor|]| |done].
    rewrite Forall_forall in *. intros q Hq. by apply Hd, (close_leaves_subset tree p). }
  intros []. apply preserves_bind; [apply preserves_log, grows_execute|]. intros []. apply preserves_emit.
Qed.

Lemma evict_preserves sid : preserves (evict_session_if_empty sid).
Proof.
  apply preserves_bind; [apply preserves_gets|]. intros [s|]; [|apply preserves_ret].
  case_decide; [apply preserves_delete|apply preserves_ret].
Qed.

Lemma close_pane_preserves os p : preserves (close_pane env os p).
Proof.
  apply preserves_bind; [apply preserves_gets|]. intros found.
  apply preserves_bind; [apply preserves_expect|]. intros [sess x].
  apply preserves_bind; [apply preserves_kill|]. intros [].
  apply preserves_bind; [apply preserves_now|]. intros t.
  apply preserves_bind; [apply preserves_alter; intros n; by apply shrinks_alter_pane|]. intros [].
  apply preserves_bind; [apply preserves_alter; intros n; apply shrinks_delete_pane|]. intros [].
  apply preserves_bind; [apply close_in_layout_preserves|]. intros [].
  apply preserves_bind; [apply evict_preserves|]. intros []. apply preserves_emit.
Qed.

Lemma set_pane_weight_preserves p w : preserves (set_pane_weight env p w).
Proof.
  unfold set_pane_weight, preserves. eapply triple_bind.
  { apply (triple_gets _ _ (λ f s, onJ okJ s ∧ f = get_pane p s)). by intros s Hs. }
  intros found. eapply triple_bind.
  { apply (triple_expect _ _ _ (λ sp s, onJ okJ s ∧ rg_sessions s !! se_id sp.1 = Some sp.1)).
    - intros [sess x] s -> [Hs Hg]. symmetry in Hg. split; [done|]. by destruct (get_pane_known _ _ _ _ Hs Hg).
    - by intros s [? _]. }
  intros [sess x]. cbn [fst]. eapply triple_bind.
  { apply (triple_expect _ _ _ (λ w s, (onJ okJ s ∧ rg_sessions s !! se_id sess = Some sess) ∧ w ∈ se_windows sess)).
    - intros win s Hf Hs. apply find_first_Some in Hf as [Hf _]. by split.
    - by intros s [? _]. }
  intros win. eapply triple_bind.
  { apply (triple_expect _ _ _ (λ t s, onJ okJ s ∧ layout_ok t ∧
      Forall (λ q, drawn (Store.st_uuids (rg_store s)) (pane_uuid q)) (all_leaves t))).
    - intros t s Ht [[Hs Hsess] Hw]. split; [done|]. destruct Hs as (H1' & _).
      apply H1' in Hsess as (_ & _ & _ & Hws & _). rewrite Forall_forall in Hws.
      destruct (Hws win Hw) as (_ & _ & Hl). by apply Hl.
    - by intros s [[? _] _]. }
  intros t. cbn zeta. eapply triple_bind.
  { apply (triple_modify _ _ (λ _, onJ okJ)). intros s (Hs & Hok & Hd).
    apply set_layout_J; [by apply (layout_step_ok t); [constructor|]|by rewrite set_weight_leaves_ok|done]. }
  intros []. apply preserves_bind; [apply preserves_store, grows_execute|]. intros []. apply preserves_emit.
Qed.

Lemma rename_window_preserves w name : preserves (rename_window env w name).
Proof.
  apply preserves_bind; [apply preserves_gets|]. intros found.
  apply preserves_bind; [apply preserves_expect|]. intros sw.
  apply preserves_bind; [|intros []; apply preserves_store, grows_execute].
  apply preserves_alter. intros n. by apply shrinks_window.
Qed.

Lemma kill_session_preserves os sid : preserves (kill_session os sid).
Proof.
  apply preserves_bind; [apply preserves_gets|]. intros found.
  apply preserves_bind; [apply preserves_expect|]. intros sess.
  apply preserves_bind; [apply preserves_delete|]. intros [].
  apply preserves_for_each. intros p. apply preserves_bind; [apply preserves_attempt, preserves_kill|].
  intros []. apply preserves_emit.
Qed.

Lemma remove_pane_preserves p : preserves (remove_pane p).
Proof.
  apply preserves_bind; [apply preserves_gets|]. intros found.
  apply preserves_bind; [|intros []; apply preserves_emit].
  destruct found as [[sess x]|]; [|apply preserves_ret].
  apply preserves_bind; [apply preserves_alter; intros n; apply shrinks_delete_pane|]. intros [].
  case_decide; [apply preserves_delete|apply preserves_ret].
Qed.

Lemma rename_pane_preserves p name : preserves (rename_pane env p name).
Proof.
  apply preserves_bind; [apply preserves_gets|]. intros found.
  apply preserves_bind; [apply preserves_expect|]. intros sp.
  apply preserves_bind; [apply preserves_alter; intros n; by apply shrinks_alter_pane|]. intros [].
  apply preserves_store, grows_two.
Qed.

Lemma rename_session_preserves sid name : preserves (rename_session env sid name).
Proof.
  apply preserves_bind; [apply preserves_gets|]. intros found.
  apply preserves_bind; [apply preserves_expect|]. intros sp.
  apply preserves_bind; [apply preserves_alter; intros n; by apply shrinks_meta|]. intros [].
  apply preserves_store, grows_upsert_session.
Qed.

(** ** New sessions and windows *)
Lemma fresh_uuid_J J J' X :
  (∀ n m, J n m → (¬ drawn n (Store.env_uuid env n)) → J' (Store.env_uuid env n) (n + 1)%nat m) →
  triple (onJ J) (fresh_uuid env) (λ u, onJ (J' u)) X.
Proof.
  intros HJ s Hs. unfold fresh_uuid, store_call, zoom. cbn. apply HJ; [done|]. by apply fresh_not_drawn.
Qed.

Definition new_sidJ (u : Uuid) (n : nat) (m : gmap SessionId SessionState) : Prop :=
  okJ n m ∧ drawn n u ∧ m !! MkSessionId u = None.
Definition new_widJ (J : nat → gmap SessionId SessionState → Prop) (w : Uuid) (n : nat)
    (m : gmap SessionId SessionState) : Prop :=
  J n m ∧ drawn n w ∧ ∀ i s, m !! i = Some s → ¬ has_window (MkWindowId w) s.

Lemma drawn_next n : drawn (n + 1) (Store.env_uuid env n).
Proof. exists n. split; [lia|done]. Qed.

Lemma new_sidJ_mono u : monoJ (new_sidJ u).
Proof. intros n n' m Hle (H1' & H2' & H3'). split; [by eapply okJ_mono|]. split; [by eapply drawn_mono|done]. Qed.

Lemma new_widJ_fresh J :
  monoJ J → (∀ n m, J n m → okJ n m) → ∀ X,
  triple (onJ J) (fresh_uuid env) (λ w, onJ (new_widJ J w)) X.
Proof.
  intros Hm Hok X. apply fresh_uuid_J. intros n m HJ Hnd. split; [eapply Hm; [|exact HJ]; lia|].
  split; [apply drawn_next|]. intros i s Hs. eapply not_drawn_window; [by apply Hok|exact Hs|done].
Qed.

Lemma new_session_preserves name : preserves (new_session env name).
Proof.
  unfold new_session, preserves. eapply triple_bind.
  { apply (fresh_uuid_J _ new_sidJ). intros n m Hm Hnd. split; [eapply okJ_mono; [|exact Hm]; lia|].
    split; [apply drawn_next|]. destruct (m !! MkSessionId _) eqn:E; [|done].
    exfalso. destruct Hm as (H1' & _). by apply H1' in E as (_ & ? & _). }
  intros u. cbn zeta. eapply triple_bind.
  { eapply triple_conseq; [apply (utc_now_J (new_sidJ u)), new_sidJ_mono|done|done|by intros s [? _]]. }
  intros t. eapply triple_bind; [apply new_widJ_fresh; [apply new_sidJ_mono|by intros n m [? _]]|].
  intros w. cbn beta. eapply triple_bind.
  { apply (modify_sessions_J _ okJ). intros n m ((Hok & Hdu & Hnone) & Hdw & Hnw).
    apply sessions_ok_insert; [| | |done|done].
    - split_and!; [done|done|apply NoDup_singleton| |apply map_Forall_empty]. by apply Forall_singleton.
    - intros p. left. unfold has_pane. cbn. rewrite lookup_empty. by intros [].
    - intros w'. destruct (decide (w' = MkWindowId w)) as [->|Hne]; [right; intros i s _ Hs; by eapply Hnw|].
      left. unfold has_window. cbn. by rewrite list_elem_of_singleton. }
  intros []. apply preserves_bind; [apply preserves_log, grows_upsert_session|]. intros [].
  apply preserves_bind; [apply preserves_log, grows_execute|]. intros []. apply preserves_ret.
Qed.

Lemma add_window_J sid w n m :
  ws_session w = sid → ws_layout w = None → new_widJ okJ (window_uuid (ws_id w)) n m →
  okJ n (alter (with_windows (λ ws, ws ++ [w])) sid m).
Proof.
  intros Hsid Hlay (Hok & Hd & Hno).
  destruct (m !! sid) as [s|] eqn:E; [|by rewrite (alter_id _ m sid); [|congruence]].
  assert (alter (with_windows (λ ws, ws ++ [w])) sid m = <[sid := with_windows (λ ws, ws ++ [w]) s]> m) as ->.
  { by apply alter_insert_at. }
  assert (session_ok n sid s) as (G1 & G2 & G3 & G4 & G5) by (by apply Hok).
  pose proof Hok as (_ & Hxp & Hxw & _).
  assert (∀ w', has_window w' (with_windows (λ ws, ws ++ [w]) s) → has_window w' s ∨ w' = ws_id w) as Hhw.
  { intros w'. unfold has_window. cbn. rewrite fmap_app. cbn. set_solver. }
  assert (¬ has_window (ws_id w) s) as Hnw by (destruct w as [[wu] ?????]; by eapply Hno).
  apply sessions_ok_insert; [| | | |done].
  - split_and!; [done|done| | |done]; cbn.
    + rewrite fmap_app. cbn. apply NoDup_app. split; [done|]. split; [|apply NoDup_singleton].
      intros x Hx ->%list_elem_of_singleton. by apply Hnw.
    + apply Forall_app. split; [done|]. apply Forall_singleton. split; [done|]. split; [done|].
      intros t Ht. congruence.
  - intros q. destruct (decide (is_Some (se_panes s !! q))) as [Hin|Hin]; [|by left].
    right. intros i t Hi Ht Hq'. apply Hi. by eapply (Hxp q i sid).
  - intros w'. destruct (decide (w' ∈ (ws_id <$> se_windows s))) as [Hin|Hin].
    + right. intros i t Hi Ht Hw'. apply Hi. by eapply (Hxw w' i sid).
    + destruct (decide (w' = ws_id w)) as [->|Hne]; [right; intros i t _ Ht; destruct w as [[wu] ?????]; by eapply Hno|].
      left. intros [?|?]%Hhw; done.
  - cbn. by destruct (se_windows s).
Qed.

Lemma new_window_preserves sid name : preserves (new_window env sid name).
Proof.
  apply preserves_bind; [apply preserves_gets|]. intros found.
  apply preserves_bind; [apply preserves_expect|]. intros session. cbn zeta.
  apply preserves_bind; [apply preserves_now|]. intros t. unfold preserves.
  eapply triple_bind; [apply new_widJ_fresh; [apply okJ_mono|done]|]. intros u. cbn beta zeta.
  eapply triple_bind; [apply (modify_session_J _ okJ); intros n m Hm; by apply add_window_J|].
  intros []. apply preserves_bind; [apply preserves_log, grows_execute|]. intros []. apply preserves_ret.
Qed.

(** ** Closing a window *)
Lemma drop_window_J sid wid n m :
  okJ n m → sessions_ok (λ x, x = sid) n (alter (with_windows (filter (λ w, ws_id w ≠ wid))) sid m).
Proof.
  intros Hok. set (f := with_windows (filter (λ w, ws_id w ≠ wid))).
  assert (∀ s, session_ok n sid s → session_ok n sid (f s) ∧ (∀ p, has_pane p (f s) → has_pane p s) ∧
    (∀ w, has_window w (f s) → has_window w s)) as Hf.
  { intros s (G1 & G2 & G3 & G4 & G5). split; [|split; [done|]].
    - split_and!; [done|done| | |done]; cbn.
      2: { rewrite Forall_forall in *. intros w Hw. apply list_elem_of_filter in Hw as [_ Hw]. auto. }
      by apply NoDup_fmap_filter.
    - intros w. unfold has_window. cbn. rewrite !list_elem_of_fmap. intros (x & -> & Hx).
      apply list_elem_of_filter in Hx as [_ Hx]. eauto. }
  destruct Hok as (H1' & H2' & H3' & H4').
  assert (∀ i s, alter f sid m !! i = Some s → ∃ s0, m !! i = Some s0 ∧ session_ok n i s ∧
    (∀ p, has_pane p s → has_pane p s0) ∧ (∀ w, has_window w s → has_window w s0) ∧
    (i = sid ∨ s = s0)) as Hlk.
  { intros i s. destruct (decide (i = sid)) as [->|Hne].
    - rewrite lookup_alter_eq. intros Hs. apply fmap_Some in Hs as (s0 & Hs0 & ->).
      exists s0. destruct (Hf s0) as (? & ? & ?); [by apply H1'|]. split_and!; [done..|by left].
    - rewrite lookup_alter_ne by done. intros Hs. exists s. split_and!; try done; [by apply H1'|by right]. }
  split_and!.
  - intros i s Hs. by destruct (Hlk i s Hs) as (s0 & _ & ? & _).
  - intros p i j s t Hs Ht Hp Hq. destruct (Hlk i s Hs) as (s0 & Hs0 & _ & Hp0 & _).
    destruct (Hlk j t Ht) as (t0 & Ht0 & _ & Hq0 & _). eapply (H2' p); eauto.
  - intros w i j s t Hs Ht Hp Hq. destruct (Hlk i s Hs) as (s0 & Hs0 & _ & _ & Hp0 & _).
    destruct (Hlk j t Ht) as (t0 & Ht0 & _ & _ & Hq0 & _). eapply (H3' w); eauto.
  - intros i s Hs. destruct (Hlk i s Hs) as (s0 & Hs0 & _ & _ & _ & [->| ->]); [by left|].
    right. by destruct (H4' i s0 Hs0).
Qed.

Lemma close_window_preserves os wid : preserves (close_window env os wid).
Proof.
  apply preserves_bind; [apply preserves_gets|]. intros found.
  apply preserves_bind; [apply preserves_expect|]. intros [sid pane_ids].
  apply preserves_bind; [apply preserves_for_each; intros p; apply preserves_attempt, close_pane_preserves|]. intros [].
  apply preserves_bind; [apply preserves_gets|]. intros sess.
  apply preserves_bind; [|intros []; apply preserves_log, grows_execute].
  destruct sess as [sess|]; [|apply preserves_ret]. unfold preserves. eapply triple_bind.
  { apply (modify_session_J _ (sessions_ok (λ x, x = sid))). intros n m. apply drop_window_J. }
  intros []. eapply triple_bind.
  { apply (triple_gets _ _ (λ f s, onJ (sessions_ok (λ x, x = sid)) s ∧ f = get_session sid s)). by intros s Hs. }
  intros sess'. assert (∀ s, onJ (sessions_ok (λ x, x = sid)) s →
    (∀ x, get_session sid s = Some x → se_windows x ≠ []) → onJ okJ s) as Hback.
  { intros s (H1' & H2' & H3' & H4') Hne. split_and!; [done..|]. intros i x Hx. right.
    destruct (H4' i x Hx) as [->|]; [by apply Hne|done]. }
  destruct sess' as [s'|].
  - case_decide as Hnil.
    + apply triple_modify. intros s [Hs Hg]. unfold onJ. cbn.
      destruct (sessions_ok_delete _ _ sid _ Hs) as (H1' & H2' & H3' & H4'). split_and!; [done..|].
      intros i x Hx. right. destruct (H4' i x Hx) as [->|]; [by rewrite lookup_delete_eq in Hx|done].
    + apply triple_ret. intros s [Hs Hg]. apply Hback; [done|]. intros x Hx. congruence.
  - apply triple_ret. intros s [Hs Hg]. apply Hback; [done|]. intros x Hx. congruence.
Qed.

Lemma run_op_ok op s : reg_ok s → reg_ok (run_op op s).
Proof.
  intros Hs. destruct op; cbn [run_op]; refine (triple_state _ _ reg_ok _ s Hs).
  - apply new_session_preserves.
  - eapply triple_conseq; [apply (open_pane_J (λ _, False))| | |].
    + intros s' Hs'. by split.
    + by intros p s' [[? _] _].
    + done.
  - apply close_pane_preserves.
  - apply open_pane_split_J.
  - apply set_pane_weight_preserves.
  - apply new_window_preserves.
  - apply rename_window_preserves.
  - apply close_window_preserves.
  - apply kill_session_preserves.
  - apply remove_pane_preserves.
  - apply rename_pane_preserves.
  - apply rename_session_preserves.
Qed.

Lemma run_ops_ok ops s : reg_ok s → reg_ok (run_ops ops s).
Proof. revert s. induction ops as [|op ops IH]; intros s Hs; [done|]. by apply IH, run_op_ok. Qed.

Lemma fresh_reg_ok dir : reg_ok (fresh_reg dir).
Proof.
  unfold reg_ok, sessions_ok. cbn [fresh_reg rg_sessions].
  split_and!; [apply map_Forall_empty| | |apply map_Forall_empty];
    intros x i j s t Hs; by rewrite lookup_empty in Hs.
Qed.
End Inv.

(** ** Property *)

(** C22: whatever sequence of operations clients and exiting shells cause, with
    whatever answers of the operating system and whichever database statements
    fail, the registry stays well formed: every session has a window; pane and
    window identifiers are used once, across all sessions; panes and windows carry
    the session they are in; and every stored layout is a tree of two-way splits
    with weights in 5..95 summing to 100, without a pane twice. *)
Theorem registry_reachable_ok `{UuidText, LayoutJson, SqlOrder, Zstd, ChronoRange, HashOrder}
  (env : Store.Env) dir ops
  (distinct : ∀ i j, Store.env_uuid env i = Store.env_uuid env j → i = j) :
  reg_ok env (run_ops env ops (fresh_reg dir)).
Proof. apply run_ops_ok; [done|]. apply fresh_reg_ok. Qed.

Definition list_hash : HashOrder := {| hash_order A l := l; hash_order_perm A l := reflexivity l |}.

Section Witnesses.
#[local] Existing Instances binary_uuid binary_json stable_order no_compression chrono_0_4 list_hash.

Definition some_os : Os := MkOs (Some 42) None (λ _, true) 0.
Definition some_req (s : SessionId) (w : WindowId) : OpenPaneReq :=
  MkOpenPaneReq s w None None 80 24 [] None.
(** A session with two panes side by side, then the first is closed. *)
Definition some_ops : list RegOp :=
  [RNewSession (Some "main"); ROpenPane some_os (MkSessionId 0) (some_req (MkSessionId 0) (MkWindowId 1));
   RSplit some_os (MkPaneId 2) Vertical None None None; RWeight (MkPaneId 3) 70;
   RClosePane some_os (MkPaneId 2)].

Lemma registry_reachable_ok_witness : reg_ok calm (run_ops calm some_ops (fresh_reg "/d")).
Proof. apply registry_reachable_ok. intros i j. cbn. lia. Defined.
End Witnesses.
