(* ===== verification/RegistrySync.v ===== *)
(** * RegistrySync: the database follows the registry

    When no statement is refused, the rows of the windows in the database agree
    with the registry after every operation and, since each event is emitted only
    after the write it announces, at every emission. *)
From Stdlib Require Import Strings.Byte.
From S2P Require Import Prelude Proto Text Layout LayoutTree Libraries Effects EventBus RingBuf.
From S2P Require Import PaneTracker Store StoreBlocks Registry RegistryInv.
Local Open Scope Z_scope.

Import Registry.

Section Sync.
Context `{UuidText, LayoutJson, SqlOrder, Zstd, ChronoRange, HashOrder}.
Context (env : Store.Env).
Context (no_fault : ∀ n, Store.env_fault env n = false).
Context (distinct : ∀ i j, Store.env_uuid env i = Store.env_uuid env j → i = j).

(** The row of a window says what the registry says. *)
Definition row_agrees (sid : SessionId) (w : WindowState) (row : Store.WindowRow) : Prop :=
  Store.wr_layout row = layout_to_json <$> ws_layout w ∧ Store.wr_name row = ws_name w ∧
  Store.wr_session_id row = Store.session_key sid ∧ Store.wr_position row = ws_position w.
Definition agrees (ss : gmap SessionId SessionState) (db : Store.Db) : Prop :=
  ∀ sid sess w, ss !! sid = Some sess → w ∈ se_windows sess →
    ∃ row, Store.db_windows db !! Store.window_key (ws_id w) = Some row ∧ row_agrees sid w row.

Definition synced (s : Reg) : Prop :=
  agrees (rg_sessions s) (Store.st_db (rg_store s)) ∧
  Forall (λ h, agrees h.1.2 h.2) (rg_history s).

(** ** What is known of the windows while an operation runs *)
Definition windowsJ (n : nat) (m : gmap SessionId SessionState) : Prop :=
  map_Forall (λ sid s, se_id s = sid ∧ NoDup (ws_id <$> se_windows s) ∧
                       Forall (λ w, drawn env n (window_uuid w)) (ws_id <$> se_windows s)) m ∧
  (∀ w, exclusive (has_window w) m).
Definition keeps_ids (f : SessionState → SessionState) : Prop :=
  ∀ s, se_id (f s) = se_id s ∧ ws_id <$> se_windows (f s) = ws_id <$> se_windows s.
Definition stableJ (J : nat → gmap SessionId SessionState → Prop) : Prop :=
  monoJ J ∧ (∀ n m, J n m → windowsJ n m) ∧
  ∀ n m sid f, keeps_ids f → J n m → J n (alter f sid m).
(** The session [sid] has the window [wid]. *)
Definition hasJ (sid : SessionId) (wid : WindowId) (n : nat) (m : gmap SessionId SessionState) : Prop :=
  windowsJ n m ∧ ∃ s, m !! sid = Some s ∧ has_window wid s.

(** Every row is of a window whose identifier has been drawn. *)
Definition rows_drawn (s : Reg) : Prop :=
  ∀ k, is_Some (Store.db_windows (Store.st_db (rg_store s)) !! k) →
    ∃ w, k = Store.window_key w ∧ drawn env (Store.st_uuids (rg_store s)) (window_uuid w).

Definition SJ (J : nat → gmap SessionId SessionState → Prop) (s : Reg) : Prop :=
  onJ J s ∧ synced s ∧ rows_drawn s.

Lemma alter_ids sid f (m : gmap SessionId SessionState) i s :
  keeps_ids f → alter f sid m !! i = Some s →
  ∃ s0, m !! i = Some s0 ∧ se_id s = se_id s0 ∧ ws_id <$> se_windows s = ws_id <$> se_windows s0.
Proof.
  intros Hf. destruct (decide (i = sid)) as [->|Hne].
  - rewrite lookup_alter_eq. intros Hs. apply fmap_Some in Hs as (s0 & Hs0 & ->).
    exists s0. split; [done|apply Hf].
  - rewrite lookup_alter_ne by done. eauto.
Qed.

Lemma windowsJ_stable : stableJ windowsJ.
Proof.
  split; [|split; [done|]].
  - intros n n' m Hle [H1' H2']. split; [|done]. intros sid s Hs.
    destruct (H1' sid s Hs) as (? & ? & Hd). split_and!; [done..|].
    eapply Forall_impl; [exact Hd|]. intros w. by apply drawn_mono.
  - intros n m sid f Hf [H1' H2']. split.
    + intros i s Hs. apply alter_ids in Hs as (s0 & Hs0 & -> & ->); [|done]. by apply H1'.
    + intros w i j s t Hs Ht. unfold has_window.
      apply alter_ids in Hs as (s0 & Hs0 & _ & ->); [|done].
      apply alter_ids in Ht as (t0 & Ht0 & _ & ->); [|done]. by apply H2'.
Qed.

Lemma hasJ_stable sid wid : stableJ (hasJ sid wid).
Proof.
  destruct windowsJ_stable as (Hm & _ & Ha). split; [|split].
  - intros n n' m Hle [H1' H2']. split; [by eapply Hm|done].
  - by intros n m [? _].
  - intros n m i f Hf [H1' (s & Hs & Hw)]. split; [by apply Ha|].
    destruct (decide (sid = i)) as [->|Hne].
    + exists (f s). rewrite lookup_alter_eq, Hs. split; [done|]. unfold has_window. by rewrite (proj2 (Hf s)).
    + exists s. by rewrite lookup_alter_ne.
Qed.

(** ** Primitives *)
Definition same_windows {A} (m : Store.S A) : Prop :=
  ∀ st, Store.db_windows (Store.st_db (m st).1) = Store.db_windows (Store.st_db st).

Lemma agrees_windows ss db db' :
  Store.db_windows db' = Store.db_windows db → agrees ss db → agrees ss db'.
Proof. intros E Ha sid sess w. rewrite E. apply Ha. Qed.

Lemma store_call_S {A} J (m : Store.S A) :
  stableJ J → grows m → same_windows m → triple (SJ J) (store_call m) (λ _, SJ J) (SJ J).
Proof.
  intros (Hm & _) Hg Hw s (Hs & [Ha Hh] & Hr).
  pose proof (store_call_J J m Hm Hg s Hs) as Ht.
  unfold store_call, zoom in *. specialize (Hw (rg_store s)). specialize (Hg (rg_store s)).
  assert (∀ st', Store.db_windows (Store.st_db st') = Store.db_windows (Store.st_db (rg_store s)) →
    (Store.st_uuids (rg_store s) ≤ Store.st_uuids st')%nat → synced (set_store st' s) ∧ rows_drawn (set_store st' s)) as Hst.
  { intros st' Hd Hle. split; [split; [by eapply agrees_windows|done]|].
    intros k. cbn [set_store rg_store]. rewrite Hd. intros (w & -> & Hw')%Hr. exists w. split; [done|by eapply drawn_mono]. }
  destruct (m (rg_store s)) as [st' [a|e]]; cbn [fst] in *; (split; [done|by apply Hst]).
Qed.

Lemma log_store_S {A} J (m : Store.S A) X :
  stableJ J → grows m → same_windows m → triple (SJ J) (log_store m) (λ _, SJ J) X.
Proof. intros HJ Hg Hw. apply triple_attempt. by apply store_call_S. Qed.

Lemma emit_S J p k st ag X : triple (SJ J) (emit_event p k st ag) (λ _, SJ J) X.
Proof.
  apply triple_modify. intros s (Hs & [Ha Hh] & Hr). unfold SJ, onJ, synced, rows_drawn.
  destruct (EventBus.emit_event _ _). cbn [rg_sessions rg_store rg_history].
  split; [done|]. split; [|done]. split; [done|]. apply Forall_app. split; [done|]. by apply Forall_singleton.
Qed.

(** Changes that leave the windows of the session as they are. *)
Lemma modify_session_S J sid f X :
  stableJ J → (∀ s, se_id (f s) = se_id s ∧ se_windows (f s) = se_windows s) →
  triple (SJ J) (modify_session sid f) (λ _, SJ J) X.
Proof.
  intros (_ & _ & Ha) Hf. apply triple_modify. intros s (Hs & [Hag Hh] & Hr). split; [|split; [split; [|done]|done]].
  - apply Ha; [|done]. intros x. by destruct (Hf x) as [-> ->].
  - cbn [set_sessions rg_sessions rg_store]. intros i sess w. destruct (decide (i = sid)) as [->|Hne].
    + rewrite lookup_alter_eq. intros Hx. apply fmap_Some in Hx as (s0 & Hs0 & ->).
      destruct (Hf s0) as [_ ->]. by apply Hag.
    + rewrite lookup_alter_ne by done. apply Hag.
Qed.

Definition droppable (J : nat → gmap SessionId SessionState → Prop) : Prop :=
  ∀ n m sid, J n m → J n (delete sid m).

Lemma windowsJ_droppable : droppable windowsJ.
Proof.
  intros n m sid [H1' H2']. split.
  - intros i x Hx. apply lookup_delete_Some in Hx as [_ Hx]. by apply H1'.
  - intros w i j x y Hx Hy. apply lookup_delete_Some in Hx as [_ Hx], Hy as [_ Hy]. by apply (H2' w).
Qed.

Lemma delete_session_S J sid X :
  droppable J → triple (SJ J) (modify_sessions (delete sid)) (λ _, SJ J) X.
Proof.
  intros HJ. apply triple_modify. intros s (Hs & [Hag Hh] & Hr).
  split; [by apply HJ|split; [split; [|done]|done]]. cbn [set_sessions rg_sessions rg_store].
  intros i sess w Hx. apply lookup_delete_Some in Hx as [_ Hx]. by apply Hag.
Qed.

Lemma window_key_inj w w' : Store.window_key w = Store.window_key w' → w = w'.
Proof. destruct w, w'. unfold Store.window_key. cbn. intros E. f_equal. by apply (inj uuid_to_string). Qed.

Lemma execute_run f st : Store.execute env f st = (Store.after_stmt (f (Store.st_db st)) st, Ok tt).
Proof. unfold Store.execute, Store.query. by rewrite no_fault. Qed.

(** A window changed in the registry and, next, its row in the database. *)
Lemma update_both J sid wid g h s :
  stableJ J → SJ J s → (∀ w, ws_id (g w) = ws_id w) →
  (∀ w row, row_agrees sid w row → row_agrees sid (g w) (h row)) →
  (∃ sess, rg_sessions s !! sid = Some sess ∧ has_window wid sess) →
  ∃ s', store_call (Store.execute env (Store.with_windows (alter h (Store.window_key wid))))
          (set_sessions (alter (update_window wid g) sid) s) = (s', Ok tt) ∧ SJ J s'.
Proof.
  intros (Hm & HJw & Hst) (Hs & [Hag Hh] & Hr) Hid Hrow (s0 & Hs0 & Hw0).
  unfold store_call, zoom. rewrite execute_run. eexists. split; [done|]. split; [|split; [split; [|done]|]].
  - apply Hst; [|exact Hs]. intros x. split; [done|]. by apply update_window_ids.
  - unfold agrees. cbn [set_store set_sessions rg_sessions rg_store Store.st_db Store.after_stmt Store.with_windows Store.db_windows].
    intros i sess w Hx Hw. apply HJw in Hs as [_ Hex].
    destruct (decide (i = sid)) as [->|Hne].
    + rewrite lookup_alter_eq, Hs0 in Hx. injection Hx as <-. cbn in Hw.
      apply list_elem_of_fmap in Hw as (w0 & -> & Hw). destruct (Hag sid s0 w0 Hs0 Hw) as (row & Hrw & Hra).
      unfold is_window. case_bool_decide as Ew.
      * exists (h row). rewrite Hid, Ew, lookup_alter_eq. rewrite Ew in Hrw. rewrite Hrw. split; [done|by apply Hrow].
      * exists row. rewrite lookup_alter_ne; [done|]. intros E. by apply window_key_inj in E.
    + rewrite lookup_alter_ne in Hx by done. destruct (Hag i sess w Hx Hw) as (row & Hrw & Hra).
      exists row. rewrite lookup_alter_ne; [done|]. intros E. apply window_key_inj in E. subst wid.
      apply Hne. eapply (Hex (ws_id w)); [exact Hx|exact Hs0| |done].
      unfold has_window. by apply list_elem_of_fmap_2.
  - unfold rows_drawn.
    cbn [set_store set_sessions rg_store Store.st_db Store.after_stmt Store.with_windows Store.db_windows Store.st_uuids].
    intros k. rewrite lookup_alter_is_Some. apply Hr.
Qed.

(** Setting a layout and persisting it, then the rest of the operation. *)
Definition has_in (sid : SessionId) (wid : WindowId) (s : Reg) : Prop :=
  ∃ sess, rg_sessions s !! sid = Some sess ∧ has_window wid sess.

Lemma persist_layout_S {A} J (P : Reg → Prop) sid wid t persist (k : unit → R A) Q X :
  stableJ J → (∀ s, P s → SJ J s ∧ has_in sid wid s) →
  (persist = store_call (Store.upsert_window_layout env wid (layout_to_json t)) ∨
   persist = log_store (Store.upsert_window_layout env wid (layout_to_json t))) →
  triple (SJ J) (k tt) Q X →
  triple P
    (do! modify_session sid (update_window wid (window_layout (Some t))) in
     do! persist in k tt) Q X.
Proof.
  intros HJ HP Hper Hk s Hs. apply HP in Hs as [Hs Hhas].
  destruct (update_both J sid wid (window_layout (Some t)) (Store.set_window_layout (layout_to_json t)) s HJ Hs)
    as (s' & Hrun & Hs'); [done| |done|].
  { intros w row (_ & H2' & H3' & H4'). by split. }
  unfold bind at 1, modify_session, modify_sessions, modify. cbn [fst snd].
  assert (persist (set_sessions (alter (update_window wid (window_layout (Some t))) sid) s) = (s', Ok tt)) as Hp.
  { destruct Hper as [-> | ->]; [exact Hrun|]. unfold log_store, attempt, Store.upsert_window_layout. by rewrite Hrun. }
  rewrite (bind_ok _ _ _ _ _ Hp). exact (Hk s' Hs').
Qed.

(** ** Calls that do not touch the windows *)
Lemma same_execute f :
  (∀ db, Store.db_windows (f db) = Store.db_windows db) → same_windows (Store.execute env f).
Proof. intros Hf st. rewrite execute_run. apply Hf. Qed.
Lemma same_bind {A B} (m : Store.S A) (k : A → Store.S B) :
  same_windows m → (∀ a, same_windows (k a)) → same_windows (bind m k).
Proof.
  intros Hm Hk st. specialize (Hm st). unfold bind. destruct (m st) as [st' [a|e]]; cbn in *; [|done].
  by rewrite (Hk a st').
Qed.
Lemma same_now_millis : same_windows (Store.now_millis env).
Proof. by intros st. Qed.
Lemma same_upsert_session id n : same_windows (Store.upsert_session env id n).
Proof. apply same_bind; [apply same_now_millis|]. intros t. by apply same_execute. Qed.
Lemma same_upsert_pane id s a c co ro : same_windows (Store.upsert_pane env id s a c co ro).
Proof. apply same_bind; [apply same_now_millis|]. intros t. by apply same_execute. Qed.
Lemma same_two id s g :
  (∀ db, Store.db_windows (g db) = Store.db_windows db) →
  same_windows (bind (Store.now_millis env) (λ t,
    bind (Store.ensure_pane_row env id s t) (λ _, Store.execute env g))).
Proof.
  intros Hg. apply same_bind; [apply same_now_millis|]. intros t.
  apply same_bind; [by apply same_execute|]. intros _. by apply same_execute.
Qed.

(** ** Operations *)
Definition keepsS {A} J (m : R A) : Prop := triple (SJ J) m (λ _, SJ J) (SJ J).

Lemma keepsS_bind {A B} J (m : R A) (k : A → R B) :
  keepsS J m → (∀ a, keepsS J (k a)) → keepsS J (bind m k).
Proof. intros Hm Hk. by eapply triple_bind. Qed.
Lemma keepsS_ret {A} J (a : A) : keepsS J (ret a).
Proof. by apply triple_ret. Qed.
Lemma keepsS_gets {A} J (f : Reg → A) : keepsS J (gets f).
Proof. by apply triple_gets. Qed.
Lemma keepsS_expect {A} J (o : option A) e : keepsS J (expect o e).
Proof. by apply triple_expect. Qed.
Lemma keepsS_now J : stableJ J → keepsS J (utc_now env).
Proof. intros HJ. apply store_call_S; [done|by intros st|by intros st]. Qed.
Lemma keepsS_fresh J : stableJ J → keepsS J (fresh_uuid env).
Proof. intros HJ. apply store_call_S; [done|intros st; cbn; lia|by intros st]. Qed.
Lemma keepsS_kill J os p : keepsS J (kill os p).
Proof. unfold kill. destruct (os_kill os _); [by apply triple_ret|by apply triple_throw]. Qed.

(** Reading the window before changing its layout. *)
Lemma window_layout_S {A} J sid wid (k : option SessionState → R A) :
  (∀ sess, triple (λ s, SJ J s ∧ (is_Some (window_in wid sess) → has_in sid wid s)) (k sess) (λ _, SJ J) (SJ J)) →
  keepsS J (bind (gets (get_session sid)) k).
Proof.
  intros Hk. eapply triple_bind; [|exact Hk].
  apply triple_gets. intros s Hs. split; [done|]. intros [w Hw].
  apply window_in_Some in Hw as (sess & Hsess & Hin & <-). exists sess. split; [done|].
  by apply list_elem_of_fmap_2.
Qed.

Lemma init_layout_S J sid wid p : stableJ J → keepsS J (init_layout env sid wid p).
Proof.
  intros HJ. apply (window_layout_S J sid wid). intros sess. destruct (window_in wid sess) as [w|]; [|apply triple_ret; by intros s [? _]].
  destruct (ws_layout w); [apply triple_ret; by intros s [? _]|].
  intros s Hs.
  pose proof (persist_layout_S J _ sid wid (Leaf p) _ ret (λ _, SJ J) (SJ J) HJ
    (λ s (Hs : SJ J s ∧ (is_Some (Some w) → has_in sid wid s)), conj (proj1 Hs) (proj2 Hs (mk_is_Some _ _ eq_refl)))
    (or_intror eq_refl) (keepsS_ret J tt) s Hs) as Hrun.
  unfold bind in Hrun |- *. destruct (modify_session _ _ s) as [s1 [[]|e]]; [|done].
  by destruct (log_store _ s1) as [s2 [[]|e]].
Qed.

Lemma spawn_pty_S J os req sid wid name sname : stableJ J → keepsS J (spawn_pty env os req sid wid name sname).
Proof.
  intros HJ. apply keepsS_bind; [apply keepsS_expect|]. intros pid.
  apply keepsS_bind; [by apply keepsS_fresh|]. intros u.
  apply keepsS_bind; [apply store_call_S; [done|apply grows_upsert_session|apply same_upsert_session]|]. intros [].
  apply keepsS_bind; [apply store_call_S; [done|apply grows_upsert_pane|apply same_upsert_pane]|]. intros [].
  apply keepsS_bind; [by apply keepsS_now|]. intros t. apply keepsS_ret.
Qed.

Lemma open_pane_S J os sid req : stableJ J → keepsS J (open_pane env os sid req).
Proof.
  intros HJ. apply keepsS_bind; [apply keepsS_gets|]. intros found.
  apply keepsS_bind; [apply keepsS_expect|]. intros session.
  apply keepsS_bind; [apply keepsS_expect|]. intros window.
  apply keepsS_bind; [by apply spawn_pty_S|]. intros p.
  apply keepsS_bind; [apply log_store_S; [done|apply grows_two|by apply same_two]|]. intros [].
  apply keepsS_bind; [by apply modify_session_S|]. intros [].
  apply keepsS_bind; [by apply keepsS_now|]. intros t.
  apply keepsS_bind; [by apply modify_session_S|]. intros [].
  apply keepsS_bind; [by apply init_layout_S|]. intros [].
  apply keepsS_bind; [apply emit_S|]. intros []. apply keepsS_ret.
Qed.

Lemma close_in_layout_S J sid wid p : stableJ J → keepsS J (close_in_layout env sid wid p).
Proof.
  intros HJ. apply (window_layout_S _ sid wid). intros sess.
  destruct (window_in wid sess) as [w|]; cbn [mbind option_bind]; [|apply triple_ret; by intros s [? _]].
  destruct (ws_layout w); [|apply triple_ret; by intros s [? _]].
  eapply (persist_layout_S J _ _ _ _ _ (λ _, _)); [done| |by right|apply emit_S].
  intros s [Hs Hin]. split; [done|]. apply Hin. eauto.
Qed.

Lemma evict_S J sid : droppable J → keepsS J (evict_session_if_empty sid).
Proof.
  intros HJ. apply keepsS_bind; [apply keepsS_gets|]. intros [s|]; [|apply keepsS_ret].
  case_decide; [by apply delete_session_S|apply keepsS_ret].
Qed.

Lemma close_pane_S J os p : stableJ J → droppable J → keepsS J (close_pane env os p).
Proof.
  intros HJ HD. apply keepsS_bind; [apply keepsS_gets|]. intros found.
  apply keepsS_bind; [apply keepsS_expect|]. intros [sess x].
  apply keepsS_bind; [apply keepsS_kill|]. intros [].
  apply keepsS_bind; [by apply keepsS_now|]. intros t.
  apply keepsS_bind; [by apply modify_session_S|]. intros [].
  apply keepsS_bind; [by apply modify_session_S|]. intros [].
  apply keepsS_bind; [by apply close_in_layout_S|]. intros [].
  apply keepsS_bind; [by apply evict_S|]. intros []. apply emit_S.
Qed.

(** Finding a pane and the window it is in. *)
Lemma windowsJ_ids n m : windowsJ n m → map_Forall (λ sid x, se_id x = sid) m.
Proof. intros [Hm _] sid x Hx. by destruct (Hm sid x Hx). Qed.

Lemma pane_window_S {A} p (k : SessionState → PaneState → WindowState → R A) :
  (∀ sess x w, triple (SJ (hasJ (se_id sess) (pa_window x))) (k sess x w) (λ _, SJ windowsJ) (SJ windowsJ)) →
  keepsS windowsJ
    (let! found := gets (get_pane p) in
     let! sp := expect found (ENoPane p) in
     let '(session, pane) := sp in
     let! window := expect (find_first (is_window (pa_window pane)) (se_windows session))
                      (ENoWindow (pa_window pane)) in
     k session pane window).
Proof.
  intros Hk s Hs. unfold bind at 1, gets. unfold bind at 1, expect at 1, of_result.
  destruct (get_pane p s) as [[sess x]|] eqn:Hg; [|exact Hs]. cbn [ok_or].
  unfold bind, expect, of_result.
  destruct (find_first _ (se_windows sess)) as [w|] eqn:Hw; [|exact Hs]. cbn [ok_or].
  apply Hk. destruct Hs as (Hs & Hrest). split; [|done]. split; [done|].
  destruct (get_pane_Some p s sess x (windowsJ_ids _ _ Hs) Hg) as [Hsess _].
  exists sess. split; [done|]. apply find_first_Some in Hw as [Hin Hw].
  apply bool_decide_eq_true in Hw. rewrite <- Hw. by apply list_elem_of_fmap_2.
Qed.

Lemma hasJ_weaken sid wid s : SJ (hasJ sid wid) s → SJ windowsJ s.
Proof. intros ([? _] & ?). by split. Qed.

Lemma open_pane_split_S os parent orient name cwd cmd :
  keepsS windowsJ (open_pane_split env os parent orient name cwd cmd).
Proof.
  apply (pane_window_S parent (λ session x w,
    let! new_pane := open_pane env os (se_id session) _ in _)).
  intros sess x w. eapply triple_bind.
  { eapply triple_conseq; [by apply (open_pane_S (hasJ (se_id sess) (pa_window x))), hasJ_stable|done|done|].
    apply hasJ_weaken. }
  intros q. eapply triple_bind; [by apply (triple_gets _ _ (λ _, SJ (hasJ (se_id sess) (pa_window x))))|].
  intros sess'. cbn zeta.
  eapply (persist_layout_S windowsJ _ _ _ _ _ (λ _, _)); [apply windowsJ_stable| |by right|].
  - intros s Hs. split; [by eapply hasJ_weaken|]. by destruct Hs as ([_ ?] & _).
  - apply keepsS_bind; [apply emit_S|]. intros []. apply keepsS_ret.
Qed.

Lemma set_pane_weight_S p wt : keepsS windowsJ (set_pane_weight env p wt).
Proof.
  apply (pane_window_S p (λ session x w, let! tree := expect (ws_layout w) ENoLayout in _)).
  intros sess x w. eapply triple_bind.
  { apply (triple_expect _ _ _ (λ _, SJ (hasJ (se_id sess) (pa_window x)))); [done|apply hasJ_weaken]. }
  intros tree. cbn zeta.
  eapply (persist_layout_S windowsJ _ _ _ _ _ (λ _, _)); [apply windowsJ_stable| |by left|apply emit_S].
  intros s Hs. split; [by eapply hasJ_weaken|]. by destruct Hs as ([_ ?] & _).
Qed.

Lemma rename_window_S w name : keepsS windowsJ (rename_window env w name).
Proof.
  intros s Hs. unfold rename_window, bind at 1, gets. unfold bind at 1, expect, of_result.
  destruct (find_window w s) as [[sess x]|] eqn:Hf; [|exact Hs]. cbn [ok_or fst].
  apply scan_window_Some in Hf as (Hin & Hx & Hid). apply elem_of_map_values in Hin as [sid Hsid].
  assert (se_id sess = sid) as Esid by (exact (windowsJ_ids _ _ (proj1 Hs) sid sess Hsid)).
  destruct (update_both windowsJ (se_id sess) w (window_name name) (Store.set_window_name name) s)
    as (s' & Hrun & Hs'); [apply windowsJ_stable|done|done| | |].
  - intros w' row (H1' & H2' & H3'). by split.
  - exists sess. rewrite Esid. split; [done|]. rewrite <- Hid. by apply list_elem_of_fmap_2.
  - unfold bind, modify_session, modify_sessions, modify, Store.rename_window. by rewrite Hrun.
Qed.

Lemma kill_session_S os sid : keepsS windowsJ (kill_session os sid).
Proof.
  apply keepsS_bind; [apply keepsS_gets|]. intros found.
  apply keepsS_bind; [apply keepsS_expect|]. intros sess.
  apply keepsS_bind; [apply delete_session_S, windowsJ_droppable|]. intros [].
  apply triple_for_each. intros p. apply keepsS_bind; [apply triple_attempt, keepsS_kill|].
  intros []. apply emit_S.
Qed.

Lemma remove_pane_S p : keepsS windowsJ (remove_pane p).
Proof.
  apply keepsS_bind; [apply keepsS_gets|]. intros found.
  apply keepsS_bind; [|intros []; apply emit_S].
  destruct found as [[sess x]|]; [|apply keepsS_ret].
  apply keepsS_bind; [apply modify_session_S; [apply windowsJ_stable|done]|]. intros [].
  case_decide; [apply delete_session_S, windowsJ_droppable|apply keepsS_ret].
Qed.

Lemma rename_pane_S p name : keepsS windowsJ (rename_pane env p name).
Proof.
  apply keepsS_bind; [apply keepsS_gets|]. intros found.
  apply keepsS_bind; [apply keepsS_expect|]. intros sp.
  apply keepsS_bind; [apply modify_session_S; [apply windowsJ_stable|done]|]. intros [].
  apply store_call_S; [apply windowsJ_stable|apply grows_two|by apply same_two].
Qed.

Lemma rename_session_S sid name : keepsS windowsJ (rename_session env sid name).
Proof.
  apply keepsS_bind; [apply keepsS_gets|]. intros found.
  apply keepsS_bind; [apply keepsS_expect|]. intros sp.
  apply keepsS_bind; [apply modify_session_S; [apply windowsJ_stable|done]|]. intros [].
  apply store_call_S; [apply windowsJ_stable|apply grows_upsert_session|apply same_upsert_session].
Qed.

(** ** Closing a window *)
Definition onlyJ (sid : SessionId) (wid : WindowId) (n : nat) (m : gmap SessionId SessionState) : Prop :=
  windowsJ n m ∧ ∀ i s, m !! i = Some s → has_window wid s → i = sid.
Definition goneJ (wid : WindowId) (n : nat) (m : gmap SessionId SessionState) : Prop :=
  windowsJ n m ∧ ∀ i s, m !! i = Some s → ¬ has_window wid s.

Lemma onlyJ_stable sid wid : stableJ (onlyJ sid wid).
Proof.
  destruct windowsJ_stable as (Hm & _ & Ha). split; [|split].
  - intros n n' m Hle [H1' H2']. split; [by eapply Hm|done].
  - by intros n m [? _].
  - intros n m i f Hf [H1' H2']. split; [by apply Ha|]. intros j s Hs. unfold has_window.
    apply alter_ids in Hs as (s0 & Hs0 & _ & ->); [|done]. by apply H2'.
Qed.
Lemma onlyJ_droppable sid wid : droppable (onlyJ sid wid).
Proof.
  intros n m i [H1' H2']. split; [by apply windowsJ_droppable|].
  intros j s Hs. apply lookup_delete_Some in Hs as [_ Hs]. by apply H2'.
Qed.
Lemma goneJ_droppable wid : droppable (goneJ wid).
Proof.
  intros n m i [H1' H2']. split; [by apply windowsJ_droppable|].
  intros j s Hs. apply lookup_delete_Some in Hs as [_ Hs]. by apply (H2' j).
Qed.

Lemma scan_window_panes_Some w l sid ps :
  scan_window_panes w l = Some (sid, ps) → ∃ sess, sess ∈ l ∧ se_id sess = sid ∧ has_window w sess.
Proof.
  induction l as [|s l IH]; [done|]. cbn. destruct (existsb _ _) eqn:E.
  - intros [= <- <-]. exists s. split; [by left|]. split; [done|].
    apply existsb_exists in E as (x & Hx & Ew). apply bool_decide_eq_true in Ew. rewrite <- Ew.
    apply list_elem_of_fmap_2. by apply list_elem_of_In.
  - intros (sess & ? & ?)%IH. exists sess. split; [by right|done].
Qed.

Lemma drop_window_S sid wid X :
  triple (SJ (onlyJ sid wid)) (modify_session sid (with_windows (filter (λ w, ws_id w ≠ wid))))
    (λ _, SJ (goneJ wid)) X.
Proof.
  apply triple_modify. intros s ([[H1' H2'] Honly] & [Hag Hh] & Hr).
  unfold SJ, onJ, goneJ, windowsJ, synced, agrees. cbn [set_sessions rg_sessions rg_store rg_history].
  set (f := with_windows (filter (λ w, ws_id w ≠ wid))).
  assert (∀ i x, alter f sid (rg_sessions s) !! i = Some x → ∃ x0, rg_sessions s !! i = Some x0 ∧
    se_id x = se_id x0 ∧ (∀ w, w ∈ se_windows x → w ∈ se_windows x0 ∧ ws_id w ≠ wid) ∧
    (NoDup (ws_id <$> se_windows x0) → NoDup (ws_id <$> se_windows x))) as Hlk.
  { intros i x. destruct (decide (i = sid)) as [->|Hne].
    - rewrite lookup_alter_eq. intros Hx. apply fmap_Some in Hx as (x0 & Hx0 & ->). exists x0.
      split; [done|]. split; [done|]. split; [|apply NoDup_fmap_filter].
      intros w Hw. by apply list_elem_of_filter in Hw as [? ?].
    - rewrite lookup_alter_ne by done. intros Hx. exists x. split; [done|]. split; [done|]. split; [|done].
      intros w Hw. split; [done|]. intros Ew. apply Hne, (Honly i x Hx). rewrite <- Ew. by apply list_elem_of_fmap_2. }
  split; [split; [split|]|split; [split; [|done]|done]].
  - intros i x Hx. destruct (Hlk i x Hx) as (x0 & Hx0 & -> & Hsub & Hnd). destruct (H1' i x0 Hx0) as (? & ? & Hd).
    split; [done|]. split; [auto|]. rewrite Forall_fmap, Forall_forall in Hd |- *. intros w Hw. by apply Hd, Hsub.
  - intros w i j x y Hx Hy Hwx Hwy. destruct (Hlk i x Hx) as (x0 & Hx0 & _ & Hsx & _).
    destruct (Hlk j y Hy) as (y0 & Hy0 & _ & Hsy & _). eapply (H2' w); [exact Hx0|exact Hy0|..].
    + apply list_elem_of_fmap in Hwx as (w' & -> & Hw'). by apply list_elem_of_fmap_2, Hsx.
    + apply list_elem_of_fmap in Hwy as (w' & -> & Hw'). by apply list_elem_of_fmap_2, Hsy.
  - intros i x Hx Hw. destruct (Hlk i x Hx) as (x0 & _ & _ & Hsub & _).
    apply list_elem_of_fmap in Hw as (w' & -> & Hw'). by destruct (Hsub w' Hw').
  - intros i x w Hx Hw. destruct (Hlk i x Hx) as (x0 & Hx0 & _ & Hsub & _). apply (Hag i x0); [done|by apply Hsub].
Qed.

Lemma delete_row_S wid X :
  triple (SJ (goneJ wid)) (log_store (Store.delete_window env wid)) (λ _, SJ windowsJ) X.
Proof.
  intros s ([Hw Hgone] & [Hag Hh] & Hr).
  unfold log_store, attempt, store_call, zoom, Store.delete_window. rewrite execute_run. cbn [fst].
  split; [done|]. unfold synced, agrees, rows_drawn.
  cbn [set_store rg_sessions rg_store rg_history Store.st_db Store.after_stmt Store.with_windows Store.db_windows Store.st_uuids].
  split; [split; [|done]|].
  - intros i x w Hx Hin. destruct (Hag i x w Hx Hin) as (row & Hrow & Hra). exists row.
    rewrite lookup_delete_ne; [done|]. intros E. apply window_key_inj in E. apply (Hgone i x Hx).
    rewrite E. by apply list_elem_of_fmap_2.
  - intros k [row Hk]. apply lookup_delete_Some in Hk as [_ Hk]. apply Hr. eauto.
Qed.

Lemma close_window_S os wid : keepsS windowsJ (close_window env os wid).
Proof.
  unfold close_window. eapply triple_bind.
  { apply (triple_gets _ _ (λ f s, SJ windowsJ s ∧ f = scan_window_panes wid (sessions_values s))). by intros s Hs. }
  intros found. eapply triple_bind.
  { apply (triple_expect _ _ _ (λ sp, SJ (onlyJ sp.1 wid))); [|by intros s [? _]].
    intros [sid ps] s -> [(Hs & Hrest) Hf]. symmetry in Hf. split; [|done]. split; [done|].
    apply scan_window_panes_Some in Hf as (sess & Hin & <- & Hw).
    apply elem_of_map_values in Hin as [k Hk]. rewrite (windowsJ_ids _ _ Hs k sess Hk).
    intros i x Hx Hwx. by apply (proj2 Hs wid i k x sess). }
  intros [sid ps]. cbn [fst]. eapply triple_bind.
  { apply triple_for_each. intros p. apply triple_attempt.
    apply (close_pane_S (onlyJ sid wid)); [apply onlyJ_stable|apply onlyJ_droppable]. }
  intros []. eapply triple_bind.
  { apply (triple_gets _ _ (λ f s, SJ (onlyJ sid wid) s ∧ f = get_session sid s)). by intros s Hs. }
  intros sess. eapply (triple_bind _ _ _ (λ _, SJ (goneJ wid))); [|intros []; apply delete_row_S].
  destruct sess as [sess|].
  - eapply triple_bind; [eapply triple_conseq; [apply (drop_window_S sid wid (SJ windowsJ))|by intros s [? _]|done|done]|].
    intros []. eapply triple_bind; [by apply (triple_gets _ _ (λ _, SJ (goneJ wid)))|].
    intros [s'|]; [|by apply triple_ret]. case_decide; [|by apply triple_ret].
    apply delete_session_S, goneJ_droppable.
  - apply triple_ret. intros s [([Hw Honly] & Hrest) Hg]. split; [|done]. split; [done|].
    intros i x Hx Hhas. pose proof (Honly i x Hx Hhas) as ->. unfold get_session in Hg. congruence.
Qed.

(** ** New windows: between the registry and the database *)
Definition pending (sid : SessionId) (w : WindowState) (s : Reg) : Prop :=
  onJ windowsJ s ∧ rows_drawn s ∧ Forall (λ h, agrees h.1.2 h.2) (rg_history s) ∧
  drawn env (Store.st_uuids (rg_store s)) (window_uuid (ws_id w)) ∧
  Store.db_windows (Store.st_db (rg_store s)) !! Store.window_key (ws_id w) = None ∧
  ∀ i x w', rg_sessions s !! i = Some x → w' ∈ se_windows x →
    (i = sid ∧ w' = w) ∨
    ∃ row, Store.db_windows (Store.st_db (rg_store s)) !! Store.window_key (ws_id w') = Some row ∧ row_agrees i w' row.
Definition unused (w : Uuid) (s : Reg) : Prop :=
  SJ windowsJ s ∧ drawn env (Store.st_uuids (rg_store s)) w ∧
  Store.db_windows (Store.st_db (rg_store s)) !! Store.window_key (MkWindowId w) = None ∧
  ∀ i x, rg_sessions s !! i = Some x → ¬ has_window (MkWindowId w) x.

Lemma fresh_window_S X : triple (SJ windowsJ) (fresh_uuid env) (λ u, unused u) X.
Proof.
  intros s Hs. pose proof (keepsS_fresh windowsJ windowsJ_stable s Hs) as Hs'.
  unfold fresh_uuid, store_call, zoom, Store.new_uuid in *. cbn [result_map_err] in *.
  destruct Hs as ([H1' H2'] & _ & Hr). pose proof (fresh_not_drawn env (Store.st_uuids (rg_store s)) distinct) as Hnd.
  split; [exact Hs'|]. split; [exists (Store.st_uuids (rg_store s)); cbn; split; [lia|done]|]. split.
  - apply eq_None_not_Some. intros (w & Ew & Hw)%Hr. apply window_key_inj in Ew. subst w. by apply Hnd.
  - intros i x Hx Hw. destruct (H1' i x Hx) as (_ & _ & Hd). rewrite Forall_forall in Hd. by apply Hd in Hw.
Qed.

Lemma pending_log {A} sid w (m : Store.S A) X :
  grows m → same_windows m → triple (pending sid w) (log_store m) (λ _, pending sid w) X.
Proof.
  intros Hg Hw s (H1' & H2' & H3' & H4' & H5' & H6'). unfold log_store, attempt, store_call, zoom.
  specialize (Hg (rg_store s)). specialize (Hw (rg_store s)). destruct (m (rg_store s)) as [st' r].
  cbn [fst snd] in *. unfold pending, onJ, rows_drawn. cbn [set_store rg_store rg_sessions rg_history].
  rewrite Hw. split; [by eapply (proj1 windowsJ_stable)|]. split; [|split; [done|split; [by eapply drawn_mono|done]]].
  intros k Hk. destruct (H2' k Hk) as (w' & -> & Hd). exists w'. split; [done|by eapply drawn_mono].
Qed.

Lemma insert_row_S sid w t X :
  ws_layout w = None →
  triple (pending sid w) (log_store (Store.upsert_window env (ws_id w) sid (ws_name w) (ws_position w) t))
    (λ _, SJ windowsJ) X.
Proof.
  intros Hlay s (H1' & H2' & H3' & H4' & H5' & H6').
  unfold log_store, attempt, store_call, zoom, Store.upsert_window. rewrite execute_run. cbn [fst].
  unfold SJ, onJ, synced, agrees, rows_drawn.
  cbn [set_store rg_sessions rg_store rg_history Store.st_db Store.after_stmt Store.with_windows Store.db_windows Store.st_uuids].
  rewrite H5'. split; [done|]. split; [split; [|done]|].
  - intros i x w' Hx Hw'. destruct (decide (ws_id w' = ws_id w)) as [Ew|Hne].
    + destruct (H6' i x w' Hx Hw') as [[-> ->]|(row & Hrow & _)]; [|rewrite Ew in Hrow; congruence].
      eexists. split; [apply lookup_insert_eq|]. split; [by rewrite Hlay|done].
    + destruct (H6' i x w' Hx Hw') as [[-> ->]|(row & Hrow & Hra)]; [done|].
      exists row. rewrite lookup_insert_ne; [done|]. intros E. by apply window_key_inj in E.
  - intros k [row Hk]. apply lookup_insert_Some in Hk as [[<- _]|[_ Hk]]; [by exists (ws_id w)|]. apply H2'. eauto.
Qed.

(** The session [sid] becomes [x], whose windows are old ones of [sid] and [w]. *)
Lemma add_pending sid x w u f s :
  unused u s → ws_id w = MkWindowId u → se_id x = sid → NoDup (ws_id <$> se_windows x) →
  (∀ w', w' ∈ se_windows x → w' = w ∨ ∃ x0, rg_sessions s !! sid = Some x0 ∧ w' ∈ se_windows x0) →
  f (rg_sessions s) = <[sid := x]> (rg_sessions s) →
  pending sid w (set_sessions f s).
Proof.
  intros ((Hw & [Hag Hh] & Hr) & Hd & Hnone & Hno) Hid Hx Hnd Hws Hf.
  unfold pending, onJ, rows_drawn. cbn [set_sessions rg_sessions rg_store rg_history]. rewrite Hf, Hid.
  destruct Hw as [H1' H2']. split; [split|split; [done|split; [done|split; [done|split; [done|]]]]].
  - apply map_Forall_insert_2; [|done]. split; [done|]. split; [done|]. rewrite Forall_fmap, Forall_forall.
    intros w' Hw'. destruct (Hws w' Hw') as [->|(x0 & Hx0 & Hin)]; cbn; [by rewrite Hid|].
    destruct (H1' sid x0 Hx0) as (_ & _ & Hdx). rewrite Forall_forall in Hdx. by apply Hdx, list_elem_of_fmap_2.
  - intros v. assert (∀ j y, j ≠ sid → rg_sessions s !! j = Some y → has_window v x → has_window v y → False) as Hdis.
    { intros j y Hj Hy Hvx Hvy. apply list_elem_of_fmap in Hvx as (w' & -> & Hw').
      destruct (Hws w' Hw') as [->|(x0 & Hx0 & Hin)].
      - rewrite Hid in Hvy. by eapply Hno.
      - apply Hj. apply (H2' (ws_id w') j sid y x0); [done|done|done|]. by apply list_elem_of_fmap_2. }
    intros i j y z Hy Hz Hvy Hvz.
    apply lookup_insert_Some in Hy as [[<- <-]|[Hi Hy]], Hz as [[<- <-]|[Hj Hz]]; [done| | |by eapply (H2' v)].
    + by destruct (Hdis j z).
    + by destruct (Hdis i y).
  - intros i y w' Hy Hw'. apply lookup_insert_Some in Hy as [[<- <-]|[_ Hy]]; [|right; by eapply Hag].
    destruct (Hws w' Hw') as [->|(x0 & Hx0 & Hin)]; [by left|right; by eapply Hag].
Qed.

Lemma new_session_S name : keepsS windowsJ (new_session env name).
Proof.
  apply keepsS_bind; [apply keepsS_fresh, windowsJ_stable|]. intros u. cbn zeta.
  apply keepsS_bind; [apply keepsS_now, windowsJ_stable|]. intros t.
  eapply triple_bind; [apply fresh_window_S|]. intros wu. cbn beta.
  set (w := MkWindow (MkWindowId wu) (MkSessionId u) "1" None 0 t).
  eapply (triple_bind _ _ _ (λ _, pending (MkSessionId u) w)).
  { apply triple_modify. intros s Hs. eapply (add_pending _ (MkSession _ _ _ _ _ [w]));
      [exact Hs|reflexivity|reflexivity|apply NoDup_singleton| |reflexivity].
    intros w' ->%list_elem_of_singleton. by left. }
  intros []. eapply triple_bind; [apply pending_log; [apply grows_upsert_session|apply same_upsert_session]|].
  intros []. eapply triple_bind; [by apply (insert_row_S (MkSessionId u) w)|]. intros []. apply keepsS_ret.
Qed.

Lemma new_window_S sid name : keepsS windowsJ (new_window env sid name).
Proof.
  unfold new_window, keepsS. eapply triple_bind.
  { apply (triple_gets _ _ (λ f s, SJ windowsJ s ∧ f = get_session sid s)). by intros s Hs. }
  intros found. eapply (triple_bind _ _ _ (λ x s, SJ windowsJ s ∧ rg_sessions s !! sid = Some x)).
  { apply triple_expect; [|by intros s [? _]]. intros x s -> [Hs Hg]. by split. }
  intros x. cbn zeta. eapply (triple_bind _ _ _ (λ _ s, SJ windowsJ s ∧ rg_sessions s !! sid = Some x)).
  { intros s [Hs Hx]. pose proof (keepsS_now windowsJ windowsJ_stable s Hs) as Hn. by split. }
  intros t. eapply (triple_bind _ _ _ (λ u s, unused u s ∧ rg_sessions s !! sid = Some x)).
  { intros s [Hs Hx]. pose proof (fresh_window_S (SJ windowsJ) s Hs) as Hn. by split. }
  intros u. cbn zeta. set (w := MkWindow (MkWindowId u) _ _ _ _ _).
  eapply (triple_bind _ _ _ (λ _, pending sid w)).
  { apply triple_modify. intros s [Hs Hx].
    apply (add_pending sid (with_windows (λ ws, ws ++ [w]) x) w u); [done|done| | | |].
    - exact (windowsJ_ids _ _ (proj1 (proj1 Hs)) sid x Hx).
    - destruct Hs as (([H1' _] & _) & _ & _ & Hno). destruct (H1' sid x Hx) as (_ & Hnd & _).
      cbn. rewrite fmap_app. apply NoDup_app. split; [done|]. split; [|apply NoDup_singleton].
      intros v Hv ->%list_elem_of_singleton. by apply (Hno sid x Hx).
    - cbn. intros w' Hw'. apply elem_of_app in Hw' as [Hw'| ->%list_elem_of_singleton]; [|by left]. right. eauto.
    - by apply alter_insert_at. }
  intros []. eapply triple_bind; [by apply (insert_row_S sid w)|]. intros []. apply keepsS_ret.
Qed.

Lemma run_op_S op s : SJ windowsJ s → SJ windowsJ (run_op env op s).
Proof.
  intros Hs. destruct op; cbn [run_op]; refine (triple_state _ _ (SJ windowsJ) _ s Hs).
  - apply new_session_S.
  - apply open_pane_S, windowsJ_stable.
  - apply close_pane_S; [apply windowsJ_stable|apply windowsJ_droppable].
  - apply open_pane_split_S.
  - apply set_pane_weight_S.
  - apply new_window_S.
  - apply rename_window_S.
  - apply close_window_S.
  - apply kill_session_S.
  - apply remove_pane_S.
  - apply rename_pane_S.
  - apply rename_session_S.
Qed.

Lemma run_ops_S ops s : SJ windowsJ s → SJ windowsJ (run_ops env ops s).
Proof. revert s. induction ops as [|op ops IH]; intros s Hs; [done|]. by apply IH, run_op_S. Qed.

Lemma fresh_reg_S dir : SJ windowsJ (fresh_reg dir).
Proof.
  unfold SJ, onJ, windowsJ, synced, agrees, rows_drawn.
  cbn [fresh_reg fresh_store rg_sessions rg_store rg_history Store.st_db empty_db Store.db_windows].
  split; [split; [apply map_Forall_empty|]|split; [split; [|done]|]].
  - intros w i j s t Hs. by apply lookup_empty_Some in Hs.
  - intros i s w Hs. by apply lookup_empty_Some in Hs.
  - intros k [row Hk]. by apply lookup_empty_Some in Hk.
Qed.
End Sync.

(** ** Property *)

(** C5: when the database refuses no statement, the window rows follow the
    registry: after any sequence of operations, successful or not, the row of
    every live window carries the window's session, name, position and serialized
    layout, and the same held at the emission of every event, because each
    operation persists before it announces. *)
Theorem registry_db_in_sync `{UuidText, LayoutJson, SqlOrder, Zstd, ChronoRange, HashOrder}
  (env : Store.Env) dir ops
  (no_fault : ∀ n, Store.env_fault env n = false)
  (distinct : ∀ i j, Store.env_uuid env i = Store.env_uuid env j → i = j) :
  synced (run_ops env ops (fresh_reg dir)).
Proof. apply (run_ops_S env no_fault distinct ops), fresh_reg_S. Qed.

Section Witnesses.
#[local] Existing Instances binary_uuid binary_json stable_order no_compression chrono_0_4 list_hash.

Lemma registry_db_in_sync_witness : synced (run_ops calm some_ops (fresh_reg "/d")).
Proof. apply registry_db_in_sync; [done|]. intros i j. cbn. lia. Defined.
End Witnesses.
