(* ===== verification/BlockIndex.v ===== *)
(** * BlockIndex: the full-text index of blocks (pyred/src/index.rs)

    Documents wait in the writer until a commit; a search sees the committed ones.
    [Tantivy] is what the daemon uses of the engine: the meaning of a query text,
    if it parses, as a predicate on documents, and the order of relevance. *)
From Stdlib Require Import Strings.Byte.
From S2P Require Import Prelude Proto Text Libraries.
Local Open Scope Z_scope.

Module BlockIndex.

Record Doc := MkDoc {
  doc_block_id : string;
  doc_pane_id : string;
  doc_session_id : string;
  doc_started_at : Z;
  doc_command : string;
  doc_stdout : string;
  doc_exit_code : Z }.

Class Tantivy := {
  parse_query : string → option (Doc → bool);
  by_score : string → list Doc → list Doc;
  by_score_perm q l : by_score q l ≡ₚ l }.

Record Index := MkIndex { ix_committed : list Doc; ix_waiting : list Doc }.

Inductive IndexError := AddFailed | CommitFailed | ReaderFailed | QuerySyntax | ZeroLimit.

Definition I64_MIN : Z := - 2 ^ 63.
Definition I64_MAX : Z := 2 ^ 63 - 1.
Definition BACKFILL_BATCH_SIZE : Z := 500.

Section Index.
Context `{UuidText, Tantivy}.

(** Blocks without an exit code get a sentinel. *)
Definition exit_field (code : option Z) : Z := default I64_MIN code.

Definition document (b : Block) (stdout : string) : Doc :=
  MkDoc (uuid_to_string (block_uuid (blk_id b))) (uuid_to_string (pane_uuid (blk_pane b)))
    (uuid_to_string (session_uuid (blk_session b))) (timestamp_millis (blk_started_at b))
    (blk_command b) stdout (exit_field (blk_exit_code b)).

(** The writer; the booleans say whether the engine succeeds. A failed commit
    leaves the documents with the writer. *)
Definition add_document (d : Doc) (ix : Index) : Index :=
  MkIndex (ix_committed ix) (ix_waiting ix ++ [d]).
Definition commit (ix : Index) : Index := MkIndex (ix_committed ix ++ ix_waiting ix) [].

Definition doc_count (reader_ok : bool) (ix : Index) : result IndexError Z :=
  if reader_ok then Ok (Z.of_nat (length (ix_committed ix))) else Err ReaderFailed.

Definition add_block (add_ok commit_ok : bool) (b : Block) (stdout : string) (ix : Index) :
    Index * result IndexError unit :=
  if add_ok then
    let ix' := add_document (document b stdout) ix in
    if commit_ok then (commit ix', Ok tt) else (ix', Err CommitFailed)
  else (ix, Err AddFailed).

(** [backfill]: [read_blob] gives a block's output or fails; [add_ok] and
    [commit_ok] are indexed by the block's position. *)
Definition blob_text (r : option Bytes) : string := of_chars (from_utf8_lossy (default [] r)).

Fixpoint backfill_from (read_blob : BlockId → option Bytes) (add_ok commit_ok : nat → bool)
    (i : nat) (added : Z) (blocks : list Block) (ix : Index) : Index * Z :=
  match blocks with
  | [] => (ix, added)
  | b :: rest =>
      let doc := document b (blob_text (read_blob (blk_id b))) in
      if add_ok i then
        let ix1 := add_document doc ix in
        let ix2 := if (Z.of_nat i + 1) mod BACKFILL_BATCH_SIZE =? 0
                   then if commit_ok i then commit ix1 else ix1
                   else ix1 in
        backfill_from read_blob add_ok commit_ok (S i) (added + 1) rest ix2
      else backfill_from read_blob add_ok commit_ok (S i) added rest ix
  end.

Definition backfill (read_blob : BlockId → option Bytes) (add_ok commit_ok : nat → bool)
    (blocks : list Block) (ix : Index) : Index * result IndexError Z :=
  let '(ix', added) := backfill_from read_blob add_ok commit_ok 0 0 blocks ix in
  if commit_ok (length blocks) then (commit ix', Ok added) else (ix', Err CommitFailed).

(** ** Searching *)
Definition exit_clause (failures_only : bool) (exit_code : option Z) (d : Doc) : bool :=
  match exit_code with
  | Some code => doc_exit_code d =? code
  | None => if failures_only then (1 <=? doc_exit_code d) && (doc_exit_code d <=? I64_MAX) else true
  end.
Definition session_clause (session : option SessionId) (d : Doc) : bool :=
  match session with
  | Some s => bool_decide (doc_session_id d = uuid_to_string (session_uuid s))
  | None => true
  end.
Definition pane_clause (pane : option PaneId) (d : Doc) : bool :=
  match pane with
  | Some p => bool_decide (doc_pane_id d = uuid_to_string (pane_uuid p))
  | None => true
  end.

Definition search (reader_ok : bool) (query : string) (limit : Z) (failures_only : bool)
    (session : option SessionId) (pane : option PaneId) (exit_code : option Z) (ix : Index) :
    result IndexError (list BlockId) :=
  if negb reader_ok then Err ReaderFailed else
  match parse_query query with
  | None => Err QuerySyntax
  | Some text_query =>
      if limit =? 0 then Err ZeroLimit else
      let hits := filter (λ d, text_query d && exit_clause failures_only exit_code d &&
                               session_clause session d && pane_clause pane d = true)
                    (ix_committed ix) in
      let top := take (Z.to_nat limit) (by_score query hits) in
      Ok (omap (λ d, MkBlockId <$> uuid_parse (doc_block_id d)) top)
  end.

(** ** What a search promises, on blocks *)
Definition wanted (failures_only : bool) (session : option SessionId) (pane : option PaneId)
    (exit_code : option Z) (b : Block) : Prop :=
  (match exit_code with
   | Some c => blk_exit_code b = Some c
   | None => failures_only = true → ∃ c, blk_exit_code b = Some c ∧ 1 ≤ c
   end) ∧
  (∀ s, session = Some s → blk_session b = s) ∧ (∀ p, pane = Some p → blk_pane b = p).

(** Exit codes are 32-bit. *)
Definition exit_ok (b : Block) : bool :=
  match blk_exit_code b with Some c => in_range (- 2 ^ 31) (2 ^ 31 - 1) c | None => true end.

Lemma exit_clause_spec failures_only code b stdout :
  exit_ok b = true → match code with Some c => - 2 ^ 31 ≤ c | None => True end →
  exit_clause failures_only code (document b stdout) = true ↔
  match code with
  | Some c => blk_exit_code b = Some c
  | None => failures_only = true → ∃ c, blk_exit_code b = Some c ∧ 1 ≤ c
  end.
Proof.
  unfold exit_ok, exit_clause, document, exit_field, in_range. cbn [doc_exit_code]. intros Hb Hc.
  destruct code as [c|].
  - rewrite Z.eqb_eq. destruct (blk_exit_code b) as [x|]; cbn [default from_option id].
    + split; [by intros ->|congruence].
    + split; [|done]. unfold I64_MIN. intros <-. exfalso. lia.
  - destruct failures_only; [|by split].
    rewrite andb_true_iff, !Z.leb_le. destruct (blk_exit_code b) as [x|]; cbn [default from_option id].
    + rewrite andb_true_iff, !Z.leb_le in Hb. unfold I64_MAX. split.
      * intros [? _] _. by exists x.
      * intros Hx. destruct (Hx eq_refl) as (y & [= <-] & ?). lia.
    + unfold I64_MIN. split; [intros [? _]; lia|]. intros Hx. by destruct (Hx eq_refl) as (y & ? & _).
Qed.

Lemma session_clause_spec s b stdout :
  session_clause s (document b stdout) = true ↔ ∀ s', s = Some s' → blk_session b = s'.
Proof.
  destruct s as [s|]; cbn [session_clause]; [|by split].
  rewrite bool_decide_eq_true. cbn [document doc_session_id]. split.
  - intros E%(inj uuid_to_string) s' [= <-]. by destruct (blk_session b), s; cbn in *; subst.
  - intros Hs. by rewrite (Hs s eq_refl).
Qed.
Lemma pane_clause_spec p b stdout :
  pane_clause p (document b stdout) = true ↔ ∀ p', p = Some p' → blk_pane b = p'.
Proof.
  destruct p as [p|]; cbn [pane_clause]; [|by split].
  rewrite bool_decide_eq_true. cbn [document doc_pane_id]. split.
  - intros E%(inj uuid_to_string) p' [= <-]. by destruct (blk_pane b), p; cbn in *; subst.
  - intros Hp. by rewrite (Hp p eq_refl).
Qed.

Lemma omap_doc_ids (l : list (Block * string)) :
  omap (λ d, MkBlockId <$> uuid_parse (doc_block_id d)) ((λ bs, document bs.1 bs.2) <$> l) =
  (λ bs, blk_id bs.1) <$> l.
Proof.
  induction l as [|[b st] l IH]; [done|]. cbn. rewrite uuid_parse_to_string. cbn.
  rewrite IH. by destruct (blk_id b).
Qed.

(** ** Backfilling *)
(** The blocks the engine takes. *)
Fixpoint accepted (add_ok : nat → bool) (i : nat) (blocks : list Block) : list Block :=
  match blocks with
  | [] => []
  | b :: rest => if add_ok i then b :: accepted add_ok (S i) rest else accepted add_ok (S i) rest
  end.
Definition all_docs (ix : Index) : list Doc := ix_committed ix ++ ix_waiting ix.

Lemma all_docs_commit ix : all_docs (commit ix) = all_docs ix.
Proof. unfold all_docs, commit. cbn. by rewrite app_nil_r. Qed.

Lemma backfill_from_total read_blob add_ok commit_ok blocks i added ix :
  let r := backfill_from read_blob add_ok commit_ok i added blocks ix in
  all_docs (r.1) = all_docs ix ++
    ((λ b, document b (blob_text (read_blob (blk_id b)))) <$> accepted add_ok i blocks) ∧
  r.2 = added + Z.of_nat (length (accepted add_ok i blocks)).
Proof.
  cbn zeta. revert i added ix. induction blocks as [|b blocks IH]; intros i added ix.
  - cbn. rewrite app_nil_r. split; [done|lia].
  - cbn [backfill_from accepted]. destruct (add_ok i); [|apply IH].
    match goal with |- context [backfill_from _ _ _ _ _ _ ?x] => set (ix2 := x) end.
    destruct (IH (S i) (added + 1) ix2) as [-> ->].
    assert (all_docs ix2 = all_docs ix ++ [document b (blob_text (read_blob (blk_id b)))]) as ->.
    { subst ix2. unfold all_docs, add_document, commit. repeat case_match; cbn; by rewrite ?app_nil_r, app_assoc. }
    rewrite <- app_assoc. split; [done|]. cbn [length]. lia.
Qed.
End Index.

(** ** Properties *)


(** Backfilling adds, in order and whatever intermediate commits fail, exactly
    the documents of the blocks the engine accepts, each with the decoded output
    (empty if the blob cannot be read), after what was already there; it reports
    how many, and when the last commit succeeds all of them can be searched. *)
Theorem backfill_indexes_all `{UuidText, Tantivy} read_blob add_ok commit_ok blocks ix :
  let docs := (λ b, document b (blob_text (read_blob (blk_id b)))) <$> accepted add_ok 0 blocks in
  let '(ix', r) := backfill read_blob add_ok commit_ok blocks ix in
  all_docs ix' = all_docs ix ++ docs ∧
  match r with
  | Ok added => added = Z.of_nat (length docs) ∧ ix_committed ix' = all_docs ix ++ docs
  | Err _ => commit_ok (length blocks) = false
  end.
Proof.
  cbn zeta. unfold backfill.
  pose proof (backfill_from_total read_blob add_ok commit_ok blocks 0 0 ix) as [Hd Hn].
  destruct (backfill_from _ _ _ _ _ _ _) as [ix' added]. cbn [fst snd] in *. rewrite Z.add_0_l in Hn.
  destruct (commit_ok (length blocks)) eqn:E; [|done].
  rewrite all_docs_commit, length_fmap, Hd. split; [done|]. split; [done|exact Hd].
Qed.

(** ** A concrete engine: substring search, in order of insertion *)
Definition substring_engine : Tantivy := {|
  parse_query q :=
    if decide (q = "") then None
    else Some (λ d, contains_sub (str_bytes q) (str_bytes (doc_command d)) ||
                    contains_sub (str_bytes q) (str_bytes (doc_stdout d)));
  by_score q l := l;
  by_score_perm q l := reflexivity l |}.

Section Witnesses.
#[local] Existing Instances binary_uuid substring_engine.

Definition ran (n : N) (cmd : string) (code : option Z) : Block :=
  MkBlock (MkBlockId n) (MkPaneId 1) (MkSessionId 2) cmd None 0 None code 0.
Definition some_blocks : list (Block * string) :=
  [(ran 10 "cargo build" (Some 0), ""); (ran 11 "cargo test" (Some 101), ""); (ran 12 "cargo run" None, "")].

End Witnesses.
End BlockIndex.
