(* ===== verification/Pty.v ===== *)
(** * Pty: a pane's process and its three tasks (pyred/src/pty.rs)

    How the shell is launched, the reader thread that fans its output out, the
    writer thread that feeds it, and the parser task that turns output into block
    events, block rows, blob files, state markers and index jobs. *)
From Stdlib Require Import Strings.Byte.
From S2P Require Import Prelude Proto Text Libraries Effects RingBuf BlockParser PaneTracker Store.
From S2P Require Import Registry BlockIndex.
Local Open Scope Z_scope.

Module Pty.

Definition OUT_CHANNEL_CAP : nat := 1024.
Definition IN_CHANNEL_CAP : nat := 256.
Definition INDEX_CAP : nat := Z.to_nat (256 * 1024).

(** ** Launching the shell *)
Definition pyre_runtime_dir (xdg_runtime_dir : option string) (uid : Z) : string :=
  let base := match xdg_runtime_dir with
              | Some rt => rt
              | None => ("/tmp/pyre-" +:+ bytes_str (show_uint uid))%string
              end in
  Store.path_join base "pyre".

(** The once-cell of the rc file, and what creating the directory and writing the
    file answer; [script] is the integration script. *)
Definition RcCell : Type := option (option string).
Definition rcfile_contents (script : string) : string :=
  ("[ -f ~/.bashrc ] && . ~/.bashrc" +:+ bytes_str [x0a] +:+ script)%string.
Definition ensure_bash_rcfile (dir : string) (mkdir_ok write_ok : bool) (cell : RcCell) :
    RcCell * option string :=
  match cell with
  | Some path => (cell, path)
  | None =>
      let path := if mkdir_ok then if write_ok then Some (Store.path_join dir "bash-integration.rc") else None
                  else None in
      (Some path, path)
  end.

(** [Path::file_name] on Unix: the last component, unless it is [".."]. *)
Definition file_name (path : string) : option Bytes :=
  let parts := filter (λ c, c ≠ [] ∧ c ≠ [x2e]) (split_on x2f (str_bytes path)) in
  match last parts with
  | Some c => if decide (c = [x2e; x2e]) then None else Some c
  | None => None
  end.

Record Command := MkCommand {
  cm_program : string;
  cm_args : list string;
  cm_cwd : option PathBuf;
  cm_env : list (string * string) }.

Definition auto_integrate (no_auto : option string) (shell : string) : bool :=
  bool_decide (default [] (file_name shell) = str_bytes "bash") &&
  negb (bool_decide (no_auto = Some "1")).

Definition build_command (no_auto : option string) (dir : string) (mkdir_ok write_ok : bool)
    (req : SpawnReq) (shell : string) (cell : RcCell) : RcCell * Command :=
  if auto_integrate no_auto shell then
    let '(cell, rc) := ensure_bash_rcfile dir mkdir_ok write_ok cell in
    (cell, MkCommand shell (match rc with Some p => ["--rcfile"; p] | None => [] end)
             (sp_cwd req) (sp_env req))
  else (cell, MkCommand shell [] (sp_cwd req) (sp_env req)).

(** ** The reader thread *)
Inductive ReadResult := ReadBytes (data : Bytes) | ReadError.   (** no bytes: end of file *)

Record Output := MkOutput {
  ou_ringbuf : RingBuf.RingBuf;
  ou_tracker : PaneTracker.PaneStateTracker;
  ou_sent : list Bytes;      (** broadcast to stream connections *)
  ou_parse : list Bytes }.   (** sent to the parser task *)

Definition on_read (now : Z) (data : Bytes) (o : Output) : Output :=
  MkOutput (RingBuf.push (ou_ringbuf o) data) (PaneTracker.touch_output now (ou_tracker o))
    (ou_sent o ++ [data]) (ou_parse o ++ [data]).

Fixpoint reader_loop (reads : list (Z * ReadResult)) (o : Output) : Output :=
  match reads with
  | (now, ReadBytes data) :: rest =>
      if (length data =? 0)%nat then o else reader_loop rest (on_read now data o)
  | (_, ReadError) :: _ => o
  | [] => o
  end.

(** ** The writer thread: a write either takes the whole chunk or fails. *)
Fixpoint writer_loop (chunks : list (bool * Bytes)) : Bytes :=
  match chunks with
  | (true, chunk) :: rest => chunk ++ writer_loop rest
  | (false, _) :: _ => []
  | [] => []
  end.

(** ** The parser task *)
Record Task := MkTask {
  tk_sent : list BlockEvent;                   (** broadcast so far *)
  tk_tracker : PaneTracker.PaneStateTracker;
  tk_writers : gmap BlockId Store.BlobWriter;
  tk_bufs : gmap BlockId Bytes;
  tk_meta : gmap BlockId Block;
  tk_jobs : list (Block * string);             (** [add_block] calls spawned *)
  tk_store : Store.St }.

(** What the system answers while one event is handled; [io_join] is the outcome of
    waiting for the blocking write. *)
Record EventIo := MkEventIo {
  io_instant : Z;
  io_cwd : option PathBuf;   (** readlink of /proc/pid/cwd *)
  io_open : bool;
  io_write : bool;
  io_close : bool;
  io_join : bool }.

Section Task.
Context `{UuidText, LayoutJson, SqlOrder, Zstd, ChronoRange}.
Context (env : Store.Env) (pane : PaneId) (session : SessionId).

Definition marker_of (ev : BlockEvent) : option PaneTracker.Osc133Marker :=
  match ev with
  | PromptStart _ => Some PaneTracker.MarkA
  | CommandStart _ _ _ _ => Some PaneTracker.MarkC
  | BlockEnd _ code => Some (PaneTracker.MarkD code)
  | OutputChunk _ _ => None
  end.

(** Broadcasting an event and marking the state tracker. *)
Definition announce (io : EventIo) (ev : BlockEvent) (tk : Task) : Task :=
  MkTask (tk_sent tk ++ [ev])
    (match marker_of ev with
     | Some m => PaneTracker.push_marker (io_instant io) m (tk_tracker tk)
     | None => tk_tracker tk
     end)
    (tk_writers tk) (tk_bufs tk) (tk_meta tk) (tk_jobs tk) (tk_store tk).

Definition start_block (io : EventIo) (block : BlockId) (command : string) (cwd : option PathBuf)
    (tk : Task) : Task :=
  let resolved_cwd := match io_cwd io with Some p => Some p | None => cwd end in
  let '(st1, t) := Store.now env (tk_store tk) in
  let started := match t with Ok t => t | Err _ => 0 end in
  let proto_block := MkBlock block pane session command resolved_cwd started None None 0 in
  match Store.create_block env proto_block st1 with
  | (st2, Err _) =>
      MkTask (tk_sent tk) (tk_tracker tk) (tk_writers tk) (tk_bufs tk) (tk_meta tk) (tk_jobs tk) st2
  | (st2, Ok _) =>
      let '(st3, opened) := Store.blob_open (io_open io) (Store.blob_path_for (Store.st_data_dir st2) block) st2 in
      MkTask (tk_sent tk) (tk_tracker tk)
        (match opened with Ok bw => <[block := bw]> (tk_writers tk) | Err _ => tk_writers tk end)
        (<[block := []]> (tk_bufs tk)) (<[block := proto_block]> (tk_meta tk)) (tk_jobs tk) st3
  end.

(** The index gets at most [INDEX_CAP] bytes of a block. *)
Definition buffer_chunk (data buf : Bytes) : Bytes :=
  let remaining := (INDEX_CAP - length buf)%nat in
  if (0 <? remaining)%nat then buf ++ take (Nat.min (length data) remaining) data else buf.

Definition write_chunk (io : EventIo) (block : BlockId) (data : Bytes) (tk : Task) : Task :=
  let writers :=
    match tk_writers tk !! block with
    | Some bw =>
        if io_join io then
          <[block := match Store.blob_write (io_write io) data bw with Ok bw' => bw' | Err _ => bw end]>
            (delete block (tk_writers tk))
        else delete block (tk_writers tk)
    | None => tk_writers tk
    end in
  MkTask (tk_sent tk) (tk_tracker tk) writers (alter (buffer_chunk data) block (tk_bufs tk))
    (tk_meta tk) (tk_jobs tk) (tk_store tk).

(** [bw.close().unwrap_or(0)] then [finalize_block] *)
Definition close_and_finalize (close_ok : bool) (block : BlockId) (bw : option Store.BlobWriter)
    (code : option Z) (st : Store.St) : Store.St :=
  let '(st1, len) :=
    match bw with
    | Some bw => let '(st1, r) := Store.blob_close close_ok bw st in
                 (st1, match r with Ok n => n | Err _ => 0 end)
    | None => (st, 0)
    end in
  let '(st2, t) := Store.now env st1 in
  let ended := match t with Ok t => t | Err _ => 0 end in
  (Store.finalize_block env block ended code len st2).1.

Definition end_block (io : EventIo) (block : BlockId) (code : option Z) (tk : Task) : Task :=
  let st := close_and_finalize (io_close io) block (tk_writers tk !! block) code (tk_store tk) in
  let stdout_text :=
    match tk_bufs tk !! block ≫= from_utf8 with Some cs => of_chars cs | None => "" end in
  let jobs := match tk_meta tk !! block with
              | Some meta => tk_jobs tk ++ [(meta, stdout_text)]
              | None => tk_jobs tk
              end in
  MkTask (tk_sent tk) (tk_tracker tk) (delete block (tk_writers tk)) (delete block (tk_bufs tk))
    (delete block (tk_meta tk)) jobs st.

Definition on_event (io : nat → EventIo) (tk : Task) (ev : BlockEvent) : Task :=
  let i := io (length (tk_sent tk)) in
  let tk := announce i ev tk in
  match ev with
  | PromptStart _ => tk
  | CommandStart _ block command cwd => start_block i block command cwd tk
  | OutputChunk block data => write_chunk i block data tk
  | BlockEnd block code => end_block i block code tk
  end.

(** [while let Some(chunk) = parse_rx.recv()]: the parser feeds, the task handles. *)
Fixpoint parser_loop {P} `{BlockParser.VteParser P} (fresh : nat → BlockId) (io : nat → EventIo)
    (chunks : list Bytes) (bp : BlockParser.BlockParser P) (tk : Task) :
    BlockParser.BlockParser P * Task :=
  match chunks with
  | [] => (bp, tk)
  | chunk :: rest =>
      let '(bp, events) := BlockParser.feed fresh bp chunk in
      parser_loop fresh io rest bp (fold_left (on_event io) events tk)
  end.

(** After the channel closes, the blocks still open are finalized, in the order the
    map of writers yields them. *)
Definition drain `{HashOrder} (close_ok : BlockId → bool) (tk : Task) : Task :=
  let st := fold_left (λ st bw, close_and_finalize (close_ok bw.1) bw.1 (Some bw.2) None st)
              (hash_order (map_to_list (tk_writers tk))) (tk_store tk) in
  MkTask (tk_sent tk) (tk_tracker tk) ∅ (tk_bufs tk) (tk_meta tk) (tk_jobs tk) st.

Definition new_task (tracker : PaneTracker.PaneStateTracker) (st : Store.St) : Task :=
  MkTask [] tracker ∅ ∅ ∅ [] st.

Definition parser_task {P} `{BlockParser.VteParser P} `{HashOrder} (fresh : nat → BlockId)
    (io : nat → EventIo) (close_ok : BlockId → bool) (chunks : list Bytes)
    (tracker : PaneTracker.PaneStateTracker) (st : Store.St) : Task :=
  drain close_ok (parser_loop fresh io chunks (BlockParser.new session) (new_task tracker st)).2.
End Task.

(** ** The child-wait task: once the shell has exited, its streams are closed and
    the pane is removed. *)
Definition cancel_pane (p : Registry.PaneState) : Registry.PaneState :=
  Registry.MkPane (Registry.pa_id p) (Registry.pa_session p) (Registry.pa_window p) (Registry.pa_name p)
    (Registry.pa_cols p) (Registry.pa_rows p) (Registry.pa_shell p) (Registry.pa_created_at p)
    (Registry.pa_closed_at p) (Registry.pa_child_pid p) (Registry.pa_ringbuf p)
    (Registry.pa_tracker p) true.
Definition child_exit `{HashOrder} (session : SessionId) (pane : PaneId) : Registry.R unit :=
  do! Registry.modify_session session (Registry.with_panes (alter cancel_pane pane)) in
  Registry.remove_pane pane.
End Pty.
