(* ===== verification/PtyTask.v ===== *)
(** * PtyTask: what the parser task of a pane leaves behind

    From the bytes a shell prints to the rows and blobs of the store: one command
    is recorded completely, and no block stays open when the task ends. *)
From Stdlib Require Import Strings.Byte.
From S2P Require Import Prelude Proto Text Libraries Effects BlockParser PaneTracker Store StoreBlocks.
From S2P Require Import Registry RegistryInv BlockIndex Pty.
Local Open Scope Z_scope.

Import Pty.

Section Task.
Context `{UuidText, LayoutJson, SqlOrder, Zstd, ChronoRange}.
Context (env : Store.Env) (pane : PaneId) (session : SessionId).
Context (no_fault : ∀ n, Store.env_fault env n = false).

(** The loop handles the events of all the chunks, in order. *)
Lemma parser_loop_events {P} `{BlockParser.VteParser P} fresh io chunks (bp : BlockParser.BlockParser P) tk :
  (parser_loop env pane session fresh io chunks bp tk).2 =
  fold_left (on_event env pane session io) (BlockParser.feed_chunks fresh bp chunks).2 tk.
Proof.
  revert bp tk. induction chunks as [|c chunks IH]; intros bp tk; [done|].
  cbn [parser_loop BlockParser.feed_chunks]. destruct (BlockParser.feed fresh bp c) as [bp' evs].
  rewrite IH. destruct (BlockParser.feed_chunks fresh bp' chunks) as [bp'' evs']. cbn [snd].
  by rewrite fold_left_app.
Qed.

(** ** The output of one block *)
Lemma buffer_chunk_take x data :
  buffer_chunk data (take INDEX_CAP x) = take INDEX_CAP (x ++ data).
Proof.
  unfold buffer_chunk. rewrite length_take, take_app.
  destruct (Nat.ltb_spec 0 (INDEX_CAP - Nat.min INDEX_CAP (length x))).
  - f_equal. replace (Nat.min INDEX_CAP (length x)) with (length x) in * by lia.
    destruct (decide (length data ≤ INDEX_CAP - length x)%nat).
    + rewrite Nat.min_l by lia. rewrite !take_ge by lia. done.
    + by rewrite Nat.min_r by lia.
  - replace (INDEX_CAP - length x)%nat with 0%nat by lia. by rewrite take_0, app_nil_r.
Qed.

Definition all_ok (io : nat → EventIo) : Prop :=
  ∀ n, io_open (io n) = true ∧ io_write (io n) = true ∧ io_close (io n) = true ∧ io_join (io n) = true.

Lemma wrap_u64_small z : 0 ≤ z < 2 ^ 63 → wrap_u64 z = z.
Proof. intros Hz. unfold wrap_u64, wrap_u. apply Z.mod_small. lia. Qed.

Definition is_chunk (ev : BlockEvent) : option Bytes :=
  match ev with OutputChunk _ d => Some d | _ => None end.

Lemma chunks_run io b data path d0 x tk :
  all_ok io →
  tk_writers tk = {[b := Store.MkBlobWriter path (Some d0) (Z.of_nat (length d0))]} →
  tk_bufs tk = {[b := take INDEX_CAP x]} →
  Z.of_nat (length (d0 ++ concat data)) < 2 ^ 63 →
  let tk' := fold_left (on_event env pane session io) (OutputChunk b <$> data) tk in
  tk_writers tk' = {[b := Store.MkBlobWriter path (Some (d0 ++ concat data))
                            (Z.of_nat (length (d0 ++ concat data)))]} ∧
  tk_bufs tk' = {[b := take INDEX_CAP (x ++ concat data)]} ∧
  tk_store tk' = tk_store tk ∧ tk_meta tk' = tk_meta tk ∧ tk_jobs tk' = tk_jobs tk ∧
  tk_tracker tk' = tk_tracker tk.
Proof.
  intros Hio. revert d0 x tk. induction data as [|d data IH]; intros d0 x tk Hw Hb Hlen; cbn zeta.
  - cbn. rewrite !app_nil_r. by split_and!.
  - rewrite fmap_cons. cbn [fold_left concat] in *. rewrite !app_assoc in *.
    destruct (Hio (length (tk_sent tk))) as (_ & Hwr & _ & Hj).
    set (tk1 := on_event env pane session io tk (OutputChunk b d)).
    destruct (IH (d0 ++ d) (x ++ d) tk1) as (E1 & E2 & E3 & E4 & E5 & E6); [| |done|by split_and!].
    + subst tk1. unfold on_event. cbn [write_chunk announce tk_writers].
      rewrite Hw, lookup_singleton_eq, Hj, Hwr.
      cbn [Store.blob_write Store.bw_enc Store.bw_path Store.bw_len].
      rewrite delete_singleton_eq, insert_empty. do 2 f_equal.
      rewrite wrap_u64_small; rewrite !length_app in *; lia.
    + subst tk1. unfold on_event. cbn [write_chunk announce tk_bufs].
      rewrite Hb, alter_singleton_eq. f_equal. apply buffer_chunk_take.
Qed.

(** ** One command *)
Lemma create_block_run blk st :
  Store.db_blocks (Store.st_db st) !! Store.block_key (blk_id blk) = None →
  ∃ st', Store.create_block env blk st = (st', Ok tt) ∧
    Store.st_blobs st' = Store.st_blobs st ∧ Store.st_data_dir st' = Store.st_data_dir st ∧
    Store.st_clocks st' = Store.st_clocks st.
Proof.
  intros Hn. unfold Store.create_block, bind, gets, Store.query. rewrite no_fault, Hn. by eexists.
Qed.

Lemma finalize_block_run id e x l st :
  ∃ st', Store.finalize_block env id e x l st = (st', Ok tt) ∧
    Store.st_blobs st' = Store.st_blobs st ∧ Store.st_data_dir st' = Store.st_data_dir st.
Proof. unfold Store.finalize_block, Store.execute, Store.query. rewrite no_fault. by eexists. Qed.

(** The state between the start of a block and its end. *)
Definition block_open (b : BlockId) (cmd : string) (cwd : option PathBuf) (t : DateTime) (clocks : nat)
    (d : Bytes) (tk : Task) : Prop :=
  let meta := MkBlock b pane session cmd cwd t None None 0 in
  ∃ dir, Store.st_data_dir (tk_store tk) = dir ∧ Store.st_clocks (tk_store tk) = clocks ∧
  Store.db_blocks (Store.st_db (tk_store tk)) !! Store.block_key b =
    Some (Store.MkBlockRow (Store.pane_key pane) (Store.session_key session) cmd (timestamp_millis t)
            None None cwd (Store.blob_path_for dir b) 0) ∧
  tk_writers tk = {[b := Store.MkBlobWriter (Store.blob_path_for dir b) (Some d) (Z.of_nat (length d))]} ∧
  tk_bufs tk = {[b := take INDEX_CAP d]} ∧ tk_meta tk = {[b := meta]} ∧ tk_jobs tk = [].

Lemma start_block_open io b cmd tracker st sent :
  all_ok io → Store.db_blocks (Store.st_db st) !! Store.block_key b = None →
  block_open b cmd (io_cwd (io (length sent))) (Store.env_clock env (Store.st_clocks st))
    (Store.st_clocks st + 1) []
    (on_event env pane session io (MkTask sent tracker ∅ ∅ ∅ [] st) (CommandStart session b cmd None)).
Proof.
  intros Hio Hnew. destruct (Hio (length sent)) as (Hop & _). unfold on_event.
  cbn [announce marker_of tk_sent tk_tracker tk_writers tk_bufs tk_meta tk_jobs tk_store].
  unfold start_block. cbn [Store.now tk_sent tk_tracker tk_writers tk_bufs tk_meta tk_jobs tk_store].
  assert (∀ o : option PathBuf, match o with Some p => Some p | None => None end = o) as -> by (by intros []).
  set (blk := MkBlock b pane session cmd _ _ None None 0).
  match goal with |- context [Store.create_block env blk ?x] => set (st1 := x) end.
  destruct (create_block_run blk st1) as (st2 & Hc & Hblobs & Hdir & Hclk); [exact Hnew|].
  pose proof (create_block_row env blk st1 st2 Hc) as Hrow. rewrite Hc, Hop.
  unfold Store.blob_open, bind, modify, ret. exists (Store.st_data_dir st2).
  cbn [announce tk_store tk_writers tk_bufs tk_meta tk_jobs Store.set_blob Store.st_data_dir Store.st_clocks Store.st_db].
  rewrite !insert_empty, take_nil. split_and!; [done|by rewrite Hclk| |done..].
  rewrite Hdir. exact Hrow.
Qed.

Lemma end_block_recorded io b cmd cwd t clocks d code tk :
  all_ok io → block_open b cmd cwd t clocks d tk →
  chrono_ok (timestamp_millis t) = true → chrono_ok (timestamp_millis (Store.env_clock env clocks)) = true →
  Z.of_nat (length d) < 2 ^ 63 → -2147483648 ≤ code < 2147483648 →
  let tk' := on_event env pane session io tk (BlockEnd b (Some code)) in
  (Store.get_block env b (tk_store tk')).2 =
    Ok (Some (MkBlock b pane session cmd cwd (trunc_ms t) (Some (trunc_ms (Store.env_clock env clocks)))
                (Some code) (Z.of_nat (length d)))) ∧
  (∀ partial, (Store.read_block_stdout partial b (tk_store tk')).2 = Ok d) ∧
  PaneTracker.tr_last_marker (tk_tracker tk') = Some (PaneTracker.MarkD (Some code)) ∧
  tk_writers tk' = ∅ ∧
  tk_jobs tk' = [(MkBlock b pane session cmd cwd t None None 0,
                  match from_utf8 (take INDEX_CAP d) with Some cs => of_chars cs | None => "" end)].
Proof.
  intros Hio (dir & Hdir & Hclk & Hrow & Hw & Hb & Hm & Hj) Ht He Hlen Hcode. cbn zeta.
  destruct (Hio (length (tk_sent tk))) as (_ & _ & Hcl & _). unfold on_event, end_block.
  cbn [announce marker_of tk_sent tk_tracker tk_writers tk_bufs tk_meta tk_jobs tk_store].
  rewrite Hw, Hb, Hm, Hj, Hcl, !lookup_singleton_eq, delete_singleton_eq. cbn [mbind option_bind app].
  unfold close_and_finalize, Store.blob_close, bind, modify, ret. cbn [Store.bw_enc Store.bw_path Store.bw_len Store.now].
  match goal with |- context [Store.finalize_block env b ?e ?x ?l ?y] => set (st1 := y);
    destruct (finalize_block_run b e x l st1) as (st2 & Hf & Hblobs & Hdir2) end.
  pose proof (finalize_block_row env _ _ _ _ _ _ _ Hf Hrow) as Hrow2. rewrite Hf. cbn [fst].
  split; [|split; [|by split]].
  - erewrite get_block_row; [|done| |exact Hrow2].
    2: { unfold row_ok, Store.finalize_row. cbn. unfold Store.pane_key, Store.session_key.
         rewrite !uuid_parse_to_string. by split_and!; eauto. }
    unfold block_of, Store.finalize_row, Store.block_key, Store.pane_key, Store.session_key, Store.timestamp_millis_opt.
    subst st1. cbn [fst snd Store.set_blob Store.st_clocks Store.br_pane_id Store.br_session_id Store.br_command Store.br_cwd
      Store.br_started_at Store.br_ended_at Store.br_exit_code Store.br_stdout_len mbind option_bind fmap option_fmap option_map].
    rewrite Hclk, !uuid_parse_to_string, He, as_i64_small, Z.max_r, wrap_i32_small by lia.
    by destruct b, pane, session.
  - intros partial. unfold Store.read_block_stdout, bind, gets. rewrite Hdir2, Hblobs. subst st1.
    cbn [Store.set_blob Store.st_data_dir Store.st_blobs]. rewrite Hdir, lookup_insert_eq.
    unfold expect, of_result. by rewrite zstd_roundtrip.
Qed.

Lemma drain_nothing `{HashOrder} close_ok tk :
  tk_writers tk = ∅ → tk_store (drain env close_ok tk) = tk_store tk.
Proof.
  intros Hw. unfold drain. cbn [tk_store]. rewrite Hw, map_to_list_empty.
  pose proof (hash_order_perm ([] : list (BlockId * Store.BlobWriter))) as Hp.
  by apply Permutation_nil_r in Hp as ->.
Qed.

(** ** No block stays open *)
Definition blobs_ok (io : nat → EventIo) : Prop := ∀ n, io_open (io n) = true ∧ io_join (io n) = true.
Definition start_of (ev : BlockEvent) : option BlockId :=
  match ev with CommandStart _ b _ _ => Some b | _ => None end.
Definition starts (evs : list BlockEvent) : list BlockId := omap start_of evs.

Definition ended (st : Store.St) (b : BlockId) : Prop :=
  ∃ row, Store.db_blocks (Store.st_db st) !! Store.block_key b = Some row ∧ is_Some (Store.br_ended_at row).
Definition row_exists (st : Store.St) (b : BlockId) : Prop :=
  is_Some (Store.db_blocks (Store.st_db st) !! Store.block_key b).

(** Closing and finalizing a block ends it, if it has a row, and only it. *)
Lemma close_and_finalize_blocks close_ok b bw code st :
  ∃ t len, Store.db_blocks (Store.st_db (close_and_finalize env close_ok b bw code st)) =
    alter (Store.finalize_row t code len) (Store.block_key b) (Store.db_blocks (Store.st_db st)).
Proof.
  unfold close_and_finalize. match goal with |- context [let '(st1, len) := ?x in _] => destruct x as [st1 len] eqn:E end.
  assert (Store.st_db st1 = Store.st_db st) as Hdb.
  { destruct bw as [bw|]; [|by injection E as <-]. unfold Store.blob_close in E.
    destruct (Store.bw_enc bw); [destruct close_ok|]; cbn in E; by injection E as <-. }
  cbn [Store.now]. unfold Store.finalize_block, Store.execute, Store.query. rewrite no_fault. cbn [fst].
  eexists _, _. cbn [Store.st_db Store.after_stmt Store.with_blocks Store.db_blocks]. by rewrite Hdb.
Qed.

Lemma alter_ended f (m : gmap string Store.BlockRow) k k' row :
  (∀ r, is_Some (Store.br_ended_at (f r))) → m !! k = Some row → is_Some (Store.br_ended_at row) ∨ k = k' →
  ∃ row', alter f k' m !! k = Some row' ∧ is_Some (Store.br_ended_at row').
Proof.
  intros Hf Hm Hor. destruct (decide (k = k')) as [->|Hne].
  - rewrite lookup_alter_eq, Hm. cbn. eexists. split; [done|apply Hf].
  - rewrite lookup_alter_ne by done. destruct Hor as [?|?]; [eauto|done].
Qed.

Lemma close_ends close_ok b bw code st b' :
  row_exists st b' → ended st b' ∨ b' = b → ended (close_and_finalize env close_ok b bw code st) b'.
Proof.
  intros [row Hrow] Hor. destruct (close_and_finalize_blocks close_ok b bw code st) as (t & len & E).
  unfold ended. rewrite E. eapply alter_ended; [by eauto|exact Hrow|].
  destruct Hor as [(row' & Hrow' & ?)| ->]; [|by right]. left. congruence.
Qed.

Lemma close_keeps_row close_ok b bw code st b' :
  row_exists (close_and_finalize env close_ok b bw code st) b' ↔ row_exists st b'.
Proof.
  destruct (close_and_finalize_blocks close_ok b bw code st) as (t & len & E).
  unfold row_exists. by rewrite E, lookup_alter_is_Some.
Qed.

(** Started blocks have a row that is ended or an open writer; other rows are not
    made by this task. *)
Definition task_inv (st0 : Store.St) (tk : Task) : Prop :=
  (∀ b, b ∈ starts (tk_sent tk) →
     row_exists (tk_store tk) b ∧ (ended (tk_store tk) b ∨ is_Some (tk_writers tk !! b))) ∧
  (∀ b, b ∉ starts (tk_sent tk) → ¬ row_exists st0 b → ¬ row_exists (tk_store tk) b).

Lemma starts_app evs1 evs2 : starts (evs1 ++ evs2) = starts evs1 ++ starts evs2.
Proof. apply omap_app. Qed.

Lemma on_start_inv st0 io sid b cmd cwd tk :
  blobs_ok io → b ∉ starts (tk_sent tk) → ¬ row_exists st0 b → task_inv st0 tk →
  task_inv st0 (on_event env pane session io tk (CommandStart sid b cmd cwd)).
Proof.
  intros Hio Hb Hz [Hst Hno]. destruct (Hio (length (tk_sent tk))) as (Hop & _). unfold on_event, start_block.
  cbn [announce marker_of tk_sent tk_tracker tk_writers tk_bufs tk_meta tk_jobs tk_store Store.now].
  set (blk := MkBlock b _ _ _ _ _ None None 0).
  match goal with |- context [Store.create_block env blk ?x] => set (st1 := x) end.
  assert (Store.db_blocks (Store.st_db st1) !! Store.block_key (blk_id blk) = None) as Hnone.
  { apply eq_None_not_Some. exact (Hno b Hb Hz). }
  pose proof (create_block_run blk st1 Hnone) as (st2 & Hc & _). pose proof Hc as Hdb.
  unfold Store.create_block, bind, gets, Store.query in Hdb. rewrite no_fault, Hnone in Hdb. injection Hdb as Hdb.
  rewrite Hc, Hop. cbn [Store.blob_open bind modify ret]. unfold bind, modify, ret. cbn [tk_sent].
  assert (∀ b', Store.db_blocks (Store.st_db st2) !! Store.block_key b' =
    if decide (b' = b) then Store.db_blocks (Store.st_db st2) !! Store.block_key b
    else Store.db_blocks (Store.st_db (tk_store tk)) !! Store.block_key b') as Hlk.
  { intros b'. case_decide as Hd; [by subst|]. rewrite <- Hdb. subst st1.
    cbn [Store.st_db Store.after_stmt Store.with_blocks Store.db_blocks]. rewrite lookup_insert_ne; [done|].
    intros E. apply block_key_inj in E. by subst b'. }
  assert (row_exists st2 b) as Hrow.
  { pose proof (create_block_row env blk st1 st2 Hc) as Hr. exists (Store.MkBlockRow (Store.pane_key (blk_pane blk))
      (Store.session_key (blk_session blk)) (blk_command blk) (timestamp_millis (blk_started_at blk)) None None
      (blk_cwd blk) (Store.blob_path_for (Store.st_data_dir st1) (blk_id blk)) 0). exact Hr. }
  unfold task_inv. cbn [announce tk_sent tk_store tk_writers]. rewrite starts_app.
  unfold row_exists, ended. cbn [Store.set_blob Store.st_db]. split.
  - intros b' Hb'. apply elem_of_app in Hb' as [Hb'|Hb'].
    + assert (b' ≠ b) as Hne by (by intros ->). rewrite Hlk, decide_False by done.
      destruct (Hst b' Hb') as [Hr He]. split; [done|]. destruct He as [He|He]; [by left|right].
      by rewrite lookup_insert_ne.
    + cbn in Hb'. apply list_elem_of_singleton in Hb' as ->. split; [done|right].
      rewrite lookup_insert_eq. eauto.
  - intros b' Hb' Hz'. cbn in Hb'. rewrite not_elem_of_app, list_elem_of_singleton in Hb'. destruct Hb' as [Hb' Hne].
    rewrite Hlk, decide_False by done. by apply Hno.
Qed.

Lemma on_event_inv st0 io ev tk :
  blobs_ok io → match start_of ev with Some b => b ∉ starts (tk_sent tk) ∧ ¬ row_exists st0 b | None => True end →
  task_inv st0 tk → task_inv st0 (on_event env pane session io tk ev).
Proof.
  intros Hio Hev [Hst Hno]. destruct (Hio (length (tk_sent tk))) as (_ & Hj).
  destruct ev as [s|s b cmd cwd|b d|b code].
  - unfold on_event, task_inv. cbn [announce marker_of tk_sent tk_store tk_writers]. rewrite starts_app.
    cbn. by rewrite app_nil_r.
  - destruct Hev. by apply on_start_inv.
  - unfold on_event, task_inv. cbn [announce marker_of write_chunk tk_sent tk_store tk_writers]. rewrite starts_app.
    cbn [starts omap list_omap start_of]. rewrite app_nil_r. split; [|done]. intros b' Hb'.
    destruct (Hst b' Hb') as [Hr [He|[bw Hbw]]]; [by eauto|]. split; [done|right]. rewrite Hj.
    destruct (tk_writers tk !! b) as [bw'|] eqn:E; [|eauto]. destruct (decide (b' = b)) as [->|Hne].
    + rewrite lookup_insert_eq. eauto.
    + rewrite lookup_insert_ne, lookup_delete_ne by done. eauto.
  - unfold on_event, task_inv. cbn [announce marker_of end_block tk_sent tk_store tk_writers]. rewrite starts_app.
    cbn [starts omap list_omap start_of]. rewrite app_nil_r. split.
    + intros b' Hb'. destruct (Hst b' Hb') as [Hr He]. rewrite close_keeps_row. split; [done|].
      destruct (decide (b' = b)) as [->|Hne]; [left; apply close_ends; [done|by right]|].
      destruct He as [He|He]; [left; apply close_ends; [done|by left]|right]. by rewrite lookup_delete_ne.
    + intros b' Hb' Hz'. rewrite close_keeps_row. by apply Hno.
Qed.

Lemma on_event_sent io ev tk : tk_sent (on_event env pane session io tk ev) = tk_sent tk ++ [ev].
Proof.
  unfold on_event. destruct ev; cbn [announce tk_sent write_chunk end_block]; [done| |done..].
  unfold start_block. cbn [Store.now]. destruct (Store.create_block _ _ _) as [st2 [[]|e]]; [|done].
  by destruct (Store.blob_open _ _ _).
Qed.

Lemma events_inv st0 io evs tk :
  blobs_ok io → NoDup (starts (tk_sent tk ++ evs)) → Forall (λ b, ¬ row_exists st0 b) (starts evs) →
  task_inv st0 tk → task_inv st0 (fold_left (on_event env pane session io) evs tk) ∧
  tk_sent (fold_left (on_event env pane session io) evs tk) = tk_sent tk ++ evs.
Proof.
  intros Hio. revert tk. induction evs as [|ev evs IH]; intros tk Hnd Hz Hinv.
  - cbn. by rewrite app_nil_r.
  - cbn [fold_left]. destruct (IH (on_event env pane session io tk ev)) as [G1 G2].
    + by rewrite on_event_sent, <- app_assoc.
    + cbn in Hz. destruct (start_of ev); [by inversion Hz|done].
    + apply on_event_inv; [done| |done]. destruct (start_of ev) as [b|] eqn:E; [|done].
      rewrite starts_app in Hnd. unfold starts in Hnd at 2, Hz. cbn in Hnd, Hz. rewrite E in Hnd, Hz.
      inversion Hz; subst. split; [|done]. apply NoDup_app in Hnd as (_ & Hd & _).
      intros Hin. eapply Hd; [exact Hin|by left].
    + split; [exact G1|]. by rewrite G2, on_event_sent, <- app_assoc.
Qed.

Lemma drain_fold_ends close_ok (l : list (BlockId * Store.BlobWriter)) st b :
  row_exists st b → ended st b ∨ b ∈ l.*1 →
  ended (fold_left (λ st bw, close_and_finalize env (close_ok bw.1) bw.1 (Some bw.2) None st) l st) b.
Proof.
  revert st. induction l as [|[b' bw] l IH]; intros st Hr Hor; cbn [fold_left fmap list_fmap fst snd] in *.
  - destruct Hor as [|?%not_elem_of_nil]; done.
  - apply IH; [by apply close_keeps_row|]. destruct Hor as [He|[->|Hl]%elem_of_cons]; [left|left|by right];
      apply close_ends; auto.
Qed.

Lemma drain_ends `{HashOrder} st0 close_ok tk :
  task_inv st0 tk → ∀ b, b ∈ starts (tk_sent (drain env close_ok tk)) → ended (tk_store (drain env close_ok tk)) b.
Proof.
  intros [Hst _] b Hb. cbn [drain tk_sent tk_store] in *. destruct (Hst b Hb) as [Hr He].
  apply drain_fold_ends; [done|]. destruct He as [?|[bw Hbw]]; [by left|right].
  rewrite hash_order_perm. apply list_elem_of_fmap. exists (b, bw). split; [done|]. by apply elem_of_map_to_list.
Qed.

(** The blocks a parser opens are the identifiers it draws, in order. *)
Lemma core_starts fresh s c acts :
  starts (BlockParser.core_run fresh s c acts).2 =
  fresh <$> seq (BlockParser.co_minted c)
    (BlockParser.co_minted (BlockParser.core_run fresh s c acts).1 - BlockParser.co_minted c) ∧
  (BlockParser.co_minted c ≤ BlockParser.co_minted (BlockParser.core_run fresh s c acts).1)%nat.
Proof.
  revert c. induction acts as [|a acts IH]; intros c; cbn [BlockParser.core_run].
  - cbn. by rewrite Nat.sub_diag.
  - destruct (BlockParser.core_step fresh s c a) as [c1 evs] eqn:E. specialize (IH c1).
    destruct (BlockParser.core_run fresh s c1 acts) as [c2 evs2]. cbn [fst snd] in *. rewrite starts_app.
    assert ((starts evs = [] ∧ BlockParser.co_minted c1 = BlockParser.co_minted c) ∨
            (starts evs = [fresh (BlockParser.co_minted c)] ∧ BlockParser.co_minted c1 = S (BlockParser.co_minted c)))
      as [[-> Hm]|[-> Hm]].
    { unfold BlockParser.core_step, BlockParser.core_print in E. repeat case_match; simplify_eq/=; auto. }
    + cbn. by rewrite Hm in IH.
    + destruct IH as [-> Hle]. rewrite Hm in *. split; [|lia].
      replace (BlockParser.co_minted c2 - BlockParser.co_minted c)%nat
        with (S (BlockParser.co_minted c2 - S (BlockParser.co_minted c))) by lia. done.
Qed.

Lemma markers_starts evs : starts (BlockParser.markers evs) = starts evs.
Proof.
  unfold BlockParser.markers. induction evs as [|ev evs IH]; [done|].
  destruct ev; [rewrite filter_cons_True by done|rewrite filter_cons_True by done|rewrite filter_cons_False by naive_solver|rewrite filter_cons_True by done];
    unfold starts in *; cbn; by rewrite IH.
Qed.

Lemma feed_starts {P} `{BlockParser.VteParser P} fresh s chunks :
  ∃ k, starts (BlockParser.feed_chunks (P := P) fresh (BlockParser.new s) chunks).2 = fresh <$> seq 0 k.
Proof.
  rewrite <- markers_starts, BlockParser.feed_chunks_markers.
  destruct (core_starts fresh s (BlockParser.MkCore 0 None [] false)
    (concat (BlockParser.vte_actions BlockParser.vte_new chunks))) as [-> _]. by eexists.
Qed.

(** ** What is sent to the index *)
Definition jobs_open (tk : Task) : Prop :=
  map_Forall (λ _ m, blk_exit_code m = None) (tk_meta tk) ∧
  Forall (λ j, blk_exit_code j.1 = None) (tk_jobs tk).

Lemma on_event_jobs io tk ev : jobs_open tk → jobs_open (on_event env pane session io tk ev).
Proof.
  intros [Hm Hj]. unfold on_event.
  destruct ev as [s|s b cmd cwd|b d|b code]; cbn [announce write_chunk tk_meta tk_jobs]; [done| |done|].
  - unfold start_block. cbn [Store.now]. destruct (Store.create_block _ _ _) as [st2 [[]|e]]; [|done].
    destruct (Store.blob_open _ _ _) as [st3 r]. split; [|done]. cbn. by apply map_Forall_insert_2.
  - unfold end_block, jobs_open. cbn [announce tk_meta tk_jobs]. split.
    + intros k x Hx. apply lookup_delete_Some in Hx as [_ Hx]. by eapply Hm.
    + destruct (tk_meta tk !! b) as [meta|] eqn:E; [|done]. apply Forall_app. split; [done|].
      apply Forall_singleton. by eapply Hm.
Qed.

Lemma on_events_jobs io tk evs :
  jobs_open tk → jobs_open (fold_left (on_event env pane session io) evs tk).
Proof. revert tk. induction evs as [|ev evs IH]; intros tk Hj; [done|]. by apply IH, on_event_jobs. Qed.

Lemma new_task_jobs tracker st : jobs_open (new_task tracker st).
Proof. split; [apply map_Forall_empty|constructor]. Qed.
End Task.

(** Running the spawned index jobs, in order. *)
Definition run_jobs `{UuidText} (jobs : list (Block * string)) (ix : BlockIndex.Index) : BlockIndex.Index :=
  fold_left (λ ix j, (BlockIndex.add_block true true j.1 j.2 ix).1) jobs ix.

Lemma run_jobs_committed `{UuidText} jobs docs :
  BlockIndex.ix_committed (run_jobs jobs (BlockIndex.MkIndex docs [])) =
  docs ++ ((λ j, BlockIndex.document j.1 j.2) <$> jobs).
Proof.
  revert docs. induction jobs as [|j jobs IH]; intros docs; cbn; [by rewrite app_nil_r|].
  fold (run_jobs (H := H) jobs). unfold BlockIndex.commit, BlockIndex.add_document. cbn.
  unfold run_jobs in IH. rewrite IH, <- app_assoc. done.
Qed.

(** ** Properties *)

(** C4: a command is recorded completely. When the shell prints, in chunks of any
    sizes, a prompt marker, a command line, an output marker, output and an end
    marker with an exit code, and neither the database nor the file system refuses
    anything, then after the parser task the store gives back a block with the
    trimmed command, the working directory read from /proc, start and end time, that exit code and the
    length of the output; the blob decodes to exactly the bytes printed; and the
    state tracker has the end marker. *)
Theorem command_recorded `{UuidText, LayoutJson, SqlOrder, Zstd, ChronoRange, HashOrder}
  {P} `{BlockParser.VteParser P} env pane session fresh io close_ok chunks tracker st cmd out code
  (no_fault : ∀ n, Store.env_fault env n = false)
  (Hio : all_ok io)
  (Hstart : chrono_ok (timestamp_millis (Store.env_clock env (Store.st_clocks st))) = true)
  (Hend : chrono_ok (timestamp_millis (Store.env_clock env (Store.st_clocks st + 1))) = true)
  (Hnew : Store.db_blocks (Store.st_db st) !! Store.block_key (fresh 0%nat) = None)
  (Hacts : concat (BlockParser.vte_actions BlockParser.vte_new chunks)
           = BlockParser.osc x41 [] :: cmd ++ BlockParser.osc x43 [] :: out ++ [BlockParser.osc x44 [show_int code]])
  (Hcmd : forallb BlockParser.is_text cmd = true) (Hout : forallb BlockParser.is_text out = true)
  (Hcode : -2147483648 ≤ code ≤ 2147483647)
  (Hlen : Z.of_nat (length (flat_map BlockParser.action_bytes out)) < 2 ^ 63) :
  let tk := parser_task env pane session fresh io close_ok chunks tracker st in
  let printed := flat_map BlockParser.action_bytes out in
  (Store.get_block env (fresh 0%nat) (tk_store tk)).2 =
    Ok (Some (MkBlock (fresh 0%nat) pane session
      (BlockParser.command_text (filter BlockParser.not_nul (flat_map BlockParser.action_bytes cmd)))
      (io_cwd (io 1%nat)) (trunc_ms (Store.env_clock env (Store.st_clocks st)))
      (Some (trunc_ms (Store.env_clock env (Store.st_clocks st + 1))))
      (Some code) (Z.of_nat (length printed)))) ∧
  (∀ partial, (Store.read_block_stdout partial (fresh 0%nat) (tk_store tk)).2 = Ok printed) ∧
  PaneTracker.tr_last_marker (tk_tracker tk) = Some (PaneTracker.MarkD (Some code)).
Proof.
  cbn zeta. unfold parser_task. rewrite parser_loop_events.
  destruct (BlockParser.lifecycle_events fresh session chunks cmd out code Hacts Hcmd Hout Hcode)
    as (data & -> & Hdata & _). cbn [fold_left]. rewrite fold_left_app. cbn [fold_left].
  set (tk1 := on_event env pane session io (new_task tracker st) (PromptStart session)).
  set (command := BlockParser.command_text _).
  destruct (start_block_open env pane session no_fault io (fresh 0%nat) command (tk_tracker tk1) st [PromptStart session]
    Hio Hnew) as (dir & Hdir & Hclk & Hrow & Hw & Hb & Hm & Hj).
  change (MkTask [PromptStart session] _ _ _ _ _ _) with tk1 in *. cbn [length] in *.
  set (tk2 := on_event env pane session io tk1 _) in *.
  destruct (chunks_run env pane session io (fresh 0%nat) data _ [] [] tk2 Hio Hw Hb) as (E1 & E2 & E3 & E4 & E5 & E6);
    [cbn [app]; by rewrite Hdata|]. cbn [app] in E1, E2.
  set (tk3 := fold_left (on_event env pane session io) _ tk2) in *.
  destruct (end_block_recorded env pane session no_fault io (fresh 0%nat) command (io_cwd (io 1%nat))
    (Store.env_clock env (Store.st_clocks st)) (Store.st_clocks st + 1) (concat data) code tk3)
    as (R1 & R2 & R3 & R4 & _); [done| |done|done|by rewrite Hdata|lia|].
  { exists dir. rewrite E3, E4, E5. by split_and!. }
  rewrite drain_nothing by exact R4. rewrite <- Hdata. split; [exact R1|]. split; [exact R2|exact R3].
Qed.

(** C13: no block stays open. Whatever the shell prints, markers out of order or
    missing included, and whatever reads, writes and closes of blobs do, once the
    parser task has drained every block it announced has a row with an end time,
    provided the database works and blobs can be created. *)
Theorem no_block_left_open `{UuidText, LayoutJson, SqlOrder, Zstd, ChronoRange, HashOrder}
  {P} `{BlockParser.VteParser P} env pane session fresh io close_ok chunks tracker st
  (no_fault : ∀ n, Store.env_fault env n = false)
  (Hio : blobs_ok io)
  (Hinj : ∀ i j, fresh i = fresh j → i = j)
  (Hnew : ∀ n, Store.db_blocks (Store.st_db st) !! Store.block_key (fresh n) = None) :
  let tk := parser_task env pane session fresh io close_ok chunks tracker st in
  ∀ b, b ∈ starts (tk_sent tk) → ended (tk_store tk) b.
Proof.
  cbn zeta. unfold parser_task. rewrite parser_loop_events.
  destruct (feed_starts fresh session chunks) as [k Hk].
  destruct (events_inv env pane session no_fault st io (BlockParser.feed_chunks fresh (BlockParser.new session) chunks).2
    (new_task tracker st)) as [Hinv _].
  - done.
  - cbn [new_task tk_sent app]. rewrite Hk. apply NoDup_fmap_2; [intros i j; apply Hinj|apply NoDup_seq].
  - rewrite Hk, Forall_fmap. apply Forall_true. intros n. unfold row_exists. cbn. rewrite Hnew. by intros [].
  - split; [by intros b ?%not_elem_of_nil|by intros b _].
  - by apply (drain_ends env no_fault st).
Qed.

(** Failures of the running daemon cannot be searched for. The block the
    parser task hands to the index is the one it built when the command started,
    without exit code; so whatever commands ran and however they ended, a search
    for failures over what the live tasks indexed finds nothing. *)
Theorem live_failures_unsearchable `{UuidText, LayoutJson, SqlOrder, Zstd, ChronoRange, HashOrder, BlockIndex.Tantivy}
  {P} `{BlockParser.VteParser P} env pane session fresh io close_ok chunks tracker st
  query limit sess pn ids
  (Hsearch : BlockIndex.search true query limit true sess pn None
     (run_jobs (tk_jobs (parser_task env pane session fresh io close_ok chunks tracker st))
        (BlockIndex.MkIndex [] [])) = Ok ids) :
  ids = [].
Proof.
  revert Hsearch. unfold BlockIndex.search. cbn [negb]. destruct (BlockIndex.parse_query query) as [q|]; [|done].
  destruct (limit =? 0); [done|]. rewrite run_jobs_committed. cbn [app].
  assert (Forall (λ j, blk_exit_code j.1 = None)
    (tk_jobs (parser_task env pane session fresh io close_ok chunks tracker st))) as Hj.
  { unfold parser_task. cbn [drain tk_jobs]. rewrite parser_loop_events. apply on_events_jobs, new_task_jobs. }
  match goal with |- context [filter ?K ?l] => assert (filter K l = []) as Hnil end.
  { apply filter_none. intros d Hd. apply list_elem_of_fmap in Hd as (j & -> & Hin).
    rewrite Forall_forall in Hj. unfold BlockIndex.exit_clause, BlockIndex.document. cbn [BlockIndex.doc_exit_code].
    rewrite (Hj j Hin). cbn. by rewrite andb_false_r. }
  rewrite Hnil. pose proof (BlockIndex.by_score_perm query []) as Hp. apply Permutation_nil_r in Hp as ->.
  rewrite take_nil. by intros [= <-].
Qed.

Section Witnesses.
#[local] Existing Instances binary_uuid binary_json stable_order no_compression chrono_0_4 list_hash
  BlockIndex.substring_engine BlockParser.mini_vte.

(** "ls" with two lines of output and exit code 1, in three reads. *)
Definition ls_chunks : list Bytes :=
  [BlockParser.esc_osc "133;A" ++ str_bytes "ls " ++ [x1b; x5d; x31];
   str_bytes "33;C" ++ [x07] ++ str_bytes "a" ++ [x0a] ++ str_bytes "b";
   BlockParser.esc_osc "133;D;1"].
Definition good_io (n : nat) : EventIo := MkEventIo 0 (Some "/home/u") true true true true.
Definition ids_from (n : nat) : BlockId := MkBlockId (N.of_nat n).
Definition ls_task : Task :=
  parser_task (P := BlockParser.MiniVte) calm (MkPaneId 3) (MkSessionId 9) ids_from good_io (λ _, true)
    ls_chunks (PaneTracker.new 0 42) (fresh_store "/d").

Lemma command_recorded_witness :
  (Store.get_block calm (MkBlockId 0) (tk_store ls_task)).2 =
    Ok (Some (MkBlock (MkBlockId 0) (MkPaneId 3) (MkSessionId 9) "ls" (Some "/home/u") 0
                (Some 1000000) (Some 1) 3)) ∧
  (∀ partial, (Store.read_block_stdout partial (MkBlockId 0) (tk_store ls_task)).2 =
     Ok (str_bytes "a" ++ [x0a] ++ str_bytes "b")) ∧
  PaneTracker.tr_last_marker (tk_tracker ls_task) = Some (PaneTracker.MarkD (Some 1)).
Proof.
  apply (command_recorded (P := BlockParser.MiniVte) calm (MkPaneId 3) (MkSessionId 9) ids_from good_io
    (λ _, true) ls_chunks (PaneTracker.new 0 42) (fresh_store "/d")
    [BlockParser.Print 108; BlockParser.Print 115; BlockParser.Print 32]
    [BlockParser.Print 97; BlockParser.Execute x0a; BlockParser.Print 98] 1).
  all: try (vm_compute; reflexivity).
  - done.
  - lia.
Defined.

(** The shell dies while "ls" is still printing: its block is ended by the drain. *)
Definition cut_task : Task :=
  parser_task (P := BlockParser.MiniVte) calm (MkPaneId 3) (MkSessionId 9) ids_from good_io (λ _, true)
    (take 2 ls_chunks) (PaneTracker.new 0 42) (fresh_store "/d").

Lemma no_block_left_open_witness :
  starts (tk_sent cut_task) = [MkBlockId 0] ∧ ended (tk_store cut_task) (MkBlockId 0).
Proof.
  split; [vm_compute; reflexivity|].
  apply (no_block_left_open (P := BlockParser.MiniVte) calm (MkPaneId 3) (MkSessionId 9) ids_from good_io
    (λ _, true) (take 2 ls_chunks) (PaneTracker.new 0 42) (fresh_store "/d")); [done|done| |done|].
  - intros i j E. injection E as E. lia.
  - vm_compute. left.
Defined.

(** "ls" failed, and the search for failures does not find it; the search for its
    text does. *)
Definition ls_index : BlockIndex.Index := run_jobs (tk_jobs ls_task) (BlockIndex.MkIndex [] []).
Definition found (r : result BlockIndex.IndexError (list BlockId)) : list BlockId :=
  match r with Ok ids => ids | Err _ => [] end.

Lemma live_failures_unsearchable_witness :
  found (BlockIndex.search true "ls" 10 false None None None ls_index) = [MkBlockId 0] ∧
  found (BlockIndex.search true "ls" 10 true None None None ls_index) = [].
Proof.
  split; [vm_compute; reflexivity|].
  apply (live_failures_unsearchable (P := BlockParser.MiniVte) calm (MkPaneId 3) (MkSessionId 9) ids_from good_io
    (λ _, true) ls_chunks (PaneTracker.new 0 42) (fresh_store "/d") "ls" 10 None None).
  vm_compute. reflexivity.
Defined.
End Witnesses.
