(* ===== verification/Stream.v ===== *)
(** * Stream: a client attached to a pane (pyred/src/stream.rs)

    One stream connection beside the reader thread of its pane, as a labelled
    state machine: the reader publishes output into the ring buffer and the
    broadcast channel while the connection takes the snapshot, subscribes, forwards
    what it receives and ends. A broadcast receiver that falls more than the
    channel's capacity behind loses the oldest messages ([Lag]). *)
From Stdlib Require Import Strings.Byte.
From S2P Require Import Prelude Proto Text Libraries Effects RingBuf PaneTracker Store StoreBlocks.
From S2P Require Import Registry RegistryInv Pty.
Local Open Scope Z_scope.

Module Stream.

(** ** Opening *)

(** The two identifiers, then the pane, which must be of that session. *)
Definition stream_open `{HashOrder} (input : Bytes) (s : Registry.Reg) :
    result IoError (option (SessionId * Registry.PaneState * Bytes)) :=
  let? h := read_stream_header input in
  let '(session_id, pane_id, rest) := h in
  match Registry.get_pane pane_id s with
  | Some (sess, p) =>
      if decide (Registry.se_id sess = session_id) then Ok (Some (session_id, p, rest)) else Ok None
  | None => Ok None
  end.

(** ** The connection and the reader thread *)
Inductive Phase :=
  | Connected
  | Snapshotted   (** the snapshot frame is sent *)
  | Live          (** subscribed *)
  | Ended.
#[export] Instance Phase_eq_dec : EqDecision Phase.
Proof. solve_decision. Defined.

Record Conn := MkConn {
  cn_ring : RingBuf.RingBuf;
  cn_queue : list Bytes;          (** received and not yet forwarded *)
  cn_frames : list OutputFrame;   (** sent to the client *)
  cn_seq : Z;
  cn_phase : Phase;
  (** history: what was published before the snapshot, then before the
      subscription, then after it *)
  cn_before : list Bytes;
  cn_gap : list Bytes;
  cn_live : list Bytes }.

Inductive Label :=
  | Publish (data : Bytes)        (** the reader thread got bytes *)
  | Snapshot
  | Subscribe
  | Forward (sent : bool)         (** one message received; whether the frame went out *)
  | Lag                           (** the receiver fell behind *)
  | Cancel.                       (** the close token *)

Definition publish (data : Bytes) (c : Conn) : Conn :=
  let ring := RingBuf.push (cn_ring c) data in
  match cn_phase c with
  | Connected =>
      MkConn ring (cn_queue c) (cn_frames c) (cn_seq c) Connected (cn_before c ++ [data]) (cn_gap c) (cn_live c)
  | Snapshotted =>
      MkConn ring (cn_queue c) (cn_frames c) (cn_seq c) Snapshotted (cn_before c) (cn_gap c ++ [data]) (cn_live c)
  | Live =>
      MkConn ring (cn_queue c ++ [data]) (cn_frames c) (cn_seq c) Live (cn_before c) (cn_gap c) (cn_live c ++ [data])
  | Ended =>
      MkConn ring (cn_queue c) (cn_frames c) (cn_seq c) Ended (cn_before c) (cn_gap c) (cn_live c)
  end.

Definition with_queue (q : list Bytes) (fs : list OutputFrame) (seq : Z) (ph : Phase) (c : Conn) : Conn :=
  MkConn (cn_ring c) q fs seq ph (cn_before c) (cn_gap c) (cn_live c).

Definition exec (session : SessionId) (l : Label) (c : Conn) : option Conn :=
  match l, cn_phase c with
  | Publish data, _ => Some (publish data c)
  | Snapshot, Connected =>
      let frame := MkOutputFrame session 0 (RingBuf.snapshot (cn_ring c)) in
      Some (with_queue (cn_queue c) (cn_frames c ++ [frame]) 0 Snapshotted c)
  | Subscribe, Snapshotted => Some (with_queue [] (cn_frames c) (cn_seq c) Live c)
  | Forward sent, Live =>
      match cn_queue c with
      | data :: q =>
          if (length (cn_queue c) <=? Pty.OUT_CHANNEL_CAP)%nat then
            let seq := wrap_u64 (cn_seq c + 1) in
            if sent then Some (with_queue q (cn_frames c ++ [MkOutputFrame session seq data]) seq Live c)
            else Some (with_queue q (cn_frames c) seq Ended c)
          else None
      | [] => None
      end
  | Lag, Live =>
      if (Pty.OUT_CHANNEL_CAP <? length (cn_queue c))%nat
      then Some (with_queue (lastn Pty.OUT_CHANNEL_CAP (cn_queue c)) (cn_frames c) (cn_seq c) Live c)
      else None
  | Cancel, Live => Some (with_queue (cn_queue c) (cn_frames c) (cn_seq c) Ended c)
  | _, _ => None
  end.

Fixpoint execs (session : SessionId) (ls : list Label) (c : Conn) : option Conn :=
  match ls with
  | [] => Some c
  | l :: ls' => c' ← exec session l c; execs session ls' c'
  end.

Definition connect (ring : RingBuf.RingBuf) (before : list Bytes) : Conn :=
  MkConn ring [] [] 0 Connected before [] [].
(** A connection to a pane that has printed nothing, with a ring buffer of [cap]
    bytes (64 KiB in [spawn_pty]). *)
Definition start (cap : nat) : Conn := connect (RingBuf.new cap) [].

(** ** Input: frames are handed to the writer thread until one fails *)
Fixpoint recv_task (frames : list (option InputFrame * bool)) : list Bytes :=
  match frames with
  | (Some f, true) :: rest => if_data f :: recv_task rest
  | _ => []
  end.

(** ** Invariant *)
Definition is_lag (l : Label) : bool := match l with Lag => true | _ => false end.

Definition frame_bytes (c : Conn) : Bytes := concat (of_data <$> cn_frames c).

Definition conn_ok (cap : nat) (session : SessionId) (c : Conn) : Prop :=
  RingBuf.ring_ok (cn_ring c) ∧ RingBuf.rb_cap (cn_ring c) = cap ∧
  Forall (λ f, of_session f = session) (cn_frames c) ∧
  match cn_phase c with
  | Connected =>
      cn_frames c = [] ∧ cn_gap c = [] ∧ cn_live c = [] ∧
      RingBuf.snapshot (cn_ring c) = lastn cap (concat (cn_before c))
  | Snapshotted =>
      frame_bytes c = lastn cap (concat (cn_before c)) ∧ cn_live c = [] ∧
      of_seq <$> cn_frames c = [0] ∧ cn_seq c = 0
  | Live =>
      frame_bytes c ++ concat (cn_queue c) = lastn cap (concat (cn_before c)) ++ concat (cn_live c) ∧
      of_seq <$> cn_frames c = Z.of_nat <$> seq 0 (length (cn_frames c)) ∧
      cn_seq c = Z.of_nat (length (cn_frames c)) - 1 ∧ (0 < length (cn_frames c))%nat
  | Ended =>
      frame_bytes c `prefix_of` lastn cap (concat (cn_before c)) ++ concat (cn_live c) ∧
      of_seq <$> cn_frames c = Z.of_nat <$> seq 0 (length (cn_frames c))
  end.

Lemma start_ok cap session : conn_ok cap session (start cap).
Proof.
  split; [apply RingBuf.new_ring_ok|]. split; [done|]. split; [constructor|]. by split_and!.
Qed.

Lemma publish_ok cap session data c : conn_ok cap session c → conn_ok cap session (publish data c).
Proof.
  intros (Hr & Hc & Hf & Hp). destruct (RingBuf.push_refines (cn_ring c) data Hr) as (Hr' & Hc' & Hs').
  unfold publish, conn_ok. destruct (cn_phase c); cbn [cn_ring cn_queue cn_frames cn_seq cn_phase cn_before cn_gap cn_live];
    (split; [done|]; split; [by rewrite Hc'|]; split; [done|]).
  - destruct Hp as (-> & -> & -> & Hsn). split_and!; [done..|].
    rewrite Hs', Hc, Hsn, lastn_app_lastn, concat_app. cbn. by rewrite app_nil_r.
  - done.
  - destruct Hp as (Hb & Hq & Hse). split; [|done]. rewrite !concat_app. cbn. rewrite app_nil_r.
    unfold frame_bytes in *. cbn. by rewrite !app_assoc, Hb.
  - done.
Qed.

Lemma exec_ok cap session l c c' :
  is_lag l = false → Z.of_nat (length (cn_frames c)) < 2 ^ 64 →
  conn_ok cap session c → exec session l c = Some c' → conn_ok cap session c'.
Proof.
  intros Hl Hlen Hok. destruct l as [data| | |sent| |]; cbn [exec].
  - intros [= <-]. by apply publish_ok.
  - destruct Hok as (Hr & Hc & Hf & Hp). destruct (cn_phase c) eqn:Eph; [|done..]. intros [= <-].
    destruct Hp as (Hfr & Hg & Hlv & Hsn). unfold conn_ok, with_queue, frame_bytes.
    cbn [cn_ring cn_queue cn_frames cn_seq cn_phase cn_before cn_gap cn_live]. rewrite Hfr. cbn. rewrite app_nil_r.
    split_and!; [done..| |done|done|done|done]. by apply Forall_singleton.
  - destruct Hok as (Hr & Hc & Hf & Hp). destruct (cn_phase c) eqn:Eph; [done| |done..]. intros [= <-].
    destruct Hp as (Hb & Hlv & Hse & Hz). unfold conn_ok, with_queue, frame_bytes in *.
    cbn [cn_ring cn_queue cn_frames cn_seq cn_phase cn_before cn_gap cn_live].
    split; [done|]. split; [done|]. split; [done|]. rewrite Hlv, Hz. cbn [concat]. rewrite !app_nil_r.
    destruct (cn_frames c) as [|f [|]]; [done| |done]. cbn in *. split_and!; [done|done|lia|lia].
  - destruct Hok as (Hr & Hc & Hf & Hp). destruct (cn_phase c) eqn:Eph; [done..| |done].
    destruct (cn_queue c) as [|data q] eqn:Eq; [done|]. case_match; [|done].
    destruct Hp as (Hb & Hse & Hz & Hpos). unfold frame_bytes in Hb. cbn [concat] in Hb.
    assert (wrap_u64 (cn_seq c + 1) = Z.of_nat (length (cn_frames c))) as Hw.
    { unfold wrap_u64, wrap_u. rewrite Hz, Z.mod_small; lia. }
    destruct sent; intros [= <-]; unfold conn_ok, with_queue, frame_bytes;
      cbn [cn_ring cn_queue cn_frames cn_seq cn_phase cn_before cn_gap cn_live]; (split; [done|]; split; [done|]).
    + split; [by apply Forall_app; split; [|apply Forall_singleton]|].
      rewrite fmap_app, concat_app, length_app, seq_app, !fmap_app, Hse, Hw. cbn. rewrite app_nil_r.
      split_and!; [by rewrite <- app_assoc|done|lia|lia].
    + split; [done|]. split; [|done]. rewrite <- Hb. apply prefix_app_r. done.
  - done.
  - destruct Hok as (Hr & Hc & Hf & Hp). destruct (cn_phase c) eqn:Eph; [done..| |done]. intros [= <-].
    unfold conn_ok, with_queue, frame_bytes in *. cbn [cn_ring cn_queue cn_frames cn_seq cn_phase cn_before cn_gap cn_live].
    destruct Hp as (Hb & Hse & _). split_and!; [done..| |done]. rewrite <- Hb. by apply prefix_app_r.
Qed.

Lemma exec_frames session l c c' :
  exec session l c = Some c' → (length (cn_frames c') ≤ length (cn_frames c) + 1)%nat.
Proof.
  destruct l as [data| | |sent| |]; cbn [exec].
  { intros [= <-]. unfold publish. destruct (cn_phase c); cbn; lia. }
  all: destruct (cn_phase c); try done; repeat case_match; intros; simplify_eq; cbn; rewrite ?length_app; cbn; lia.
Qed.

Lemma execs_ok cap session ls c c' :
  forallb (negb ∘ is_lag) ls = true → Z.of_nat (length (cn_frames c) + length ls) < 2 ^ 64 →
  conn_ok cap session c → execs session ls c = Some c' → conn_ok cap session c'.
Proof.
  revert c. induction ls as [|l ls IH]; intros c Hl Hlen Hok Hex; cbn in Hex; [by injection Hex as <-|].
  cbn in Hl. apply andb_true_iff in Hl as [Hl1 Hl2]. apply negb_true_iff in Hl1.
  apply bind_Some in Hex as (c1 & He & Hex). cbn [length] in Hlen. pose proof (exec_frames _ _ _ _ He).
  apply (IH c1); [done|lia| |done]. eapply (exec_ok cap session l c); [done|lia|done|done].
Qed.

(** Panes found by their identifier are those of the maps. *)
Lemma get_pane_complete `{HashOrder} env s sid sess pid p :
  reg_ok env s → Registry.rg_sessions s !! sid = Some sess → Registry.se_panes sess !! pid = Some p →
  Registry.get_pane pid s = Some (sess, p).
Proof.
  intros (Hall & Hex & _) Hs Hp. unfold Registry.get_pane.
  destruct (Registry.scan_pane pid (Registry.sessions_values s)) as [[sess' p']|] eqn:E.
  - apply scan_pane_Some in E as [Hin Hp']. apply elem_of_map_values in Hin as [k Hk].
    assert (k = sid) as -> by (eapply (Hex pid); [exact Hk|exact Hs|by eexists|by eexists]).
    rewrite Hs in Hk. injection Hk as <-. congruence.
  - eapply scan_pane_None in E; [|apply elem_of_map_values; by eexists]. congruence.
Qed.

(** ** Properties *)


(** Bytes printed between the snapshot and the subscription reach the client
    neither way. "b" is printed in that window: the client gets "a" and "c" in
    consecutive frames, with nothing that shows the hole. *)
Theorem stream_gap_lost :
  (λ c, (cn_frames c, cn_queue c, cn_before c ++ cn_gap c ++ cn_live c)) <$>
    execs (MkSessionId 1) [Publish [x61]; Snapshot; Publish [x62]; Subscribe; Publish [x63]; Forward true] (start 8)
  = Some ([MkOutputFrame (MkSessionId 1) 0 [x61]; MkOutputFrame (MkSessionId 1) 1 [x63]], [],
          [[x61]; [x62]; [x63]]).
Proof. vm_compute. reflexivity. Qed.

(** A stream is only opened on a pane of the session the client names: in a
    well-formed registry the header leads to a pane exactly if that session is
    there and holds that pane; otherwise the connection is shut down. *)
Theorem stream_open_exact `{UuidText, LayoutJson, SqlOrder, Zstd, ChronoRange, HashOrder} env s sid pid p rest
  (Hok : reg_ok env s)
  (Hsid : (session_uuid sid < 2 ^ 128)%N) (Hpid : (pane_uuid pid < 2 ^ 128)%N) :
  stream_open (uuid_as_bytes (session_uuid sid) ++ uuid_as_bytes (pane_uuid pid) ++ rest) s
    = Ok (Some (sid, p, rest)) ↔
  ∃ sess, Registry.rg_sessions s !! sid = Some sess ∧ Registry.se_panes sess !! pid = Some p.
Proof.
  unfold stream_open. rewrite read_stream_header_app by done.
  pose proof (sessions_ok_ids env none _ _ Hok) as Hids. split.
  - destruct (Registry.get_pane pid s) as [[sess x]|] eqn:E; [|done]. case_decide as Hse; [|done].
    intros [= ->]. apply get_pane_Some in E as [Hs Hp]; [|done]. exists sess. by rewrite <- Hse.
  - intros (sess & Hs & Hp). rewrite (get_pane_complete env s sid sess pid p Hok Hs Hp).
    by rewrite (Hids sid sess Hs), decide_True.
Qed.

Section Witnesses.
#[local] Existing Instances binary_uuid binary_json stable_order no_compression chrono_0_4 list_hash.

Definition two_chunks : list Label :=
  [Publish [x61]; Snapshot; Subscribe; Publish [x62]; Forward true; Publish [x63]].
Definition two_chunks_conn : Conn := default (start 8) (execs (MkSessionId 1) two_chunks (start 8)).


Definition one_pane : Registry.Reg := run_ops calm (take 2 some_ops) (fresh_reg "/d").
Lemma stream_open_exact_witness :
  reg_ok calm one_pane ∧
  ∀ p rest,
    stream_open (uuid_as_bytes 0 ++ uuid_as_bytes 2 ++ rest) one_pane
      = Ok (Some (MkSessionId 0, p, rest)) ↔
    ∃ sess, Registry.rg_sessions one_pane !! MkSessionId 0 = Some sess ∧
            Registry.se_panes sess !! MkPaneId 2 = Some p.
Proof.
  assert (reg_ok calm one_pane) as Hok.
  { apply run_ops_ok; [intros i j; cbn; lia|apply fresh_reg_ok]. }
  split; [done|]. intros p rest.
  apply (stream_open_exact calm one_pane (MkSessionId 0) (MkPaneId 2) p rest Hok); vm_compute; reflexivity.
Defined.
End Witnesses.
End Stream.
