(* ===== verification/Capture.v ===== *)
(** * Capture: the text of a pane without its escape sequences

    The CSI pattern of pyred/src/ansi.rs and the tail of lines [capture_pane]
    (pyred/src/server.rs) returns. Text is a list of Unicode scalar values; the
    pattern only matches characters below 0x80. *)
From Stdlib Require Import Strings.Byte.
From S2P Require Import Prelude Proto Text.
Local Open Scope Z_scope.

Module Capture.

Definition ESC : Z := 0x1b.
Definition is_param (c : Z) : bool := in_range 0x20 0x3f c.
Definition is_final (c : Z) : bool := in_range 0x40 0x7e c.

(** A match of [\x1b\[[\x20-\x3f]*[\x40-\x7e]] at the start: what follows it. *)
Definition match_csi (cs : list Z) : option (list Z) :=
  match cs with
  | c0 :: c1 :: rest =>
      if (c0 =? ESC) && (c1 =? 0x5b) then
        match drop_while is_param rest with
        | f :: rest' => if is_final f then Some rest' else None
        | [] => None
        end
      else None
  | _ => None
  end.

(** [replace_all] with the empty text; the fuel is the length of the text. *)
Fixpoint strip_go (fuel : nat) (cs : list Z) : list Z :=
  match fuel with
  | O => []
  | S fuel' =>
      match cs with
      | [] => []
      | c :: cs' =>
          match match_csi cs with
          | Some rest => strip_go fuel' rest
          | None => c :: strip_go fuel' cs'
          end
      end
  end.
Definition strip_csi (cs : list Z) : list Z := strip_go (length cs) cs.

(** [split('\n')] and [join("\n")] *)
Fixpoint split_lines (cs : list Z) : list (list Z) :=
  match cs with
  | [] => [[]]
  | c :: cs' =>
      if c =? 10 then [] :: split_lines cs'
      else match split_lines cs' with
           | l :: ls => (c :: l) :: ls
           | [] => [[c]]
           end
  end.
Fixpoint join_lines (ls : list (list Z)) : list Z :=
  match ls with
  | [] => []
  | [l] => l
  | l :: ls' => l ++ 10 :: join_lines ls'
  end.

(** What [capture_pane] makes of the ring buffer's contents. *)
Definition capture (snapshot : Bytes) (lines : Z) : Bytes :=
  let stripped := strip_csi (from_utf8_lossy snapshot) in
  let all_lines := split_lines stripped in
  let take := Nat.min (Z.to_nat lines) (length all_lines) in
  encode (join_lines (drop (length all_lines - take) all_lines)).

(** ** Lemmas *)
Lemma drop_while_length {A} (f : A → bool) l : (length (drop_while f l) ≤ length l)%nat.
Proof. induction l as [|x l IH]; cbn; [done|]. case_match; cbn; lia. Qed.

Lemma match_csi_length cs rest : match_csi cs = Some rest → (length rest < length cs)%nat.
Proof.
  destruct cs as [|c0 [|c1 cs]]; [done..|]. cbn. case_match; [|done].
  pose proof (drop_while_length is_param cs). destruct (drop_while is_param cs); [done|].
  case_match; [|done]. intros [= <-]. cbn in *. lia.
Qed.

(** The fuel is enough. *)
Lemma strip_go_fuel n m cs : (length cs ≤ n)%nat → (length cs ≤ m)%nat → strip_go n cs = strip_go m cs.
Proof.
  revert m cs. induction n as [|n IH]; intros m cs Hn Hm.
  - destruct cs; [|cbn in Hn; lia]. by destruct m.
  - destruct m as [|m]; [destruct cs; [done|cbn in Hm; lia]|]. cbn [strip_go].
    destruct cs as [|c cs]; [done|]. cbn [length] in *.
    destruct (match_csi (c :: cs)) as [rest|] eqn:E; [|f_equal; apply IH; lia].
    apply match_csi_length in E. cbn [length] in E. apply IH; lia.
Qed.

Lemma strip_csi_cons c cs :
  strip_csi (c :: cs) =
  match match_csi (c :: cs) with Some rest => strip_csi rest | None => c :: strip_csi cs end.
Proof.
  unfold strip_csi at 1. cbn [length strip_go]. destruct (match_csi (c :: cs)) as [rest|] eqn:E; [|done].
  apply match_csi_length in E. cbn [length] in E. apply strip_go_fuel; lia.
Qed.

(** ** Terminal text: pieces without ESC and CSI sequences *)
Inductive Piece := Plain (cs : list Z) | Csi (params : list Z) (final : Z).
Definition piece_ok (p : Piece) : bool :=
  match p with
  | Plain cs => forallb (λ c, negb (c =? ESC)) cs
  | Csi params final => forallb is_param params && is_final final
  end.
Definition render_piece (p : Piece) : list Z :=
  match p with Plain cs => cs | Csi params final => ESC :: 0x5b :: params ++ [final] end.
Definition render (ps : list Piece) : list Z := flat_map render_piece ps.
Definition visible (ps : list Piece) : list Z :=
  flat_map (λ p, match p with Plain cs => cs | Csi _ _ => [] end) ps.

Lemma match_csi_plain c cs : c ≠ ESC → match_csi (c :: cs) = None.
Proof. intros Hc. destruct cs as [|c1 cs]; [done|]. cbn. destruct (Z.eqb_spec c ESC); done. Qed.

Lemma strip_plain cs rest :
  forallb (λ c, negb (c =? ESC)) cs = true → strip_csi (cs ++ rest) = cs ++ strip_csi rest.
Proof.
  induction cs as [|c cs IH]; [done|]. cbn [forallb]. rewrite andb_true_iff. intros [Hc Hcs]. cbn [app].
  rewrite strip_csi_cons, match_csi_plain, IH; [done..|]. intros ->. done.
Qed.

Lemma drop_while_params params final rest :
  forallb is_param params = true → is_final final = true →
  drop_while is_param (params ++ final :: rest) = final :: rest.
Proof.
  intros Hp Hf. induction params as [|c params IH]; cbn [app drop_while].
  - assert (is_param final = false) as ->; [|done]. unfold is_param, is_final, in_range in *. lia.
  - cbn in Hp. apply andb_true_iff in Hp as [-> Hp]. auto.
Qed.

Lemma strip_sequence params final rest :
  forallb is_param params = true → is_final final = true →
  strip_csi ((ESC :: 0x5b :: params ++ [final]) ++ rest) = strip_csi rest.
Proof.
  intros Hp Hf. cbn [app]. rewrite <- app_assoc. cbn [app]. rewrite strip_csi_cons. unfold match_csi.
  cbn [Z.eqb]. change ((ESC =? ESC) && (0x5b =? 0x5b)) with true. cbn iota.
  by rewrite drop_while_params, Hf.
Qed.

(** ** Lines *)
Lemma split_lines_nonempty cs : split_lines cs ≠ [].
Proof. destruct cs as [|c cs]; [done|]. cbn. case_match; [done|]. by case_match. Qed.

Lemma join_split cs : join_lines (split_lines cs) = cs.
Proof.
  induction cs as [|c cs IH]; [done|]. cbn [split_lines]. pose proof (split_lines_nonempty cs).
  destruct (Z.eqb_spec c 10) as [->|Hc]; destruct (split_lines cs) as [|l ls]; [done| |done|].
  - cbn [join_lines] in *. by rewrite IH.
  - cbn [join_lines] in *. destruct ls; by rewrite <- IH.
Qed.

Lemma join_lines_app ls1 ls2 :
  ls1 ≠ [] → ls2 ≠ [] → join_lines (ls1 ++ ls2) = join_lines ls1 ++ 10 :: join_lines ls2.
Proof.
  intros H1 H2. induction ls1 as [|l ls1 IH]; [done|]. destruct ls1 as [|l' ls1].
  - cbn. by destruct ls2.
  - cbn [app join_lines] in *. rewrite IH by done. by rewrite <- app_assoc.
Qed.

Lemma split_lines_join ls :
  ls ≠ [] → Forall (λ l, Forall (λ c, c ≠ 10) l) ls → split_lines (join_lines ls) = ls.
Proof.
  intros Hne Hls. induction ls as [|l ls IH]; [done|]. inversion Hls as [|?? Hl Hls']; subst. clear Hls Hne.
  assert (∀ l rest, Forall (λ c, c ≠ 10) l →
    split_lines (l ++ 10 :: rest) = l :: split_lines rest ∧ split_lines l = [l]) as Hline.
  { clear. intros l rest. induction 1 as [|c l Hc Hl [IH1 IH2]]; [done|]. cbn [app split_lines].
    destruct (Z.eqb_spec c 10); [done|]. by rewrite IH1, IH2. }
  destruct ls as [|l' ls]; [by apply (Hline l [])|].
  change (join_lines (l :: l' :: ls)) with (l ++ 10 :: join_lines (l' :: ls)).
  destruct (Hline l (join_lines (l' :: ls)) Hl) as [-> _]. by rewrite IH.
Qed.

Lemma split_lines_no_newline cs : Forall (λ l, Forall (λ c, c ≠ 10) l) (split_lines cs).
Proof.
  induction cs as [|c cs IH]; cbn; [repeat constructor|]. destruct (Z.eqb_spec c 10).
  - constructor; [constructor|done].
  - destruct (split_lines cs) as [|l ls]; [by repeat constructor|]. inversion IH; subst. by repeat constructor.
Qed.

(** ** Properties *)

(** Escape sequences are removed and nothing else: a text made of pieces
    without ESC and of CSI sequences, in any order, is stripped to the pieces. *)
Theorem strip_csi_visible ps (Hok : forallb piece_ok ps = true) : strip_csi (render ps) = visible ps.
Proof.
  induction ps as [|p ps IH]; [done|]. cbn [forallb] in Hok. apply andb_true_iff in Hok as [Hp Hps].
  unfold render, visible in *. cbn [flat_map]. destruct p as [cs|params final]; cbn [piece_ok render_piece] in *.
  - by rewrite strip_plain, IH.
  - apply andb_true_iff in Hp as [Hpar Hfin]. by rewrite strip_sequence, IH.
Qed.

(** The captured text is the end of the pane's text, cut at a line: it is a
    suffix of the stripped contents of the ring buffer, it has exactly as many
    lines as asked for, or all of them if there are fewer, and when it is not
    everything the character before it is a line break. *)
Theorem capture_tail snapshot lines (Hpos : 0 < lines) :
  ∃ before text,
    capture snapshot lines = encode text ∧
    strip_csi (from_utf8_lossy snapshot) = before ++ text ∧
    (before = [] ∨ last before = Some 10) ∧
    length (split_lines text) =
      Nat.min (Z.to_nat lines) (length (split_lines (strip_csi (from_utf8_lossy snapshot)))).
Proof.
  unfold capture. set (t := strip_csi (from_utf8_lossy snapshot)).
  pose proof (split_lines_nonempty t) as Hne. pose proof (split_lines_no_newline t) as Hnl.
  set (all := split_lines t) in *. set (k := Nat.min (Z.to_nat lines) (length all)).
  assert (0 < length all)%nat as Hlen by (destruct all; [done|cbn; lia]).
  assert (drop (length all - k) all ≠ []) as Hd.
  { intros E. apply (f_equal length) in E. rewrite length_drop in E. cbn in E. lia. }
  exists (take (length t - length (join_lines (drop (length all - k) all))) t), (join_lines (drop (length all - k) all)).
  assert (t = join_lines all) as Ht by (symmetry; apply join_split).
  assert (∃ pre, t = pre ++ join_lines (drop (length all - k) all) ∧ (pre = [] ∨ last pre = Some 10)) as (pre & Epre & Hpre).
  { destruct (decide (length all - k = 0)%nat) as [->|Hk]; [exists []; rewrite drop_0; auto|].
    exists (join_lines (take (length all - k) all) ++ [10]). split; [|right; by rewrite last_snoc].
    rewrite Ht at 1. rewrite <- (take_drop (length all - k) all) at 1. rewrite join_lines_app, <- app_assoc; [done| |done].
    intros E. apply (f_equal length) in E. rewrite length_take in E. cbn in E. lia. }
  assert (take (length t - length (join_lines (drop (length all - k) all))) t = pre) as ->.
  { rewrite Epre, length_app, Nat.add_sub, take_app_length. done. }
  split; [done|]. split; [exact Epre|]. split; [exact Hpre|].
  rewrite split_lines_join; [rewrite length_drop; lia|done|by apply Forall_drop].
Qed.

Lemma strip_csi_visible_witness :
  strip_csi (render [Csi [49; 59; 51; 49] 109; Plain [101; 114; 114]; Csi [48] 109; Plain [58]]) = [101; 114; 114; 58].
Proof.
  apply (strip_csi_visible [Csi [49; 59; 51; 49] 109; Plain [101; 114; 114]; Csi [48] 109; Plain [58]]).
  reflexivity.
Defined.

Lemma capture_tail_witness :
  ∃ before text,
    capture (str_bytes "a" ++ [x0a] ++ str_bytes "b" ++ [x0a] ++ str_bytes "c") 2 = encode text ∧
    strip_csi (from_utf8_lossy (str_bytes "a" ++ [x0a] ++ str_bytes "b" ++ [x0a] ++ str_bytes "c")) = before ++ text ∧
    (before = [] ∨ last before = Some 10) ∧ length (split_lines text) = 2%nat.
Proof. apply (capture_tail (str_bytes "a" ++ [x0a] ++ str_bytes "b" ++ [x0a] ++ str_bytes "c") 2). reflexivity. Defined.
End Capture.
