(* ===== verification/Inspect.v ===== *)
(** * Inspect: the metadata of a process (pyred/src/inspect.rs)

    What is read from /proc for a pane's shell. Directory listings and file
    contents are given; entries that cannot be read are absent. *)
From Stdlib Require Import Strings.Byte.
From S2P Require Import Prelude Proto Text.
Local Open Scope Z_scope.

Module Inspect.

Record PidInspect := MkPidInspect {
  pid_pid : Z;
  pid_comm : string;
  pid_env : list (string * string);
  pid_fds : list string;
  pid_children : list Z }.

(** /proc of one process: [None] where the read fails. *)
Record Proc := MkProc {
  pr_comm : option string;
  pr_environ : option Bytes;
  pr_fd : option (list (option (option Bytes)));     (** entries, and their link targets *)
  pr_task : option (list (option (option Bytes))) }. (** entries, and their children files *)

Definition MAX_ENTRIES : nat := 50.
Definition MAX_VALUE : nat := 80.

Definition read_comm (p : Proc) : string := str_trim (default "" (pr_comm p)).

(** [floor_char_boundary(n)] and the slice up to it: the longest prefix of whole
    characters that fits in [n] bytes. *)
Fixpoint floor_chars (n : nat) (cs : list Z) : list Z :=
  match cs with
  | [] => []
  | c :: cs' =>
      let k := length (encode_char c) in
      if (k <=? n)%nat then c :: floor_chars (n - k) cs' else []
  end.

(** [splitn(2, '=')] *)
Fixpoint split_eq (cs : list Z) : list Z * option (list Z) :=
  match cs with
  | [] => ([], None)
  | c :: cs' =>
      if c =? 61 then ([], Some cs')
      else let '(k, v) := split_eq cs' in (c :: k, v)
  end.

Definition env_entry (entry : Bytes) : list Z * list Z :=
  let '(key, rest) := split_eq (from_utf8_lossy entry) in
  let val_full := default [] rest in
  let val := if (MAX_VALUE <? length (encode val_full))%nat then floor_chars MAX_VALUE val_full else val_full in
  (key, val).

Definition read_env (p : Proc) : list (list Z * list Z) :=
  match pr_environ p with
  | None => []
  | Some raw => env_entry <$> take MAX_ENTRIES (filter (λ e, e ≠ []) (split_on x00 raw))
  end.

Definition read_fds (p : Proc) : list (list Z) :=
  match pr_fd p with
  | None => []
  | Some dir => from_utf8_lossy <$> omap id (take MAX_ENTRIES (omap id dir))
  end.

(** [sort_unstable] *)
Fixpoint insert_sorted (x : Z) (l : list Z) : list Z :=
  match l with
  | [] => [x]
  | y :: l' => if x <=? y then x :: l else y :: insert_sorted x l'
  end.
Definition sort (l : list Z) : list Z := foldr insert_sorted [] l.

(** A children file that is not UTF-8 cannot be read as text. *)
Definition file_pids (content : Bytes) : list Z :=
  match from_utf8 content with
  | Some cs => omap (λ w, parse_u32 (encode w)) (split_whitespace cs)
  | None => []
  end.

Definition read_children (p : Proc) : list Z :=
  match pr_task p with
  | None => []
  | Some dir => dedup (sort (flat_map file_pids (omap id (omap id dir))))
  end.

Definition inspect_pid (pid : Z) (p : Proc) : PidInspect :=
  MkPidInspect pid (read_comm p) ((λ kv, (of_chars kv.1, of_chars kv.2)) <$> read_env p)
    (of_chars <$> read_fds p) (read_children p).

(** ** Lemmas *)
Lemma floor_chars_prefix n cs : ∃ rest, cs = floor_chars n cs ++ rest ∧ (length (encode (floor_chars n cs)) ≤ n)%nat ∧
  match rest with [] => True | c :: _ => (n < length (encode (floor_chars n cs ++ [c])))%nat end.
Proof.
  revert n. induction cs as [|c cs IH]; intros n; cbn [floor_chars]; [exists []; cbn; split_and!; [done|lia|done]|].
  destruct (Nat.leb_spec (length (encode_char c)) n) as [Hle|Hgt].
  - destruct (IH (n - length (encode_char c))%nat) as (rest & E & Hl & Hr). exists rest.
    split; [by rewrite E at 1|]. unfold encode in *. cbn [flat_map app]. rewrite length_app. split; [lia|].
    destruct rest as [|c' rest]; [done|]. rewrite length_app. lia.
  - exists (c :: cs). cbn. rewrite app_nil_r. split_and!; [done|lia|done].
Qed.

Lemma insert_sorted_perm x l : insert_sorted x l ≡ₚ x :: l.
Proof.
  induction l as [|y l IH]; cbn; [done|]. case_match; [done|]. rewrite IH. apply Permutation_swap.
Qed.
Lemma sort_perm l : sort l ≡ₚ l.
Proof. induction l as [|x l IH]; cbn; [done|]. by rewrite insert_sorted_perm, IH. Qed.

Lemma insert_sorted_sorted x l : StronglySorted Z.le l → StronglySorted Z.le (insert_sorted x l).
Proof.
  induction 1 as [|y l Hs IH Hy]; cbn; [repeat constructor|]. destruct (Z.leb_spec x y).
  - constructor; [by constructor|]. constructor; [done|]. eapply Forall_impl; [exact Hy|]. cbn. lia.
  - constructor; [done|]. rewrite insert_sorted_perm. constructor; [lia|done].
Qed.
Lemma sort_sorted l : StronglySorted Z.le (sort l).
Proof. induction l as [|x l IH]; cbn; [constructor|]. by apply insert_sorted_sorted. Qed.

Lemma dedup_ascending l : StronglySorted Z.le l → StronglySorted Z.lt (dedup l).
Proof.
  intros Hs%(dedup_sorted Z.le). induction Hs as [|x l' Hs IH Hx]; constructor; [done|].
  eapply Forall_impl; [exact Hx|]. cbn. lia.
Qed.

(** ** Properties *)

(** The bounds of an inspection: at most fifty environment entries and fifty
    descriptors; a value that does not fit in 80 bytes is cut to the longest
    prefix of whole characters that does, so never inside a character; and the
    children are listed in increasing order, each once, exactly the numbers the
    children files hold. *)
Theorem inspect_bounds pid p :
  let i := inspect_pid pid p in
  (length (pid_env i) ≤ 50)%nat ∧ (length (pid_fds i) ≤ 50)%nat ∧
  Forall (λ kv, (length (encode kv.2) ≤ 80)%nat) (read_env p) ∧
  (∀ raw e, pr_environ p = Some raw → e ∈ take 50 (filter (λ e, e ≠ []) (split_on x00 raw)) →
     ∃ rest, default [] (split_eq (from_utf8_lossy e)).2 = (env_entry e).2 ++ rest ∧
       match rest with [] => True | c :: _ => (80 < length (encode ((env_entry e).2 ++ [c])))%nat end) ∧
  StronglySorted Z.lt (pid_children i) ∧
  (∀ n, n ∈ pid_children i ↔ ∃ dir content, pr_task p = Some dir ∧ Some (Some content) ∈ dir ∧ n ∈ file_pids content).
Proof.
  assert (∀ e, (length (encode (env_entry e).2) ≤ 80)%nat ∧
    ∃ rest, default [] (split_eq (from_utf8_lossy e)).2 = (env_entry e).2 ++ rest ∧
      match rest with [] => True | c :: _ => (80 < length (encode ((env_entry e).2 ++ [c])))%nat end) as Hentry.
  { intros e. unfold env_entry. destruct (split_eq _) as [key rest]. cbn [snd]. unfold MAX_VALUE.
    destruct (Nat.ltb_spec 80 (length (encode (default [] rest)))) as [Hlt|Hge].
    - destruct (floor_chars_prefix 80 (default [] rest)) as (r & E & Hl & Hr). split; [done|by exists r].
    - split; [done|]. exists []. by rewrite app_nil_r. }
  cbn zeta. cbn [inspect_pid pid_env pid_fds pid_children]. split_and!.
  - rewrite length_fmap. unfold read_env. destruct (pr_environ p); [|cbn; lia].
    rewrite length_fmap, length_take. unfold MAX_ENTRIES. lia.
  - rewrite length_fmap. unfold read_fds. destruct (pr_fd p) as [dir|]; [|cbn; lia]. rewrite length_fmap.
    assert (∀ l : list (option Bytes), (length (omap id l) ≤ length l)%nat) as Hom.
    { induction l as [|[x|] l IH]; cbn in *; lia. }
    etrans; [apply Hom|]. rewrite length_take. unfold MAX_ENTRIES. lia.
  - unfold read_env. destruct (pr_environ p); [|constructor]. apply Forall_fmap, Forall_true. intros e. apply Hentry.
  - intros raw e _ _. apply Hentry.
  - unfold read_children. destruct (pr_task p); [apply dedup_ascending, sort_sorted|constructor].
  - intros n. unfold read_children. destruct (pr_task p) as [dir|]; [|split; [by intros ?%not_elem_of_nil|naive_solver]].
    rewrite dedup_elem, sort_perm, list_elem_of_In, in_flat_map. split.
    + intros (content & Hin & Hn). apply list_elem_of_In in Hin, Hn.
      apply list_elem_of_omap in Hin as (x & Hx & Ex). apply list_elem_of_omap in Hx as (y & Hy & Ey).
      cbn in Ex, Ey. subst. by exists dir, content.
    + intros (dir' & content & [= <-] & Hin & Hn). exists content. rewrite <- !list_elem_of_In. split; [|done].
      apply list_elem_of_omap. exists (Some content). split; [|done]. apply list_elem_of_omap. by exists (Some (Some content)).
Qed.
End Inspect.
