(* ===== verification/Server.v ===== *)
(** * Server: the daemon's remote procedures (pyred/src/server.rs)

    Every handler of the [PyreDaemon] service over the shared state of the daemon:
    the registry with its store, the block index and the focus queue; keystrokes
    and sizes sent to terminals are recorded. [message] is the text of an error
    ([anyhow::Error::to_string]). *)
From Stdlib Require Import Strings.Byte.
From S2P Require Import Prelude Proto Text Layout Libraries Effects EventBus RingBuf GitStatus.
From S2P Require Import PaneTracker Store Registry BlockIndex Capture Inspect.
Local Open Scope Z_scope.

Module Server.

Record Daemon := MkDaemon {
  dm_reg : Registry.Reg;
  dm_index : BlockIndex.Index;
  dm_focus : list PaneId;
  dm_input : list (PaneId * Bytes);      (** sent to the writer threads *)
  dm_sizes : list (PaneId * PaneSize) }. (** sizes set on terminals *)

Definition D (A : Type) : Type := M Daemon PyreError A.

Definition set_reg (r : Registry.Reg) (d : Daemon) : Daemon :=
  MkDaemon r (dm_index d) (dm_focus d) (dm_input d) (dm_sizes d).
Definition set_focus (q : list PaneId) (d : Daemon) : Daemon :=
  MkDaemon (dm_reg d) (dm_index d) q (dm_input d) (dm_sizes d).

Record OpenPaneSplitReq := MkOpenPaneSplitReq {
  os_parent_pane : PaneId;
  os_orient : Orient;
  os_name : option string;
  os_cwd : option PathBuf;
  os_cmd : option string }.

(** What the watch channel of a pane tells a waiting client. *)
Inductive WatchEv := Changed (s : PaneStateKind) | WatchClosed | TimedOut.

Section Server.
Context `{UuidText, LayoutJson, SqlOrder, Zstd, ChronoRange, HashOrder, BlockIndex.Tantivy}.
Context (env : Store.Env) (message : Registry.RegError → string) (index_message : BlockIndex.IndexError → string).

(** A registry or store call, its error turned into one of the service. *)
Definition registry {A} (err : Registry.RegError → PyreError) (m : Registry.R A) : D A :=
  zoom dm_reg set_reg err m.
Definition io_error (e : Registry.RegError) : PyreError := Io (message e).
Definition store {A} (m : Store.S A) : D A := registry io_error (Registry.store_call m).

Definition find_pane (pane : PaneId) : D (Registry.SessionState * Registry.PaneState) :=
  let! found := gets (λ d, Registry.get_pane pane (dm_reg d)) in
  expect found (NoSuchPane pane).

(** Changing a pane in place. *)
Definition update_tracker (f : PaneTracker.PaneStateTracker → PaneTracker.PaneStateTracker)
    (p : Registry.PaneState) : Registry.PaneState :=
  Registry.MkPane (Registry.pa_id p) (Registry.pa_session p) (Registry.pa_window p) (Registry.pa_name p)
    (Registry.pa_cols p) (Registry.pa_rows p) (Registry.pa_shell p) (Registry.pa_created_at p)
    (Registry.pa_closed_at p) (Registry.pa_child_pid p) (Registry.pa_ringbuf p) (f (Registry.pa_tracker p))
    (Registry.pa_cancelled p).
Definition on_tracker (sess : Registry.SessionState) (pane : PaneId)
    (f : PaneTracker.PaneStateTracker → PaneTracker.PaneStateTracker) : D unit :=
  registry io_error
    (Registry.modify_session (Registry.se_id sess) (Registry.with_panes (alter (update_tracker f) pane))).

(** ** Sessions and panes *)
Definition spawn (os : Registry.Os) (req : SpawnReq) : D SpawnResp :=
  let! session := registry io_error (Registry.new_session env (sp_name req)) in
  let! window := expect (head (Registry.se_windows session)) (SpawnFailed "new session has no window") in
  let default_window_id := Registry.ws_id window in
  let open_req := MkOpenPaneReq (Registry.se_id session) default_window_id (sp_shell req) (sp_cwd req)
                    (sp_cols req) (sp_rows req) (sp_env req) None in
  let! pane := registry (λ e, SpawnFailed (message e))
                 (Registry.open_pane env os (Registry.se_id session) open_req) in
  ret (MkSpawnResp (Registry.se_id session) (Registry.pa_id pane) default_window_id).

Definition attach (session : SessionId) : D AttachAck :=
  let! found := gets (λ d, Registry.get_session session (dm_reg d)) in
  let! s := expect found (NoSuchSession session) in
  let '(cols, rows) :=
    match head (map_values (Registry.se_panes s)) with
    | Some p => (Registry.pa_cols p, Registry.pa_rows p)
    | None => (0, 0)
    end in
  ret (MkAttachAck (Registry.se_id s) cols rows).

Definition detach (session : SessionId) : D unit := ret tt.

Definition kill (os : Registry.Os) (session : SessionId) : D unit :=
  registry (λ _, NoSuchSession session) (Registry.kill_session os session).

Definition list_sessions : D (list SessionInfo) := gets (λ d, Registry.list_sessions (dm_reg d)).
Definition list_panes (now instant : Z) (session : SessionId) : D (list PaneInfo) :=
  gets (λ d, Registry.list_panes now instant session (dm_reg d)).
Definition list_all_panes (now instant : Z) : D (list PaneInfo) :=
  gets (λ d, Registry.list_all_panes now instant (dm_reg d)).

Definition open_pane (os : Registry.Os) (req : OpenPaneReq) : D PaneId :=
  let! pane := registry (λ e, SpawnFailed (message e)) (Registry.open_pane env os (op_session req) req) in
  ret (Registry.pa_id pane).
Definition close_pane (os : Registry.Os) (pane : PaneId) : D unit :=
  registry io_error (Registry.close_pane env os pane).

Definition rename_session (session : SessionId) (name : string) : D unit :=
  registry (λ _, NoSuchSession session) (Registry.rename_session env session name).
Definition rename_pane (pane : PaneId) (name : string) : D unit :=
  registry (λ _, NoSuchPane pane) (Registry.rename_pane env pane name).

(** Window rows go too; a session that is already gone is cleaned up from its rows. *)
Definition close_session (os : Registry.Os) (session : SessionId) : D unit :=
  let! found := gets (λ d, Registry.get_session session (dm_reg d)) in
  let! window_ids :=
    match found with
    | Some state => ret (Registry.ws_id <$> Registry.se_windows state)
    | None =>
        λ d, let '(d', r) := store (Store.list_windows env session) d in
             (d', Ok (match r with Ok ws => (λ w, w.1.1) <$> ws | Err _ => [] end))
    end in
  do! attempt (registry io_error (Registry.kill_session os session)) in
  for_each (λ wid, attempt (store (Store.delete_window env wid))) window_ids.

Fixpoint gc_loop (os : Registry.Os) (sessions : list SessionInfo) (evicted : list string) : D (list string) :=
  match sessions with
  | [] => ret evicted
  | s :: rest =>
      if si_pane_count s =? 0 then
        λ d, let '(d', r) := registry io_error (Registry.kill_session os (si_id s)) d in
             gc_loop os rest
               (match r with
                | Ok _ => evicted ++ [uuid_to_string (session_uuid (si_id s))]
                | Err _ => evicted
                end) d'
      else gc_loop os rest evicted
  end.
Definition gc_stale_sessions (os : Registry.Os) : D (list string) :=
  let! sessions := list_sessions in gc_loop os sessions [].

(** ** Blocks *)
Definition list_blocks (req : ListBlocksReq) : D (list Block) :=
  store (Store.list_blocks env (lb_session req) (lb_limit req)).

(** The blocks of the hits that are still in the store. *)
Fixpoint fetch_blocks (ids : list BlockId) : D (list Block) :=
  match ids with
  | [] => ret []
  | id :: rest =>
      λ d, let '(d', r) := store (Store.get_block env id) d in
           (let! blocks := fetch_blocks rest in
            ret (match r with Ok (Some b) => b :: blocks | _ => blocks end)) d'
  end.

Definition hits_with_snippets (partial : result Store.StoreError Bytes) (blocks : list Block)
    (max_chars : Z) (st : Store.St) : list BlockHit :=
  (λ b, MkBlockHit b (Store.stdout_snippet partial (blk_id b) max_chars st)) <$> blocks.

Definition search_blocks (reader_ok : bool) (partial : result Store.StoreError Bytes) (req : SearchBlocksReq) :
    D (list BlockHit) :=
  let! found := gets (λ d, BlockIndex.search reader_ok (sb_query req) (sb_limit req) (sb_failures_only req)
                             (sb_session req) (sb_pane req) (sb_exit_code req) (dm_index d)) in
  let! ids := of_result (result_map_err (λ e, Io (index_message e)) found) in
  let! blocks := fetch_blocks ids in
  gets (λ d, hits_with_snippets partial blocks 160 (Registry.rg_store (dm_reg d))).

Definition get_block_stdout (partial : result Store.StoreError Bytes) (block : BlockId) : D Bytes :=
  store (Store.read_block_stdout partial block).

Definition replay (pane : PaneId) (recent_blocks : Z) : D ReplayBlocks :=
  let! sp := find_pane pane in
  let snapshot := RingBuf.snapshot (Registry.pa_ringbuf sp.2) in
  let! recent := store (Store.list_blocks_for_pane env pane recent_blocks) in
  ret (MkReplayBlocks recent snapshot).

Definition last_block_for_pane (pane : PaneId) : D (option Block) :=
  let! blocks := store (Store.list_blocks_for_pane env pane 1) in ret (head blocks).

Definition capture_pane (pane : PaneId) (lines : Z) : D Bytes :=
  let! sp := find_pane pane in
  ret (Capture.capture (RingBuf.snapshot (Registry.pa_ringbuf sp.2)) lines).

(** ** Pane state *)
Definition parse_u64 (l : Bytes) : option Z :=
  let ds := match l with x2b :: ds => ds | _ => l end in
  v ← parse_digits ds; if v <? 2 ^ 64 then Some v else None.

(** [window] is PYRE_OVERRIDE_WINDOW_SECS. *)
Definition set_pane_state (now : Z) (window : option string) (pane : PaneId) (state : PaneStateKind)
    (reason : string) : D unit :=
  let! sp := find_pane pane in
  let override_secs := default 30 (window ≫= λ s, parse_u64 (str_bytes s)) in
  on_tracker sp.1 pane (PaneTracker.set_override now state reason override_secs).

Definition mark_pane_seen (pane : PaneId) : D unit :=
  let! sp := find_pane pane in on_tracker sp.1 pane PaneTracker.mark_seen.

Fixpoint await_state (state : PaneStateKind) (script : list WatchEv) : bool :=
  match script with
  | Changed s :: rest => if decide (s = state) then true else await_state state rest
  | _ => false
  end.
Definition wait_pane_state (pane : PaneId) (state : PaneStateKind) (script : list WatchEv) : D bool :=
  let! sp := find_pane pane in
  if decide (PaneTracker.tr_state (Registry.pa_tracker sp.2) = state) then ret true
  else ret (await_state state script).

Definition inspect_pid (proc : Z → Inspect.Proc) (pane : PaneId) : D Inspect.PidInspect :=
  let! sp := find_pane pane in
  let pid := PaneTracker.tr_root_pid (Registry.pa_tracker sp.2) in
  ret (Inspect.inspect_pid pid (proc pid)).

(** ** Terminals *)
Definition send_keys (channel_open : bool) (pane : PaneId) (bytes : Bytes) : D unit :=
  let! sp := find_pane pane in
  if channel_open then
    modify (λ d, MkDaemon (dm_reg d) (dm_index d) (dm_focus d) (dm_input d ++ [(pane, bytes)]) (dm_sizes d))
  else throw (Io "input channel closed: channel closed").

(** [failed] is the text of the error when the terminal cannot be resized. *)
Definition resize_pane (failed : option string) (req : ResizePaneReq) : D bool :=
  let! sp := find_pane (rz_pane_id req) in
  match failed with
  | None =>
      do! modify (λ d, MkDaemon (dm_reg d) (dm_index d) (dm_focus d) (dm_input d)
                         (dm_sizes d ++ [(rz_pane_id req, rz_size req)])) in
      ret true
  | Some e => throw (Io ("resize: " +:+ e))
  end.

(** ** Focus *)
Definition request_focus (pane : PaneId) : D bool :=
  do! modify (λ d, set_focus (dm_focus d ++ [pane]) d) in ret true.
Definition take_focus_request : D (option PaneId) :=
  λ d, match dm_focus d with
       | [] => (d, Ok None)
       | p :: q => (set_focus q d, Ok (Some p))
       end.

(** ** Layouts and windows *)
Definition open_pane_split (os : Registry.Os) (req : OpenPaneSplitReq) : D PaneId :=
  registry (λ e, SpawnFailed (message e))
    (Registry.open_pane_split env os (os_parent_pane req) (os_orient req) (os_name req) (os_cwd req) (os_cmd req)).
Definition set_pane_weight (pane : PaneId) (weight : Z) : D unit :=
  registry io_error (Registry.set_pane_weight env pane weight).

Definition get_session_layout (session : SessionId) : D LayoutNode :=
  let! l := gets (λ d, Registry.get_layout session (dm_reg d)) in expect l (NoSuchSession session).
(** The error names a session identifier drawn for the occasion. *)
Definition get_window_layout (window : WindowId) : D LayoutNode :=
  let! l := gets (λ d, Registry.get_window_layout window (dm_reg d)) in
  match l with
  | Some t => ret t
  | None => let! u := registry io_error (Registry.fresh_uuid env) in throw (NoSuchSession (MkSessionId u))
  end.

Definition list_windows (session : SessionId) : D (list WindowInfo) :=
  gets (λ d, Registry.list_windows session (dm_reg d)).
Definition new_window (session : SessionId) (name : option string) : D WindowId :=
  let! w := registry (λ _, NoSuchSession session) (Registry.new_window env session name) in
  ret (Registry.ws_id w).
Definition rename_window (window : WindowId) (name : string) : D unit :=
  registry io_error (Registry.rename_window env window name).
Definition close_window (os : Registry.Os) (window : WindowId) : D unit :=
  registry io_error (Registry.close_window env os window).

(** ** Events and git *)
Definition next_pane_event (after_seq : Z) (script : list EventBus.Recv) : D (list PaneEvent) :=
  gets (λ d, EventBus.next_pane_event after_seq (Registry.rg_bus (dm_reg d)) script).

(** [cwd] reads the working directory of a process; [git] runs git in it. *)
Definition git_status (cwd : Z → option PathBuf) (git : PathBuf → option (bool * Bytes)) (session : SessionId) :
    D (option GitInfo) :=
  let! found := gets (λ d, Registry.get_session session (dm_reg d)) in
  ret (sess ← found;
       p ← head (map_values (Registry.se_panes sess));
       dir ← cwd (Registry.pa_child_pid p);
       git_info (git dir) dir).
End Server.
End Server.
