(* ===== verification/ServerInv.v ===== *)
(** * ServerInv: what the remote procedures guarantee

    The registry stays well formed under every request a client can make, and the
    contracts of the procedures that create, collect and remove sessions. *)
From Stdlib Require Import Strings.Byte.
From S2P Require Import Prelude Proto Text Layout Libraries Effects EventBus RingBuf GitStatus.
From S2P Require Import PaneTracker Store StoreBlocks Registry RegistryInv BlockIndex Capture Inspect.
From S2P Require Import Pty Server.
Local Open Scope Z_scope.

Import Server.

(** ** The requests that change the state of the daemon, and the exit of a shell *)
Inductive DaemonOp :=
  | DSpawn (os : Registry.Os) (req : SpawnReq)
  | DKill (os : Registry.Os) (s : SessionId)
  | DOpenPane (os : Registry.Os) (req : OpenPaneReq)
  | DClosePane (os : Registry.Os) (p : PaneId)
  | DRenameSession (s : SessionId) (name : string)
  | DRenamePane (p : PaneId) (name : string)
  | DCloseSession (os : Registry.Os) (s : SessionId)
  | DGc (os : Registry.Os)
  | DSearch (reader_ok : bool) (partial : result Store.StoreError Bytes) (req : SearchBlocksReq)
  | DReplay (p : PaneId) (n : Z)
  | DSetState (now : Z) (window : option string) (p : PaneId) (st : PaneStateKind) (reason : string)
  | DSeen (p : PaneId)
  | DKeys (channel_open : bool) (p : PaneId) (bytes : Bytes)
  | DResize (failed : option string) (req : ResizePaneReq)
  | DFocus (p : PaneId)
  | DTakeFocus
  | DSplit (os : Registry.Os) (req : OpenPaneSplitReq)
  | DWeight (p : PaneId) (w : Z)
  | DWindowLayout (w : WindowId)
  | DNewWindow (s : SessionId) (name : option string)
  | DRenameWindow (w : WindowId) (name : string)
  | DCloseWindow (os : Registry.Os) (w : WindowId)
  | DExit (s : SessionId) (p : PaneId).

Section Inv.
Context `{UuidText, LayoutJson, SqlOrder, Zstd, ChronoRange, HashOrder, BlockIndex.Tantivy}.
Context (env : Store.Env) (message : Registry.RegError → string) (index_message : BlockIndex.IndexError → string).

Definition run_dop (op : DaemonOp) (d : Daemon) : Daemon :=
  match op with
  | DSpawn os req => (spawn env message os req d).1
  | DKill os s => (kill os s d).1
  | DOpenPane os req => (open_pane env message os req d).1
  | DClosePane os p => (close_pane env message os p d).1
  | DRenameSession s n => (rename_session env s n d).1
  | DRenamePane p n => (rename_pane env p n d).1
  | DCloseSession os s => (close_session env message os s d).1
  | DGc os => (gc_stale_sessions message os d).1
  | DSearch r pa req => (search_blocks env message index_message r pa req d).1
  | DReplay p n => (replay env message p n d).1
  | DSetState t w p st r => (set_pane_state message t w p st r d).1
  | DSeen p => (mark_pane_seen message p d).1
  | DKeys c p b => (send_keys c p b d).1
  | DResize f req => (resize_pane f req d).1
  | DFocus p => (request_focus p d).1
  | DTakeFocus => (take_focus_request d).1
  | DSplit os req => (open_pane_split env message os req d).1
  | DWeight p w => (set_pane_weight env message p w d).1
  | DWindowLayout w => (get_window_layout env message w d).1
  | DNewWindow s n => (new_window env s n d).1
  | DRenameWindow w n => (rename_window env message w n d).1
  | DCloseWindow os w => (close_window env message os w d).1
  | DExit s p => (registry (io_error message) (Pty.child_exit s p) d).1
  end.
Definition run_dops (ops : list DaemonOp) (d : Daemon) : Daemon := fold_left (λ d op, run_dop op d) ops d.

Definition fresh_daemon (dir : string) : Daemon :=
  MkDaemon (fresh_reg dir) (BlockIndex.MkIndex [] []) [] [] [].

Context (distinct : ∀ i j, Store.env_uuid env i = Store.env_uuid env j → i = j).

(** ** Keeping the registry well formed *)
Definition DI (d : Daemon) : Prop := reg_ok env (dm_reg d).
Definition dkeeps {A} (m : D A) : Prop := keeps DI m.

Lemma registry_keeps {A} err (m : Registry.R A) : preserves env m → dkeeps (registry err m).
Proof.
  intros Hm d Hd. pose proof (triple_state _ _ _ Hm (dm_reg d) Hd) as Hs. unfold registry, zoom.
  by destruct (m (dm_reg d)) as [r' [a|e]].
Qed.
Lemma store_keeps {A} (m : Store.S A) : grows m → dkeeps (store message m).
Proof. intros Hm. by apply registry_keeps, preserves_store. Qed.
Lemma find_pane_keeps p : dkeeps (find_pane p).
Proof. apply keeps_bind; [apply keeps_gets|]. intros f. apply keeps_expect. Qed.
Lemma on_tracker_keeps sess p f : dkeeps (on_tracker message sess p f).
Proof. apply registry_keeps, preserves_alter. intros n. by apply shrinks_alter_pane. Qed.
Lemma modify_keeps f : (∀ d, dm_reg (f d) = dm_reg d) → dkeeps (modify f).
Proof. intros Hf d Hd. unfold DI. cbn. by rewrite Hf. Qed.

Lemma grows_fetch {A} (f : Store.Db → A) : grows (Store.fetch env f).
Proof. apply grows_query. Qed.
Lemma grows_ret {A} (a : A) : grows (ret a).
Proof. by intros st. Qed.
Lemma grows_parse_id s : grows (Store.parse_id s).
Proof. by intros st. Qed.
Lemma grows_row_to_block kr : grows (Store.row_to_block env kr).
Proof.
  do 3 (apply grows_bind; [apply grows_parse_id|intros ?]). apply grows_bind; [|intros ?; apply grows_ret].
  case_match; [apply grows_ret|]. intros st. cbn. done.
Qed.
Lemma grows_rows_to_blocks rows : grows (Store.rows_to_blocks env rows).
Proof.
  induction rows as [|r rows IH]; [apply grows_ret|]. apply grows_bind; [apply grows_row_to_block|]. intros b.
  apply grows_bind; [exact IH|]. intros bs. apply grows_ret.
Qed.

Lemma spawn_keeps os req : dkeeps (spawn env message os req).
Proof.
  apply keeps_bind; [by apply registry_keeps, new_session_preserves|]. intros sess.
  apply keeps_bind; [apply keeps_expect|]. intros w.
  apply keeps_bind; [|intros p; apply keeps_ret]. apply registry_keeps.
  eapply triple_conseq; [apply (open_pane_J env distinct (λ _, False))| | |done].
  - intros s Hs. by split.
  - by intros p s [[? _] _].
Qed.

Lemma close_session_keeps os s : dkeeps (close_session env message os s).
Proof.
  apply keeps_bind; [apply keeps_gets|]. intros found. apply keeps_bind.
  - destruct found; [apply keeps_ret|]. intros d Hd.
    assert (dkeeps (store message (Store.list_windows env s))) as Hk.
    { apply store_keeps, grows_bind; [apply grows_fetch|]. intros rows. apply grows_ret. }
    specialize (Hk d Hd). by destruct (store message (Store.list_windows env s) d).
  - intros ws. apply keeps_bind; [apply keeps_attempt, registry_keeps, kill_session_preserves|]. intros [].
    apply keeps_for_each. intros w. apply keeps_attempt, store_keeps, grows_execute.
Qed.

Lemma gc_loop_keeps os l ev : dkeeps (gc_loop message os l ev).
Proof.
  revert ev. induction l as [|s l IH]; intros ev; cbn [gc_loop]; [apply keeps_ret|].
  destruct (si_pane_count s =? 0); [|apply IH]. intros d Hd.
  pose proof (registry_keeps (io_error message) _ (kill_session_preserves env os (si_id s)) d Hd) as Hk.
  destruct (registry _ _ d) as [d' r]. by apply IH.
Qed.

Lemma fetch_blocks_keeps ids : dkeeps (fetch_blocks env message ids).
Proof.
  induction ids as [|id ids IH]; cbn [fetch_blocks]; [apply keeps_ret|]. intros d Hd.
  assert (dkeeps (store message (Store.get_block env id))) as Hk.
  { apply store_keeps, grows_bind; [apply grows_fetch|]. intros [r|]; [|apply grows_ret].
    apply grows_bind; [apply grows_row_to_block|]. intros b. apply grows_ret. }
  specialize (Hk d Hd). destruct (store message (Store.get_block env id) d) as [d' r].
  apply keeps_bind; [exact IH|intros bs; apply keeps_ret|done].
Qed.

Lemma run_dop_ok op d : DI d → DI (run_dop op d).
Proof.
  intros Hd. destruct op; cbn [run_dop];
    match goal with |- DI (?m d).1 => refine ((_ : dkeeps m) d Hd) end.
  - by apply spawn_keeps.
  - by apply registry_keeps, kill_session_preserves.
  - apply keeps_bind; [|intros p; apply keeps_ret]. apply registry_keeps.
    eapply triple_conseq; [apply (open_pane_J env distinct (λ _, False))| | |done].
    + intros s Hs. by split.
    + by intros p s [[? _] _].
  - by apply registry_keeps, close_pane_preserves.
  - by apply registry_keeps, rename_session_preserves.
  - by apply registry_keeps, rename_pane_preserves.
  - by apply close_session_keeps.
  - apply keeps_bind; [apply keeps_gets|intros l; apply gc_loop_keeps].
  - apply keeps_bind; [apply keeps_gets|intros f]. apply keeps_bind; [apply keeps_of_result|intros ids].
    apply keeps_bind; [apply fetch_blocks_keeps|intros bs; apply keeps_gets].
  - apply keeps_bind; [apply find_pane_keeps|intros sp]. apply keeps_bind; [|intros r; apply keeps_ret].
    apply store_keeps, grows_bind; [apply grows_fetch|]. intros rows. apply grows_rows_to_blocks.
  - apply keeps_bind; [apply find_pane_keeps|intros sp; apply on_tracker_keeps].
  - apply keeps_bind; [apply find_pane_keeps|intros sp; apply on_tracker_keeps].
  - apply keeps_bind; [apply find_pane_keeps|intros sp]. case_match; [by apply modify_keeps|apply keeps_throw].
  - apply keeps_bind; [apply find_pane_keeps|intros sp]. case_match; [apply keeps_throw|].
    apply keeps_bind; [by apply modify_keeps|intros []; apply keeps_ret].
  - apply keeps_bind; [by apply modify_keeps|intros []; apply keeps_ret].
  - intros d' Hd'. unfold take_focus_request. by destruct (dm_focus d').
  - by apply registry_keeps, open_pane_split_J.
  - by apply registry_keeps, set_pane_weight_preserves.
  - apply keeps_bind; [apply keeps_gets|intros l]. destruct l; [apply keeps_ret|].
    apply keeps_bind; [|intros u; apply keeps_throw]. apply registry_keeps, preserves_store. intros st. cbn. lia.
  - apply keeps_bind; [|intros w; apply keeps_ret]. by apply registry_keeps, new_window_preserves.
  - by apply registry_keeps, rename_window_preserves.
  - by apply registry_keeps, close_window_preserves.
  - apply registry_keeps, preserves_bind; [|intros []; apply remove_pane_preserves].
    apply preserves_alter. intros n. by apply shrinks_alter_pane.
Qed.

Lemma run_dops_ok ops d : DI d → DI (run_dops ops d).
Proof. revert d. induction ops as [|op ops IH]; intros d Hd; [done|]. by apply IH, run_dop_ok. Qed.
End Inv.

(** ** What a registry call does to the sessions *)
Section Contracts.
Context `{UuidText, LayoutJson, SqlOrder, Zstd, ChronoRange, HashOrder, BlockIndex.Tantivy}.
Context (env : Store.Env) (message : Registry.RegError → string).
Import Registry.

Definition onS (P : gmap SessionId SessionState → Prop) (s : Reg) : Prop := P (rg_sessions s).

Lemma store_call_onS {A} P (m : Store.S A) : triple (onS P) (store_call m) (λ _, onS P) (onS P).
Proof. intros s Hs. unfold store_call, zoom. by destruct (m (rg_store s)) as [st' [a|e]]. Qed.
Lemma log_store_onS {A} P (m : Store.S A) X : triple (onS P) (log_store m) (λ _, onS P) X.
Proof. apply triple_attempt, store_call_onS. Qed.
Lemma utc_now_onS P X : triple (onS P) (utc_now env) (λ _, onS P) X.
Proof. by intros s Hs. Qed.
Lemma fresh_uuid_onS P X : triple (onS P) (fresh_uuid env) (λ _, onS P) X.
Proof. by intros s Hs. Qed.
Lemma modify_session_onS P Q sid f X :
  (∀ m, P m → Q (alter f sid m)) → triple (onS P) (modify_session sid f) (λ _, onS Q) X.
Proof. intros Hf. apply triple_modify. intros s Hs. by apply Hf. Qed.
Lemma emit_onS P p k st ag X : triple (onS P) (emit_event p k st ag) (λ _, onS P) X.
Proof. apply triple_modify. intros s Hs. unfold onS. by destruct (EventBus.emit_event _ _). Qed.

Lemma spawn_pty_onS P os req sid wid name sname :
  triple (onS P) (spawn_pty env os req sid wid name sname)
    (λ p s, onS P s ∧ pa_window p = wid ∧ pa_session p = sid) (onS P).
Proof.
  unfold spawn_pty. eapply triple_bind; [by apply (triple_expect _ _ _ (λ _, onS P))|]. intros pid.
  eapply triple_bind; [apply (fresh_uuid_onS P)|]. intros u. cbn zeta.
  eapply triple_bind; [apply (store_call_onS P)|]. intros [].
  eapply triple_bind; [apply (store_call_onS P)|]. intros [].
  eapply triple_bind; [apply (utc_now_onS P)|]. intros t. by apply triple_ret.
Qed.

Lemma init_layout_onS sid wid pane m sess w X :
  m !! sid = Some sess → window_in wid (Some sess) = Some w → ws_layout w = None →
  triple (onS (λ m', m' = m)) (init_layout env sid wid pane)
    (λ _, onS (λ m', m' = alter (update_window wid (window_layout (Some (Leaf pane)))) sid m)) X.
Proof.
  intros Hm Hw Hl. unfold init_layout. eapply triple_bind.
  { apply (triple_gets _ _ (λ f s, onS (λ m', m' = m) s ∧ f = Some sess)). intros s Hs.
    split; [done|]. unfold get_session. by rewrite Hs. }
  intros f. apply triple_pure. intros ->. rewrite Hw, Hl. eapply (triple_bind _ _ _ (λ _, onS (λ m', m' = alter (update_window wid (window_layout (Some (Leaf pane)))) sid m))).
  - apply modify_session_onS. by intros m' ->.
  - intros []. apply log_store_onS.
Qed.

(** Opening a pane in a window without layout. *)
Lemma open_pane_first os sid req m sess w :
  m !! sid = Some sess → window_in (op_window req) (Some sess) = Some w → ws_layout w = None →
  triple (onS (λ m', m' = m)) (open_pane env os sid req)
    (λ p s, pa_session p = sid ∧ pa_window p = op_window req ∧
       ∃ t, rg_sessions s !! sid = Some (update_window (op_window req) (window_layout (Some (Leaf (pa_id p))))
                                    (with_active t (with_panes <[pa_id p := p]> sess))))
    (onS (λ m', m' = m)).
Proof.
  intros Hm Hw Hl. unfold open_pane. eapply triple_bind.
  { apply (triple_gets _ _ (λ f s, onS (λ m', m' = m) s ∧ f = Some sess)). intros s Hs.
    split; [done|]. unfold get_session. by rewrite Hs. }
  intros found. eapply (triple_bind _ _ _ (λ x s, onS (λ m', m' = m) s ∧ x = sess)).
  { apply triple_expect; [|by intros s [? _]]. intros x s -> [Hs [= ->]]. done. }
  intros session. apply triple_pure. intros ->.
  assert (target_window (op_window req) sess = Some w) as Htw.
  { unfold target_window. cbn in Hw. by rewrite Hw. }
  assert (ws_id w = op_window req) as Hwid.
  { apply window_in_Some in Hw as (? & _ & _ & ?). done. }
  rewrite Htw. eapply (triple_bind _ _ _ (λ x s, onS (λ m', m' = m) s ∧ x = w)).
  { apply triple_expect; [|done]. by intros x s [= ->]. }
  intros x. apply triple_pure. intros ->. cbn zeta. rewrite Hwid.
  refine (triple_bind _ _ _ _ _ _ (spawn_pty_onS (λ m', m' = m) os _ _ _ _ _) _).
  intros p. apply triple_pure. intros [Hpw Hps].
  refine (triple_bind _ _ _ _ _ _ (log_store_onS (λ m', m' = m) _ _) _). intros [].
  set (m1 := alter (with_panes <[pa_id p := p]>) sid m).
  refine (triple_bind _ _ _ (λ _, onS (λ m', m' = m1)) _ _ _ _); [apply modify_session_onS; by intros m' ->|].
  intros []. refine (triple_bind _ _ _ _ _ _ (utc_now_onS (λ m', m' = m1) _) _). intros t.
  set (m2 := alter (with_active t) sid m1).
  refine (triple_bind _ _ _ (λ _, onS (λ m', m' = m2)) _ _ _ _); [apply modify_session_onS; by intros m' ->|].
  intros []. assert (m2 !! sid = Some (with_active t (with_panes <[pa_id p := p]> sess))) as Hm2.
  { subst m2 m1. by rewrite !lookup_alter_eq, Hm. }
  refine (triple_bind _ _ _ _ _ _ (init_layout_onS sid (op_window req) (pa_id p) m2 _ w _ Hm2 Hw Hl) _). intros [].
  refine (triple_bind _ _ _ _ _ _ (emit_onS _ _ _ _ _ _) _). intros [].
  apply triple_ret. intros s Hs. split; [done|]. split; [done|]. exists t. rewrite Hs, lookup_alter_eq, Hm2. done.
Qed.

Lemma new_session_run name s :
  ∃ s' u wu t n, new_session env name s =
      (s', Ok (MkSession (MkSessionId u) n t t ∅ [MkWindow (MkWindowId wu) (MkSessionId u) "1" None 0 t])) ∧
    rg_sessions s' =
      <[MkSessionId u := MkSession (MkSessionId u) n t t ∅ [MkWindow (MkWindowId wu) (MkSessionId u) "1" None 0 t]]>
        (rg_sessions s).
Proof.
  unfold new_session, fresh_uuid, utc_now, log_store, attempt, store_call, zoom, bind, modify_sessions, modify, ret.
  cbn [Store.new_uuid Store.now result_map_err].
  repeat match goal with |- context [match ?x with (_, _) => _ end] => destruct x as [? ?] end.
  do 5 eexists. split; [reflexivity|done].
Qed.
End Contracts.

(** ** Collecting empty sessions *)
Section Gc.
Context `{UuidText, LayoutJson, SqlOrder, Zstd, ChronoRange, HashOrder}.
Context (env : Store.Env) (message : Registry.RegError → string).
Import Registry.

Lemma kill_empty os sid sess d :
  rg_sessions (dm_reg d) !! sid = Some sess → se_panes sess = ∅ →
  ∃ d', registry (io_error message) (kill_session os sid) d = (d', Ok tt) ∧
    rg_sessions (dm_reg d') = delete sid (rg_sessions (dm_reg d)).
Proof.
  intros Hs Hp. unfold registry, zoom, kill_session, bind, gets, expect, of_result, get_session. rewrite Hs.
  cbn [ok_or modify_sessions modify]. unfold modify_sessions, modify. rewrite Hp. unfold map_values. rewrite map_to_list_empty.
  pose proof (hash_order_perm ([] : list PaneState)) as Hnil. apply Permutation_nil_r in Hnil. cbn [fmap list_fmap].
  rewrite Hnil. cbn [for_each ret]. by eexists.
Qed.

(** The listing rows that say a session is empty. *)
Definition empty_rows (l : list SessionInfo) : list SessionInfo := filter (λ i, si_pane_count i = 0) l.

Lemma gc_loop_run os l ev d :
  NoDup (si_id <$> l) →
  (∀ i, i ∈ l → si_pane_count i = 0 →
     ∃ sess, rg_sessions (dm_reg d) !! si_id i = Some sess ∧ se_panes sess = ∅) →
  ∃ d', gc_loop message os l ev d =
      (d', Ok (ev ++ ((λ i, uuid_to_string (session_uuid (si_id i))) <$> empty_rows l))) ∧
    ∀ sid, rg_sessions (dm_reg d') !! sid =
      if decide (sid ∈ si_id <$> empty_rows l) then None else rg_sessions (dm_reg d) !! sid.
Proof.
  unfold empty_rows. revert ev d. induction l as [|i l IH]; intros ev d Hnd Hl.
  - exists d. cbn. rewrite app_nil_r. split; [done|]. intros sid. by rewrite decide_False by apply not_elem_of_nil.
  - rewrite fmap_cons in Hnd. inversion Hnd as [|?? Hni Hnd']; subst. cbn [gc_loop].
    destruct (Z.eqb_spec (si_pane_count i) 0) as [Hz|Hz].
    + destruct (Hl i) as (sess & Hs & Hp); [by left|done|].
      destruct (kill_empty os (si_id i) sess d Hs Hp) as (d1 & Hk & Hd1). rewrite Hk, filter_cons_True by done.
      destruct (IH (ev ++ [uuid_to_string (session_uuid (si_id i))]) d1) as (d' & Hrun & Hlk); [done| |].
      { intros j Hj Hjz. destruct (Hl j) as (sj & Hsj & Hpj); [by right|done|]. exists sj.
        rewrite Hd1, lookup_delete_ne; [done|]. intros E. apply Hni. rewrite E. by apply list_elem_of_fmap_2. }
      exists d'. rewrite Hrun, <- app_assoc. split; [done|]. intros sid. rewrite Hlk, Hd1, fmap_cons.
      destruct (decide (sid = si_id i)) as [->|Hne].
      * rewrite lookup_delete_eq, (decide_True (P := si_id i ∈ si_id i :: _)) by (by left). by case_decide.
      * rewrite lookup_delete_ne by done. repeat case_decide; set_solver.
    + rewrite filter_cons_False by done. apply IH; [done|]. intros j Hj. apply Hl. by right.
Qed.
End Gc.

(** ** Closing a session *)
Section CloseSession.
Context `{UuidText, LayoutJson, SqlOrder, Zstd, ChronoRange, HashOrder}.
Context (env : Store.Env) (message : Registry.RegError → string).
Context (no_fault : ∀ n, Store.env_fault env n = false).
Import Registry.

Definition windows_of (d : Daemon) : gmap string Store.WindowRow := Store.db_windows (Store.st_db (rg_store (dm_reg d))).

Lemma kill_session_state os sid s :
  let s' := (kill_session os sid s).1 in
  rg_store s' = rg_store s ∧ rg_sessions s' = delete sid (rg_sessions s).
Proof.
  cbn zeta. destruct (rg_sessions s !! sid) as [sess|] eqn:E.
  2: { unfold kill_session, bind, gets, expect, of_result, get_session. rewrite E. cbn [ok_or fst].
       by rewrite delete_id. }
  assert (kill_session os sid s =
    for_each (λ p, bind (attempt (kill os p)) (λ _, emit_event (pa_id p) Closed None None))
      (map_values (se_panes sess)) (set_sessions (delete sid) s)) as ->.
  { unfold kill_session. do 3 (unfold bind at 1). unfold gets, expect, of_result, get_session. by rewrite E. }
  apply (keeps_for_each (λ s', rg_store s' = rg_store s ∧ rg_sessions s' = delete sid (rg_sessions s))
    (λ p, bind (attempt (kill os p)) (λ _, emit_event (pa_id p) Closed None None))); [|done].
  intros p. apply keeps_bind.
  - apply keeps_attempt. intros s2 Hs2. unfold kill. by destruct (os_kill os (pa_child_pid p)).
  - intros [] s2 Hs2. unfold emit_event, modify. by destruct (EventBus.emit_event _ _).
Qed.

Lemma delete_rows_run ids d :
  ∃ d', for_each (λ wid, attempt (store message (Store.delete_window env wid))) ids d = (d', Ok tt) ∧
    rg_sessions (dm_reg d') = rg_sessions (dm_reg d) ∧
    ∀ k, windows_of d' !! k = if decide (k ∈ Store.window_key <$> ids) then None else windows_of d !! k.
Proof.
  revert d. induction ids as [|wid ids IH]; intros d.
  - exists d. split; [done|]. split; [done|]. intros k. by rewrite decide_False by apply not_elem_of_nil.
  - cbn [for_each].
    assert (∃ d1, attempt (store message (Store.delete_window env wid)) d = (d1, Ok tt) ∧
      rg_sessions (dm_reg d1) = rg_sessions (dm_reg d) ∧ windows_of d1 = delete (Store.window_key wid) (windows_of d))
      as (d1 & Hrun & Hs1 & Hw1).
    { unfold attempt, store, registry, store_call, zoom, Store.delete_window, Store.execute, Store.query.
      rewrite no_fault. by eexists. }
    rewrite (bind_ok _ _ _ _ _ Hrun). destruct (IH d1) as (d' & Hrun' & Hs' & Hw'). exists d'.
    split; [done|]. split; [by rewrite Hs'|]. intros k. rewrite Hw', Hw1, fmap_cons.
    destruct (decide (k = Store.window_key wid)) as [->|Hne].
    + rewrite lookup_delete_eq, (decide_True (P := Store.window_key wid ∈ _ :: _)) by (by left). by case_decide.
    + rewrite lookup_delete_ne by done. repeat case_decide; set_solver.
Qed.

(** The windows to delete: those of the live session, or those of its rows. *)
Definition closing (sid : SessionId) (d : Daemon) (w : WindowId) : Prop :=
  match rg_sessions (dm_reg d) !! sid with
  | Some sess => w ∈ (ws_id <$> se_windows sess)
  | None => ∃ row, windows_of d !! Store.window_key w = Some row ∧ Store.wr_session_id row = Store.session_key sid
  end.

Lemma store_list_windows_run sid st :
  ∃ st' ws, Store.list_windows env sid st = (st', Ok ws) ∧ Store.st_db st' = Store.st_db st ∧
    ((∀ k, is_Some (Store.db_windows (Store.st_db st) !! k) → ∃ w, k = Store.window_key w) →
     ∀ w, w ∈ ((λ x : WindowId * string * Z, x.1.1) <$> ws) ↔
       ∃ row, Store.db_windows (Store.st_db st) !! Store.window_key w = Some row ∧
              Store.wr_session_id row = Store.session_key sid).
Proof.
  unfold Store.list_windows, bind, Store.fetch, Store.query. rewrite no_fault. do 2 eexists.
  split; [reflexivity|]. split; [done|]. intros Hcan w. rewrite list_elem_of_fmap. split.
  - intros (x & -> & Hx). apply list_elem_of_omap in Hx as ([k row] & Hk & Hx).
    rewrite select_perm, list_elem_of_filter in Hk. destruct Hk as [Hs Hk]. cbn in Hs. apply bool_decide_eq_true in Hs.
    apply elem_of_map_to_list in Hk. cbn in Hx. destruct (uuid_parse k) as [u|] eqn:Eu; [|done]. injection Hx as <-. cbn.
    destruct (Hcan k) as [[w] ->]; [by eexists|]. unfold Store.window_key in *. cbn in *.
    rewrite uuid_parse_to_string in Eu. injection Eu as <-. by exists row.
  - intros (row & Hrow & Hs). exists (w, Store.wr_name row, wrap_u32 (Z.max 0 (Store.wr_position row))). split; [done|].
    apply list_elem_of_omap. exists (Store.window_key w, row). split.
    + rewrite select_perm, list_elem_of_filter. cbn. split; [by apply bool_decide_eq_true|]. by apply elem_of_map_to_list.
    + cbn. unfold Store.window_key at 1. rewrite uuid_parse_to_string. by destruct w.
Qed.
End CloseSession.

(** ** Properties *)

(** C2: whatever remote procedures clients call, in whatever order and with
    whatever arguments, and whenever shells exit, the registry of the daemon stays
    well formed, whatever the operating system answers and whichever statements of
    the database fail: every session has a window, pane and window identifiers are
    used once, and all stored layouts are proper trees. *)
Theorem daemon_reachable_ok `{UuidText, LayoutJson, SqlOrder, Zstd, ChronoRange, HashOrder, BlockIndex.Tantivy}
  env message index_message dir ops
  (distinct : ∀ i j, Store.env_uuid env i = Store.env_uuid env j → i = j) :
  reg_ok env (dm_reg (run_dops env message index_message ops (fresh_daemon dir))).
Proof. apply run_dops_ok; [done|]. apply fresh_reg_ok. Qed.

(** the contract of [spawn]. On success the reply names a live session with
    one window and one pane, the pane in that window, whose layout is that single
    pane. On failure the error is [SpawnFailed], and the session created for it
    is left behind, empty, with everything else as it was. *)
Theorem spawn_contract `{UuidText, LayoutJson, SqlOrder, Zstd, ChronoRange, HashOrder}
  env message os req d :
  match spawn env message os req d with
  | (d', Ok r) =>
      ∃ name t t' w p,
        Registry.rg_sessions (dm_reg d') !! sr_session r =
          Some (Registry.MkSession (sr_session r) name t t' {[sr_pane r := p]} [w]) ∧
        Registry.ws_id w = sr_window r ∧ Registry.ws_layout w = Some (Leaf (sr_pane r)) ∧
        Registry.pa_id p = sr_pane r ∧ Registry.pa_window p = sr_window r ∧
        Registry.pa_session p = sr_session r
  | (d', Err e) =>
      ∃ msg sid name t w,
        e = SpawnFailed msg ∧
        Registry.rg_sessions (dm_reg d') =
          <[sid := Registry.MkSession sid name t t ∅ [w]]> (Registry.rg_sessions (dm_reg d))
  end.
Proof.
  unfold spawn, bind at 1, registry at 1, zoom at 1.
  destruct (new_session_run env (sp_name req) (dm_reg d)) as (r1 & u & wu & t & n & -> & Hr1).
  cbn [result_map_err]. unfold bind at 1, expect, of_result. cbn [Registry.se_windows head ok_or].
  set (sid := MkSessionId u) in *. set (w := Registry.MkWindow (MkWindowId wu) sid "1" None 0 t) in *.
  set (sess := Registry.MkSession sid n t t ∅ [w]) in *.
  set (req' := MkOpenPaneReq _ _ _ _ _ _ _ _).
  assert (Registry.rg_sessions r1 !! sid = Some sess) as Hs by (by rewrite Hr1, lookup_insert_eq).
  assert (Registry.window_in (op_window req') (Some sess) = Some w) as Hw.
  { cbn. unfold find_first, Registry.is_window. cbn. by rewrite bool_decide_eq_true_2. }
  pose proof (open_pane_first env os (Registry.se_id sess) req' (Registry.rg_sessions r1) sess w Hs Hw eq_refl r1 eq_refl) as Ho.
  unfold bind, registry, zoom. cbn [set_reg dm_reg].
  destruct (Registry.open_pane env os (Registry.se_id sess) req' r1) as [r2 [p|e]]; cbn [result_map_err ret].
  - destruct Ho as (Hps & Hpw & t' & Hlk). cbn [dm_reg set_reg sr_session sr_pane sr_window].
    exists n, t, t', (Registry.window_layout (Some (Leaf (Registry.pa_id p))) w), p.
    split; [|by split_and!]. refine (eq_trans Hlk _). f_equal. unfold sess, Registry.update_window, Registry.with_active,
      Registry.with_panes, Registry.with_windows. cbn [Registry.se_id Registry.se_name Registry.se_created_at
      Registry.se_last_active_at Registry.se_panes Registry.se_windows map].
    unfold Registry.is_window. rewrite bool_decide_eq_true_2 by done. by rewrite insert_empty.
  - eexists _, sid, n, t, w. split; [done|]. cbn [dm_reg set_reg]. unfold onS in Ho. by rewrite Ho, Hr1.
Qed.

(** [gc_stale_sessions] removes exactly the sessions without panes, keeps all
    others as they are, never fails, and returns the identifiers of those removed. *)
Theorem gc_removes_empty `{UuidText, LayoutJson, SqlOrder, Zstd, ChronoRange, HashOrder} env message os d
  (Hok : reg_ok env (dm_reg d))
  (Hsize : map_Forall (λ _ s, (Z.of_nat (size (Registry.se_panes s)) < 2 ^ 32)) (Registry.rg_sessions (dm_reg d))) :
  ∃ d' gone,
    gc_stale_sessions message os d = (d', Ok ((λ sid, uuid_to_string (session_uuid sid)) <$> gone)) ∧
    (∀ sid, sid ∈ gone ↔ ∃ s, Registry.rg_sessions (dm_reg d) !! sid = Some s ∧ Registry.se_panes s = ∅) ∧
    (∀ sid, Registry.rg_sessions (dm_reg d') !! sid =
       if decide (sid ∈ gone) then None else Registry.rg_sessions (dm_reg d) !! sid).
Proof.
  set (l := Registry.list_sessions (dm_reg d)). pose proof (sessions_ok_ids env none _ _ Hok) as Hids.
  assert (∀ i, i ∈ l ↔ ∃ sid s, Registry.rg_sessions (dm_reg d) !! sid = Some s ∧
    i = MkSessionInfo (Registry.se_id s) (Registry.se_name s) (wrap_u32 (Z.of_nat (size (Registry.se_panes s))))
          (Registry.se_created_at s) (Registry.se_last_active_at s)) as Hin.
  { intros i. unfold l, Registry.list_sessions. rewrite list_elem_of_In, in_map_iff. split.
    - intros (s & <- & Hs). apply list_elem_of_In, elem_of_map_values in Hs as [sid Hs]. eauto.
    - intros (sid & s & Hs & ->). exists s. split; [done|]. apply list_elem_of_In, elem_of_map_values. eauto. }
  assert (∀ sid s, Registry.rg_sessions (dm_reg d) !! sid = Some s →
    wrap_u32 (Z.of_nat (size (Registry.se_panes s))) = 0 ↔ Registry.se_panes s = ∅) as Hcount.
  { intros sid s Hs. rewrite wrap_u32_small by (specialize (Hsize sid s Hs); cbn in Hsize; lia).
    split; [|by intros ->]. intros Hz. apply map_size_empty_iff. lia. }
  assert (NoDup (si_id <$> l)) as Hnd.
  { assert (si_id <$> l ≡ₚ (map_to_list (Registry.rg_sessions (dm_reg d))).*1) as ->; [|apply NoDup_fst_map_to_list].
    unfold l, Registry.list_sessions, Registry.sessions_values, map_values.
    change (map ?f ?x) with (f <$> x). rewrite <- list_fmap_compose, hash_order_perm, <- list_fmap_compose.
    apply Permutation_refl', list_fmap_ext. intros k [sid s] Hk. cbn.
    apply list_elem_of_lookup_2, elem_of_map_to_list in Hk. by apply Hids. }
  destruct (gc_loop_run message os l [] d Hnd) as (d' & Hrun & Hlk).
  { intros i Hi Hz. apply Hin in Hi as (sid & s & Hs & ->). cbn in *. exists s. rewrite (Hids sid s Hs).
    split; [done|]. by apply (Hcount sid). }
  exists d', (si_id <$> empty_rows l). split; [|split; [|exact Hlk]].
  - unfold gc_stale_sessions, bind, list_sessions, gets. fold l. rewrite Hrun. cbn [app].
    by rewrite <- list_fmap_compose.
  - intros sid. unfold empty_rows. rewrite list_elem_of_fmap. split.
    + intros (i & -> & Hi). apply list_elem_of_filter in Hi as [Hz Hi]. apply Hin in Hi as (sid & s & Hs & ->).
      cbn in *. exists s. rewrite (Hids sid s Hs). split; [done|]. by apply (Hcount sid).
    + intros (s & Hs & Hp). exists (MkSessionInfo (Registry.se_id s) (Registry.se_name s)
        (wrap_u32 (Z.of_nat (size (Registry.se_panes s)))) (Registry.se_created_at s) (Registry.se_last_active_at s)).
      split; [symmetry; exact (Hids sid s Hs)|].
      apply list_elem_of_filter. split; [|apply Hin; eauto]. cbn. by apply (Hcount sid).
Qed.

(** a request for a pane that does not exist is refused with the error that
    names it and changes nothing, in each of the handlers that look panes up. *)
Theorem unknown_pane_refused `{UuidText, LayoutJson, SqlOrder, Zstd, ChronoRange, HashOrder}
  env message d p (Hno : Registry.get_pane p (dm_reg d) = None) :
  (∀ n, replay env message p n d = (d, Err (NoSuchPane p))) ∧
  (∀ n, capture_pane p n d = (d, Err (NoSuchPane p))) ∧
  (∀ t w st r, set_pane_state message t w p st r d = (d, Err (NoSuchPane p))) ∧
  (∀ open bytes, send_keys open p bytes d = (d, Err (NoSuchPane p))) ∧
  (∀ proc, inspect_pid proc p d = (d, Err (NoSuchPane p))) ∧
  (∀ failed size, resize_pane failed (MkResizePaneReq p size) d = (d, Err (NoSuchPane p))) ∧
  (∀ st script, wait_pane_state p st script d = (d, Err (NoSuchPane p))) ∧
  mark_pane_seen message p d = (d, Err (NoSuchPane p)) ∧
  (∀ name, rename_pane env p name d = (d, Err (NoSuchPane p))) ∧
  (∀ os, close_pane env message os p d = (d, Err (Io (message (Registry.ENoPane p))))) ∧
  (∀ w, set_pane_weight env message p w d = (d, Err (Io (message (Registry.ENoPane p))))) ∧
  (∀ os o n c m, open_pane_split env message os (MkOpenPaneSplitReq p o n c m) d =
     (d, Err (SpawnFailed (message (Registry.ENoPane p))))).
Proof.
  assert (∀ (A : Type) (k : _ → D A), bind (find_pane p) k d = (d, Err (NoSuchPane p))) as Hfind.
  { intros A k. unfold bind, find_pane, gets, bind, expect, of_result. by rewrite Hno. }
  assert (∀ (A : Type) err (k : _ → Registry.R A),
    registry err (bind (gets (Registry.get_pane p)) (λ f, bind (expect f (Registry.ENoPane p)) k)) d =
    (d, Err (err (Registry.ENoPane p)))) as Hreg.
  { intros A err k. unfold registry, zoom, bind, gets, expect, of_result. rewrite Hno. cbn. by destruct d. }
  split_and!; intros; first [apply Hfind|apply Hreg].
Qed.

(** [close_session] always succeeds, even on a session that is already gone,
    and cleans up: the session is out of the registry, the rows of its windows,
    or, if it was gone, the rows that name it, are deleted, and every other session
    and row is untouched. *)
Theorem close_session_cleans `{UuidText, LayoutJson, SqlOrder, Zstd, ChronoRange, HashOrder}
  env message os sid d
  (no_fault : ∀ n, Store.env_fault env n = false)
  (Hkeys : ∀ k, is_Some (windows_of d !! k) → ∃ w, k = Store.window_key w) :
  ∃ d', close_session env message os sid d = (d', Ok tt) ∧
    Registry.rg_sessions (dm_reg d') = delete sid (Registry.rg_sessions (dm_reg d)) ∧
    (∀ w, closing sid d w → windows_of d' !! Store.window_key w = None) ∧
    (∀ w, ¬ closing sid d w → windows_of d' !! Store.window_key w = windows_of d !! Store.window_key w).
Proof.
  assert (∀ ids d1, windows_of d1 = windows_of d → Registry.rg_sessions (dm_reg d1) = Registry.rg_sessions (dm_reg d) →
    (∀ w, w ∈ ids ↔ closing sid d w) →
    ∃ d', (do! attempt (registry (io_error message) (Registry.kill_session os sid)) in
           for_each (λ wid, attempt (store message (Store.delete_window env wid))) ids) d1 = (d', Ok tt) ∧
      Registry.rg_sessions (dm_reg d') = delete sid (Registry.rg_sessions (dm_reg d)) ∧
      (∀ w, closing sid d w → windows_of d' !! Store.window_key w = None) ∧
      (∀ w, ¬ closing sid d w → windows_of d' !! Store.window_key w = windows_of d !! Store.window_key w)) as Hmain.
  { intros ids d1 Hw1 Hs1 Hids.
    destruct (kill_session_state os sid (dm_reg d1)) as [Hst Hse].
    assert (∃ d2, attempt (registry (io_error message) (Registry.kill_session os sid)) d1 = (d2, Ok tt) ∧
      Registry.rg_sessions (dm_reg d2) = delete sid (Registry.rg_sessions (dm_reg d)) ∧ windows_of d2 = windows_of d)
      as (d2 & Hrun & Hs2 & Hw2).
    { unfold attempt, registry, zoom. destruct (Registry.kill_session os sid (dm_reg d1)) as [r2 x]. cbn [fst] in *.
      eexists. split; [reflexivity|]. cbn [set_reg dm_reg]. unfold windows_of in *. cbn [set_reg dm_reg].
      by rewrite Hse, Hs1, Hst. }
    rewrite (bind_ok _ _ _ _ _ Hrun). destruct (delete_rows_run env message no_fault ids d2) as (d' & Hrun' & Hs' & Hw').
    exists d'. split; [done|]. split; [by rewrite Hs'|].
    assert (∀ w, Store.window_key w ∈ Store.window_key <$> ids ↔ closing sid d w) as Hk.
    { intros w. rewrite <- Hids, list_elem_of_fmap. split; [|by exists w].
      intros (w' & E & Hin). apply (inj uuid_to_string) in E. destruct w, w'. cbn in E. by subst. }
    split; intros w Hc; rewrite Hw', Hw2.
    - by rewrite decide_True by (by apply Hk).
    - by rewrite decide_False by (by rewrite Hk). }
  unfold close_session, bind at 1, gets. unfold Registry.get_session.
  destruct (Registry.rg_sessions (dm_reg d) !! sid) as [sess|] eqn:E.
  - unfold bind at 1. cbn [ret]. apply Hmain; [done|done|]. intros w. unfold closing. by rewrite E.
  - destruct (store_list_windows_run env no_fault sid (Registry.rg_store (dm_reg d))) as (st' & ws & Hrun & Hdb & Hws).
    unfold bind at 1, store, registry, Registry.store_call, zoom. rewrite Hrun. cbn [result_map_err].
    apply Hmain; [unfold windows_of; cbn; by rewrite Hdb|done|].
    intros w. unfold closing. rewrite E. by apply Hws.
Qed.

Section Witnesses.
#[local] Existing Instances binary_uuid binary_json stable_order no_compression chrono_0_4 list_hash
  BlockIndex.substring_engine.

Definition no_text (e : Registry.RegError) : string := "error".
Definition no_index_text (e : BlockIndex.IndexError) : string := "error".
Definition broken_os : Registry.Os := Registry.MkOs None None (λ _, true) 0.
Definition a_spawn : SpawnReq := MkSpawnReq None None 80 24 [] (Some "main").
(** One session with a pane, one left empty by a failed spawn, and the first
    pane's shell exits. *)
Definition some_dops : list DaemonOp :=
  [DSpawn some_os a_spawn; DSpawn broken_os a_spawn; DSeen (MkPaneId 2); DExit (MkSessionId 0) (MkPaneId 2)].
Definition some_daemon : Daemon := run_dops calm no_text no_index_text (take 2 some_dops) (fresh_daemon "/d").

Lemma distinct_calm i j : Store.env_uuid calm i = Store.env_uuid calm j → i = j.
Proof. cbn. lia. Qed.

Lemma daemon_reachable_ok_witness :
  reg_ok calm (dm_reg (run_dops calm no_text no_index_text some_dops (fresh_daemon "/d"))).
Proof. apply daemon_reachable_ok. exact distinct_calm. Defined.

Lemma gc_removes_empty_witness :
  ∃ d' gone,
    gc_stale_sessions no_text some_os some_daemon = (d', Ok ((λ sid, uuid_to_string (session_uuid sid)) <$> gone)) ∧
    (∀ sid, sid ∈ gone ↔
       ∃ s, Registry.rg_sessions (dm_reg some_daemon) !! sid = Some s ∧ Registry.se_panes s = ∅) ∧
    (∀ sid, Registry.rg_sessions (dm_reg d') !! sid =
       if decide (sid ∈ gone) then None else Registry.rg_sessions (dm_reg some_daemon) !! sid).
Proof.
  apply (gc_removes_empty calm no_text some_os some_daemon).
  - apply run_dops_ok; [exact distinct_calm|apply fresh_reg_ok].
  - assert (map_Forall (λ _ n, (n < 2)%nat) ((λ s, size (Registry.se_panes s)) <$> Registry.rg_sessions (dm_reg some_daemon))) as Hs.
    { refine (bool_decide_eq_true_1 _ _). vm_compute. reflexivity. }
    intros sid s Hlk. assert (size (Registry.se_panes s) < 2)%nat; [|lia].
    apply (Hs sid). by rewrite lookup_fmap, Hlk.
Defined.

Lemma unknown_pane_refused_witness :
  capture_pane (MkPaneId 99) 10 some_daemon = (some_daemon, Err (NoSuchPane (MkPaneId 99))).
Proof.
  apply (unknown_pane_refused calm no_text some_daemon (MkPaneId 99)). vm_compute. reflexivity.
Defined.

Lemma close_session_cleans_witness :
  ∃ d', close_session calm no_text some_os (MkSessionId 0) some_daemon = (d', Ok tt) ∧
    Registry.rg_sessions (dm_reg d') = delete (MkSessionId 0) (Registry.rg_sessions (dm_reg some_daemon)) ∧
    (∀ w, closing (MkSessionId 0) some_daemon w → windows_of d' !! Store.window_key w = None) ∧
    (∀ w, ¬ closing (MkSessionId 0) some_daemon w →
       windows_of d' !! Store.window_key w = windows_of some_daemon !! Store.window_key w).
Proof.
  apply (close_session_cleans calm no_text some_os (MkSessionId 0) some_daemon); [done|].
  assert (dom (windows_of some_daemon) = {[Store.window_key (MkWindowId 1); Store.window_key (MkWindowId 4)]}) as Hd.
  { vm_compute. reflexivity. }
  intros k Hk. apply elem_of_dom in Hk. rewrite Hd in Hk. clear Hd.
  apply elem_of_union in Hk as [Hk|Hk]; apply elem_of_singleton in Hk; eexists; exact Hk.
Defined.

(** Two panes side by side; the shell of the second exits by itself: it is gone
    from the panes, and its leaf stays in the layout of the window. *)
Definition two_panes : Daemon :=
  run_dops calm no_text no_index_text
    [DSpawn some_os a_spawn; DSplit some_os (MkOpenPaneSplitReq (MkPaneId 2) Vertical None None None)]
    (fresh_daemon "/d").
Definition live_and_drawn (d : Daemon) : list PaneId * list PaneId :=
  (flat_map (λ s, (map_to_list (Registry.se_panes s)).*1) (map_to_list (Registry.rg_sessions (dm_reg d))).*2,
   default [] (all_leaves <$> Registry.get_window_layout (MkWindowId 1) (dm_reg d))).
Lemma exited_pane_stays_in_layout :
  live_and_drawn (run_dop calm no_text no_index_text (DExit (MkSessionId 0) (MkPaneId 3)) two_panes) =
  ([MkPaneId 2], [MkPaneId 2; MkPaneId 3]).
Proof. vm_compute. reflexivity. Qed.

(** A pane is closed by a client and its shell exits because of the signal. *)
Lemma closed_announced_twice :
  omap (λ h, match ev_kind h.1.1 with Closed => Some (ev_pane_id h.1.1) | _ => None end)
    (Registry.rg_history (dm_reg (run_dops calm no_text no_index_text
       [DClosePane some_os (MkPaneId 3); DExit (MkSessionId 0) (MkPaneId 3)] two_panes))) =
  [MkPaneId 3; MkPaneId 3].
Proof. vm_compute. reflexivity. Qed.

(** Three windows, the second closed, a new one: two windows at position 2. *)
Lemma new_window_repeats_position :
  (λ w, (wi_name w, wi_position w)) <$>
    Registry.list_windows (MkSessionId 0) (dm_reg (run_dops calm no_text no_index_text
      [DSpawn some_os a_spawn; DNewWindow (MkSessionId 0) None; DNewWindow (MkSessionId 0) None;
       DCloseWindow some_os (MkWindowId 3); DNewWindow (MkSessionId 0) None] (fresh_daemon "/d"))) =
  [("1", 0); ("3", 2); ("3", 2)].
Proof. vm_compute. reflexivity. Qed.
End Witnesses.
