(* ===== verification/WorkerRegistry.v ===== *)
(** * WorkerRegistry: what the supervisor knows of its workers' panes

    The first part of pyred/src/supervisor.rs: the numbered event bus of the
    supervisor and the index that ties a stable [PaneId] to a slot of a worker.
    A worker knows its panes by slot only; every request about a pane is routed
    through the index. *)
From S2P Require Import Prelude Proto Libraries EventBus Registry.
Local Open Scope Z_scope.

(** ** [PaneEventBus] *)
Module PaneEventBus.

Definition SUPERVISOR_EVENT_RING_CAP : nat := 256.

Record PaneEventBus := MkBus { bus_ring : list PaneEvent; bus_seq : Z }.

Definition new : PaneEventBus := MkBus [] 0.

(** The event is also what the broadcast channel carries. *)
Definition emit (pane : PaneId) (kind : PaneEventKind) (state : option PaneStateKind) (b : PaneEventBus) :
    PaneEventBus * PaneEvent :=
  let seq := wrap_u64 (bus_seq b + 1) in
  let ev := MkPaneEvent seq pane kind state None in
  let ring := if (SUPERVISOR_EVENT_RING_CAP <=? length (bus_ring b))%nat
              then drop 1 (bus_ring b) else bus_ring b in
  (MkBus (ring ++ [ev]) seq, ev).

Definition events_after (after_seq : Z) (b : PaneEventBus) : list PaneEvent :=
  filter (λ e, after_seq < ev_seq e) (bus_ring b).

(** The long poll of the supervisor. *)
Definition next_pane_event (after_seq : Z) (b : PaneEventBus) (script : list EventBus.Recv) : list PaneEvent :=
  let history := events_after after_seq b in
  if decide (history ≠ []) then history
  else match EventBus.await_first after_seq script with
       | None => []
       | Some (collected, rest) => collected ++ EventBus.coalesce after_seq rest
       end.

(** *** The bus of the single process, with events that name no agent *)
Definition as_single (b : PaneEventBus) : EventBus.Bus := EventBus.MkBus (bus_seq b) (bus_ring b).

Fixpoint emits (notes : list (PaneId * PaneEventKind * option PaneStateKind)) (b : PaneEventBus) :
    PaneEventBus * list PaneEvent :=
  match notes with
  | [] => (b, [])
  | (p, k, s) :: ns =>
      let '(b, ev) := emit p k s b in let '(b, evs) := emits ns b in (b, ev :: evs)
  end.
Definition single_note (n : PaneId * PaneEventKind * option PaneStateKind) : EventBus.Note :=
  EventBus.MkNote n.1.1 n.1.2 n.2 None.

Lemma emit_single p k s b :
  EventBus.emit_event (EventBus.MkNote p k s None) (as_single b) =
  (as_single (emit p k s b).1, (emit p k s b).2).
Proof. done. Qed.

Lemma emits_single notes b :
  EventBus.emit_all (single_note <$> notes) (as_single b) = (as_single (emits notes b).1, (emits notes b).2).
Proof.
  revert b. induction notes as [|[[p k] s] ns IH]; intros b; [done|]. cbn [fmap list_fmap emits EventBus.emit_all].
  unfold single_note at 1. cbn [fst snd]. rewrite emit_single. destruct (emit p k s b) as [b' ev]. cbn [fst snd].
  rewrite IH. by destruct (emits ns b') as [b'' evs].
Qed.

(** A client cannot tell the event stream of the supervisor from that of the
    single process: after the same emissions, every cursor reads the same buffered
    events and every long poll returns the same answer, whatever the live channel
    delivers. *)
Theorem supervisor_bus_equiv notes after_seq script :
  let b := emits notes new in
  let b' := EventBus.emit_all (single_note <$> notes) EventBus.new in
  b.2 = b'.2 ∧ events_after after_seq b.1 = EventBus.events_after after_seq b'.1 ∧
  next_pane_event after_seq b.1 script = EventBus.next_pane_event after_seq b'.1 script.
Proof.
  cbn zeta. change EventBus.new with (as_single new). rewrite emits_single. cbn [fst snd].
  split; [done|]. split; [done|]. unfold next_pane_event, EventBus.next_pane_event.
  change (EventBus.events_after after_seq (as_single (emits notes new).1))
    with (events_after after_seq (emits notes new).1).
  by repeat case_decide.
Qed.
End PaneEventBus.

(** ** [PaneIndex] *)
Module PaneIndex.

Record PaneIndex := MkPaneIndex {
  pane_to_slot : gmap Uuid (string * Z);
  next_slots : gmap string Z;
  dead_slots : gset (string * Z) }.

Definition empty_index : PaneIndex := MkPaneIndex ∅ ∅ ∅.

Section Index.
Context `{HashOrder}.

Definition register (pane : Uuid) (session : string) (slot : Z) (ix : PaneIndex) : PaneIndex :=
  MkPaneIndex (<[pane := (session, slot)]> (pane_to_slot ix)) (next_slots ix) (dead_slots ix).

Definition lookup_pane (pane : Uuid) (ix : PaneIndex) : option (string * Z) := pane_to_slot ix !! pane.

(** The first match in the order the map yields its entries. *)
Definition pane_id_by_slot (session : string) (slot : Z) (ix : PaneIndex) : option Uuid :=
  fst <$> find_first (λ kv, bool_decide (kv.2 = (session, slot))) (hash_order (map_to_list (pane_to_slot ix))).

Definition is_dead (session : string) (slot : Z) (ix : PaneIndex) : bool :=
  bool_decide ((session, slot) ∈ dead_slots ix).

Definition next_slot (session : string) (ix : PaneIndex) : Z * PaneIndex :=
  let slot := default 0 (next_slots ix !! session) in
  (slot, MkPaneIndex (pane_to_slot ix) (<[session := wrap_u32 (slot + 1)]> (next_slots ix)) (dead_slots ix)).

Definition of_session (session : string) (m : gmap Uuid (string * Z)) : gmap Uuid (string * Z) :=
  filter (λ kv, kv.2.1 = session) m.

Definition remove_session (session : string) (ix : PaneIndex) : PaneIndex :=
  MkPaneIndex (filter (λ kv, kv.2.1 ≠ session) (pane_to_slot ix)) (delete session (next_slots ix))
    (filter (λ d, d.1 ≠ session) (dead_slots ix)).

(** Also the number of panes the session still has. *)
Definition remove_pane_slot (session : string) (slot : Z) (ix : PaneIndex) : nat * PaneIndex :=
  let m := filter (λ kv, kv.2 ≠ (session, slot)) (pane_to_slot ix) in
  (size (of_session session m), MkPaneIndex m (next_slots ix) ({[(session, slot)]} ∪ dead_slots ix)).

Definition pane_count (session : string) (ix : PaneIndex) : nat := size (of_session session (pane_to_slot ix)).

Definition live_pane_ids (session : string) (ix : PaneIndex) : list PaneId :=
  (λ kv, MkPaneId kv.1) <$> hash_order (map_to_list (of_session session (pane_to_slot ix))).

End Index.
End PaneIndex.
