(* ===== verification/Worker.v ===== *)
(** * Worker: the process that owns the terminals of one session (pyred/src/worker.rs, shard.rs)

    In the multi-process mode each session lives in a worker. It knows its panes by
    slot, keeps their shell and directory in a shard database on disk so that a
    respawned worker can open them again, and reports to the supervisor through the
    interface [SupervisorWorker]. The operations run on a [World]: the worker, its
    shard, and the state of whoever is at the other end of that interface. *)
From Stdlib Require Import Strings.Byte.
From S2P Require Import Prelude Proto Text Libraries Effects RingBuf PaneTracker Store Registry Capture.
Local Open Scope Z_scope.

(** ** The RPC surface between the two (pyre-proto/src/supervisor.rs) *)
Inductive BlockKind := KStdout | KStderr | KPrompt | KMarker.

Record RawEvent := MkRawEvent {
  re_session_id : string;
  re_slot_idx : Z;
  re_kind : BlockKind;
  re_bytes : Bytes;
  re_ts_ms : Z }.

Inductive RpcError :=
  | UnknownSession (s : string)
  | UnknownSlot (slot : Z)
  | Internal (msg : string).

(** The calls a worker makes to the supervisor; [instant] is the reading of the
    supervisor's clock and [dialled] whether it could connect back to the worker. *)
Class SupervisorWorker (Up : Type) := {
  register_worker : ∀ (instant : Z) (dialled : bool) (session_id : string) (pid : Z)
    (sock_path stream_sock_path : string), M Up RpcError bool;
  block_event : RawEvent → M Up RpcError unit;
  pane_closed : ∀ (session_id : string) (slot_idx : Z), M Up RpcError unit;
  pane_state_changed : ∀ (session_id : string) (slot_idx : Z) (state : PaneStateKind), M Up RpcError unit;
  heartbeat : ∀ (instant : Z) (session_id : string), M Up RpcError unit }.

Module Worker.

(** ** [WorkerEnv::from_env] *)
Record WorkerEnv := MkWorkerEnv { we_session_id : string; we_worker_sock : string; we_supervisor_sock : string }.

Inductive EnvError := Missing (var : string) | MustNotBeEmpty (var : string).

Definition required (env : string → option string) (var : string) : result EnvError string :=
  match env var with
  | None => Err (Missing var)
  | Some v => if decide (v = "") then Err (MustNotBeEmpty var) else Ok v
  end.

Definition from_env (env : string → option string) : result EnvError WorkerEnv :=
  let? session_id := required env "PYRE_SESSION_ID" in
  let? worker_sock := required env "PYRE_WORKER_SOCK" in
  let? supervisor_sock := required env "PYRE_SUPERVISOR_SOCK" in
  Ok (MkWorkerEnv session_id worker_sock supervisor_sock).

(** ** Panes and the worker *)
Definition RING_CAP : nat := Z.to_nat (256 * 1024).
Definition STREAM_CAP : nat := 256.

Record PaneHandle := MkPaneHandle {
  ph_shell : string;
  ph_cwd : string;
  ph_cols : Z;
  ph_rows : Z;
  ph_created_at : DateTime;
  ph_child_pid : Z;
  ph_term : PaneSize;                 (** the size set on the terminal *)
  ph_input : list Bytes;              (** sent to the writer thread *)
  ph_ring_buf : RingBuf.RingBuf;
  ph_sent : list Bytes;               (** broadcast to stream connections *)
  ph_tracker : PaneTracker.PaneStateTracker }.

Definition with_term (z : PaneSize) (h : PaneHandle) : PaneHandle :=
  MkPaneHandle (ph_shell h) (ph_cwd h) (ph_cols h) (ph_rows h) (ph_created_at h) (ph_child_pid h) z
    (ph_input h) (ph_ring_buf h) (ph_sent h) (ph_tracker h).
Definition with_input (l : list Bytes) (h : PaneHandle) : PaneHandle :=
  MkPaneHandle (ph_shell h) (ph_cwd h) (ph_cols h) (ph_rows h) (ph_created_at h) (ph_child_pid h) (ph_term h)
    l (ph_ring_buf h) (ph_sent h) (ph_tracker h).
Definition with_output (rb : RingBuf.RingBuf) (l : list Bytes) (h : PaneHandle) : PaneHandle :=
  MkPaneHandle (ph_shell h) (ph_cwd h) (ph_cols h) (ph_rows h) (ph_created_at h) (ph_child_pid h) (ph_term h)
    (ph_input h) rb l (ph_tracker h).
Definition with_tracker (t : PaneTracker.PaneStateTracker) (h : PaneHandle) : PaneHandle :=
  MkPaneHandle (ph_shell h) (ph_cwd h) (ph_cols h) (ph_rows h) (ph_created_at h) (ph_child_pid h) (ph_term h)
    (ph_input h) (ph_ring_buf h) (ph_sent h) t.

Record Worker := MkWorker {
  wk_session_id : string;
  wk_panes : gmap Z PaneHandle;
  wk_closing : bool;                 (** a [shutdown_task] is waiting *)
  wk_shutdown : bool }.              (** the shutdown flag *)

(** The rows of the shard's table: slot, shell and directory. *)
Definition Shard : Type := gmap Z (string * string).

(** What the system answers a call: the pid of the shell spawned with the program it
    is given (or the text of the step that failed), $SHELL, the instant and the time
    it reads, and whether the statement on the shard succeeds. *)
Record Os := MkOs {
  os_spawn : string → result string Z;
  os_shell : option string;
  os_instant : Z;
  os_utc : DateTime;
  os_sql : bool }.

Section Worker.
Context {Up : Type} `{SupervisorWorker Up} `{UuidText, HashOrder, UnicodeLower}.

Record World := MkWorld { wd_worker : Worker; wd_shard : Shard; wd_up : Up }.

Definition W (E A : Type) : Type := M World E A.

Definition set_worker (f : Worker → Worker) (w : World) : World :=
  MkWorld (f (wd_worker w)) (wd_shard w) (wd_up w).
Definition set_panes (f : gmap Z PaneHandle → gmap Z PaneHandle) (w : Worker) : Worker :=
  MkWorker (wk_session_id w) (f (wk_panes w)) (wk_closing w) (wk_shutdown w).
Definition modify_panes {E} (f : gmap Z PaneHandle → gmap Z PaneHandle) : W E unit :=
  modify (set_worker (set_panes f)).
Definition raise_shutdown {E} : W E unit :=
  modify (set_worker (λ w, MkWorker (wk_session_id w) (wk_panes w) (wk_closing w) true)).
Definition pane_at {E} (slot : Z) : W E (option PaneHandle) := gets (λ w, wk_panes (wd_worker w) !! slot).
Definition session_id {E} : W E string := gets (λ w, wk_session_id (wd_worker w)).

(** A call to the supervisor; its outcome is dropped. *)
Definition notify {E A} (m : M Up RpcError A) : W E unit :=
  λ w, (MkWorld (wd_worker w) (wd_shard w) (m (wd_up w)).1, Ok tt).

(** *** The shard *)
Definition shard_execute (ok : bool) (context : string) (f : Shard → Shard) : W string unit :=
  if ok then modify (λ w, MkWorld (wd_worker w) (f (wd_shard w)) (wd_up w)) else throw context.

Definition upsert_pane (ok : bool) (slot : Z) (shell cwd : string) : W string unit :=
  shard_execute ok "upsert pane" <[slot := (shell, cwd)]>.
Definition delete_pane (ok : bool) (slot : Z) : W string unit :=
  shard_execute ok "delete pane" (delete slot).
(** [SELECT] without an order: the rows in some order. *)
Definition load_panes (ok : bool) : W string (list (Z * string * string)) :=
  if ok then gets (λ w, (λ r, (wrap_u32 r.1, r.2.1, r.2.2)) <$> hash_order (map_to_list (wd_shard w)))
  else throw "load panes".

(** *** Panes *)
Definition open_size (cols rows : Z) : Z * Z :=
  if (cols =? 0) || (rows =? 0) then (80, 24) else (cols, rows).

Definition resolved_shell (os : Os) (shell : string) : string :=
  if decide (shell = "") then default "/bin/bash" (os_shell os) else shell.

Definition open_pane (os : Os) (slot : Z) (shell cwd : string) (cols rows : Z) : W string unit :=
  let '(cols, rows) := open_size cols rows in
  match os_spawn os (resolved_shell os shell) with
  | Err e => throw e
  | Ok child_pid =>
      let handle := MkPaneHandle shell cwd (if cols =? 0 then 80 else cols) (if rows =? 0 then 24 else rows)
                      (os_utc os) child_pid (MkPaneSize cols rows) [] (RingBuf.new RING_CAP) []
                      (PaneTracker.new (os_instant os) child_pid) in
      do! modify_panes <[slot := handle]> in
      upsert_pane (os_sql os) slot shell cwd
  end.

(** Nothing to do when the slot is already empty. The last pane that goes raises
    the shutdown flag. *)
Definition close_pane (sql : bool) (slot : Z) : W string unit :=
  let! handle := pane_at slot in
  do! modify_panes (delete slot) in
  match handle with
  | None => ret tt
  | Some _ =>
      do! delete_pane sql slot in
      let! sid := session_id in
      do! notify (pane_closed sid slot) in
      let! panes := gets (λ w, wk_panes (wd_worker w)) in
      if decide (panes = ∅) then raise_shutdown else ret tt
  end.

(** [now] and [instant] are the readings of the two clocks; the text of a parse error
    is cut short. *)
Definition pane_info (now instant : Z) (slot : Z) : W RpcError PaneInfo :=
  let! found := pane_at slot in
  let! h := expect found (UnknownSlot slot) in
  let! sid := session_id in
  let! u := expect (uuid_parse sid) (Internal "invalid session uuid") in
  let t := ph_tracker h in
  ret (MkPaneInfo (MkPaneId 0) (MkSessionId u) (MkWindowId 0) (ph_cols h) (ph_rows h) (ph_shell h)
    (ph_created_at h) None (PaneTracker.tr_state t) (PaneTracker.tr_reason t)
    (now - PaneTracker.elapsed instant (PaneTracker.tr_last_output_at t))
    (PaneTracker.tr_foreground_cmd t) (PaneTracker.tr_root_pid t) (PaneTracker.tr_agent t)
    (PaneTracker.tr_seen t) None).

Definition on_handle {E} (slot : Z) (f : PaneHandle → PaneHandle) : W E unit := modify_panes (alter f slot).

Definition unknown_slot (slot : Z) : string := "unknown slot " +:+ bytes_str (show_uint slot).

(** [window] is PYRE_OVERRIDE_WINDOW_SECS, parsed. *)
Definition set_pane_state (instant : Z) (window : option Z) (slot : Z) (state : PaneStateKind) (reason : string) :
    W string unit :=
  let! found := pane_at slot in
  let! h := expect found (unknown_slot slot) in
  on_handle slot (λ h, with_tracker
    (PaneTracker.set_override instant state reason (default 30 window) (ph_tracker h)) h).

Definition mark_pane_seen (slot : Z) : W string unit :=
  let! found := pane_at slot in
  let! h := expect found (unknown_slot slot) in
  on_handle slot (λ h, with_tracker (PaneTracker.mark_seen (ph_tracker h)) h).

(** *** The reader thread: one chunk of output. The block event is sent from a task
    of its own. *)
Definition on_read (ts_ms : Z) (slot : Z) (chunk : Bytes) : W string unit :=
  do! on_handle slot (λ h, with_output (RingBuf.push (ph_ring_buf h) chunk) (ph_sent h ++ [chunk]) h) in
  let! sid := session_id in
  notify (block_event (MkRawEvent sid slot KStdout chunk ts_ms)).

(** The end of the output closes the pane. *)
Definition on_eof (sql : bool) (slot : Z) : W string unit := attempt (close_pane sql slot).

(** *** One round of the state engine over the panes it found *)
Definition engine_tick (fs : PaneTracker.ProcFs) (rd : PaneTracker.Readings) (slot : Z) : W string unit :=
  let! found := pane_at slot in
  match found with
  | None => ret tt
  | Some h =>
      let '(t, change) := PaneTracker.tick fs rd (ph_tracker h) in
      do! on_handle slot (with_tracker t) in
      match change with
      | Some (new_state, _) =>
          let! sid := session_id in notify (pane_state_changed sid slot new_state)
      | None => ret tt
      end
  end.
Definition state_engine (fs : PaneTracker.ProcFs) (rd : Z → PaneTracker.Readings) : W string unit :=
  let! slots := gets (λ w, hash_order (map_to_list (wk_panes (wd_worker w))).*1) in
  for_each (λ slot, engine_tick fs (rd slot) slot) slots.

(** *** The control interface the worker offers to the supervisor *)
Definition internal (e : string) : RpcError := Internal e.
Definition ctrl {A} (m : W string A) : W RpcError A := zoom (λ w, w) (λ w _, w) internal m.

(** The request only starts the task [shutdown_task], which sleeps first. *)
Definition shutdown (grace_secs : Z) : W RpcError unit :=
  modify (set_worker (λ w, MkWorker (wk_session_id w) (wk_panes w) true (wk_shutdown w))).
Definition shutdown_task (sql : Z → bool) : W string unit :=
  let! slots := gets (λ w, hash_order (map_to_list (wk_panes (wd_worker w))).*1) in
  do! for_each (λ slot, attempt (close_pane (sql slot) slot)) slots in
  modify (set_worker (λ w, MkWorker (wk_session_id w) (wk_panes w) false true)).

Definition ctrl_attach_pane (slot : Z) (client_id : string) : W RpcError unit := ret tt.

(** [failed]: the text of the error when the terminal cannot be resized. *)
Definition ctrl_resize_pane (failed : option string) (slot cols rows : Z) : W RpcError unit :=
  let! found := pane_at slot in
  let! h := expect found (UnknownSlot slot) in
  match failed with
  | Some e => throw (Internal ("resize: " +:+ e))
  | None => on_handle slot (with_term (MkPaneSize cols rows))
  end.

(** [channel_open]: the writer thread is still there. *)
Definition ctrl_send_keys (channel_open : bool) (slot : Z) (bytes : Bytes) : W RpcError unit :=
  let! found := pane_at slot in
  let! h := expect found (UnknownSlot slot) in
  if channel_open then on_handle slot (λ h, with_input (ph_input h ++ [bytes]) h)
  else throw (Internal "input_tx closed").

Definition ctrl_open_pane (os : Os) (slot : Z) (shell cwd : string) (cols rows : Z) : W RpcError unit :=
  ctrl (open_pane os slot shell cwd cols rows).
Definition ctrl_close_pane (sql : bool) (slot : Z) : W RpcError unit := ctrl (close_pane sql slot).

Definition ctrl_capture_pane (slot lines : Z) : W RpcError Bytes :=
  let! found := pane_at slot in
  let! h := expect found (UnknownSlot slot) in
  ret (Capture.capture (RingBuf.snapshot (ph_ring_buf h)) lines).

Definition ctrl_list_panes : W RpcError (list Z) :=
  gets (λ w, hash_order (map_to_list (wk_panes (wd_worker w))).*1).

Definition ctrl_get_pane_info (now instant : Z) (slot : Z) : W RpcError PaneInfo := pane_info now instant slot.
Definition ctrl_set_pane_state (instant : Z) (window : option Z) (slot : Z) (state : PaneStateKind)
    (reason : string) : W RpcError unit := ctrl (set_pane_state instant window slot state reason).
Definition ctrl_mark_pane_seen (slot : Z) : W RpcError unit := ctrl (mark_pane_seen slot).

(** [cwd]: the link /proc/pid/cwd of a process. *)
Definition ctrl_pane_cwd (cwd : Z → option string) (slot : Z) : W RpcError (option string) :=
  let! found := pane_at slot in
  ret (match found with Some h => cwd (ph_child_pid h) | None => None end).

(** *** Start: the panes of the shard are opened again, then the worker registers. *)
Definition new_worker (session : string) : Worker := MkWorker session ∅ false false.

Definition recover (sql : bool) (os : Z → Os) : W string unit :=
  λ w, let '(w1, persisted) := load_panes sql w in
       let rows := match persisted with Ok rows => rows | Err _ => [] end in
       for_each (λ r, let '(slot, shell, cwd) := r in attempt (open_pane (os slot) slot shell cwd 80 24)) rows w1.

Definition stream_sock_path (parent session : string) : string :=
  Store.path_join parent ("session-" +:+ session +:+ "-stream.sock").

(** The outcome of the registration is only logged. *)
Definition start (sql : bool) (os : Z → Os) (instant : Z) (dialled : bool) (pid : Z) (sock parent : string) :
    W string unit :=
  do! recover sql os in
  let! sid := session_id in
  notify (register_worker instant dialled sid pid sock (stream_sock_path parent sid)).

End Worker.

(** ** Writing to a terminal, and dialling the other process *)

(** [write_all_bytes]: [accept] says, call by call, how many bytes the terminal took
    ([None]: an error). [None] when the fuel runs out before the loop ends. *)
Fixpoint write_all_bytes (fuel : nat) (accept : nat → option nat) (call : nat) (buf : Bytes) :
    option (bool * Bytes) :=
  match buf with
  | [] => Some (true, [])
  | _ =>
      match fuel with
      | O => None
      | S fuel' =>
          match accept call with
          | None => Some (false, [])
          | Some n =>
              (λ r, (r.1, take n buf ++ r.2)) <$> write_all_bytes fuel' accept (S call) (drop n buf)
          end
      end
  end.

Inductive Dial (A : Type) := Dialled (a : A) (slept : Z) | DialFailed (slept : Z) | DialUnreachable.
Arguments Dialled {A} a slept.
Arguments DialFailed {A} slept.
Arguments DialUnreachable {A}.

(** The loop over ten attempts; [base] is the wait after the first, in
    milliseconds: 200 for [connect_supervisor], 100 for [connect_worker_ctrl]. *)
Fixpoint connect_loop {A} (base : Z) (connect : Z → option A) (attempts : list Z) (slept : Z) : Dial A :=
  match attempts with
  | [] => DialUnreachable
  | attempt :: rest =>
      match connect attempt with
      | Some stream => Dialled stream slept
      | None => if attempt <? 9 then connect_loop base connect rest (slept + base * (attempt + 1))
                else DialFailed slept
      end
  end.
Definition connect_attempts {A} (base : Z) (connect : Z → option A) : Dial A :=
  connect_loop base connect (seqZ 0 10) 0.
Definition connect_supervisor {A} (connect : Z → option A) : Dial A := connect_attempts 200 connect.
Definition connect_worker_ctrl {A} (connect : Z → option A) : Dial A := connect_attempts 100 connect.

(** *** Heartbeats: every 5 s, each sent up to three times with waits of 500 ms,
    1 s and 2 s; the calls made and the time they waited. *)
Fixpoint heartbeat_tries (answered : nat → bool) (call : nat) (tries : nat) (backoff : Z) : nat * Z :=
  match tries with
  | O => (0%nat, 0)
  | S tries' =>
      if answered call then (1%nat, 0)
      else let '(n, t) := heartbeat_tries answered (S call) tries' (2 * backoff) in (S n, backoff + t)
  end.
Definition heartbeat_round (answered : nat → bool) : nat * Z := heartbeat_tries answered 0 3 500.

End Worker.
