(* ===== verification/WorkerInv.v ===== *)
(** * WorkerInv: what a worker keeps

    Facts about the worker process. Against the interface [SupervisorWorker]: a
    predicate on the supervisor's side that the callbacks keep is kept by every
    operation of a worker. About the worker itself: its shard on disk and its panes
    agree, so that a worker started after a crash opens the panes the dead one had;
    and the tracker of a pane never learns of output. *)
From Stdlib Require Import Strings.Byte.
From S2P Require Import Prelude Proto Text Libraries Effects RingBuf PaneTracker Store Registry RegistryInv Worker.
Local Open Scope Z_scope.
Import Worker.

(** ** What the other end keeps *)
Section Up.
Context {Up : Type} `{SupervisorWorker Up} `{UuidText, HashOrder, UnicodeLower}.

(** [J] survives each of the five callbacks. *)
Class UpKeeps (J : Up → Prop) : Prop := {
  keeps_register i d s pid a b : keeps J (register_worker i d s pid a b);
  keeps_block_event ev : keeps J (block_event ev);
  keeps_pane_closed s slot : keeps J (pane_closed s slot);
  keeps_state_changed s slot st : keeps J (pane_state_changed s slot st);
  keeps_heartbeat i s : keeps J (heartbeat i s) }.

Context (J : Up → Prop) `{!UpKeeps J}.

Definition atUp (w : World) : Prop := J (wd_up w).

Lemma notify_wkeeps {E A} (m : M Up RpcError A) : keeps J m → keeps (E := E) atUp (notify m).
Proof. intros Hm w Hw. exact (Hm (wd_up w) Hw). Qed.
Lemma modify_wkeeps {E} f : (∀ w, wd_up (f w) = wd_up w) → keeps (E := E) atUp (modify f).
Proof. intros Hf w Hw. unfold atUp. cbn. by rewrite Hf. Qed.
Lemma modify_panes_wkeeps {E} f : keeps (E := E) atUp (modify_panes f).
Proof. by apply modify_wkeeps. Qed.
Lemma raise_shutdown_wkeeps {E} : keeps (E := E) atUp raise_shutdown.
Proof. by apply modify_wkeeps. Qed.
Lemma shard_wkeeps ok ctx f : keeps atUp (shard_execute ok ctx f).
Proof. unfold shard_execute. destruct ok; [by apply modify_wkeeps|apply keeps_throw]. Qed.
Lemma ctrl_wkeeps {A} (m : W string A) : keeps atUp m → keeps atUp (ctrl m).
Proof. intros Hm w Hw. specialize (Hm w Hw). unfold ctrl, zoom. by destruct (m w). Qed.
End Up.

#[export] Hint Resolve notify_wkeeps modify_panes_wkeeps raise_shutdown_wkeeps shard_wkeeps ctrl_wkeeps
  keeps_register keeps_block_event keeps_pane_closed keeps_state_changed keeps_heartbeat : effects.

(** Stepping through a computation all of whose steps keep a predicate. *)
Ltac keep_step :=
  match goal with
  | |- keeps _ (bind _ _) => apply keeps_bind; [|intros ?]
  | |- keeps _ (ret _) => apply keeps_ret
  | |- keeps _ (throw _) => apply keeps_throw
  | |- keeps _ (gets _) => apply keeps_gets
  | |- keeps _ (of_result _) => apply keeps_of_result
  | |- keeps _ (expect _ _) => apply keeps_expect
  | |- keeps _ (attempt _) => apply keeps_attempt
  | |- keeps _ (for_each _ _) => apply keeps_for_each; intros ?
  | |- keeps _ (match ?x with _ => _ end) => destruct x
  end.
Ltac keep := repeat first [assumption | keep_step | solve [eauto 3 with effects nocore]].

Section Ops.
Context {Up : Type} `{SupervisorWorker Up} `{UuidText, HashOrder, UnicodeLower}.
Context (J : Up → Prop) `{!UpKeeps J}.

Lemma open_pane_wkeeps os slot sh cwd c r : keeps (atUp J) (open_pane os slot sh cwd c r).
Proof. unfold open_pane. destruct (open_size c r). unfold upsert_pane. cbv zeta. keep. Qed.
Lemma close_pane_wkeeps sql slot : keeps (atUp J) (close_pane sql slot).
Proof. unfold close_pane, pane_at, delete_pane, session_id. keep. Qed.
Lemma on_handle_wkeeps {E} slot f : keeps (atUp J) (on_handle (E := E) slot f).
Proof. apply modify_panes_wkeeps. Qed.
Lemma pane_info_wkeeps now i slot : keeps (atUp J) (pane_info now i slot).
Proof. unfold pane_info, pane_at, session_id. keep. Qed.
Lemma set_pane_state_wkeeps i w slot st r : keeps (atUp J) (set_pane_state i w slot st r).
Proof. unfold set_pane_state, pane_at, on_handle. keep. Qed.
Lemma mark_pane_seen_wkeeps slot : keeps (atUp J) (mark_pane_seen slot).
Proof. unfold mark_pane_seen, pane_at, on_handle. keep. Qed.
Lemma on_read_wkeeps ts slot chunk : keeps (atUp J) (on_read ts slot chunk).
Proof. unfold on_read, on_handle, session_id. keep. Qed.
Lemma on_eof_wkeeps sql slot : keeps (atUp J) (on_eof sql slot).
Proof. apply keeps_attempt, close_pane_wkeeps. Qed.
Lemma engine_tick_wkeeps fs rd slot : keeps (atUp J) (engine_tick fs rd slot).
Proof.
  unfold engine_tick, pane_at. keep_step; [keep|]. keep_step; [|keep].
  destruct (PaneTracker.tick fs rd _) as [t ch]. unfold on_handle, session_id. keep.
Qed.
Lemma state_engine_wkeeps fs rd : keeps (atUp J) (state_engine fs rd).
Proof. unfold state_engine. keep_step; [keep|]. keep_step. apply engine_tick_wkeeps. Qed.
Lemma shutdown_wkeeps g : keeps (atUp J) (shutdown g).
Proof. unfold shutdown. by apply modify_wkeeps. Qed.
Lemma shutdown_task_wkeeps sql : keeps (atUp J) (shutdown_task sql).
Proof.
  unfold shutdown_task. keep_step; [keep|]. keep_step; [|by apply modify_wkeeps].
  do 2 keep_step. apply close_pane_wkeeps.
Qed.
Lemma ctrl_resize_wkeeps f slot c r : keeps (atUp J) (ctrl_resize_pane f slot c r).
Proof. unfold ctrl_resize_pane, pane_at, on_handle. keep. Qed.
Lemma ctrl_send_keys_wkeeps ch slot bs : keeps (atUp J) (ctrl_send_keys ch slot bs).
Proof. unfold ctrl_send_keys, pane_at, on_handle. keep. Qed.
Lemma ctrl_capture_wkeeps slot l : keeps (atUp J) (ctrl_capture_pane slot l).
Proof. unfold ctrl_capture_pane, pane_at. keep. Qed.
Lemma ctrl_cwd_wkeeps f slot : keeps (atUp J) (ctrl_pane_cwd f slot).
Proof. unfold ctrl_pane_cwd, pane_at. keep. Qed.
Lemma ctrl_list_wkeeps : keeps (atUp J) ctrl_list_panes.
Proof. apply keeps_gets. Qed.

Lemma recover_wkeeps sql os : keeps (atUp J) (recover sql os).
Proof.
  intros w Hw. unfold recover. destruct (load_panes sql w) as [w1 rows] eqn:E.
  assert (w1 = w) as -> by (unfold load_panes in E; destruct sql; by injection E).
  apply keeps_for_each; [|done]. intros [[slot sh] cwd]. apply keeps_attempt, open_pane_wkeeps.
Qed.
Lemma start_wkeeps sql os i d pid sock par : keeps (atUp J) (start sql os i d pid sock par).
Proof. unfold start, session_id. keep_step; [apply recover_wkeeps|]. keep. Qed.
End Ops.

#[export] Hint Resolve open_pane_wkeeps close_pane_wkeeps pane_info_wkeeps set_pane_state_wkeeps
  mark_pane_seen_wkeeps on_read_wkeeps on_eof_wkeeps state_engine_wkeeps shutdown_wkeeps shutdown_task_wkeeps
  ctrl_resize_wkeeps ctrl_send_keys_wkeeps ctrl_capture_wkeeps ctrl_cwd_wkeeps ctrl_list_wkeeps
  start_wkeeps : effects.

(** ** The life of a worker *)
Inductive WorkerOp :=
  | WOpen (os : Os) (slot : Z) (shell cwd : string) (cols rows : Z)
  | WClose (sql : bool) (slot : Z)
  | WRead (ts_ms slot : Z) (chunk : Bytes)
  | WEof (sql : bool) (slot : Z)
  | WEngine (fs : PaneTracker.ProcFs) (rd : Z → PaneTracker.Readings)
  | WSetState (instant : Z) (window : option Z) (slot : Z) (state : PaneStateKind) (reason : string)
  | WSeen (slot : Z)
  | WResize (failed : option string) (slot cols rows : Z)
  | WKeys (channel_open : bool) (slot : Z) (bytes : Bytes)
  | WShutdownTask (sql : Z → bool)
  | WCrash (os : Z → Os).    (** the process dies, a new one starts on the shard *)

Section Life.
Context {Up : Type} `{SupervisorWorker Up} `{UuidText, HashOrder, UnicodeLower}.

Definition run_wop (op : WorkerOp) (w : World (Up := Up)) : World :=
  match op with
  | WOpen os slot shell cwd cols rows => (ctrl_open_pane os slot shell cwd cols rows w).1
  | WClose sql slot => (ctrl_close_pane sql slot w).1
  | WRead ts slot chunk => (on_read ts slot chunk w).1
  | WEof sql slot => (on_eof sql slot w).1
  | WEngine fs rd => (state_engine fs rd w).1
  | WSetState i win slot st r => (ctrl_set_pane_state i win slot st r w).1
  | WSeen slot => (ctrl_mark_pane_seen slot w).1
  | WResize f slot c r => (ctrl_resize_pane f slot c r w).1
  | WKeys ch slot bs => (ctrl_send_keys ch slot bs w).1
  | WShutdownTask sql => (shutdown_task sql w).1
  | WCrash os =>
      (recover true os (MkWorld (new_worker (wk_session_id (wd_worker w))) (wd_shard w) (wd_up w))).1
  end.
Definition run_wops (ops : list WorkerOp) (w : World (Up := Up)) : World := fold_left (λ w op, run_wop op w) ops w.

Definition a_worker (session : string) (up : Up) : World := MkWorld (new_worker session) ∅ up.

(** *** Running a computation that cannot stop short *)
Lemma for_each_total {S E A} (f : A → M S E unit) (l : list A) s :
  (∀ x s, (f x s).2 = Ok tt) → for_each f l s = (fold_left (λ s x, (f x s).1) l s, Ok tt).
Proof.
  intros Hf. revert s. induction l as [|x l IH]; intros s; [done|]. cbn [for_each fold_left].
  unfold bind. specialize (Hf x s). destruct (f x s) as [s' r]. cbn in Hf. by rewrite Hf, IH.
Qed.

(** ** The shard and the panes agree *)
Definition persisted (panes : gmap Z PaneHandle) : Shard := (λ h, (ph_shell h, ph_cwd h)) <$> panes.

Definition synced (w : World (Up := Up)) : Prop :=
  wd_shard w = persisted (wk_panes (wd_worker w)) ∧ map_Forall (λ slot _, wrap_u32 slot = slot) (wd_shard w).

(** Every statement succeeds; the slots are u32; a crashed worker can open its shells. *)
Definition healthy (op : WorkerOp) : Prop :=
  match op with
  | WOpen os slot _ _ _ _ => os_sql os = true ∧ wrap_u32 slot = slot
  | WClose sql _ | WEof sql _ => sql = true
  | WShutdownTask sql => ∀ slot, sql slot = true
  | WCrash os => ∀ slot, os_sql (os slot) = true ∧ ∀ sh, is_ok (os_spawn (os slot) sh) = true
  | _ => True
  end.

Lemma persisted_alter f slot panes :
  (∀ h, ph_shell (f h) = ph_shell h ∧ ph_cwd (f h) = ph_cwd h) → persisted (alter f slot panes) = persisted panes.
Proof.
  intros Hf. unfold persisted. apply map_eq. intros i. rewrite !lookup_fmap.
  destruct (decide (i = slot)) as [->|Hne]; [rewrite lookup_alter_eq|by rewrite lookup_alter_ne].
  destruct (panes !! slot) as [h|]; [|done]. cbn. by destruct (Hf h) as [-> ->].
Qed.

Lemma on_handle_synced {E} slot f :
  (∀ h, ph_shell (f h) = ph_shell h ∧ ph_cwd (f h) = ph_cwd h) → keeps (E := E) synced (on_handle slot f).
Proof. intros Hf w [Hs Hu]. split; [|done]. cbn [on_handle modify_panes modify fst set_worker set_panes
  wd_shard wd_worker wk_panes]. by rewrite persisted_alter. Qed.
Lemma notify_synced {E A} (m : M Up RpcError A) : keeps (E := E) synced (notify m).
Proof. by intros w Hw. Qed.
Lemma ctrl_keeps (I : World (Up := Up) → Prop) {A} (m : W string A) : keeps I m → keeps I (ctrl m).
Proof. intros Hm w Hw. specialize (Hm w Hw). unfold ctrl, zoom. by destruct (m w). Qed.

(** *** Opening and closing, in one step *)
Definition the_handle (os : Os) (shell cwd : string) (cols rows pid : Z) : PaneHandle :=
  let '(cols, rows) := open_size cols rows in
  MkPaneHandle shell cwd (if cols =? 0 then 80 else cols) (if rows =? 0 then 24 else rows) (os_utc os) pid
    (MkPaneSize cols rows) [] (RingBuf.new RING_CAP) [] (PaneTracker.new (os_instant os) pid).

Lemma open_pane_run os slot sh cwd c r (w : World (Up := Up)) :
  (open_pane os slot sh cwd c r w).1 =
  match os_spawn os (resolved_shell os sh) with
  | Err _ => w
  | Ok pid => MkWorld (set_panes <[slot := the_handle os sh cwd c r pid]> (wd_worker w))
                (if os_sql os then <[slot := (sh, cwd)]> (wd_shard w) else wd_shard w) (wd_up w)
  end.
Proof.
  unfold open_pane, the_handle. destruct (open_size c r) as [c' r']. destruct (os_spawn os _) as [pid|e]; [|done].
  unfold upsert_pane, shard_execute. by destruct (os_sql os).
Qed.

(** Its effect on worker and shard; the supervisor is told. *)
Lemma close_pane_run sql slot (w : World (Up := Up)) :
  ∃ up b, (close_pane sql slot w).1 =
    MkWorld (MkWorker (wk_session_id (wd_worker w)) (delete slot (wk_panes (wd_worker w)))
               (wk_closing (wd_worker w)) b)
      (match wk_panes (wd_worker w) !! slot with
       | Some _ => if sql then delete slot (wd_shard w) else wd_shard w
       | None => wd_shard w
       end) up.
Proof.
  unfold close_pane, delete_pane, shard_execute, pane_at, session_id, modify_panes.
  unfold bind, gets, modify, ret, throw. cbn [set_worker wd_worker set_panes wk_panes wk_session_id].
  destruct (wk_panes (wd_worker w) !! slot) as [h|] eqn:E; [|by eexists _, _].
  destruct sql; [|by eexists _, _]. unfold notify. cbn [wd_worker wd_shard wd_up wk_panes set_worker].
  case_decide; by eexists _, _.
Qed.

Lemma open_pane_synced os slot sh cwd c r :
  os_sql os = true → wrap_u32 slot = slot → keeps synced (open_pane os slot sh cwd c r).
Proof.
  intros Hsql Hu w [Hs Hw]. rewrite open_pane_run, Hsql. destruct (os_spawn os _) as [pid|e]; [|by split].
  split; cbn [wd_shard wd_worker set_panes wk_panes].
  - unfold persisted. rewrite fmap_insert, Hs. unfold the_handle. by destruct (open_size c r).
  - by apply map_Forall_insert_2.
Qed.

Lemma close_pane_synced slot : keeps synced (close_pane true slot).
Proof.
  intros w [Hs Hw]. destruct (close_pane_run true slot w) as (up & b & ->). split; cbn [wd_shard wd_worker wk_panes].
  - unfold persisted. rewrite fmap_delete. fold (persisted (wk_panes (wd_worker w))). rewrite <- Hs.
    destruct (wk_panes (wd_worker w) !! slot) eqn:E; [done|]. symmetry. apply delete_id.
    rewrite Hs. unfold persisted. by rewrite lookup_fmap, E.
  - intros i x Hx. apply (Hw i x). destruct (wk_panes (wd_worker w) !! slot); [|done].
    by apply lookup_delete_Some in Hx as [_ ?].
Qed.

Lemma engine_synced fs rd : keeps synced (state_engine (Up := Up) fs rd).
Proof.
  unfold state_engine. keep_step; [keep|]. keep_step. unfold engine_tick, pane_at, session_id.
  keep_step; [keep|]. keep_step; [|keep]. destruct (PaneTracker.tick fs (rd x) _) as [t ch].
  keep_step; [by apply on_handle_synced|]. keep_step; [|keep]. keep_step.
  keep_step; [keep|]. apply notify_synced.
Qed.

(** Bringing the rows of a shard back. *)
Lemma recover_loop os rows (w : World (Up := Up)) :
  (∀ slot, os_sql (os slot) = true ∧ ∀ sh, is_ok (os_spawn (os slot) sh) = true) →
  ∀ w', for_each (λ r : Z * string * string, let '(slot, shell, cwd) := r in
    attempt (open_pane (os slot) slot shell cwd 80 24)) rows w = (w', Ok tt) →
  persisted (wk_panes (wd_worker w')) =
    fold_left (λ m r, <[r.1.1 := (r.1.2, r.2)]> m) rows (persisted (wk_panes (wd_worker w))) ∧
  wd_shard w' = fold_left (λ m r, <[r.1.1 := (r.1.2, r.2)]> m) rows (wd_shard w) ∧
  wk_session_id (wd_worker w') = wk_session_id (wd_worker w) ∧
  (map_Forall (λ _ h, ph_term h = MkPaneSize 80 24) (wk_panes (wd_worker w)) →
   map_Forall (λ _ h, ph_term h = MkPaneSize 80 24) (wk_panes (wd_worker w'))).
Proof.
  intros Hos. revert w. induction rows as [|[[slot sh] cwd] rows IH]; intros w w'; cbn [for_each fold_left].
  - by intros [= <-].
  - intros Hrun. apply bind_inv in Hrun as (w1 & [] & E1 & E2). unfold attempt in E1.
    rewrite open_pane_run in E1. destruct (Hos slot) as [Hsql Hsp]. specialize (Hsp (resolved_shell (os slot) sh)).
    destruct (os_spawn (os slot) _) as [pid|e]; [|done]. rewrite Hsql in E1. injection E1 as <-.
    apply IH in E2 as (-> & -> & -> & Hsz). cbn [wd_worker wd_shard set_panes wk_panes wk_session_id fst snd].
    split_and!; [|done..|].
    + f_equal. unfold persisted. by rewrite fmap_insert.
    + intros Hall. apply Hsz. cbn [wd_worker set_panes wk_panes]. by apply map_Forall_insert_2.
Qed.

(** A worker started on the shard of one whose shard is in step. *)
Lemma recover_synced os (w : World (Up := Up)) :
  (∀ slot, os_sql (os slot) = true ∧ ∀ sh, is_ok (os_spawn (os slot) sh) = true) →
  map_Forall (λ slot _, wrap_u32 slot = slot) (wd_shard w) → wk_panes (wd_worker w) = ∅ →
  let w' := (recover true os w).1 in
  synced w' ∧ wd_shard w' = wd_shard w ∧ map_Forall (λ _ h, ph_term h = MkPaneSize 80 24) (wk_panes (wd_worker w')).
Proof.
  intros Hos Hu Hnew. cbn zeta. unfold recover, load_panes, gets.
  destruct (for_each _ _ w) as [w' r] eqn:E. cbn [fst].
  assert (r = Ok tt) as ->.
  { rewrite for_each_total in E by (by intros [[? ?] ?] ?). by injection E. }
  apply recover_loop in E as (Hp & Hsh & _ & Hsz); [|done].
  set (rows := hash_order (map_to_list (wd_shard w))) in *.
  assert ((λ r, (wrap_u32 r.1, r.2.1, r.2.2)) <$> rows = (λ r, (r.1, r.2.1, r.2.2)) <$> rows) as Hrows.
  { apply list_fmap_ext. intros k [slot [sh cwd]] Hk. cbn. apply list_elem_of_lookup_2 in Hk.
    unfold rows in Hk. rewrite hash_order_perm in Hk. apply elem_of_map_to_list in Hk. by rewrite (Hu _ _ Hk). }
  destruct (fold_insert_all rows (wd_shard w : gmap Z (string * string))) as [H1' H2']; [apply hash_order_perm|].
  unfold Shard in Hp, Hsh. rewrite Hrows, fold_insert_rows in Hp, Hsh. rewrite H2' in Hsh. unfold persisted in Hp at 2.
  rewrite Hnew, fmap_empty, H1' in Hp. split; [split; [by rewrite Hsh, Hp|by rewrite Hsh]|]. split; [done|].
  apply Hsz. rewrite Hnew. apply map_Forall_empty.
Qed.

Lemma run_wop_synced op w : healthy op → synced w → synced (run_wop op w).
Proof.
  intros Hop Hw. destruct op; cbn [run_wop healthy] in *.
  - destruct Hop as [? ?]. apply (ctrl_keeps synced); [by apply open_pane_synced|done].
  - subst. apply (ctrl_keeps synced); [apply close_pane_synced|done].
  - revert w Hw. change (keeps synced (on_read (Up := Up) ts_ms slot chunk)). unfold on_read, session_id.
    keep_step; [by apply on_handle_synced|]. keep_step; [keep|]. apply notify_synced.
  - subst. revert w Hw. change (keeps synced (on_eof (Up := Up) true slot)). apply keeps_attempt, close_pane_synced.
  - by apply engine_synced.
  - apply (ctrl_keeps synced); [|done]. unfold set_pane_state, pane_at. keep_step; [keep|]. keep_step; [keep|].
    by apply on_handle_synced.
  - apply (ctrl_keeps synced); [|done]. unfold mark_pane_seen, pane_at. keep_step; [keep|]. keep_step; [keep|].
    by apply on_handle_synced.
  - revert w Hw. change (keeps synced (ctrl_resize_pane (Up := Up) failed slot cols rows)).
    unfold ctrl_resize_pane, pane_at. keep_step; [keep|]. keep_step; [keep|]. keep_step; [keep|].
    by apply on_handle_synced.
  - revert w Hw. change (keeps synced (ctrl_send_keys (Up := Up) channel_open slot bytes)).
    unfold ctrl_send_keys, pane_at. keep_step; [keep|]. keep_step; [keep|]. keep_step; [|keep].
    by apply on_handle_synced.
  - revert w Hw. change (keeps synced (shutdown_task (Up := Up) sql)). unfold shutdown_task. keep_step; [keep|].
    keep_step; [|by intros w [? ?]]. keep_step. keep_step. rewrite Hop. apply close_pane_synced.
  - apply recover_synced; [done|apply Hw|done].
Qed.
Lemma run_wops_synced ops w : Forall healthy ops → synced w → synced (run_wops ops w).
Proof. revert w. induction ops as [|op ops IH]; intros w Hops Hw; [done|]. inversion Hops; subst. by apply IH, run_wop_synced. Qed.

(** ** What the state engine can see *)

(** Everything of a worker but the output: the trackers, the shard, the session. *)
Definition trackers (w : World (Up := Up)) : gmap Z PaneTracker.PaneStateTracker := ph_tracker <$> wk_panes (wd_worker w).
Definition view (w : World (Up := Up)) : gmap Z PaneTracker.PaneStateTracker * Shard * string :=
  (trackers w, wd_shard w, wk_session_id (wd_worker w)).

Lemma on_handle_trackers {E} slot f g (w : World (Up := Up)) :
  (∀ h, ph_tracker (f h) = g (ph_tracker h)) →
  view (on_handle (E := E) slot f w).1 = (alter g slot (trackers w), wd_shard w, wk_session_id (wd_worker w)).
Proof.
  intros Hf. unfold view, trackers. cbn [on_handle modify_panes modify fst set_worker set_panes wd_worker wd_shard
    wk_panes wk_session_id]. do 2 f_equal. apply map_eq. intros i. rewrite lookup_fmap.
  destruct (decide (i = slot)) as [->|Hne]; [rewrite !lookup_alter_eq|by rewrite !lookup_alter_ne, lookup_fmap].
  rewrite lookup_fmap. destruct (wk_panes (wd_worker w) !! slot); [|done]. cbn. by rewrite Hf.
Qed.

Lemma tracker_at (w w' : World (Up := Up)) slot :
  trackers w = trackers w' →
  is_Some (wk_panes (wd_worker w) !! slot) ↔ is_Some (wk_panes (wd_worker w') !! slot).
Proof.
  intros E. apply (f_equal (λ m, m !! slot)) in E. unfold trackers in E. rewrite !lookup_fmap in E.
  destruct (wk_panes (wd_worker w) !! slot), (wk_panes (wd_worker w') !! slot); cbn in E; done.
Qed.

Lemma on_read_view ts slot chunk (w : World (Up := Up)) : view (on_read ts slot chunk w).1 = view w.
Proof.
  change (view (on_handle (E := string) slot (λ h, with_output (RingBuf.push (ph_ring_buf h) chunk)
    (ph_sent h ++ [chunk]) h) w).1 = view w).
  rewrite (on_handle_trackers slot _ id) by done. unfold view. by rewrite alter_id.
Qed.

Lemma open_pane_view os slot sh cwd c r (w w' : World (Up := Up)) :
  view w = view w' → view (open_pane os slot sh cwd c r w).1 = view (open_pane os slot sh cwd c r w').1.
Proof.
  intros E. rewrite !open_pane_run. destruct (os_spawn os _) as [pid|e]; [|done]. injection E as Et Es Ei.
  unfold view, trackers in *. cbn [wd_worker wd_shard set_panes wk_panes wk_session_id]. by rewrite !fmap_insert, Et, Es, Ei.
Qed.

Lemma close_pane_view sql slot (w w' : World (Up := Up)) :
  view w = view w' → view (close_pane sql slot w).1 = view (close_pane sql slot w').1.
Proof.
  intros E. destruct (close_pane_run sql slot w) as (u1 & b1 & ->), (close_pane_run sql slot w') as (u2 & b2 & ->).
  injection E as Et Es Ei. pose proof (tracker_at w w' slot Et) as Hat.
  unfold view, trackers in *. cbn [wd_worker wd_shard wk_panes wk_session_id]. rewrite !fmap_delete, Et, Ei, Es.
  do 2 f_equal. destruct (wk_panes (wd_worker w) !! slot), (wk_panes (wd_worker w') !! slot); try done.
  - destruct Hat as [Hat _]. by destruct Hat.
  - destruct Hat as [_ Hat]. by destruct Hat.
Qed.

(** Loops over the same list. *)
Lemma for_each_view {A} (f : A → W (Up := Up) string unit) l w w' :
  (∀ x s, (f x s).2 = Ok tt) → (∀ x w w', view w = view w' → view (f x w).1 = view (f x w').1) →
  view w = view w' → view (for_each f l w).1 = view (for_each f l w').1.
Proof.
  intros Ht Hf. rewrite !for_each_total by done. cbn [fst]. revert w w'.
  induction l as [|x l IH]; intros w w' E; [done|]. cbn [fold_left]. apply IH. by apply Hf.
Qed.

(** *** The state engine, slot by slot *)
Lemma engine_tick_run fs rd slot (w : World (Up := Up)) :
  (engine_tick fs rd slot w).2 = Ok tt ∧
  view (engine_tick fs rd slot w).1 =
    (alter (λ t, (PaneTracker.tick fs rd t).1) slot (trackers w), wd_shard w, wk_session_id (wd_worker w)).
Proof.
  unfold engine_tick, pane_at, bind, gets. destruct (wk_panes (wd_worker w) !! slot) as [h|] eqn:Eh.
  - destruct (PaneTracker.tick fs rd (ph_tracker h)) as [t ch] eqn:Et.
    assert (view (on_handle (E := string) slot (with_tracker t) w).1 =
      (alter (λ t, (PaneTracker.tick fs rd t).1) slot (trackers w), wd_shard w, wk_session_id (wd_worker w))) as Hv.
    { rewrite (on_handle_trackers slot _ (λ _, t)) by done. do 2 f_equal. unfold trackers.
      apply map_eq. intros i. destruct (decide (i = slot)) as [->|Hne]; [|by rewrite !lookup_alter_ne].
      rewrite !lookup_alter_eq, lookup_fmap, Eh. cbn. by rewrite Et. }
    destruct (on_handle slot (with_tracker t) w) as [w1 r] eqn:E1. cbn [fst] in Hv.
    assert (r = Ok tt) as -> by (by injection E1). destruct ch as [[st rs]|]; split; try done.
  - split; [done|]. unfold view. cbn [fst ret]. do 2 f_equal. symmetry. apply map_eq. intros i.
    destruct (decide (i = slot)) as [->|Hne]; [|by rewrite lookup_alter_ne].
    rewrite lookup_alter_eq. unfold trackers. by rewrite lookup_fmap, Eh.
Qed.

Lemma fold_alter_lookup {A} (g : Z → A → A) (l : list Z) (m : gmap Z A) i :
  NoDup l → fold_left (λ m x, alter (g x) x m) l m !! i = (if decide (i ∈ l) then g i <$> (m !! i) else m !! i).
Proof.
  revert m. induction l as [|x l IH]; intros m Hnd; cbn [fold_left].
  - rewrite decide_False; [done|apply not_elem_of_nil].
  - inversion Hnd as [|?? Hx Hnd']; subst. rewrite IH by done. destruct (decide (i = x)) as [->|Hne].
    + rewrite decide_False by done. rewrite decide_True by (by left). by rewrite lookup_alter_eq.
    + rewrite lookup_alter_ne by done. destruct (decide (i ∈ l)); [rewrite decide_True by (by right)|rewrite decide_False]; try done.
      by intros [?|?]%elem_of_cons.
Qed.

(** The keys of a map, in the order it yields them. *)
Lemma keys_spec {A} (m : gmap Z A) :
  NoDup (hash_order (map_to_list m).*1) ∧ ∀ i, i ∈ hash_order (map_to_list m).*1 ↔ is_Some (m !! i).
Proof.
  split; [rewrite hash_order_perm; apply NoDup_fst_map_to_list|]. intros i. rewrite hash_order_perm, list_elem_of_fmap.
  split; [intros ([j x] & -> & Hx%elem_of_map_to_list); eauto|].
  intros [x Hx]. exists (i, x). split; [done|]. by apply elem_of_map_to_list.
Qed.

Lemma engine_view fs rd (w : World (Up := Up)) :
  view (state_engine fs rd w).1 =
  (map_imap (λ slot t, Some (PaneTracker.tick fs (rd slot) t).1) (trackers w), wd_shard w, wk_session_id (wd_worker w)).
Proof.
  unfold state_engine, bind, gets. destruct (keys_spec (wk_panes (wd_worker w))) as [Hnd Hin].
  set (l := hash_order (map_to_list _).*1) in *. rewrite for_each_total by (intros x s; apply engine_tick_run). cbn [fst].
  assert (∀ l w, view (fold_left (λ s x, (engine_tick (Up := Up) fs (rd x) x s).1) l w) =
    (fold_left (λ m x, alter (λ t, (PaneTracker.tick fs (rd x) t).1) x m) l (trackers w), wd_shard w,
     wk_session_id (wd_worker w))) as ->.
  { clear. intros l. induction l as [|x l IH]; intros w; [done|]. cbn [fold_left]. rewrite IH.
    destruct (engine_tick_run fs (rd x) x w) as [_ E]. injection E as -> -> ->. done. }
  do 2 f_equal. apply map_eq. intros i. rewrite fold_alter_lookup, map_lookup_imap by done.
  case_decide as Hi; [by destruct (trackers w !! i)|]. rewrite Hin in Hi. unfold trackers. rewrite lookup_fmap.
  destruct (wk_panes (wd_worker w) !! i) eqn:E; [|done]. exfalso. apply Hi. eauto.
Qed.

(** *** Closing every pane *)
Lemma close_all_run sql l (w : World (Up := Up)) :
  NoDup l →
  let w' := fold_left (λ s x, (attempt (E := string) (close_pane (Up := Up) (sql x) x) s).1) l w in
  wk_panes (wd_worker w') = filter (λ kv, kv.1 ∉ l) (wk_panes (wd_worker w)) ∧
  wd_shard w' = filter (λ kv, ¬ (kv.1 ∈ l ∧ is_Some (wk_panes (wd_worker w) !! kv.1) ∧ sql kv.1 = true)) (wd_shard w) ∧
  wk_session_id (wd_worker w') = wk_session_id (wd_worker w).
Proof.
  cbn zeta. revert w. induction l as [|x l IH]; intros w Hnd; cbn [fold_left].
  - split_and!; [| |done]; symmetry; apply map_filter_id; intros i x _; cbn; [apply not_elem_of_nil|].
    by intros [?%not_elem_of_nil _].
  - inversion Hnd as [|?? Hx Hnd']; subst. destruct (IH (attempt (E := string) (close_pane (sql x) x) w).1 Hnd') as (-> & -> & ->).
    unfold attempt. cbn [fst]. destruct (close_pane_run (sql x) x w) as (u & b & ->).
    cbn [wd_worker wd_shard wk_panes wk_session_id]. clear Hnd Hnd' IH.
    split_and!; [| |done]; apply map_eq; intros i; apply option_eq; intros v.
    + rewrite !map_lookup_filter_Some, lookup_delete_Some, not_elem_of_cons. cbn. intuition congruence.
    + assert ((delete x (wd_shard w) : gmap Z (string * string)) !! x = None) as Hd by apply lookup_delete_eq.
      assert (∀ j, x ≠ j → (delete x (wd_shard w) : gmap Z (string * string)) !! j =
        (wd_shard w : gmap Z (string * string)) !! j) as Hd' by (intros; by apply lookup_delete_ne).
      rewrite !map_lookup_filter_Some. cbn [fst]. rewrite elem_of_cons. destruct (decide (i = x)) as [->|Hne].
      * rewrite lookup_delete_eq. destruct (wk_panes (wd_worker w) !! x) eqn:E, (sql x) eqn:Ex;
          rewrite ?Hd, ?is_Some_alt; cbn; clear Hd Hd'; pose proof (eq_refl x); pose proof (eq_refl true); intuition congruence.
      * rewrite lookup_delete_ne by done. destruct (wk_panes (wd_worker w) !! x); [destruct (sql x)|];
          rewrite ?Hd' by done; intuition congruence.
Qed.

Lemma shutdown_view sql (w : World (Up := Up)) :
  view (shutdown_task sql w).1 =
  (∅, filter (λ kv, ¬ (is_Some (trackers w !! kv.1) ∧ sql kv.1 = true)) (wd_shard w), wk_session_id (wd_worker w)).
Proof.
  unfold shutdown_task, bind, gets. destruct (keys_spec (wk_panes (wd_worker w))) as [Hnd Hin].
  rewrite for_each_total by done. cbn [fst modify].
  destruct (close_all_run sql _ w Hnd) as (Hp & Hs & Hi). unfold view, trackers.
  cbn [set_worker wd_worker wk_panes wd_shard wk_session_id]. rewrite Hp, Hs, Hi. do 2 f_equal.
  - apply map_eq. intros i. rewrite lookup_fmap, lookup_empty. apply fmap_None, map_lookup_filter_None. right.
    intros x Hx Hni. apply Hni, Hin. eauto.
  - apply map_filter_ext. intros i x _. cbn [fst]. rewrite lookup_fmap, fmap_is_Some, Hin. tauto.
Qed.

(** *** Two workers with the same view stay so. *)
Lemma known_pane_view {A} slot (e : A) (k : W (Up := Up) A unit) (w w' : World (Up := Up)) :
  view w = view w' → (∀ w w', view w = view w' → view (k w).1 = view (k w').1) →
  view ((let! found := pane_at slot in do! expect found e in k) w).1 =
  view ((let! found := pane_at slot in do! expect found e in k) w').1.
Proof.
  intros E Hk. unfold bind, pane_at, gets, expect, of_result. pose proof E as E'. injection E' as Et _ _.
  pose proof (tracker_at w w' slot Et) as Hat.
  destruct (wk_panes (wd_worker w) !! slot), (wk_panes (wd_worker w') !! slot); cbn [ok_or]; [by apply Hk| | |done].
  - destruct Hat as [Hat _]. by destruct Hat.
  - destruct Hat as [_ Hat]. by destruct Hat.
Qed.

Lemma on_handle_view {E} slot f g (w w' : World (Up := Up)) :
  (∀ h, ph_tracker (f h) = g (ph_tracker h)) → view w = view w' →
  view (on_handle (E := E) slot f w).1 = view (on_handle (E := E) slot f w').1.
Proof. intros Hf Ev. rewrite !(on_handle_trackers slot f g) by done. by injection Ev as -> -> ->. Qed.

Lemma ctrl_view {A} (m : W string A) (w : World (Up := Up)) : view (ctrl m w).1 = view (m w).1.
Proof. unfold ctrl, zoom. by destruct (m w). Qed.

Lemma recover_view os (w w' : World (Up := Up)) : view w = view w' → view (recover true os w).1 = view (recover true os w').1.
Proof.
  intros E. pose proof E as E'. injection E' as _ Es _. unfold recover, load_panes, gets. rewrite Es.
  apply for_each_view; [by intros [[? ?] ?] ?| |done]. intros [[slot sh] cwd] v v' Ev. cbn [attempt fst].
  by apply open_pane_view.
Qed.

Lemma run_wop_view op (w w' : World (Up := Up)) : view w = view w' → view (run_wop op w) = view (run_wop op w').
Proof.
  intros E. destruct op; cbn [run_wop].
  - unfold ctrl_open_pane. rewrite !ctrl_view. by apply open_pane_view.
  - unfold ctrl_close_pane. rewrite !ctrl_view. by apply close_pane_view.
  - by rewrite !on_read_view.
  - unfold on_eof, attempt. cbn [fst]. by apply close_pane_view.
  - rewrite !engine_view. by injection E as -> -> ->.
  - unfold ctrl_set_pane_state. rewrite !ctrl_view. apply known_pane_view; [done|]. intros v v'.
    by apply (on_handle_view slot _ (PaneTracker.set_override instant state reason (default 30 window))).
  - unfold ctrl_mark_pane_seen. rewrite !ctrl_view. apply known_pane_view; [done|]. intros v v'.
    by apply (on_handle_view slot _ PaneTracker.mark_seen).
  - unfold ctrl_resize_pane. apply known_pane_view; [done|]. intros v v' Ev. destruct failed; [done|].
    by apply (on_handle_view slot _ id).
  - unfold ctrl_send_keys. apply known_pane_view; [done|]. intros v v' Ev. destruct channel_open; [|done].
    by apply (on_handle_view slot _ id).
  - rewrite !shutdown_view. by injection E as -> -> ->.
  - apply recover_view. unfold view in *. cbn. injection E as _ -> ->. done.
Qed.

Definition is_read (op : WorkerOp) : Prop := match op with WRead _ _ _ => True | _ => False end.
#[global] Instance is_read_dec op : Decision (is_read op).
Proof. destruct op; cbn; apply _. Defined.

Lemma run_wops_view ops (w w' : World (Up := Up)) :
  view w = view w' → view (run_wops ops w) = view (run_wops (filter (λ op, ¬ is_read op) ops) w').
Proof.
  revert w w'. induction ops as [|op ops IH]; intros w w' E; [done|]. cbn [run_wops fold_left].
  destruct (decide (is_read op)) as [Hr|Hr].
  - rewrite filter_cons_False by (by intros ?). apply IH. destruct op; try done. cbn [run_wop]. by rewrite on_read_view.
  - rewrite filter_cons_True by done. apply IH. by apply run_wop_view.
Qed.
End Life.

(** ** Properties *)


(** The state engine of a worker cannot see output. Whatever happens in a worker,
    leaving out every chunk its shells print changes no tracker (nor shard): a pane
    that prints and one that hangs are reported alike. In the single process the
    reader stamps the tracker and the parser passes it the markers. *)
Theorem worker_state_ignores_output `{SupervisorWorker Up} `{UuidText, HashOrder, UnicodeLower}
    (session : string) (up : Up) ops :
  view (run_wops ops (a_worker session up)) =
  view (run_wops (filter (λ op, ¬ is_read op) ops) (a_worker session up)).
Proof. by apply run_wops_view. Qed.

(** Handing input to a shell. Writing a chunk to the terminal ends, after at most
    one call per byte, exactly if no call takes 0 bytes of a non-empty rest: then a
    prefix of the chunk was written, all of it unless a call failed. A terminal that
    keeps taking nothing holds the writer thread for ever, where the standard
    library's [write_all] gives up. *)
Theorem write_all_bytes_ends accept call buf :
  ((∀ n, accept n ≠ Some 0%nat) → ∀ fuel, (length buf ≤ fuel)%nat →
     ∃ ok written, write_all_bytes fuel accept call buf = Some (ok, written) ∧ written `prefix_of` buf ∧
       (ok = true → written = buf)) ∧
  ((∀ n, accept n = Some 0%nat) → buf ≠ [] → ∀ fuel, write_all_bytes fuel accept call buf = None).
Proof.
  split.
  - intros Hp fuel. revert call buf. induction fuel as [|fuel IH]; intros call buf Hlen.
    { destruct buf; [|cbn in Hlen; lia]. by exists true, []. }
    destruct buf as [|b buf]; [by exists true, []|]. cbn [write_all_bytes].
    destruct (accept call) as [[|n]|] eqn:Ea; [by apply Hp in Ea| |].
    + destruct (IH (S call) (drop (S n) (b :: buf))) as (ok & w & -> & Hw & Hok).
      { cbn [drop]. rewrite length_drop. cbn in Hlen. lia. }
      exists ok, (take (S n) (b :: buf) ++ w). split; [done|]. rewrite <- (take_drop (S n) (b :: buf)) at 2 4.
      split; [by apply prefix_app|]. intros Hk. by rewrite Hok.
    + exists false, []. split; [done|]. split; [apply prefix_nil|done].
  - intros Hs Hne fuel. revert call. induction fuel as [|fuel IH]; intros call; destruct buf as [|b buf]; try done.
    cbn [write_all_bytes]. rewrite Hs. change (drop 0 (b :: buf)) with (b :: buf). by rewrite IH.
Qed.

(** ** Witnesses *)
Section Witnesses.
#[local] Existing Instances binary_uuid list_hash.

(** A supervisor that notes which panes closed. *)
Definition noting : SupervisorWorker (list Z) := {|
  register_worker _ _ _ _ _ _ := ret true;
  block_event _ := ret tt;
  pane_closed _ slot := modify (λ l, l ++ [slot]);
  pane_state_changed _ _ _ := ret tt;
  heartbeat _ _ := ret tt |}.
#[local] Existing Instance noting.
#[local] Instance as_is : UnicodeLower := PaneTracker.all_ascii_lower.

Definition a_shell (slot : Z) : Os := MkOs (λ _, Ok (100 + slot)) None 0 0 true.
Definition a_life : list WorkerOp :=
  [WOpen (a_shell 0) 0 "" "/home" 100 30; WOpen (a_shell 1) 1 "/bin/zsh" "/tmp" 0 0; WResize None 0 90 20;
   WOpen (a_shell 2) 2 "" "" 80 24; WEof true 1; WCrash a_shell; WClose true 2; WOpen (a_shell 3) 3 "" "/x" 80 24].

End Witnesses.
