(* ===== verification/Supervisor.v ===== *)
(** * Supervisor: the state of the supervisor and what workers tell it

    The in-memory state of pyred/src/supervisor.rs (the worker registry with its
    pane index, the windows, the event bus, the queues) and the four callbacks of
    [SupervisorWorkerImpl], which make it an instance of the interface the workers
    are written against. The store is the one of the single process. *)
From Stdlib Require Import Strings.Byte.
From S2P Require Import Prelude Proto Text Layout Libraries Effects EventBus Store Registry.
From S2P Require Import BlockIndex WorkerRegistry Worker.
Local Open Scope Z_scope.

Module Supervisor.

Record WorkerHandle := MkWorkerHandle {
  wh_pid : Z;
  wh_sock_path : string;
  wh_stream_sock : string;
  wh_last_heartbeat : Z }.

Record WindowMeta := MkWindowMeta {
  wm_session_id : string;
  wm_name : string;
  wm_position : Z;
  wm_layout : option LayoutNode }.

Definition meta_name (n : string) (m : WindowMeta) : WindowMeta :=
  MkWindowMeta (wm_session_id m) n (wm_position m) (wm_layout m).
Definition meta_layout (l : option LayoutNode) (m : WindowMeta) : WindowMeta :=
  MkWindowMeta (wm_session_id m) (wm_name m) (wm_position m) l.

(** The worker registry. *)
Record Workers := MkWorkers { wr_inner : gmap string WorkerHandle; wr_panes : PaneIndex.PaneIndex }.

(** The windows: metadata, order in each session, and the window of each pane. *)
Record Windows := MkWindows {
  window_store : gmap WindowId WindowMeta;
  session_windows : gmap string (list WindowId);
  pane_window_map : gmap PaneId WindowId }.

(** What goes through channels: block events to the batcher, panes whose blocks it
    is to finalize, focus requests; the sessions whose registration is awaited. *)
Record Queues := MkQueues {
  q_events : list RawEvent;
  q_finalize : list (string * Z);
  q_focus : list PaneId;
  q_pending : gset string }.

Record Sup := MkSup {
  su_workers : Workers;
  su_windows : Windows;
  su_queues : Queues;
  su_bus : PaneEventBus.PaneEventBus;
  su_log : list PaneEvent;               (** history: every event emitted *)
  su_store : Store.St;
  su_index : BlockIndex.Index;
  su_snapshots : gmap Uuid Bytes;        (** the last snapshot of each mirror hub *)
  su_spawn_cwds : gmap string PathBuf }.

Definition set_workers (f : Workers → Workers) (s : Sup) : Sup :=
  MkSup (f (su_workers s)) (su_windows s) (su_queues s) (su_bus s) (su_log s) (su_store s) (su_index s)
    (su_snapshots s) (su_spawn_cwds s).
Definition set_windows (f : Windows → Windows) (s : Sup) : Sup :=
  MkSup (su_workers s) (f (su_windows s)) (su_queues s) (su_bus s) (su_log s) (su_store s) (su_index s)
    (su_snapshots s) (su_spawn_cwds s).
Definition set_queues (f : Queues → Queues) (s : Sup) : Sup :=
  MkSup (su_workers s) (su_windows s) (f (su_queues s)) (su_bus s) (su_log s) (su_store s) (su_index s)
    (su_snapshots s) (su_spawn_cwds s).
Definition set_store (st : Store.St) (s : Sup) : Sup :=
  MkSup (su_workers s) (su_windows s) (su_queues s) (su_bus s) (su_log s) st (su_index s)
    (su_snapshots s) (su_spawn_cwds s).
Definition set_cwds (f : gmap string PathBuf → gmap string PathBuf) (s : Sup) : Sup :=
  MkSup (su_workers s) (su_windows s) (su_queues s) (su_bus s) (su_log s) (su_store s) (su_index s)
    (su_snapshots s) (f (su_spawn_cwds s)).

Definition on_store (f : gmap WindowId WindowMeta → gmap WindowId WindowMeta) (w : Windows) : Windows :=
  MkWindows (f (window_store w)) (session_windows w) (pane_window_map w).
Definition on_session (f : gmap string (list WindowId) → gmap string (list WindowId)) (w : Windows) : Windows :=
  MkWindows (window_store w) (f (session_windows w)) (pane_window_map w).
Definition on_pane_window (f : gmap PaneId WindowId → gmap PaneId WindowId) (w : Windows) : Windows :=
  MkWindows (window_store w) (session_windows w) (f (pane_window_map w)).
Definition on_pending (f : gset string → gset string) (q : Queues) : Queues :=
  MkQueues (q_events q) (q_finalize q) (q_focus q) (f (q_pending q)).

Definition FINALIZE_CAP : nat := 256.

Section Supervisor.
Context `{UuidText, LayoutJson, SqlOrder, Zstd, ChronoRange, HashOrder}.
Context (env : Store.Env).

Definition SM (E A : Type) : Type := M Sup E A.

(** *** The store, the clock and the identifiers *)
Definition store_call {A} (m : Store.S A) : SM Store.StoreError A := zoom su_store set_store (λ e, e) m.
(** The outcome of a call whose error is only logged. *)
Definition log_store {E A} (m : Store.S A) : SM E (option A) :=
  λ s, let '(s', r) := store_call m s in (s', Ok (match r with Ok a => Some a | Err _ => None end)).
Definition fresh_uuid {E} : SM E Uuid :=
  λ s, (set_store (Store.new_uuid env (su_store s)).1 s, Ok (Store.env_uuid env (Store.st_uuids (su_store s)))).
Definition utc_now {E} : SM E DateTime :=
  λ s, (set_store (Store.now env (su_store s)).1 s, Ok (Store.env_clock env (Store.st_clocks (su_store s)))).

Definition modify_workers {E} (f : Workers → Workers) : SM E unit := modify (set_workers f).
Definition modify_panes {E} (f : PaneIndex.PaneIndex → PaneIndex.PaneIndex) : SM E unit :=
  modify_workers (λ w, MkWorkers (wr_inner w) (f (wr_panes w))).
Definition modify_windows {E} (f : Windows → Windows) : SM E unit := modify (set_windows f).
Definition panes_of (s : Sup) : PaneIndex.PaneIndex := wr_panes (su_workers s).

(** *** [PaneEventBus::emit] *)
Definition emit {E} (pane : PaneId) (kind : PaneEventKind) (state : option PaneStateKind) : SM E unit :=
  modify (λ s, let '(bus, ev) := PaneEventBus.emit pane kind state (su_bus s) in
    MkSup (su_workers s) (su_windows s) (su_queues s) bus (su_log s ++ [ev]) (su_store s) (su_index s)
      (su_snapshots s) (su_spawn_cwds s)).

(** *** [WorkerRegistry] *)
Definition insert {E} (session_id : string) (h : WorkerHandle) : SM E unit :=
  modify_workers (λ w, MkWorkers (<[session_id := h]> (wr_inner w)) (wr_panes w)).

Definition remove {E} (session_id : string) : SM E (option WorkerHandle) :=
  do! modify_panes (PaneIndex.remove_session session_id) in
  let! h := gets (λ s, wr_inner (su_workers s) !! session_id) in
  do! modify_workers (λ w, MkWorkers (delete session_id (wr_inner w)) (wr_panes w)) in
  ret h.

Definition touch (instant : Z) (h : WorkerHandle) : WorkerHandle :=
  MkWorkerHandle (wh_pid h) (wh_sock_path h) (wh_stream_sock h) instant.
Definition touch_heartbeat {E} (instant : Z) (session_id : string) : SM E unit :=
  modify_workers (λ w, MkWorkers (alter (touch instant) session_id (wr_inner w)) (wr_panes w)).

Definition alloc_pane {E} (session_id : string) : SM E (Uuid * Z) :=
  let! slot := gets (λ s, (PaneIndex.next_slot session_id (panes_of s)).1) in
  do! modify_panes (λ ix, (PaneIndex.next_slot session_id ix).2) in
  let! pane_id := fresh_uuid in
  do! modify_panes (PaneIndex.register pane_id session_id slot) in
  ret (pane_id, slot).

Definition get_or_alloc_pane_by_slot {E} (session_id : string) (slot : Z) : SM E (option Uuid) :=
  let! panes := gets panes_of in
  match PaneIndex.pane_id_by_slot session_id slot panes with
  | Some pane_id => ret (Some pane_id)
  | None =>
      if PaneIndex.is_dead session_id slot panes then ret None
      else
        let! pane_id := fresh_uuid in
        do! modify_panes (PaneIndex.register pane_id session_id slot) in
        ret (Some pane_id)
  end.

Definition lookup_pane (pane : PaneId) (s : Sup) : option (string * Z) :=
  PaneIndex.lookup_pane (pane_uuid pane) (panes_of s).
Definition get_stream_sock (session_id : string) (s : Sup) : option string :=
  wh_stream_sock <$> wr_inner (su_workers s) !! session_id.
Definition get_ctrl_client (session_id : string) (s : Sup) : option WorkerHandle :=
  wr_inner (su_workers s) !! session_id.

(** [Instant::elapsed] saturates. *)
Definition stale_sessions (instant timeout : Z) (s : Sup) : list string :=
  fst <$> filter (λ kv, timeout < Z.max 0 (instant - wh_last_heartbeat kv.2))
            (hash_order (map_to_list (wr_inner (su_workers s)))).

Definition remove_pane_slot {E} (session_id : string) (slot : Z) : SM E nat :=
  let! r := gets (λ s, PaneIndex.remove_pane_slot session_id slot (panes_of s)) in
  do! modify_panes (λ _, r.2) in
  ret r.1.

Definition session_for_pid (pid : Z) (s : Sup) : option string :=
  fst <$> find_first (λ kv, wh_pid kv.2 =? pid) (hash_order (map_to_list (wr_inner (su_workers s)))).

(** *** Layouts *)

(** Taking a pane out of the tree of a window, if the window has one; what is then
    to be persisted. *)
Definition close_leaf {E} (window : option WindowId) (pane : PaneId) : SM E (option (WindowId * string)) :=
  match window with
  | None => ret None
  | Some wid =>
      let! found := gets (λ s, window_store (su_windows s) !! wid ≫= wm_layout) in
      match found with
      | None => ret None
      | Some tree =>
          let tree' := (close tree pane).2 in
          do! modify_windows (on_store (alter (meta_layout (Some tree')) wid)) in
          ret (Some (wid, layout_to_json tree'))
      end
  end.
(** Persist, then announce. *)
Definition persist_layout {E} (pane : PaneId) (p : option (WindowId * string)) : SM E unit :=
  match p with
  | None => ret tt
  | Some (wid, json) =>
      do! log_store (Store.upsert_window_layout env wid json) in
      emit pane LayoutChanged None
  end.

(** ** The callbacks ([SupervisorWorkerImpl]) *)
Definition sv_register_worker (instant : Z) (dialled : bool) (session_id : string) (pid : Z)
    (sock_path stream_sock_path : string) : SM RpcError bool :=
  if dialled then
    do! insert session_id (MkWorkerHandle pid sock_path stream_sock_path instant) in
    do! modify (set_queues (on_pending (λ p, p ∖ {[session_id]}))) in
    ret true
  else throw (Internal "connect worker ctrl").

Definition sv_block_event (ev : RawEvent) : SM RpcError unit :=
  modify (set_queues (λ q, MkQueues (q_events q ++ [ev]) (q_finalize q) (q_focus q) (q_pending q))).

(** [try_send]: dropped when the channel is full. *)
Definition send_finalize {E} (key : string * Z) : SM E unit :=
  modify (set_queues (λ q,
    if (length (q_finalize q) <? FINALIZE_CAP)%nat
    then MkQueues (q_events q) (q_finalize q ++ [key]) (q_focus q) (q_pending q) else q)).

Definition sv_pane_closed (session_id : string) (slot : Z) : SM RpcError unit :=
  let! pane := get_or_alloc_pane_by_slot session_id slot in
  let! remaining := remove_pane_slot session_id slot in
  do! (if (remaining =? 0)%nat then remove session_id else ret None) in
  do! match pane with
      | None => ret tt
      | Some uuid =>
          let pane_id := MkPaneId uuid in
          let! window := gets (λ s, pane_window_map (su_windows s) !! pane_id) in
          do! modify_windows (on_pane_window (delete pane_id)) in
          let! persist := close_leaf window pane_id in
          do! persist_layout pane_id persist in
          emit pane_id Closed None
      end in
  send_finalize (session_id, slot).

Definition sv_pane_state_changed (session_id : string) (slot : Z) (state : PaneStateKind) : SM RpcError unit :=
  let! pane := get_or_alloc_pane_by_slot session_id slot in
  match pane with
  | None => ret tt
  | Some uuid => emit (MkPaneId uuid) StateChanged (Some state)
  end.

Definition sv_heartbeat (instant : Z) (session_id : string) : SM RpcError unit :=
  touch_heartbeat instant session_id.

End Supervisor.

Definition supervisor_worker `{UuidText, LayoutJson, SqlOrder, Zstd, ChronoRange, HashOrder}
    (env : Store.Env) : SupervisorWorker Sup := {|
  register_worker := sv_register_worker;
  block_event := sv_block_event;
  pane_closed := sv_pane_closed env;
  pane_state_changed := sv_pane_state_changed env;
  heartbeat := sv_heartbeat |}.

End Supervisor.
