(* ===== verification/SupervisorRpc.v ===== *)
(** * SupervisorRpc: the remote procedures of the multi-process mode

    The second implementation of the [PyreDaemon] service, [SupervisorImpl] of
    pyred/src/supervisor.rs. Its state is the supervisor together with the worker
    processes and the shards on disk: a call to a worker runs the worker's handler
    on all three, so that what the worker reports back to the supervisor during the
    call happens within it. [message] is the text of a failed call. *)
From Stdlib Require Import Strings.Byte.
From S2P Require Import Prelude Proto Text Layout Libraries Effects EventBus GitStatus PaneTracker.
From S2P Require Import Store Registry BlockIndex Capture Inspect Server WorkerRegistry Worker Supervisor.
Local Open Scope Z_scope.

Module Rpc.
Import Supervisor.

Record Hy := MkHy {
  hy_sup : Sup;
  hy_procs : gmap Z Worker.Worker;         (** the worker processes, by pid *)
  hy_disk : gmap string Worker.Shard;      (** the shards, by session *)
  hy_spawned : list string }.              (** sessions a process was spawned for and that did not start yet *)

Inductive CtrlError := Transport | Rpc (e : RpcError).

(** The answers of the system while a worker starts; [st_pid] is its pid. *)
Record StartOs := MkStartOs {
  st_pid : Z;
  st_sql : bool;
  st_os : Z → Worker.Os;
  st_instant : Z;
  st_dialled : bool }.

(** How the wait for a registration ends. *)
Inductive Registration := Started (st : StartOs) | ChannelClosed | TimedOut.

(** The directory of the sockets, with $XDG_RUNTIME_DIR and the user id. *)
Definition runtime_dir (xdg : option string) (uid : Z) : string :=
  match xdg with Some rt => rt | None => "/tmp/pyre-" +:+ bytes_str (show_uint uid) end.
Definition pyre_dir (rt : string) : string := Store.path_join rt "pyre".
Definition worker_sock (rt session : string) : string :=
  Store.path_join (pyre_dir rt) ("session-" +:+ session +:+ ".sock").

Section Rpc.
Context `{UuidText, LayoutJson, SqlOrder, Zstd, ChronoRange, HashOrder, UnicodeLower, BlockIndex.Tantivy}.
Context (env : Store.Env) (rt : string).
Context (message : CtrlError → string) (store_message : Store.StoreError → string)
  (index_message : BlockIndex.IndexError → string).

#[local] Hint Extern 0 (SupervisorWorker Sup) => exact (supervisor_worker env) : typeclass_instances.

Definition HM (E A : Type) : Type := M Hy E A.

Definition set_sup (x : Sup) (s : Hy) : Hy := MkHy x (hy_procs s) (hy_disk s) (hy_spawned s).
Definition set_spawned (f : list string → list string) (s : Hy) : Hy :=
  MkHy (hy_sup s) (hy_procs s) (hy_disk s) (f (hy_spawned s)).
Definition sup {E A} (m : SM E A) : HM E A := zoom hy_sup set_sup (λ e, e) m.
Definition gets_sup {E A} (f : Sup → A) : HM E A := gets (λ s, f (hy_sup s)).
Definition store {A} (m : Store.S A) : HM PyreError A :=
  zoom hy_sup set_sup (λ e, Io (store_message e)) (store_call m).
Definition log {E A} (m : Store.S A) : HM E (option A) := sup (log_store m).

(** *** Calls to a worker *)
Definition run_worker {E A} (pid : Z) (m : Worker.W (Up := Sup) E A) (w : Worker.Worker) (s : Hy) : Hy * result E A :=
  let sid := Worker.wk_session_id w in
  let '(w', r) := m (Worker.MkWorld w (default ∅ (hy_disk s !! sid)) (hy_sup s)) in
  (MkHy (Worker.wd_up w') (<[pid := Worker.wd_worker w']> (hy_procs s))
     (<[sid := Worker.wd_shard w']> (hy_disk s)) (hy_spawned s), r).

Definition call {A} (h : WorkerHandle) (m : Worker.W (Up := Sup) RpcError A) : HM CtrlError A :=
  λ s, match hy_procs s !! wh_pid h with
       | None => (s, Err Transport)
       | Some w => let '(s', r) := run_worker (wh_pid h) m w s in (s', result_map_err Rpc r)
       end.

(** With the error as the two [map_err] turn it. *)
Definition call_io {A} (h : WorkerHandle) (m : Worker.W (Up := Sup) RpcError A) : HM PyreError A :=
  zoom (λ s, s) (λ s _, s) (λ e, Io (message e)) (call h m).
Definition call_spawn {A} (h : WorkerHandle) (m : Worker.W (Up := Sup) RpcError A) : HM PyreError A :=
  zoom (λ s, s) (λ s _, s) (λ e, SpawnFailed (message e)) (call h m).
(** [Ok(Ok(a)) => a, _ => None] *)
Definition call_opt {E A} (h : WorkerHandle) (m : Worker.W (Up := Sup) RpcError A) : HM E (option A) :=
  λ s, let '(s', r) := call h m s in (s', Ok (match r with Ok a => Some a | Err _ => None end)).

(** The worker of a pane and its slot. *)
Definition route (pane : PaneId) : HM PyreError (Z * WorkerHandle) :=
  let! found := gets_sup (lookup_pane pane) in
  let! ss := expect found (NoSuchPane pane) in
  let! client := gets_sup (get_ctrl_client ss.1) in
  let! h := expect client (NoSuchPane pane) in
  ret (ss.2, h).

Definition session_str (s : SessionId) : string := uuid_to_string (session_uuid s).

(** *** Worker processes *)

(** [failed]: why the process could not be spawned. *)
Definition spawn_worker (failed : option string) (session : string) : HM string unit :=
  match failed with
  | Some e => throw e
  | None => modify (set_spawned (λ l, l ++ [session]))
  end.

Fixpoint remove_once (x : string) (l : list string) : list string :=
  match l with [] => [] | y :: l' => if decide (y = x) then l' else y :: remove_once x l' end.

(** A spawned process opens (or creates) its shard, starts, and registers. *)
Definition start_worker {E} (st : StartOs) (session : string) : HM E unit :=
  λ s, let s0 := set_spawned (remove_once session) s in
       let '(s', _) := run_worker (st_pid st)
         (Worker.start (st_sql st) (st_os st) (st_instant st) (st_dialled st) (st_pid st)
            (worker_sock rt session) (pyre_dir rt)) (Worker.new_worker session) s0 in
       (s', Ok tt).

Definition await_registration (r : Registration) (session : string) : HM PyreError unit :=
  match r with
  | ChannelClosed => throw (SpawnFailed "worker registration channel closed")
  | TimedOut => ret tt
  | Started st => start_worker st session
  end.

Definition push_window (session : string) (w : WindowId) (m : gmap string (list WindowId)) :
    gmap string (list WindowId) := <[session := default [] (m !! session) ++ [w]]> m.

Definition spawn (spawn_failed : option string) (r : Registration) (os : Worker.Os) (req : SpawnReq) :
    HM PyreError SpawnResp :=
  let! session_uuid := sup (fresh_uuid env) in
  let session := uuid_to_string session_uuid in
  let sid := MkSessionId session_uuid in
  do! log (Store.upsert_session env sid (default session (sp_name req))) in
  let! ps := sup (alloc_pane env session) in
  let '(pane_uuid, slot) := ps in
  do! sup (modify (set_queues (on_pending (λ p, {[session]} ∪ p)))) in
  do! (λ s, match spawn_worker spawn_failed session s with
            | (s', Ok _) => (s', Ok tt)
            | (s', Err e) =>
                ((sup (E := PyreError) (modify (set_queues (on_pending (λ p, p ∖ {[session]})))) s').1,
                 Err (SpawnFailed e))
            end) in
  do! await_registration r session in
  let! pending := gets_sup (λ x, q_pending (su_queues x)) in
  do! (if decide (session ∈ pending) then
         do! sup (modify (set_queues (on_pending (λ p, p ∖ {[session]})))) in
         throw (SpawnFailed ("worker for session " +:+ session +:+ " did not register within 5 s"))
       else ret tt) in
  let shell := default "" (sp_shell req) in
  let cwd := default "" (sp_cwd req) in
  let! client := gets_sup (get_ctrl_client session) in
  let! h := expect client (SpawnFailed "worker deregistered immediately after registration") in
  do! call_spawn h (Worker.ctrl_open_pane os slot shell cwd (sp_cols req) (sp_rows req)) in
  do! sup (modify (set_cwds (λ m, match sp_cwd req with Some p => <[session := p]> m | None => m end))) in
  let pane := MkPaneId pane_uuid in
  let! w := sup (fresh_uuid env) in
  let default_window := MkWindowId w in
  let! t := sup (utc_now env) in
  do! log (Store.upsert_window env default_window sid "1" 0 (timestamp_millis t)) in
  do! log (Store.assign_pane_window env pane sid default_window) in
  do! sup (modify_windows (on_store <[default_window := MkWindowMeta session "1" 0 (Some (Leaf pane))]>)) in
  do! sup (modify_windows (on_session (push_window session default_window))) in
  do! sup (modify_windows (on_pane_window <[pane := default_window]>)) in
  do! sup (emit pane Spawned (Some Running)) in
  ret (MkSpawnResp sid pane default_window).

Definition attach (session : SessionId) : HM PyreError AttachAck :=
  let! client := gets_sup (get_ctrl_client (session_str session)) in
  let! h := expect client (NoSuchSession session) in
  let! u := sup (fresh_uuid env) in
  do! call_io h (Worker.ctrl_attach_pane 0 (uuid_to_string u)) in
  ret (MkAttachAck session 80 24).

Definition detach (session : SessionId) : HM PyreError unit := ret tt.

Definition kill (session : SessionId) : HM PyreError unit :=
  let! handle := sup (remove (session_str session)) in
  match handle with
  | Some h => call_io h (Worker.shutdown 5)
  | None => ret tt
  end.

(** *** Blocks *)
Definition list_blocks (req : ListBlocksReq) : HM PyreError (list Block) :=
  store (Store.list_blocks env (lb_session req) (lb_limit req)).

Fixpoint fetch_blocks (ids : list BlockId) : HM PyreError (list Block) :=
  match ids with
  | [] => ret []
  | id :: rest =>
      let! found := log (Store.get_block env id) in
      let! blocks := fetch_blocks rest in
      ret (match found with Some (Some b) => b :: blocks | _ => blocks end)
  end.

Definition search_blocks (reader_ok : bool) (partial : result Store.StoreError Bytes) (req : SearchBlocksReq) :
    HM PyreError (list BlockHit) :=
  let! found := gets_sup (λ x, BlockIndex.search reader_ok (sb_query req) (sb_limit req) (sb_failures_only req)
                                 (sb_session req) (sb_pane req) (sb_exit_code req) (su_index x)) in
  let! ids := of_result (result_map_err (λ e, Io (index_message e)) found) in
  let! blocks := fetch_blocks ids in
  gets_sup (λ x, Server.hits_with_snippets partial blocks 160 (su_store x)).

Definition replay (pane : PaneId) (recent_blocks : Z) : HM PyreError ReplayBlocks :=
  let! blocks := store (Store.list_blocks_for_pane env pane recent_blocks) in
  let! snapshot := gets_sup (λ x, default [] (su_snapshots x !! pane_uuid pane)) in
  ret (MkReplayBlocks blocks snapshot).

Definition get_block_stdout (partial : result Store.StoreError Bytes) (block : BlockId) : HM PyreError Bytes :=
  store (Store.read_block_stdout partial block).

Definition last_block_for_pane (pane : PaneId) : HM PyreError (option Block) :=
  let! blocks := store (Store.list_blocks_for_pane env pane 1) in ret (head blocks).

(** *** Windows *)

(** The position-0 window of a session: from memory, else from the database, else
    created; [None] when creating it failed. *)
Definition warm_window (session : string) (row : WindowId * string * Z) : Windows → Windows :=
  on_store (λ m, match m !! row.1.1 with
                 | Some _ => m
                 | None => <[row.1.1 := MkWindowMeta session row.1.2 row.2 None]> m
                 end).
Definition add_window (front : bool) (session : string) (w : WindowId) (m : gmap string (list WindowId)) :
    gmap string (list WindowId) :=
  let entry := default [] (m !! session) in
  <[session := if decide (w ∈ entry) then entry else if front then w :: entry else entry ++ [w]]> m.

Definition get_or_create_default_window {E} (session : string) (session_id : SessionId) : HM E (option WindowId) :=
  let! known := gets_sup (λ x, session_windows (su_windows x) !! session ≫= head) in
  match known with
  | Some wid => ret (Some wid)
  | None =>
      let! rows := log (Store.list_windows env session_id) in
      match rows ≫= head with
      | Some row =>
          do! sup (modify_windows (warm_window session row)) in
          do! sup (modify_windows (on_session (add_window true session row.1.1))) in
          ret (Some row.1.1)
      | None =>
          let! u := sup (fresh_uuid env) in
          let wid := MkWindowId u in
          let! t := sup (utc_now env) in
          let! done := log (Store.upsert_window env wid session_id "1" 0 (timestamp_millis t)) in
          match done with
          | None => ret None
          | Some _ =>
              do! sup (modify_windows (on_store <[wid := MkWindowMeta session "1" 0 None]>)) in
              do! sup (modify_windows (on_session (push_window session wid))) in
              ret (Some wid)
          end
      end
  end.

(** [get_or_create_default_window(..).unwrap_or_else(WindowId::new)] *)
Definition default_window_or_new {E} (session : string) (session_id : SessionId) : HM E WindowId :=
  let! w := get_or_create_default_window session session_id in
  match w with
  | Some wid => ret wid
  | None => let! u := sup (fresh_uuid env) in ret (MkWindowId u)
  end.

(** *** Listings *)

(** The registered workers whose session is a UUID, in the order of the map. *)
Definition snapshot (x : Sup) : list (string * Uuid * WorkerHandle) :=
  omap (λ kv, (λ u, (kv.1, u, kv.2)) <$> uuid_parse kv.1) (hash_order (map_to_list (wr_inner (su_workers x)))).

Fixpoint list_sessions_loop (l : list (string * Uuid * WorkerHandle)) : HM PyreError (list SessionInfo) :=
  match l with
  | [] => ret []
  | (session, u, h) :: rest =>
      let sid := MkSessionId u in
      let! slots := call_opt h Worker.ctrl_list_panes in
      let pane_count := match slots with Some l => wrap_u32 (Z.of_nat (length l)) | None => 0 end in
      let! found := log (Store.get_session_name env sid) in
      let name := default session (Store.nonempty (mjoin found)) in
      let! created := sup (utc_now env) in
      let! active := sup (utc_now env) in
      let! infos := list_sessions_loop rest in
      ret (MkSessionInfo sid name pane_count created active :: infos)
  end.
Definition list_sessions : HM PyreError (list SessionInfo) :=
  let! l := gets_sup snapshot in list_sessions_loop l.

(** What the supervisor lays over the worker's answer. *)
Definition with_identity (pane : PaneId) (session : SessionId) (name : option string) (p : PaneInfo) : PaneInfo :=
  MkPaneInfo pane session (pi_window p) (pi_cols p) (pi_rows p) (pi_shell p) (pi_created_at p) (pi_closed_at p)
    (pi_state p) (pi_state_reason p) (pi_last_activity p) (pi_foreground_cmd p) (pi_root_pid p) (pi_agent p)
    (pi_seen p) (match name with Some n => Some n | None => pi_name p end).
Definition with_window (w : WindowId) (p : PaneInfo) : PaneInfo :=
  MkPaneInfo (pi_id p) (pi_session p) w (pi_cols p) (pi_rows p) (pi_shell p) (pi_created_at p) (pi_closed_at p)
    (pi_state p) (pi_state_reason p) (pi_last_activity p) (pi_foreground_cmd p) (pi_root_pid p) (pi_agent p)
    (pi_seen p) (pi_name p).

(** The pane in a slot, by its stable identity and with its stored name; [None] when
    the slot is dead or the worker does not know it. *)
Definition pane_row (now instant : Z) (session : string) (sid : SessionId) (h : WorkerHandle) (slot : Z) :
    HM PyreError (option PaneInfo) :=
  let! found := sup (get_or_alloc_pane_by_slot env session slot) in
  match found with
  | None => ret None
  | Some pane_uuid =>
      let! info := call_opt h (Worker.ctrl_get_pane_info now instant slot) in
      match info with
      | None => ret None
      | Some info =>
          let! name := log (Store.get_pane_name env (MkPaneId pane_uuid)) in
          ret (Some (with_identity (MkPaneId pane_uuid) sid (mjoin name) info))
      end
  end.

(** The window of a listed pane: the one it is known to be in, else the default
    window of its session. *)
Definition assigned_window (session : string) (sid : SessionId) (pane : PaneId) : HM PyreError WindowId :=
  let! assigned := gets_sup (λ x, pane_window_map (su_windows x) !! pane) in
  match assigned with
  | Some wid => ret wid
  | None =>
      let! w := get_or_create_default_window session sid in
      match w with
      | Some wid =>
          do! log (Store.assign_pane_window env pane sid wid) in
          do! sup (modify_windows (on_pane_window <[pane := wid]>)) in
          ret wid
      | None => ret (MkWindowId 0)
      end
  end.

Fixpoint list_panes_loop (now instant : Z) (session : string) (sid : SessionId) (h : WorkerHandle)
    (slots : list Z) : HM PyreError (list PaneInfo) :=
  match slots with
  | [] => ret []
  | slot :: rest =>
      let! row := pane_row now instant session sid h slot in
      match row with
      | None => list_panes_loop now instant session sid h rest
      | Some info =>
          let! wid := assigned_window session sid (pi_id info) in
          let! infos := list_panes_loop now instant session sid h rest in
          ret (with_window wid info :: infos)
      end
  end.
Definition list_panes (now instant : Z) (sid : SessionId) : HM PyreError (list PaneInfo) :=
  let session := session_str sid in
  let! client := gets_sup (get_ctrl_client session) in
  let! h := expect client (NoSuchSession sid) in
  let! slots := call_io h Worker.ctrl_list_panes in
  list_panes_loop now instant session sid h slots.

Fixpoint rows_of_worker (now instant : Z) (session : string) (sid : SessionId) (h : WorkerHandle)
    (slots : list Z) : HM PyreError (list PaneInfo) :=
  match slots with
  | [] => ret []
  | slot :: rest =>
      let! row := pane_row now instant session sid h slot in
      let! infos := rows_of_worker now instant session sid h rest in
      ret (match row with Some info => info :: infos | None => infos end)
  end.
Fixpoint list_all_loop (now instant : Z) (l : list (string * Uuid * WorkerHandle)) : HM PyreError (list PaneInfo) :=
  match l with
  | [] => ret []
  | (session, u, h) :: rest =>
      let! slots := call_opt h Worker.ctrl_list_panes in
      let! infos := rows_of_worker now instant session (MkSessionId u) h (default [] slots) in
      let! more := list_all_loop now instant rest in
      ret (infos ++ more)
  end.
Definition list_all_panes (now instant : Z) : HM PyreError (list PaneInfo) :=
  let! l := gets_sup snapshot in list_all_loop now instant l.

(** Polling until the deadline: [clock] gives the instant of each round (in
    milliseconds) and [between] what happens to the system while it sleeps. [None]
    when the fuel runs out first. *)
Fixpoint wait_loop (fuel : nat) (clock : nat → Z) (between : nat → Hy → Hy) (round : nat) (deadline : Z)
    (pane : PaneId) (state : PaneStateKind) (s : Hy) : option (Hy * result PyreError bool) :=
  match fuel with
  | O => None
  | S fuel' =>
      if deadline <=? clock round then Some (s, Ok false)
      else
        let '(s', r) := list_all_panes (clock round) (clock round) s in
        match r with
        | Err e => Some (s', Err e)
        | Ok panes =>
            match find_first (λ p, bool_decide (pi_id p = pane)) panes with
            | Some p => if decide (pi_state p = state) then Some (s', Ok true)
                        else wait_loop fuel' clock between (S round) deadline pane state (between round s')
            | None => wait_loop fuel' clock between (S round) deadline pane state (between round s')
            end
        end
  end.
Definition wait_pane_state (fuel : nat) (clock : nat → Z) (between : nat → Hy → Hy) (pane : PaneId)
    (state : PaneStateKind) (timeout_ms : Z) (s : Hy) : option (Hy * result PyreError bool) :=
  wait_loop fuel clock between 0 (clock 0%nat + Z.max timeout_ms 1) pane state s.

(** *** Panes *)
Definition open_pane (os : Worker.Os) (req : OpenPaneReq) : HM PyreError PaneId :=
  let session := session_str (op_session req) in
  let! client := gets_sup (get_ctrl_client session) in
  let! h := expect client (NoSuchSession (op_session req)) in
  let! ps := sup (alloc_pane env session) in
  let '(pane_uuid, slot) := ps in
  do! call_io h (Worker.ctrl_open_pane os slot (default "" (op_shell req)) (default "" (op_cwd req))
                   (op_cols req) (op_rows req)) in
  let pane := MkPaneId pane_uuid in
  let! target := if decide (op_window req = MkWindowId 0) then default_window_or_new session (op_session req)
                 else ret (op_window req) in
  do! log (Store.assign_pane_window env pane (op_session req) target) in
  do! sup (modify_windows (on_pane_window <[pane := target]>)) in
  let! entry := gets_sup (λ x, default [] (session_windows (su_windows x) !! session)) in
  do! (if decide (target ∈ entry) then sup (modify_windows (on_session <[session := entry]>))
       else
         let position := wrap_u32 (Z.of_nat (length entry)) in
         do! sup (modify_windows (on_session <[session := entry ++ [target]]>)) in
         sup (modify_windows (on_store (λ m,
           match m !! target with
           | Some _ => m
           | None => <[target := MkWindowMeta session (bytes_str (show_uint (wrap_u32 (position + 1)))) position
                                   (Some (Leaf pane))]> m
           end)))) in
  do! sup (emit pane Spawned (Some Running)) in
  ret pane.

(** The worker reports the pane closed within the call; what is left of the pane in
    the window state is taken out afterwards. *)
Definition close_pane (sql : bool) (pane : PaneId) : HM PyreError unit :=
  let! sh := route pane in
  do! call_io sh.2 (Worker.ctrl_close_pane sql sh.1) in
  let! window := gets_sup (λ x, pane_window_map (su_windows x) !! pane) in
  let! persist := sup (close_leaf window pane) in
  do! sup (modify_windows (on_pane_window (delete pane))) in
  sup (persist_layout env pane persist).

Definition capture_pane (pane : PaneId) (lines : Z) : HM PyreError Bytes :=
  let! sh := route pane in call_io sh.2 (Worker.ctrl_capture_pane sh.1 lines).

Definition close_session_window (w : WindowId) : HM PyreError unit :=
  let! panes := log (Store.list_panes_for_window env w) in
  do! for_each (λ p, sup (modify_windows (on_pane_window (delete p)))) (default [] panes) in
  do! sup (modify_windows (on_store (delete w))) in
  do! log (Store.delete_window env w) in
  ret tt.
Definition close_session (sid : SessionId) : HM PyreError unit :=
  let session := session_str sid in
  let! window_ids := gets_sup (λ x, default [] (session_windows (su_windows x) !! session)) in
  let! handle := sup (remove session) in
  do! match handle with
      | Some h => do! call_opt h (Worker.shutdown 5) in ret tt
      | None => ret tt
      end in
  do! for_each close_session_window window_ids in
  sup (modify_windows (on_session (delete session))).

Definition set_pane_state (instant : Z) (window : option Z) (pane : PaneId) (state : PaneStateKind)
    (reason : string) : HM PyreError unit :=
  let! sh := route pane in call_io sh.2 (Worker.ctrl_set_pane_state instant window sh.1 state reason).

Definition mark_pane_seen (pane : PaneId) : HM PyreError unit :=
  let! sh := route pane in call_io sh.2 (Worker.ctrl_mark_pane_seen sh.1).

Definition send_keys (channel_open : bool) (pane : PaneId) (bytes : Bytes) : HM PyreError unit :=
  let! sh := route pane in call_io sh.2 (Worker.ctrl_send_keys channel_open sh.1 bytes).

Definition resize_pane (failed : option string) (req : ResizePaneReq) : HM PyreError bool :=
  let! sh := route (rz_pane_id req) in
  do! call_io sh.2 (Worker.ctrl_resize_pane failed sh.1 (ps_cols (rz_size req)) (ps_rows (rz_size req))) in
  ret true.

(** The process inspected is the worker, not the shell. *)
Definition inspect_pid (proc : Z → Inspect.Proc) (pane : PaneId) : HM PyreError Inspect.PidInspect :=
  let! found := gets_sup (lookup_pane pane) in
  let! ss := expect found (NoSuchPane pane) in
  let! client := gets_sup (get_ctrl_client ss.1) in
  let pid := match client with Some h => wh_pid h | None => 0 end in
  ret (Inspect.inspect_pid pid (proc pid)).

Definition rename_session (sid : SessionId) (name : string) : HM PyreError unit :=
  store (Store.upsert_session env sid name).
Definition rename_pane (pane : PaneId) (name : string) : HM PyreError unit :=
  let! found := gets_sup (lookup_pane pane) in
  let! ss := expect found (NoSuchPane pane) in
  let! u := expect (uuid_parse ss.1) (Io ("invalid session uuid " +:+ ss.1)) in
  store (Store.rename_pane env pane (MkSessionId u) name).

Definition request_focus (pane : PaneId) : HM PyreError bool :=
  do! sup (modify (set_queues (λ q, MkQueues (q_events q) (q_finalize q) (q_focus q ++ [pane]) (q_pending q)))) in
  ret true.
Definition take_focus_request : HM PyreError (option PaneId) :=
  let! q := gets_sup (λ x, q_focus (su_queues x)) in
  do! sup (modify (set_queues (λ q, MkQueues (q_events q) (q_finalize q) (drop 1 (q_focus q)) (q_pending q)))) in
  ret (head q).

Definition next_pane_event (after_seq : Z) (script : list EventBus.Recv) : HM PyreError (list PaneEvent) :=
  gets_sup (λ x, PaneEventBus.next_pane_event after_seq (su_bus x) script).

(** Sessions whose worker answers that it has no pane. *)
Fixpoint empty_sessions (l : list (string * WorkerHandle)) : HM PyreError (list string) :=
  match l with
  | [] => ret []
  | (session, h) :: rest =>
      let! slots := call_opt h Worker.ctrl_list_panes in
      let! out := empty_sessions rest in
      ret (match slots with Some [] => session :: out | _ => out end)
  end.
Fixpoint evict_sessions (l : list string) : HM PyreError (list string) :=
  match l with
  | [] => ret []
  | session :: rest =>
      let! handle := sup (remove session) in
      match handle with
      | None => evict_sessions rest
      | Some h =>
          λ s, let '(s', r) := call h (Worker.shutdown 5) s in
               (let! evicted := evict_sessions rest in
                ret (match r with Err Transport => evicted | _ => session :: evicted end)) s'
      end
  end.
Definition gc_stale_sessions : HM PyreError (list string) :=
  let! handles := gets_sup (λ x, hash_order (map_to_list (wr_inner (su_workers x)))) in
  let! stale := empty_sessions handles in
  evict_sessions stale.

(** *** Window procedures *)
Definition warm_rows (session : string) (rows : list (WindowId * string * Z)) (w : Windows) : Windows :=
  fold_left (λ w row, on_session (add_window false session row.1.1) (warm_window session row w)) rows
    (on_session (λ m, <[session := default [] (m !! session)]> m) w).

Fixpoint window_infos (sid : SessionId) (ids : list WindowId) : HM PyreError (list WindowInfo) :=
  match ids with
  | [] => ret []
  | wid :: rest =>
      let! found := gets_sup (λ x, window_store (su_windows x) !! wid) in
      match found with
      | None => window_infos sid rest
      | Some meta =>
          let! stored := log (Store.get_window_name env wid) in
          let name := default (wm_name meta) (Store.nonempty (mjoin stored)) in
          let! count := gets_sup (λ x,
            size (filter (λ kv : PaneId * WindowId, kv.2 = wid) (pane_window_map (su_windows x)))) in
          let! t := sup (utc_now env) in
          let! infos := window_infos sid rest in
          ret (MkWindowInfo wid sid name (wm_position meta) (wrap_u32 (Z.of_nat count)) t :: infos)
      end
  end.
Definition list_windows (sid : SessionId) : HM PyreError (list WindowInfo) :=
  let session := session_str sid in
  let! known := gets_sup (λ x, default [] (session_windows (su_windows x) !! session)) in
  let! ids :=
    match known with
    | [] =>
        let! rows := store (Store.list_windows env sid) in
        do! sup (modify_windows (warm_rows session rows)) in
        ret ((λ row, row.1.1) <$> rows)
    | _ => ret known
    end in
  window_infos sid ids.

Definition new_window (sid : SessionId) (name : option string) : HM PyreError WindowId :=
  let session := session_str sid in
  let! u := sup (fresh_uuid env) in
  let wid := MkWindowId u in
  let! known := gets_sup (λ x, session_windows (su_windows x) !! session) in
  let position := match known with Some v => wrap_u32 (Z.of_nat (length v)) | None => 0 end in
  let resolved_name := default (bytes_str (show_uint (wrap_u32 (position + 1)))) name in
  let! t := sup (utc_now env) in
  do! store (Store.upsert_window env wid sid resolved_name position (timestamp_millis t)) in
  do! sup (modify_windows (on_store <[wid := MkWindowMeta session resolved_name position None]>)) in
  do! sup (modify_windows (on_session (push_window session wid))) in
  ret wid.

Definition rename_window (window : WindowId) (name : string) : HM PyreError unit :=
  do! sup (modify_windows (on_store (alter (meta_name name) window))) in
  store (Store.rename_window env window name).

Definition close_window_pane (sql : PaneId → bool) (pane : PaneId) : HM PyreError unit :=
  let! found := gets_sup (lookup_pane pane) in
  do! match found with
      | None => ret tt
      | Some ss =>
          let! client := gets_sup (get_ctrl_client ss.1) in
          match client with
          | None => ret tt
          | Some h => do! call_opt h (Worker.ctrl_close_pane (sql pane) ss.2) in ret tt
          end
      end in
  sup (modify_windows (on_pane_window (delete pane))).
Definition close_window (sql : PaneId → bool) (window : WindowId) : HM PyreError unit :=
  let! panes := store (Store.list_panes_for_window env window) in
  do! for_each (close_window_pane sql) panes in
  let! session := gets_sup (λ x, wm_session_id <$> window_store (su_windows x) !! window) in
  do! sup (modify_windows (on_store (delete window))) in
  do! match session with
      | Some sid => sup (modify_windows (on_session (alter (filter (λ w, w ≠ window)) sid)))
      | None => ret tt
      end in
  store (Store.delete_window env window).

(** *** Layouts *)
Definition window_single_leaf_fallback (sid : SessionId) (session : string) : HM PyreError LayoutNode :=
  let! client := gets_sup (get_ctrl_client session) in
  let! h := expect client (NoSuchSession sid) in
  let! slots := call_io h Worker.ctrl_list_panes in
  let! pane :=
    match slots with
    | slot :: _ => sup (get_or_alloc_pane_by_slot env session slot)
    | [] => ret None
    end in
  match pane with
  | Some u => ret (Leaf (MkPaneId u))
  | None => throw (NoSuchSession sid)
  end.

(** Leaves whose pane is gone are closed, if any pane of the window is live. *)
Definition prune_ghosts (live : gset PaneId) (tree : LayoutNode) : LayoutNode :=
  fold_left (λ t ghost, (close t ghost).2) (filter (λ id, id ∉ live) (all_leaves tree)) tree.

Definition live_in_window (session : string) (window : WindowId) (x : Sup) : gset PaneId :=
  filter (λ p, pane_window_map (su_windows x) !! p = Some window)
    (list_to_set (PaneIndex.live_pane_ids session (panes_of x))).

Definition reconcile (session : string) (window : WindowId) (tree : LayoutNode) : HM PyreError LayoutNode :=
  let! live := gets_sup (live_in_window session window) in
  if decide (live = ∅) then ret tree
  else if decide (filter (λ id, id ∉ live) (all_leaves tree) = []) then ret tree
  else
    let tree' := prune_ghosts live tree in
    do! sup (modify_windows (on_store (alter (meta_layout (Some tree')) window))) in
    do! log (Store.upsert_window_layout env window (layout_to_json tree')) in
    ret tree'.

Definition get_window_layout (window : WindowId) : HM PyreError LayoutNode :=
  let! found := gets_sup (λ x, window_store (su_windows x) !! window) in
  let! meta := expect found (NoSuchSession (MkSessionId 0)) in
  let session := wm_session_id meta in
  let! u := expect (uuid_parse session) (Io ("invalid session uuid in window_store: " +:+ session)) in
  let sid := MkSessionId u in
  match wm_layout meta with
  | Some tree => reconcile session window tree
  | None =>
      let! json := log (Store.get_window_layout_json env window) in
      match mjoin json ≫= layout_from_json with
      | Some tree =>
          do! sup (modify_windows (on_store (alter (meta_layout (Some tree)) window))) in
          reconcile session window tree
      | None => window_single_leaf_fallback sid session
      end
  end.

Definition split_meta (parent new_pane : PaneId) (orient : Orient) (session : string) (m : option WindowMeta) :
    WindowMeta :=
  let meta := default (MkWindowMeta session "1" 0 (Some (Leaf parent))) m in
  let tree := default (Leaf parent) (wm_layout meta) in
  meta_layout (Some (split_focused tree parent new_pane orient)) meta.

Definition open_pane_split (os : Worker.Os) (req : Server.OpenPaneSplitReq) : HM PyreError PaneId :=
  let parent := Server.os_parent_pane req in
  let! found := gets_sup (lookup_pane parent) in
  let! ss := expect found (NoSuchPane parent) in
  let session := ss.1 in
  let! u := expect (uuid_parse session) (NoSuchPane parent) in
  let sid := MkSessionId u in
  let! client := gets_sup (get_ctrl_client session) in
  let! h := expect client (NoSuchPane parent) in
  let! ps := sup (alloc_pane env session) in
  let '(pane_uuid, slot) := ps in
  do! call_spawn h (Worker.ctrl_open_pane os slot (default "" (Server.os_cmd req)) (default "" (Server.os_cwd req)) 80 24) in
  let new_pane := MkPaneId pane_uuid in
  let! parent_window := gets_sup (λ x, pane_window_map (su_windows x) !! parent) in
  let! target := match parent_window with
                 | Some wid => ret wid
                 | None => default_window_or_new session sid
                 end in
  let! before := gets_sup (λ x, window_store (su_windows x) !! target) in
  let meta := split_meta parent new_pane (Server.os_orient req) session before in
  do! sup (modify_windows (on_store <[target := meta]>)) in
  do! log (Store.upsert_window_layout env target (from_option layout_to_json "" (wm_layout meta))) in
  do! log (Store.assign_pane_window env new_pane sid target) in
  do! sup (modify_windows (on_pane_window <[new_pane := target]>)) in
  do! sup (emit new_pane Spawned (Some Running)) in
  do! sup (emit new_pane LayoutChanged None) in
  ret new_pane.

Definition set_pane_weight (pane : PaneId) (weight : Z) : HM PyreError unit :=
  let! found := gets_sup (λ x, pane_window_map (su_windows x) !! pane) in
  let! wid := expect found (NoSuchPane pane) in
  let! tree := gets_sup (λ x, window_store (su_windows x) !! wid ≫= wm_layout) in
  let! tree := expect tree (NoSuchPane pane) in
  let tree' := set_weight tree pane weight in
  do! sup (modify_windows (on_store (alter (meta_layout (Some tree')) wid))) in
  do! store (Store.upsert_window_layout env wid (layout_to_json tree')) in
  sup (emit pane LayoutChanged None).

Definition get_session_layout (sid : SessionId) : HM PyreError LayoutNode :=
  let session := session_str sid in
  let! first := gets_sup (λ x, session_windows (su_windows x) !! session ≫= head) in
  match first with
  | Some wid => get_window_layout wid
  | None =>
      let! rows := store (Store.list_windows env sid) in
      match head rows with
      | Some row =>
          do! sup (modify_windows (warm_window session row)) in
          do! sup (modify_windows (on_session (add_window false session row.1.1))) in
          get_window_layout row.1.1
      | None => window_single_leaf_fallback sid session
      end
  end.

(** [cwd]: the link /proc/pid/cwd of a process; [git]: git run in a directory. *)
Definition git_status (cwd : Z → option string) (git : PathBuf → option (bool * Bytes)) (sid : SessionId) :
    HM PyreError (option GitInfo) :=
  let session := session_str sid in
  let! client := gets_sup (get_ctrl_client session) in
  let! live :=
    match client with
    | None => ret None
    | Some h =>
        let! slots := call_opt h Worker.ctrl_list_panes in
        match slots ≫= head with
        | None => ret None
        | Some slot => let! r := call_opt h (Worker.ctrl_pane_cwd cwd slot) in ret (mjoin r)
        end
    end in
  let! spawned := gets_sup (λ x, su_spawn_cwds x !! session) in
  ret (dir ← match live with Some p => Some p | None => spawned end; git_info (git dir) dir).

End Rpc.
End Rpc.
