(* ===== verification/Hybrid.v ===== *)
(** * Hybrid: the multi-process daemon as a system of processes

    What happens besides requests: workers start, die and are replaced (the SIGCHLD
    handler, the heartbeat monitor), shells print and exit, and at boot the sessions
    of an earlier run are attached again or their shards removed (pyred/src/
    supervisor.rs and shard.rs). A [Label] is one such step or one request; [step]
    runs it. *)
From Stdlib Require Import Strings.Byte.
From S2P Require Import Prelude Proto Text Layout Libraries Effects EventBus PaneTracker.
From S2P Require Import Store StoreBlocks Registry RegistryInv BlockIndex Server WorkerRegistry Worker Supervisor SupervisorRpc.
Local Open Scope Z_scope.

Module Hybrid.
Import Supervisor Rpc.

Definition HEARTBEAT_TIMEOUT : Z := 15 * 1000000000.

Section Hybrid.
Context `{UuidText, LayoutJson, SqlOrder, Zstd, ChronoRange, HashOrder, UnicodeLower, BlockIndex.Tantivy}.
Context (env : Store.Env) (rt : string).
Context (message : CtrlError → string) (store_message : Store.StoreError → string)
  (index_message : BlockIndex.IndexError → string).

#[local] Hint Extern 0 (SupervisorWorker Sup) => exact (supervisor_worker env) : typeclass_instances.

(** [if let Err(e) = spawn_worker { error }] *)
Definition respawn (failed : string → option string) (session : string) : HM string unit :=
  attempt (spawn_worker (failed session) session).

(** *** The heartbeat monitor: one round *)
Definition heartbeat_monitor (failed : string → option string) (instant : Z) : HM string unit :=
  let! stale := gets_sup (stale_sessions instant HEARTBEAT_TIMEOUT) in
  for_each (λ session, do! sup (remove session) in respawn failed session) stale.

(** *** The SIGCHLD handler: one child that was reaped. *)
Definition reap (failed : string → option string) (pid : Z) : HM string unit :=
  let! found := gets_sup (session_for_pid pid) in
  match found with
  | None => ret tt
  | Some session =>
      let! panes_remaining := gets_sup (λ x, PaneIndex.pane_count session (panes_of x)) in
      do! sup (remove session) in
      if (panes_remaining =? 0)%nat then ret tt else respawn failed session
  end.

(** *** Shards (shard.rs) *)

(** [readable]: the database file can be opened and its table read. *)
Definition shard_pane_count (readable : string → bool) (session : string) (s : Hy) : nat :=
  match hy_disk s !! session with
  | None => 0%nat
  | Some shard => if readable session then size shard else 0%nat
  end.
(** [rm_ok]: the directory could be removed; one that is not there is fine. *)
Definition remove_shard_dir (rm_ok : bool) (session : string) : HM string unit :=
  let! shard := gets (λ s, hy_disk s !! session) in
  match shard with
  | None => ret tt
  | Some _ =>
      if rm_ok then modify (λ s, MkHy (hy_sup s) (hy_procs s) (delete session (hy_disk s)) (hy_spawned s))
      else throw ("rm -rf " +:+ session)
  end.

(** *** Attaching the persisted sessions again (part of [run]) *)
Record BootOs := MkBootOs {
  bo_readable : string → bool;
  bo_rm_ok : string → bool;
  bo_spawn_failed : string → option string;
  bo_registration : string → Registration }.

Definition gc_stale_shard (os : BootOs) (sid : SessionId) : HM string unit :=
  let session := session_str sid in
  let! client := gets_sup (get_ctrl_client session) in
  match client with
  | Some _ => ret tt
  | None => attempt (remove_shard_dir (bo_rm_ok os session) session)
  end.

Definition reattach_session (os : BootOs) (sid : SessionId) : HM string unit :=
  let session := session_str sid in
  do! sup (modify (set_queues (on_pending (λ p, {[session]} ∪ p)))) in
  match bo_spawn_failed os session with
  | Some e => sup (modify (set_queues (on_pending (λ p, p ∖ {[session]}))))
  | None =>
      do! spawn_worker None session in
      match bo_registration os session with
      | ChannelClosed => ret tt
      | TimedOut => sup (modify (set_queues (on_pending (λ p, p ∖ {[session]}))))
      | Started st =>
          do! start_worker env rt st session in
          sup (modify (set_queues (on_pending (λ p, p ∖ {[session]}))))
      end
  end.

Definition reattach (os : BootOs) : HM string unit :=
  let! listed := log (E := string) (Store.list_session_ids env) in
  let persisted := default [] listed in
  let! s := gets (λ s, s) in
  let count sid := shard_pane_count (bo_readable os) (session_str sid) s in
  let stale := filter (λ sid, count sid = 0%nat) persisted in
  let live := filter (λ sid, count sid ≠ 0%nat) persisted in
  do! for_each (gc_stale_shard os) stale in
  for_each (reattach_session os) live.

(** ** The system *)
Inductive Label :=
  (* requests *)
  | LSpawn (failed : option string) (r : Registration) (os : Worker.Os) (req : SpawnReq)
  | LAttach (s : SessionId)
  | LKill (s : SessionId)
  | LListSessions
  | LListPanes (now instant : Z) (s : SessionId)
  | LListAllPanes (now instant : Z)
  | LOpenPane (os : Worker.Os) (req : OpenPaneReq)
  | LClosePane (sql : bool) (p : PaneId)
  | LCloseSession (s : SessionId)
  | LSetPaneState (instant : Z) (window : option Z) (p : PaneId) (state : PaneStateKind) (reason : string)
  | LMarkSeen (p : PaneId)
  | LSendKeys (channel_open : bool) (p : PaneId) (bytes : Bytes)
  | LResize (failed : option string) (req : ResizePaneReq)
  | LRenameSession (s : SessionId) (name : string)
  | LRenamePane (p : PaneId) (name : string)
  | LRequestFocus (p : PaneId)
  | LTakeFocus
  | LGc
  | LListWindows (s : SessionId)
  | LNewWindow (s : SessionId) (name : option string)
  | LRenameWindow (w : WindowId) (name : string)
  | LCloseWindow (sql : PaneId → bool) (w : WindowId)
  | LWindowLayout (w : WindowId)
  | LSplit (os : Worker.Os) (req : Server.OpenPaneSplitReq)
  | LWeight (p : PaneId) (w : Z)
  | LSessionLayout (s : SessionId)
  (* processes *)
  | LStart (st : StartOs) (session : string)             (** a spawned worker comes up *)
  | LOutput (pid ts_ms slot : Z) (chunk : Bytes)         (** a shell prints *)
  | LEof (pid : Z) (sql : bool) (slot : Z)               (** a shell exits *)
  | LEngine (pid : Z) (fs : PaneTracker.ProcFs) (rd : Z → PaneTracker.Readings)
  | LHeartbeat (pid : Z) (instant : Z)
  | LShutdownTask (pid : Z) (sql : Z → bool)             (** the grace period ends *)
  | LExit (pid : Z)                                      (** a worker process ends *)
  | LReap (failed : string → option string) (pid : Z)
  | LMonitor (failed : string → option string) (instant : Z)
  | LReattach (os : BootOs).

(** A step inside a worker process, if it is alive. *)
Definition in_worker (pid : Z) (m : Worker.W (Up := Sup) string unit) (s : Hy) : Hy :=
  match hy_procs s !! pid with
  | None => s
  | Some w => (run_worker pid m w s).1
  end.

Definition send_heartbeat (instant : Z) : Worker.W (Up := Sup) string unit :=
  let! sid := Worker.session_id in Worker.notify (heartbeat instant sid).

(** A reaped pid belongs to a process that has ended; a starting one is new and was
    spawned. *)
Definition step (l : Label) (s : Hy) : Hy :=
  match l with
  | LSpawn failed r os req => (spawn env rt message failed r os req s).1
  | LAttach sid => (attach env message sid s).1
  | LKill sid => (kill message sid s).1
  | LListSessions => (list_sessions env s).1
  | LListPanes now instant sid => (list_panes env message now instant sid s).1
  | LListAllPanes now instant => (list_all_panes env now instant s).1
  | LOpenPane os req => (open_pane env message os req s).1
  | LClosePane sql p => (close_pane env message sql p s).1
  | LCloseSession sid => (close_session env sid s).1
  | LSetPaneState t w p st r => (set_pane_state message t w p st r s).1
  | LMarkSeen p => (mark_pane_seen message p s).1
  | LSendKeys c p b => (send_keys message c p b s).1
  | LResize f req => (resize_pane message f req s).1
  | LRenameSession sid n => (rename_session env store_message sid n s).1
  | LRenamePane p n => (rename_pane env store_message p n s).1
  | LRequestFocus p => (request_focus p s).1
  | LTakeFocus => (take_focus_request s).1
  | LGc => (gc_stale_sessions s).1
  | LListWindows sid => (list_windows env store_message sid s).1
  | LNewWindow sid n => (new_window env store_message sid n s).1
  | LRenameWindow w n => (rename_window env store_message w n s).1
  | LCloseWindow sql w => (close_window env store_message sql w s).1
  | LWindowLayout w => (get_window_layout env message w s).1
  | LSplit os req => (open_pane_split env message os req s).1
  | LWeight p w => (set_pane_weight env store_message p w s).1
  | LSessionLayout sid => (get_session_layout env message store_message sid s).1
  | LStart st session =>
      if decide (session ∈ hy_spawned s ∧ hy_procs s !! st_pid st = None)
      then (start_worker (E := string) env rt st session s).1 else s
  | LOutput pid ts slot chunk => in_worker pid (Worker.on_read ts slot chunk) s
  | LEof pid sql slot => in_worker pid (Worker.on_eof sql slot) s
  | LEngine pid fs rd => in_worker pid (Worker.state_engine fs rd) s
  | LHeartbeat pid instant => in_worker pid (send_heartbeat instant) s
  | LShutdownTask pid sql =>
      match hy_procs s !! pid with
      | Some w => if Worker.wk_closing w then in_worker pid (Worker.shutdown_task sql) s else s
      | None => s
      end
  | LExit pid => MkHy (hy_sup s) (delete pid (hy_procs s)) (hy_disk s) (hy_spawned s)
  | LReap failed pid =>
      match hy_procs s !! pid with Some _ => s | None => (reap failed pid s).1 end
  | LMonitor failed instant => (heartbeat_monitor failed instant s).1
  | LReattach os => (reattach os s).1
  end.
Definition steps (ls : list Label) (s : Hy) : Hy := fold_left (λ s l, step l s) ls s.

End Hybrid.

(** A supervisor that just booted on a data directory and a disk of shards. *)
Definition boot_sup (st : Store.St) : Sup :=
  MkSup (MkWorkers ∅ PaneIndex.empty_index) (MkWindows ∅ ∅ ∅) (MkQueues [] [] [] ∅) PaneEventBus.new []
    st (BlockIndex.MkIndex [] []) ∅ ∅.
Definition boot (st : Store.St) (disk : gmap string Worker.Shard) : Hy := MkHy (boot_sup st) ∅ disk [].

End Hybrid.

(** ** Concrete runs *)
Import Supervisor Rpc Hybrid.
#[local] Existing Instances binary_uuid binary_json stable_order no_compression chrono_0_4 list_hash
  BlockIndex.substring_engine PaneTracker.all_ascii_lower.

Definition a_terminal (pid : Z) : Worker.Os := Worker.MkOs (λ _, Ok pid) (Some "/bin/sh") 0 0 true.
Definition no_terminal : Worker.Os := Worker.MkOs (λ _, Err "no pty") (Some "/bin/sh") 0 0 true.
Definition a_start (pid : Z) : StartOs := MkStartOs pid true (λ slot, a_terminal (900 + slot)) 0 true.
Definition call_text (e : CtrlError) : string := "call".
Definition store_text (e : Store.StoreError) : string := "store".
Definition run : list Label → Hy → Hy := steps calm "/run/user/1" call_text store_text.

Definition no_failure (session : string) : option string := None.
Definition spawn_req : SpawnReq := MkSpawnReq None (Some "/home") 80 24 [] (Some "main").

(** A session (identifier 0) with one pane (1) in slot 0 of the worker 100, in
    window 2; then a second pane (3) in slot 1. *)
Definition booted : Hy := boot (fresh_store "/d") ∅.
Definition one_pane : Hy := run [LSpawn None (Started (a_start 100)) (a_terminal 500) spawn_req] booted.
Definition split_req (p : PaneId) : Server.OpenPaneSplitReq := Server.MkOpenPaneSplitReq p Vertical None None None.
Definition two_panes : Hy := run [LSplit (a_terminal 501) (split_req (MkPaneId 1))] one_pane.
(** The worker dies, a new one comes up and the panes are listed. *)
Definition respawned : Hy :=
  run [LExit 100; LReap no_failure 100; LStart (a_start 101) (uuid_to_string 0%N);
       LListPanes 0 0 (MkSessionId 0)] two_panes.

(** What of a state the facts below speak of: which pane is in which slot, the
    leaves of each window, the shells of each worker, the events. *)
Definition slots (s : Hy) : list (Uuid * Z) :=
  (λ kv, (kv.1, kv.2.2)) <$> map_to_list (PaneIndex.pane_to_slot (panes_of (hy_sup s))).
Definition leaves_drawn (s : Hy) : list (list PaneId) :=
  (λ kv, from_option all_leaves [] (wm_layout kv.2)) <$> map_to_list (window_store (su_windows (hy_sup s))).
Definition shells (s : Hy) : list (Z * list (Z * Z)) :=
  (λ kv, (kv.1, (λ h, (h.1, Worker.ph_child_pid h.2)) <$> map_to_list (Worker.wk_panes kv.2))) <$> map_to_list (hy_procs s).
Definition closed_events (s : Hy) : list PaneId :=
  ev_pane_id <$> filter (λ e, ev_kind e = Closed) (su_log (hy_sup s)).

(** After a crash the panes come back under new identifiers (4 and 5) while the window
    goes on drawing the old ones. *)
Lemma respawn_renames_panes :
  (slots respawned).*1 ≡ₚ [4; 5]%N ∧ leaves_drawn respawned = [[MkPaneId 1; MkPaneId 3]].
Proof. split; vm_compute; [apply perm_swap || reflexivity|done]. Qed.

(** The count of slots starts again at 0: the next split is told slot 0, so its shell
    (777) replaces the recovered one, and two identifiers share the slot. *)
Lemma respawn_reuses_slot :
  let s := run [LSplit (a_terminal 777) (split_req (MkPaneId 4))] respawned in
  shells s = [(101, [(1, 901); (0, 777)])] ∧ length (filter (λ x, x.2 = 0) (slots s)) = 2%nat.
Proof. split; vm_compute; reflexivity. Qed.

(** A pane whose shell could not start stays in the index: when the last real pane
    closes the session is still thought to have one, and when the worker exits a new
    one is spawned for the empty session. *)
Definition failed_open : Label :=
  LOpenPane no_terminal (MkOpenPaneReq (MkSessionId 0) (MkWindowId 0) None None 80 24 [] None).
Lemma failed_open_respawns :
  hy_spawned (run [LClosePane true (MkPaneId 1); LExit 100; LReap no_failure 100] one_pane) = [] ∧
  hy_spawned (run [failed_open; LClosePane true (MkPaneId 1); LExit 100; LReap no_failure 100] one_pane) =
    [uuid_to_string 0%N].
Proof. split; vm_compute; reflexivity. Qed.

(** Closing a session forgets its panes before the worker reports them: the events
    name panes nobody has heard of. *)
Lemma close_session_announces_strangers :
  closed_events (run [LCloseSession (MkSessionId 0); LShutdownTask 100 (λ _, true)] two_panes) =
    [MkPaneId 4; MkPaneId 5].
Proof. vm_compute. reflexivity. Qed.
