(* ===== verification/HybridInv.v ===== *)
(** * HybridInv: what every state of the multi-process daemon satisfies

    However requests, worker reports, crashes, respawns and boots interleave, and
    whatever the database refuses: every identifier in the pane index and in the
    windows is one the daemon drew (or an earlier run left), and every layout tree,
    in memory or persisted, is one the layout operations allow. *)
From Stdlib Require Import Strings.Byte.
From S2P Require Import Prelude Proto Text Layout LayoutTree Libraries Effects EventBus PaneTracker.
From S2P Require Import Store Registry RegistryInv BlockIndex Server WorkerRegistry Worker WorkerInv.
From S2P Require Import StoreBlocks Supervisor SupervisorRpc Hybrid.
Local Open Scope Z_scope.
Import Supervisor Rpc Hybrid.

Section Inv.
Context `{UuidText, LayoutJson, SqlOrder, Zstd, ChronoRange, HashOrder, UnicodeLower, BlockIndex.Tantivy}.
Context (env : Store.Env) (rt : string).
Context (message : CtrlError → string) (store_message : Store.StoreError → string)
  (index_message : BlockIndex.IndexError → string).
#[local] Hint Extern 0 (SupervisorWorker Sup) => exact (supervisor_worker env) : typeclass_instances.

(** The identifiers of earlier runs, which the supply never repeats. *)
Context (old : Uuid → Prop).
Context (distinct : ∀ i j, Store.env_uuid env i = Store.env_uuid env j → i = j).
Context (fresh : ∀ i, ¬ old (Store.env_uuid env i)).

(** ** The invariant *)
Definition known (n : nat) (u : Uuid) : Prop := old u ∨ drawn env n u.

(** A tree of known panes, none of them in [X]: those allocated but not placed. *)
Definition tree_ok (X : PaneId → Prop) (n : nat) (t : LayoutNode) : Prop :=
  layout_ok t ∧ Forall (λ p, known n (pane_uuid p) ∧ ¬ X p) (all_leaves t).
Definition json_ok (X : PaneId → Prop) (n : nat) (json : string) : Prop :=
  ∀ t, layout_from_json json = Some t → tree_ok X n t.

Definition rows_ok (X : PaneId → Prop) (n : nat) (m : gmap string Store.WindowRow) : Prop :=
  map_Forall (λ _ r, ∀ json, Store.wr_layout r = Some json → json_ok X n json) m.
Definition store_ok (X : PaneId → Prop) (st : Store.St) : Prop :=
  rows_ok X (Store.st_uuids st) (Store.db_windows (Store.st_db st)).

Definition trees_ok (X : PaneId → Prop) (n : nat) (m : gmap WindowId WindowMeta) : Prop :=
  map_Forall (λ _ w, ∀ t, wm_layout w = Some t → tree_ok X n t) m.

(** [K]: panes a procedure has at hand, [X] those among them no tree has yet. *)
Definition sup_ok (K X : PaneId → Prop) (x : Sup) : Prop :=
  let n := Store.st_uuids (su_store x) in
  (∀ p, X p → K p) ∧ (∀ p, K p → known n (pane_uuid p)) ∧
  map_Forall (λ u _, known n u) (PaneIndex.pane_to_slot (panes_of x)) ∧
  trees_ok X n (window_store (su_windows x)) ∧
  map_Forall (λ p _, known n (pane_uuid p)) (pane_window_map (su_windows x)) ∧
  store_ok X (su_store x).
Definition nobody : PaneId → Prop := λ _, False.
Definition add (u : Uuid) (K : PaneId → Prop) : PaneId → Prop := λ p, K p ∨ p = MkPaneId u.

Lemma known_mono n n' u : (n ≤ n')%nat → known n u → known n' u.
Proof. intros Hle [?|?]; [by left|right]. by eapply drawn_mono. Qed.
Lemma fresh_unknown n : ¬ known n (Store.env_uuid env n).
Proof. intros [Ho|Hd]; [by eapply fresh|]. by eapply fresh_not_drawn. Qed.
Lemma tree_ok_mono X n n' t : (n ≤ n')%nat → tree_ok X n t → tree_ok X n' t.
Proof.
  intros Hle [Ht Hl]. split; [done|]. eapply Forall_impl; [exact Hl|]. intros p [? ?]. split; [|done].
  by eapply known_mono.
Qed.
Lemma rows_ok_mono X n n' m : (n ≤ n')%nat → rows_ok X n m → rows_ok X n' m.
Proof. intros Hle Hm k r Hr json Hj t Ht. eapply tree_ok_mono; [exact Hle|]. by eapply Hm. Qed.
Lemma trees_ok_mono X n n' m : (n ≤ n')%nat → trees_ok X n m → trees_ok X n' m.
Proof. intros Hle Hm k w Hw t Ht. eapply tree_ok_mono; [exact Hle|]. by eapply Hm. Qed.

Lemma sup_ok_grow K X x st :
  (Store.st_uuids (su_store x) ≤ Store.st_uuids st)%nat → store_ok X st → sup_ok K X x → sup_ok K X (set_store st x).
Proof.
  intros Hle Hst (HX & HK & Hi & Ht & Hp & _). split_and!; cbn; [done| |intros u s Hu| |intros p w Hw|done].
  - intros p Hp'. eapply known_mono; [exact Hle|by apply HK].
  - eapply known_mono; [exact Hle|by eapply Hi].
  - by eapply trees_ok_mono.
  - eapply known_mono; [exact Hle|by eapply (Hp p w)].
Qed.

(** Placing a pane is up to whoever allocated it. *)
Lemma sup_ok_weaken (K X K' X' : PaneId → Prop) x :
  (∀ p, K' p → K p) → (∀ p, X' p → X p ∧ K' p) → sup_ok K X x → sup_ok K' X' x.
Proof.
  intros Hk Hx (HX & HK & Hi & Ht & Hp & Hs).
  assert (∀ n t, tree_ok X n t → tree_ok X' n t) as Hto.
  { intros n t [? Hl]. split; [done|]. eapply Forall_impl; [exact Hl|]. intros p [? Hn]. split; [done|].
    by intros [? _]%Hx. }
  split_and!; [by intros p [_ ?]%Hx|auto|done| |done|].
  - intros k w Hw t Hl. apply Hto. by eapply Ht.
  - intros k r Hr json Hj t Hl. apply Hto. by eapply Hs.
Qed.

(** ** Statements *)

(** Statements that leave every tree they do not write readable as before. *)
Definition wstep {A} (X : PaneId → Prop) (m : Store.S A) : Prop :=
  ∀ st, (Store.st_uuids st ≤ Store.st_uuids (m st).1)%nat ∧
    (store_ok X st → store_ok X (m st).1).

Lemma wstep_query {A} X (f : Store.Db → result Store.StoreError (Store.Db * A)) :
  (∀ n db, rows_ok X n (Store.db_windows db) → match f db with
     | Ok (db', _) => rows_ok X n (Store.db_windows db') | Err _ => True end) → wstep X (Store.query env f).
Proof.
  intros Hf st. unfold Store.query. destruct (Store.env_fault env _); [done|]. specialize (Hf (Store.st_uuids st) (Store.st_db st)).
  destruct (f (Store.st_db st)) as [[db a]|e]; [|done]. split; [done|]. exact Hf.
Qed.
Lemma wstep_execute X f :
  (∀ n db, rows_ok X n (Store.db_windows db) → rows_ok X n (Store.db_windows (f db))) → wstep X (Store.execute env f).
Proof. intros Hf. apply wstep_query. auto. Qed.
Lemma wstep_fetch {A} X (f : Store.Db → A) : wstep X (Store.fetch env f).
Proof. apply wstep_query. auto. Qed.
Lemma wstep_ret {A} X (a : A) : wstep X (ret a).
Proof. by intros st. Qed.
Lemma wstep_of_result {A} X (r : result _ A) : wstep X (of_result r).
Proof. by intros st. Qed.
Lemma wstep_bind {A B} X (m : Store.S A) (k : A → Store.S B) :
  wstep X m → (∀ a, wstep X (k a)) → wstep X (bind m k).
Proof.
  intros Hm Hk st. destruct (Hm st) as [Hle Hok]. unfold bind. destruct (m st) as [st' [a|e]]; cbn in *; [|done].
  destruct (Hk a st') as [Hle' Hok']. split; [lia|auto].
Qed.
Lemma wstep_now_millis X : wstep X (Store.now_millis env).
Proof. by intros st. Qed.
Lemma wstep_parse X s : wstep X (Store.parse_id s).
Proof. by intros st. Qed.
Lemma wstep_row_to_block X kr : wstep X (Store.row_to_block env kr).
Proof.
  do 3 (apply wstep_bind; [apply wstep_parse|intros ?]). apply wstep_bind; [|intros ?; apply wstep_ret].
  case_match; [apply wstep_ret|]. by intros st.
Qed.
Lemma wstep_rows_to_blocks X rows : wstep X (Store.rows_to_blocks env rows).
Proof.
  induction rows as [|r rows IH]; [apply wstep_ret|]. apply wstep_bind; [apply wstep_row_to_block|]. intros b.
  apply wstep_bind; [exact IH|]. intros bs. apply wstep_ret.
Qed.
Lemma wstep_list_windows X sid : wstep X (Store.list_windows env sid).
Proof. apply wstep_bind; [apply wstep_fetch|intros rows; apply wstep_ret]. Qed.
Lemma wstep_list_session_ids X : wstep X (Store.list_session_ids env).
Proof. apply wstep_bind; [apply wstep_fetch|intros rows; apply wstep_ret]. Qed.
Lemma wstep_list_panes_for_window X w : wstep X (Store.list_panes_for_window env w).
Proof. apply wstep_bind; [apply wstep_fetch|intros rows; apply wstep_ret]. Qed.
Lemma wstep_upsert_session X s n : wstep X (Store.upsert_session env s n).
Proof. apply wstep_bind; [apply wstep_now_millis|intros t]. by apply wstep_execute. Qed.
Lemma wstep_pane_row X id s g :
  wstep X (bind (Store.now_millis env) (λ t, bind (Store.ensure_pane_row env id s t) (λ _,
    Store.execute env (Store.with_panes g)))).
Proof.
  apply wstep_bind; [apply wstep_now_millis|intros t]. apply wstep_bind; [by apply wstep_execute|intros []].
  by apply wstep_execute.
Qed.
Lemma wstep_assign X p s w : wstep X (Store.assign_pane_window env p s w).
Proof. apply wstep_pane_row. Qed.
Lemma wstep_rename_pane X p s n : wstep X (Store.rename_pane env p s n).
Proof. apply wstep_pane_row. Qed.

(** Changing a row without its layout. *)
Lemma rows_ok_alter X n f k m :
  (∀ r json, Store.wr_layout (f r) = Some json → Store.wr_layout r = Some json ∨ json_ok X n json) →
  rows_ok X n m → rows_ok X n (alter f k m).
Proof.
  intros Hf Hm i r. destruct (decide (i = k)) as [->|Hne]; [|rewrite lookup_alter_ne by done; apply Hm].
  rewrite lookup_alter_eq. intros (r0 & Hr0 & ->)%fmap_Some json Hj. apply Hf in Hj as [Hj|Hj]; [|done].
  by eapply Hm.
Qed.
Lemma wstep_upsert_window X w s n p t : wstep X (Store.upsert_window env w s n p t).
Proof.
  apply wstep_execute. intros k db Hm. cbn. apply map_Forall_insert_2; [|done].
  destruct (Store.db_windows db !! _) as [r|] eqn:E; cbn; [|done]. by eapply Hm.
Qed.
Lemma wstep_rename_window X w n : wstep X (Store.rename_window env w n).
Proof. apply wstep_execute. intros k db Hm. cbn. apply rows_ok_alter; [by left|done]. Qed.
Lemma wstep_delete_window X w : wstep X (Store.delete_window env w).
Proof. apply wstep_execute. intros k db Hm i r Hr. cbn in Hr. apply lookup_delete_Some in Hr as [_ Hr]. by eapply Hm. Qed.
End Inv.

#[export] Hint Resolve wstep_fetch wstep_ret wstep_of_result wstep_now_millis wstep_parse wstep_row_to_block
  wstep_rows_to_blocks wstep_list_windows wstep_list_session_ids wstep_list_panes_for_window wstep_upsert_session
  wstep_assign wstep_rename_pane wstep_upsert_window wstep_rename_window wstep_delete_window : effects.
(** ** The supervisor's primitives *)
Section Sup.
Context `{UuidText, LayoutJson, SqlOrder, Zstd, ChronoRange, HashOrder, UnicodeLower, BlockIndex.Tantivy}.
Context (env : Store.Env) (old : Uuid → Prop).
Context (distinct : ∀ i j, Store.env_uuid env i = Store.env_uuid env j → i = j).
Context (fresh : ∀ i, ¬ old (Store.env_uuid env i)).
#[local] Abbreviation sok := (sup_ok env old).
#[local] Abbreviation count := (λ x : Sup, Store.st_uuids (su_store x)).

Lemma store_call_sok {A} K X (m : Store.S A) : wstep env old X m → keeps (sok K X) (store_call m).
Proof.
  intros Hm x Hx. unfold store_call, zoom. destruct (Hm (su_store x)) as [Hle Hok].
  destruct (m (su_store x)) as [st r]. cbn [fst] in *. apply sup_ok_grow; [done| |done]. apply Hok, Hx.
Qed.
Lemma log_store_sok {E A} K X (m : Store.S A) : wstep env old X m → keeps (E := E) (sok K X) (log_store m).
Proof.
  intros Hm x Hx. pose proof (store_call_sok K X m Hm x Hx) as Hk. unfold log_store. by destruct (store_call m x).
Qed.
Lemma utc_now_sok {E} K X : keeps (E := E) (sok K X) (utc_now env).
Proof. intros x Hx. cbn. apply sup_ok_grow; [done|apply Hx|done]. Qed.

(** What the invariant does not look at. *)
Lemma modify_sok {E} K X f :
  (∀ x, su_store (f x) = su_store x ∧ su_windows (f x) = su_windows x ∧
     ∀ u s, PaneIndex.pane_to_slot (panes_of (f x)) !! u = Some s → is_Some (PaneIndex.pane_to_slot (panes_of x) !! u)) →
  keeps (E := E) (sok K X) (modify f).
Proof.
  intros Hf x (HX & HK & Hi & Ht & Hp & Hs). destruct (Hf x) as (Es & Ew & Hix). unfold sup_ok. cbn [modify fst].
  rewrite Es, Ew. split_and!; [done..| |done|done|done]. intros u s Hu. apply Hix in Hu as [s' Hu]. by eapply Hi.
Qed.
Lemma modify_queues_sok {E} K X f : keeps (E := E) (sok K X) (modify (set_queues f)).
Proof. apply modify_sok. eauto. Qed.
Lemma modify_cwds_sok {E} K X f : keeps (E := E) (sok K X) (modify (set_cwds f)).
Proof. apply modify_sok. eauto. Qed.
Lemma emit_sok {E} K X p k st : keeps (E := E) (sok K X) (emit p k st).
Proof. apply modify_sok. intros x. destruct (PaneEventBus.emit p k st (su_bus x)). eauto. Qed.
Lemma insert_sok {E} K X s h : keeps (E := E) (sok K X) (insert s h).
Proof. apply modify_sok. eauto. Qed.
Lemma touch_sok {E} K X i s : keeps (E := E) (sok K X) (touch_heartbeat i s).
Proof. apply modify_sok. eauto. Qed.
Lemma send_finalize_sok {E} K X key : keeps (E := E) (sok K X) (send_finalize key).
Proof. apply modify_queues_sok. Qed.
Lemma modify_index_sok {E} K X f :
  (∀ ix u s, PaneIndex.pane_to_slot (f ix) !! u = Some s → is_Some (PaneIndex.pane_to_slot ix !! u)) →
  keeps (E := E) (sok K X) (modify_panes f).
Proof. intros Hf. apply modify_sok. eauto. Qed.
Lemma remove_sok {E} K X s : keeps (E := E) (sok K X) (remove s).
Proof.
  unfold remove. keep_step; [|keep_step; [keep|keep_step; [apply modify_sok; eauto|keep]]].
  apply modify_index_sok. intros ix u x. cbn. intros [Hu _]%map_lookup_filter_Some. eauto.
Qed.
Lemma remove_pane_slot_sok {E} K X s slot : keeps (E := E) (sok K X) (remove_pane_slot s slot).
Proof.
  intros x Hx. change ((remove_pane_slot s slot x).1) with
    ((modify_panes (E := E) (λ ix, (PaneIndex.remove_pane_slot s slot ix).2) x).1).
  revert x Hx. apply modify_index_sok. intros ix u x. cbn. intros [Hu _]%map_lookup_filter_Some. eauto.
Qed.

Lemma modify_windows_sok {E} K X f :
  (∀ n w, (∀ p, K p → known env old n (pane_uuid p)) → trees_ok env old X n (window_store w) →
     map_Forall (λ p _, known env old n (pane_uuid p)) (pane_window_map w) →
     trees_ok env old X n (window_store (f w)) ∧
     map_Forall (λ p _, known env old n (pane_uuid p)) (pane_window_map (f w))) →
  keeps (E := E) (sok K X) (modify_windows f).
Proof.
  intros Hf x (HX & HK & Hi & Ht & Hp & Hs). destruct (Hf (count x) (su_windows x)) as [Ht' Hp']; [done..|].
  by split_and!.
Qed.
Lemma on_session_sok {E} K X f : keeps (E := E) (sok K X) (modify_windows (on_session f)).
Proof. by apply modify_windows_sok. Qed.
Lemma on_store_sok {E} K X f :
  (∀ n m, (∀ p, K p → known env old n (pane_uuid p)) → trees_ok env old X n m → trees_ok env old X n (f m)) →
  keeps (E := E) (sok K X) (modify_windows (on_store f)).
Proof. intros Hf. apply modify_windows_sok. intros n w HK Ht Hp. split; [by apply Hf|done]. Qed.
Lemma delete_window_sok {E} K X w : keeps (E := E) (sok K X) (modify_windows (on_store (delete w))).
Proof.
  apply on_store_sok. intros n m _ Hm i x Hx. apply lookup_delete_Some in Hx as [_ Hx]. by eapply Hm.
Qed.
Lemma insert_window_sok {E} K X w meta :
  wm_layout meta = None → keeps (E := E) (sok K X) (modify_windows (on_store <[w := meta]>)).
Proof. intros Hn. apply on_store_sok. intros n m _ Hm. apply map_Forall_insert_2; [|done]. by rewrite Hn. Qed.
Lemma alter_name_sok {E} K X w n : keeps (E := E) (sok K X) (modify_windows (on_store (alter (meta_name n) w))).
Proof.
  apply on_store_sok. intros k m _ Hm i x. destruct (decide (i = w)) as [->|Hne].
  - rewrite lookup_alter_eq. intros (x0 & Hx0 & ->)%fmap_Some. cbn. by eapply Hm.
  - rewrite lookup_alter_ne by done. apply Hm.
Qed.
Lemma warm_window_sok {E} K X s row : keeps (E := E) (sok K X) (modify_windows (warm_window s row)).
Proof.
  apply on_store_sok. intros n m _ Hm. destruct (m !! row.1.1); [done|]. by apply map_Forall_insert_2.
Qed.
Lemma delete_pane_window_sok {E} K X p : keeps (E := E) (sok K X) (modify_windows (on_pane_window (delete p))).
Proof.
  apply modify_windows_sok. intros n w _ Ht Hp. split; [done|]. cbn. intros q x Hx.
  apply lookup_delete_Some in Hx as [_ Hx]. by eapply (Hp q x).
Qed.
Lemma insert_pane_window_sok {E} (K X : PaneId → Prop) p w :
  K p → keeps (E := E) (sok K X) (modify_windows (on_pane_window <[p := w]>)).
Proof. intros Hk. apply modify_windows_sok. intros n m HK Ht Hp. split; [done|]. cbn. apply map_Forall_insert_2; auto. Qed.

(** *** Identifiers *)
Lemma weaken_sok (K X K' X' : PaneId → Prop) x :
  sok K X x → (∀ p, K' p → K p) → (∀ p, X' p → X p ∧ K' p) → sok K' X' x.
Proof. intros. by eapply sup_ok_weaken. Qed.

Lemma fresh_uuid_sok {E} K X X0 :
  triple (sok K X) (fresh_uuid (E := E) env) (λ u, sok (add u K) (add u X)) X0.
Proof.
  intros x (HX & HK & Hi & Ht & Hp & Hs). cbn. set (u := Store.env_uuid env (Store.st_uuids (su_store x))).
  assert (∀ v, known env old (count x) v → known env old (count x + 1) v) as Hm by (intros; eapply known_mono; [|done]; lia).
  assert (¬ known env old (count x) u) as Hnew by (by apply fresh_unknown).
  assert (∀ t, tree_ok env old X (count x) t → tree_ok env old (add u X) (count x + 1) t) as Hto.
  { intros t [Hok Hl]. split; [done|]. eapply Forall_impl; [exact Hl|]. intros p [Hk Hn]. split; [by apply Hm|].
    intros [?| ->]; [done|]. by apply Hnew. }
  split_and!; cbn.
  - intros p [?| ->]; [left; auto|by right].
  - intros p [?| ->]; [apply Hm; auto|]. right. exists (count x). split; [lia|done].
  - intros v s Hv. apply Hm. by eapply Hi.
  - intros w meta Hw t Hl. apply Hto. by eapply Ht.
  - intros p w Hw. apply Hm. by eapply (Hp p w).
  - intros k r Hr json Hj t Hl. apply Hto. by eapply Hs.
Qed.
Lemma fresh_sok {E} K X : keeps (E := E) (sok K X) (fresh_uuid (E := E) env).
Proof.
  intros x Hx. pose proof (fresh_uuid_sok (E := E) K X (λ _, True) x Hx) as Hf. cbn in Hf |- *.
  eapply weaken_sok; [exact Hf|by left|]. intros p Hp. split; [by left|]. by apply Hx.
Qed.
Lemma register_sok {E} (K X : PaneId → Prop) u s slot :
  K (MkPaneId u) → keeps (E := E) (sok K X) (modify_panes (PaneIndex.register u s slot)).
Proof.
  intros Hu x (HX & HK & Hi & Hr). split; [done|]. split; [done|]. split; [|done]. cbn.
  apply map_Forall_insert_2; [|done]. by apply (HK (MkPaneId u)).
Qed.

Lemma alloc_pane_sok {E} K X s X0 :
  triple (sok K X) (alloc_pane (E := E) env s) (λ ps, sok (add ps.1 K) (add ps.1 X)) X0.
Proof.
  unfold alloc_pane. eapply triple_bind; [by apply (triple_gets _ _ (λ _, sok K X))|]. intros slot.
  eapply (triple_bind _ _ _ (λ _, sok K X)).
  { intros x Hx. refine (modify_index_sok (E := E) K X _ _ x Hx). intros ix u y. cbn. eauto. }
  intros []. eapply triple_bind; [apply fresh_uuid_sok|]. intros u. cbn beta.
  eapply (triple_bind _ _ _ (λ _, sok (add u K) (add u X))).
  { intros x Hx. refine (register_sok (E := E) _ _ u s slot _ x Hx). by right. }
  intros []. by apply triple_ret.
Qed.

Lemma get_or_alloc_sok {E} K X s slot X0 :
  triple (sok K X) (get_or_alloc_pane_by_slot (E := E) env s slot)
    (λ o, match o with Some u => sok (add u K) X | None => sok K X end) X0.
Proof.
  intros x Hx. unfold get_or_alloc_pane_by_slot, bind, gets.
  destruct (PaneIndex.pane_id_by_slot s slot (panes_of x)) as [u|] eqn:E1.
  - cbn. destruct Hx as (HX & HK & Hi & Hr). split; [intros p ?; left; auto|]. split; [|done].
    intros p [?| ->]; [auto|]. apply fmap_Some in E1 as ([v [s' sl]] & Hf & ->). apply find_first_Some in Hf as [Hin _].
    rewrite hash_order_perm in Hin. apply elem_of_map_to_list in Hin. by eapply Hi.
  - destruct (PaneIndex.is_dead s slot (panes_of x)); [done|].
    pose proof (fresh_uuid_sok (E := E) K X (λ _, True) x Hx) as Hf. cbn in Hf |- *.
    set (u := Store.env_uuid env _) in *.
    assert (sok (add u K) X (set_store (Store.new_uuid env (su_store x)).1 x)) as Hw.
    { eapply weaken_sok; [exact Hf|done|]. intros p Hp. split; [by left|]. left. by apply Hx. }
    refine (register_sok (E := E) _ _ u s slot _ _ Hw). by right.
Qed.
Lemma get_or_alloc_keeps {E} K X s slot : keeps (E := E) (sok K X) (get_or_alloc_pane_by_slot env s slot).
Proof.
  intros x Hx. pose proof (get_or_alloc_sok (E := E) K X s slot (λ _, True) x Hx) as Hf.
  unfold get_or_alloc_pane_by_slot, bind, gets in *. destruct (PaneIndex.pane_id_by_slot _ _ _) as [u|]; [done|].
  destruct (PaneIndex.is_dead _ _ _); [done|]. cbn in *. eapply weaken_sok; [exact Hf|by left|].
  intros p Hp. split; [done|]. by apply Hx.
Qed.

(** *** Trees *)
Lemma insert_tree_sok {E} (K X : PaneId → Prop) w meta x :
  sok K X x → (∀ t, wm_layout meta = Some t → tree_ok env old X (count x) t) →
  sok K X (modify_windows (E := E) (on_store <[w := meta]>) x).1.
Proof.
  intros (HX & HK & Hi & Ht & Hp & Hs) Hm. split_and!; try done. cbn. by apply map_Forall_insert_2.
Qed.
Lemma alter_tree_sok {E} (K X : PaneId → Prop) w t x :
  sok K X x → tree_ok env old X (count x) t →
  sok K X (modify_windows (E := E) (on_store (alter (meta_layout (Some t)) w)) x).1.
Proof.
  intros (HX & HK & Hi & Ht & Hp & Hs) Htree. split_and!; try done. cbn. intros i m.
  destruct (decide (i = w)) as [->|Hne]; [|rewrite lookup_alter_ne by done; apply Ht].
  rewrite lookup_alter_eq. intros (m0 & Hm0 & ->)%fmap_Some t'. by intros [= <-].
Qed.
Lemma upsert_layout_sok K X w json x :
  sok K X x → json_ok env old X (count x) json →
  sok K X (store_call (Store.upsert_window_layout env w json) x).1 ∧
  count (store_call (Store.upsert_window_layout env w json) x).1 = count x.
Proof.
  intros Hx Hj. unfold store_call, zoom, Store.upsert_window_layout, Store.execute, Store.query.
  destruct (Store.env_fault env _); cbn; (split; [|done]); apply sup_ok_grow; try done; [apply Hx|].
  apply rows_ok_alter; [|apply Hx]. intros r j [= <-]. by right.
Qed.
Lemma tree_json_ok X n t : tree_ok env old X n t → json_ok env old X n (layout_to_json t).
Proof. intros Ht t' E. rewrite layout_json_roundtrip in E. by injection E as <-. Qed.

Lemma close_tree_ok X n t p : tree_ok env old X n t → tree_ok env old X n (close t p).2.
Proof.
  intros [Ht Hl]. split; [by eapply layout_step_ok; [apply step_close|]|].
  rewrite Forall_forall in *. intros q Hq. apply Hl. by eapply close_leaves_subset.
Qed.
Lemma weight_tree_ok X n t p w : tree_ok env old X n t → tree_ok env old X n (set_weight t p w).
Proof.
  intros [Ht Hl]. split; [by eapply layout_step_ok; [apply step_weight|]|]. by rewrite set_weight_leaves_ok.
Qed.
End Sup.

#[export] Hint Resolve store_call_sok log_store_sok utc_now_sok modify_queues_sok modify_cwds_sok emit_sok insert_sok
  touch_sok send_finalize_sok remove_sok remove_pane_slot_sok on_session_sok delete_window_sok insert_window_sok
  alter_name_sok warm_window_sok delete_pane_window_sok fresh_sok get_or_alloc_keeps : effects.

(** ** The callbacks *)
Section Callbacks.
Context `{UuidText, LayoutJson, SqlOrder, Zstd, ChronoRange, HashOrder, UnicodeLower, BlockIndex.Tantivy}.
Context (env : Store.Env) (old : Uuid → Prop).
Context (distinct : ∀ i j, Store.env_uuid env i = Store.env_uuid env j → i = j).
Context (fresh : ∀ i, ¬ old (Store.env_uuid env i)).
#[local] Abbreviation sok := (sup_ok env old).
#[local] Abbreviation count := (λ x : Sup, Store.st_uuids (su_store x)).

Definition layout_at_hand (K X : PaneId → Prop) (o : option (WindowId * string)) (x : Sup) : Prop :=
  sok K X x ∧ ∀ w json, o = Some (w, json) → json_ok env old X (count x) json.

Lemma close_leaf_sok {E} K X w p X0 : triple (sok K X) (close_leaf (E := E) w p) (layout_at_hand K X) X0.
Proof.
  intros x Hx. unfold close_leaf. destruct w as [wid|]; [|by split]. unfold bind, gets.
  destruct (window_store (su_windows x) !! wid ≫= wm_layout) as [t|] eqn:E1; [|by split]. cbv zeta.
  apply bind_Some in E1 as (m & Hm & Hl).
  assert (tree_ok env old X (count x) (close t p).2) as Ht by (apply close_tree_ok; destruct Hx as (_ & _ & _ & Htr & _); by eapply Htr).
  pose proof (alter_tree_sok (E := E) env old K X wid _ x Hx Ht) as Hs. cbn in *. split; [done|].
  intros w json [= -> <-]. by apply tree_json_ok.
Qed.
Lemma persist_layout_sok {E} K X p o X0 :
  triple (layout_at_hand K X o) (persist_layout (E := E) env p o) (λ _, sok K X) X0.
Proof.
  intros x [Hx Hj]. unfold persist_layout. destruct o as [[w json]|]; [|done]. unfold bind, log_store.
  destruct (upsert_layout_sok env old K X w json x Hx) as [Hs _]; [by eapply Hj|].
  destruct (store_call _ x) as [x' r]. cbn [fst] in Hs. exact (emit_sok (E := E) env old K X p LayoutChanged None x' Hs).
Qed.

Lemma pane_closed_sok K X s slot : keeps (sok K X) (sv_pane_closed env s slot).
Proof.
  unfold sv_pane_closed. keep_step; [by apply get_or_alloc_keeps|]. keep_step; [keep|].
  keep_step; [destruct (a0 =? 0)%nat; keep|]. keep_step; [|keep]. destruct a as [u|]; [|keep]. cbv zeta.
  keep_step; [keep|]. keep_step; [keep|]. intros x Hx. eapply triple_state; [|exact Hx].
  eapply triple_bind; [apply close_leaf_sok|]. intros o. eapply triple_bind; [apply persist_layout_sok|]. intros [].

  intros y Hy. exact (emit_sok (E := RpcError) env old K X (MkPaneId u) Closed None y Hy).
Qed.
Lemma state_changed_sok K X s slot st : keeps (sok K X) (sv_pane_state_changed env s slot st).
Proof.
  unfold sv_pane_state_changed. keep_step; [by apply get_or_alloc_keeps|]. destruct a; keep.
Qed.

#[local] Hint Extern 0 (SupervisorWorker Sup) => exact (supervisor_worker env) : typeclass_instances.
#[global] Instance callbacks_keep K X : UpKeeps (sok K X).
Proof.
  split; cbn; intros.
  - unfold sv_register_worker. destruct d; keep.
  - apply modify_queues_sok.
  - apply pane_closed_sok.
  - apply state_changed_sok.
  - apply touch_sok.
Qed.
End Callbacks.

(** ** Procedures *)
Section Procedures.
Context `{UuidText, LayoutJson, SqlOrder, Zstd, ChronoRange, HashOrder, UnicodeLower, BlockIndex.Tantivy}.
Context (env : Store.Env) (rt : string).
Context (message : CtrlError → string) (store_message : Store.StoreError → string).
Context (old : Uuid → Prop).
Context (distinct : ∀ i j, Store.env_uuid env i = Store.env_uuid env j → i = j).
Context (fresh : ∀ i, ¬ old (Store.env_uuid env i)).
#[local] Hint Extern 0 (SupervisorWorker Sup) => exact (supervisor_worker env) : typeclass_instances.
#[local] Abbreviation sok := (sup_ok env old).

Definition hok (K X : PaneId → Prop) (s : Hy) : Prop := sok K X (hy_sup s).

Lemma sup_hok {E A} K X (m : SM E A) : keeps (sok K X) m → keeps (hok K X) (sup m).
Proof. intros Hm s Hs. specialize (Hm (hy_sup s) Hs). unfold sup, zoom. by destruct (m (hy_sup s)). Qed.
Lemma sup_triple {E A} P (m : SM E A) Q X0 :
  triple P m Q X0 → triple (λ s, P (hy_sup s)) (sup m) (λ a s, Q a (hy_sup s)) (λ s, X0 (hy_sup s)).
Proof. intros Hm s Hs. specialize (Hm (hy_sup s) Hs). unfold sup, zoom. by destruct (m (hy_sup s)) as [x [a|e]]. Qed.
Lemma store_hok {A} K X (m : Store.S A) : wstep env old X m → keeps (hok K X) (store store_message m).
Proof.
  intros Hm s Hs. pose proof (store_call_sok env old K X m Hm (hy_sup s) Hs) as Hk.
  unfold store, zoom. by destruct (store_call m (hy_sup s)).
Qed.
Lemma log_hok {E A} K X (m : Store.S A) : wstep env old X m → keeps (E := E) (hok K X) (log m).
Proof. intros Hm. by apply sup_hok, log_store_sok. Qed.
Lemma gets_sup_hok {E A} K X (f : Sup → A) : keeps (E := E) (hok K X) (gets_sup f).
Proof. apply keeps_gets. Qed.
Lemma modify_hok {E} K X f : (∀ s, hy_sup (f s) = hy_sup s) → keeps (E := E) (hok K X) (modify f).
Proof. intros Hf s Hs. unfold hok. cbn. by rewrite Hf. Qed.

(** Whatever a worker does. *)
Lemma run_worker_hok {E A} K X pid (m : Worker.W (Up := Sup) E A) w s :
  keeps (atUp (sok K X)) m → hok K X s → hok K X (run_worker pid m w s).1.
Proof.
  intros Hm Hs. unfold run_worker.
  pose proof (Hm (Worker.MkWorld w (default ∅ (hy_disk s !! Worker.wk_session_id w)) (hy_sup s)) Hs) as Hk.
  by destruct (m _) as [w' r].
Qed.
Lemma call_hok {A} K X h (m : Worker.W (Up := Sup) RpcError A) : keeps (atUp (sok K X)) m → keeps (hok K X) (call h m).
Proof.
  intros Hm s Hs. unfold call. destruct (hy_procs s !! wh_pid h) as [w|]; [|done].
  pose proof (run_worker_hok K X (wh_pid h) m w s Hm Hs) as Hk. by destruct (run_worker _ m w s).
Qed.
Lemma call_io_hok {A} K X h (m : Worker.W (Up := Sup) RpcError A) :
  keeps (atUp (sok K X)) m → keeps (hok K X) (call_io message h m).
Proof. intros Hm s Hs. pose proof (call_hok K X h m Hm s Hs) as Hk. unfold call_io, zoom. by destruct (call h m s). Qed.
Lemma call_spawn_hok {A} K X h (m : Worker.W (Up := Sup) RpcError A) :
  keeps (atUp (sok K X)) m → keeps (hok K X) (call_spawn message h m).
Proof. intros Hm s Hs. pose proof (call_hok K X h m Hm s Hs) as Hk. unfold call_spawn, zoom. by destruct (call h m s). Qed.
Lemma call_opt_hok {E A} K X h (m : Worker.W (Up := Sup) RpcError A) :
  keeps (atUp (sok K X)) m → keeps (E := E) (hok K X) (call_opt h m).
Proof. intros Hm s Hs. pose proof (call_hok K X h m Hm s Hs) as Hk. unfold call_opt. by destruct (call h m s). Qed.
Lemma start_worker_hok {E} K X st session : keeps (E := E) (hok K X) (start_worker env rt st session).
Proof.
  intros s Hs. unfold start_worker.
  set (m := Worker.start _ _ _ _ _ _ _).
  pose proof (run_worker_hok K X (st_pid st) m (Worker.new_worker session) (set_spawned (remove_once session) s)) as Hk.
  destruct (run_worker _ m _ _). apply Hk; [|done].
  pose proof (callbacks_keep env old distinct fresh K X). apply start_wkeeps; apply _.
Qed.

(** *** Making more panes known for the rest of a procedure *)
Lemma hok_weaken (K X K' X' : PaneId → Prop) s :
  hok K X s → (∀ p, K' p → K p) → (∀ p, X' p → X p ∧ K' p) → hok K' X' s.
Proof. intros. by eapply sup_ok_weaken. Qed.

Lemma bind_known {E A B} (K X : PaneId → Prop) (m : HM E A) (k : A → HM E B) (K' : A → PaneId → Prop) :
  (∀ p, X p → K p) → (∀ a p, K p → K' a p) → triple (hok K X) m (λ a, hok (K' a) X) (hok K X) →
  (∀ a, keeps (hok (K' a) X) (k a)) → keeps (hok K X) (bind m k).
Proof.
  intros HX HK Hm Hk s Hs. specialize (Hm s Hs). unfold bind. destruct (m s) as [s1 [a|e]]; [|done].
  eapply hok_weaken; [exact (Hk a s1 Hm)|by apply HK|]. intros p Hp. split; [done|by apply HX].
Qed.
Lemma keeps_inside {E A} (K X : PaneId → Prop) (m : HM E A) :
  ((∀ p, X p → K p) → keeps (hok K X) m) → keeps (hok K X) m.
Proof. intros Hm s Hs. apply Hm; [|done]. apply Hs. Qed.
Definition opt_add (o : option Uuid) (K : PaneId → Prop) : PaneId → Prop :=
  match o with Some u => add u K | None => K end.

Lemma get_or_alloc_known {E} K X session slot :
  triple (hok K X) (sup (E := E) (get_or_alloc_pane_by_slot env session slot))
    (λ o, hok (opt_add o K) X) (hok K X).
Proof.
  intros s Hs. pose proof (sup_triple _ _ _ _ (get_or_alloc_sok (E := E) env old distinct fresh K X session slot (sok K X)) s Hs) as Hm.
  destruct (sup _ s) as [s' [[u|]|e]]; exact Hm.
Qed.
Lemma alloc_unplaced {E} K X session :
  triple (hok K X) (sup (E := E) (alloc_pane env session)) (λ ps, hok (add ps.1 K) (add ps.1 X)) (hok K X).
Proof. exact (sup_triple _ _ _ _ (alloc_pane_sok (E := E) env old distinct fresh K X session (sok K X))). Qed.
Lemma alloc_known {E} (K X : PaneId → Prop) session :
  triple (hok K X) (sup (E := E) (alloc_pane env session)) (λ ps, hok (add ps.1 K) X) (hok K X).
Proof.
  intros s Hs. pose proof (alloc_unplaced (E := E) K X session s Hs) as Hm. destruct (sup _ s) as [s' [ps|e]]; [|done].
  eapply hok_weaken; [exact Hm|done|]. intros p Hp. split; [by left|]. left. by apply Hs.
Qed.
Lemma lookup_known K X p (o : option (string * Z)) s :
  lookup_pane p (hy_sup s) = o → hok K X s → is_Some o → hok (add (pane_uuid p) K) X s.
Proof.
  intros Ho (HX & HK & Hi & Hr) [ss Hss]. split; [intros q ?; left; auto|]. split; [|done].
  intros q [?| ->]; [auto|]. cbn. rewrite Hss in Ho. by eapply Hi.
Qed.
End Procedures.

#[export] Hint Resolve sup_hok store_hok log_hok gets_sup_hok call_io_hok call_spawn_hok call_opt_hok callbacks_keep start_worker_hok : effects.

Ltac hkeep := repeat first [assumption | keep_step | solve [eauto 8 with effects nocore]].

Section Handlers.
Context `{UuidText, LayoutJson, SqlOrder, Zstd, ChronoRange, HashOrder, UnicodeLower, BlockIndex.Tantivy}.
Context (env : Store.Env) (rt : string).
Context (message : CtrlError → string) (store_message : Store.StoreError → string).
Context (old : Uuid → Prop).
Context (distinct : ∀ i j, Store.env_uuid env i = Store.env_uuid env j → i = j).
Context (fresh : ∀ i, ¬ old (Store.env_uuid env i)).
#[local] Hint Extern 0 (SupervisorWorker Sup) => exact (supervisor_worker env) : typeclass_instances.
#[local] Abbreviation ok := (hok env old).

Lemma route_hok K X p : keeps (ok K X) (route p).
Proof. unfold route. hkeep. Qed.
Lemma default_window_hok {E} K X s sid : keeps (E := E) (ok K X) (get_or_create_default_window env s sid).
Proof.
  unfold get_or_create_default_window. keep_step; [hkeep|]. destruct a as [wid|]; [hkeep|].
  keep_step; [hkeep|]. destruct (a ≫= head) as [row|]; [hkeep|]. cbv zeta.
  keep_step; [hkeep|]. keep_step; [hkeep|]. keep_step; [hkeep|]. destruct a2; [|hkeep].
  keep_step; [|hkeep]. apply sup_hok. by apply insert_window_sok.
Qed.
Lemma default_or_new_hok {E} K X s sid : keeps (E := E) (ok K X) (default_window_or_new env s sid).
Proof. unfold default_window_or_new. keep_step; [apply default_window_hok|]. hkeep. Qed.

Lemma single_leaf_ok X n u : known env old n u → ¬ X (MkPaneId u) → tree_ok env old X n (Leaf (MkPaneId u)).
Proof. intros Hk Hx. split; [split; [done|apply NoDup_singleton]|]. by constructor. Qed.

Lemma place_leaf_hok {E} (K : PaneId → Prop) u f :
  K (MkPaneId u) →
  (∀ m, f m = m ∨ ∃ w s n p, f m = <[w := MkWindowMeta s n p (Some (Leaf (MkPaneId u)))]> m) →
  keeps (E := E) (ok K nobody) (sup (modify_windows (on_store f))).
Proof.
  intros Hu Hf. apply sup_hok, on_store_sok. intros n m HK Hm.
  destruct (Hf m) as [->|(w & s & nm & p & ->)]; [done|]. apply map_Forall_insert_2; [|done].
  intros t [= <-]. apply single_leaf_ok; [by apply (HK (MkPaneId u))|by intros []].
Qed.

Lemma spawn_hok failed r os req : keeps (ok nobody nobody) (spawn env rt message failed r os req).
Proof.
  unfold spawn. keep_step; [hkeep|]. cbv zeta. keep_step; [hkeep|].
  eapply (bind_known env old nobody nobody _ _ (λ ps, add ps.1 nobody)); [done|by left|by apply alloc_known|].
  intros [u slot]. cbn [fst]. keep_step; [hkeep|]. keep_step.
  { intros s Hs. unfold spawn_worker. destruct failed; [|exact Hs]. exact Hs. }
  keep_step. { unfold await_registration. destruct r; hkeep. }
  keep_step; [hkeep|]. keep_step; [hkeep|]. do 2 (keep_step; [hkeep|]).
  keep_step; [unfold Worker.ctrl_open_pane; hkeep|]. keep_step; [hkeep|]. cbv zeta.
  do 2 (keep_step; [hkeep|]). do 2 (keep_step; [hkeep|]).
  keep_step; [apply (place_leaf_hok _ u); [by right|]; intros m; right; by eexists _, _, _, _|].
  keep_step; [hkeep|]. keep_step; [apply sup_hok, insert_pane_window_sok; by right|]. hkeep.
Qed.

Lemma attach_hok K X sid : keeps (ok K X) (attach env message sid).
Proof. unfold attach, Worker.ctrl_attach_pane. hkeep. Qed.
Lemma kill_hok K X sid : keeps (ok K X) (kill message sid).
Proof. unfold kill. hkeep. Qed.
Lemma list_sessions_hok K X : keeps (ok K X) (list_sessions env).
Proof.
  unfold list_sessions. keep_step; [hkeep|]. induction a as [|[[s u] h] l IH]; cbn [list_sessions_loop]; [hkeep|].
  keep_step; [hkeep|]. cbv zeta. hkeep.
Qed.
Lemma pane_row_known K X now i s sid h slot :
  (∀ p, X p → K p) →
  triple (ok K X) (pane_row env now i s sid h slot)
    (λ o, ok (match o with Some info => add (pane_uuid (pi_id info)) K | None => K end) X) (ok K X).
Proof.
  intros HX. unfold pane_row. eapply triple_bind; [by apply get_or_alloc_known|]. intros [u|]; cbn [opt_add]; [|by apply triple_ret].
  assert (∀ s, ok (add u K) X s → ok K X s) as Hw.
  { intros y Hy. eapply hok_weaken; [exact Hy|by left|]. auto. }
  eapply (triple_bind _ _ _ (λ _, ok (add u K) X)).
  { intros y Hy. assert (keeps (E := PyreError) (ok (add u K) X) (call_opt h (Worker.ctrl_get_pane_info now i slot))) as Hk
      by (unfold Worker.ctrl_get_pane_info; hkeep).
    specialize (Hk y Hy). unfold call_opt in *. by destruct (call h _ y). }
  intros [info|]; [|apply triple_ret; intros y Hy; by apply Hw].
  eapply (triple_bind _ _ _ (λ _, ok (add u K) X)).
  { intros y Hy. assert (keeps (E := PyreError) (ok (add u K) X) (log (Store.get_pane_name env (MkPaneId u)))) as Hk
      by (unfold Store.get_pane_name; hkeep).
    specialize (Hk y Hy). destruct (log _ y) as [y' [o|e]]; [done|by apply Hw]. }
  intros name. by apply triple_ret.
Qed.
Lemma pane_row_hok K X now i s sid h slot : keeps (ok K X) (pane_row env now i s sid h slot).
Proof.
  intros y Hy. pose proof (pane_row_known K X now i s sid h slot ltac:(apply Hy) y Hy) as Hm.
  destruct (pane_row _ _ _ _ _ _ _ y) as [y' [o|e]]; [|done]. eapply hok_weaken; [exact Hm| |].
  - intros p Hp. destruct o; [by left|done].
  - intros p Hp. split; [done|]. by apply Hy.
Qed.
Lemma assigned_window_hok (K X : PaneId → Prop) s sid p : K p → keeps (ok K X) (assigned_window env s sid p).
Proof.
  intros Hp. unfold assigned_window. keep_step; [hkeep|]. destruct a as [w|]; [hkeep|].
  keep_step; [apply default_window_hok|]. destruct a as [w|]; [|hkeep]. keep_step; [hkeep|].
  keep_step; [by apply sup_hok, insert_pane_window_sok|hkeep].
Qed.
Lemma list_panes_loop_hok K X now i s sid h slots : keeps (ok K X) (list_panes_loop env now i s sid h slots).
Proof.
  revert K. induction slots as [|slot slots IH]; intros K; cbn [list_panes_loop]; [hkeep|].
  apply keeps_inside. intros HX.
  eapply (bind_known env old K X _ _ (λ o, match o with Some info => add (pane_uuid (pi_id info)) K | None => K end));
    [done|by intros [info|] p Hp; [left|]|by apply pane_row_known|].
  intros [info|]; [|apply IH]. keep_step; [apply assigned_window_hok; right; by destruct (pi_id info)|].
  keep_step; [apply IH|hkeep].
Qed.
Lemma list_panes_hok K X now i sid : keeps (ok K X) (list_panes env message now i sid).
Proof.
  unfold list_panes. cbv zeta. do 2 (keep_step; [hkeep|]). keep_step; [hkeep|]. apply list_panes_loop_hok.
Qed.
Lemma rows_of_worker_hok K X now i s sid h slots : keeps (ok K X) (rows_of_worker env now i s sid h slots).
Proof.
  induction slots as [|slot slots IH]; cbn [rows_of_worker]; [hkeep|]. keep_step; [apply pane_row_hok|].
  keep_step; [exact IH|hkeep].
Qed.
Lemma list_all_panes_hok K X now i : keeps (ok K X) (list_all_panes env now i).
Proof.
  unfold list_all_panes. keep_step; [hkeep|]. induction a as [|[[s u] h] l IH]; cbn [list_all_loop]; [hkeep|].
  keep_step; [hkeep|]. keep_step; [apply rows_of_worker_hok|]. keep_step; [exact IH|hkeep].
Qed.

Lemma open_pane_hok os req : keeps (ok nobody nobody) (open_pane env message os req).
Proof.
  unfold open_pane. cbv zeta. do 2 (keep_step; [hkeep|]).
  eapply (bind_known env old nobody nobody _ _ (λ ps, add ps.1 nobody)); [done|by left|by apply alloc_known|].
  intros [u slot]. cbn [fst]. keep_step; [unfold Worker.ctrl_open_pane; hkeep|]. cbv zeta.
  keep_step; [case_decide; [apply default_or_new_hok|hkeep]|]. keep_step; [hkeep|].
  keep_step; [apply sup_hok, insert_pane_window_sok; by right|]. keep_step; [hkeep|].
  keep_step; [|hkeep]. case_decide; [hkeep|]. keep_step; [hkeep|].
  apply (place_leaf_hok _ u); [by right|]. intros m. destruct (m !! _); [by left|right; by eexists _, _, _, _].
Qed.
Lemma close_pane_hok K X sql p : keeps (ok K X) (close_pane env message sql p).
Proof.
  unfold close_pane. keep_step; [apply route_hok|]. keep_step; [unfold Worker.ctrl_close_pane; hkeep|].
  keep_step; [hkeep|]. intros s Hs. eapply triple_state; [|exact Hs].
  eapply triple_bind; [exact (sup_triple _ _ _ _ (close_leaf_sok (E := PyreError) env old K X _ p (sup_ok env old K X)))|].
  intros o. eapply (triple_bind _ _ _ (λ _ s, layout_at_hand env old K X o (hy_sup s))).
  - intros y [Hy Hj]. pose proof (delete_pane_window_sok (E := PyreError) env old K X p (hy_sup y) Hy) as Hd. by split.
  - intros []. exact (sup_triple _ _ _ _ (persist_layout_sok (E := PyreError) env old K X p o (sup_ok env old K X))).
Qed.
Lemma close_session_hok K X sid : keeps (ok K X) (close_session env sid).
Proof.
  unfold close_session. cbv zeta. do 2 (keep_step; [hkeep|]). keep_step; [hkeep|].
  keep_step; [|hkeep]. keep_step. unfold close_session_window. hkeep.
Qed.
Lemma set_pane_state_hok K X i w p st r : keeps (ok K X) (set_pane_state message i w p st r).
Proof. unfold set_pane_state, Worker.ctrl_set_pane_state. keep_step; [apply route_hok|]. hkeep. Qed.
Lemma mark_pane_seen_hok K X p : keeps (ok K X) (mark_pane_seen message p).
Proof. unfold mark_pane_seen, Worker.ctrl_mark_pane_seen. keep_step; [apply route_hok|]. hkeep. Qed.
Lemma send_keys_hok K X c p bs : keeps (ok K X) (send_keys message c p bs).
Proof. unfold send_keys. keep_step; [apply route_hok|]. hkeep. Qed.
Lemma resize_pane_hok K X f req : keeps (ok K X) (resize_pane message f req).
Proof. unfold resize_pane. keep_step; [apply route_hok|]. hkeep. Qed.
Lemma rename_pane_hok K X p n : keeps (ok K X) (rename_pane env store_message p n).
Proof. unfold rename_pane. hkeep. Qed.
Lemma evict_hok K X l : keeps (ok K X) (evict_sessions l).
Proof.
  induction l as [|s l IH]; cbn [evict_sessions]; [hkeep|]. keep_step; [hkeep|]. destruct a as [h|]; [|exact IH].
  intros y Hy. assert (keeps (ok K X) (call h (Worker.shutdown 5))) as Hk.
  { apply call_hok. apply shutdown_wkeeps. }
  specialize (Hk y Hy). destruct (call h _ y) as [y' r]. revert y' Hk. change (keeps (ok K X) (let! evicted := evict_sessions l in
    ret (E := PyreError) (match r with Err Transport => evicted | _ => s :: evicted end))). keep_step; [exact IH|hkeep].
Qed.
Lemma gc_hok K X : keeps (ok K X) gc_stale_sessions.
Proof.
  unfold gc_stale_sessions. keep_step; [hkeep|]. keep_step; [|apply evict_hok].
  induction a as [|[s h] l IH]; cbn [empty_sessions]; [hkeep|]. keep_step; [hkeep|]. keep_step; [exact IH|hkeep].
Qed.
End Handlers.

(** ** Windows and layouts *)
Section Layouts.
Context `{UuidText, LayoutJson, SqlOrder, Zstd, ChronoRange, HashOrder, UnicodeLower, BlockIndex.Tantivy}.
Context (env : Store.Env) (rt : string).
Context (message : CtrlError → string) (store_message : Store.StoreError → string).
Context (old : Uuid → Prop).
Context (distinct : ∀ i j, Store.env_uuid env i = Store.env_uuid env j → i = j).
Context (fresh : ∀ i, ¬ old (Store.env_uuid env i)).
#[local] Hint Extern 0 (SupervisorWorker Sup) => exact (supervisor_worker env) : typeclass_instances.
#[local] Abbreviation ok := (hok env old).
#[local] Abbreviation count := (λ s : Hy, Store.st_uuids (su_store (hy_sup s))).

Lemma warm_rows_hok K X s rows : keeps (E := PyreError) (ok K X) (sup (modify_windows (warm_rows s rows))).
Proof.
  apply sup_hok, modify_windows_sok. intros n w _ Ht Hp. unfold warm_rows.
  set (w0 := on_session _ w). assert (trees_ok env old X n (window_store w0) ∧
    map_Forall (λ p _, known env old n (pane_uuid p)) (pane_window_map w0)) as Hw by done. clearbody w0. revert w0 Hw.
  induction rows as [|row rows IH]; intros w0 [Ht0 Hp0]; cbn [fold_left]; [done|]. apply IH. split; [|done].
  cbn. destruct (window_store w0 !! row.1.1); [done|]. by apply map_Forall_insert_2.
Qed.
Lemma window_infos_hok K X sid ids : keeps (ok K X) (window_infos env sid ids).
Proof.
  induction ids as [|w ids IH]; cbn [window_infos]; [hkeep|]. keep_step; [hkeep|]. destruct a as [m|]; [|exact IH].
  keep_step; [unfold Store.get_window_name; hkeep|]. cbv zeta. do 2 (keep_step; [hkeep|]). keep_step; [exact IH|hkeep].
Qed.
Lemma list_windows_hok K X sid : keeps (ok K X) (list_windows env store_message sid).
Proof.
  unfold list_windows. cbv zeta. keep_step; [hkeep|]. keep_step; [|apply window_infos_hok]. destruct a; [|hkeep].
  keep_step; [hkeep|]. keep_step; [apply warm_rows_hok|hkeep].
Qed.
Lemma new_window_hok K X sid n : keeps (ok K X) (new_window env store_message sid n).
Proof.
  unfold new_window. cbv zeta. keep_step; [hkeep|]. keep_step; [hkeep|]. cbv zeta. keep_step; [hkeep|].
  keep_step; [hkeep|]. keep_step; [by apply sup_hok, insert_window_sok|]. hkeep.
Qed.
Lemma rename_window_hok K X w n : keeps (ok K X) (rename_window env store_message w n).
Proof. unfold rename_window. hkeep. Qed.
Lemma close_window_hok K X sql w : keeps (ok K X) (close_window env store_message sql w).
Proof.
  unfold close_window. keep_step; [hkeep|]. keep_step.
  - keep_step. unfold close_window_pane, Worker.ctrl_close_pane. hkeep.
  - hkeep.
Qed.
Lemma fallback_hok K X sid s : keeps (ok K X) (window_single_leaf_fallback env message sid s).
Proof.
  unfold window_single_leaf_fallback. do 2 (keep_step; [hkeep|]). keep_step; [hkeep|]. keep_step; [destruct a1; hkeep|].
  destruct a2; hkeep.
Qed.

Lemma prune_tree_ok X n live t : tree_ok env old X n t → tree_ok env old X n (prune_ghosts live t).
Proof.
  unfold prune_ghosts. generalize (filter (λ id, id ∉ live) (all_leaves t)) as l. intros l. revert t.
  induction l as [|g l IH]; intros t Ht; [done|]. cbn [fold_left]. apply IH. by apply close_tree_ok.
Qed.

Lemma log_run {E A} (m : Store.S A) s :
  log (E := E) m s = (set_sup (store_call m (hy_sup s)).1 s,
    Ok (match (store_call m (hy_sup s)).2 with Ok a => Some a | Err _ => None end)).
Proof. unfold log, sup, zoom, log_store. by destruct (store_call m (hy_sup s)). Qed.

Lemma reconcile_hok K X s w t y : ok K X y → tree_ok env old X (count y) t → ok K X (reconcile env s w t y).1.
Proof.
  intros Hy Ht. unfold reconcile, bind, gets_sup, gets. set (live := live_in_window s w (hy_sup y)).
  case_decide; [done|]. case_decide; [done|]. cbv zeta.
  assert (tree_ok env old X (count y) (prune_ghosts live t)) as Hp by (by apply prune_tree_ok).
  pose proof (alter_tree_sok (E := PyreError) env old K X w _ _ Hy Hp) as Ha.
  destruct (upsert_layout_sok env old K X w (layout_to_json (prune_ghosts live t)) _ Ha) as [Hs _];
    [by apply tree_json_ok|].
  change (sup (modify_windows ?f) y) with (set_sup (set_windows f (hy_sup y)) y, Ok (E := PyreError) tt).
  cbv iota beta. rewrite log_run. exact Hs.
Qed.

Lemma stored_layout_hok {E} K X w y :
  ok K X y → match log (E := E) (Store.get_window_layout_json env w) y with
             | (y', Ok o) => ok K X y' ∧ ∀ json, mjoin o = Some json → json_ok env old X (count y') json
             | (y', Err _) => ok K X y'
             end.
Proof.
  intros Hy. assert (keeps (E := E) (ok K X) (log (Store.get_window_layout_json env w))) as Hk
    by (unfold Store.get_window_layout_json; hkeep).
  specialize (Hk y Hy). unfold log, sup, zoom, log_store, store_call, Store.get_window_layout_json, Store.fetch,
    Store.query in *. cbn in *. unfold zoom in *. destruct (Store.env_fault env _); cbn in *; [by split|]. split; [exact Hk|].
  intros json Hj. destruct (Store.db_windows _ !! _) as [r|] eqn:Er; [|done]. cbn in Hj. destruct Hy as (_ & _ & _ & _ & _ & Hs).
  by eapply (Hs _ r).
Qed.

Lemma get_window_layout_hok K X w : keeps (ok K X) (get_window_layout env message w).
Proof.
  unfold get_window_layout. intros y Hy. unfold bind at 1, gets_sup, gets.
  destruct (window_store (su_windows (hy_sup y)) !! w) as [meta|] eqn:Em; [|done].
  cbn [expect ok_or]. unfold bind at 1, expect at 1, of_result. cbn [ok_or]. unfold bind at 1, expect, of_result.
  destruct (uuid_parse (wm_session_id meta)) as [u|]; cbn [ok_or]; [|done].
  destruct (wm_layout meta) as [t|] eqn:Et.
  - apply reconcile_hok; [done|]. destruct Hy as (_ & _ & _ & Ht & _). by eapply Ht.
  - unfold bind at 1. pose proof (stored_layout_hok (E := PyreError) K X w y Hy) as Hl.
    destruct (log _ y) as [y1 [o|e]]; [|done]. destruct Hl as [Hy1 Hj].
    destruct (mjoin o) as [json|] eqn:Eo; cbn [mbind option_bind]; [|by apply fallback_hok].
    destruct (layout_from_json json) as [t|] eqn:Ej; [|by apply fallback_hok].
    assert (tree_ok env old X (count y1) t) as Ht by (by eapply Hj).
    pose proof (alter_tree_sok (E := PyreError) env old K X w t _ Hy1 Ht) as Ha.
    unfold bind. destruct (sup _ y1) as [y2 r] eqn:E2. unfold sup, zoom in E2. cbn in E2. injection E2 as <- <-.
    by apply reconcile_hok.
Qed.

Lemma set_pane_weight_hok K X p w : keeps (ok K X) (set_pane_weight env store_message p w).
Proof.
  unfold set_pane_weight. do 2 (keep_step; [hkeep|]). intros y Hy. unfold bind at 1, gets_sup, gets.
  destruct (window_store (su_windows (hy_sup y)) !! a0 ≫= wm_layout) as [t|] eqn:E1; [|done].
  unfold bind at 1, expect, of_result. cbn [ok_or]. cbv zeta. apply bind_Some in E1 as (m & Hm & Hl).
  assert (tree_ok env old X (count y) (set_weight t p w)) as Ht.
  { apply weight_tree_ok. destruct Hy as (_ & _ & _ & Ht & _). by eapply Ht. }
  pose proof (alter_tree_sok (E := PyreError) env old K X a0 _ _ Hy Ht) as Ha.
  destruct (upsert_layout_sok env old K X a0 (layout_to_json (set_weight t p w)) _ Ha) as [Hs _]; [by apply tree_json_ok|].
  unfold bind, sup at 1, zoom at 1. cbn [modify_windows modify result_map_err]. unfold store, zoom. cbn [hy_sup set_sup] in *.
  cbn [modify_windows modify fst] in Hs. destruct (store_call _ _) as [x [[]|e]]; cbn [fst result_map_err] in *; [|done].
  exact (emit_sok (E := PyreError) env old K X p LayoutChanged None x Hs).
Qed.

Lemma get_session_layout_hok K X sid : keeps (ok K X) (get_session_layout env message store_message sid).
Proof.
  unfold get_session_layout. cbv zeta. keep_step; [hkeep|]. destruct a; [apply get_window_layout_hok|].
  keep_step; [hkeep|]. destruct (head a) as [row|]; [|apply fallback_hok]. do 2 (keep_step; [hkeep|]).
  apply get_window_layout_hok.
Qed.
End Layouts.

(** ** Splitting a pane *)
Section Split.
Context `{UuidText, LayoutJson, SqlOrder, Zstd, ChronoRange, HashOrder, UnicodeLower, BlockIndex.Tantivy}.
Context (env : Store.Env) (rt : string).
Context (message : CtrlError → string) (store_message : Store.StoreError → string).
Context (old : Uuid → Prop).
Context (distinct : ∀ i j, Store.env_uuid env i = Store.env_uuid env j → i = j).
Context (fresh : ∀ i, ¬ old (Store.env_uuid env i)).
#[local] Hint Extern 0 (SupervisorWorker Sup) => exact (supervisor_worker env) : typeclass_instances.
#[local] Abbreviation ok := (hok env old).
#[local] Abbreviation count := (λ s : Hy, Store.st_uuids (su_store (hy_sup s))).

Lemma alloc_new {E} K X session :
  triple (ok K X) (sup (E := E) (alloc_pane env session))
    (λ ps s, ok (add ps.1 K) (add ps.1 X) s ∧ ¬ K (MkPaneId ps.1)) (ok K X).
Proof.
  intros s Hs. pose proof (alloc_unplaced (E := E) env old distinct fresh K X session s Hs) as Hm.
  split; [exact Hm|]. cbn. intros HK. apply Hs in HK. by eapply (fresh_unknown env old distinct fresh).
Qed.

(** A keeping step of a triple. *)
Lemma triple_keeps {S E A} (I : S → Prop) (m : M S E A) : keeps I m → triple I m (λ _, I) I.
Proof. intros Hm s Hs. specialize (Hm s Hs). by destruct (m s) as [s' [a|e]]. Qed.

Lemma split_meta_ok (K : PaneId → Prop) u parent orient session meta n :
  known env old n u → known env old n (pane_uuid parent) → parent ≠ MkPaneId u →
  (∀ m t, meta = Some m → wm_layout m = Some t → tree_ok env old (add u nobody) n t) →
  ∃ t, wm_layout (split_meta parent (MkPaneId u) orient session meta) = Some t ∧ tree_ok env old nobody n t.
Proof.
  intros Hu Hpar Hne Hmeta. unfold split_meta. cbv zeta.
  set (m := default _ meta). assert (tree_ok env old (add u nobody) n (default (Leaf parent) (wm_layout m))) as [Ht Hl].
  { assert (tree_ok env old (add u nobody) n (Leaf parent)) as Hlf.
    { destruct parent as [v]. apply single_leaf_ok; [done|]. by intros [[]|?]. }
    subst m. destruct meta as [m|]; cbn; [|done]. destruct (wm_layout m) as [t|] eqn:Et; [by eapply Hmeta|done]. }
  eexists. split; [reflexivity|]. rewrite Forall_forall in Hl.
  assert (MkPaneId u ∉ all_leaves (default (Leaf parent) (wm_layout m))) as Hnew.
  { intros Hin. destruct (Hl _ Hin) as [_ Hx]. apply Hx. by right. }
  split; [by eapply layout_step_ok; [apply step_split|]|]. rewrite Forall_forall. intros q Hq.
  apply split_leaves_subset in Hq as [Hq| ->]; [|split; [done|by intros []]]. split; [by apply Hl|by intros []].
Qed.

(** What follows once the target window is known. *)
Definition place_split (u : Uuid) (parent : PaneId) (orient : Orient) (session : string) (sid : SessionId)
    (target : WindowId) : HM PyreError PaneId :=
  let! before := gets_sup (λ x, window_store (su_windows x) !! target) in
  let meta := split_meta parent (MkPaneId u) orient session before in
  do! sup (modify_windows (on_store <[target := meta]>)) in
  do! log (Store.upsert_window_layout env target (from_option layout_to_json "" (wm_layout meta))) in
  do! log (Store.assign_pane_window env (MkPaneId u) sid target) in
  do! sup (modify_windows (on_pane_window <[MkPaneId u := target]>)) in
  do! sup (emit (MkPaneId u) Spawned (Some Running)) in
  do! sup (emit (MkPaneId u) LayoutChanged None) in
  ret (MkPaneId u).

Lemma place_split_hok (K : PaneId → Prop) u parent orient session sid target y :
  K parent → parent ≠ MkPaneId u → K (MkPaneId u) → ok K (add u nobody) y →
  ok K nobody (place_split u parent orient session sid target y).1.
Proof.
  intros Hpar Hne Hu Hy. unfold place_split, bind at 1, gets_sup, gets. cbv zeta.
  set (before := window_store (su_windows (hy_sup y)) !! target).
  destruct (split_meta_ok K u parent orient session before (count y)) as (t & Ht & Hok); [by apply Hy in Hu|by apply Hy in Hpar|done| |].
  { intros m t Hm Hl. destruct Hy as (_ & _ & _ & Htr & _). by eapply (Htr target m Hm). }
  set (meta := split_meta _ _ _ _ _) in *. rewrite Ht. cbn [from_option].
  assert (ok K nobody y) as Hy' by (eapply hok_weaken; [exact Hy|done|by intros ? []]).
  pose proof (insert_tree_sok (E := PyreError) env old K nobody target meta _ Hy') as Hi. rewrite Ht in Hi.
  specialize (Hi ltac:(by intros ? [= <-])).
  destruct (upsert_layout_sok env old K nobody target (layout_to_json t) _ Hi) as [Hs _]; [by apply tree_json_ok|].
  unfold bind at 1. change (sup (modify_windows ?f) y) with (set_sup (set_windows f (hy_sup y)) y, Ok (E := PyreError) tt).
  cbv iota beta. unfold bind at 1. rewrite log_run. cbv iota beta.
  match goal with |- ok K nobody (?m ?s).1 => assert (keeps (ok K nobody) m) as Hk; [|by apply Hk] end.
  keep_step; [hkeep|]. keep_step; [by apply sup_hok, insert_pane_window_sok|]. hkeep.
Qed.

Lemma open_pane_split_hok os req : keeps (ok nobody nobody) (open_pane_split env message os req).
Proof.
  unfold open_pane_split. cbv zeta. intros y Hy. unfold bind at 1, gets_sup, gets.
  destruct (lookup_pane (Server.os_parent_pane req) (hy_sup y)) as [ss|] eqn:El; [|done].
  unfold bind at 1, expect at 1, of_result. cbn [ok_or].
  pose proof (lookup_known env old nobody nobody _ _ _ El Hy ltac:(eauto)) as Hy1.
  set (K1 := add (pane_uuid (Server.os_parent_pane req)) nobody) in *.
  assert (∀ s, ok K1 nobody s → ok nobody nobody s) as Hw1
    by (intros s Hs; eapply hok_weaken; [exact Hs|by intros ? []|by intros ? []]).
  match goal with |- ok _ _ (?m y).1 => assert (triple (ok K1 nobody) m (λ _, ok nobody nobody) (ok nobody nobody)) as Hm end.
  2: { exact (triple_state _ _ _ Hm y Hy1). }
  clear y Hy El Hy1.
  eapply (triple_bind _ _ _ (λ _, ok K1 nobody)); [by apply triple_expect; [done|]; intros s Hs; apply Hw1|]. intros u0. cbv zeta.
  eapply (triple_bind _ _ _ (λ _, ok K1 nobody)); [by apply triple_gets|]. intros client.
  eapply (triple_bind _ _ _ (λ _, ok K1 nobody)); [by apply triple_expect; [done|]; intros s Hs; apply Hw1|]. intros h.
  eapply triple_bind; [eapply triple_conseq; [apply (alloc_new K1 nobody)|done|intros a s Hs; exact Hs|exact Hw1]|].
  intros [u slot]. cbn [fst]. apply triple_pure. intros Hnew.
  set (K2 := add u K1). assert (∀ s, ok K2 (add u nobody) s → ok nobody nobody s) as Hw2
    by (intros s Hs; eapply hok_weaken; [exact Hs|by intros ? []|by intros ? []]).
  eapply (triple_bind _ _ _ (λ _, ok K2 (add u nobody))).
  { eapply triple_conseq; [apply (triple_keeps (ok K2 (add u nobody)))|done|done|exact Hw2]. unfold Worker.ctrl_open_pane. hkeep. }
  intros []. eapply (triple_bind _ _ _ (λ _, ok K2 (add u nobody))); [by apply triple_gets|]. intros pw.
  eapply (triple_bind _ _ _ (λ _, ok K2 (add u nobody))).
  { eapply triple_conseq; [apply (triple_keeps (ok K2 (add u nobody)))|done|done|exact Hw2]. destruct pw; [hkeep|by apply default_or_new_hok]. }
  intros target. intros y Hy.
  pose proof (place_split_hok K2 u (Server.os_parent_pane req) (Server.os_orient req) ss.1 (MkSessionId u0) target y) as Hp.
  assert (ok nobody nobody (place_split u (Server.os_parent_pane req) (Server.os_orient req) ss.1 (MkSessionId u0)
    target y).1) as Hfin.
  { eapply hok_weaken; [apply Hp|by intros ? []|by intros ? []]; [left; right; by destruct (Server.os_parent_pane req)| |by right|done].
    intros E. apply Hnew. rewrite <- E. right. by destruct (Server.os_parent_pane req). }
  match goal with |- match ?t with _ => _ end => destruct t as [y' r] eqn:Er end.
  assert (ok nobody nobody y') as Hy'.
  { replace y' with (y', r).1 by done. rewrite <- Er. exact Hfin. }
  by destruct r.
Qed.
End Split.

(** ** Steps of the system *)
Section Steps.
Context `{UuidText, LayoutJson, SqlOrder, Zstd, ChronoRange, HashOrder, UnicodeLower, BlockIndex.Tantivy}.
Context (env : Store.Env) (rt : string).
Context (message : CtrlError → string) (store_message : Store.StoreError → string).
Context (old : Uuid → Prop).
Context (distinct : ∀ i j, Store.env_uuid env i = Store.env_uuid env j → i = j).
Context (fresh : ∀ i, ¬ old (Store.env_uuid env i)).
#[local] Hint Extern 0 (SupervisorWorker Sup) => exact (supervisor_worker env) : typeclass_instances.
#[local] Abbreviation ok := (hok env old).

Lemma in_worker_hok K X pid (m : Worker.W (Up := Sup) string unit) s :
  keeps (atUp (sup_ok env old K X)) m → ok K X s → ok K X (in_worker pid m s).
Proof. intros Hm Hs. unfold in_worker. destruct (hy_procs s !! pid); [|done]. by apply run_worker_hok. Qed.
Lemma respawn_hok K X f s : keeps (ok K X) (respawn f s).
Proof. unfold respawn, spawn_worker. keep_step. keep_step; [keep_step|by apply modify_hok]. Qed.
Lemma monitor_hok K X f i : keeps (ok K X) (heartbeat_monitor f i).
Proof. unfold heartbeat_monitor. keep_step; [hkeep|]. keep_step. keep_step; [hkeep|]. apply respawn_hok. Qed.
Lemma reap_hok K X f pid : keeps (ok K X) (reap f pid).
Proof.
  unfold reap. keep_step; [hkeep|]. destruct a; [|hkeep]. do 2 (keep_step; [hkeep|]).
  destruct (a =? 0)%nat; [hkeep|apply respawn_hok].
Qed.
Lemma remove_shard_hok K X b s : keeps (ok K X) (remove_shard_dir b s).
Proof. unfold remove_shard_dir. keep_step; [hkeep|]. destruct a; [|hkeep]. destruct b; [by apply modify_hok|hkeep]. Qed.
Lemma reattach_session_hok K X os sid : keeps (ok K X) (reattach_session env rt os sid).
Proof.
  unfold reattach_session. cbv zeta. keep_step; [hkeep|]. destruct (bo_spawn_failed os _); [hkeep|].
  keep_step; [by apply modify_hok|]. destruct (bo_registration os _); hkeep.
Qed.
Lemma reattach_hok K X os : keeps (ok K X) (reattach env rt os).
Proof.
  unfold reattach. keep_step; [hkeep|]. cbv zeta. keep_step; [hkeep|]. keep_step; [|keep_step; apply reattach_session_hok].
  keep_step. unfold gc_stale_shard. cbv zeta. keep_step; [hkeep|]. destruct a1; [hkeep|]. keep_step. apply remove_shard_hok.
Qed.
Lemma send_heartbeat_hok K X i : keeps (atUp (sup_ok env old K X)) (send_heartbeat env i).
Proof. unfold send_heartbeat, Worker.session_id. hkeep. Qed.

Lemma step_ok l s : ok nobody nobody s → ok nobody nobody (step env rt message store_message l s).
Proof.
  intros Hs. destruct l; cbn [step];
    try match goal with |- ok _ _ (?m s).1 => refine ((_ : keeps (ok nobody nobody) m) s Hs) end.
  - by apply spawn_hok.
  - by apply attach_hok.
  - by apply kill_hok.
  - by apply list_sessions_hok.
  - by apply list_panes_hok.
  - by apply list_all_panes_hok.
  - by apply open_pane_hok.
  - by apply close_pane_hok.
  - by apply close_session_hok.
  - by apply set_pane_state_hok.
  - by apply mark_pane_seen_hok.
  - by apply send_keys_hok.
  - by apply resize_pane_hok.
  - unfold rename_session. hkeep.
  - by apply rename_pane_hok.
  - unfold request_focus. hkeep.
  - unfold take_focus_request. hkeep.
  - by apply gc_hok.
  - by apply list_windows_hok.
  - by apply new_window_hok.
  - by apply rename_window_hok.
  - by apply close_window_hok.
  - by apply get_window_layout_hok.
  - by apply open_pane_split_hok.
  - by apply set_pane_weight_hok.
  - by apply get_session_layout_hok.
  - case_decide; [|done]. by apply (start_worker_hok env rt old distinct fresh nobody nobody st session s).
  - apply in_worker_hok; [hkeep|done].
  - apply in_worker_hok; [hkeep|done].
  - apply in_worker_hok; [hkeep|done].
  - apply in_worker_hok; [apply send_heartbeat_hok|done].
  - destruct (hy_procs s !! pid) as [w|]; [|done]. destruct (Worker.wk_closing w); [|done].
    apply in_worker_hok; [hkeep|done].
  - done.
  - destruct (hy_procs s !! pid); [done|]. by apply reap_hok.
  - by apply monitor_hok.
  - by apply reattach_hok.
Qed.
Lemma steps_ok ls s : ok nobody nobody s → ok nobody nobody (steps env rt message store_message ls s).
Proof. revert s. induction ls as [|l ls IH]; intros s Hs; [done|]. cbn [steps fold_left]. by apply IH, step_ok. Qed.
End Steps.

(** ** Properties *)

(** C1: the multi-process daemon never builds a bad window. From a boot on any
    database whose persisted layouts are well formed over panes of earlier runs, after
    any steps - requests of clients, reports of workers, shells that exit, workers that
    die, are respawned or attached again, statements the database refuses - every
    layout in memory and in the database keeps the documented invariant (weights
    between 5 and 95 that sum to 100, two children per split, no pane twice), and
    every pane drawn, indexed or assigned to a window is one the daemon allocated. *)
Theorem hybrid_reachable_ok `{UuidText, LayoutJson, SqlOrder, Zstd, ChronoRange, HashOrder, UnicodeLower}
    `{BlockIndex.Tantivy} env rt message store_message (old : Uuid → Prop) st disk ls
    (distinct : ∀ i j, Store.env_uuid env i = Store.env_uuid env j → i = j)
    (fresh : ∀ i, ¬ old (Store.env_uuid env i)) (Hst : store_ok env old nobody st) :
  sup_ok env old nobody nobody (hy_sup (steps env rt message store_message ls (boot st disk))).
Proof.
  apply steps_ok; [done|done|]. split_and!; cbn; [by intros ? []|by intros ? []| | | |done]; apply map_Forall_empty.
Qed.

(** ** Witness *)
Section Witnesses.
#[local] Existing Instances binary_uuid binary_json stable_order no_compression chrono_0_4 list_hash
  BlockIndex.substring_engine PaneTracker.all_ascii_lower.

(** An environment that draws even identifiers, on a database an earlier run left a
    session and a window with pane 1 in. *)
Definition even_env : Store.Env := Store.MkEnv (λ _, false) (λ n, 2 * N.of_nat n)%N (λ n, Z.of_nat n).
Definition odd (u : Uuid) : Prop := N.odd u = true.
Definition left_behind : Store.St :=
  Store.MkSt 0 0 0 (Store.MkDb {[uuid_to_string 7%N := Store.MkSessionRow "old" 0 0 None]} ∅ ∅
    {[uuid_to_string 9%N := Store.MkWindowRow (uuid_to_string 7%N) "1" (Some (layout_to_json (Leaf (MkPaneId 1)))) 0 0]})
    ∅ "/d".
Definition a_day : list Label :=
  [LReattach (MkBootOs (λ _, true) (λ _, true) no_failure (λ _, Started (a_start 99)));
   LSpawn None (Started (a_start 100)) (a_terminal 500) spawn_req; LListPanes 0 0 (MkSessionId 0);
   LSplit (a_terminal 501) (split_req (MkPaneId 2)); LWindowLayout (MkWindowId 9); LExit 100;
   LReap no_failure 100; LStart (a_start 101) (uuid_to_string 0%N); LListPanes 0 0 (MkSessionId 0)].

Lemma hybrid_reachable_ok_witness :
  sup_ok even_env odd nobody nobody
    (hy_sup (steps even_env "/run" call_text store_text a_day (boot left_behind {[uuid_to_string 7%N := {[0 := ("", "/")]}]}))).
Proof.
  apply hybrid_reachable_ok.
  - cbn. lia.
  - intros i. unfold odd. cbn. rewrite N.odd_mul. done.
  - intros k r Hr json Hj t Ht. cbn in Hr. apply lookup_singleton_Some in Hr as [_ <-]. injection Hj as <-.
    change (layout_from_json (layout_to_json (Leaf (MkPaneId 1))) = Some t) in Ht.
    rewrite layout_json_roundtrip in Ht. injection Ht as <-. apply single_leaf_ok; [by left|by intros []].
Defined.
End Witnesses.
