(* ===== verification/HybridLife.v ===== *)
(** * HybridLife: workers that die, fall silent or come back

    Theorems on the life cycle of worker processes: what the SIGCHLD handler, a new
    worker on the old shard, the heartbeat monitor and the attachment at boot do to
    the registry, the shards and the processes. *)
From Stdlib Require Import Strings.Byte.
From S2P Require Import Prelude Proto Text Layout Libraries Effects EventBus PaneTracker.
From S2P Require Import Store StoreBlocks Registry RegistryInv BlockIndex Server WorkerRegistry Worker WorkerInv.
From S2P Require Import Supervisor SupervisorRpc Hybrid.
Local Open Scope Z_scope.
Import Supervisor Rpc Hybrid.

Section Life.
Context `{UuidText, LayoutJson, SqlOrder, Zstd, ChronoRange, HashOrder, UnicodeLower, BlockIndex.Tantivy}.
Context (env : Store.Env) (rt : string).
#[local] Hint Extern 0 (SupervisorWorker Sup) => exact (supervisor_worker env) : typeclass_instances.

(** ** A worker that starts on a shard *)
Definition healthy_start (st : StartOs) : Prop :=
  st_sql st = true ∧ st_dialled st = true ∧ WorkerInv.healthy (WCrash (st_os st)).

Lemma recover_up sql os (w : Worker.World (Up := Sup)) :
  Worker.wd_up (Worker.recover sql os w).1 = Worker.wd_up w ∧
  Worker.wk_session_id (Worker.wd_worker (Worker.recover sql os w).1) = Worker.wk_session_id (Worker.wd_worker w).
Proof.
  unfold Worker.recover. destruct (Worker.load_panes sql w) as [w1 rows] eqn:E.
  assert (w1 = w) as -> by (unfold Worker.load_panes in E; destruct sql; by injection E).
  set (l := match rows with Ok l => l | Err _ => [] end). clearbody l. clear E rows.
  refine (keeps_for_each (λ v, Worker.wd_up v = Worker.wd_up w ∧
    Worker.wk_session_id (Worker.wd_worker v) = Worker.wk_session_id (Worker.wd_worker w)) _ l _ w (conj eq_refl eq_refl)).
  intros [[slot sh] cwd]. apply keeps_attempt. intros v [Hv1 Hv2]. rewrite open_pane_run. by destruct (Worker.os_spawn _ _).
Qed.

Definition registered (st : StartOs) (session : string) : WorkerHandle :=
  MkWorkerHandle (st_pid st) (worker_sock rt session) (Worker.stream_sock_path (pyre_dir rt) session) (st_instant st).

(** It has the panes of the shard, leaves the shard alone and registers. *)
Lemma start_worker_run {E} st session shard (s : Hy) :
  healthy_start st → hy_disk s !! session = Some shard → map_Forall (λ slot _, wrap_u32 slot = slot) shard →
  ∃ w', (start_worker (E := E) env rt st session s).1 =
    MkHy (sv_register_worker (st_instant st) true session (st_pid st) (worker_sock rt session)
            (Worker.stream_sock_path (pyre_dir rt) session) (hy_sup s)).1
      (<[st_pid st := w']> (hy_procs s)) (<[session := shard]> (hy_disk s)) (remove_once session (hy_spawned s)) ∧
    persisted (Worker.wk_panes w') = shard ∧ Worker.wk_session_id w' = session.
Proof.
  intros (Hsql & Hd & Hos) Hdisk Hu. unfold start_worker, run_worker. cbn [Worker.wk_session_id Worker.new_worker].
  cbn [set_spawned hy_disk hy_sup hy_procs hy_spawned]. rewrite Hdisk, Hsql, Hd. cbn [default]. change (id shard) with shard.
  set (w0 := Worker.MkWorld (Worker.new_worker session) shard (hy_sup s)).
  destruct (recover_synced (st_os st) w0 Hos Hu eq_refl) as ([Hp _] & Hsh & _).
  destruct (recover_up true (st_os st) w0) as [Hup Hsid].
  unfold Worker.start, bind. destruct (Worker.recover true (st_os st) w0) as [w1 r] eqn:Er. cbn [fst] in *.
  assert (r = Ok tt) as ->.
  { unfold Worker.recover, Worker.load_panes, gets in Er. rewrite for_each_total in Er by (by intros [[? ?] ?] ?).
    by injection Er. }
  unfold Worker.session_id, gets, Worker.notify. cbn [Worker.wd_worker Worker.wd_shard Worker.wd_up].
  exists (Worker.wd_worker w1). rewrite Hsid, Hup, Hsh. cbn [Worker.wd_worker Worker.wk_session_id Worker.new_worker w0].
  split_and!; [done|by rewrite <- Hp|done].
Qed.

(** ** Death and replacement *)
Definition forget (session : string) (x : Sup) : Sup :=
  set_workers (λ w, MkWorkers (delete session (wr_inner w)) (PaneIndex.remove_session session (wr_panes w))) x.
Lemma remove_run {E} session x : remove (E := E) session x = (forget session x, Ok (wr_inner (su_workers x) !! session)).
Proof. done. Qed.
Lemma sup_run {E A} (m : SM E A) s : sup m s = (set_sup (m (hy_sup s)).1 s, (m (hy_sup s)).2).
Proof. unfold sup, zoom. destruct (m (hy_sup s)) as [x r]. by destruct r. Qed.

Lemma forget_index session x u sl :
  PaneIndex.pane_to_slot (panes_of (forget session x)) !! u = Some sl ↔
  PaneIndex.pane_to_slot (panes_of x) !! u = Some sl ∧ sl.1 ≠ session.
Proof. cbn. by rewrite map_lookup_filter_Some. Qed.

(** [pid] is the worker of [session] and of no other. *)
Definition worker_of (session : string) (pid : Z) (x : Sup) : Prop :=
  (∃ h, wr_inner (su_workers x) !! session = Some h ∧ wh_pid h = pid) ∧
  ∀ s' h', wr_inner (su_workers x) !! s' = Some h' → wh_pid h' = pid → s' = session.

Lemma session_for_pid_spec session pid x : worker_of session pid x → session_for_pid pid x = Some session.
Proof.
  intros [(h & Hh & Hp) Hu]. unfold session_for_pid.
  destruct (find_first _ _) as [[s' h']|] eqn:E.
  - apply find_first_Some in E as [Hin Hpid]. rewrite hash_order_perm in Hin. apply elem_of_map_to_list in Hin.
    cbn in *. f_equal. eapply Hu; [exact Hin|lia].
  - apply find_first_None in E. rewrite Forall_forall in E. specialize (E (session, h)).
    rewrite hash_order_perm, elem_of_map_to_list in E. specialize (E Hh). cbn in E. lia.
Qed.

Lemma remove_once_app session l : remove_once session (l ++ [session]) ≡ₚ l.
Proof.
  induction l as [|x l IH]; cbn; [by rewrite decide_True|]. case_decide as Hx; [|by rewrite IH].
  subst. by rewrite <- Permutation_cons_append.
Qed.

Lemma reap_run failed session pid (s : Hy) :
  worker_of session pid (hy_sup s) → failed session = None →
  (reap failed pid s).1 =
    MkHy (forget session (hy_sup s)) (hy_procs s) (hy_disk s)
      (if (PaneIndex.pane_count session (panes_of (hy_sup s)) =? 0)%nat then hy_spawned s
       else hy_spawned s ++ [session]).
Proof.
  intros Hw Hf. unfold reap, bind at 1, gets_sup, gets. rewrite (session_for_pid_spec session) by done.
  unfold bind at 1. unfold bind. rewrite sup_run, remove_run. cbn [fst snd].
  destruct (PaneIndex.pane_count _ _ =? 0)%nat; [by destruct s|]. unfold respawn, attempt, spawn_worker. by rewrite Hf.
Qed.
End Life.

(** A worker that runs, with its shard in step. *)
Record running `{UuidText} (session : string) (pid : Z) (w : Worker.Worker) (s : Hy) : Prop := {
  run_proc : hy_procs s !! pid = Some w;
  run_session : Worker.wk_session_id w = session;
  run_registered : worker_of session pid (hy_sup s);
  run_shard : hy_disk s !! session = Some (persisted (Worker.wk_panes w));
  run_slots : map_Forall (λ slot _, wrap_u32 slot = slot) (persisted (Worker.wk_panes w)) }.

(** Deciding it. *)
Definition running_check `{UuidText} (session : string) (pid : Z) (s : Hy) : bool :=
  match hy_procs s !! pid with
  | None => false
  | Some w =>
      bool_decide (Worker.wk_session_id w = session) &&
      bool_decide (hy_disk s !! session = Some (persisted (Worker.wk_panes w))) &&
      bool_decide (map_Forall (λ slot _, wrap_u32 slot = slot) (persisted (Worker.wk_panes w))) &&
      bool_decide (wh_pid <$> wr_inner (su_workers (hy_sup s)) !! session = Some pid) &&
      bool_decide (map_Forall (λ s' h', wh_pid h' = pid → s' = session) (wr_inner (su_workers (hy_sup s))))
  end.
Lemma running_check_sound `{UuidText} session pid s : running_check session pid s = true → ∃ w, running session pid w s.
Proof.
  unfold running_check. destruct (hy_procs s !! pid) as [w|] eqn:Ep; [|done].
  rewrite !andb_true_iff, !bool_decide_eq_true. intros ((((Hs & Hd) & Hu) & Hh) & Hall). exists w.
  apply fmap_Some in Hh as (h & Hh & ->). split; try done. split; [eauto|]. exact Hall.
Qed.

Section Cycle.
Context `{UuidText, LayoutJson, SqlOrder, Zstd, ChronoRange, HashOrder, UnicodeLower, BlockIndex.Tantivy}.
Context (env : Store.Env) (rt : string).
Context (message : CtrlError → string) (store_message : Store.StoreError → string).

Lemma exit_reap failed session pid w (s : Hy) :
  running session pid w s → failed session = None →
  let s' := steps env rt message store_message [LExit pid; LReap failed pid] s in
  hy_sup s' = forget session (hy_sup s) ∧ hy_procs s' = delete pid (hy_procs s) ∧ hy_disk s' = hy_disk s ∧
  hy_spawned s' = (if (PaneIndex.pane_count session (panes_of (hy_sup s)) =? 0)%nat then hy_spawned s
                   else hy_spawned s ++ [session]).
Proof.
  intros Hr Hf. unfold steps. cbn [fold_left step hy_procs]. rewrite lookup_delete_eq.
  rewrite (reap_run failed session pid) by (try done; apply Hr). done.
Qed.

Lemma start_after_exit failed session pid w st (s : Hy) :
  running session pid w s → failed session = None → healthy_start st →
  delete pid (hy_procs s) !! st_pid st = None → PaneIndex.pane_count session (panes_of (hy_sup s)) ≠ 0%nat →
  ∃ w', steps env rt message store_message [LExit pid; LReap failed pid; LStart st session] s =
    MkHy (sv_register_worker (st_instant st) true session (st_pid st) (worker_sock rt session)
            (Worker.stream_sock_path (pyre_dir rt) session) (forget session (hy_sup s))).1
      (<[st_pid st := w']> (delete pid (hy_procs s))) (<[session := persisted (Worker.wk_panes w)]> (hy_disk s))
      (remove_once session (hy_spawned s ++ [session])) ∧
    persisted (Worker.wk_panes w') = persisted (Worker.wk_panes w) ∧ Worker.wk_session_id w' = session.
Proof.
  intros Hr Hf Hst Hpid Hcount. destruct (exit_reap failed session pid w s Hr Hf) as (E1 & E2 & E3 & E4).
  change (steps env rt message store_message [LExit pid; LReap failed pid; LStart st session] s) with
    (step env rt message store_message (LStart st session)
       (steps env rt message store_message [LExit pid; LReap failed pid] s)).
  set (s1 := steps _ _ _ _ [LExit pid; LReap failed pid] s) in *.
  rewrite (proj2 (Nat.eqb_neq _ _) Hcount) in E4. cbn [step]. rewrite decide_True.
  - destruct (start_worker_run (E := string) env rt st session (persisted (Worker.wk_panes w)) s1 Hst) as (w' & -> & Hp & Hs).
    + rewrite E3. apply Hr.
    + apply Hr.
    + exists w'. by rewrite E1, E2, E3, E4.
  - rewrite E2, E4. split; [|done]. apply elem_of_app. right. by left.
Qed.
End Cycle.

(** ** Silence: the heartbeat monitor *)
Section Monitor.
Context `{UuidText, LayoutJson, SqlOrder, Zstd, ChronoRange, HashOrder, UnicodeLower, BlockIndex.Tantivy}.

Definition silent (instant : Z) (x : Sup) (session : string) : Prop :=
  ∃ h, wr_inner (su_workers x) !! session = Some h ∧ HEARTBEAT_TIMEOUT < instant - wh_last_heartbeat h.

Lemma stale_sessions_spec instant x :
  NoDup (stale_sessions instant HEARTBEAT_TIMEOUT x) ∧
  ∀ session, session ∈ stale_sessions instant HEARTBEAT_TIMEOUT x ↔ silent instant x session.
Proof.
  unfold stale_sessions. split.
  - apply NoDup_fmap_filter. rewrite hash_order_perm. apply NoDup_fst_map_to_list.
  - intros session. rewrite list_elem_of_fmap. unfold silent. split.
    + intros ([s' h] & -> & [Hlt Hin]%list_elem_of_filter). cbn [fst snd] in *.
      rewrite hash_order_perm in Hin. apply elem_of_map_to_list in Hin. exists h. split; [done|].
      unfold HEARTBEAT_TIMEOUT in *. lia.
    + intros (h & Hh & Hlt). exists (session, h). split; [done|]. apply list_elem_of_filter. cbn [fst snd].
      split; [unfold HEARTBEAT_TIMEOUT in *; lia|]. rewrite hash_order_perm. by apply elem_of_map_to_list.
Qed.

Definition forget_all (l : list string) (x : Sup) : Sup := fold_left (λ x s, forget s x) l x.
Lemma forget_all_inner l x session :
  wr_inner (su_workers (forget_all l x)) !! session =
  if decide (session ∈ l) then None else wr_inner (su_workers x) !! session.
Proof.
  revert x. induction l as [|s l IH]; intros x; cbn [forget_all fold_left].
  - by rewrite decide_False by apply not_elem_of_nil.
  - fold (forget_all l (forget s x)). rewrite IH. cbn. destruct (decide (session = s)) as [->|Hne].
    + rewrite lookup_delete_eq. rewrite (decide_True (P := s ∈ s :: l)) by (by left). by case_decide.
    + rewrite lookup_delete_ne by done. destruct (decide (session ∈ l)); [rewrite decide_True by (by right)|rewrite decide_False]; try done.
      by intros [?|?]%elem_of_cons.
Qed.
Lemma forget_all_index l x u sl :
  PaneIndex.pane_to_slot (panes_of (forget_all l x)) !! u = Some sl ↔
  PaneIndex.pane_to_slot (panes_of x) !! u = Some sl ∧ sl.1 ∉ l.
Proof.
  revert x. induction l as [|s l IH]; intros x; cbn [forget_all fold_left].
  - split; [|by intros [? _]]. intros Hu. split; [done|apply not_elem_of_nil].
  - fold (forget_all l (forget s x)). rewrite IH, forget_index, not_elem_of_cons. tauto.
Qed.

Definition spawnable (failed : string → option string) (session : string) : Prop := failed session = None.
#[global] Instance spawnable_dec failed session : Decision (spawnable failed session).
Proof. unfold spawnable. apply _. Defined.

Lemma monitor_run failed instant (s : Hy) :
  (heartbeat_monitor failed instant s).1 =
  let l := stale_sessions instant HEARTBEAT_TIMEOUT (hy_sup s) in
  MkHy (forget_all l (hy_sup s)) (hy_procs s) (hy_disk s) (hy_spawned s ++ filter (spawnable failed) l).
Proof.
  cbn zeta. unfold heartbeat_monitor, bind at 1, gets_sup, gets.
  generalize (stale_sessions instant HEARTBEAT_TIMEOUT (hy_sup s)) as l. intros l. revert s.
  induction l as [|session l IH]; intros s; cbn [for_each].
  - destruct s. cbn. by rewrite app_nil_r.
  - unfold bind at 1. unfold bind at 1. rewrite sup_run, remove_run. cbn [fst snd].
    unfold respawn, attempt, spawn_worker. destruct (failed session) eqn:Ef.
    + rewrite filter_cons_False by (unfold spawnable; by rewrite Ef). cbn [fst throw]. rewrite IH. done.
    + rewrite filter_cons_True by done. cbn [fst modify]. rewrite IH. cbn. by rewrite <- app_assoc.
Qed.
End Monitor.

(** ** Boot: which shards stay *)
Section Boot.
Context `{UuidText, LayoutJson, SqlOrder, Zstd, ChronoRange, HashOrder, UnicodeLower, BlockIndex.Tantivy}.
Context (env : Store.Env) (rt : string).
#[local] Hint Extern 0 (SupervisorWorker Sup) => exact (supervisor_worker env) : typeclass_instances.

Definition u32_slots (shard : Worker.Shard) : Prop := map_Forall (λ slot _, wrap_u32 slot = slot) shard.

(** A starting worker never changes the shard it reads, whatever fails. *)
Lemma recover_shard sql os (w : Worker.World (Up := Sup)) :
  u32_slots (Worker.wd_shard w) → Worker.wd_shard (Worker.recover sql os w).1 = Worker.wd_shard w.
Proof.
  intros Hu. unfold Worker.recover, Worker.load_panes. destruct sql; [|done]. unfold gets.
  rewrite for_each_total by (by intros [[? ?] ?] ?). cbn [fst].
  assert (∀ slot sh cwd, (slot, sh, cwd) ∈ (λ r, (wrap_u32 r.1, r.2.1, r.2.2)) <$> hash_order (map_to_list (Worker.wd_shard w)) →
    Worker.wd_shard w !! slot = Some (sh, cwd)) as Hin.
  { intros slot sh cwd ([i [a b]] & E & Hr)%list_elem_of_fmap. rewrite hash_order_perm in Hr.
    apply elem_of_map_to_list in Hr. injection E as -> -> ->. cbn. by rewrite (Hu _ _ Hr). }
  revert Hin. generalize ((λ r : Z * (string * string), (wrap_u32 r.1, r.2.1, r.2.2)) <$> hash_order (map_to_list (Worker.wd_shard w))) as rows.
  intros rows Hin. set (shard := Worker.wd_shard w) in *. assert (Worker.wd_shard w = shard) as Hw by done. clearbody shard.
  clear Hu. revert w Hw. induction rows as [|[[slot sh] cwd] rows IH]; intros w Hw; cbn [fold_left]; [done|].
  apply IH; [intros; apply Hin; by right|]. unfold attempt. cbn [fst]. rewrite open_pane_run.
  destruct (Worker.os_spawn _ _); [|done]. cbn [Worker.wd_shard]. destruct (Worker.os_sql _); [|done]. rewrite Hw.
  apply insert_id, Hin. by left.
Qed.

Lemma start_worker_disk {E} st session (s : Hy) s0 :
  hy_disk s !! session = Some s0 → u32_slots s0 → hy_disk (start_worker (E := E) env rt st session s).1 = hy_disk s.
Proof.
  intros Hd Hu. unfold start_worker, run_worker. cbn [Worker.wk_session_id Worker.new_worker set_spawned hy_disk hy_sup].
  rewrite Hd. cbn [default]. change (id s0) with s0. set (w0 := Worker.MkWorld _ _ _).
  pose proof (recover_shard (st_sql st) (st_os st) w0 Hu) as Hr. unfold Worker.start, bind.
  destruct (Worker.recover _ _ w0) as [w1 [[]|e]]; cbn in *; rewrite Hr; by apply insert_id.
Qed.

Definition collected (os : BootOs) (s : Hy) (ids : list SessionId) (session : string) : Prop :=
  session ∈ session_str <$> ids ∧ shard_pane_count (bo_readable os) session s = 0%nat ∧
  wr_inner (su_workers (hy_sup s)) !! session = None ∧ bo_rm_ok os session = true.
#[global] Instance collected_dec os s ids session : Decision (collected os s ids session).
Proof. unfold collected. apply _. Defined.

Lemma gc_stale_run os sid (s : Hy) :
  let session := session_str sid in
  (gc_stale_shard os sid s) =
  (MkHy (hy_sup s) (hy_procs s)
    (if decide (wr_inner (su_workers (hy_sup s)) !! session = None ∧ bo_rm_ok os session = true)
     then delete session (hy_disk s) else hy_disk s) (hy_spawned s), Ok tt).
Proof.
  cbn zeta. unfold gc_stale_shard, bind, gets_sup, gets, get_ctrl_client. destruct (wr_inner _ !! _) eqn:Ew.
  - rewrite decide_False by (by intros []). by destruct s.
  - unfold attempt, remove_shard_dir, bind, gets. destruct (hy_disk s !! session_str sid) eqn:Ed.
    + destruct (bo_rm_ok os _) eqn:Er; [rewrite decide_True by done|rewrite decide_False by (by intros [])]; by destruct s.
    + cbn [ret fst]. case_decide; [|by destruct s]. rewrite delete_id by done. by destruct s.
Qed.

Lemma gc_all_run os l (s : Hy) :
  (for_each (gc_stale_shard os) l s) =
  (MkHy (hy_sup s) (hy_procs s)
     (filter (λ kv, ¬ (kv.1 ∈ session_str <$> l ∧ wr_inner (su_workers (hy_sup s)) !! kv.1 = None ∧
                       bo_rm_ok os kv.1 = true)) (hy_disk s)) (hy_spawned s), Ok tt).
Proof.
  revert s. induction l as [|sid l IH]; intros s; cbn [for_each].
  - unfold ret. f_equal. rewrite map_filter_id; [by destruct s|]. cbn. by intros i x _ [?%not_elem_of_nil _].
  - unfold bind. rewrite gc_stale_run, IH. cbn [hy_sup hy_procs hy_spawned hy_disk]. do 2 f_equal.
    apply map_eq. intros i. apply option_eq. intros x. rewrite !map_lookup_filter_Some. cbn [fst]. rewrite fmap_cons, elem_of_cons.
    case_decide as Hd.
    + rewrite lookup_delete_Some. split.
      * intros [[Hne Hx] Hn]. split; [done|]. intros [[-> |?] ?]; [done|]. by apply Hn.
      * intros [Hx Hn]. split; [split; [|done]|].
        -- intros <-. apply Hn. split; [by left|done].
        -- intros [? ?]. apply Hn. split; [by right|done].
    + split; intros [Hx Hn]; (split; [done|]); intros [Hin Hr]; apply Hn; [|by split; [right|]].
      destruct Hin as [-> |?]; [|done]. by destruct Hd.
Qed.

Lemma reattach_session_disk os sid (s : Hy) s0 :
  hy_disk s !! session_str sid = Some s0 → u32_slots s0 →
  hy_disk (reattach_session env rt os sid s).1 = hy_disk s ∧ (reattach_session env rt os sid s).2 = Ok tt.
Proof.
  intros Hd Hu.
  assert (∃ s', reattach_session env rt os sid s = (s', Ok tt) ∧ hy_disk s' = hy_disk s) as (s' & -> & Hs'); [|by split].
  unfold reattach_session. cbv zeta. unfold bind at 1. rewrite sup_run. cbn [fst snd modify].
  destruct (bo_spawn_failed os _); [rewrite sup_run; by eexists|]. unfold bind at 1, spawn_worker. cbn [fst snd modify].
  destruct (bo_registration os _) as [st| |]; [|by eexists|rewrite sup_run; by eexists].
  unfold bind at 1. match goal with |- context [start_worker env rt st ?ss ?y] => set (y0 := y) end.
  pose proof (start_worker_disk (E := string) st (session_str sid) y0 s0 Hd Hu) as Hs.
  assert ((start_worker (E := string) env rt st (session_str sid) y0).2 = Ok tt) as Hok
    by (unfold start_worker; by destruct (run_worker _ _ _ _)).
  destruct (start_worker _ _ _ _ y0) as [y1 r]. cbn [fst snd] in Hs, Hok. rewrite Hok, sup_run. eexists. split; [reflexivity|exact Hs].
Qed.

Lemma reattach_all_disk os l (s : Hy) :
  (∀ sid, sid ∈ l → ∃ s0, hy_disk s !! session_str sid = Some s0 ∧ u32_slots s0) →
  hy_disk (for_each (reattach_session env rt os) l s).1 = hy_disk s.
Proof.
  revert s. induction l as [|sid l IH]; intros s Hl; cbn [for_each]; [done|]. unfold bind.
  destruct (Hl sid) as (s0 & Hd & Hu); [by left|]. destruct (reattach_session_disk os sid s s0 Hd Hu) as [E1 E2].
  destruct (reattach_session _ _ _ _ s) as [s1 r]. cbn in *. subst r. rewrite IH, E1; [done|].
  intros sid' Hin. rewrite E1. apply Hl. by right.
Qed.

Definition persisted_ids (s : Hy) : list SessionId :=
  match (Store.list_session_ids env (su_store (hy_sup s))).2 with Ok l => l | Err _ => [] end.

Lemma reattach_disk os (s : Hy) :
  (∀ session shard, hy_disk s !! session = Some shard → u32_slots shard) →
  hy_disk (reattach env rt os s).1 = filter (λ kv, ¬ collected os s (persisted_ids s) kv.1) (hy_disk s).
Proof.
  intros Hu. unfold reattach, bind at 1. unfold log. rewrite sup_run. cbn [fst snd].
  assert (∃ x, log_store (E := string) (Store.list_session_ids env) (hy_sup s) = (x, Ok (match (Store.list_session_ids env
    (su_store (hy_sup s))).2 with Ok l => Some l | Err _ => None end)) ∧ su_workers x = su_workers (hy_sup s)) as (x & -> & Hx).
  { unfold log_store, store_call, zoom. destruct (Store.list_session_ids _ _) as [st [l|e]]; eexists; split; reflexivity. }
  cbn [fst snd]. set (s1 := set_sup x s). unfold bind at 1, gets. cbv zeta.
  assert (default [] (match (Store.list_session_ids env (su_store (hy_sup s))).2 with Ok l => Some l | Err _ => None end)
    = persisted_ids s) as -> by (unfold persisted_ids; by destruct (Store.list_session_ids _ _).2).
  set (ids := persisted_ids s). unfold bind. rewrite gc_all_run. rewrite reattach_all_disk.
  - cbn [hy_disk hy_sup s1 set_sup]. apply map_filter_ext. intros i shard Hi. cbn [fst]. unfold collected. rewrite Hx.
    change (shard_pane_count (bo_readable os) ?i s1) with (shard_pane_count (bo_readable os) i s).
    rewrite !list_elem_of_fmap. split; intros Hn Hc; apply Hn.
    + destruct Hc as ((sid & -> & Hin) & Hcnt & Hr). split; [|done]. exists sid. split; [done|].
      by apply list_elem_of_filter.
    + destruct Hc as ((sid & -> & [Hcnt Hin]%list_elem_of_filter) & Hr). split; [by exists sid|done].
  - intros sid [Hcnt Hin]%list_elem_of_filter. cbn [hy_disk hy_sup s1 set_sup].
    change (shard_pane_count (bo_readable os) (session_str sid) s1) with (shard_pane_count (bo_readable os) (session_str sid) s) in Hcnt.
    unfold shard_pane_count in Hcnt. destruct (hy_disk s !! session_str sid) as [s0|] eqn:Ed; [|done].
    exists s0. split; [|by eapply Hu]. apply map_lookup_filter_Some. split; [done|]. cbn [fst].
    rewrite list_elem_of_fmap. intros ((sid' & E & [Hc' _]%list_elem_of_filter) & _).
    change (shard_pane_count (bo_readable os) (session_str sid') s1) with (shard_pane_count (bo_readable os) (session_str sid') s) in Hc'.
    rewrite <- E in Hc'. unfold shard_pane_count in Hc'. by rewrite Ed in Hc'.
Qed.
End Boot.

(** ** Waiting for a state *)
Section Wait.
Context `{UuidText, LayoutJson, SqlOrder, Zstd, ChronoRange, HashOrder, UnicodeLower, BlockIndex.Tantivy}.
Context (env : Store.Env).
#[local] Hint Extern 0 (SupervisorWorker Sup) => exact (supervisor_worker env) : typeclass_instances.

(** Computations that cannot fail. *)
Definition answers {S E A} (m : M S E A) : Prop := ∀ s, is_ok (m s).2 = true.
Lemma answers_bind {S E A B} (m : M S E A) (k : A → M S E B) : answers m → (∀ a, answers (k a)) → answers (bind m k).
Proof. intros Hm Hk s. specialize (Hm s). unfold bind. destruct (m s) as [s' [a|e]]; [apply Hk|done]. Qed.
Lemma answers_sup {E A} (m : SM E A) : answers m → answers (sup m).
Proof. intros Hm s. rewrite sup_run. apply Hm. Qed.
Lemma answers_log {E A} (m : Store.S A) : answers (E := E) (log m).
Proof. apply answers_sup. intros x. unfold log_store. by destruct (store_call m x). Qed.
Lemma answers_call_opt {E A} h (m : Worker.W (Up := Sup) RpcError A) : answers (E := E) (call_opt h m).
Proof. intros s. unfold call_opt. by destruct (call h m s). Qed.
Lemma answers_get_or_alloc {E} session slot : answers (E := E) (get_or_alloc_pane_by_slot env session slot).
Proof.
  intros x. unfold get_or_alloc_pane_by_slot, bind, gets. destruct (PaneIndex.pane_id_by_slot _ _ _); [done|].
  by destruct (PaneIndex.is_dead _ _ _).
Qed.

Lemma pane_row_answers now i session sid h slot : answers (pane_row env now i session sid h slot).
Proof.
  apply answers_bind; [by apply answers_sup, answers_get_or_alloc|]. intros [u|]; [|done].
  apply answers_bind; [apply answers_call_opt|]. intros [info|]; [|done].
  apply answers_bind; [apply answers_log|]. by intros name.
Qed.
Lemma list_all_answers now i : answers (list_all_panes env now i).
Proof.
  apply answers_bind; [done|]. intros l. induction l as [|[[s u] h] l IH]; cbn [list_all_loop]; [done|].
  apply answers_bind; [apply answers_call_opt|]. intros slots. apply answers_bind; [|intros infos; by apply answers_bind].
  generalize (default [] slots) as l'. intros l'. induction l' as [|slot l' IH']; cbn [rows_of_worker]; [done|].
  apply answers_bind; [apply pane_row_answers|]. intros row. by apply answers_bind.
Qed.

(** A poll that found the pane in the state. *)
Definition seen_in (clock : nat → Z) (deadline : Z) (pane : PaneId) (state : PaneStateKind) (n : nat) : Prop :=
  clock n < deadline ∧ ∃ y y' panes p, list_all_panes env (clock n) (clock n) y = (y', Ok panes) ∧
    p ∈ panes ∧ pi_id p = pane ∧ pi_state p = state.

Lemma wait_loop_ends fuel clock between deadline pane state n s :
  (∀ n, clock n + 200 <= clock (S n)) → deadline <= clock n + 200 * (Z.of_nat fuel - 1) → (0 < fuel)%nat →
  ∃ s' b, wait_loop env fuel clock between n deadline pane state s = Some (s', Ok b) ∧
    if b then ∃ m, seen_in clock deadline pane state m else ∃ m, (n ≤ m)%nat ∧ deadline <= clock m.
Proof.
  intros Hclock. revert n s. induction fuel as [|fuel IH]; intros n s Hd Hf; [lia|]. cbn [wait_loop].
  destruct (Z.leb_spec deadline (clock n)) as [Hle|Hgt]; [exists s, false; split; [done|]; by exists n|].
  pose proof (list_all_answers (clock n) (clock n) s) as Ha.
  destruct (list_all_panes env (clock n) (clock n) s) as [s1 [panes|e]] eqn:El; [|done]. clear Ha.
  assert ((0 < fuel)%nat) as Hf' by (destruct fuel; [lia|lia]).
  assert (deadline <= clock (S n) + 200 * (Z.of_nat fuel - 1)) as Hd' by (specialize (Hclock n); lia).
  assert (∀ y, ∃ s' b, wait_loop env fuel clock between (S n) deadline pane state y = Some (s', Ok b) ∧
    if b then ∃ m, seen_in clock deadline pane state m else ∃ m, (n ≤ m)%nat ∧ deadline <= clock m) as Hnext.
  { intros y. destruct (IH (S n) y Hd' Hf') as (s' & b & Hr & Hb). exists s', b. split; [done|].
    destruct b; [done|]. destruct Hb as (m & Hm & ?). exists m. split; [lia|done]. }
  destruct (find_first _ panes) as [p|] eqn:Ef; [|apply Hnext]. case_decide as Hst; [|apply Hnext].
  apply find_first_Some in Ef as [Hin Hid]. apply bool_decide_eq_true in Hid. exists s1, true. split; [done|].
  exists n. split; [lia|]. by exists s, s1, panes, p.
Qed.
End Wait.

(** ** Properties *)

(** C7: a session survives the crash of its worker. When the worker of a session
    with panes dies, the SIGCHLD handler spawns another; the one that comes up has the
    panes of the dead one, by slot, shell and directory, is the session's registered
    worker, and nothing else changed: the windows, the database, the shards, the other
    workers, the spawns still under way. But the supervisor has forgotten which pane
    was in which slot: no pane identifier handed out before leads to the session any
    more, although its windows go on drawing those panes. *)
Theorem crash_recovery_cycle `{UuidText, LayoutJson, SqlOrder, Zstd, ChronoRange, HashOrder, UnicodeLower}
    `{BlockIndex.Tantivy} env rt message store_message failed session pid w st s
    (Hr : running session pid w s) (Hf : failed session = None) (Hst : healthy_start st)
    (Hpid : delete pid (hy_procs s) !! st_pid st = None)
    (Hnew : ∀ s' h', wr_inner (su_workers (hy_sup s)) !! s' = Some h' → wh_pid h' = st_pid st → s' = session)
    (Hcount : PaneIndex.pane_count session (panes_of (hy_sup s)) ≠ 0%nat) :
  let s' := steps env rt message store_message [LExit pid; LReap failed pid; LStart st session] s in
  (∃ w', hy_procs s' = <[st_pid st := w']> (delete pid (hy_procs s)) ∧
     running session (st_pid st) w' s' ∧
     persisted (Worker.wk_panes w') = persisted (Worker.wk_panes w)) ∧
  hy_disk s' = hy_disk s ∧ hy_spawned s' ≡ₚ hy_spawned s ∧
  su_windows (hy_sup s') = su_windows (hy_sup s) ∧ su_store (hy_sup s') = su_store (hy_sup s) ∧
  (∀ session', session' ≠ session →
     wr_inner (su_workers (hy_sup s')) !! session' = wr_inner (su_workers (hy_sup s)) !! session') ∧
  (∀ p ss, lookup_pane p (hy_sup s') = Some ss ↔ lookup_pane p (hy_sup s) = Some ss ∧ ss.1 ≠ session).
Proof.
  cbn zeta. destruct (start_after_exit env rt message store_message failed session pid w st s) as (w' & -> & Hp & Hs); [done..|].
  cbn [hy_procs hy_disk hy_spawned hy_sup]. split_and!.
  - exists w'. split; [done|]. split; [|done]. split; cbn [hy_procs hy_disk hy_sup].
    + apply lookup_insert_eq.
    + done.
    + split; [eexists; split; [cbn; apply lookup_insert_eq|done]|]. intros s' h'. cbn.
      intros [[<- _]|[Hne Hl]]%lookup_insert_Some; [done|]. apply lookup_delete_Some in Hl as [_ Hl]. by apply Hnew.
    + rewrite lookup_insert_eq. by rewrite Hp.
    + rewrite Hp. apply Hr.
  - apply insert_id. apply Hr.
  - apply remove_once_app.
  - done.
  - done.
  - intros s' Hne. cbn. by rewrite lookup_insert_ne, lookup_delete_ne.
  - intros p ss. apply (forget_index session (hy_sup s) (pane_uuid p) ss).
Qed.

(** The heartbeat monitor replaces exactly the workers that have been silent for
    more than 15 seconds. One round unregisters those and forgets which panes they
    had, spawns one process for each (if it can), and touches no other session, no
    running process and no shard. *)
Theorem heartbeat_monitor_exact `{UuidText, LayoutJson, SqlOrder, Zstd, ChronoRange, HashOrder, UnicodeLower}
    `{BlockIndex.Tantivy} env rt message store_message failed instant s :
  let s' := step env rt message store_message (LMonitor failed instant) s in
  ∃ stale, NoDup stale ∧ (∀ session, session ∈ stale ↔ silent instant (hy_sup s) session) ∧
    hy_spawned s' = hy_spawned s ++ filter (spawnable failed) stale ∧
    hy_procs s' = hy_procs s ∧ hy_disk s' = hy_disk s ∧
    (∀ session, wr_inner (su_workers (hy_sup s')) !! session =
       if decide (session ∈ stale) then None else wr_inner (su_workers (hy_sup s)) !! session) ∧
    (∀ p ss, lookup_pane p (hy_sup s') = Some ss ↔ lookup_pane p (hy_sup s) = Some ss ∧ ss.1 ∉ stale).
Proof.
  cbn [step]. rewrite monitor_run. destruct (stale_sessions_spec instant (hy_sup s)) as [Hnd Hin].
  exists (stale_sessions instant HEARTBEAT_TIMEOUT (hy_sup s)). split_and!; try done.
  - intros session. apply forget_all_inner.
  - intros p ss. apply forget_all_index.
Qed.

(** What the boot does to the shards of earlier runs. A shard is deleted exactly
    if its session is listed in the database, no worker has registered for it, its
    directory can be removed, and counting its panes gave 0 - which a shard whose
    database cannot be read also gives; every other shard is left as it was, also by
    the workers the boot starts on those with panes and whatever fails on the way. *)
Theorem reattach_gc_exact `{UuidText, LayoutJson, SqlOrder, Zstd, ChronoRange, HashOrder, UnicodeLower}
    `{BlockIndex.Tantivy} env rt message store_message os s
    (Hu : ∀ session shard, hy_disk s !! session = Some shard → u32_slots shard) session :
  hy_disk (step env rt message store_message (LReattach os) s) !! session =
    if decide (session ∈ session_str <$> persisted_ids env s ∧
               (bo_readable os session = false ∨ hy_disk s !! session = Some ∅) ∧
               wr_inner (su_workers (hy_sup s)) !! session = None ∧ bo_rm_ok os session = true)
    then None else hy_disk s !! session.
Proof.
  cbn [step]. rewrite reattach_disk by done. apply option_eq. intros shard. rewrite map_lookup_filter_Some. cbn [fst].
  unfold collected, shard_pane_count. destruct (hy_disk s !! session) as [s0|] eqn:Ed.
  - assert ((if bo_readable os session then size s0 else 0%nat) = 0%nat ↔
      bo_readable os session = false ∨ Some s0 = Some ∅) as Hz.
    { destruct (bo_readable os session); [|by split; [left|]]. split; [intros ->%map_size_empty_inv; by right|].
      intros [?|[= ->]]; [done|]. apply map_size_empty. }
    case_decide as Hd; rewrite Hz; intuition congruence.
  - case_decide; intuition congruence.
Qed.

(** waiting for the state of a pane always ends, with an answer. If the clock
    advances by the 200 ms the handler sleeps between two polls, it returns within
    timeout / 200 + 2 polls whatever happens in between and never fails: [true] only
    if a poll before the deadline listed the pane in that state, [false] only once the
    deadline has passed. *)
Theorem wait_pane_state_ends `{UuidText, LayoutJson, SqlOrder, Zstd, ChronoRange, HashOrder, UnicodeLower}
    env fuel clock between pane state timeout_ms s
    (Hclock : ∀ n, clock n + 200 <= clock (S n)) (Hfuel : Z.max timeout_ms 1 / 200 + 2 <= Z.of_nat fuel) :
  let deadline := clock 0%nat + Z.max timeout_ms 1 in
  ∃ s' b, wait_pane_state env fuel clock between pane state timeout_ms s = Some (s', Ok b) ∧
    if b then ∃ n, seen_in env clock deadline pane state n else ∃ n, deadline <= clock n.
Proof.
  cbn zeta. unfold wait_pane_state.
  destruct (wait_loop_ends env fuel clock between (clock 0%nat + Z.max timeout_ms 1) pane state 0 s Hclock)
    as (s' & b & Hr & Hb).
  - pose proof (Z.mod_pos_bound (Z.max timeout_ms 1) 200 ltac:(lia)). pose proof (Z.div_mod (Z.max timeout_ms 1) 200 ltac:(lia)). lia.
  - pose proof (Z.div_pos (Z.max timeout_ms 1) 200 ltac:(lia) ltac:(lia)). lia.
  - exists s', b. split; [done|]. destruct b; [done|]. destruct Hb as (m & _ & ?). by exists m.
Qed.

(** ** Witnesses *)
Section Witnesses.
#[local] Existing Instances binary_uuid binary_json stable_order no_compression chrono_0_4 list_hash
  BlockIndex.substring_engine PaneTracker.all_ascii_lower.

Lemma crash_recovery_cycle_witness :
  let s' := steps calm "/run/user/1" call_text store_text
              [LExit 100; LReap no_failure 100; LStart (a_start 101) (uuid_to_string 0%N)] two_panes in
  (∃ w, running (uuid_to_string 0%N) 101 w s') ∧ hy_disk s' = hy_disk two_panes ∧
  lookup_pane (MkPaneId 1) (hy_sup s') = None.
Proof.
  cbn zeta. destruct (running_check_sound (uuid_to_string 0%N) 100 two_panes) as [w Hr]; [vm_compute; reflexivity|].
  destruct (crash_recovery_cycle calm "/run/user/1" call_text store_text no_failure (uuid_to_string 0%N) 100
    w (a_start 101) two_panes Hr) as ((w' & _ & Hr' & _) & Hd & _ & _ & _ & _ & Hl).
  - reflexivity.
  - split; [done|]. split; [done|]. intros slot. by split.
  - apply lookup_delete_None. right. apply eq_None_not_Some. intros Hs.
    assert (bool_decide (is_Some (hy_procs two_panes !! 101)) = false) as Hb by (vm_compute; reflexivity).
    by rewrite bool_decide_eq_true_2 in Hb.
  - apply (bool_decide_unpack (map_Forall (λ s' h', wh_pid h' = 101 → s' = uuid_to_string 0%N) _)). vm_compute. exact I.
  - vm_compute. discriminate.
  - split; [by exists w'|]. split; [exact Hd|]. apply eq_None_not_Some. intros [ss Hss].
    apply Hl in Hss as [Hss Hne]. apply Hne.
    assert (fst <$> lookup_pane (MkPaneId 1) (hy_sup two_panes) = Some (uuid_to_string 0%N)) as Hf by (vm_compute; reflexivity).
    rewrite Hss in Hf. by injection Hf.
Defined.

(** Three sessions on disk, all listed: one with a pane, one empty, one whose
    database has gone bad with a pane in it. *)
Definition three_shards : Hy :=
  boot (Store.MkSt 0 100 0 (Store.MkDb (list_to_map ((λ u, (uuid_to_string u, Store.MkSessionRow "s" 0 0 None)) <$> [7; 8; 9]%N)) ∅ ∅ ∅)
          ∅ "/d")
    (list_to_map [(uuid_to_string 7%N, {[0 := ("", "/")]}); (uuid_to_string 8%N, ∅); (uuid_to_string 9%N, {[0 := ("", "/")]})]).
Definition a_boot : BootOs :=
  MkBootOs (λ session, bool_decide (session ≠ uuid_to_string 9%N)) (λ _, true) no_failure (λ _, Started (a_start 50)).

Lemma reattach_gc_exact_witness :
  let disk := hy_disk (step calm "/run/user/1" call_text store_text (LReattach a_boot) three_shards) in
  disk !! uuid_to_string 7%N = Some {[0 := ("", "/")]} ∧ disk !! uuid_to_string 8%N = None ∧
  disk !! uuid_to_string 9%N = None.
Proof.
  cbn zeta. assert (∀ session shard, hy_disk three_shards !! session = Some shard → u32_slots shard) as Hu.
  { apply (bool_decide_unpack (map_Forall (λ _ shard, map_Forall (λ slot _, wrap_u32 slot = slot) shard) (hy_disk three_shards))).
    vm_compute. exact I. }
  split_and!; rewrite (reattach_gc_exact calm "/run/user/1" call_text store_text a_boot three_shards Hu); vm_compute; reflexivity.
Defined.

(** A pane that runs never starts waiting for input: the wait gives up. *)
Lemma wait_pane_state_ends_witness :
  ∃ s' b, wait_pane_state calm 4 (λ n, 200 * Z.of_nat n) (λ _ s, s) (MkPaneId 1) WaitingInput 400 two_panes = Some (s', Ok b) ∧
    if b then ∃ n, seen_in calm (λ n, 200 * Z.of_nat n) 400 (MkPaneId 1) WaitingInput n else ∃ n, 400 <= 200 * Z.of_nat n.
Proof.
  apply (wait_pane_state_ends calm 4 (λ n, 200 * Z.of_nat n) (λ _ s, s) (MkPaneId 1) WaitingInput 400 two_panes).
  - intros n. lia.
  - vm_compute. discriminate.
Defined.
End Witnesses.
