(* ===== verification/HybridClose.v ===== *)
(** * HybridClose: closing a pane across two processes

    A client asks the supervisor, the supervisor the worker, the worker reports back
    within the call, and the supervisor cleans up what the report left. The theorem
    says what all of that comes to. *)
From Stdlib Require Import Strings.Byte.
From S2P Require Import Prelude Proto Text Layout Libraries Effects EventBus PaneTracker.
From S2P Require Import Store StoreBlocks Registry RegistryInv BlockIndex Server WorkerRegistry Worker WorkerInv.
From S2P Require Import Supervisor SupervisorRpc Hybrid HybridLife.
Local Open Scope Z_scope.
Import Supervisor Rpc Hybrid.

Section Close.
Context `{UuidText, LayoutJson, SqlOrder, Zstd, ChronoRange, HashOrder, UnicodeLower, BlockIndex.Tantivy}.
Context (env : Store.Env) (message : CtrlError → string).
#[local] Hint Extern 0 (SupervisorWorker Sup) => exact (supervisor_worker env) : typeclass_instances.

(** A pane in a slot of a worker that runs, drawn in a window. *)
Record placed (pane : PaneId) (session : string) (slot : Z) (h : WorkerHandle) (w : Worker.Worker)
    (wid : WindowId) (t : LayoutNode) (s : Hy) : Prop := {
  pl_index : ∀ u, PaneIndex.pane_to_slot (panes_of (hy_sup s)) !! u = Some (session, slot) ↔ u = pane_uuid pane;
  pl_handle : wr_inner (su_workers (hy_sup s)) !! session = Some h;
  pl_worker : hy_procs s !! wh_pid h = Some w;
  pl_session : Worker.wk_session_id w = session;
  pl_slot : is_Some (Worker.wk_panes w !! slot);
  pl_window : pane_window_map (su_windows (hy_sup s)) !! pane = Some wid;
  pl_layout : window_store (su_windows (hy_sup s)) !! wid ≫= wm_layout = Some t }.

(** ** The report of the worker *)
Definition unslot (session : string) (slot : Z) (x : Sup) : Sup :=
  set_workers (λ w, MkWorkers (wr_inner w) (PaneIndex.remove_pane_slot session slot (wr_panes w)).2) x.
Definition left_in (session : string) (slot : Z) (x : Sup) : nat :=
  (PaneIndex.remove_pane_slot session slot (panes_of x)).1.
Definition evicted (session : string) (slot : Z) (x : Sup) : Sup :=
  if (left_in session slot x =? 0)%nat then forget session (unslot session slot x) else unslot session slot x.
(** The pane out of the window map and out of the tree. *)
Definition undrawn (pane : PaneId) (wid : WindowId) (t : LayoutNode) (x : Sup) : Sup :=
  set_windows (on_store (alter (meta_layout (Some (close t pane).2)) wid)) (set_windows (on_pane_window (delete pane)) x).
Definition saved (wid : WindowId) (t : LayoutNode) (x : Sup) : Sup :=
  (store_call (Store.upsert_window_layout env wid (layout_to_json t)) x).1.
Definition announced (pane : PaneId) (kind : PaneEventKind) (x : Sup) : Sup := (emit (E := string) pane kind None x).1.
Definition queued (session : string) (slot : Z) (x : Sup) : Sup := (send_finalize (E := string) (session, slot) x).1.
Definition reported (pane : PaneId) (session : string) (slot : Z) (wid : WindowId) (t : LayoutNode) (x : Sup) : Sup :=
  queued session slot (announced pane Closed (announced pane LayoutChanged (saved wid (close t pane).2
    (undrawn pane wid t (evicted session slot x))))).

Lemma pane_by_slot_unique session slot pane ix :
  (∀ u, PaneIndex.pane_to_slot ix !! u = Some (session, slot) ↔ u = pane_uuid pane) →
  PaneIndex.pane_id_by_slot session slot ix = Some (pane_uuid pane).
Proof.
  intros Hu. unfold PaneIndex.pane_id_by_slot. destruct (find_first _ _) as [[u sl]|] eqn:E.
  - apply find_first_Some in E as [Hin Hb]. rewrite hash_order_perm in Hin. apply elem_of_map_to_list in Hin.
    apply bool_decide_eq_true in Hb. cbn in Hb |- *. subst. f_equal. by apply Hu.
  - apply find_first_None in E. rewrite Forall_forall in E.
    specialize (E (pane_uuid pane, (session, slot))). rewrite hash_order_perm, elem_of_map_to_list in E.
    specialize (E (proj2 (Hu _) eq_refl)). cbn in E. by rewrite bool_decide_eq_false in E.
Qed.

Lemma remove_slot_run {E} session slot x :
  remove_pane_slot (E := E) session slot x = (unslot session slot x, Ok (left_in session slot x)).
Proof. done. Qed.
Lemma evict_run {E} session slot x :
  (if (left_in session slot x =? 0)%nat then remove (E := E) session else ret None) (unslot session slot x) =
  (evicted session slot x, Ok (if (left_in session slot x =? 0)%nat then wr_inner (su_workers x) !! session else None)).
Proof. unfold evicted. by destruct (left_in session slot x =? 0)%nat. Qed.
Lemma close_leaf_run {E} wid pane t x :
  window_store (su_windows x) !! wid ≫= wm_layout = Some t →
  close_leaf (E := E) (Some wid) pane x =
  (set_windows (on_store (alter (meta_layout (Some (close t pane).2)) wid)) x, Ok (Some (wid, layout_to_json (close t pane).2))).
Proof. intros Ht. unfold close_leaf, bind, gets. by rewrite Ht. Qed.
Lemma persist_run {E} pane wid t x :
  persist_layout (E := E) env pane (Some (wid, layout_to_json t)) x = (announced pane LayoutChanged (saved wid t x), Ok tt).
Proof. unfold persist_layout, bind, log_store, saved. by destruct (store_call _ x). Qed.

Lemma evicted_windows session slot x : su_windows (evicted session slot x) = su_windows x.
Proof. unfold evicted. by destruct (_ =? _)%nat. Qed.

Lemma pane_closed_run pane session slot h w wid t (s : Hy) :
  placed pane session slot h w wid t s →
  sv_pane_closed env session slot (hy_sup s) = (reported pane session slot wid t (hy_sup s), Ok tt).
Proof.
  intros Hp. pose proof (pl_index _ _ _ _ _ _ _ _ Hp) as Hi. pose proof (pl_window _ _ _ _ _ _ _ _ Hp) as Hpw.
  pose proof (pl_layout _ _ _ _ _ _ _ _ Hp) as Hpl. set (x := hy_sup s) in *. unfold sv_pane_closed.
  rewrite (bind_ok _ _ x x (Some (pane_uuid pane))).
  2:{ unfold get_or_alloc_pane_by_slot, bind, gets. by rewrite (pane_by_slot_unique session slot pane) by done. }
  rewrite (bind_ok _ _ _ _ _ (remove_slot_run session slot x)).
  rewrite (bind_ok _ _ _ _ _ (evict_run session slot x)). cbv zeta.
  replace (MkPaneId (pane_uuid pane)) with pane by (by destruct pane).
  set (x1 := evicted session slot x). assert (su_windows x1 = su_windows x) as Hw by apply evicted_windows.
  erewrite bind_ok; [reflexivity|].
  rewrite (bind_ok _ _ x1 x1 (Some wid)) by (unfold gets; by rewrite Hw, Hpw).
  rewrite (bind_ok _ _ x1 (set_windows (on_pane_window (delete pane)) x1) tt) by done.
  rewrite (bind_ok _ _ _ _ _ (close_leaf_run wid pane t (set_windows (on_pane_window (delete pane)) x1)
    ltac:(cbn [set_windows su_windows on_pane_window window_store]; rewrite Hw; exact Hpl))).
  by rewrite (bind_ok _ _ _ _ _ (persist_run pane wid _ _)).
Qed.

(** ** The worker's side *)
Lemma worker_close_run pane session slot h w wid t (s : Hy) shard :
  placed pane session slot h w wid t s →
  Worker.close_pane true slot (Worker.MkWorld w shard (hy_sup s)) =
    (Worker.MkWorld
       (Worker.MkWorker session (delete slot (Worker.wk_panes w)) (Worker.wk_closing w)
          (if decide (delete slot (Worker.wk_panes w) = ∅) then true else Worker.wk_shutdown w))
       (delete slot shard) (reported pane session slot wid t (hy_sup s)), Ok tt).
Proof.
  intros Hp. destruct (pl_slot _ _ _ _ _ _ _ _ Hp) as [ph Hph]. unfold Worker.close_pane, Worker.pane_at.
  unfold bind at 1, gets. cbn [Worker.wd_worker]. rewrite Hph. unfold bind, Worker.modify_panes, modify.
  cbn [Worker.delete_pane Worker.shard_execute Worker.set_worker Worker.set_panes Worker.wd_worker Worker.wd_shard Worker.wd_up
    Worker.wk_session_id Worker.wk_panes Worker.wk_closing Worker.wk_shutdown].
  unfold Worker.delete_pane, Worker.shard_execute, modify, Worker.session_id, gets, Worker.notify.
  cbn [Worker.wd_worker Worker.wd_shard Worker.wd_up Worker.wk_session_id Worker.wk_panes].
  cbn [Worker.set_worker Worker.set_panes Worker.wd_worker Worker.wd_shard Worker.wd_up Worker.wk_session_id Worker.wk_panes].
  rewrite (pl_session _ _ _ _ _ _ _ _ Hp). cbn [pane_closed supervisor_worker].
  rewrite (pane_closed_run pane session slot h w wid t s Hp). cbn [fst].
  generalize (reported pane session slot wid t (hy_sup s)) as up. intros up.
  case_decide; unfold Worker.raise_shutdown, modify, Worker.set_worker, Worker.set_panes, ret; cbn;
    by rewrite (pl_session _ _ _ _ _ _ _ _ Hp).
Qed.

(** ** The procedure *)
Definition closed_worker (session : string) (slot : Z) (w : Worker.Worker) : Worker.Worker :=
  Worker.MkWorker session (delete slot (Worker.wk_panes w)) (Worker.wk_closing w)
    (if decide (delete slot (Worker.wk_panes w) = ∅) then true else Worker.wk_shutdown w).
Definition closed_shard (session : string) (slot : Z) (s : Hy) : Worker.Shard :=
  delete slot (default ∅ (hy_disk s !! session)).

Lemma reported_windows pane session slot wid t x :
  su_windows (reported pane session slot wid t x) =
  on_store (alter (meta_layout (Some (close t pane).2)) wid) (on_pane_window (delete pane) (su_windows x)).
Proof.
  unfold reported, saved. cbn [queued announced send_finalize emit modify fst set_queues su_windows].
  change (su_windows (announced ?p ?k ?y)) with (su_windows y).
  assert (∀ y, su_windows (store_call (Store.upsert_window_layout env wid (layout_to_json (close t pane).2)) y).1 = su_windows y) as ->
    by (intros y; unfold store_call, zoom; by destruct (Store.upsert_window_layout _ _ _ _)).
  unfold undrawn. cbn [set_windows su_windows]. by rewrite evicted_windows.
Qed.

Lemma close_placed_run pane session slot h w wid t (s : Hy) :
  placed pane session slot h w wid t s →
  close_pane env message true pane s =
    (MkHy (reported pane session slot wid t (hy_sup s)) (<[wh_pid h := closed_worker session slot w]> (hy_procs s))
       (<[session := closed_shard session slot s]> (hy_disk s)) (hy_spawned s), Ok tt).
Proof.
  intros Hp. unfold close_pane. rewrite (bind_ok _ _ s s (slot, h)).
  2:{ unfold route, bind, gets_sup, gets, lookup_pane, get_ctrl_client, PaneIndex.lookup_pane.
      rewrite (proj2 (pl_index _ _ _ _ _ _ _ _ Hp _) eq_refl). cbn [expect of_result ok_or fst snd].
      unfold expect, of_result. cbn [ok_or fst snd]. by rewrite (pl_handle _ _ _ _ _ _ _ _ Hp). }
  cbn [fst snd]. set (s1 := MkHy _ _ _ _). rewrite (bind_ok _ _ s s1 tt).
  2:{ unfold call_io, zoom, call. rewrite (pl_worker _ _ _ _ _ _ _ _ Hp). unfold run_worker.
      rewrite (pl_session _ _ _ _ _ _ _ _ Hp). unfold Worker.ctrl_close_pane, Worker.ctrl, zoom.
      by rewrite (worker_close_run pane session slot h w wid t s _ Hp). }
  rewrite (bind_ok _ _ s1 s1 None).
  2:{ unfold gets_sup, gets. cbn [hy_sup s1]. rewrite reported_windows. cbn [on_store on_pane_window pane_window_map].
      by rewrite lookup_delete_eq. }
  rewrite (bind_ok _ _ s1 s1 None) by (rewrite sup_run; by destruct s1).
  assert (set_windows (on_pane_window (delete pane)) (hy_sup s1) = hy_sup s1) as Hid.
  { cbn [hy_sup s1]. pose proof (reported_windows pane session slot wid t (hy_sup s)) as Hw.
    destruct (reported pane session slot wid t (hy_sup s)) as [wk win q b lg st ix sn cw]. cbn in Hw |- *. subst win.
    unfold set_windows, on_pane_window, on_store. cbn. by rewrite delete_delete_eq. }
  rewrite (bind_ok _ _ s1 s1 tt); [|rewrite sup_run; cbn [modify_windows modify fst snd]; rewrite Hid; by destruct s1].
  rewrite sup_run. by destruct s1.
Qed.

(** ** What is left *)
Definition others (session : string) (slot : Z) (x : Sup) : Prop :=
  ∃ u slot', PaneIndex.pane_to_slot (panes_of x) !! u = Some (session, slot') ∧ slot' ≠ slot.

Lemma left_in_zero session slot x : left_in session slot x = 0%nat ↔ ¬ others session slot x.
Proof.
  unfold left_in, PaneIndex.remove_pane_slot, PaneIndex.of_session. cbn [fst]. rewrite map_size_empty_iff, map_empty. split.
  - intros He (u & slot' & Hu & Hne). specialize (He u). apply map_lookup_filter_None in He as [He|He].
    + apply map_lookup_filter_None in He as [He|He]; [congruence|]. apply (He _ Hu). cbn. congruence.
    + apply (He (session, slot')); [|done]. apply map_lookup_filter_Some. split; [done|]. cbn. congruence.
  - intros Hno u. apply eq_None_not_Some. intros [[s' sl] [[Hu Hne]%map_lookup_filter_Some Hs]%map_lookup_filter_Some].
    cbn in Hs, Hne. subst s'. apply Hno. exists u, sl. split; [done|congruence].
Qed.

Lemma left_in_nonzero session slot x : left_in session slot x ≠ 0%nat → others session slot x.
Proof.
  unfold left_in, PaneIndex.remove_pane_slot, PaneIndex.of_session. cbn [fst]. rewrite map_size_ne_0_lookup.
  intros (u & [s' sl] & [[Hu Hne]%map_lookup_filter_Some Hs]%map_lookup_filter_Some). cbn in Hs, Hne. subst s'.
  exists u, sl. split; [done|congruence].
Qed.

Lemma evicted_index session slot x u ss :
  PaneIndex.pane_to_slot (panes_of (evicted session slot x)) !! u = Some ss ↔
  PaneIndex.pane_to_slot (panes_of x) !! u = Some ss ∧ ss ≠ (session, slot).
Proof.
  assert (PaneIndex.pane_to_slot (panes_of (unslot session slot x)) !! u = Some ss ↔
    PaneIndex.pane_to_slot (panes_of x) !! u = Some ss ∧ ss ≠ (session, slot)) as Hu
    by (cbn; by rewrite map_lookup_filter_Some).
  unfold evicted. destruct (Nat.eqb_spec (left_in session slot x) 0) as [Hz|_]; [|done].
  rewrite forget_index, Hu. split; [tauto|]. intros [Hx Hne]. split; [done|]. intros Hs. apply left_in_zero in Hz. apply Hz.
  destruct ss as [s' sl]. cbn in Hs. subst s'. exists u, sl. split; [done|congruence].
Qed.

Lemma reported_workers pane session slot wid t x :
  su_workers (reported pane session slot wid t x) = su_workers (evicted session slot x).
Proof.
  unfold reported. cbn [queued announced send_finalize emit modify fst set_queues su_workers]. unfold saved.
  unfold announced. cbn [emit modify fst]. unfold store_call, zoom.
  by destruct (Store.upsert_window_layout _ _ _ _) as [st r].
Qed.
Lemma evicted_store session slot x : su_store (evicted session slot x) = su_store x ∧ su_log (evicted session slot x) = su_log x.
Proof. unfold evicted. by destruct (_ =? _)%nat. Qed.
Lemma reported_store pane session slot wid t x :
  su_store (reported pane session slot wid t x) =
  (Store.upsert_window_layout env wid (layout_to_json (close t pane).2) (su_store x)).1.
Proof.
  transitivity (su_store (saved wid (close t pane).2 (undrawn pane wid t (evicted session slot x)))); [done|].
  unfold saved, store_call, zoom. change (su_store (undrawn pane wid t ?y)) with (su_store y).
  rewrite (proj1 (evicted_store session slot x)). by destruct (Store.upsert_window_layout _ _ _ _).
Qed.
Lemma reported_log pane session slot wid t x :
  ∃ n m, su_log (reported pane session slot wid t x) =
    su_log x ++ [MkPaneEvent n pane LayoutChanged None None; MkPaneEvent m pane Closed None None].
Proof.
  set (y := saved wid (close t pane).2 (undrawn pane wid t (evicted session slot x))).
  assert (su_log y = su_log x) as Hy.
  { unfold y, saved, store_call, zoom. transitivity (su_log (evicted session slot x)); [|apply evicted_store].
    by destruct (Store.upsert_window_layout _ _ _ _). }
  exists (wrap_u64 (PaneEventBus.bus_seq (su_bus y) + 1)), (wrap_u64 (wrap_u64 (PaneEventBus.bus_seq (su_bus y) + 1) + 1)).
  transitivity (su_log (announced pane Closed (announced pane LayoutChanged y))); [done|].
  unfold announced, emit, modify. cbn [fst PaneEventBus.emit su_log su_bus PaneEventBus.bus_seq]. by rewrite Hy, <- app_assoc.
Qed.
End Close.

(** ** Properties *)

(** C12: closing a pane in the multi-process mode. Closing a pane that is placed
    succeeds and does everything, once: the worker loses the pane (and prepares to
    exit if it was its last) and its shard the row; the index loses that pane and no
    other; the session stays registered exactly if it has other panes; the pane leaves
    its window and the tree, and the new tree is what the one statement run saves; the
    events added are one layout change and one close, in this order. *)
Theorem close_pane_contract `{UuidText, LayoutJson, SqlOrder, Zstd, ChronoRange, HashOrder, UnicodeLower}
    env message pane session slot h w wid t s (Hp : placed pane session slot h w wid t s) :
  let '(s', r) := close_pane env message true pane s in
  r = Ok tt ∧
  hy_procs s' = <[wh_pid h := closed_worker session slot w]> (hy_procs s) ∧
  hy_disk s' = <[session := closed_shard session slot s]> (hy_disk s) ∧ hy_spawned s' = hy_spawned s ∧
  (∀ p ss, lookup_pane p (hy_sup s') = Some ss ↔ lookup_pane p (hy_sup s) = Some ss ∧ p ≠ pane) ∧
  (is_Some (wr_inner (su_workers (hy_sup s')) !! session) ↔ others session slot (hy_sup s)) ∧
  (∀ session', session' ≠ session →
     wr_inner (su_workers (hy_sup s')) !! session' = wr_inner (su_workers (hy_sup s)) !! session') ∧
  su_windows (hy_sup s') =
    on_store (alter (meta_layout (Some (close t pane).2)) wid) (on_pane_window (delete pane) (su_windows (hy_sup s))) ∧
  su_store (hy_sup s') =
    (Store.upsert_window_layout env wid (layout_to_json (close t pane).2) (su_store (hy_sup s))).1 ∧
  ∃ n m, su_log (hy_sup s') =
    su_log (hy_sup s) ++ [MkPaneEvent n pane LayoutChanged None None; MkPaneEvent m pane Closed None None].
Proof.
  rewrite (close_placed_run env message pane session slot h w wid t s Hp). cbn [hy_procs hy_disk hy_spawned hy_sup].
  split_and!; try done.
  - intros p ss. unfold lookup_pane, PaneIndex.lookup_pane, panes_of. rewrite reported_workers.
    fold (panes_of (evicted session slot (hy_sup s))). rewrite evicted_index. fold (panes_of (hy_sup s)).
    split; intros [Hl Hne]; (split; [done|]); intros ->; apply Hne.
    + rewrite (proj2 (pl_index _ _ _ _ _ _ _ _ Hp _) eq_refl) in Hl. by injection Hl.
    + apply (pl_index _ _ _ _ _ _ _ _ Hp) in Hl. destruct p, pane. cbn in Hl. by subst.
  - rewrite reported_workers. unfold evicted. destruct (Nat.eqb_spec (left_in session slot (hy_sup s)) 0) as [Hz|Hz].
    + cbn. rewrite lookup_delete_eq. apply left_in_zero in Hz. split; [by intros []|done].
    + split; [|intros _; exists h; apply Hp]. intros _. by apply left_in_nonzero.
  - intros s' Hne. rewrite reported_workers. unfold evicted. destruct (_ =? _)%nat; [|done]. cbn. by rewrite lookup_delete_ne.
  - apply reported_windows.
  - apply reported_store.
  - apply reported_log.
Qed.

(** ** Witness *)
Section Witnesses.
#[local] Existing Instances binary_uuid binary_json stable_order no_compression chrono_0_4 list_hash
  BlockIndex.substring_engine PaneTracker.all_ascii_lower.

Definition placed_check (pane : PaneId) (session : string) (slot : Z) (s : Hy) : bool :=
  match wr_inner (su_workers (hy_sup s)) !! session, pane_window_map (su_windows (hy_sup s)) !! pane with
  | Some h, Some wid =>
      match hy_procs s !! wh_pid h, window_store (su_windows (hy_sup s)) !! wid ≫= wm_layout with
      | Some w, Some t =>
          bool_decide (lookup_pane pane (hy_sup s) = Some (session, slot)) &&
          bool_decide (map_Forall (λ u ss, ss = (session, slot) → u = pane_uuid pane)
            (PaneIndex.pane_to_slot (panes_of (hy_sup s)))) &&
          bool_decide (Worker.wk_session_id w = session) && bool_decide (is_Some (Worker.wk_panes w !! slot))
      | _, _ => false
      end
  | _, _ => false
  end.
Lemma placed_check_sound pane session slot s :
  placed_check pane session slot s = true → ∃ h w wid t, placed pane session slot h w wid t s.
Proof.
  unfold placed_check. destruct (wr_inner _ !! _) as [h|] eqn:Eh; [|done].
  destruct (pane_window_map _ !! _) as [wid|] eqn:Ew; [|done]. destruct (hy_procs s !! _) as [w|] eqn:Ep; [|done].
  destruct (_ ≫= _) as [t|] eqn:Et; [|done]. rewrite !andb_true_iff, !bool_decide_eq_true.
  intros (((Hl & Hu) & Hs) & Hi). exists h, w, wid, t. split; try done. intros u. split; [intros Hx; by apply (Hu u _ Hx)|].
  by intros ->.
Qed.

Lemma close_pane_contract_witness :
  let '(s', r) := close_pane calm call_text true (MkPaneId 1) two_panes in
  r = Ok tt ∧ lookup_pane (MkPaneId 1) (hy_sup s') = None ∧
  closed_events s' = [MkPaneId 1] ∧ is_Some (wr_inner (su_workers (hy_sup s')) !! uuid_to_string 0%N).
Proof.
  destruct (placed_check_sound (MkPaneId 1) (uuid_to_string 0%N) 0 two_panes) as (h & w & wid & t & Hp); [vm_compute; reflexivity|].
  pose proof (close_pane_contract calm call_text _ _ _ _ _ _ _ _ Hp) as Hc.
  destruct (close_pane calm call_text true (MkPaneId 1) two_panes) as [s' r].
  destruct Hc as (-> & _ & _ & _ & Hl & Hreg & _ & _ & _ & (n & m & Hlog)). split_and!.
  - reflexivity.
  - apply eq_None_not_Some. intros [ss Hss]. apply Hl in Hss as [_ Hne]. exact (Hne eq_refl).
  - unfold closed_events. rewrite Hlog. vm_compute. reflexivity.
  - apply Hreg. exists 3%N, 1. split; [vm_compute; reflexivity|lia].
Defined.
End Witnesses.
