(* ===== verification/Batcher.v ===== *)
(** * Batcher: blocks of the multi-process mode (pyred/src/supervisor.rs)

    Workers send raw output; the supervisor's [block_event_batcher] collects it
    between ticks, feeds one parser per slot and records the blocks. A pane that
    closes, and the end of the daemon, finalize the blocks still open. *)
From Stdlib Require Import Strings.Byte.
From S2P Require Import Prelude Proto Text Libraries Effects BlockParser PaneTracker Store Registry.
From S2P Require Import BlockIndex Pty WorkerRegistry Worker Supervisor.
Local Open Scope Z_scope.

Module Batcher.
Import Supervisor.

Section Batcher.
Context `{UuidText, LayoutJson, SqlOrder, Zstd, ChronoRange, HashOrder}.
Context {P : Type} `{BlockParser.VteParser P}.
Context (env : Store.Env).
(** The identifiers the parser of each slot draws, and what the system answers while
    each of its events is handled. *)
Context (fresh : string * Z → nat → BlockId) (io : string * Z → nat → Pty.EventIo).

Record PaneParserState := MkPaneParserState {
  pp_parser : BlockParser.BlockParser P;
  pp_writers : gmap BlockId Store.BlobWriter;
  pp_bufs : gmap BlockId Bytes;
  pp_meta : gmap BlockId Block;
  pp_pane : option PaneId;
  pp_handled : nat }.              (** events handled so far *)

Definition new_state (session : SessionId) : PaneParserState :=
  MkPaneParserState (BlockParser.new session) ∅ ∅ ∅ None 0.

(** The parsers, the calls of [add_block] spawned, and the supervisor. *)
Record Ba := MkBa {
  ba_parsers : gmap (string * Z) PaneParserState;
  ba_jobs : list (Block * string);
  ba_sup : Sup }.

(** What one parsed event changes: the blocks of its slot, the jobs, the store. *)
Record Blocks := MkBlocks {
  bl_writers : gmap BlockId Store.BlobWriter;
  bl_bufs : gmap BlockId Bytes;
  bl_meta : gmap BlockId Block;
  bl_jobs : list (Block * string);
  bl_store : Store.St }.

Definition clock (st : Store.St) : Store.St * DateTime :=
  ((Store.now env st).1, Store.env_clock env (Store.st_clocks st)).

Definition command_start (i : Pty.EventIo) (pane : PaneId) (session : SessionId) (block : BlockId)
    (command : string) (cwd : option PathBuf) (b : Blocks) : Blocks :=
  let '(st1, t) := clock (bl_store b) in
  let proto_block := MkBlock block pane session command cwd t None None 0 in
  match Store.create_block env proto_block st1 with
  | (st2, Err _) => MkBlocks (bl_writers b) (bl_bufs b) (bl_meta b) (bl_jobs b) st2
  | (st2, Ok _) =>
      let '(st3, opened) := Store.blob_open (Pty.io_open i) (Store.blob_path_for (Store.st_data_dir st2) block) st2 in
      MkBlocks (match opened with Ok bw => <[block := bw]> (bl_writers b) | Err _ => bl_writers b end)
        (<[block := []]> (bl_bufs b)) (<[block := proto_block]> (bl_meta b)) (bl_jobs b) st3
  end.

(** A write that fails, or whose task fails, loses the writer. *)
Definition output_chunk (i : Pty.EventIo) (block : BlockId) (data : Bytes) (b : Blocks) : Blocks :=
  let writers :=
    match bl_writers b !! block with
    | Some bw =>
        match Store.blob_write (Pty.io_write i) data bw with
        | Ok bw' => if Pty.io_join i then <[block := bw']> (delete block (bl_writers b))
                    else delete block (bl_writers b)
        | Err _ => delete block (bl_writers b)
        end
    | None => bl_writers b
    end in
  MkBlocks writers (alter (Pty.buffer_chunk data) block (bl_bufs b)) (bl_meta b) (bl_jobs b) (bl_store b).

Definition stdout_text (buf : option Bytes) : string :=
  match buf ≫= from_utf8 with Some cs => of_chars cs | None => "" end.

(** Closing the writer of a block, ending its row and spawning the index job. *)
Definition finish_block (close_ok : bool) (block : BlockId) (code : option Z) (b : Blocks) : Blocks :=
  MkBlocks (delete block (bl_writers b)) (delete block (bl_bufs b)) (delete block (bl_meta b))
    (match bl_meta b !! block with
     | Some meta => bl_jobs b ++ [(meta, stdout_text (bl_bufs b !! block))]
     | None => bl_jobs b
     end)
    (Pty.close_and_finalize env close_ok block (bl_writers b !! block) code (bl_store b)).

Definition parsed_event (i : Pty.EventIo) (pane : PaneId) (session : SessionId) (ev : BlockEvent) (b : Blocks) :
    Blocks :=
  match ev with
  | PromptStart _ => b
  | CommandStart _ block command cwd => command_start i pane session block command cwd b
  | OutputChunk block data => output_chunk i block data b
  | BlockEnd block code => finish_block (Pty.io_close i) block code b
  end.

(** The events of one chunk, numbered from [n]. *)
Fixpoint parsed_events (key : string * Z) (n : nat) (pane : PaneId) (session : SessionId) (evs : list BlockEvent)
    (b : Blocks) : Blocks :=
  match evs with
  | [] => b
  | ev :: rest => parsed_events key (S n) pane session rest (parsed_event (io key n) pane session ev b)
  end.

Definition blocks_of (st : PaneParserState) (ba : Ba) : Blocks :=
  MkBlocks (pp_writers st) (pp_bufs st) (pp_meta st) (ba_jobs ba) (su_store (ba_sup ba)).
(** Putting the slot back with what the blocks became. *)
Definition put_blocks (key : string * Z) (parser : BlockParser.BlockParser P) (pane : option PaneId) (n : nat)
    (b : Blocks) (ba : Ba) : Ba :=
  MkBa (<[key := MkPaneParserState parser (bl_writers b) (bl_bufs b) (bl_meta b) pane n]> (ba_parsers ba))
    (bl_jobs b) (set_store (bl_store b) (ba_sup ba)).

(** [process_raw_event]: an event of an unknown session, or of a slot that was
    closed before its first event, is dropped. *)
Definition process_raw_event (raw : RawEvent) (ba : Ba) : Ba :=
  match uuid_parse (re_session_id raw) with
  | None => ba
  | Some u =>
      let session := MkSessionId u in
      let key := (re_session_id raw, re_slot_idx raw) in
      let st := default (new_state session) (ba_parsers ba !! key) in
      let '(sup1, pane) :=
        match pp_pane st with
        | Some p => (ba_sup ba, Some p)
        | None =>
            let '(x, r) := get_or_alloc_pane_by_slot (E := unit) env (re_session_id raw) (re_slot_idx raw) (ba_sup ba) in
            (x, match r with Ok (Some u) => Some (MkPaneId u) | _ => None end)
        end in
      let ba1 := MkBa (ba_parsers ba) (ba_jobs ba) sup1 in
      match pane with
      | None => put_blocks key (pp_parser st) None (pp_handled st) (blocks_of st ba1) ba1
      | Some p =>
          let '(parser, evs) :=
            if decide (re_bytes raw = []) then (pp_parser st, [])
            else BlockParser.feed (fresh key) (pp_parser st) (re_bytes raw) in
          put_blocks key parser (Some p) (pp_handled st + length evs)
            (parsed_events key (pp_handled st) p session evs (blocks_of st ba1)) ba1
      end
  end.

(** ** Finalizing *)

(** The blocks of [block_meta], which has every started block, in the order of the
    map; [close_ok] says which writers close. *)
Definition finalize_blocks (close_ok : BlockId → bool) (b : Blocks) : Blocks :=
  fold_left (λ b block, finish_block (close_ok block) block None b)
    (hash_order (map_to_list (bl_meta b))).*1 b.

Definition finalize_one_pane_state (close_ok : BlockId → bool) (key : string * Z) (ba : Ba) : Ba :=
  match ba_parsers ba !! key with
  | None => ba
  | Some st =>
      put_blocks key (pp_parser st) (pp_pane st) (pp_handled st) (finalize_blocks close_ok (blocks_of st ba)) ba
  end.

Definition finalize_open_blocks (close_ok : BlockId → bool) (ba : Ba) : Ba :=
  fold_left (λ ba key, finalize_one_pane_state close_ok key ba) (hash_order (map_to_list (ba_parsers ba))).*1 ba.

(** ** The loop: what [select!] picks, turn by turn *)
Inductive Turn :=
  | TEvent (ev : RawEvent)
  | TClosed                                            (** the event channel was closed *)
  | TTick
  | TFinalize (key : string * Z) (close_ok : BlockId → bool)
  | TFinalizeClosed.

Definition flush (pending : list RawEvent) (ba : Ba) : Ba := fold_left (λ ba ev, process_raw_event ev ba) pending ba.

(** The state at the end and whether the task returned. *)
Fixpoint batcher (close_ok : BlockId → bool) (turns : list Turn) (pending : list RawEvent) (ba : Ba) : Ba * bool :=
  match turns with
  | [] => (ba, false)
  | TEvent ev :: rest => batcher close_ok rest (pending ++ [ev]) ba
  | TClosed :: _ => (finalize_open_blocks close_ok (flush pending ba), true)
  | TTick :: rest => batcher close_ok rest [] (flush pending ba)
  | TFinalize key ok :: rest => batcher close_ok rest [] (finalize_one_pane_state ok key (flush pending ba))
  | TFinalizeClosed :: rest => batcher close_ok rest pending ba
  end.

End Batcher.
End Batcher.
