(* ===== verification/BatcherInv.v ===== *)
(** * BatcherInv: the record of commands in the multi-process mode

    The batcher does for a slot what the parser task of the single process does for a
    pane, however the events are grouped by ticks; and when the daemon stops it leaves
    no block open, whatever the slots printed. *)
From Stdlib Require Import Strings.Byte.
From S2P Require Import Prelude Proto Text Libraries Effects BlockParser PaneTracker Store StoreBlocks.
From S2P Require Import Registry RegistryInv BlockIndex Pty PtyTask WorkerRegistry Worker Supervisor Batcher.
Local Open Scope Z_scope.
Import Supervisor Batcher.

(** ** One slot beside one parser task *)
Section Task.
Context `{UuidText, LayoutJson, SqlOrder, Zstd, ChronoRange, HashOrder}.
Context {P : Type} `{BlockParser.VteParser P}.
Context (env : Store.Env) (fresh : string * Z → nat → BlockId) (io : string * Z → nat → Pty.EventIo).
Context (pane : PaneId) (session : SessionId) (key : string * Z).

(** The supervisor cannot look up the directory of a shell; a failed write is the one
    case the two treat differently. *)
Definition plain_io : Prop := ∀ n, Pty.io_cwd (io key n) = None ∧ Pty.io_write (io key n) = true.

Definition same_blocks (b : Blocks) (tk : Pty.Task) : Prop :=
  bl_writers b = Pty.tk_writers tk ∧ bl_bufs b = Pty.tk_bufs tk ∧ bl_meta b = Pty.tk_meta tk ∧
  bl_jobs b = Pty.tk_jobs tk ∧ bl_store b = Pty.tk_store tk.

Lemma parsed_event_task n ev b tk :
  plain_io → n = length (Pty.tk_sent tk) → same_blocks b tk →
  same_blocks (parsed_event env (io key n) pane session ev b) (Pty.on_event env pane session (io key) tk ev).
Proof.
  intros Hio -> (Ew & Eb & Em & Ej & Es). destruct (Hio (length (Pty.tk_sent tk))) as [Hcwd Hwr].
  destruct b as [bw bb bm bj bs]. cbn in Ew, Eb, Em, Ej, Es. subst. unfold Pty.on_event.
  destruct ev as [s|s block cmd cwd|block data|block code]; cbn [parsed_event].
  - by split_and!.
  - unfold command_start, Pty.start_block. rewrite Hcwd. cbn [Pty.announce Pty.marker_of clock Store.now fst snd bl_store Pty.tk_store].
    destruct (Store.create_block _ _ _) as [st2 [[]|e]]; [|by split_and!]. cbn [Pty.announce].
    destruct (Store.blob_open _ _ _) as [st3 o]. by split_and!.
  - split_and!; try done. cbn. destruct (Pty.tk_writers tk !! block) as [w|]; [|done]. rewrite Hwr.
    unfold Store.blob_write. destruct (Store.bw_enc w), (Pty.io_join _); done.
  - by split_and!.
Qed.

Lemma parsed_events_task n evs b tk :
  plain_io → n = length (Pty.tk_sent tk) → same_blocks b tk →
  same_blocks (parsed_events env io key n pane session evs b) (fold_left (Pty.on_event env pane session (io key)) evs tk) ∧
  length (Pty.tk_sent (fold_left (Pty.on_event env pane session (io key)) evs tk)) = (n + length evs)%nat.
Proof.
  intros Hio. revert n b tk. induction evs as [|ev evs IH]; intros n b tk Hn Hb; cbn [parsed_events fold_left length].
  - split; [done|lia].
  - assert (length (Pty.tk_sent (Pty.on_event env pane session (io key) tk ev)) = S n) as Hlen.
    { subst n. unfold Pty.on_event. destruct ev; cbn [Pty.announce Pty.tk_sent Pty.write_chunk Pty.end_block];
        try (rewrite length_app; cbn; lia). unfold Pty.start_block. cbn [Store.now].
      destruct (Store.create_block _ _ _) as [st2 [[]|e]]; [destruct (Store.blob_open _ _ _)|];
        cbn [Pty.announce Pty.tk_sent]; rewrite length_app; cbn; lia. }
    destruct (IH (S n) (parsed_event env (io key n) pane session ev b) (Pty.on_event env pane session (io key) tk ev))
      as [H1' H2']; [done|by apply parsed_event_task|]. split; [done|]. rewrite H2'. lia.
Qed.

(** ** The slot's state beside the parser and the task *)
Definition same_state (ix : PaneIndex.PaneIndex) (ba : Ba) (bp : BlockParser.BlockParser P) (tk : Pty.Task) : Prop :=
  let st := default (new_state session) (ba_parsers ba !! key) in
  pp_parser st = bp ∧ pp_handled st = length (Pty.tk_sent tk) ∧ (pp_pane st = None ∨ pp_pane st = Some pane) ∧
  same_blocks (blocks_of st ba) tk ∧ panes_of (ba_sup ba) = ix.

(** Events of this slot. *)
Definition of_slot (ev : RawEvent) : Prop := (re_session_id ev, re_slot_idx ev) = key ∧ re_bytes ev ≠ [].

Lemma process_task ix raw ba bp tk :
  plain_io → uuid_parse key.1 = Some (session_uuid session) →
  PaneIndex.pane_id_by_slot key.1 key.2 ix = Some (pane_uuid pane) →
  of_slot raw → same_state ix ba bp tk →
  let '(bp', evs) := BlockParser.feed (fresh key) bp (re_bytes raw) in
  same_state ix (process_raw_event env fresh io raw ba) bp' (fold_left (Pty.on_event env pane session (io key)) evs tk).
Proof.
  intros Hio Hsess Hpane [Hkey Hne] (Hbp & Hn & Hp & Hb & Hix). unfold process_raw_event.
  assert (re_session_id raw = key.1 ∧ re_slot_idx raw = key.2) as [-> ->] by (by rewrite <- Hkey). rewrite Hsess.
  replace (key.1, key.2) with key by (by destruct key). replace (MkSessionId (session_uuid session)) with session by (by destruct session).
  set (st := default (new_state session) (ba_parsers ba !! key)) in *.
  assert ((match pp_pane st with
           | Some p => (ba_sup ba, Some p)
           | None =>
               let '(x, r) := get_or_alloc_pane_by_slot (E := unit) env key.1 key.2 (ba_sup ba) in
               (x, match r with Ok (Some u) => Some (MkPaneId u) | _ => None end)
           end) = (ba_sup ba, Some pane)) as ->.
  { destruct Hp as [-> | ->]; [|done]. unfold get_or_alloc_pane_by_slot, bind, gets. rewrite Hix, Hpane. by destruct pane. }
  rewrite decide_False by done. rewrite Hbp. destruct (BlockParser.feed (fresh key) bp (re_bytes raw)) as [bp' evs].
  destruct (parsed_events_task (pp_handled st) evs (blocks_of st (MkBa (ba_parsers ba) (ba_jobs ba) (ba_sup ba))) tk)
    as [Hb' Hlen]; [done..|].
  unfold same_state, put_blocks. cbn [ba_parsers ba_sup ba_jobs]. rewrite lookup_insert_eq. cbn [default].
  split_and!; [done|by rewrite Hlen|by right| |done].
  destruct Hb' as (E1 & E2 & E3 & E4 & E5). by split_and!.
Qed.

Lemma flush_task ix raws ba bp tk :
  plain_io → uuid_parse key.1 = Some (session_uuid session) →
  PaneIndex.pane_id_by_slot key.1 key.2 ix = Some (pane_uuid pane) →
  Forall of_slot raws → same_state ix ba bp tk →
  let '(bp', tk') := Pty.parser_loop env pane session (fresh key) (io key) (re_bytes <$> raws) bp tk in
  same_state ix (flush env fresh io raws ba) bp' tk'.
Proof.
  intros Hio Hs Hp Hall. revert ba bp tk. induction Hall as [|raw raws Hraw _ IH]; intros ba bp tk Hst; [done|].
  unfold flush. cbn [fold_left fmap list_fmap Pty.parser_loop].
  pose proof (process_task ix raw ba bp tk Hio Hs Hp Hraw Hst) as Hstep.
  destruct (BlockParser.feed (fresh key) bp (re_bytes raw)) as [bp' evs]. exact (IH _ _ _ Hstep).
Qed.

(** *** The loop: only the order of the events counts. *)
Definition quiet_turn (t : Turn) : Prop := match t with TEvent ev => of_slot ev | TTick | TFinalizeClosed => True | _ => False end.
Definition event_of (t : Turn) : option RawEvent := match t with TEvent ev => Some ev | _ => None end.

Lemma batcher_flush close_ok turns pending ba :
  Forall quiet_turn turns →
  (batcher env fresh io close_ok (turns ++ [TTick]) pending ba) = (flush env fresh io (pending ++ omap event_of turns) ba, false).
Proof.
  intros Ht. revert pending ba. induction Ht as [|t turns Hq _ IH]; intros pending ba; [cbn; by rewrite app_nil_r|].
  destruct t; try done; cbn [app batcher omap list_omap event_of].
  - rewrite IH, <- app_assoc. done.
  - rewrite IH. unfold flush. cbn [app]. by rewrite fold_left_app.
  - apply IH.
Qed.
End Task.

(** ** No row without an end is forgotten *)
Section Open.
Context `{UuidText, LayoutJson, SqlOrder, Zstd, ChronoRange, HashOrder}.
Context {P : Type} `{BlockParser.VteParser P}.
Context (env : Store.Env) (fresh : string * Z → nat → BlockId) (io : string * Z → nat → Pty.EventIo).
Context (no_fault : ∀ n, Store.env_fault env n = false).

Abbreviation rows st := (Store.db_blocks (Store.st_db st)).

(** Every row without an end time is one of [O] or has its block in the map. *)
Definition covered (O : string → Prop) (m : gmap BlockId Block) (st : Store.St) : Prop :=
  ∀ k row, rows st !! k = Some row →
    is_Some (Store.br_ended_at row) ∨ O k ∨ ∃ block, Store.block_key block = k ∧ is_Some (m !! block).
Definition bcovered (O : string → Prop) (b : Blocks) : Prop := covered O (bl_meta b) (bl_store b).

Lemma covered_rows O m st st' : rows st' = rows st → covered O m st → covered O m st'.
Proof. intros E Hc k row. rewrite E. apply Hc. Qed.

Lemma create_rows blk st st' r :
  Store.create_block env blk st = (st', r) →
  (r = Ok tt ∧ rows st !! Store.block_key (blk_id blk) = None ∧
     ∃ row, rows st' = <[Store.block_key (blk_id blk) := row]> (rows st)) ∨
  (is_ok r = false ∧ rows st' = rows st).
Proof.
  unfold Store.create_block, bind, gets, Store.query. rewrite no_fault.
  destruct (Store.db_blocks _ !! _) eqn:E; intros [= <- <-]; [by right|left]. split; [done|]. split; [done|]. by eexists.
Qed.

Lemma command_start_covered O i pane session block cmd cwd b :
  bcovered O b → bcovered O (command_start env i pane session block cmd cwd b).
Proof.
  intros Hb. unfold command_start. cbn [clock Store.now fst snd].
  match goal with |- context [Store.create_block env ?x ?s] => set (blk := x); set (st1 := s) end.
  destruct (Store.create_block env blk st1) as [st2 r] eqn:Ec. apply create_rows in Ec as [(-> & _ & row & Er)|(He & Er)].
  - destruct (Store.blob_open _ _ st2) as [st3 o] eqn:Eo.
    assert (rows st3 = rows st2) as E3.
    { unfold Store.blob_open in Eo. destruct (Pty.io_open i); by injection Eo as <- _. }
    intros k row'. cbn [bl_store bl_meta]. rewrite E3, Er.
    intros [[<- <-]|[Hne Hr]]%lookup_insert_Some; [right; right; exists block; split; [done|by rewrite lookup_insert_eq]|].
    destruct (Hb k row' Hr) as [?|[?|(b' & Hk & Hm)]]; [by left|by right; left|]. right. right. exists b'. split; [done|].
    destruct (decide (b' = block)) as [->|Hnb]; [by rewrite lookup_insert_eq|by rewrite lookup_insert_ne].
  - destruct r as [[]|e]; [done|]. by eapply covered_rows.
Qed.

Lemma finish_covered O ok block code b :
  bcovered O b → bcovered O (finish_block env ok block code b).
Proof.
  intros Hb. intros k row. unfold finish_block. cbn [bl_store bl_meta].
  destruct (close_and_finalize_blocks env no_fault ok block (bl_writers b !! block) code (bl_store b)) as (t & len & ->).
  destruct (decide (k = Store.block_key block)) as [->|Hne].
  - rewrite lookup_alter_eq. intros (r & _ & ->)%fmap_Some. left. by eexists.
  - rewrite lookup_alter_ne by done. intros Hr. destruct (Hb k row Hr) as [?|[?|(b' & Hk & Hm)]]; [by left|by right; left|].
    right. right. exists b'. split; [done|]. rewrite lookup_delete_ne; [done|]. by intros ->.
Qed.

Lemma parsed_event_covered O i pane session ev b :
  bcovered O b → bcovered O (parsed_event env i pane session ev b).
Proof.
  intros Hb. destruct ev as [s|s block cmd cwd|block data|block code]; cbn [parsed_event]; [done| |done|].
  - by apply command_start_covered.
  - by apply finish_covered.
Qed.
Lemma parsed_events_covered O key n pane session evs b :
  bcovered O b → bcovered O (parsed_events env io key n pane session evs b).
Proof. revert n b. induction evs as [|ev evs IH]; intros n b Hb; [done|]. by apply IH, parsed_event_covered. Qed.

Lemma finalize_covered O ok b :
  bcovered O b → bcovered O (finalize_blocks env ok b) ∧ bl_meta (finalize_blocks env ok b) = ∅.
Proof.
  intros Hb. unfold finalize_blocks.
  assert (∀ l b, bcovered O b → bcovered O (fold_left (λ b block, finish_block env (ok block) block None b) l b) ∧
    bl_meta (fold_left (λ b block, finish_block env (ok block) block None b) l b) = filter (λ kv, kv.1 ∉ l) (bl_meta b)) as Hl.
  { clear b Hb. intros l. induction l as [|x l IH]; intros b Hb; cbn [fold_left].
    - split; [done|]. symmetry. apply map_filter_id. intros i y _. apply not_elem_of_nil.
    - destruct (IH (finish_block env (ok x) x None b)) as [H1' ->]; [by apply finish_covered|]. split; [done|].
      cbn [finish_block bl_meta]. apply map_eq. intros i. apply option_eq. intros y.
      rewrite !map_lookup_filter_Some, lookup_delete_Some. cbn. rewrite not_elem_of_cons. intuition congruence. }
  destruct (Hl (hash_order (map_to_list (bl_meta b))).*1 b Hb) as [H1' ->]. split; [done|].
  apply map_empty. intros i. apply map_lookup_filter_None. right. intros y Hy Hni. apply Hni.
  rewrite hash_order_perm. apply list_elem_of_fmap. exists (i, y). split; [done|]. by apply elem_of_map_to_list.
Qed.

(** *** All slots *)
Definition elsewhere (O : string → Prop) (key : string * Z) (ba : Ba (P := P)) (k : string) : Prop :=
  O k ∨ ∃ key' st block, key' ≠ key ∧ ba_parsers ba !! key' = Some st ∧ Store.block_key block = k ∧ is_Some (pp_meta st !! block).
Definition all_covered (O : string → Prop) (ba : Ba (P := P)) : Prop :=
  ∀ k row, rows (su_store (ba_sup ba)) !! k = Some row →
    is_Some (Store.br_ended_at row) ∨ O k ∨
    ∃ key st block, ba_parsers ba !! key = Some st ∧ Store.block_key block = k ∧ is_Some (pp_meta st !! block).

Lemma covered_slot O key session ba :
  all_covered O ba →
  bcovered (elsewhere O key ba) (blocks_of (default (new_state session) (ba_parsers ba !! key)) ba).
Proof.
  intros Hc k row Hr. destruct (Hc k row Hr) as [?|[?|(key' & st & block & Hst & Hk & Hm)]]; [by left|right; left; by left|].
  right. destruct (decide (key' = key)) as [->|Hne]; [|left; right; by exists key', st, block].
  right. exists block. split; [done|]. cbn [blocks_of bl_meta]. by rewrite Hst.
Qed.
Lemma put_covered O key parser pane n b ba :
  bcovered (elsewhere O key ba) b → all_covered O (put_blocks key parser pane n b ba).
Proof.
  intros Hb k row Hr. destruct (Hb k row Hr) as [?|[[?|(key' & st & block & Hne & Hst & Hk & Hm)]|(block & Hk & Hm)]].
  - by left.
  - by right; left.
  - right. right. exists key', st, block. cbn [put_blocks ba_parsers]. by rewrite lookup_insert_ne.
  - right. right. eexists key, _, block. cbn [put_blocks ba_parsers]. rewrite lookup_insert_eq. split; [done|]. by split.
Qed.
Lemma all_covered_sup O parsers jobs x x' :
  rows (su_store x') = rows (su_store x) → all_covered O (MkBa parsers jobs x) → all_covered O (MkBa parsers jobs x').
Proof. intros E Hc k row. cbn. rewrite E. apply Hc. Qed.

Lemma get_or_alloc_rows {E} s slot x x' r :
  get_or_alloc_pane_by_slot (E := E) env s slot x = (x', r) → rows (su_store x') = rows (su_store x).
Proof.
  unfold get_or_alloc_pane_by_slot, bind, gets. destruct (PaneIndex.pane_id_by_slot _ _ _); [by intros [= <- _]|].
  destruct (PaneIndex.is_dead _ _ _); [by intros [= <- _]|]. by intros [= <- _].
Qed.

Lemma process_covered O raw ba : all_covered O ba → all_covered O (process_raw_event env fresh io raw ba).
Proof.
  intros Hc. unfold process_raw_event. destruct (uuid_parse _) as [u|]; [|done]. cbv zeta.
  set (key := (re_session_id raw, re_slot_idx raw)). set (st := default _ (ba_parsers ba !! key)).
  match goal with |- context [let '(sup1, pane) := ?m in _] => destruct m as [sup1 p] eqn:Ep end.
  assert (all_covered O (MkBa (ba_parsers ba) (ba_jobs ba) sup1)) as Hc1.
  { destruct ba as [ps js x]. cbn [ba_sup ba_parsers ba_jobs] in Ep |- *. destruct (pp_pane st); [by injection Ep as <- _|].
    destruct (get_or_alloc_pane_by_slot env _ _ x) as [x' r] eqn:Eg. injection Ep as <- _.
    eapply all_covered_sup; [by eapply get_or_alloc_rows|done]. }
  pose proof (covered_slot O key (MkSessionId u) _ Hc1) as Hs. cbn [ba_parsers] in Hs. fold st in Hs.
  destruct p as [p|]; [|by apply put_covered].
  destruct (if decide _ then _ else _) as [parser evs]. apply put_covered. by apply parsed_events_covered.
Qed.
Lemma flush_covered O pending ba : all_covered O ba → all_covered O (flush env fresh io pending ba).
Proof. revert ba. induction pending as [|e l IH]; intros ba Hb; [done|]. by apply IH, process_covered. Qed.

Lemma finalize_one_covered O ok key ba :
  all_covered O ba → all_covered O (finalize_one_pane_state env ok key ba) ∧
  (∀ st, ba_parsers (finalize_one_pane_state env ok key ba) !! key = Some st → pp_meta st = ∅) ∧
  (∀ key', key' ≠ key → ba_parsers (finalize_one_pane_state env ok key ba) !! key' = ba_parsers ba !! key') ∧
  (is_Some (ba_parsers (finalize_one_pane_state env ok key ba) !! key) → is_Some (ba_parsers ba !! key)).
Proof.
  intros Hc. unfold finalize_one_pane_state. destruct (ba_parsers ba !! key) as [st|] eqn:Est.
  - pose proof (covered_slot O key (MkSessionId 0) ba Hc) as Hs. rewrite Est in Hs. cbn [default] in Hs.
    destruct (finalize_covered _ ok _ Hs) as [Hf Hm]. split_and!.
    + by apply put_covered.
    + intros st'. cbn [put_blocks ba_parsers]. rewrite lookup_insert_eq. by intros [= <-].
    + intros key' Hne. cbn [put_blocks ba_parsers]. by rewrite lookup_insert_ne.
    + eauto.
  - split_and!; [done|by rewrite Est|done|by rewrite Est; intros []].
Qed.

Lemma finalize_open_covered O ok ba :
  all_covered O ba → all_covered O (finalize_open_blocks env ok ba) ∧
  map_Forall (λ _ st, pp_meta st = ∅) (ba_parsers (finalize_open_blocks env ok ba)).
Proof.
  intros Hc. unfold finalize_open_blocks.
  assert (∀ l ba, all_covered O ba →
    let ba' := fold_left (λ ba key, finalize_one_pane_state env ok key ba) l ba in
    all_covered O ba' ∧ (∀ key st, ba_parsers ba' !! key = Some st → key ∈ l ∨ pp_meta st = ∅ ∨ ba_parsers ba !! key = Some st) ∧
    (∀ key st, ba_parsers ba' !! key = Some st → key ∈ l → pp_meta st = ∅) ∧
    (∀ key, is_Some (ba_parsers ba' !! key) → is_Some (ba_parsers ba !! key))) as Hl.
  { clear ba Hc. cbn zeta. intros l. induction l as [|key l IH]; intros ba Hc; cbn [fold_left].
    - split_and!; [done|by right; right|by intros key st _ ?%not_elem_of_nil|done].
    - destruct (finalize_one_covered O ok key ba Hc) as (Hc1 & Hm1 & Ho1 & Hs1).
      destruct (IH _ Hc1) as (Hc2 & Hk2 & Hm2 & Hs2). split_and!; [done| | |].
      + intros key' st Hst. destruct (Hk2 key' st Hst) as [?|[?|Hb]]; [by left; right|by right; left|].
        destruct (decide (key' = key)) as [->|Hne]; [by left; left|]. right. right. by rewrite <- (Ho1 _ Hne).
      + intros key' st Hst [->|Hin]%elem_of_cons; [|by eapply Hm2].
        destruct (decide (key ∈ l)) as [Hin|Hni]; [by eapply Hm2|].
        destruct (Hk2 key st Hst) as [?|[?|Hb]]; [done|done|]. by eapply Hm1.
      + intros key' Hst. apply Hs2 in Hst. destruct (decide (key' = key)) as [->|Hne]; [by apply Hs1|]. by rewrite <- (Ho1 _ Hne). }
  destruct (Hl (hash_order (map_to_list (ba_parsers ba))).*1 ba Hc) as (H1' & _ & H3' & H4'). split; [done|].
  intros key st Hst. eapply H3'; [exact Hst|]. destruct (H4' key) as [st0 Hst0]; [by eauto|].
  rewrite hash_order_perm. apply list_elem_of_fmap. exists (key, st0). split; [done|]. by apply elem_of_map_to_list.
Qed.

Lemma batcher_covered O ok turns pending ba :
  all_covered O ba →
  let '(ba', finished) := batcher env fresh io ok turns pending ba in
  all_covered O ba' ∧ (finished = true → map_Forall (λ _ st, pp_meta st = ∅) (ba_parsers ba')).
Proof.
  revert pending ba. induction turns as [|t turns IH]; intros pending ba Hc; cbn [batcher]; [by split|].
  destruct t.
  - by apply IH.
  - destruct (finalize_open_covered O ok (flush env fresh io pending ba)) as [? ?]; [by apply flush_covered|]. by split.
  - by apply IH, flush_covered.
  - apply IH. apply finalize_one_covered. by apply flush_covered.
  - by apply IH.
Qed.

(** The loop ends when the event channel is closed. *)
Lemma batcher_finishes ok turns pending ba :
  TClosed ∈ turns → (batcher env fresh io ok turns pending ba).2 = true.
Proof.
  revert pending ba. induction turns as [|t turns IH]; intros pending ba Hin; [by apply not_elem_of_nil in Hin|].
  apply elem_of_cons in Hin as [<-|Hin]; [done|]. destruct t; cbn [batcher]; [by apply IH|done|by apply IH..].
Qed.
End Open.

(** ** Properties *)

(** C8: the multi-process mode records what the single process records. For a slot
    whose pane the supervisor knows, however the chunks its shell prints are spread
    over ticks, the batcher's state after the last tick is that of the parser task of
    the single process fed the same chunks: the same parser, open blobs, buffered
    output, started blocks, index jobs, and the same store. (Where blob writes
    succeed and the directory of the shell cannot be read, as here it never is.) *)
Theorem batcher_matches_task `{UuidText, LayoutJson, SqlOrder, Zstd, ChronoRange, HashOrder}
    {P : Type} `{BlockParser.VteParser P} env fresh io close_ok pane session key tracker turns x
    (Hio : plain_io io key) (Hsession : uuid_parse key.1 = Some (session_uuid session))
    (Hpane : PaneIndex.pane_id_by_slot key.1 key.2 (panes_of x) = Some (pane_uuid pane))
    (Hturns : Forall (quiet_turn key) turns) :
  let chunks := re_bytes <$> omap event_of turns in
  let '(bp, tk) := Pty.parser_loop env pane session (fresh key) (io key) chunks
                     (BlockParser.new session) (Pty.new_task tracker (su_store x)) in
  same_state (P := P) pane session key (panes_of x)
    (batcher env fresh io close_ok (turns ++ [TTick]) [] (MkBa ∅ [] x)).1 bp tk.
Proof.
  cbn zeta. rewrite (batcher_flush env fresh io key) by done. cbn [fst app].
  assert (Forall (of_slot key) (omap event_of turns)) as Hall.
  { induction Hturns as [|t turns Ht _ IH]; [constructor|]. destruct t; try done. cbn. by constructor. }
  apply (flush_task env fresh io pane session key (panes_of x)); [done..|].
  unfold same_state. cbn [ba_parsers ba_sup]. rewrite lookup_empty. by split_and!; [..|left| |].
Qed.

(** when the daemon stops, no command is left running in the record. Whatever
    the slots printed in whatever order, with ticks and closed panes anywhere in
    between, and whatever blobs do, once the event channel closes the batcher returns
    and every row of the block table has an end time, except those the database held
    without one before. *)
Theorem batcher_leaves_no_block_open `{UuidText, LayoutJson, SqlOrder, Zstd, ChronoRange, HashOrder}
    {P : Type} `{BlockParser.VteParser P} env fresh io close_ok turns x
    (no_fault : ∀ n, Store.env_fault env n = false) (Hclosed : TClosed ∈ turns) :
  let '(ba, finished) := batcher (P := P) env fresh io close_ok turns [] (MkBa ∅ [] x) in
  finished = true ∧
  ∀ k row, Store.db_blocks (Store.st_db (su_store (ba_sup ba))) !! k = Some row →
    is_Some (Store.br_ended_at row) ∨
    ∃ row0, Store.db_blocks (Store.st_db (su_store x)) !! k = Some row0 ∧ Store.br_ended_at row0 = None.
Proof.
  set (O k := ∃ row0, Store.db_blocks (Store.st_db (su_store x)) !! k = Some row0 ∧ Store.br_ended_at row0 = None).
  assert (all_covered (P := P) O (MkBa ∅ [] x)) as Hc.
  { intros k row Hr. cbn in Hr. destruct (Store.br_ended_at row) eqn:E; [left; eauto|]. right. left. by exists row. }
  pose proof (batcher_covered env fresh io no_fault O close_ok turns [] _ Hc) as Hb.
  pose proof (batcher_finishes (P := P) env fresh io close_ok turns [] (MkBa ∅ [] x) Hclosed) as Hf.
  destruct (batcher _ _ _ _ _ _ _) as [ba fin]. cbn in Hf. subst fin. destruct Hb as [Hb Hm]. split; [done|].
  intros k row Hr. destruct (Hb k row Hr) as [?|[?|(key & st & block & Hst & _ & Hbl)]]; [by left|by right|].
  rewrite (Hm eq_refl key st Hst) in Hbl. by destruct Hbl as [? ?%lookup_empty_Some].
Qed.

Section Witnesses.
#[local] Existing Instances binary_uuid binary_json stable_order no_compression chrono_0_4 list_hash
  BlockParser.mini_vte.

(** A supervisor that knows pane 3 in slot 0 of session 9. *)
Definition session9 : string := uuid_to_string 9%N.
Definition knowing : Sup :=
  MkSup (MkWorkers ∅ (PaneIndex.register 3%N session9 0 PaneIndex.empty_index)) (MkWindows ∅ ∅ ∅) (MkQueues [] [] [] ∅)
    PaneEventBus.new [] (fresh_store "/d") (BlockIndex.MkIndex [] []) ∅ ∅.
Definition printed (chunk : Bytes) : Turn := TEvent (MkRawEvent session9 0 KStdout chunk 0).
Definition ids (key : string * Z) (n : nat) : BlockId := MkBlockId (N.of_nat n).
Definition no_cwd_io (key : string * Z) (n : nat) : Pty.EventIo := Pty.MkEventIo 0 None true true true true.

(** "ls" in three chunks, with a tick after the second. *)
Definition ls_turns : list Turn :=
  match ls_chunks with [a; b; c] => [printed a; printed b; TTick; printed c] | _ => [] end.

Lemma batcher_matches_task_witness :
  let ba := (batcher (P := BlockParser.MiniVte) calm ids no_cwd_io (λ _, true) (ls_turns ++ [TTick]) [] (MkBa ∅ [] knowing)).1 in
  (Store.get_block calm (MkBlockId 0) (su_store (ba_sup ba))).2 =
    Ok (Some (MkBlock (MkBlockId 0) (MkPaneId 3) (MkSessionId 9) "ls" None 0 (Some 1000000) (Some 1) 3)).
Proof.
  cbn zeta.
  assert (plain_io no_cwd_io (session9, 0)) as Hio by (intros n; by split).
  assert (Forall (quiet_turn (session9, 0)) ls_turns) as Hturns
    by (repeat constructor; vm_compute; discriminate).
  pose proof (batcher_matches_task (P := BlockParser.MiniVte) calm ids no_cwd_io (λ _, true) (MkPaneId 3) (MkSessionId 9)
    (session9, 0) (PaneTracker.new 0 42) ls_turns knowing Hio eq_refl eq_refl Hturns) as Hm.
  cbv zeta in Hm.
  match type of Hm with let '(bp, tk) := ?l in _ => set (r := l) in Hm; assert ((Store.get_block calm (MkBlockId 0)
    (Pty.tk_store r.2)).2 = Ok (Some (MkBlock (MkBlockId 0) (MkPaneId 3) (MkSessionId 9) "ls" None 0 (Some 1000000) (Some 1) 3)))
    as Hg by (vm_compute; reflexivity) end.
  destruct r as [bp tk]. destruct Hm as (_ & _ & _ & (_ & _ & _ & _ & Hs) & _).
  cbn [blocks_of bl_store] in Hs. rewrite Hs. exact Hg.
Defined.

(** The daemon stops while "ls" is still printing. *)
Lemma batcher_leaves_no_block_open_witness :
  let ba := (batcher (P := BlockParser.MiniVte) calm ids no_cwd_io (λ _, true) (take 2 ls_turns ++ [TClosed]) [] (MkBa ∅ [] knowing)).1 in
  ∃ row, Store.db_blocks (Store.st_db (su_store (ba_sup ba))) !! Store.block_key (MkBlockId 0) = Some row ∧
    is_Some (Store.br_ended_at row).
Proof.
  cbn zeta.
  pose proof (batcher_leaves_no_block_open (P := BlockParser.MiniVte) calm ids no_cwd_io (λ _, true)
    (take 2 ls_turns ++ [TClosed]) knowing) as Hb.
  assert (is_Some (Store.db_blocks (Store.st_db (su_store (ba_sup (batcher (P := BlockParser.MiniVte) calm ids no_cwd_io
    (λ _, true) (take 2 ls_turns ++ [TClosed]) [] (MkBa ∅ [] knowing)).1))) !! Store.block_key (MkBlockId 0))) as [row Hrow].
  { apply (bool_decide_unpack (is_Some _)). vm_compute. exact I. }
  exists row. split; [exact Hrow|].
  specialize (Hb (λ _, eq_refl)). assert (TClosed ∈ take 2 ls_turns ++ [TClosed]) as Hin
    by (apply elem_of_app; right; by left). specialize (Hb Hin).
  destruct (batcher _ _ _ _ _ _ _) as [ba fin]. destruct Hb as [_ Hb].
  destruct (Hb _ _ Hrow) as [He|(row0 & Hr0 & _)]; [exact He|]. exfalso. revert Hr0. cbn. rewrite lookup_empty. discriminate.
Defined.
End Witnesses.
