(* ===== verification/Mirror.v ===== *)
(** * Mirror: attached clients of the multi-process mode

    Two stages carry a pane's output to a client (pyred/src/worker.rs
    [handle_stream_conn], pyred/src/supervisor.rs [proxy_stream_to_worker]): the
    worker streams to the one hub the supervisor keeps per pane, and the hub to any
    number of clients. Both stages work alike: subscribe to the broadcast channel,
    take a snapshot of a bounded buffer, send it as frame 0, then forward. One
    machine over any such buffer models them; the buffers are an interface. *)
From Stdlib Require Import Strings.Byte.
From S2P Require Import Prelude Proto Libraries RingBuf WorkerRegistry Worker Supervisor.
Local Open Scope Z_scope.

(** A buffer that keeps the last [cap] bytes pushed. *)
Class ReplayBuffer (B : Type) (cap : nat) := {
  rp_new : B;
  rp_push : B → Bytes → B;
  rp_snapshot : B → Bytes;
  rp_tail : ∀ chunks, rp_snapshot (fold_left rp_push chunks rp_new) = lastn cap (concat chunks) }.

Module Mirror.

(** ** The buffers *)
Definition SNAPSHOT_CAP : nat := Z.to_nat (256 * 1024).

(** The hub's snapshot takes in a frame, dropping the oldest bytes. *)
Definition append_snapshot (cap : nat) (snap data : Bytes) : Bytes :=
  let v := snap ++ data in
  if (length v <=? cap)%nat then v else drop (length v - cap) v.

Lemma append_snapshot_lastn cap snap data : append_snapshot cap snap data = lastn cap (snap ++ data).
Proof.
  unfold append_snapshot, lastn. destruct (Nat.leb_spec (length (snap ++ data)) cap) as [Hle|Hgt]; [|done].
  by replace (length (snap ++ data) - cap)%nat with 0%nat by lia.
Qed.

Lemma append_snapshot_tail cap chunks acc :
  fold_left (append_snapshot cap) chunks (lastn cap acc) = lastn cap (acc ++ concat chunks).
Proof.
  revert acc. induction chunks as [|c chunks IH]; intros acc; [by rewrite app_nil_r|].
  cbn [fold_left concat]. by rewrite append_snapshot_lastn, lastn_app_lastn, IH, app_assoc.
Qed.

Definition hub_buffer (cap : nat) : ReplayBuffer Bytes cap := {|
  rp_new := [];
  rp_push := append_snapshot cap;
  rp_snapshot b := b;
  rp_tail chunks := append_snapshot_tail cap chunks [] |}.

Lemma ring_tail cap chunks :
  RingBuf.snapshot (fold_left RingBuf.push chunks (RingBuf.new cap)) = lastn cap (concat chunks).
Proof. apply RingBuf.snapshot_tail. Qed.
Definition ring_buffer (cap : nat) : ReplayBuffer RingBuf.RingBuf cap := {|
  rp_new := RingBuf.new cap;
  rp_push := RingBuf.push;
  rp_snapshot := RingBuf.snapshot;
  rp_tail := ring_tail cap |}.

(** ** One stage *)
Definition CHANNEL_CAP : nat := 256.

Inductive Phase := Connected | Subscribed | Live | Ended.
#[export] Instance Phase_eq_dec : EqDecision Phase.
Proof. solve_decision. Defined.

Inductive Label :=
  | Publish (data : Bytes)   (** into the buffer and the channel *)
  | Subscribe
  | Snapshot (sent : bool)   (** taken and sent as frame 0 *)
  | Forward (sent : bool)
  | Lag.

Section Stage.
Context {B : Type} {cap : nat} `{ReplayBuffer B cap}.

Record Conn := MkConn {
  cn_buf : B;
  cn_queue : list Bytes;
  cn_frames : list OutputFrame;
  cn_seq : Z;
  cn_phase : Phase;
  (** history: what was published before the subscription, between it and the
      snapshot, and since *)
  cn_before : list Bytes;
  cn_gap : list Bytes;
  cn_live : list Bytes }.

Definition start : Conn := MkConn rp_new [] [] 0 Connected [] [] [].

(** The channel only queues for a subscriber. *)
Definition publish (data : Bytes) (c : Conn) : Conn :=
  let buf := rp_push (cn_buf c) data in
  match cn_phase c with
  | Connected => MkConn buf (cn_queue c) (cn_frames c) (cn_seq c) Connected (cn_before c ++ [data]) (cn_gap c) (cn_live c)
  | Subscribed =>
      MkConn buf (cn_queue c ++ [data]) (cn_frames c) (cn_seq c) Subscribed (cn_before c) (cn_gap c ++ [data]) (cn_live c)
  | Live => MkConn buf (cn_queue c ++ [data]) (cn_frames c) (cn_seq c) Live (cn_before c) (cn_gap c) (cn_live c ++ [data])
  | Ended => MkConn buf (cn_queue c) (cn_frames c) (cn_seq c) Ended (cn_before c) (cn_gap c) (cn_live c)
  end.

Definition goto (ph : Phase) (q : list Bytes) (fs : list OutputFrame) (seq : Z) (c : Conn) : Conn :=
  MkConn (cn_buf c) q fs seq ph (cn_before c) (cn_gap c) (cn_live c).

Definition exec (session : SessionId) (l : Label) (c : Conn) : option Conn :=
  match l, cn_phase c with
  | Publish data, _ => Some (publish data c)
  | Subscribe, Connected => Some (goto Subscribed [] (cn_frames c) (cn_seq c) c)
  | Snapshot sent, Subscribed =>
      let frame := MkOutputFrame session 0 (rp_snapshot (cn_buf c)) in
      if sent then Some (goto Live (cn_queue c) (cn_frames c ++ [frame]) 0 c)
      else Some (goto Ended (cn_queue c) (cn_frames c) 0 c)
  | Forward sent, Live =>
      match cn_queue c with
      | data :: q =>
          if (length (cn_queue c) <=? CHANNEL_CAP)%nat then
            let seq := wrap_u64 (cn_seq c + 1) in
            if sent then Some (goto Live q (cn_frames c ++ [MkOutputFrame session seq data]) seq c)
            else Some (goto Ended q (cn_frames c) seq c)
          else None
      | [] => None
      end
  | Lag, Live =>
      if (CHANNEL_CAP <? length (cn_queue c))%nat
      then Some (goto Live (lastn CHANNEL_CAP (cn_queue c)) (cn_frames c) (cn_seq c) c) else None
  | _, _ => None
  end.

Fixpoint execs (session : SessionId) (ls : list Label) (c : Conn) : option Conn :=
  match ls with
  | [] => Some c
  | l :: ls' => c' ← exec session l c; execs session ls' c'
  end.
End Stage.

(** ** What the client has seen *)
Section View.
Context {B : Type} {cap : nat} `{ReplayBuffer B cap}.
Context (session : SessionId).

Definition frame_bytes (c : Conn (B := B)) : Bytes := concat (of_data <$> cn_frames c).
(** Everything published so far. *)
Definition history (c : Conn (B := B)) : list Bytes := cn_before c ++ cn_gap c ++ cn_live c.
(** What the stage shows: the tail of what was published up to the snapshot, then
    what the channel queued since the subscription. *)
Definition shown (c : Conn (B := B)) : Bytes :=
  lastn cap (concat (cn_before c ++ cn_gap c)) ++ concat (cn_gap c) ++ concat (cn_live c).

Definition numbered (c : Conn (B := B)) : Prop := of_seq <$> cn_frames c = Z.of_nat <$> seq 0 (length (cn_frames c)).

Definition conn_ok (c : Conn (B := B)) : Prop :=
  Forall (λ f, of_session f = session) (cn_frames c) ∧
  (cn_phase c ≠ Ended → ∃ chunks, cn_buf c = fold_left rp_push chunks rp_new ∧ chunks = history c) ∧
  match cn_phase c with
  | Connected => cn_frames c = [] ∧ cn_gap c = [] ∧ cn_live c = []
  | Subscribed => cn_frames c = [] ∧ cn_live c = [] ∧ cn_queue c = cn_gap c
  | Live =>
      frame_bytes c ++ concat (cn_queue c) = shown c ∧ numbered c ∧
      cn_seq c = Z.of_nat (length (cn_frames c)) - 1 ∧ (0 < length (cn_frames c))%nat
  | Ended => frame_bytes c `prefix_of` shown c ∧ numbered c
  end.

Definition is_lag (l : Label) : bool := match l with Lag => true | _ => false end.
Definition published (ls : list Label) : list Bytes :=
  omap (λ l, match l with Publish d => Some d | _ => None end) ls.

Lemma frame_bytes_app c f : concat (of_data <$> cn_frames c ++ [f]) = frame_bytes c ++ of_data f.
Proof. unfold frame_bytes. rewrite fmap_app, concat_app. cbn. by rewrite app_nil_r. Qed.

Lemma stage_step_ok l c c' :
  is_lag l = false → Z.of_nat (length (cn_frames c)) < 2 ^ 64 - 1 → exec session l c = Some c' → conn_ok c → conn_ok c'.
Proof.
  intros Hl Hlen He (Hs & Hbuf & Hph). unfold exec in He. destruct l as [data| |sent|sent|]; [| | | |done].
  - injection He as <-. unfold publish, conn_ok, numbered, frame_bytes, shown, history in *.
    destruct (cn_phase c) eqn:E; cbn [cn_frames cn_phase cn_buf cn_before cn_gap cn_live cn_queue cn_seq] in *.
    all: split; [done|]; split; [|]; try (intros _; destruct Hbuf as (ch & Hb & Hc); [done|]; exists (ch ++ [data]); split;
      [by rewrite fold_left_app, Hb|]; rewrite Hc).
    + destruct Hph as (_ & -> & ->). by rewrite !app_nil_r.
    + done.
    + destruct Hph as (_ & -> & _). by rewrite !app_nil_r, app_assoc.
    + destruct Hph as (? & ? & Hq). split_and!; try done. by rewrite Hq.
    + by rewrite !app_assoc.
    + destruct Hph as (Hb & Hr). split; [|done]. rewrite !concat_app, !app_assoc. cbn. rewrite app_nil_r, <- app_assoc.
      rewrite app_assoc, Hb, !concat_app, <- !app_assoc. done.
    + by intros [].
    + done.
  - destruct (cn_phase c) eqn:E; [|done..]. injection He as <-. destruct Hph as (Hf & Hg & Hlv).
    split; [done|]. split; [intros _; by apply Hbuf|]. cbn. by rewrite Hg.
  - destruct (cn_phase c) eqn:E; [done| |done..]. destruct Hph as (Hf & Hlv & Hq). destruct Hbuf as (ch & Hb & Hc); [done|].
    destruct sent; injection He as <-; unfold conn_ok, goto, numbered, frame_bytes, shown, history in *;
      cbn [cn_frames cn_phase cn_buf cn_before cn_gap cn_live cn_queue cn_seq] in *.
    + rewrite Hf. cbn [app]. split; [by constructor|]. split; [intros _; eauto|]. cbn. rewrite app_nil_r, Hb, rp_tail, Hc, Hq, Hlv.
      rewrite !app_nil_r. by split_and!; [..|lia].
    + split; [done|]. split; [done|]. rewrite Hf. cbn. split; [apply prefix_nil|done].
  - destruct (cn_phase c) eqn:E; [done..| |done]. destruct (cn_queue c) as [|data q] eqn:Eq; [done|].
    destruct (_ <=? CHANNEL_CAP)%nat; [|done]. destruct Hph as (Hb & Hn & Hseq & Hpos).
    assert (wrap_u64 (cn_seq c + 1) = Z.of_nat (length (cn_frames c))) as Hw.
    { rewrite Hseq. unfold wrap_u64, wrap_u. rewrite Z.mod_small; lia. }
    destruct sent; injection He as <-; unfold conn_ok, goto, numbered, shown, history in *;
      cbn [cn_frames cn_phase cn_buf cn_before cn_gap cn_live cn_queue cn_seq] in *.
    + split; [apply Forall_app; split; [done|by constructor]|]. split; [intros _; by apply Hbuf|].
      unfold frame_bytes at 1. cbn [cn_frames]. rewrite frame_bytes_app. cbn [of_data]. split_and!.
      * rewrite <- app_assoc. exact Hb.
      * rewrite fmap_app, length_app, Hn, seq_app, fmap_app. cbn. by rewrite Hw.
      * rewrite Hw, length_app. cbn. lia.
      * rewrite length_app. cbn. lia.
    + split; [done|]. split; [done|]. split; [|done]. rewrite <- Hb. unfold frame_bytes. cbn [cn_frames]. by eexists.
Qed.

Lemma stage_start_ok : conn_ok start.
Proof. split; [done|]. split; [|done]. intros _. by exists []. Qed.

Lemma stage_frames l c c' : exec session l c = Some c' → (length (cn_frames c') ≤ S (length (cn_frames c)))%nat.
Proof.
  unfold exec. destruct l; repeat case_match; try done; intros [= <-]; cbn; rewrite ?length_app; cbn; try lia.
  unfold publish. destruct (cn_phase c); cbn; lia.
Qed.
Lemma exec_history l c c' :
  conn_ok c → exec session l c = Some c' → cn_phase c' ≠ Ended →
  history c' = history c ++ published [l] ∧ cn_phase c ≠ Ended.
Proof.
  intros (_ & _ & Hph) He. unfold exec in He. unfold history, published. cbn [omap list_omap].
  destruct l; cbn; rewrite ?app_nil_r; try (repeat case_match; try done; injection He as <-; cbn; by intros).
  injection He as <-. unfold publish. destruct (cn_phase c); cbn; intros Hne; try done; (split; [|done]).
  - destruct Hph as (_ & -> & ->). by rewrite !app_nil_r.
  - destruct Hph as (_ & -> & _). by rewrite !app_nil_r, app_assoc.
  - by rewrite !app_assoc.
Qed.

Lemma stage_steps_ok ls c c' hist :
  forallb (λ l, negb (is_lag l)) ls = true → Z.of_nat (length (cn_frames c) + length ls) < 2 ^ 64 - 1 →
  conn_ok c → (cn_phase c ≠ Ended → history c = hist) → execs session ls c = Some c' →
  conn_ok c' ∧ (cn_phase c' ≠ Ended → history c' = hist ++ published ls).
Proof.
  revert c hist. induction ls as [|l ls IH]; intros c hist Hlag Hlen Hc Hh; cbn [execs].
  - intros [= <-]. split; [done|]. cbn. by rewrite app_nil_r.
  - intros (c1 & He & Hr)%bind_Some. cbn [forallb length] in *. apply andb_true_iff in Hlag as [Hl Hlag].
    apply negb_true_iff in Hl. pose proof (stage_frames l c c1 He) as Hf.
    destruct (IH c1 (hist ++ published [l])) as [Hc' Hh']; [done|lia|apply (stage_step_ok l c); [done|lia|done..]| |done|].
    + intros Hne. destruct (exec_history l c c1 Hc He Hne) as [-> Hne']. by rewrite Hh.
    + split; [done|]. intros Hne. rewrite (Hh' Hne), <- app_assoc. f_equal. unfold published. cbn. by destruct l.
Qed.
End View.

(** ** Properties *)

(** what a client of the multi-process mode sees. Over any buffer that keeps the
    last bytes pushed (the ring buffer of a worker, the snapshot of a mirror hub),
    while the receiver does not fall behind: the frames sent, followed by what is still
    queued, are the tail of everything published up to the snapshot, then everything
    published since the subscription; nothing is lost and nothing is out of order.
    Since the subscription comes first, what is published between the two is in both
    parts: it is shown twice. Frames are numbered from 0 and a connection that ended
    has shown a prefix of the same. *)
Theorem mirror_view {B : Type} {cap : nat} `{ReplayBuffer B cap} session ls c
    (Hrun : execs session ls (start (B := B)) = Some c) (Hlag : forallb (λ l, negb (is_lag l)) ls = true)
    (Hlen : Z.of_nat (length ls) < 2 ^ 64 - 1) :
  numbered c ∧
  match cn_phase c with
  | Live => frame_bytes c ++ concat (cn_queue c) = shown (cap := cap) c ∧ published ls = cn_before c ++ cn_gap c ++ cn_live c
  | Ended => frame_bytes c `prefix_of` shown (cap := cap) c
  | _ => cn_frames c = []
  end.
Proof.
  destruct (stage_steps_ok session ls start c []) as [(_ & _ & Hph) Hh]; [done|done|apply stage_start_ok|done|done|].
  destruct (cn_phase c); unfold numbered.
  - destruct Hph as (-> & _). done.
  - destruct Hph as (-> & _). done.
  - destruct Hph as (? & ? & _). split; [done|]. split; [done|]. symmetry. by apply Hh.
  - by destruct Hph.
Qed.

(** "ab" is printed, a client subscribes, "c" is printed, the snapshot is taken, "d"
    is printed: with room for 2 bytes it sees "bc", "c", "d". *)
Definition bytes_of (n : N) : Bytes := match Byte.of_N n with Some b => [b] | None => [] end.
Definition late_snapshot : list Label :=
  [Publish (bytes_of 97 ++ bytes_of 98); Subscribe; Publish (bytes_of 99); Snapshot true; Publish (bytes_of 100);
   Forward true; Forward true].
#[local] Instance small_ring : ReplayBuffer RingBuf.RingBuf 2 := ring_buffer 2.

Lemma mirror_view_witness :
  (λ c, of_data <$> cn_frames c) <$> execs (B := RingBuf.RingBuf) (cap := 2) (MkSessionId 0) late_snapshot start =
    Some [bytes_of 98 ++ bytes_of 99; bytes_of 99; bytes_of 100] ∧
  ∃ c, execs (B := RingBuf.RingBuf) (cap := 2) (MkSessionId 0) late_snapshot start = Some c ∧
    frame_bytes c ++ concat (cn_queue c) = shown (cap := 2) c.
Proof.
  split; [vm_compute; reflexivity|].
  destruct (execs (B := RingBuf.RingBuf) (cap := 2) (MkSessionId 0) late_snapshot start) as [c|] eqn:E; [|vm_compute in E; discriminate E].
  exists c. split; [reflexivity|].
  assert (cn_phase <$> execs (B := RingBuf.RingBuf) (cap := 2) (MkSessionId 0) late_snapshot start = Some Live) as Hl
    by (vm_compute; reflexivity).
  rewrite E in Hl. injection Hl as Hl.
  destruct (mirror_view (MkSessionId 0) late_snapshot c E) as [_ Hv]; [vm_compute; reflexivity..|].
  rewrite Hl in Hv. apply Hv.
Defined.
End Mirror.
