(* ===== verification/MirrorHub.v ===== *)
(** * MirrorHub: the clients of one pane and the hub they share

    pyred/src/supervisor.rs [PaneMirrorRegistry], [PaneMirrorHub],
    [proxy_stream_to_worker] and [handle_public_conn]: the supervisor keeps one
    connection to a pane's worker, the hub, and any number of clients attached to it.
    The world has every hub ever made, the registry of those new clients join, and
    every client connection. A step is what one task does between two awaits: a
    connection arrives, a worker is dialled, the reader of a hub takes a frame in and
    sends it on, a client subscribes, and so on; each step says what its input or
    output did. The supervisor's own state is an argument of the steps that read it. *)
From Stdlib Require Import Strings.Byte.
From coqutil Require Export Datatypes.RecordSettersUsingExistingGetters.
From S2P Require Import Prelude Proto Libraries RingBuf WorkerRegistry Worker Supervisor Mirror.
Local Open Scope Z_scope.

Module MirrorHub.
Import Supervisor Mirror.

(** ** State *)
Record PaneMirrorHub := MkHub {
  hb_pane : Uuid;
  hb_sock : string;              (** the stream socket that was dialled *)
  hb_slot : Z;                   (** the slot written to it *)
  hb_session : SessionId;        (** what the input frames carry *)
  hb_last_snapshot : Bytes;
  hb_reader : bool;              (** the task that reads the worker runs *)
  hb_inflight : option Bytes;    (** in the snapshot, not yet in the channel *)
  hb_drainer : bool;             (** the task that writes to the worker runs *)
  hb_input : list (nat * Bytes); (** the input channel, with the client of each entry *)
  (** history: frames read, frames sent on, input accepted, input written *)
  hb_received : list Bytes;
  hb_sent : list Bytes;
  hb_accepted : list (nat * Bytes);
  hb_written : list InputFrame }.

Inductive Stage :=
  | Dialling (sock : string) (slot : Z)
  | Joined (h : nat)
  | Waiting (h : nat)            (** subscribed, the snapshot not yet read *)
  | Serving (h : nat)            (** the two tasks were spawned *)
  | Finished.

Record Client := MkClient {
  cl_session : SessionId;
  cl_pane : Uuid;
  cl_stage : Stage;
  cl_queue : list Bytes;         (** the broadcast receiver *)
  cl_frames : list OutputFrame;  (** what was sent to the client *)
  cl_seq : Z;
  cl_out : bool;                 (** [out_task] runs *)
  cl_in : bool;                  (** [in_task] runs *)
  (** history: where it subscribed, what was in the snapshot it read, whether it
      ever lagged, what it typed *)
  cl_from : nat;
  cl_snap : nat;
  cl_lagged : bool;
  cl_typed : list Bytes }.

Record World := MkWorld {
  w_hubs : list PaneMirrorHub;
  w_registry : gmap Uuid nat;
  w_clients : list Client }.

Definition empty_world : World := MkWorld [] ∅ [].

Definition INPUT_CAP : nat := 256.

Definition hub_of (st : Stage) : option nat :=
  match st with Joined h | Waiting h | Serving h => Some h | Dialling _ _ | Finished => None end.

(** [PaneMirrorRegistry::get], [insert], [remove], [last_snapshot_for] *)
Definition get (pane : Uuid) (w : World) : option nat := w_registry w !! pane.
Definition insert (pane : Uuid) (h : nat) (w : World) : World := w <| w_registry ::= <[pane := h]> |>.
Definition remove (pane : Uuid) (w : World) : World := w <| w_registry ::= delete pane |>.
Definition last_snapshot_for (pane : Uuid) (w : World) : Bytes :=
  match get pane w with
  | Some h => from_option hb_last_snapshot [] (w_hubs w !! h)
  | None => []
  end.

Definition on_hub (h : nat) (f : PaneMirrorHub → PaneMirrorHub) (w : World) : World := w <| w_hubs ::= alter f h |>.
Definition on_client (c : nat) (f : Client → Client) (w : World) : World := w <| w_clients ::= alter f c |>.
Definition new_client (session : SessionId) (pane : Uuid) (st : Stage) : Client :=
  MkClient session pane st [] [] 0 false false 0 0 false [].

(** The tasks of a client keep the hub until both have ended ([tokio::join!]). *)
Definition holds (h : nat) (c : Client) : bool := bool_decide (hub_of (cl_stage c) = Some h).
(** Who has a sender of the hub's channels: the registry, the clients' functions
    ([hub] lives to their end), and for the broadcast channel the reader. *)
Definition hub_held (h : nat) (w : World) : bool :=
  existsb (λ kv, bool_decide (kv.2 = h)) (map_to_list (w_registry w)) || existsb (holds h) (w_clients w).
Definition output_open (h : nat) (w : World) : bool :=
  from_option hb_reader false (w_hubs w !! h) || hub_held h w.

(** ** A connection *)
Section Steps.
Context `{UuidText}.

(** The two identifiers, the slot of the pane, the socket of the session, the hub. *)
Definition resolve (s : Sup) (session : SessionId) (pane : PaneId) (w : World) : Stage :=
  match lookup_pane pane s with
  | None => Finished
  | Some (_, slot_idx) =>
      match get_stream_sock (uuid_to_string (session_uuid session)) s with
      | None => Finished
      | Some sock => match get (pane_uuid pane) w with Some h => Joined h | None => Dialling sock slot_idx end
      end
  end.
Definition join (s : Sup) (session : SessionId) (pane : PaneId) (w : World) : World :=
  w <| w_clients ::= λ cs, cs ++ [new_client session (pane_uuid pane) (resolve s session pane w)] |>.

Inductive Accepted := Control (rest : Bytes) | Proxied (w : World).
Definition handle_public_conn (s : Sup) (input : Bytes) (w : World) : result IoError Accepted :=
  let? tag := read_exact 1 input in
  match tag.1 with
  | [t] =>
      if decide (t = MODE_CONTROL) then
        let? rest := read_control_version_after_tag tag.2 in Ok (Control rest)
      else if decide (t = MODE_STREAM) then
        let? hd := read_stream_header tag.2 in Ok (Proxied (join s hd.1.1 hd.1.2 w))
      else Err (UnknownModeTag t)
  | _ => Err UnexpectedEof
  end.

Inductive Dial := Refused | SlotUnwritten | Connected.
(** Dialling ends with a new hub, registered in place of any other. The text of the
    session is parsed back before the drainer starts, and once more before the client
    is served. *)
Definition dial (c : nat) (outcome : Dial) (w : World) : option World :=
  cl ← w_clients w !! c;
  match cl_stage cl with
  | Dialling sock slot =>
      match outcome with
      | Refused | SlotUnwritten => Some (on_client c (set cl_stage (λ _, Finished)) w)
      | Connected =>
          let h := length (w_hubs w) in
          let parsed := uuid_parse (uuid_to_string (session_uuid (cl_session cl))) in
          let hub := MkHub (cl_pane cl) sock slot (MkSessionId (default 0%N parsed)) [] true None (bool_decide (is_Some parsed))
                       [] [] [] [] [] in
          Some (on_client c (set cl_stage (λ _, match parsed with Some _ => Joined h | None => Finished end))
                  (insert (cl_pane cl) h (w <| w_hubs ::= λ hs, hs ++ [hub] |>)))
      end
  | _ => None
  end.

(** *** The reader of a hub *)
Definition worker_frame (h : nat) (data : Bytes) (w : World) : option World :=
  hub ← w_hubs w !! h;
  if hb_reader hub && bool_decide (hb_inflight hub = None)
  then Some (on_hub h (λ b, b <| hb_last_snapshot ::= λ s, append_snapshot SNAPSHOT_CAP s data |> <| hb_inflight := Some data |>
                              <| hb_received ::= λ l, l ++ [data] |>) w)
  else None.

(** The channel queues the frame for every receiver. *)
Definition deliver (h : nat) (data : Bytes) (cl : Client) : Client :=
  match cl_stage cl with
  | Waiting h' => if decide (h' = h) then cl <| cl_queue ::= λ q, q ++ [data] |> else cl
  | Serving h' => if decide (h' = h ∧ cl_out cl = true) then cl <| cl_queue ::= λ q, q ++ [data] |> else cl
  | _ => cl
  end.
Definition fan_out (h : nat) (w : World) : option World :=
  hub ← w_hubs w !! h;
  data ← hb_inflight hub;
  Some (on_hub h (λ b, b <| hb_inflight := None |> <| hb_sent ::= λ l, l ++ [data] |>)
          (w <| w_clients ::= fmap (deliver h data) |>)).

(** The worker closed, or sent what is not a frame: the pane's entry goes. *)
Definition worker_gone (h : nat) (w : World) : option World :=
  hub ← w_hubs w !! h;
  if hb_reader hub && bool_decide (hb_inflight hub = None)
  then Some (remove (hb_pane hub) (on_hub h (set hb_reader (λ _, false)) w))
  else None.

(** *** The drainer of a hub *)
Definition drain (h : nat) (ok : bool) (w : World) : option World :=
  hub ← w_hubs w !! h;
  if hb_drainer hub then
    match hb_input hub with
    | (_, data) :: q =>
        Some (on_hub h (λ b, if ok then b <| hb_input := q |> <| hb_written ::= λ l, l ++ [MkInputFrame (hb_session b) data] |>
                             else b <| hb_input := [] |> <| hb_drainer := false |>) w)
    | [] => if hub_held h w then None else Some (on_hub h (set hb_drainer (λ _, false)) w)
    end
  else None.

(** *** A client *)
Definition subscribe (c : nat) (w : World) : option World :=
  cl ← w_clients w !! c;
  match cl_stage cl with
  | Joined h =>
      hub ← w_hubs w !! h;
      Some (on_client c (λ cl, cl <| cl_stage := Waiting h |> <| cl_queue := [] |> <| cl_from := length (hb_sent hub) |>) w)
  | _ => None
  end.

Definition wrapped (session : SessionId) : option SessionId :=
  MkSessionId <$> uuid_parse (uuid_to_string (session_uuid session)).

(** The snapshot is read; [out_task] sends it as frame 0, always. *)
Definition serve (c : nat) (sent : bool) (w : World) : option World :=
  cl ← w_clients w !! c;
  match cl_stage cl with
  | Waiting h =>
      hub ← w_hubs w !! h;
      match wrapped (cl_session cl) with
      | None => Some (on_client c (set cl_stage (λ _, Finished)) w)
      | Some session =>
          let f := MkOutputFrame session 0 (hb_last_snapshot hub) in
          Some (on_client c (λ cl, cl <| cl_stage := Serving h |> <| cl_in := true |> <| cl_out := sent |>
                                      <| cl_frames := if sent then [f] else [] |> <| cl_seq := 0 |>
                                      <| cl_snap := length (hb_received hub) |>) w)
      end
  | _ => None
  end.

Definition forward (c : nat) (sent : bool) (w : World) : option World :=
  cl ← w_clients w !! c;
  session ← wrapped (cl_session cl);
  match cl_stage cl, cl_out cl, cl_queue cl with
  | Serving h, true, data :: q =>
      if (length (cl_queue cl) <=? CHANNEL_CAP)%nat then
        let seq := wrap_u64 (cl_seq cl + 1) in
        Some (on_client c (λ cl, if sent then cl <| cl_queue := q |> <| cl_seq := seq |>
                                            <| cl_frames ::= λ l, l ++ [MkOutputFrame session seq data] |>
                                 else cl <| cl_queue := q |> <| cl_seq := seq |> <| cl_out := false |>) w)
      else None
  | _, _, _ => None
  end.

(** [RecvError::Lagged]: the oldest frames are lost, the task goes on. *)
Definition lag (c : nat) (w : World) : option World :=
  cl ← w_clients w !! c;
  match cl_stage cl, cl_out cl with
  | Serving h, true =>
      if (CHANNEL_CAP <? length (cl_queue cl))%nat
      then Some (on_client c (λ cl, cl <| cl_queue ::= lastn CHANNEL_CAP |> <| cl_lagged := true |>) w) else None
  | _, _ => None
  end.

(** [RecvError::Closed]: no sender is left. *)
Definition closed (c : nat) (w : World) : option World :=
  cl ← w_clients w !! c;
  match cl_stage cl, cl_out cl, cl_queue cl with
  | Serving h, true, [] => if output_open h w then None else Some (on_client c (set cl_out (λ _, false)) w)
  | _, _, _ => None
  end.

(** [in_task] takes a frame: it waits while the channel is full, and ends when the
    drainer has gone. *)
Definition type (c : nat) (data : Bytes) (w : World) : option World :=
  cl ← w_clients w !! c;
  match cl_stage cl, cl_in cl with
  | Serving h, true =>
      hub ← w_hubs w !! h;
      if hb_drainer hub then
        if (length (hb_input hub) <? INPUT_CAP)%nat
        then Some (on_client c (set cl_typed (λ l, l ++ [data]))
                     (on_hub h (λ b, b <| hb_input ::= λ q, q ++ [(c, data)] |> <| hb_accepted ::= λ l, l ++ [(c, data)] |>) w))
        else None
      else Some (on_client c (set cl_in (λ _, false)) w)
  | _, _ => None
  end.
(** The client closed its side, or sent what is not a frame. *)
Definition hang_up (c : nat) (w : World) : option World :=
  cl ← w_clients w !! c;
  match cl_stage cl, cl_in cl with
  | Serving _, true => Some (on_client c (set cl_in (λ _, false)) w)
  | _, _ => None
  end.
Definition finish (c : nat) (w : World) : option World :=
  cl ← w_clients w !! c;
  match cl_stage cl, cl_out cl, cl_in cl with
  | Serving _, false, false => Some (on_client c (set cl_stage (λ _, Finished)) w)
  | _, _, _ => None
  end.

(** ** Steps *)
Inductive Label :=
  | Accept (s : Sup) (input : Bytes)
  | Dialled (c : nat) (outcome : Dial)
  | WorkerFrame (h : nat) (data : Bytes) | FanOut (h : nat) | WorkerGone (h : nat)
  | Drain (h : nat) (ok : bool)
  | Subscribe (c : nat) | Serve (c : nat) (sent : bool)
  | Forward (c : nat) (sent : bool) | Lag (c : nat) | Closed (c : nat)
  | Type_ (c : nat) (data : Bytes) | HangUp (c : nat) | Finish (c : nat).

Definition exec (l : Label) (w : World) : option World :=
  match l with
  | Accept s input =>
      match handle_public_conn s input w with Ok (Proxied w') => Some w' | Ok (Control _) | Err _ => Some w end
  | Dialled c outcome => dial c outcome w
  | WorkerFrame h data => worker_frame h data w
  | FanOut h => fan_out h w
  | WorkerGone h => worker_gone h w
  | Drain h ok => drain h ok w
  | Subscribe c => subscribe c w
  | Serve c sent => serve c sent w
  | Forward c sent => forward c sent w
  | Lag c => lag c w
  | Closed c => closed c w
  | Type_ c data => type c data w
  | HangUp c => hang_up c w
  | Finish c => finish c w
  end.
Fixpoint execs (ls : list Label) (w : World) : option World :=
  match ls with [] => Some w | l :: ls' => w' ← exec l w; execs ls' w' end.
End Steps.

(** ** The worker's end of a hub's connection (pyred/src/worker.rs)
    [handle_stream_conn]: the slot is read, the session's text parsed, the pane looked
    up; the output side is the stage of Mirror over the pane's ring buffer. *)
Inductive WorkerStream :=
  | Shut
  | Streaming (session : SessionId) (slot : Z) (output : Conn (B := RingBuf.RingBuf)).

Definition handle_stream_conn `{UuidText} (wk : Worker.Worker) (input : Bytes) : WorkerStream :=
  match read_exact 4 input with
  | Err _ => Shut
  | Ok (slot_buf, _) =>
      let slot_idx := from_le_bytes slot_buf in
      match uuid_parse (Worker.wk_session_id wk), Worker.wk_panes wk !! slot_idx with
      | Some u, Some h => Streaming (MkSessionId u) slot_idx (Mirror.MkConn (Worker.ph_ring_buf h) [] [] 0 Subscribed [] [] [])
      | _, _ => Shut
      end
  end.

(** [client_to_pty]: a frame goes to the writer thread, whatever session it names. *)
Definition client_to_pty (open : bool) (slot : Z) (f : InputFrame) (wk : Worker.Worker) : option Worker.Worker :=
  if open then
    Some (Worker.MkWorker (Worker.wk_session_id wk)
            (alter (λ h, Worker.with_input (Worker.ph_input h ++ [if_data f]) h) slot (Worker.wk_panes wk))
            (Worker.wk_closing wk) (Worker.wk_shutdown wk))
  else None.
Fixpoint clients_to_pty (slot : Z) (fs : list InputFrame) (wk : Worker.Worker) : option Worker.Worker :=
  match fs with [] => Some wk | f :: fs' => wk' ← client_to_pty true slot f wk; clients_to_pty slot fs' wk' end.
End MirrorHub.
