(* ===== verification/MirrorHubRuns.v ===== *)
(** * MirrorHubRuns: what the clients of a hub see, and what the worker gets

    Over any steps of MirrorHub, from nothing: every client that did not fall behind
    shows the same output as the others, the keystrokes of all reach the worker one
    after the other, the registry names a live hub; and what goes wrong when the
    worker of a hub goes, or when a client names the wrong session. *)
From Stdlib Require Import Strings.Byte.
From S2P Require Import Prelude Proto Libraries EventBus RingBuf Store StoreBlocks BlockIndex WorkerRegistry.
From S2P Require Import Worker Supervisor Mirror MirrorHub.
Local Open Scope Z_scope.
Import Supervisor Mirror MirrorHub.

(** ** The invariant *)
Definition by_client (i : nat) (log : list (nat * Bytes)) : list Bytes := snd <$> filter (λ e, e.1 = i) log.

Definition hub_ok (clients : nat) (b : PaneMirrorHub) : Prop :=
  hb_last_snapshot b = lastn SNAPSHOT_CAP (concat (hb_received b)) ∧
  hb_received b = hb_sent b ++ option_list (hb_inflight b) ∧
  Forall (λ e, (e.1 < clients)%nat) (hb_accepted b) ∧
  ∃ before after, hb_accepted b = before ++ after ∧
    hb_written b = (λ e, MkInputFrame (hb_session b) e.2) <$> before ∧ (hb_drainer b = true → hb_input b = after).

(** Frames are numbered from 0 (modulo 2^64). *)
Definition from_zero (fs : list OutputFrame) : Prop :=
  of_seq <$> fs = (λ n, wrap_u64 (Z.of_nat n)) <$> seq 0 (length fs).
Lemma from_zero_snoc fs f : from_zero fs → of_seq f = wrap_u64 (Z.of_nat (length fs)) → from_zero (fs ++ [f]).
Proof.
  unfold from_zero. intros Hfs Hf. rewrite fmap_app, Hfs, length_app, (seq_app (length fs) 1), fmap_app. cbn. by rewrite Hf.
Qed.
Lemma wrap_u64_succ n : wrap_u64 (wrap_u64 (Z.of_nat n) + 1) = wrap_u64 (Z.of_nat (S n)).
Proof. unfold wrap_u64, wrap_u. rewrite Zplus_mod_idemp_l. f_equal. lia. Qed.

(** The frames of a client: the snapshot it read, then what was sent on since it
    subscribed, up to what still waits in its receiver. *)
Definition serving_ok (b : PaneMirrorHub) (cl : Client) : Prop :=
  (cl_from cl ≤ cl_snap cl ≤ length (hb_received b))%nat ∧ (cl_from cl ≤ length (hb_sent b))%nat ∧
  match cl_frames cl with
  | [] => cl_out cl = false
  | f :: fs =>
      of_data f = lastn SNAPSHOT_CAP (concat (take (cl_snap cl) (hb_received b))) ∧
      from_zero (f :: fs) ∧
      (cl_out cl = true → cl_seq cl = wrap_u64 (Z.of_nat (length fs))) ∧
      ∃ rest, (cl_out cl = true → rest = cl_queue cl) ∧
        ((of_data <$> fs) ++ rest) `sublist_of` drop (cl_from cl) (hb_sent b) ∧
        (cl_lagged cl = false → (of_data <$> fs) ++ rest = drop (cl_from cl) (hb_sent b))
  end.
Definition follows (b : PaneMirrorHub) (cl : Client) : Prop :=
  match cl_stage cl with
  | Waiting _ => cl_queue cl = drop (cl_from cl) (hb_sent b) ∧ (cl_from cl ≤ length (hb_sent b))%nat
  | Serving _ => serving_ok b cl
  | _ => True
  end.
Definition early (cl : Client) : Prop :=
  match cl_stage cl with
  | Dialling _ _ | Joined _ | Waiting _ => cl_typed cl = [] ∧ cl_lagged cl = false
  | Serving _ | Finished => True
  end.

Definition client_ok (hubs : list PaneMirrorHub) (i : nat) (cl : Client) : Prop :=
  early cl ∧ ∀ h, hub_of (cl_stage cl) = Some h →
    ∃ b, hubs !! h = Some b ∧ hb_pane b = cl_pane cl ∧ cl_typed cl = by_client i (hb_accepted b) ∧ follows b cl.

Definition registry_ok (w : World) : Prop :=
  ∀ p h, w_registry w !! p = Some h → ∃ b, w_hubs w !! h = Some b ∧ hb_reader b = true ∧ hb_pane b = p.

Definition world_ok (w : World) : Prop :=
  registry_ok w ∧ (∀ h b, w_hubs w !! h = Some b → hub_ok (length (w_clients w)) b) ∧
  (∀ i cl, w_clients w !! i = Some cl → client_ok (w_hubs w) i cl).

(** ** What the invariant allows to change *)
(** A hub may take in frames and write input without a client noticing. *)
Definition hub_le (b b' : PaneMirrorHub) : Prop :=
  hb_pane b' = hb_pane b ∧ hb_sent b' = hb_sent b ∧ hb_accepted b' = hb_accepted b ∧ hb_received b `prefix_of` hb_received b'.

Lemma hub_le_refl b : hub_le b b.
Proof. by repeat split. Qed.

Lemma follows_le b b' cl : hub_le b b' → follows b cl → follows b' cl.
Proof.
  intros (_ & Hs & _ & [more Hr]). unfold follows, serving_ok. rewrite Hs, Hr.
  destruct (cl_stage cl); try done. intros (Hsnap & Hfrom & Hfs). split_and!; try lia.
  { rewrite length_app. lia. }
  destruct (cl_frames cl) as [|f fs]; [done|]. destruct Hfs as (Hf & Hrest). split; [|done].
  by rewrite take_app_le by lia.
Qed.

Lemma client_ok_hubs hubs hubs' i cl :
  (∀ h b, hubs !! h = Some b → ∃ b', hubs' !! h = Some b' ∧ hub_le b b') → client_ok hubs i cl → client_ok hubs' i cl.
Proof.
  intros Hhubs [He Hh]. split; [done|]. intros h Hh'. destruct (Hh h Hh') as (b & Hb & Hp & Ht & Hf).
  destruct (Hhubs h b Hb) as (b' & Hb' & Hle). exists b'. split; [done|]. destruct Hle as (Hp' & Hs & Ha & Hr).
  rewrite Hp', Ha. split_and!; try done. by apply (follows_le b).
Qed.

Lemma on_client_ok c f w :
  (∀ cl, w_clients w !! c = Some cl → client_ok (w_hubs w) c cl → client_ok (w_hubs w) c (f cl)) →
  world_ok w → world_ok (on_client c f w).
Proof.
  intros Hf (Hr & Hh & Hc). split; [exact Hr|]. split.
  - intros h b Hb. cbn. rewrite length_alter. by apply (Hh h).
  - intros i cl Hi. cbn in Hi. change (client_ok (w_hubs w) i cl). destruct (decide (i = c)) as [->|Hne].
    + rewrite list_lookup_alter_eq in Hi. apply fmap_Some in Hi as (cl0 & Hi & ->). by apply Hf, Hc.
    + rewrite list_lookup_alter_ne in Hi by done. by apply Hc.
Qed.

Lemma alter_hub_le h f (hubs : list PaneMirrorHub) :
  (∀ b, hubs !! h = Some b → hub_le b (f b)) →
  ∀ k b, hubs !! k = Some b → ∃ b', alter f h hubs !! k = Some b' ∧ hub_le b b'.
Proof.
  intros Hf k b Hb. destruct (decide (k = h)) as [->|Hne].
  - exists (f b). rewrite list_lookup_alter_eq, Hb. split; [done|]. by apply Hf.
  - exists b. rewrite list_lookup_alter_ne by done. split; [done|apply hub_le_refl].
Qed.

Lemma on_hub_ok h f w :
  (∀ b, w_hubs w !! h = Some b → hub_ok (length (w_clients w)) b → hub_le b (f b) ∧ hub_ok (length (w_clients w)) (f b) ∧
     (hb_reader (f b) = hb_reader b ∨ w_registry w !! hb_pane b ≠ Some h)) →
  world_ok w → world_ok (on_hub h f w).
Proof.
  intros Hf (Hr & Hh & Hc). split_and!.
  - intros p k Hp. destruct (Hr p k Hp) as (b & Hb & Hrd & Hpane). cbn. destruct (decide (k = h)) as [->|Hne].
    + rewrite list_lookup_alter_eq, Hb. cbn. exists (f b). destruct (Hf b Hb (Hh _ _ Hb)) as ((Hp' & _) & _ & Hor).
      split; [done|]. split; [|congruence]. destruct Hor as [->|Hno]; [done|]. subst p. by destruct Hno.
    + exists b. by rewrite list_lookup_alter_ne.
  - intros k b Hb. cbn in Hb. change (hub_ok (length (w_clients w)) b). destruct (decide (k = h)) as [->|Hne].
    + rewrite list_lookup_alter_eq in Hb. apply fmap_Some in Hb as (b0 & Hb & ->). by apply Hf, (Hh h).
    + rewrite list_lookup_alter_ne in Hb by done. by apply (Hh k).
  - intros i cl Hi. apply (client_ok_hubs (w_hubs w)); [|by apply Hc]. apply alter_hub_le. intros b Hb. by apply Hf, (Hh h).
Qed.

(** ** Each step keeps it *)
(** Record updates by a constant, computed. *)
Ltac set_cbn := cbn; unfold const; cbn.
Ltac hub_parts := unfold hub_le, hub_ok; split_and!; try done.

Lemma new_hub_ok n pane sock slot session d : hub_ok n (MkHub pane sock slot session [] true None d [] [] [] [] []).
Proof. split_and!; [done..|by constructor|]. by exists [], []. Qed.

Lemma by_client_fresh n i log : Forall (λ e : nat * Bytes, (e.1 < n)%nat) log → (n ≤ i)%nat → by_client i log = [].
Proof.
  intros Hlog Hi. unfold by_client. induction Hlog as [|e log He _ IH]; [done|].
  rewrite filter_cons_False by lia. done.
Qed.
Lemma by_client_snoc i c data log :
  by_client i (log ++ [(c, data)]) = by_client i log ++ (if decide (c = i) then [data] else []).
Proof.
  unfold by_client. rewrite filter_app, fmap_app. f_equal. rewrite filter_cons. cbn. by destruct (decide (c = i)).
Qed.

Section Inv.
Context `{UuidText}.

Lemma client_ok_stage hubs i cl st :
  client_ok hubs i cl → hub_of st = None → (match st with Dialling _ _ => False | _ => True end) →
  client_ok hubs i (cl <| cl_stage := st |>).
Proof. intros _ Hn Hd. split; [by destruct st|]. intros h Hh. change (hub_of st = Some h) in Hh. congruence. Qed.

Lemma join_world_ok s session pane w : world_ok w → world_ok (join s session pane w).
Proof.
  intros (Hr & Hh & Hc). split; [exact Hr|]. split.
  - intros h b Hb. destruct (Hh h b Hb) as (? & ? & Hacc & ?). split_and!; try done. cbn. rewrite length_app.
    eapply Forall_impl; [exact Hacc|]. intros e He. cbn in *. lia.
  - intros i cl Hi. change (client_ok (w_hubs w) i cl). cbn in Hi. apply lookup_snoc_Some in Hi as [[_ Hi]|[-> <-]]; [by apply Hc|].
    unfold new_client, resolve. repeat case_match; (split; [done|]); intros h Hh0; try done. injection Hh0 as <-.
    unfold get in *. match goal with E : w_registry w !! _ = Some _ |- _ => destruct (Hr _ _ E) as (b & Hb & _ & Hp) end.
    exists b. split_and!; try done. cbn. symmetry. eapply by_client_fresh; [apply (Hh _ _ Hb)|lia].
Qed.

Lemma dial_world_ok c o w w' : dial c o w = Some w' → world_ok w → world_ok w'.
Proof.
  unfold dial. intros (cl & Hcl & Hd)%bind_Some Hw. destruct (cl_stage cl) as [sock slot| | | |] eqn:Est; try done.
  destruct o; injection Hd as <-.
  1,2: apply on_client_ok; [|done]; intros cl' _ Hok; by apply client_ok_stage.
  set (hub := MkHub _ _ _ _ _ _ _ _ _ _ _ _ _). destruct Hw as (Hr & Hh & Hc).
  assert (∀ h b, w_hubs w !! h = Some b → ∃ b', (w_hubs w ++ [hub]) !! h = Some b' ∧ hub_le b b') as Hmono.
  { intros h b Hb. exists b. split; [by apply lookup_app_l_Some|apply hub_le_refl]. }
  assert ((w_hubs w ++ [hub]) !! length (w_hubs w) = Some hub) as Hnew by by apply list_lookup_middle.
  apply on_client_ok.
  - intros cl' Hcl' (He & _). cbn in Hcl'. rewrite Hcl in Hcl'. injection Hcl' as <-. unfold early in He. rewrite Est in He.
    destruct (uuid_parse _) as [u|] eqn:Ep; (split; [done|]); intros h Hh0; cbn in Hh0; [|done]. injection Hh0 as <-.
    exists hub. split; [done|]. split; [done|]. split; [|done]. cbn. by destruct He as [-> _].
  - split_and!.
    + intros p h Hp. cbn in Hp. destruct (decide (p = cl_pane cl)) as [->|Hne].
      * rewrite lookup_insert_eq in Hp. injection Hp as <-. by exists hub.
      * rewrite lookup_insert_ne in Hp by done. destruct (Hr p h Hp) as (b & Hb & Hrest). exists b. split; [|done].
        by apply lookup_app_l_Some.
    + intros h b Hb. cbn in Hb. apply lookup_snoc_Some in Hb as [[_ Hb]|[_ <-]]; [by apply (Hh h)|apply new_hub_ok].
    + intros i cl' Hi. apply (client_ok_hubs (w_hubs w)); [exact Hmono|by apply Hc].
Qed.

Lemma worker_frame_ok h data w w' : worker_frame h data w = Some w' → world_ok w → world_ok w'.
Proof.
  unfold worker_frame. intros (b & Hb & He)%bind_Some. destruct (_ && _) eqn:E; [|done]. injection He as <-.
  apply andb_true_iff in E as [Hrd Hin%bool_decide_eq_true]. apply on_hub_ok. intros b' Hb' (Hs & Hrec & Hacc & Hw).
  rewrite Hb in Hb'. injection Hb' as <-. hub_parts.
  - by exists [data].
  - cbn. rewrite append_snapshot_lastn, Hs, lastn_app_lastn, concat_app. cbn. by rewrite app_nil_r.
  - cbn. rewrite Hrec, Hin. cbn. by rewrite app_nil_r.
  - by left.
Qed.

Lemma worker_gone_ok h w w' : worker_gone h w = Some w' → world_ok w → world_ok w'.
Proof.
  unfold worker_gone. intros (b & Hb & He)%bind_Some. destruct (_ && _) eqn:E; [|done]. injection He as <-.
  intros (Hr & Hh & Hc).
  assert (world_ok (remove (hb_pane b) w)) as Hw.
  { split_and!; [|exact Hh|exact Hc]. intros p k Hp. cbn in Hp. apply lookup_delete_Some in Hp as [_ Hp]. by apply Hr. }
  change (world_ok (on_hub h (set hb_reader (λ _, false)) (remove (hb_pane b) w))). revert Hw. apply on_hub_ok.
  intros b' Hb' Hok. cbn in Hb'. rewrite Hb in Hb'. injection Hb' as <-. hub_parts; [apply Hok..|].
  right. cbn. by rewrite lookup_delete_eq.
Qed.

Lemma drain_ok h ok w w' : drain h ok w = Some w' → world_ok w → world_ok w'.
Proof.
  unfold drain. intros (b & Hb & He)%bind_Some. destruct (hb_drainer b) eqn:Ed; [|done].
  destruct (hb_input b) as [|[c data] q] eqn:Eq.
  - destruct (hub_held h w); [done|]. injection He as <-. apply on_hub_ok. intros b' Hb' (? & ? & ? & bf & af & ? & ? & ?).
    hub_parts; [|by left]. by exists bf, af.
  - injection He as <-. apply on_hub_ok. intros b' Hb' (? & ? & ? & bf & af & Hacc & Hwr & Hin). rewrite Hb in Hb'. injection Hb' as <-.
    destruct ok; (hub_parts; [|by left]); cbn.
    + rewrite Ed, Eq in Hin. rewrite <- (Hin eq_refl) in Hacc. exists (bf ++ [(c, data)]), q. rewrite Hacc, <- app_assoc.
      split_and!; [done| |done]. by rewrite fmap_app, Hwr.
    + by exists bf, af.
Qed.

(** *** The channel to the clients *)
Lemma deliver_same h data cl :
  (∀ k, cl_stage cl = Waiting k → k ≠ h) → (∀ k, cl_stage cl = Serving k → k ≠ h ∨ cl_out cl = false) → deliver h data cl = cl.
Proof.
  intros Hw Hs. unfold deliver. destruct (cl_stage cl) as [| |k|k|]; try done.
  - by rewrite decide_False by by apply Hw.
  - rewrite decide_False; [done|]. intros [-> Ho]. destruct (Hs h eq_refl); congruence.
Qed.

Lemma serving_sent b b' data cl :
  hb_received b' = hb_received b → hb_sent b' = hb_sent b ++ [data] → serving_ok b cl →
  serving_ok b' (if cl_out cl then cl <| cl_queue ::= λ q, q ++ [data] |> else cl).
Proof.
  intros Hr Hs (Hsnap & Hfrom & Hfs).
  assert (drop (cl_from cl) (hb_sent b') = drop (cl_from cl) (hb_sent b) ++ [data]) as Hdrop
    by (rewrite Hs; by apply drop_app_le).
  destruct (cl_out cl) eqn:Eo; unfold serving_ok; cbn; rewrite Hr, Hdrop, Hs, length_app; (split_and!; try lia).
  - destruct (cl_frames cl) as [|f fs]; [done|]. destruct Hfs as (Hf & Hseq & Hn & rest & Hrest & Hsub & Heq).
    split; [exact Hf|]. split; [exact Hseq|]. split; [by intros _; apply Hn|]. exists (cl_queue cl ++ [data]). rewrite (Hrest eq_refl) in *. rewrite app_assoc. split_and!; [done| |].
    + by apply sublist_app.
    + intros Hl. by rewrite Heq.
  - destruct (cl_frames cl) as [|f fs]; [done|]. destruct Hfs as (Hf & Hseq & Hn & rest & Hrest & Hsub & Heq).
    split; [exact Hf|]. split; [exact Hseq|]. split; [congruence|]. exists (rest ++ [data]). rewrite app_assoc. split_and!; [congruence| |].
    + by apply sublist_app.
    + intros Hl. by rewrite Heq.
Qed.

Lemma fan_out_ok h w w' : fan_out h w = Some w' → world_ok w → world_ok w'.
Proof.
  unfold fan_out. intros (b & Hb & (data & Hd & He)%bind_Some)%bind_Some (Hr & Hh & Hc). injection He as <-.
  set (f := λ b : PaneMirrorHub, b <| hb_inflight := None |> <| hb_sent ::= λ l, l ++ [data] |>).
  split_and!.
  - intros p k Hp. destruct (Hr p k Hp) as (b' & Hb' & Hrest). cbn. destruct (decide (k = h)) as [->|Hne].
    + rewrite list_lookup_alter_eq, Hb'. by exists (f b').
    + rewrite list_lookup_alter_ne by done. by exists b'.
  - intros k b' Hb'. cbn in Hb'. cbn [w_clients on_hub]. destruct (decide (k = h)) as [->|Hne].
    + rewrite list_lookup_alter_eq, Hb in Hb'. injection Hb' as <-. destruct (Hh h b Hb) as (? & Hrec & Hacc & ?). hub_parts.
      * cbn. rewrite Hrec, Hd. cbn. by rewrite app_nil_r.
      * cbn. by rewrite length_fmap.
    + rewrite list_lookup_alter_ne in Hb' by done. destruct (Hh k b' Hb') as (? & ? & ? & ?). hub_parts. cbn. by rewrite length_fmap.
  - intros i cl Hi. cbn in Hi. rewrite list_lookup_fmap in Hi. apply fmap_Some in Hi as (cl0 & Hi & ->).
    destruct (Hc i cl0 Hi) as [Hearly Hhub].
    assert (cl_stage (deliver h data cl0) = cl_stage cl0) as Est by (unfold deliver; repeat case_match; done).
    split; [unfold early, deliver in *; repeat case_match; done|]. intros k Hk. rewrite Est in Hk.
    destruct (Hhub k Hk) as (b' & Hb' & Hp & Ht & Hf). cbn. destruct (decide (k = h)) as [->|Hne].
    + rewrite list_lookup_alter_eq, Hb'. exists (f b'). rewrite Hb in Hb'. injection Hb' as <-. split; [done|].
      split; [unfold deliver; repeat case_match; done|]. split; [unfold deliver; repeat case_match; done|].
      unfold follows in *. rewrite Est. destruct (cl_stage cl0) as [| |k|k|] eqn:Es; try done; injection Hk as ->.
      * assert (deliver h data cl0 = cl0 <| cl_queue ::= λ q, q ++ [data] |>) as -> by (unfold deliver; by rewrite Es, decide_True).
        destruct Hf as [Hq Hle]. cbn. rewrite Hq, length_app. split; [|cbn; lia]. symmetry. by apply drop_app_le.
      * assert (deliver h data cl0 = if cl_out cl0 then cl0 <| cl_queue ::= λ q, q ++ [data] |> else cl0) as ->.
        { unfold deliver. rewrite Es. destruct (cl_out cl0); [by rewrite decide_True|by rewrite decide_False by (by intros [])]. }
        by apply (serving_sent b).
    + rewrite deliver_same.
      * exists b'. by rewrite list_lookup_alter_ne.
      * intros k' Hk'. rewrite Hk' in Hk. cbn in Hk. congruence.
      * intros k' Hk'. rewrite Hk' in Hk. cbn in Hk. left. congruence.
Qed.

(** *** One client *)
Lemma subscribe_ok c w w' : subscribe c w = Some w' → world_ok w → world_ok w'.
Proof.
  unfold subscribe. intros (cl & Hcl & He)%bind_Some. destruct (cl_stage cl) as [|h| | |] eqn:Es; try done.
  apply bind_Some in He as (b & Hb & He). injection He as <-. apply on_client_ok. intros cl' Hcl' [Hearly Hhub].
  rewrite Hcl in Hcl'. injection Hcl' as <-. split; [unfold early in *; by rewrite Es in Hearly|].
  intros k Hk. cbn in Hk. injection Hk as <-. destruct (Hhub h) as (b' & Hb' & Hp & Ht & _); [by rewrite Es|].
  rewrite Hb in Hb'. injection Hb' as <-. exists b. split_and!; try done. split; [symmetry; exact (drop_all _)|done].
Qed.

Lemma serve_ok c sent w w' : serve c sent w = Some w' → world_ok w → world_ok w'.
Proof.
  unfold serve. intros (cl & Hcl & He)%bind_Some. destruct (cl_stage cl) as [| |h| |] eqn:Es; try done.
  apply bind_Some in He as (b & Hb & He). destruct (wrapped _) as [session|]; injection He as <-; intros Hw; pose proof Hw as (_ & Hh & _);
    revert Hw; apply on_client_ok; intros cl' Hcl' [Hearly Hhub]; [|by apply client_ok_stage].
  rewrite Hcl in Hcl'. injection Hcl' as <-. split; [done|]. intros k Hk. injection Hk as <-.
  destruct (Hhub h) as (b' & Hb' & Hp & Ht & Hf); [by rewrite Es|]. rewrite Hb in Hb'. injection Hb' as <-.
  exists b. split_and!; try done. destruct (Hh h b Hb) as (Hsnap & Hrec & _). unfold follows in Hf. rewrite Es in Hf.
  destruct Hf as [Hq Hle]. unfold follows, serving_ok. set_cbn. assert (length (hb_sent b) ≤ length (hb_received b))%nat as Hlen.
  { rewrite Hrec, length_app. lia. }
  split_and!; try lia. destruct sent; [|done]. rewrite take_ge by done. split_and!; try done.
  exists (cl_queue cl). split_and!; try done; by rewrite Hq.
Qed.

Lemma forward_ok c sent w w' : forward c sent w = Some w' → world_ok w → world_ok w'.
Proof.
  unfold forward. intros (cl & Hcl & (session & _ & He)%bind_Some)%bind_Some.
  destruct (cl_stage cl) as [| | |h|] eqn:Es; try done. destruct (cl_out cl) eqn:Eo; [|done].
  destruct (cl_queue cl) as [|data q] eqn:Eq; [done|]. destruct (_ <=? _)%nat; [|done]. injection He as <-.
  apply on_client_ok. intros cl' Hcl' [Hearly Hhub]. rewrite Hcl in Hcl'. injection Hcl' as <-.
  split; [destruct sent; unfold early; cbn; by rewrite Es|]. intros k Hk.
  assert (k = h) as -> by (destruct sent; cbn in Hk; rewrite Es in Hk; by injection Hk).
  destruct (Hhub h) as (b & Hb & Hp & Ht & Hf); [by rewrite Es|]. exists b. split; [done|].
  split; [by destruct sent|]. split; [by destruct sent|]. unfold follows in *. rewrite Es in Hf.
  destruct Hf as (Hsnap & Hfrom & Hfs). destruct (cl_frames cl) as [|f fs] eqn:Ef; [congruence|].
  destruct Hfs as (Hf & Hseq & Hn & rest & Hrest & Hsub & Heq). specialize (Hrest Eo). subst rest.
  specialize (Hn Eo).
  destruct sent; set_cbn; rewrite Es; unfold serving_ok; set_cbn; rewrite Ef; (split; [lia|]; split; [lia|]).
  - rewrite Eq in *. split; [exact Hf|]. split; [|split].
    + apply (from_zero_snoc (f :: fs)); [done|]. cbn. by rewrite Hn, wrap_u64_succ.
    + intros _. by rewrite length_app, Nat.add_comm, Hn, wrap_u64_succ.
    + exists q. rewrite fmap_app, <- app_assoc. by split_and!.
  - split; [exact Hf|]. split; [done|]. split; [done|]. by exists (cl_queue cl).
Qed.

(** A change of a served client that leaves its view alone, or ends a task. *)
Lemma serving_client_ok hubs i h cl cl' :
  cl_stage cl = Serving h → cl_stage cl' = Serving h → cl_pane cl' = cl_pane cl → cl_typed cl' = cl_typed cl →
  (∀ b, serving_ok b cl → serving_ok b cl') → client_ok hubs i cl → client_ok hubs i cl'.
Proof.
  intros Hs Hs' Hp Ht Hf [_ Hhub]. split; [unfold early; by rewrite Hs'|]. intros k Hk. rewrite Hs' in Hk. injection Hk as <-.
  destruct (Hhub h) as (b & Hb & Hpb & Htb & Hfb); [by rewrite Hs|]. exists b. rewrite Hp, Ht. split_and!; try done.
  unfold follows in *. rewrite Hs'. rewrite Hs in Hfb. by apply Hf.
Qed.

Lemma lag_ok c w w' : lag c w = Some w' → world_ok w → world_ok w'.
Proof.
  unfold lag. intros (cl & Hcl & He)%bind_Some. destruct (cl_stage cl) as [| | |h|] eqn:Es; try done.
  destruct (cl_out cl) eqn:Eo; [|done]. destruct (_ <? _)%nat; [|done]. injection He as <-.
  apply on_client_ok. intros cl' Hcl'. rewrite Hcl in Hcl'. injection Hcl' as <-. apply (serving_client_ok _ _ h); try done.
  intros b (Hsnap & Hfrom & Hfs). split; [done|]. split; [done|]. cbn. destruct (cl_frames cl) as [|f fs]; [done|].
  destruct Hfs as (Hf & Hseq & Hn & rest & Hrest & Hsub & Heq). rewrite (Hrest Eo) in *. split; [done|]. split; [done|]. split; [done|].
  exists (lastn CHANNEL_CAP (cl_queue cl)). split; [done|]. split; [|done]. etrans; [|exact Hsub].
  apply sublist_app; [done|]. apply sublist_drop.
Qed.

(** Ending [out_task] leaves what was shown. *)
Lemma out_ended_ok b cl : serving_ok b cl → serving_ok b (cl <| cl_out := false |>).
Proof.
  intros (Hsnap & Hfrom & Hfs). split; [done|]. split; [done|]. cbn. destruct (cl_frames cl) as [|f fs]; [done|].
  destruct Hfs as (Hf & Hseq & Hn & rest & Hrest & Hsub & Heq). split; [done|]. split; [done|]. split; [done|]. by exists rest.
Qed.

Lemma closed_ok c w w' : closed c w = Some w' → world_ok w → world_ok w'.
Proof.
  unfold closed. intros (cl & Hcl & He)%bind_Some. destruct (cl_stage cl) as [| | |h|] eqn:Es; try done.
  destruct (cl_out cl) eqn:Eo; [|done]. destruct (cl_queue cl); [|done]. destruct (output_open h w); [done|]. injection He as <-.
  apply on_client_ok. intros cl' Hcl'. rewrite Hcl in Hcl'. injection Hcl' as <-. apply (serving_client_ok _ _ h); try done.
  intros b. apply out_ended_ok.
Qed.

Lemma in_ended_ok c w h cl :
  w_clients w !! c = Some cl → cl_stage cl = Serving h → world_ok w → world_ok (on_client c (set cl_in (λ _, false)) w).
Proof.
  intros Hcl Es. apply on_client_ok. intros cl' Hcl'. rewrite Hcl in Hcl'. injection Hcl' as <-.
  by apply (serving_client_ok _ _ h).
Qed.
Lemma hang_up_ok c w w' : hang_up c w = Some w' → world_ok w → world_ok w'.
Proof.
  unfold hang_up. intros (cl & Hcl & He)%bind_Some. destruct (cl_stage cl) as [| | |h|] eqn:Es; try done.
  destruct (cl_in cl); [|done]. injection He as <-. by apply (in_ended_ok c w h cl).
Qed.
Lemma finish_ok c w w' : finish c w = Some w' → world_ok w → world_ok w'.
Proof.
  unfold finish. intros (cl & Hcl & He)%bind_Some. destruct (cl_stage cl) as [| | |h|] eqn:Es; try done.
  destruct (cl_out cl), (cl_in cl); try done. injection He as <-. apply on_client_ok. intros cl' _ Hok. by apply client_ok_stage.
Qed.

(** What is typed enters the log of the hub under the client's number. *)
Lemma type_ok c data w w' : type c data w = Some w' → world_ok w → world_ok w'.
Proof.
  unfold type. intros (cl & Hcl & He)%bind_Some Hw. destruct (cl_stage cl) as [| | |h|] eqn:Es; try done.
  destruct (cl_in cl); [|done]. apply bind_Some in He as (b & Hb & He).
  destruct (hb_drainer b) eqn:Ed; [|injection He as <-; by apply (in_ended_ok c w h cl)].
  destruct (_ <? _)%nat; [|done]. injection He as <-. destruct Hw as (Hr & Hh & Hc).
  set (f := λ b : PaneMirrorHub, b <| hb_input ::= λ q, q ++ [(c, data)] |> <| hb_accepted ::= λ l, l ++ [(c, data)] |>).
  split_and!.
  - intros p k Hp. destruct (Hr p k Hp) as (b' & Hb' & Hrest). cbn. destruct (decide (k = h)) as [->|Hne].
    + rewrite list_lookup_alter_eq, Hb'. by exists (f b').
    + rewrite list_lookup_alter_ne by done. by exists b'.
  - intros k b' Hb'. cbn in Hb'. change (hub_ok (length (alter (set cl_typed (λ l, l ++ [data])) c (w_clients w))) b').
    rewrite length_alter. destruct (decide (k = h)) as [->|Hne]; [|rewrite list_lookup_alter_ne in Hb' by done; by apply (Hh k)].
    rewrite list_lookup_alter_eq, Hb in Hb'. injection Hb' as <-.
    destruct (Hh h b Hb) as (Hsnap & Hrec & Hacc & bf & af & Hlog & Hwr & Hin). hub_parts.
    + cbn. apply Forall_app. split; [done|]. apply Forall_singleton. cbn. by eapply lookup_lt_Some.
    + exists bf, (af ++ [(c, data)]). split; [cbn; by rewrite Hlog, app_assoc|]. split; [done|]. intros _. cbn. by rewrite (Hin Ed).
  - intros i cl' Hi. cbn in Hi. cbn.
    assert (∃ cl0, w_clients w !! i = Some cl0 ∧ cl' = (if decide (c = i) then cl0 <| cl_typed ::= λ l, l ++ [data] |> else cl0))
      as (cl0 & Hi0 & ->).
    { destruct (decide (c = i)) as [<-|Hne]; [|rewrite list_lookup_alter_ne in Hi by done; eauto].
      rewrite list_lookup_alter_eq in Hi. apply fmap_Some in Hi as (cl0 & ? & ->). eauto. }
    destruct (Hc i cl0 Hi0) as [Hearly Hhub].
    split; [destruct (decide (c = i)) as [<-|]; [|done]; rewrite Hcl in Hi0; injection Hi0 as <-; unfold early; cbn; by rewrite Es|].
    intros k Hk. destruct (Hhub k) as (b' & Hb' & Hp & Ht & Hf); [by destruct (decide (c = i))|].
    destruct (decide (k = h)) as [->|Hne].
    + rewrite list_lookup_alter_eq, Hb'. rewrite Hb in Hb'. injection Hb' as <-. exists (f b). split; [done|].
      split; [by destruct (decide (c = i))|]. split; [|by destruct (decide (c = i))]. change (hb_accepted (f b)) with (hb_accepted b ++ [(c, data)]). rewrite by_client_snoc, <- Ht.
      destruct (decide (c = i)); [done|]. by rewrite app_nil_r.
    + exists b'. rewrite list_lookup_alter_ne by done. split; [done|]. destruct (decide (c = i)) as [<-|]; [|done].
      rewrite Hcl in Hi0. injection Hi0 as <-. change (hub_of (cl_stage cl) = Some k) in Hk. rewrite Es in Hk. cbn in Hk. congruence.
Qed.

Lemma exec_world_ok l w w' : exec l w = Some w' → world_ok w → world_ok w'.
Proof.
  destruct l; cbn [exec];
    eauto using dial_world_ok, worker_frame_ok, fan_out_ok, worker_gone_ok, drain_ok, subscribe_ok, serve_ok, forward_ok, lag_ok,
      closed_ok, type_ok, hang_up_ok, finish_ok.
  unfold handle_public_conn. repeat case_match; intros [= <-]; try done; simplify_eq; eauto using join_world_ok.
Qed.
Lemma execs_world_ok ls w w' : execs ls w = Some w' → world_ok w → world_ok w'.
Proof.
  revert w. induction ls as [|l ls IH]; intros w; cbn [execs]; [by intros [= <-]|].
  intros (w1 & He & Hr)%bind_Some Hw. eapply IH; [exact Hr|]. by eapply exec_world_ok.
Qed.
Lemma empty_world_ok : world_ok empty_world.
Proof. split_and!; [intros p h Hp; change ((∅ : gmap Uuid nat) !! p = Some h) in Hp; by rewrite lookup_empty in Hp|by intros []|by intros []]. Qed.
End Inv.

(** ** The worker goes *)
Section WorkerGone.
Context `{UuidText}.

(** A client that is being served holds the hub, so its receiver is never closed. *)
Lemma client_holds w c cl h :
  w_clients w !! c = Some cl → hub_of (cl_stage cl) = Some h → hub_held h w = true.
Proof.
  intros Hcl Hh. unfold hub_held. apply orb_true_iff. right. apply existsb_exists. exists cl.
  split; [apply list_elem_of_In; by eapply list_elem_of_lookup_2|]. unfold holds. by apply bool_decide_eq_true.
Qed.
Lemma closed_never c w : closed c w = None.
Proof.
  unfold closed. destruct (w_clients w !! c) as [cl|] eqn:Hcl; [|done]. cbn.
  destruct (cl_stage cl) as [| | |h|] eqn:Es; try done. destruct (cl_out cl), (cl_queue cl); try done.
  unfold output_open. rewrite (client_holds w c cl h Hcl) by (by rewrite Es). by rewrite orb_true_r.
Qed.

(** Hub [h] is dead, and client [c] has shown what it got. *)
Definition stranded (h c : nat) (frames : list OutputFrame) (w : World) : Prop :=
  (∃ b, w_hubs w !! h = Some b ∧ hb_reader b = false ∧ hb_inflight b = None) ∧
  (∃ cl, w_clients w !! c = Some cl ∧ cl_stage cl = Serving h ∧ cl_out cl = true ∧ cl_queue cl = [] ∧ cl_frames cl = frames).

Lemma stranded_on_client h c fs c' f w :
  (∀ cl, c' = c → w_clients w !! c = Some cl → cl_stage (f cl) = cl_stage cl ∧ cl_out (f cl) = cl_out cl ∧ cl_queue (f cl) = cl_queue cl ∧
     cl_frames (f cl) = cl_frames cl) →
  stranded h c fs w → stranded h c fs (on_client c' f w).
Proof.
  intros Hf [Hb (cl & Hcl & Hs)]. split; [exact Hb|]. cbn. destruct (decide (c' = c)) as [->|Hne].
  - rewrite list_lookup_alter_eq, Hcl. exists (f cl). destruct (Hf cl eq_refl Hcl) as (-> & -> & -> & ->). done.
  - exists cl. by rewrite list_lookup_alter_ne.
Qed.
Lemma stranded_on_hub h c fs h' f w :
  (∀ b, h' = h → w_hubs w !! h = Some b → hb_reader (f b) = hb_reader b ∧ hb_inflight (f b) = hb_inflight b) →
  stranded h c fs w → stranded h c fs (on_hub h' f w).
Proof.
  intros Hf [(b & Hb & Hr & Hi) Hc]. split; [|exact Hc]. cbn. destruct (decide (h' = h)) as [->|Hne].
  - rewrite list_lookup_alter_eq, Hb. exists (f b). destruct (Hf b eq_refl Hb) as [-> ->]. done.
  - exists b. by rewrite list_lookup_alter_ne.
Qed.

Ltac stranded_client Es :=
  apply stranded_on_client; [|done]; intros cl0 -> Hcl0; simplify_eq; try done; congruence.

Lemma stranded_step h c fs l w w' : exec l w = Some w' → stranded h c fs w → stranded h c fs w'.
Proof.
  intros He Hst. pose proof Hst as [(b & Hb & Hrd & Hin) (cl & Hcl & Es & Eo & Eq & Ef)]. destruct l; cbn [exec] in He.
  - unfold handle_public_conn in He. repeat case_match; simplify_eq; try done. split; [by exists b|].
    exists cl. split; [|done]. cbn. by apply lookup_app_l_Some.
  - unfold dial in He. apply bind_Some in He as (cl1 & Hcl1 & He). repeat case_match; simplify_eq;
      (apply stranded_on_client; [intros cl0 -> Hcl0; cbn in Hcl0; congruence|]); try done.
    all: split; [exists b; split; [by apply lookup_app_l_Some|done]|by exists cl].
  - unfold worker_frame in He. apply bind_Some in He as (b1 & Hb1 & He). destruct (_ && _) eqn:E; simplify_eq.
    apply stranded_on_hub; [|done]. intros b0 -> Hb0. apply andb_true_iff in E as [E _]. congruence.
  - unfold fan_out in He. apply bind_Some in He as (b1 & Hb1 & (data & Hd & He)%bind_Some). injection He as <-.
    assert (h0 ≠ h) as Hne by congruence. apply stranded_on_hub; [done|]. split; [by exists b|].
    exists cl. cbn. rewrite list_lookup_fmap, Hcl. cbn. split; [|done]. by rewrite deliver_same; [|intros; congruence|intros; left; congruence].
  - unfold worker_gone in He. apply bind_Some in He as (b1 & Hb1 & He). destruct (_ && _) eqn:E; simplify_eq.
    apply andb_true_iff in E as [E _]. assert (h0 ≠ h) as Hne by congruence.
    change (stranded h c (cl_frames cl) (on_hub h0 (set hb_reader (λ _, false)) (remove (hb_pane b1) w))).
    apply stranded_on_hub; [done|exact Hst].
  - unfold drain in He. apply bind_Some in He as (b1 & Hb1 & He). repeat case_match; simplify_eq; by apply stranded_on_hub.
  - unfold subscribe in He. apply bind_Some in He as (cl1 & Hcl1 & He). case_match; simplify_eq.
    apply bind_Some in He as (b1 & Hb1 & He). injection He as <-. stranded_client Es.
  - unfold serve in He. apply bind_Some in He as (cl1 & Hcl1 & He). case_match; simplify_eq.
    apply bind_Some in He as (b1 & Hb1 & He). case_match; simplify_eq; stranded_client Es.
  - unfold forward in He. apply bind_Some in He as (cl1 & Hcl1 & (session & _ & He)%bind_Some).
    repeat case_match; simplify_eq; stranded_client Es.
  - unfold lag in He. apply bind_Some in He as (cl1 & Hcl1 & He). repeat case_match; simplify_eq.
    apply stranded_on_client; [|done]; intros cl0 -> Hcl0. simplify_eq. rewrite Eq in *. done.
  - by rewrite closed_never in He.
  - unfold type in He. apply bind_Some in He as (cl1 & Hcl1 & He). repeat case_match; simplify_eq.
    apply bind_Some in He as (b1 & Hb1 & He). repeat case_match; simplify_eq; apply stranded_on_client; try done.
    by apply stranded_on_hub.
  - unfold hang_up in He. apply bind_Some in He as (cl1 & Hcl1 & He). repeat case_match; simplify_eq. by apply stranded_on_client.
  - unfold finish in He. apply bind_Some in He as (cl1 & Hcl1 & He). repeat case_match; simplify_eq. stranded_client Es.
Qed.
End WorkerGone.

(** ** Properties *)

(** C18: clients of one pane follow one hub. After any steps, what a client being served
    was sent is: as frame 0 the last 256 KiB of what the hub had received when it read
    the snapshot, then, numbered from 1, frames the hub sent on since the client
    subscribed, in order; with what waits in its receiver these are all of them, unless
    it lagged. The subscription comes first, so nothing is missed between the two. *)
Theorem clients_follow_hub `{UuidText} ls w c cl h f fs
    (Hrun : execs ls empty_world = Some w) (Hcl : w_clients w !! c = Some cl) (Hst : cl_stage cl = Serving h)
    (Hfs : cl_frames cl = f :: fs) :
  ∃ b, w_hubs w !! h = Some b ∧ hb_pane b = cl_pane cl ∧ hb_received b = hb_sent b ++ option_list (hb_inflight b) ∧
    of_data f = lastn SNAPSHOT_CAP (concat (take (cl_snap cl) (hb_received b))) ∧ from_zero (f :: fs) ∧
    (cl_from cl ≤ cl_snap cl)%nat ∧
    (of_data <$> fs) `sublist_of` drop (cl_from cl) (hb_sent b) ∧
    (cl_lagged cl = false → (of_data <$> fs) `prefix_of` drop (cl_from cl) (hb_sent b) ∧
       (cl_out cl = true → (of_data <$> fs) ++ cl_queue cl = drop (cl_from cl) (hb_sent b))).
Proof.
  destruct (execs_world_ok ls _ _ Hrun empty_world_ok) as (_ & Hh & Hc). destruct (Hc c cl Hcl) as [_ Hhub].
  destruct (Hhub h) as (b & Hb & Hp & _ & Hf); [by rewrite Hst|]. unfold follows in Hf. rewrite Hst in Hf.
  destruct Hf as (Hsnap & _ & Hfr). rewrite Hfs in Hfr. destruct Hfr as (Hf0 & Hz & _ & rest & Hrest & Hsub & Heq).
  exists b. split_and!; try done; [apply (Hh _ _ Hb)|lia|etrans; [|exact Hsub]; by apply sublist_inserts_r|].
  intros Hl. rewrite <- (Heq Hl). split; [by eexists|]. intros Ho. by rewrite (Hrest Ho).
Qed.


Lemma clients_to_pty_input slot fs wk h :
  Worker.wk_panes wk !! slot = Some h →
  ∃ wk' h', clients_to_pty slot fs wk = Some wk' ∧ Worker.wk_panes wk' !! slot = Some h' ∧
    Worker.ph_input h' = Worker.ph_input h ++ (if_data <$> fs).
Proof.
  revert wk h. induction fs as [|f fs IH]; intros wk h Hh; cbn [clients_to_pty client_to_pty mbind option_bind].
  - exists wk, h. by rewrite app_nil_r.
  - match goal with |- context [clients_to_pty slot fs ?wk1] =>
      destruct (IH wk1 (Worker.with_input (Worker.ph_input h ++ [if_data f]) h)) as (wk' & h' & Hr & Hp & Hi) end.
    { cbn [Worker.wk_panes]. by rewrite lookup_alter_eq, Hh. }
    exists wk', h'. split_and!; [done..|].
    rewrite Hi. cbn. by rewrite <- app_assoc.
Qed.

(** The two hops together: on the connection that starts with the hub's slot the worker
    serves that slot, and its terminal gets what the hub wrote, which is what the
    clients typed in the order the hub accepted it. *)
Theorem typed_reaches_terminal `{UuidText} ls w hi b wk h u :
  execs ls empty_world = Some w → w_hubs w !! hi = Some b → 0 <= hb_slot b < 2 ^ 32 →
  Worker.wk_panes wk !! hb_slot b = Some h → uuid_parse (Worker.wk_session_id wk) = Some u →
  (∃ out, handle_stream_conn wk (to_le_bytes 4 (hb_slot b)) = Streaming (MkSessionId u) (hb_slot b) out) ∧
  ∃ wk' h' before after, clients_to_pty (hb_slot b) (hb_written b) wk = Some wk' ∧
    Worker.wk_panes wk' !! hb_slot b = Some h' ∧ hb_accepted b = before ++ after ∧
    Worker.ph_input h' = Worker.ph_input h ++ (snd <$> before).
Proof.
  intros Hrun Hb Hslot Hh Hu. split.
  - unfold handle_stream_conn.
    assert (read_exact 4 (to_le_bytes 4 (hb_slot b)) = Ok (to_le_bytes 4 (hb_slot b), [])) as ->.
    { rewrite <- (app_nil_r (to_le_bytes 4 (hb_slot b))) at 1. apply (read_exact_app (to_le_bytes 4 (hb_slot b)) []). }
    cbn [fst]. rewrite from_to_le_bytes by (cbn; lia). rewrite Hu, Hh. by eexists.
  - destruct (clients_to_pty_input (hb_slot b) (hb_written b) wk h Hh) as (wk' & h' & Hr & Hp & Hi).
    destruct (execs_world_ok ls _ _ Hrun empty_world_ok) as (_ & Hhubs & _).
    destruct (Hhubs hi b Hb) as (_ & _ & _ & before & after & Hacc & Hwr & _). exists wk', h', before, after.
    split_and!; try done. rewrite Hi, Hwr, <- list_fmap_compose. done.
Qed.

(** The registry names hubs whose reader runs. *)
Theorem registry_names_live_hubs `{UuidText} ls w p h :
  execs ls empty_world = Some w → get p w = Some h → ∃ b, w_hubs w !! h = Some b ∧ hb_reader b = true ∧ hb_pane b = p.
Proof. intros Hrun. apply (execs_world_ok ls _ _ Hrun empty_world_ok). Qed.

(** When a worker goes its clients are not told: each keeps its hub, and with it a
    sender of the channel it waits on, so once it has shown what it got its output task
    waits for ever, whatever happens next, even after the client itself has gone. *)
Theorem dead_hub_strands_clients `{UuidText} ls w w' h c cl :
  execs ls w = Some w' → (∃ b, w_hubs w !! h = Some b ∧ hb_reader b = false ∧ hb_inflight b = None) →
  w_clients w !! c = Some cl → cl_stage cl = Serving h → cl_out cl = true → cl_queue cl = [] →
  ∃ cl', w_clients w' !! c = Some cl' ∧ cl_stage cl' = Serving h ∧ cl_out cl' = true ∧ cl_frames cl' = cl_frames cl.
Proof.
  intros Hrun Hb Hcl Hst Ho Hq. assert (stranded h c (cl_frames cl) w) as Hs by (split; [done|by exists cl]).
  clear Hb Hcl Hst Ho Hq. revert w Hrun Hs. induction ls as [|l ls IH]; intros w; cbn [execs].
  - intros [= ->] [_ (cl' & ? & ? & ? & ? & ?)]. by exists cl'.
  - intros (w1 & He & Hr)%bind_Some Hs. apply (IH w1 Hr). by eapply stranded_step.
Qed.

(** The supervisor takes connections as the daemon of one process does. *)
Theorem public_conn_dispatch `{UuidText} s input w :
  handle_public_conn s input w =
    match handle_conn input with
    | Ok (ControlConn rest) => Ok (Control rest)
    | Ok (StreamConn session pane _) => Ok (Proxied (join s session pane w))
    | Err e => Err e
    end.
Proof.
  unfold handle_public_conn, handle_conn. destruct (read_exact 1 input) as [[[|t []] rest]|]; try done. cbn [fst snd].
  destruct (decide (t = MODE_CONTROL)); [by destruct (read_control_version_after_tag rest)|].
  destruct (decide (t = MODE_STREAM)); [|done]. by destruct (read_stream_header rest) as [[[? ?] ?]|].
Qed.

Section Examples.
#[local] Existing Instance binary_uuid.

(** Sessions 1 and 2 have a worker each; pane 3 is slot 0 of session 1. *)
Definition sock_of (session : Uuid) : string := "/run/worker-" +:+ uuid_to_string session.
Definition handle_of (session : Uuid) : WorkerHandle := MkWorkerHandle 7 "" (sock_of session) 0.
Definition two_sessions : Sup :=
  MkSup (MkWorkers {[uuid_to_string 1%N := handle_of 1%N; uuid_to_string 2%N := handle_of 2%N]}
           (PaneIndex.register 3%N (uuid_to_string 1%N) 0 PaneIndex.empty_index))
    (MkWindows ∅ ∅ ∅) (MkQueues [] [] [] ∅) PaneEventBus.new [] (fresh_store "/d") (BlockIndex.MkIndex [] []) ∅ ∅.
Definition attach (session : Uuid) : Label :=
  Accept two_sessions (attach_stream (MkSessionId session) (MkPaneId 3)).

(** A client attaches, the worker's snapshot comes, a second client attaches, more is
    printed between its subscription and its snapshot, both type. *)
Definition shared_run : list Label :=
  [attach 1%N; Dialled 0 Connected; WorkerFrame 0 [x41]; FanOut 0; Subscribe 0; Serve 0 true;
   attach 1%N; Subscribe 1; WorkerFrame 0 [x42]; FanOut 0; Serve 1 true; WorkerFrame 0 [x43]; FanOut 0;
   Forward 1 true; Type_ 0 [x6c]; Type_ 1 [x71]; Type_ 0 [x73]; Drain 0 true; Drain 0 true; Forward 0 true].
Definition after_run (ls : list Label) : World := default empty_world (execs ls empty_world).
Definition shared : World := after_run shared_run.

Lemma clients_follow_hub_witness :
  (λ cl, of_data <$> cl_frames cl) <$> w_clients shared = [[[x41]; [x42]]; [[x41; x42]; [x42]]] ∧
  ∃ b, w_hubs shared !! 0%nat = Some b ∧ hb_sent b = [[x41]; [x42]; [x43]] ∧ [[x42]] `prefix_of` drop 1 (hb_sent b).
Proof.
  split; [vm_compute; reflexivity|].
  destruct (execs shared_run empty_world) as [w|] eqn:Hrun; [|vm_compute in Hrun; discriminate Hrun].
  assert (w = shared) as -> by (unfold shared, after_run; rewrite Hrun; reflexivity).
  destruct (clients_follow_hub shared_run shared 1%nat (default (new_client (MkSessionId 0) 0%N Finished) (w_clients shared !! 1%nat)) 0%nat
              (MkOutputFrame (MkSessionId 1) 0 [x41; x42]) [MkOutputFrame (MkSessionId 1) 1 [x42]] Hrun)
    as (b & Hb & _ & _ & _ & _ & _ & _ & Hl); [vm_compute; reflexivity..|].
  exists b. split; [exact Hb|]. destruct Hl as [Hp _]; [vm_compute; reflexivity|].
  split; [|exact Hp]. vm_compute in Hb. injection Hb as <-. reflexivity.
Defined.


(** The worker closes: both clients stay, neither can end its output task. *)
Example stranded_clients :
  let w := after_run (shared_run ++ [Forward 0 true; Forward 1 true; WorkerGone 0; HangUp 0]) in
  get 3%N w = None ∧ closed 0 w = None ∧ finish 0 w = None ∧ (cl_out <$> w_clients w) = [true; true].
Proof. vm_compute. by repeat split. Qed.

(** Two first clients: both find no hub, both dial, the second hub takes the first
    one's place. When the first hub's connection ends it removes the second. *)
Example first_attach_race :
  let w := after_run [attach 1%N; attach 1%N; Dialled 0 Connected; Dialled 1 Connected] in
  (cl_stage <$> w_clients w) = [Joined 0; Joined 1] ∧ get 3%N w = Some 1%nat ∧
  (get 3%N <$> worker_gone 0 w) = Some None.
Proof. vm_compute. by repeat split. Qed.

(** The session of the header chooses the worker, the pane only the slot: a client that
    names session 2 with a pane of session 1 makes the hub every later client of that
    pane joins, and it is connected to slot 0 of session 2. *)
Example wrong_session_takes_pane :
  let w := after_run [attach 2%N; Dialled 0 Connected; attach 1%N] in
  (cl_stage <$> w_clients w) = [Joined 0; Joined 0] ∧
  ((λ b, (hb_sock b, hb_slot b, hb_pane b)) <$> w_hubs w) = [(sock_of 2, 0, 3%N)].
Proof. vm_compute. by repeat split. Qed.
End Examples.
