(* ===== verification/Migration.v ===== *)
(** * Migration: what happens to databases and indexes at start (pyred/src/migration.rs)

    The one-time move from the monolithic database to a shard per session, the
    rebuilding of an old search index, and the filling of an empty one. [Host] is the
    part of the disk these read and write. The outcomes of file operations and of
    statements are arguments ([MigrateOs], [SchemaOs], [BackfillOs]). *)
From Stdlib Require Import Strings.Byte.
From stdpp Require Import sorting.
From S2P Require Import Prelude Proto Text Layout Libraries Effects Store BlockIndex Worker.
Local Open Scope Z_scope.

Module Migration.

(** An index directory: the index at its root, if there is one (that is where the
    schemas 1 and 2 kept it), with or without the field [exit_code]; and the index of
    the present schema, in the sub-directory [v3]. *)
Record IndexDir := MkIndexDir { id_root : option bool; id_v3 : option BlockIndex.Index }.
Definition empty_dir : IndexDir := MkIndexDir None None.
Definition is_empty_dir (d : IndexDir) : bool :=
  match d with MkIndexDir None None => true | _ => false end.

Record Host := MkHost {
  ho_store : Store.St;                      (** the daemon's database and blobs *)
  ho_created : bool;                        (** the database file is there *)
  ho_dbs : gmap string Store.Db;            (** other files with such a database, by path *)
  ho_index : gmap string IndexDir;          (** index directories, by path *)
  ho_files : gmap string string;            (** text files, by path *)
  ho_shards : gmap string Worker.Shard }.   (** shards, by session *)

Definition set_store (st : Store.St) (h : Host) : Host :=
  MkHost st (ho_created h) (ho_dbs h) (ho_index h) (ho_files h) (ho_shards h).
Definition on_dbs (f : gmap string Store.Db → gmap string Store.Db) (h : Host) : Host :=
  MkHost (ho_store h) (ho_created h) (f (ho_dbs h)) (ho_index h) (ho_files h) (ho_shards h).
Definition on_index (f : gmap string IndexDir → gmap string IndexDir) (h : Host) : Host :=
  MkHost (ho_store h) (ho_created h) (ho_dbs h) (f (ho_index h)) (ho_files h) (ho_shards h).
Definition on_files (f : gmap string string → gmap string string) (h : Host) : Host :=
  MkHost (ho_store h) (ho_created h) (ho_dbs h) (ho_index h) (f (ho_files h)) (ho_shards h).
Definition on_shards (f : gmap string Worker.Shard → gmap string Worker.Shard) (h : Host) : Host :=
  MkHost (ho_store h) (ho_created h) (ho_dbs h) (ho_index h) (ho_files h) (f (ho_shards h)).

Inductive MigrationReport :=
  | AlreadyDone
  | NoLegacy
  | Migrated (sessions blocks : nat) (backup_path : string).

(** ** Paths *)
Definition state_home (xdg home : option string) : string :=
  match xdg with
  | Some p => p
  | None => Store.path_join (Store.path_join (default "/tmp" home) ".local") "state"
  end.
Definition pyre_state_dir (sh : string) : string := Store.path_join sh "pyre".
Definition legacy_db_path (sh : string) : string := Store.path_join (pyre_state_dir sh) "state.db".
Definition sentinel_path (sh : string) : string := Store.path_join (pyre_state_dir sh) "migration_completed".
Definition index_dir (sh : string) : string := Store.path_join (pyre_state_dir sh) "index".

(** The files of the store's own directory (store.rs, main.rs). *)
Definition store_db_path (h : Host) : string := Store.path_join (Store.st_data_dir (ho_store h)) "state.db".
Definition store_index_dir (h : Host) : string := Store.path_join (Store.st_data_dir (ho_store h)) "index".
Definition database (path : string) (h : Host) : option Store.Db :=
  if decide (path = store_db_path h)
  then (if ho_created h then Some (Store.st_db (ho_store h)) else None)
  else ho_dbs h !! path.

(** ** Outcomes *)
(** Opening something that is created when it is not there: refused, refused after
    the file or directory was created, or done. *)
Inductive OpenIo := Refused | CreatedOnly | Opened.
(** Writing a text file: not created, cut short, or written. *)
Inductive WriteIo := NotCreated | CutShort (content : string) | Written.

Section Migration.
Context `{UuidText, LayoutJson, SqlOrder, Zstd, ChronoRange}.

Definition HostM (A : Type) : Type := M Host string A.
Definition require (ok : bool) (context : string) : HostM unit := if ok then ret tt else throw context.

(** ** Index directories *)
Definition reopened (ix : option BlockIndex.Index) : BlockIndex.Index :=
  match ix with Some ix => BlockIndex.MkIndex (BlockIndex.ix_committed ix) [] | None => BlockIndex.MkIndex [] [] end.

(** [BlockIndex::open]: documents no commit followed are lost. *)
Definition open_index (io : OpenIo) (dir : string) : HostM unit :=
  match io with
  | Refused => throw "open index"
  | CreatedOnly =>
      do! modify (on_index (λ m, <[dir := default empty_dir (m !! dir)]> m)) in throw "open index"
  | Opened =>
      modify (on_index (λ m,
        let d := default empty_dir (m !! dir) in <[dir := MkIndexDir (id_root d) (Some (reopened (id_v3 d)))]> m))
  end.

(** A call on the open index of a directory. *)
Definition with_index (dir : string) (f : BlockIndex.Index → BlockIndex.Index) (h : Host) : Host :=
  on_index (alter (λ d, MkIndexDir (id_root d) (f <$> id_v3 d)) dir) h.
Definition opened (dir : string) (h : Host) : BlockIndex.Index :=
  default (BlockIndex.MkIndex [] []) (ho_index h !! dir ≫= id_v3).

(** [if let Err(e) = add_block(..) { warn }]; the outcomes of the engine. *)
Definition add_block (io : bool * bool) (dir : string) (b : Block) (stdout : string) : HostM unit :=
  modify (with_index dir (λ ix, (BlockIndex.add_block io.1 io.2 b stdout ix).1)).

(** Adding blocks one by one, numbered from [i]. *)
Fixpoint add_blocks {B} (engine : nat → bool * bool) (dir : string) (doc : B → Block * string) (i : nat)
    (blocks : list B) : HostM unit :=
  match blocks with
  | [] => ret tt
  | b :: rest =>
      do! add_block (engine i) dir (doc b).1 (doc b).2 in
      add_blocks engine dir doc (S i) rest
  end.

(** ** The monolithic database *)
Record LegacyBlock := MkLegacyBlock {
  lb_id : string; lb_pane_id : string; lb_session_id : string; lb_command : string;
  lb_started_at : Z; lb_ended_at : option Z; lb_exit_code : option Z; lb_cwd : option string;
  lb_stdout_blob_path : option string }.

(** [now]: the clock, read when the start cannot be represented. *)
Definition to_proto_block (now : DateTime) (b : LegacyBlock) : Block :=
  MkBlock (MkBlockId (default 0%N (uuid_parse (lb_id b)))) (MkPaneId (default 0%N (uuid_parse (lb_pane_id b))))
    (MkSessionId (default 0%N (uuid_parse (lb_session_id b)))) (lb_command b) (lb_cwd b)
    (default now (Store.timestamp_millis_opt (lb_started_at b)))
    (lb_ended_at b ≫= Store.timestamp_millis_opt) (lb_exit_code b) 0.

(** [panes_sql], [blocks_sql]: the statements succeed; a failed one finds nothing. *)
Definition collect_session_ids (panes_sql blocks_sql : bool) (db : Store.Db) : list string :=
  let pane_sids := if panes_sql
    then remove_dups ((λ kr, Store.pr_session_id kr.2) <$> map_to_list (Store.db_panes db)) else [] in
  let block_sids := if blocks_sql
    then remove_dups ((λ kr, Store.br_session_id kr.2) <$> map_to_list (Store.db_blocks db)) else [] in
  dedup (merge_sort String.le (pane_sids ++ block_sids)).

(** [rowid]: the number SQLite gives the row of a pane. *)
Definition fetch_panes_for_session (rowid : string → Z) (sql : bool) (db : Store.Db) (sid : string) :
    list (Z * string * string) :=
  if sql then
    (λ kr, (rowid kr.1, Store.pr_argv kr.2, default "" (Store.pr_cwd kr.2))) <$>
      Store.select (λ _ r, bool_decide (Store.pr_session_id r = sid) && bool_decide (Store.pr_closed_at r = None))
        (λ _, 0) (Store.db_panes db)
  else [].

Definition legacy_block (kr : string * Store.BlockRow) : LegacyBlock :=
  let r := kr.2 in
  MkLegacyBlock kr.1 (Store.br_pane_id r) (Store.br_session_id r) (Store.br_command r) (Store.br_started_at r)
    (Store.br_ended_at r) (wrap_i32 <$> Store.br_exit_code r) (Store.br_cwd r) (Some (Store.br_stdout_blob_path r)).
Definition collect_all_blocks (sql : bool) (db : Store.Db) : list LegacyBlock :=
  if sql then legacy_block <$> Store.select (λ _ _, true) (λ _, 0) (Store.db_blocks db) else [].

(** [partial]: what a read of an unfinished file gives. *)
Definition read_zstd_blob (partial : string → option Bytes) (path : string) (h : Host) : option Bytes :=
  match Store.st_blobs (ho_store h) !! path with
  | None => None
  | Some Store.Unfinished => partial path
  | Some (Store.Finished z) => zstd_decompress z
  end.
Definition legacy_stdout (partial : string → option Bytes) (h : Host) (b : LegacyBlock) : string :=
  match lb_stdout_blob_path b with
  | Some path => BlockIndex.blob_text (read_zstd_blob partial path h)
  | None => ""
  end.

(** ** [migrate_to_hybrid] *)
Record MigrateOs := MkMigrateOs {
  mo_mkdir : bool;
  mo_copy : bool;
  mo_connect : bool;
  mo_panes_sql : bool;
  mo_block_sids_sql : bool;
  mo_blocks_sql : bool;
  mo_shard : string → OpenIo;
  mo_session_sql : string → bool;
  mo_insert : string → Z → bool;
  mo_remove_index : bool;
  mo_index : OpenIo;
  mo_engine : nat → bool * bool;
  mo_partial : string → option Bytes;
  mo_now : DateTime;
  mo_sentinel : WriteIo;
  mo_stamp : string;          (** the time, as in the sentinel *)
  mo_suffix : string }.       (** the time, as in the name of the backup *)

Definition sentinel_text (timestamp backup : string) : string :=
  "timestamp=" +:+ timestamp +:+ bytes_str [x0a] +:+ "backup=" +:+ backup +:+ bytes_str [x0a].

Definition write_sentinel (io : WriteIo) (sh timestamp backup : string) : HostM unit :=
  match io with
  | NotCreated => throw "write migration sentinel"
  | CutShort content => do! modify (on_files <[sentinel_path sh := content]>) in throw "write migration sentinel"
  | Written => modify (on_files <[sentinel_path sh := sentinel_text timestamp backup]>)
  end.

Definition rebuild_tantivy_index (os : MigrateOs) (dir : string) (blocks : list LegacyBlock) : HostM unit :=
  let! present := gets (λ h, ho_index h !! dir) in
  do! match present with
      | Some _ => do! require (mo_remove_index os) "rm -rf index" in modify (on_index (delete dir))
      | None => ret tt
      end in
  do! open_index (mo_index os) dir in
  let! h := gets (λ h, h) in
  add_blocks (mo_engine os) dir (λ b, (to_proto_block (mo_now os) b, legacy_stdout (mo_partial os) h b)) 0 blocks.

Definition open_shard (io : OpenIo) (sid : string) : HostM unit :=
  match io with
  | Refused => throw ("open shard for session " +:+ sid)
  | CreatedOnly => do! modify (on_shards <[sid := ∅]>) in throw ("open shard for session " +:+ sid)
  | Opened => modify (on_shards <[sid := ∅]>)
  end.

Definition insert_pane (os : MigrateOs) (sid : string) (row : Z * string * string) : HostM unit :=
  let '(slot, shell, cwd) := row in
  do! require (mo_insert os sid slot) ("insert pane into shard for session " +:+ sid) in
  modify (on_shards (alter (λ m : Worker.Shard, <[slot := (shell, cwd)]> m : Worker.Shard) sid)).

Definition migrate_session (rowid : string → Z) (os : MigrateOs) (db : Store.Db) (sid : string) : HostM unit :=
  let! shard := gets (λ h, ho_shards h !! sid) in
  match shard with
  | Some _ => ret tt
  | None =>
      do! open_shard (mo_shard os sid) sid in
      for_each (insert_pane os sid) (fetch_panes_for_session rowid (mo_session_sql os sid) db sid)
  end.

Definition migrate_to_hybrid (rowid : string → Z) (sh : string) (os : MigrateOs) : HostM MigrationReport :=
  do! require (mo_mkdir os) "mkdir" in
  let! sentinel := gets (λ h, ho_files h !! sentinel_path sh) in
  match sentinel with
  | Some _ => ret AlreadyDone
  | None =>
      let! legacy := gets (database (legacy_db_path sh)) in
      match legacy with
      | None => do! write_sentinel (mo_sentinel os) sh (mo_stamp os) "" in ret NoLegacy
      | Some db =>
          let backup_path := Store.path_join (pyre_state_dir sh) ("state.db.bak." +:+ mo_suffix os) in
          do! require (mo_copy os) "backup" in
          do! modify (on_dbs <[backup_path := db]>) in
          do! require (mo_connect os) "open legacy state.db read-only" in
          let session_ids := collect_session_ids (mo_panes_sql os) (mo_block_sids_sql os) db in
          let all_blocks := collect_all_blocks (mo_blocks_sql os) db in
          do! for_each (migrate_session rowid os db) session_ids in
          do! rebuild_tantivy_index os (index_dir sh) all_blocks in
          do! write_sentinel (mo_sentinel os) sh (mo_stamp os) backup_path in
          ret (Migrated (length session_ids) (length all_blocks) backup_path)
      end
  end.

(** ** The search index at start *)
Context (env : Store.Env) (store_message : Store.StoreError → string)
  (index_message : BlockIndex.IndexError → string).

Definition store {A} (m : Store.S A) : HostM A := zoom ho_store set_store store_message m.

Record BackfillOs := MkBackfillOs {
  bf_reader : bool;
  bf_partial : BlockId → option Bytes;
  bf_add : nat → bool;
  bf_commit : nat → bool }.

Definition U32_MAX : Z := 2 ^ 32 - 1.

Definition read_blob (partial : BlockId → option Bytes) (h : Host) (id : BlockId) : option Bytes :=
  match Store.st_blobs (ho_store h) !! Store.blob_path_for (Store.st_data_dir (ho_store h)) id with
  | None => Some []
  | Some Store.Unfinished => partial id
  | Some (Store.Finished z) => zstd_decompress z
  end.

Definition backfill_index_if_empty (os : BackfillOs) (dir : string) : HostM unit :=
  let! h := gets (λ h, h) in
  let! doc_count := of_result (result_map_err index_message (BlockIndex.doc_count (bf_reader os) (opened dir h))) in
  if 0 <? doc_count then ret tt
  else
    let! block_count := store (Store.count_blocks env) in
    if block_count =? 0 then ret tt
    else
      let! all_blocks := store (Store.list_blocks env None U32_MAX) in
      let! h := gets (λ h, h) in
      let r := BlockIndex.backfill (read_blob (bf_partial os) h) (bf_add os) (bf_commit os) all_blocks (opened dir h) in
      do! modify (with_index dir (λ _, r.1)) in
      do! of_result (result_map_err index_message r.2) in
      ret tt.

(** [Index::open] fails where there is no index. *)
Definition tantivy_has_exit_code_field (dir : string) (h : Host) : option bool :=
  ho_index h !! dir ≫= id_root.

Record SchemaOs := MkSchemaOs {
  so_rename : bool;
  so_mkdir : bool;
  so_index : OpenIo;
  so_partial : BlockId → result Store.StoreError Bytes;
  so_engine : nat → bool * bool;
  so_suffix : string }.       (** the time, as in the name of the backup *)

Definition MAX_CHARS : Z := 2 ^ 64 - 1.

(** A directory is not renamed over one with files. *)
Definition rename_dir (ok : bool) (from to : string) : HostM unit :=
  let! h := gets (λ h, h) in
  match ho_index h !! from, ok && is_empty_dir (default empty_dir (ho_index h !! to)) with
  | Some d, true => modify (on_index (λ m, <[to := d]> (delete from m)))
  | _, _ => throw ("rename " +:+ from)
  end.

Definition maybe_migrate_tantivy_schema (os : SchemaOs) (parent dir : string) : HostM unit :=
  let! h := gets (λ h, h) in
  match ho_index h !! dir with
  | None => ret tt
  | Some _ =>
      match tantivy_has_exit_code_field dir h with
      | Some true => ret tt
      | _ =>
          do! rename_dir (so_rename os) dir (Store.path_join parent ("index.bak." +:+ so_suffix os)) in
          do! require (so_mkdir os) ("mkdir " +:+ dir) in
          do! modify (on_index <[dir := empty_dir]>) in
          do! open_index (so_index os) dir in
          let! all_blocks := store (Store.list_blocks env None U32_MAX) in
          let! h := gets (λ h, h) in
          add_blocks (so_engine os) dir
            (λ b, (b, Store.stdout_snippet (so_partial os (blk_id b)) (blk_id b) MAX_CHARS (ho_store h))) 0 all_blocks
      end
  end.

(** ** Start (main.rs) *)
Record StartOs := MkStartOs { sa_schema : SchemaOs; sa_index : OpenIo; sa_backfill : BackfillOs }.

(** [Store::open] *)
Definition open_store : HostM unit :=
  do! modify (λ h, MkHost (ho_store h) true (ho_dbs h) (ho_index h) (ho_files h) (ho_shards h)) in
  store (Store.open_store env).

(** The search index, from its migration to the backfill. *)
Definition open_search (os : StartOs) : HostM unit :=
  let! dir := gets store_index_dir in
  let! parent := gets (λ h, Store.st_data_dir (ho_store h)) in
  do! maybe_migrate_tantivy_schema (sa_schema os) parent dir in
  do! open_index (sa_index os) dir in
  backfill_index_if_empty (sa_backfill os) dir.
(** What both modes do before they serve. *)
Definition open_all (os : StartOs) : HostM unit := do! open_store in open_search os.

Definition start_hybrid (rowid : string → Z) (sh : string) (mo : MigrateOs) (os : StartOs) : HostM MigrationReport :=
  let! report := migrate_to_hybrid rowid sh mo in
  do! open_all os in
  ret report.

End Migration.
End Migration.
