(* ===== verification/MigrationInv.v ===== *)
(** * MigrationInv: what a start leaves on disk

    The migration to shards runs once, copies what it should, and is not redone when
    it was cut short; the search index is complete after every start. *)
From Stdlib Require Import Strings.Byte.
From stdpp Require Import sorting.
From S2P Require Import Prelude Proto Text Layout Libraries Effects Store StoreBlocks BlockIndex Worker Migration.
Local Open Scope Z_scope.
Import Migration.

(** ** Paths *)
Lemma path_join_inj a b c :
  String.prefix "/" b = false → String.prefix "/" c = false → Store.path_join a b = Store.path_join a c → b = c.
Proof.
  unfold Store.path_join. intros -> ->. destruct (decide (a = "")); [done|].
  case_bool_decide; intros E.
  - by apply String.app_inj in E.
  - apply String.app_inj in E. by apply String.app_inj in E.
Qed.
Lemma backup_not_legacy sh suffix : Store.path_join (pyre_state_dir sh) ("state.db.bak." +:+ suffix) ≠ legacy_db_path sh.
Proof. unfold legacy_db_path. intros E. apply path_join_inj in E; [|by destruct suffix|done]. discriminate E. Qed.
Lemma index_backup_other parent suffix :
  Store.path_join parent ("index.bak." +:+ suffix) ≠ Store.path_join parent "index".
Proof. intros E. apply path_join_inj in E; [|by destruct suffix|done]. discriminate E. Qed.

(** ** Session ids *)
Lemma collect_session_ids_spec db sid :
  sid ∈ collect_session_ids true true db ↔
  (∃ k r, Store.db_panes db !! k = Some r ∧ Store.pr_session_id r = sid) ∨
  (∃ k r, Store.db_blocks db !! k = Some r ∧ Store.br_session_id r = sid).
Proof.
  unfold collect_session_ids. rewrite dedup_elem, merge_sort_Permutation, elem_of_app, !elem_of_remove_dups, !list_elem_of_fmap.
  f_equiv; split.
  - intros ([k r] & -> & Hin%elem_of_map_to_list). by exists k, r.
  - intros (k & r & Hin & <-). exists (k, r). by rewrite elem_of_map_to_list.
  - intros ([k r] & -> & Hin%elem_of_map_to_list). by exists k, r.
  - intros (k & r & Hin & <-). exists (k, r). by rewrite elem_of_map_to_list.
Qed.
Lemma collect_session_ids_NoDup p b db : NoDup (collect_session_ids p b db).
Proof. apply (dedup_NoDup String.le). apply StronglySorted_merge_sort; apply _. Qed.

Section Runs.
Context `{UuidText, LayoutJson, SqlOrder, Zstd, ChronoRange}.

(** ** Indexing *)
Definition good_index (dir : string) (root : option bool) (docs : list BlockIndex.Doc) (h : Host) : Host :=
  on_index <[dir := MkIndexDir root (Some (BlockIndex.MkIndex docs []))]> h.

Lemma good_index_again dir r1 r2 d1 d2 h : good_index dir r2 d2 (good_index dir r1 d1 h) = good_index dir r2 d2 h.
Proof. unfold good_index, on_index. cbn [ho_store ho_created ho_dbs ho_index ho_files ho_shards]. by rewrite insert_insert_eq. Qed.
Lemma good_index_opened dir r d h : opened dir (good_index dir r d h) = BlockIndex.MkIndex d [].
Proof. unfold opened, good_index. cbn [on_index ho_index]. by rewrite lookup_insert_eq. Qed.

Lemma with_index_good dir r d ix f h :
  f (BlockIndex.MkIndex d []) = BlockIndex.MkIndex ix [] →
  with_index dir f (good_index dir r d h) = good_index dir r ix h.
Proof.
  intros Hf. unfold with_index, good_index, on_index. cbn [ho_store ho_created ho_dbs ho_index ho_files ho_shards].
  f_equal. rewrite <- (insert_insert_eq (ho_index h) dir (MkIndexDir r (Some (BlockIndex.MkIndex ix [])))
                         (MkIndexDir r (Some (BlockIndex.MkIndex d [])))).
  apply map_eq. intros k. destruct (decide (k = dir)) as [->|Hk].
  - rewrite lookup_alter_eq, !lookup_insert_eq. cbn. by rewrite Hf.
  - by rewrite lookup_alter_ne, !lookup_insert_ne.
Qed.

Definition willing (engine : nat → bool * bool) : Prop := ∀ i, engine i = (true, true).

Lemma add_blocks_run {B} engine dir r (doc : B → Block * string) blocks i docs h :
  willing engine →
  add_blocks engine dir doc i blocks (good_index dir r docs h) =
  (good_index dir r (docs ++ ((λ b, BlockIndex.document (doc b).1 (doc b).2) <$> blocks)) h, Ok tt).
Proof.
  intros He. revert i docs. induction blocks as [|b blocks IH]; intros i docs; cbn [add_blocks].
  - by rewrite fmap_nil, app_nil_r.
  - unfold bind, add_block, modify. rewrite (with_index_good dir r docs (docs ++ [BlockIndex.document (doc b).1 (doc b).2])).
    + rewrite IH, <- app_assoc. reflexivity.
    + by rewrite He.
Qed.

Lemma open_index_run dir h :
  open_index Opened dir h =
  (good_index dir (ho_index h !! dir ≫= id_root) (BlockIndex.ix_committed (opened dir h)) h, Ok tt).
Proof.
  unfold open_index, modify, good_index, opened, on_index.
  by destruct (ho_index h !! dir) as [[root [ix|]]|].
Qed.
Lemma good_index_root dir r d h : ho_index (good_index dir r d h) !! dir = Some (MkIndexDir r (Some (BlockIndex.MkIndex d []))).
Proof. unfold good_index. cbn [on_index ho_index]. by rewrite lookup_insert_eq. Qed.

Section Store.
Context (env : Store.Env) (store_message : Store.StoreError → string) (index_message : BlockIndex.IndexError → string).

Definition faultless : Prop := ∀ n, Store.env_fault env n = false.
Definition readable (h : Host) : Prop :=
  blocks_ok (Store.db_blocks (Store.st_db (ho_store h))) ∧
  Z.of_nat (size (Store.db_blocks (Store.st_db (ho_store h)))) <= U32_MAX.

(** Every block, in some order. *)
Definition all_rows (h : Host) : list (string * Store.BlockRow) :=
  Store.newest (λ _, true) U32_MAX (Store.db_blocks (Store.st_db (ho_store h))).

Lemma all_rows_perm h : readable h → all_rows h ≡ₚ map_to_list (Store.db_blocks (Store.st_db (ho_store h))).
Proof.
  intros [_ Hn]. unfold all_rows, Store.newest.
  assert (Store.select (λ _ _, true) (λ kr, - Store.br_started_at kr.2) (Store.db_blocks (Store.st_db (ho_store h)))
    ≡ₚ map_to_list (Store.db_blocks (Store.st_db (ho_store h)))) as Hp.
  { rewrite select_perm. by rewrite filter_all. }
  rewrite take_ge; [exact Hp|]. rewrite Hp, length_map_to_list. lia.
Qed.

Definition counted (h : Host) : Host :=
  set_store (Store.after_stmt (Store.st_db (ho_store h)) (ho_store h)) h.

Lemma list_blocks_run h : faultless → readable h →
  store store_message (Store.list_blocks env None U32_MAX) h = (counted h, Ok (block_of <$> all_rows h)).
Proof.
  intros Hf Hr. unfold store, zoom, Store.list_blocks, bind at 1, Store.fetch, Store.query. rewrite Hf.
  rewrite rows_to_blocks_ok; [done|]. apply Forall_forall. intros [k r] Hin.
  change (Store.newest (λ _, true) U32_MAX (Store.db_blocks (Store.st_db (ho_store h)))) with (all_rows h) in Hin.
  rewrite all_rows_perm, elem_of_map_to_list in Hin by done. destruct Hr as [Hb _]. exact (Hb k r Hin).
Qed.
Lemma count_blocks_run h : faultless →
  store store_message (Store.count_blocks env) h =
  (counted h, Ok (Z.of_nat (size (Store.db_blocks (Store.st_db (ho_store h)))))).
Proof. intros Hf. unfold store, zoom, Store.count_blocks, Store.fetch, Store.query. by rewrite Hf. Qed.

(** ** The search index at start *)
Record smooth_start (os : StartOs) : Prop := {
  ss_rename : so_rename (sa_schema os) = true;
  ss_mkdir : so_mkdir (sa_schema os) = true;
  ss_schema_index : so_index (sa_schema os) = Opened;
  ss_engine : willing (so_engine (sa_schema os));
  ss_index : sa_index os = Opened;
  ss_reader : bf_reader (sa_backfill os) = true;
  ss_add : ∀ i, bf_add (sa_backfill os) i = true;
  ss_commit : ∀ i, bf_commit (sa_backfill os) i = true }.

(** The documents of every block, each with some text. *)
Definition complete (h : Host) (docs : list BlockIndex.Doc) : Prop :=
  ∃ text : Block → string,
    docs ≡ₚ (λ kr, BlockIndex.document (block_of kr) (text (block_of kr)))
             <$> map_to_list (Store.db_blocks (Store.st_db (ho_store h))).

Lemma complete_rows h (text : Block → string) :
  readable h →
  complete h ((λ b, BlockIndex.document b (text b)) <$> (block_of <$> all_rows h)).
Proof.
  intros Hr. exists text. rewrite <- (all_rows_perm h Hr), <- list_fmap_compose. done.
Qed.

Lemma accepted_all add_ok i blocks : (∀ i, add_ok i = true) → BlockIndex.accepted add_ok i blocks = blocks.
Proof. intros Ha. revert i. induction blocks as [|b blocks IH]; intros i; cbn; [done|]. by rewrite Ha, IH. Qed.

Lemma backfill_empty read add_ok commit_ok blocks :
  (∀ i, add_ok i = true) → (∀ i, commit_ok i = true) →
  ∃ n, BlockIndex.backfill read add_ok commit_ok blocks (BlockIndex.MkIndex [] []) =
    (BlockIndex.MkIndex ((λ b, BlockIndex.document b (BlockIndex.blob_text (read (blk_id b)))) <$> blocks) [], Ok n).
Proof.
  intros Ha Hc. unfold BlockIndex.backfill.
  pose proof (BlockIndex.backfill_from_total read add_ok commit_ok blocks 0 0 (BlockIndex.MkIndex [] [])) as Ht.
  destruct (BlockIndex.backfill_from _ _ _ _ _ _ _) as [ix n]. cbn zeta in Ht. destruct Ht as [Hd _]. rewrite Hc.
  exists n. f_equal. unfold BlockIndex.commit. f_equal. cbn [fst] in Hd. rewrite accepted_all in Hd by done. exact Hd.
Qed.

Lemma good_index_counted dir r d h : counted (good_index dir r d h) = good_index dir r d (counted h).
Proof. done. Qed.

(** Filling an index that is open and committed. *)
Lemma backfill_run os dir r docs h :
  faultless → readable h → bf_reader os = true → (∀ i, bf_add os i = true) → (∀ i, bf_commit os i = true) →
  ∃ h' docs', backfill_index_if_empty env store_message index_message os dir (good_index dir r docs h)
      = (good_index dir r docs' h', Ok tt) ∧
    (h' = h ∨ h' = counted h ∨ h' = counted (counted h)) ∧
    (docs ≠ [] → docs' = docs) ∧ (docs = [] → complete h docs').
Proof.
  intros Hf Hr Hread Ha Hc. unfold backfill_index_if_empty, bind at 1, gets at 1.
  rewrite good_index_opened, Hread. unfold BlockIndex.doc_count. cbn [BlockIndex.ix_committed result_map_err].
  unfold bind at 1, of_result at 1. destruct docs as [|d docs].
  2: { exists h, (d :: docs). cbn [length]. by split_and!; [|left| |]. }
  change (0 <? Z.of_nat (length (@nil BlockIndex.Doc))) with false. cbn iota.
  rewrite (bind_ok _ _ _ _ _ (count_blocks_run _ Hf)).
  rewrite good_index_counted. cbn [good_index on_index ho_store].
  destruct (Z.eqb_spec (Z.of_nat (size (Store.db_blocks (Store.st_db (ho_store h))))) 0) as [E|E].
  - exists (counted h), []. split_and!; [done|by right; left|done|]. intros _. exists (λ _, "").
    assert (size (Store.db_blocks (Store.st_db (ho_store h))) = 0%nat) as Hz by lia.
    apply map_size_empty_inv in Hz. by rewrite Hz, map_to_list_empty.
  - fold (good_index dir r [] (counted h)).
    rewrite (bind_ok _ _ _ _ _ (list_blocks_run (good_index dir r [] (counted h)) Hf Hr)).
    rewrite good_index_counted. unfold bind at 1, gets at 1. rewrite good_index_opened.
    set (rb := read_blob _ _).
    destruct (backfill_empty rb (bf_add os) (bf_commit os) (block_of <$> all_rows (good_index dir r [] (counted h))) Ha Hc) as [n Hb].
    rewrite Hb. cbn [fst snd result_map_err]. unfold bind at 1, modify. erewrite with_index_good by reflexivity.
    unfold bind, of_result, ret. eexists (counted (counted h)), _. split; [reflexivity|].
    split_and!; [by do 2 right|done|]. intros _.
    exact (complete_rows h (λ b, BlockIndex.blob_text (rb (blk_id b))) Hr).
Qed.

Definition backup_dir (os : StartOs) (h : Host) : string :=
  Store.path_join (Store.st_data_dir (ho_store h)) ("index.bak." +:+ so_suffix (sa_schema os)).
Definition name_free (os : StartOs) (h : Host) : Prop :=
  is_empty_dir (default empty_dir (ho_index h !! backup_dir os h)) = true.

(** An index without the field, or none at the root, is set aside and built again. *)
Lemma schema_rebuild os h old :
  faultless → readable h → smooth_start os → name_free os h →
  ho_index h !! store_index_dir h = Some old → id_root old ≠ Some true →
  ∃ docs, maybe_migrate_tantivy_schema env store_message (sa_schema os) (Store.st_data_dir (ho_store h)) (store_index_dir h) h
      = (good_index (store_index_dir h) None docs (counted (on_index <[backup_dir os h := old]> h)), Ok tt) ∧
    complete h docs.
Proof.
  intros Hf Hr [Hren Hmk Hix Heng _ _ _ _] Hn Hd Hroot.
  pose proof (index_backup_other (Store.st_data_dir (ho_store h)) (so_suffix (sa_schema os))) as Hne.
  fold (backup_dir os h) (store_index_dir h) in Hne. set (dir := store_index_dir h) in *. set (bak := backup_dir os h) in *.
  assert (∀ x e, <[dir := x]> (<[dir := e]> (<[bak := old]> (delete dir (ho_index h)))) = <[dir := x]> (<[bak := old]> (ho_index h))) as Hm.
  { intros x e. rewrite insert_insert_eq. apply map_eq. intros k. destruct (decide (k = dir)) as [->|Hk].
    - by rewrite !lookup_insert_eq.
    - rewrite !(lookup_insert_ne _ dir) by done. destruct (decide (k = bak)) as [->|Hk2].
      + by rewrite !lookup_insert_eq.
      + by rewrite !lookup_insert_ne, lookup_delete_ne. }
  unfold maybe_migrate_tantivy_schema, tantivy_has_exit_code_field. unfold bind at 1, gets at 1. rewrite Hd. cbn [mbind option_bind].
  assert (∀ A (x y : A), match id_root old with Some true => x | _ => y end = y) as -> by (intros; by destruct (id_root old) as [[]|]).
  unfold bind at 1, rename_dir, bind at 1, gets at 1. rewrite Hren, Hd.
  change (Store.path_join (Store.st_data_dir (ho_store h)) ("index.bak." +:+ so_suffix (sa_schema os))) with bak.
  unfold name_free in Hn. fold bak in Hn. rewrite Hn.
  cbn [andb]. unfold modify at 1. unfold bind at 1. rewrite Hmk. cbn [require ret]. unfold bind at 1, modify at 1.
  rewrite Hix. erewrite bind_ok by apply open_index_run.
  set (h2 := on_index <[dir := empty_dir]> _).
  assert (opened dir h2 = BlockIndex.MkIndex [] []) as Ho
    by (unfold opened, h2; cbn [on_index ho_index]; by rewrite lookup_insert_eq).
  assert (ho_index h2 !! dir ≫= id_root = None) as Hr2
    by (unfold h2; cbn [on_index ho_index]; by rewrite lookup_insert_eq).
  rewrite Ho, Hr2. cbn [BlockIndex.ix_committed].
  assert (readable (good_index dir None [] h2)) as Hread by exact Hr.
  rewrite (bind_ok _ _ _ _ _ (list_blocks_run (good_index dir None [] h2) Hf Hread)). rewrite good_index_counted.
  unfold bind at 1, gets at 1. rewrite add_blocks_run by done. rewrite app_nil_l. cbn [fst snd].
  assert (∀ d, good_index dir None d (counted h2) = good_index dir None d (counted (on_index <[bak := old]> h))) as Hg.
  { intros d. unfold h2, good_index, counted, set_store, on_index.
    cbn [ho_store ho_created ho_dbs ho_index ho_files ho_shards]. by rewrite Hm. }
  rewrite Hg. eexists. split; [reflexivity|].
  exact (complete_rows h (λ b, Store.stdout_snippet (so_partial (sa_schema os) (blk_id b)) (blk_id b) MAX_CHARS
                                 (ho_store (good_index dir None [] (counted h2)))) Hr).
Qed.

Lemma schema_kept os parent dir h :
  ho_index h !! dir = None ∨ ho_index h !! dir ≫= id_root = Some true →
  maybe_migrate_tantivy_schema env store_message os parent dir h = (h, Ok tt).
Proof.
  unfold maybe_migrate_tantivy_schema, tantivy_has_exit_code_field, bind at 1, gets at 1.
  destruct (ho_index h !! dir) as [d|]; cbn; [|done]. intros [?|Hr]; [done|]. by rewrite Hr.
Qed.

(** Opening the index and filling it if it is empty. *)
Lemma index_filled os dir h :
  faultless → readable h → smooth_start os →
  ∃ h' docs,
    bind (open_index (sa_index os) dir) (λ _, backfill_index_if_empty env store_message index_message (sa_backfill os) dir) h
      = (good_index dir (ho_index h !! dir ≫= id_root) docs h', Ok tt) ∧
    Store.st_db (ho_store h') = Store.st_db (ho_store h) ∧ ho_index h' = ho_index h ∧
    match BlockIndex.ix_committed (opened dir h) with [] => complete h docs | kept => docs = kept end.
Proof.
  intros Hf Hr [_ _ _ _ Hix Hread Ha Hc]. rewrite Hix. erewrite bind_ok by apply open_index_run.
  destruct (backfill_run (sa_backfill os) dir (ho_index h !! dir ≫= id_root) (BlockIndex.ix_committed (opened dir h)) h
              Hf Hr Hread Ha Hc) as (h' & docs & Hrun & Hh' & Hkept & Hempty).
  exists h', docs. rewrite Hrun. split; [done|]. split; [by destruct Hh' as [->|[->| ->]]|].
  split; [by destruct Hh' as [->|[->| ->]]|]. destruct (BlockIndex.ix_committed _); auto.
Qed.
End Store.

(** ** The migration to shards *)
Lemma keeps_require (I : Host → Prop) ok c : keeps I (require ok c).
Proof. unfold require. destruct ok; [apply keeps_ret|apply keeps_throw]. Qed.
Lemma keeps_modify (I : Host → Prop) f : (∀ h, I h → I (f h)) → keeps (E := string) I (modify f).
Proof. intros Hf h Hh. by apply Hf. Qed.

(** Before the sentinel, only shards, copies of databases and indexes change. *)
Definition untouched (sh : string) (h0 h : Host) : Prop :=
  ho_store h = ho_store h0 ∧ ho_created h = ho_created h0 ∧ ho_files h = ho_files h0 ∧
  ho_dbs h !! legacy_db_path sh = ho_dbs h0 !! legacy_db_path sh.

Lemma untouched_shards sh h0 f h : untouched sh h0 h → untouched sh h0 (on_shards f h).
Proof. done. Qed.
Lemma untouched_index sh h0 f h : untouched sh h0 h → untouched sh h0 (on_index f h).
Proof. done. Qed.
Lemma untouched_copy sh h0 suffix db h :
  untouched sh h0 h → untouched sh h0 (on_dbs <[Store.path_join (pyre_state_dir sh) ("state.db.bak." +:+ suffix) := db]> h).
Proof.
  intros (? & ? & ? & Hd). split_and!; [done..|]. rewrite <- Hd. apply lookup_insert_ne, backup_not_legacy.
Qed.
#[local] Hint Resolve keeps_require keeps_ret keeps_throw keeps_gets keeps_modify untouched_shards untouched_index
  untouched_copy : core.

Lemma migrate_session_untouched sh h0 rowid os db sid : keeps (untouched sh h0) (migrate_session rowid os db sid).
Proof.
  apply keeps_bind; [auto|]. intros [shard|]; [auto|]. apply keeps_bind.
  - unfold open_shard. destruct (mo_shard os sid); [auto|apply keeps_bind; auto|auto].
  - intros _. apply keeps_for_each. intros [[slot shell] cwd]. apply keeps_bind; auto.
Qed.
Lemma rebuild_untouched sh h0 os dir blocks : keeps (untouched sh h0) (rebuild_tantivy_index os dir blocks).
Proof.
  unfold rebuild_tantivy_index. apply keeps_bind; [auto|]. intros present. apply keeps_bind.
  { destruct present; [apply keeps_bind; auto|auto]. }
  intros _. apply keeps_bind.
  { unfold open_index. destruct (mo_index os); [auto|apply keeps_bind; auto|auto]. }
  intros _. apply keeps_bind; [auto|]. intros h. generalize 0%nat as i. induction blocks as [|b blocks IH]; intros i; cbn [add_blocks]; [auto|].
  apply keeps_bind; [|intros _; apply IH]. apply keeps_modify. intros h1. apply untouched_index.
Qed.

Lemma write_sentinel_run io sh ts backup h :
  (∀ c, io ≠ CutShort c) →
  write_sentinel io sh ts backup h = (h, Err "write migration sentinel") ∨
  write_sentinel io sh ts backup h = (on_files <[sentinel_path sh := sentinel_text ts backup]> h, Ok tt).
Proof. intros Hio. destruct io as [|c|]; [by left|by destruct (Hio c)|by right]. Qed.

(** The work between the check of the sentinel and the sentinel. *)
Definition migrate_work (rowid : string → Z) (sh backup : string) (os : MigrateOs) (db : Store.Db) : HostM unit :=
  do! require (mo_copy os) "backup" in
  do! modify (on_dbs <[backup := db]>) in
  do! require (mo_connect os) "open legacy state.db read-only" in
  do! for_each (migrate_session rowid os db) (collect_session_ids (mo_panes_sql os) (mo_block_sids_sql os) db) in
  rebuild_tantivy_index os (index_dir sh) (collect_all_blocks (mo_blocks_sql os) db).

Lemma migrate_work_untouched h0 rowid sh os db :
  keeps (untouched sh h0)
    (migrate_work rowid sh (Store.path_join (pyre_state_dir sh) ("state.db.bak." +:+ mo_suffix os)) os db).
Proof.
  unfold migrate_work. do 3 (apply keeps_bind; [auto|intros _]). apply keeps_bind; intros.
  - apply keeps_for_each. intros sid. apply migrate_session_untouched.
  - apply rebuild_untouched.
Qed.

Lemma migrate_run rowid sh os h db :
  mo_mkdir os = true → ho_files h !! sentinel_path sh = None → database (legacy_db_path sh) h = Some db →
  let backup := Store.path_join (pyre_state_dir sh) ("state.db.bak." +:+ mo_suffix os) in
  migrate_to_hybrid rowid sh os h =
  bind (migrate_work rowid sh backup os db) (λ _,
    do! write_sentinel (mo_sentinel os) sh (mo_stamp os) backup in
    ret (Migrated (length (collect_session_ids (mo_panes_sql os) (mo_block_sids_sql os) db))
           (length (collect_all_blocks (mo_blocks_sql os) db)) backup)) h.
Proof.
  intros Hmk Hs Hdb. cbn zeta. unfold migrate_to_hybrid, migrate_work. rewrite Hmk. unfold bind at 1 2 3, require at 1, ret at 1, gets at 1 2.
  rewrite Hs, Hdb. unfold bind. destruct (require (mo_copy os) _ _) as [h1 [[]|e]]; [|done]. cbn [modify].
  destruct (require (mo_connect os) _ _) as [h2 [[]|e]]; [|done].
  by destruct (for_each _ _ _) as [h3 [[]|e]].
Qed.

(** *** What the work does when nothing fails *)
Definition pane_rows (rowid : string → Z) (db : Store.Db) (sid : string) : list (Z * (string * string)) :=
  (λ r, (r.1.1, (r.1.2, r.2))) <$> fetch_panes_for_session rowid true db sid.
Definition session_shard (rowid : string → Z) (db : Store.Db) (sid : string) : Worker.Shard :=
  fold_left (λ m r, <[r.1 := r.2]> m) (pane_rows rowid db sid) (∅ : gmap Z (string * string)).

Definition distinct_rows (rowid : string → Z) (db : Store.Db) : Prop :=
  ∀ k1 k2, is_Some (Store.db_panes db !! k1) → is_Some (Store.db_panes db !! k2) → rowid k1 = rowid k2 → k1 = k2.

(** A pane of the session that was not closed. *)
Definition open_row (rowid : string → Z) (db : Store.Db) (sid : string) (slot : Z) (sc : string * string) : Prop :=
  ∃ k r, Store.db_panes db !! k = Some r ∧ Store.pr_session_id r = sid ∧ Store.pr_closed_at r = None ∧
    rowid k = slot ∧ sc = (Store.pr_argv r, default "" (Store.pr_cwd r)).

Lemma fetch_panes_elem rowid db sid slot sc :
  (slot, sc) ∈ pane_rows rowid db sid ↔ open_row rowid db sid slot sc.
Proof.
  unfold pane_rows, fetch_panes_for_session, open_row. rewrite <- list_fmap_compose, list_elem_of_fmap. split.
  - intros ([k r] & [= -> ->] & Hin). rewrite select_perm, list_elem_of_filter, elem_of_map_to_list in Hin.
    destruct Hin as [Hw Hin]. rewrite andb_true_iff, !bool_decide_eq_true in Hw. cbn in Hw. exists k, r. naive_solver.
  - intros (k & r & Hk & Hs & Hc & <- & ->). exists (k, r). split; [done|].
    rewrite select_perm, list_elem_of_filter, elem_of_map_to_list. by rewrite andb_true_iff, !bool_decide_eq_true.
Qed.
Lemma pane_rows_NoDup rowid db sid : distinct_rows rowid db → NoDup (pane_rows rowid db sid).*1.
Proof.
  intros Hd. unfold pane_rows, fetch_panes_for_session. rewrite <- !list_fmap_compose.
  match goal with |- NoDup ?l => assert (l = (λ kr : string * Store.PaneRow, rowid kr.1) <$>
    Store.select (λ _ r, bool_decide (Store.pr_session_id r = sid) && bool_decide (Store.pr_closed_at r = None)) (λ _, 0)
      (Store.db_panes db)) as -> by done end.
  rewrite select_perm. apply NoDup_fmap_filter.
  assert (∀ kr, kr ∈ map_to_list (Store.db_panes db) → is_Some (Store.db_panes db !! kr.1)) as Hin.
  { intros [k r] Hk%elem_of_map_to_list. by exists r. }
  pose proof (NoDup_fst_map_to_list (Store.db_panes db)) as Hnd. revert Hin Hnd.
  induction (map_to_list (Store.db_panes db)) as [|kr l IH]; intros Hin Hnd; [constructor|].
  rewrite !fmap_cons in *. inversion Hnd as [|?? Hk Hnd']; subst. constructor.
  - intros (kr' & E & Hkr')%list_elem_of_fmap. apply Hk, list_elem_of_fmap. exists kr'. split; [|done].
    apply Hd; [apply Hin; by left|apply Hin; by right|done].
  - apply IH; [|done]. intros kr' Hkr'. apply Hin. by right.
Qed.
Lemma session_shard_lookup rowid db sid slot sc : distinct_rows rowid db →
  (session_shard rowid db sid : gmap Z (string * string)) !! slot = Some sc ↔ open_row rowid db sid slot sc.
Proof.
  intros Hd. unfold session_shard. rewrite fold_insert_lookup by by apply pane_rows_NoDup.
  rewrite lookup_empty, fetch_panes_elem. naive_solver.
Qed.

Record smooth_migration (os : MigrateOs) : Prop := {
  sm_mkdir : mo_mkdir os = true;
  sm_copy : mo_copy os = true;
  sm_connect : mo_connect os = true;
  sm_panes_sql : mo_panes_sql os = true;
  sm_block_sids_sql : mo_block_sids_sql os = true;
  sm_blocks_sql : mo_blocks_sql os = true;
  sm_shard : ∀ sid, mo_shard os sid = Opened;
  sm_session_sql : ∀ sid, mo_session_sql os sid = true;
  sm_insert : ∀ sid slot, mo_insert os sid slot = true;
  sm_remove : mo_remove_index os = true;
  sm_index : mo_index os = Opened;
  sm_engine : willing (mo_engine os);
  sm_sentinel : mo_sentinel os = Written }.

Lemma insert_panes_run os sid rows (m : gmap Z (string * string)) h :
  smooth_migration os →
  for_each (insert_pane os sid) rows (on_shards <[sid := (m : Worker.Shard)]> h) =
  (on_shards <[sid := (fold_left (λ m r, <[r.1 := r.2]> m) ((λ r, (r.1.1, (r.1.2, r.2))) <$> rows) m : Worker.Shard)]> h, Ok tt).
Proof.
  intros Hs. revert m. induction rows as [|[[slot sh] cwd] rows IH]; intros m; [done|].
  cbn [for_each insert_pane]. unfold bind at 1 2, require. rewrite (sm_insert os Hs). cbn [ret]. unfold modify at 1.
  assert (on_shards (alter (λ m : Worker.Shard, <[slot := (sh, cwd)]> m : Worker.Shard) sid) (on_shards <[sid := (m : Worker.Shard)]> h) =
    on_shards <[sid := (<[slot := (sh, cwd)]> m : Worker.Shard)]> h) as ->.
  { unfold on_shards. cbn [ho_store ho_created ho_dbs ho_index ho_files ho_shards]. f_equal.
    erewrite alter_insert_at by apply lookup_insert_eq. by rewrite insert_insert_eq. }
  rewrite IH. done.
Qed.

Definition shard_after (rowid : string → Z) (db : Store.Db) (sid : string) (old : option Worker.Shard) : Worker.Shard :=
  default (session_shard rowid db sid) old.

Lemma migrate_session_run rowid os db sid h :
  smooth_migration os →
  migrate_session rowid os db sid h = (on_shards <[sid := shard_after rowid db sid (ho_shards h !! sid)]> h, Ok tt).
Proof.
  intros Hs. unfold migrate_session, bind at 1, gets at 1. destruct (ho_shards h !! sid) as [shard|] eqn:E.
  - cbn [shard_after default from_option id]. unfold ret. f_equal. destruct h. cbn in E. unfold on_shards.
    cbn [ho_store ho_created ho_dbs ho_index ho_files ho_shards]. f_equal. symmetry. by apply insert_id.
  - unfold bind, open_shard. rewrite (sm_shard os Hs). unfold modify.
    rewrite (insert_panes_run os sid _ ∅) by done. by rewrite (sm_session_sql os Hs).
Qed.

Lemma migrate_sessions_run rowid os db ids h :
  smooth_migration os → NoDup ids →
  ∃ shards, for_each (migrate_session rowid os db) ids h = (on_shards (λ _, shards) h, Ok tt) ∧
    ∀ sid, shards !! sid = if decide (sid ∈ ids) then Some (shard_after rowid db sid (ho_shards h !! sid)) else ho_shards h !! sid.
Proof.
  intros Hs. revert h. induction ids as [|sid ids IH]; intros h Hnd.
  - exists (ho_shards h). split; [by destruct h|]. intros sid. rewrite decide_False; [done|]. by apply not_elem_of_nil.
  - inversion Hnd as [|?? Hsid Hnd']; subst. cbn [for_each].
    rewrite (bind_ok _ _ _ _ _ (migrate_session_run rowid os db sid h Hs)).
    destruct (IH (on_shards <[sid := shard_after rowid db sid (ho_shards h !! sid)]> h) Hnd') as (shards & -> & Hsh).
    exists shards. split; [done|]. intros sid'. rewrite Hsh. cbn [on_shards ho_shards].
    destruct (decide (sid' = sid)) as [->|Hne].
    + rewrite (decide_False (P := sid ∈ ids)), lookup_insert_eq, decide_True by (done || by left). done.
    + rewrite lookup_insert_ne by done. destruct (decide (sid' ∈ ids)).
      * rewrite decide_True; [done|by right].
      * rewrite decide_False; [done|]. by rewrite elem_of_cons; intros [?|?].
Qed.

Lemma rebuild_run os dir blocks h :
  smooth_migration os →
  ∃ docs, rebuild_tantivy_index os dir blocks h = (good_index dir None docs h, Ok tt) ∧
    docs = (λ b, BlockIndex.document (to_proto_block (mo_now os) b)
                   (legacy_stdout (mo_partial os) (good_index dir None [] h) b)) <$> blocks.
Proof.
  intros Hs. unfold rebuild_tantivy_index, bind at 1, gets at 1.
  assert ((match ho_index h !! dir with
           | Some _ => do! require (mo_remove_index os) "rm -rf index" in modify (on_index (delete dir))
           | None => ret tt end) h = (on_index (delete dir) h, Ok tt)) as Hdel.
  { destruct (ho_index h !! dir) eqn:E; [by rewrite (sm_remove os Hs)|]. unfold ret. f_equal. destruct h. cbn in E.
    unfold on_index. cbn [ho_store ho_created ho_dbs ho_index ho_files ho_shards]. f_equal. symmetry. by apply delete_id. }
  rewrite (bind_ok _ _ _ _ _ Hdel). rewrite (sm_index os Hs). erewrite bind_ok by apply open_index_run.
  set (h1 := on_index (delete dir) h).
  assert (ho_index h1 !! dir = None) as Hnone by (unfold h1; cbn [on_index ho_index]; apply lookup_delete_eq).
  assert (opened dir h1 = BlockIndex.MkIndex [] []) as Hop by (unfold opened; by rewrite Hnone).
  rewrite Hop, Hnone. cbn [mbind option_bind BlockIndex.ix_committed].
  assert (∀ d, good_index dir None d h1 = good_index dir None d h) as Hg.
  { intros d. unfold h1, good_index, on_index. cbn [ho_store ho_created ho_dbs ho_index ho_files ho_shards].
    by rewrite insert_delete_eq. }
  unfold bind, gets. rewrite add_blocks_run by apply (sm_engine os Hs). rewrite Hg. eexists. split; [reflexivity|]. by rewrite Hg.
Qed.
End Runs.

(** ** Properties *)

(** after a start nothing is missing from search. When all files and statements
    are fine, [open_search] succeeds, leaves the database as it is, and the index
    holds a document for every block of the database - with the exit code of its row -
    unless an index with the field [exit_code] lies at the root and the present one
    is not empty, which is kept as it is. Any other directory that was there is
    set aside under the name of the backup, and the new one is like it, so that each
    later start does this again. *)
Theorem search_complete_at_start `{UuidText, LayoutJson, SqlOrder, Zstd, ChronoRange} env store_message index_message os h
    (Hf : faultless env) (Hr : readable h) (Hs : smooth_start os) (Hn : name_free os h) :
  let dir := store_index_dir h in
  ∃ h' docs,
    open_search env store_message index_message os h = (h', Ok tt) ∧
    Store.st_db (ho_store h') = Store.st_db (ho_store h) ∧ opened dir h' = BlockIndex.MkIndex docs [] ∧
    match ho_index h !! dir with
    | None => complete h docs
    | Some old =>
        match id_root old, BlockIndex.ix_committed (opened dir h) with
        | Some true, [] => complete h docs
        | Some true, kept => docs = kept
        | _, _ =>
            complete h docs ∧ ho_index h' !! backup_dir os h = Some old ∧ ho_index h' !! dir ≫= id_root = None
        end
    end.
Proof.
  cbn zeta. unfold open_search, bind at 1, gets at 1, bind at 1, gets at 1. set (dir := store_index_dir h).
  assert (∀ h1, Store.st_db (ho_store h1) = Store.st_db (ho_store h) → readable h1) as Hread.
  { intros h1 E. unfold readable. by rewrite E. }
  destruct (ho_index h !! dir) as [old|] eqn:Ed; [destruct (decide (id_root old = Some true)) as [Hroot|Hroot]|].
  - rewrite (bind_ok _ _ _ _ _ (schema_kept env store_message _ _ _ _ ltac:(rewrite Ed; by right))).
    destruct (index_filled env store_message index_message os dir h Hf Hr Hs) as (h' & docs & -> & Hdb & _ & Hdocs).
    exists (good_index dir (ho_index h !! dir ≫= id_root) docs h'), docs. rewrite good_index_opened, Hroot.
    split_and!; [done|exact Hdb|done|]. by destruct (BlockIndex.ix_committed (opened dir h)).
  - destruct (schema_rebuild env store_message os h old Hf Hr Hs Hn Ed Hroot) as (docs0 & Hrun & Hc0).
    rewrite (bind_ok _ _ _ _ _ Hrun). fold dir. set (h1 := good_index dir None docs0 _).
    destruct (index_filled env store_message index_message os dir h1 Hf (Hread _ eq_refl) Hs) as (h' & docs & -> & Hdb & Hix & Hdocs).
    exists (good_index dir (ho_index h1 !! dir ≫= id_root) docs h'), docs. rewrite good_index_opened.
    split_and!; [done|exact Hdb|done|].
    unfold h1 in Hdocs. rewrite good_index_opened in Hdocs. cbn [BlockIndex.ix_committed] in Hdocs.
    assert (complete h docs) as Hc by (destruct docs0; [done|by subst docs]).
    assert (complete h docs ∧ ho_index (good_index dir (ho_index h1 !! dir ≫= id_root) docs h') !! backup_dir os h = Some old ∧
      ho_index (good_index dir (ho_index h1 !! dir ≫= id_root) docs h') !! dir ≫= id_root = None) as Hall.
    { split; [exact Hc|]. rewrite good_index_root. unfold h1 at 2. rewrite good_index_root. split; [|done].
      unfold good_index at 1. cbn [on_index ho_index].
      rewrite lookup_insert_ne by (apply not_eq_sym, index_backup_other). rewrite Hix. unfold h1, good_index.
      cbn [on_index ho_index counted set_store]. rewrite lookup_insert_ne by (apply not_eq_sym, index_backup_other).
      apply lookup_insert_eq. }
    destruct (id_root old) as [[]|]; [done|exact Hall|exact Hall].
  - rewrite (bind_ok _ _ _ _ _ (schema_kept env store_message _ _ _ _ ltac:(by left))).
    destruct (index_filled env store_message index_message os dir h Hf Hr Hs) as (h' & docs & -> & Hdb & _ & Hdocs).
    exists (good_index dir (ho_index h !! dir ≫= id_root) docs h'), docs. rewrite good_index_opened.
    split_and!; [done|exact Hdb|done|]. unfold opened in Hdocs. by rewrite Ed in Hdocs.
Qed.

(** The migration to shards runs once. It never touches the daemon's own database
    or blobs; the sentinel is there afterwards exactly if it was there before or the
    migration succeeded, so that one that failed is tried again at the next start; a
    run after a success changes nothing; and after a failure the old database is still
    there to read. *)
Theorem migration_runs_once `{UuidText, LayoutJson, SqlOrder, Zstd, ChronoRange} rowid sh os h
    (Hw : ∀ content, mo_sentinel os ≠ CutShort content) :
  let '(h', r) := migrate_to_hybrid rowid sh os h in
  ho_store h' = ho_store h ∧ ho_created h' = ho_created h ∧
  (is_Some (ho_files h' !! sentinel_path sh) ↔ is_Some (ho_files h !! sentinel_path sh) ∨ is_ok r = true) ∧
  (is_ok r = true → ∀ os', mo_mkdir os' = true → migrate_to_hybrid rowid sh os' h' = (h', Ok AlreadyDone)) ∧
  database (legacy_db_path sh) h' = database (legacy_db_path sh) h.
Proof.
  destruct (mo_mkdir os) eqn:Hmk.
  2: { unfold migrate_to_hybrid, bind at 1. rewrite Hmk. cbn [require throw is_ok]. naive_solver. }
  assert (∃ o, ho_files h !! sentinel_path sh = o) as [[old|] Hn] by eauto.
  { assert (∀ os', mo_mkdir os' = true → migrate_to_hybrid rowid sh os' h = (h, Ok AlreadyDone)) as Hagain.
    { intros os' Hmk'. unfold migrate_to_hybrid, bind, require, gets. rewrite Hmk'. cbn [ret]. by rewrite Hn. }
    rewrite (Hagain os Hmk), Hn. naive_solver. }
  assert (∀ h1 ts backup (rep : MigrationReport), untouched sh h h1 →
    let '(h', r) := bind (write_sentinel (mo_sentinel os) sh ts backup) (λ _, ret rep) h1 in
    ho_store h' = ho_store h ∧ ho_created h' = ho_created h ∧
    (is_Some (ho_files h' !! sentinel_path sh) ↔ is_Some (ho_files h !! sentinel_path sh) ∨ is_ok r = true) ∧
    (is_ok r = true → ∀ os', mo_mkdir os' = true → migrate_to_hybrid rowid sh os' h' = (h', Ok AlreadyDone)) ∧
    database (legacy_db_path sh) h' = database (legacy_db_path sh) h) as Hlast.
  { intros h1 ts backup rep (Hst & Hcr & Hfi & Hdb). unfold bind.
    assert (∀ f, database (legacy_db_path sh) (on_files f h1) = database (legacy_db_path sh) h) as Hbase.
    { intros f. unfold database, store_db_path. cbn [on_files ho_store ho_created ho_dbs]. by rewrite Hst, Hcr, Hdb. }
    destruct (write_sentinel_run (mo_sentinel os) sh ts backup h1 Hw) as [-> | ->]; cbn [ret is_ok].
    - split_and!; [done..| |done|exact (Hbase (λ m, m))]. rewrite Hfi. naive_solver.
    - split_and!; [done..| | |apply Hbase]; cbn [on_files ho_files]; rewrite ?lookup_insert_eq; [naive_solver|].
      intros _ os' Hmk'. unfold migrate_to_hybrid, bind, require, gets. rewrite Hmk'. cbn [ret on_files ho_files].
      by rewrite lookup_insert_eq. }
  assert (∃ o, database (legacy_db_path sh) h = o) as [[db|] Hdb] by eauto.
  - rewrite (migrate_run rowid sh os h db Hmk Hn Hdb).
    pose proof (migrate_work_untouched h rowid sh os db h ltac:(done)) as Hwork. unfold bind at 1.
    destruct (migrate_work _ _ _ _ _ h) as [h1 [[]|e]]; cbn [fst] in Hwork; [by apply Hlast|].
    destruct Hwork as (Hst & Hcr & Hfi & Hd). cbn [is_ok]. split_and!; [done..| |done|].
    + rewrite Hfi. naive_solver.
    + unfold database, store_db_path. by rewrite Hst, Hcr, Hd.
  - assert (migrate_to_hybrid rowid sh os h =
      bind (write_sentinel (mo_sentinel os) sh (mo_stamp os) "") (λ _, ret NoLegacy) h) as ->; [|by apply Hlast].
    unfold migrate_to_hybrid. unfold bind at 1, require, bind at 1, gets at 1, bind at 1, gets at 1. rewrite Hmk. cbn [ret].
    by rewrite Hn, Hdb.
Qed.

(** the migration to shards copies every open pane and indexes every block. When
    nothing fails and the sentinel is missing, it reports the number of sessions and
    blocks of the old database, keeps that database and a copy of it, gives each
    session that has a pane or a block a shard - with exactly the rows of its panes
    that were not closed, the slot being the row's number - unless it has one, leaves
    all other shards, and leaves an index with one document per block. *)
Theorem migration_copies_panes `{UuidText, LayoutJson, SqlOrder, Zstd, ChronoRange} rowid sh os h db
    (Hs : smooth_migration os) (Hn : ho_files h !! sentinel_path sh = None)
    (Hdb : database (legacy_db_path sh) h = Some db) (Hd : distinct_rows rowid db) :
  ∃ h' ids backup docs,
    migrate_to_hybrid rowid sh os h = (h', Ok (Migrated (length ids) (size (Store.db_blocks db)) backup)) ∧
    NoDup ids ∧
    (∀ sid, sid ∈ ids ↔ (∃ k r, Store.db_panes db !! k = Some r ∧ Store.pr_session_id r = sid) ∨
                        (∃ k r, Store.db_blocks db !! k = Some r ∧ Store.br_session_id r = sid)) ∧
    database (legacy_db_path sh) h' = Some db ∧ ho_dbs h' !! backup = Some db ∧
    (∀ sid, sid ∈ ids → ho_shards h !! sid = None →
       ∃ shard : gmap Z (string * string), ho_shards h' !! sid = Some shard ∧
         ∀ slot sc, shard !! slot = Some sc ↔ open_row rowid db sid slot sc) ∧
    (∀ sid, sid ∉ ids ∨ is_Some (ho_shards h !! sid) → ho_shards h' !! sid = ho_shards h !! sid) ∧
    opened (index_dir sh) h' = BlockIndex.MkIndex docs [] ∧
    ∃ text, docs ≡ₚ (λ kr, BlockIndex.document (to_proto_block (mo_now os) (legacy_block kr)) (text kr))
                      <$> map_to_list (Store.db_blocks db).
Proof.
  pose proof (sm_mkdir os Hs) as Hmk. rewrite (migrate_run rowid sh os h db Hmk Hn Hdb).
  set (backup := Store.path_join _ _). unfold migrate_work.
  rewrite (sm_copy os Hs), (sm_connect os Hs), (sm_panes_sql os Hs), (sm_block_sids_sql os Hs), (sm_blocks_sql os Hs).
  set (ids := collect_session_ids true true db). cbn [require].
  set (h0 := on_dbs <[backup := db]> h).
  destruct (migrate_sessions_run rowid os db ids h0 Hs (collect_session_ids_NoDup _ _ _)) as (shards & Hrun & Hsh).
  destruct (rebuild_run os (index_dir sh) (collect_all_blocks true db) (on_shards (λ _, shards) h0) Hs) as (docs & Hreb & Hdocs).
  unfold bind at 1. unfold bind at 1, ret at 1. unfold bind at 1, modify at 1. fold h0. unfold bind at 1, ret at 1.
  rewrite (bind_ok _ _ _ _ _ Hrun), Hreb, (sm_sentinel os Hs). unfold write_sentinel, bind, modify, ret.
  assert (length (collect_all_blocks true db) = size (Store.db_blocks db)) as ->.
  { unfold collect_all_blocks. rewrite length_fmap, select_perm, filter_all, length_map_to_list by done. done. }
  eexists _, ids, backup, docs. split; [reflexivity|].
  split_and!; [apply collect_session_ids_NoDup|apply collect_session_ids_spec| | | | | |].
  - rewrite <- Hdb. unfold database, store_db_path. cbn [on_files good_index on_index on_shards h0 on_dbs ho_store ho_created ho_dbs].
    by rewrite lookup_insert_ne by apply backup_not_legacy.
  - cbn [on_files good_index on_index on_shards h0 on_dbs ho_dbs]. apply lookup_insert_eq.
  - intros sid Hin Hnew. exists (session_shard rowid db sid). split; [|intros; by apply session_shard_lookup].
    change (shards !! sid = Some (session_shard rowid db sid)). rewrite Hsh, decide_True by done.
    change (ho_shards h0) with (ho_shards h). by rewrite Hnew.
  - intros sid Hsid. change (shards !! sid = ho_shards h !! sid). rewrite Hsh. change (ho_shards h0) with (ho_shards h).
    destruct (decide (sid ∈ ids)); [|done]. by destruct Hsid as [?|[shard ->]].
  - unfold opened. cbn [on_files ho_index]. by rewrite good_index_root.
  - exists (λ kr, legacy_stdout (mo_partial os) (good_index (index_dir sh) None [] (on_shards (λ _, shards) h0)) (legacy_block kr)).
    rewrite Hdocs. unfold collect_all_blocks. rewrite <- list_fmap_compose, select_perm, filter_all by done. done.
Qed.

(** ** Witnesses, and what goes wrong *)
Section Witnesses.
#[local] Existing Instances binary_uuid binary_json stable_order no_compression chrono_0_4.

Definition pane_of (session argv : string) : Store.PaneRow :=
  Store.MkPaneRow session argv (Some "/w") 80 24 0 None None None.
Definition block_row : Store.BlockRow :=
  Store.MkBlockRow (uuid_to_string 3) (uuid_to_string 2) "make" 1000 (Some 2000) (Some 1) None "/no/blob" 0.
Definition old_db : Store.Db :=
  Store.MkDb ∅ {["p1" := pane_of "s" "zsh"; "p2" := pane_of "s" "bash"]} {[uuid_to_string 9 := block_row]} ∅.
Definition row_number (k : string) : Z := if decide (k = "p1") then 1 else 2.
Definition ready : MigrateOs :=
  MkMigrateOs true true true true true true (λ _, Opened) (λ _, true) (λ _ _, true) true Opened (λ _, (true, true))
    (λ _, None) 0 Written "T" "S".
Definition host_with (db : Store.Db) : Host :=
  MkHost (fresh_store "/home/u/.local/share/pyre") false {["/home/u/.local/state/pyre/state.db" := db]} ∅ ∅ ∅.
Definition state : string := "/home/u/.local/state".

Lemma migration_runs_once_witness :
  let '(h', r) := migrate_to_hybrid row_number state ready (host_with old_db) in
  is_ok r = true ∧ migrate_to_hybrid row_number state ready h' = (h', Ok AlreadyDone).
Proof.
  pose proof (migration_runs_once row_number state ready (host_with old_db) ltac:(done)) as Hm.
  assert (is_ok (migrate_to_hybrid row_number state ready (host_with old_db)).2 = true) as Hok by (vm_compute; reflexivity).
  destruct (migrate_to_hybrid row_number state ready (host_with old_db)) as [h' r]. cbn [snd] in Hok.
  destruct Hm as (_ & _ & _ & Hagain & _). split; [exact Hok|]. apply Hagain; [exact Hok|reflexivity].
Defined.

Lemma migration_copies_panes_witness :
  ∃ h' ids backup, migrate_to_hybrid row_number state ready (host_with old_db) = (h', Ok (Migrated (length ids) 1 backup)) ∧
    "s" ∈ ids ∧
    ∃ shard : gmap Z (string * string), ho_shards h' !! "s" = Some shard ∧ shard !! 1 = Some ("zsh", "/w").
Proof.
  destruct (migration_copies_panes row_number state ready (host_with old_db) old_db) as
    (h' & ids & backup & docs & Hrun & _ & Hids & _ & _ & Hsh & _).
  - by constructor.
  - reflexivity.
  - vm_compute; reflexivity.
  - assert (∀ k, is_Some (Store.db_panes old_db !! k) → k = "p1" ∨ k = "p2") as Hk.
    { intros k [r Hr]. unfold old_db in Hr. cbn [Store.db_panes] in Hr.
      apply lookup_insert_Some in Hr as [[<- _]|[_ Hr]]; [by left|]. apply lookup_singleton_Some in Hr as [<- _]. by right. }
    intros k1 k2 [-> | ->]%Hk [-> | ->]%Hk; done.
  - exists h', ids, backup. split; [exact Hrun|].
    assert ("s" ∈ ids) as Hin by (apply Hids; left; exists "p1", (pane_of "s" "zsh"); split; [vm_compute; reflexivity|reflexivity]).
    split; [exact Hin|]. destruct (Hsh "s" Hin eq_refl) as (shard & Hs & Hrows). exists shard. split; [exact Hs|].
    apply Hrows. exists "p1", (pane_of "s" "zsh"). split_and!; [vm_compute; reflexivity|reflexivity..].
Defined.

(** A start after a first one: the index lies in [v3], and nothing at the root. *)
Definition started_once : Host :=
  MkHost (Store.MkSt 0 0 0 (Store.MkDb ∅ ∅ {[uuid_to_string 9 := block_row]} ∅) ∅ "/d") true ∅
    {["/d/index" := MkIndexDir None (Some (BlockIndex.MkIndex [] []))]} ∅ ∅.
Definition good_start : StartOs :=
  MkStartOs (MkSchemaOs true true Opened (λ _, Ok []) (λ _, (true, true)) "S") Opened
    (MkBackfillOs true (λ _, None) (λ _, true) (λ _, true)).

Lemma search_complete_at_start_witness :
  ∃ h' docs, open_search calm (λ _, "") (λ _, "") good_start started_once = (h', Ok tt) ∧
    complete started_once docs ∧ opened "/d/index" h' = BlockIndex.MkIndex docs [] ∧
    is_Some (ho_index h' !! "/d/index.bak.S").
Proof.
  destruct (search_complete_at_start calm (λ _, "") (λ _, "") good_start started_once) as (h' & docs & Hrun & _ & Hop & Hrest).
  - done.
  - split; [|vm_compute; discriminate]. apply map_Forall_singleton. unfold row_ok. cbn [block_row Store.br_pane_id Store.br_session_id].
    rewrite !uuid_parse_to_string. split_and!; eauto.
  - by constructor.
  - reflexivity.
  - exists h', docs. split; [exact Hrun|]. destruct Hrest as (Hc & Hb & _). split; [exact Hc|]. split; [exact Hop|].
    change "/d/index.bak.S" with (backup_dir good_start started_once). rewrite Hb. by eexists.
Defined.

(** A migration that failed between two panes of a session is not finished by the next
    one: the shard is there, so the session is skipped, and its second pane is lost. *)
Definition second_refused : MigrateOs :=
  MkMigrateOs true true true true true true (λ _, Opened) (λ _, true) (λ _ slot, slot =? 1) true Opened (λ _, (true, true))
    (λ _, None) 0 Written "T" "S".
Lemma half_copied_shard_kept :
  let '(h1, r1) := migrate_to_hybrid row_number state second_refused (host_with old_db) in
  let '(h2, r2) := migrate_to_hybrid row_number state ready h1 in
  is_ok r1 = false ∧ is_ok r2 = true ∧ ho_shards h2 !! "s" = Some ({[1 := ("zsh", "/w")]} : Worker.Shard).
Proof. vm_compute. split_and!; reflexivity. Qed.

(** With no variable set, the store lies under ~/.local/share and the migration looks
    under ~/.local/state: the database of the single process is not found, and the
    sentinel says that the migration is done. *)
Definition default_host : Host :=
  MkHost (Store.MkSt 0 0 0 old_db ∅ (Store.resolve_data_dir None (Some "/home/u/.local/share"))) true ∅ ∅ ∅ ∅.
Lemma default_store_not_migrated :
  let sh := state_home None (Some "/home/u") in
  let '(h', r) := migrate_to_hybrid row_number sh ready default_host in
  r = Ok NoLegacy ∧ ho_shards h' = ∅ ∧ is_Some (ho_files h' !! sentinel_path sh).
Proof. vm_compute. split_and!; [reflexivity|reflexivity|by eexists]. Qed.
End Witnesses.

(** No operation of the store closes the row of a pane, so that a migration opens
    every pane there ever was. *)
Lemma panes_never_closed `{UuidText, LayoutJson, SqlOrder, Zstd, ChronoRange} env op :
  keeps (λ st, map_Forall (λ _ r, Store.pr_closed_at r = None) (Store.db_panes (Store.st_db st))) (run_op env op).
Proof.
  set (I := λ st, map_Forall _ _).
  assert (∀ f, (∀ db, map_Forall (λ _ r, Store.pr_closed_at r = None) (Store.db_panes db) →
    map_Forall (λ _ r, Store.pr_closed_at r = None) (Store.db_panes (f db))) → keeps I (Store.execute env f)) as Hex.
  { intros f. apply (keeps_execute env (λ db, map_Forall (λ _ r, Store.pr_closed_at r = None) (Store.db_panes db))). }
  assert (∀ id s t, keeps I (Store.ensure_pane_row env id s t)) as Hensure.
  { intros id s t. apply Hex. intros db Hdb. cbn [Store.with_panes Store.db_panes].
    destruct (Store.db_panes db !! Store.pane_key id); [done|]. by apply map_Forall_insert_2. }
  assert (∀ f id, (∀ r, Store.pr_closed_at r = None → Store.pr_closed_at (f r) = None) →
    keeps I (Store.execute env (Store.with_panes (alter f id)))) as Halter.
  { intros f id Hf. apply Hex. intros db Hdb k r. cbn [Store.with_panes Store.db_panes]. rewrite lookup_alter_Some.
    intros [(-> & r0 & Hr0 & ->)|[_ Hr]]; [|by apply (Hdb k)]. by apply Hf, (Hdb k). }
  destruct op; cbn [run_op]; unfold Store.upsert_session, Store.upsert_session_layout, Store.upsert_pane, Store.rename_pane,
    Store.assign_pane_window, Store.upsert_window, Store.upsert_window_layout, Store.rename_window, Store.delete_window,
    Store.finalize_block, Store.create_block;
    repeat (apply keeps_bind; [first [by intros st|apply Hensure]|intros ?]);
    try (apply Hex; by intros []); try (apply Halter; by intros []).
  - apply Hex. intros db Hdb. cbn [Store.with_panes Store.db_panes]. apply map_Forall_insert_2; [|done].
    destruct (Store.db_panes db !! Store.pane_key id) as [r|] eqn:E; [|done]. exact (Hdb _ _ E).
  - apply (keeps_query env (λ db, map_Forall (λ _ r, Store.pr_closed_at r = None) (Store.db_panes db))).
    intros db db' u Hp. by destruct (Store.db_blocks db !! _); intros [= <- <-].
Qed.
