(* ===== verification/Boot.v ===== *)
(** * Boot: configuration, hooks and the choice of the mode (pyred/src/config.rs, hooks.rs, main.rs)

    TOML is a parameter; so are the answers of the file system and of the socket of a
    daemon that runs already. *)
From Stdlib Require Import Strings.Byte.
From S2P Require Import Prelude Proto Text Layout Libraries Effects PaneTracker Store BlockIndex Worker Migration.
Local Open Scope Z_scope.
Import Migration.

Module Boot.

(** ** [config.rs] *)
Inductive ProcessModel := Single | Hybrid.
Record Config := MkConfig { cf_process_model : ProcessModel; cf_migration_completed : bool }.
Definition default_config : Config := MkConfig Single false.

Inductive FileIo := Absent | Unreadable | Text (content : string).
Inductive ConfigError := ReadConfig | ParseConfig.

Definition config_path (xdg config_dir : option string) : string :=
  match xdg with
  | Some d => Store.path_join (Store.path_join d "pyre") "config.toml"
  | None => Store.path_join (Store.path_join (default "~/.config" config_dir) "pyre") "config.toml"
  end.

Definition load_config (parse : string → option Config) (file : FileIo) : result ConfigError Config :=
  match file with
  | Absent => Ok default_config
  | Unreadable => Err ReadConfig
  | Text content => ok_or (parse content) ParseConfig
  end.

(** ** [hooks.rs] *)
Record HooksConfig := MkHooksConfig { hk_webhook : option string; hk_notify_send : bool }.
Definition no_hooks : HooksConfig := MkHooksConfig None false.

Definition hooks_path (xdg home : option string) : string :=
  let base := match xdg with Some d => d | None => Store.path_join (default "/tmp" home) ".config" end in
  Store.path_join (Store.path_join base "pyre") "hooks.toml".

(** Never an error: what cannot be read or parsed counts as empty. *)
Definition load_hooks (parse : string → option HooksConfig) (file : FileIo) : HooksConfig :=
  match file with Text content => default no_hooks (parse content) | _ => no_hooks end.

Inductive HookEffect :=
  | Post (url : string) (payload : list (string * string))
  | NotifySend (title body : string).

Section Boot.
Context `{UuidText, LayoutJson, SqlOrder, Zstd, ChronoRange}.

Definition short (u : Uuid) : string := bytes_str (take 8 (str_bytes (uuid_to_string u))).

(** On Linux; [ts] is the time of the call. *)
Definition fire_state_change (ts : string) (cfg : HooksConfig) (session : SessionId) (pane : PaneId)
    (state : PaneStateKind) (reason : string) : list HookEffect :=
  match hk_webhook cfg with
  | Some url =>
      [Post url [("session", uuid_to_string (session_uuid session)); ("pane", uuid_to_string (pane_uuid pane));
                 ("state", PaneStateKind_to_string state); ("reason", reason); ("ts", ts)]]
  | None => []
  end ++
  (if hk_notify_send cfg && bool_decide (state = WaitingInput)
   then [NotifySend "pyre" ("pane " +:+ short (pane_uuid pane) +:+ " waiting for input")] else []).

(** What one round of the state engine fires, in order. *)
Definition fire_changes (ts : string) (cfg : HooksConfig) (changes : list (SessionId * PaneId * PaneStateKind * string)) :
    list HookEffect :=
  flat_map (λ c, let '(s, p, st, r) := c in fire_state_change ts cfg s p st r) changes.

(** ** [main.rs] *)
Inductive DaemonMode := ModeSupervisor | ModeWorker.

Definition socket_path (xdg : option string) (uid : Z) : string :=
  match xdg with
  | Some rt => Store.path_join rt "pyre.sock"
  | None => "/tmp/pyre-" +:+ bytes_str (show_uint uid) +:+ ".sock"
  end.

(** What the process becomes. *)
Inductive Role := WorkerProcess | AlreadyRunning | SingleDaemon | HybridDaemon (report : MigrationReport).

Context (env : Store.Env) (store_message : Store.StoreError → string) (index_message : BlockIndex.IndexError → string)
  (config_message : ConfigError → string).

(** [answers]: a daemon answers on the socket; a socket nobody serves is removed. *)
Definition main (rowid : string → Z) (sh : string) (mode : DaemonMode) (parse : string → option Config) (file : FileIo)
    (answers : bool) (mo : MigrateOs) (os : StartOs) : HostM Role :=
  match mode with
  | ModeWorker => ret WorkerProcess
  | ModeSupervisor =>
      let! cfg := of_result (result_map_err config_message (load_config parse file)) in
      if answers then ret AlreadyRunning
      else match cf_process_model cfg with
           | Single => do! open_all env store_message index_message os in ret SingleDaemon
           | Hybrid =>
               let! report := start_hybrid env store_message index_message rowid sh mo os in
               ret (HybridDaemon report)
           end
  end.

(** ** Lemmas *)

(** One notification for each pane that starts to wait, and none else. *)
Lemma notifications_count ts cfg changes :
  length (filter (λ e, match e with NotifySend _ _ => true | _ => false end = true) (fire_changes ts cfg changes)) =
  if hk_notify_send cfg then length (filter (λ c, c.1.2 = WaitingInput) changes) else 0%nat.
Proof.
  induction changes as [|[[[s p] st] r] changes IH]; [by destruct (hk_notify_send cfg)|].
  cbn [fire_changes flat_map]. fold (fire_changes ts cfg changes). unfold fire_state_change.
  rewrite !filter_app, !length_app, IH, filter_cons. cbn [fst snd].
  assert (length (filter (λ e, match e with NotifySend _ _ => true | _ => false end = true)
    match hk_webhook cfg with Some url => [Post url [("session", uuid_to_string (session_uuid s)); ("pane", uuid_to_string (pane_uuid p));
      ("state", PaneStateKind_to_string st); ("reason", r); ("ts", ts)]] | None => [] end) = 0%nat) as -> by by destruct (hk_webhook cfg).
  destruct (hk_notify_send cfg); cbn [andb]; [|done]. by case_bool_decide as Hst; destruct (decide (st = WaitingInput)).
Qed.

Definition same_outside (h0 h : Host) : Prop :=
  ho_shards h = ho_shards h0 ∧ ho_files h = ho_files h0 ∧ ho_dbs h = ho_dbs h0.

Lemma keeps_index_step (h0 : Host) f : keeps (E := string) (same_outside h0) (modify (on_index f)).
Proof. by intros h Hh. Qed.
Lemma keeps_store {A} (h0 : Host) (m : Store.S A) : keeps (same_outside h0) (Migration.store store_message m).
Proof. intros h Hh. unfold Migration.store, zoom. by destruct (m (ho_store h)). Qed.
#[local] Hint Resolve keeps_ret keeps_throw keeps_gets keeps_of_result keeps_index_step keeps_store : core.

Lemma require_outside h0 ok c : keeps (same_outside h0) (require ok c).
Proof. unfold require. destruct ok; auto. Qed.
Lemma add_blocks_outside {B} h0 engine dir (doc : B → Block * string) i blocks :
  keeps (same_outside h0) (add_blocks engine dir doc i blocks).
Proof.
  revert i. induction blocks as [|b blocks IH]; intros i; cbn [add_blocks]; [auto|].
  apply keeps_bind; [by intros h Hh|]. intros _. apply IH.
Qed.
Lemma open_index_outside h0 io dir : keeps (same_outside h0) (open_index io dir).
Proof. unfold open_index. destruct io; [auto|apply keeps_bind; auto|auto]. Qed.

Lemma open_all_outside h0 os : keeps (same_outside h0) (open_all env store_message index_message os).
Proof.
  unfold open_all, open_store, open_search. apply keeps_bind; [apply keeps_bind; [by intros h Hh|auto]|].
  intros _. apply keeps_bind; [auto|]. intros dir. apply keeps_bind; [auto|]. intros parent. apply keeps_bind.
  - unfold maybe_migrate_tantivy_schema. apply keeps_bind; [auto|]. intros h. destruct (ho_index h !! dir); [|auto].
    assert (keeps (same_outside h0)
      (do! rename_dir (so_rename (sa_schema os)) dir (Store.path_join parent ("index.bak." +:+ so_suffix (sa_schema os))) in
       do! require (so_mkdir (sa_schema os)) ("mkdir " +:+ dir) in
       do! modify (on_index <[dir := empty_dir]>) in
       do! open_index (so_index (sa_schema os)) dir in
       let! all_blocks := Migration.store store_message (Store.list_blocks env None U32_MAX) in
       let! h := gets (λ h, h) in
       add_blocks (so_engine (sa_schema os)) dir
         (λ b, (b, Store.stdout_snippet (so_partial (sa_schema os) (blk_id b)) (blk_id b) MAX_CHARS (ho_store h))) 0 all_blocks)) as Hk.
    { apply keeps_bind.
      { unfold rename_dir. apply keeps_bind; [auto|]. intros h1. destruct (ho_index h1 !! dir); [|auto]. by case_match; auto. }
      intros _. apply keeps_bind; [apply require_outside|]. intros _. apply keeps_bind; [auto|]. intros _.
      apply keeps_bind; [apply open_index_outside|]. intros _. apply keeps_bind; [auto|]. intros bs.
      apply keeps_bind; [auto|]. intros h1. apply add_blocks_outside. }
    destruct (tantivy_has_exit_code_field dir h) as [[]|]; auto.
  - intros _. apply keeps_bind; [apply open_index_outside|]. intros _. unfold backfill_index_if_empty.
    apply keeps_bind; [auto|]. intros h. apply keeps_bind; [auto|]. intros n. destruct (0 <? n); [auto|].
    apply keeps_bind; [auto|]. intros m. destruct (m =? 0); [auto|]. apply keeps_bind; [auto|]. intros bs.
    apply keeps_bind; [auto|]. intros h1. apply keeps_bind; [by intros h2 Hh2|]. intros _. apply keeps_bind; auto.
Qed.
End Boot.

(** ** Properties *)

(** What a start may touch. A process started as a worker, one whose
    configuration cannot be read, and one that finds a daemon on the socket change
    nothing on disk; a daemon configured for the single process, and one without a
    configuration, leave the shards, the sentinel and the databases of others alone,
    whatever succeeds or fails. *)
Theorem start_stays_inside `{UuidText, LayoutJson, SqlOrder, Zstd, ChronoRange} env store_message index_message config_message
    rowid sh mode parse file answers mo os h :
  let '(h', r) := main env store_message index_message config_message rowid sh mode parse file answers mo os h in
  (mode = ModeWorker ∨ is_ok (load_config parse file) = false ∨ answers = true → h' = h) ∧
  ((∀ cfg, load_config parse file = Ok cfg → cf_process_model cfg = Single) → same_outside h h') ∧
  (r = Ok AlreadyRunning → answers = true ∧ mode = ModeSupervisor).
Proof.
  unfold main. destruct mode; [|by split_and!].
  unfold bind at 1, of_result. destruct (load_config parse file) as [cfg|e] eqn:E; cbn [result_map_err is_ok]; [|by split_and!].
  destruct answers; [by split_and!|].
  assert (¬ (ModeSupervisor = ModeWorker ∨ true = false ∨ false = true)) as Hno by (by intros [?|[?|?]]).
  destruct (cf_process_model cfg) eqn:Em.
  - pose proof (open_all_outside env store_message index_message h os h ltac:(done)) as Hk. unfold bind.
    destruct (open_all _ _ _ os h) as [h' [[]|e]]; cbn [fst] in Hk; by split_and!.
  - unfold bind. destruct (start_hybrid _ _ _ _ _ _ _ h) as [h' [rep|e]]; cbn [ret];
      (split_and!; [done| |done]; intros Hs; by rewrite (Hs cfg eq_refl) in Em).
Qed.
End Boot.
