(* ===== verification/Serve.v ===== *)
(** * Serve: daemons and the sockets they share (pyred/src/main.rs, supervisor.rs)

    The start and the end of a daemon as the file system sees them: [main] looks at the
    socket and dials it, [run_single] and [supervisor::run] open the store, bind and
    serve until a signal or an accept error. Any number of processes, each at a step of
    its own, over one directory of socket files. Opening store and index is in Boot and
    Migration; here it succeeds or not. *)
From S2P Require Import Prelude Proto Libraries Store Registry Boot.
From coqutil Require Export Datatypes.RecordSettersUsingExistingGetters.
Import Boot.

Module Serve.

(** ** State *)
Inductive Exit :=
  | AlreadyRunning | OpenFailed | MkdirFailed | BindFailed | ChmodFailed
  | AcceptFailed                 (** [run] returns [Ok] *)
  | Signalled | Crashed.

(** What a process does next. *)
Inductive Phase :=
  | Look | Dial | Unlink | Open
  | Mkdir | UnlinkCallback | BindCallback | ChmodCallback    (** the socket the workers dial *)
  | Bind | Chmod | Serving | Closing
  | Gone (e : Exit).

Record Proc := MkProc {
  pr_model : ProcessModel;
  pr_phase : Phase;
  pr_killed : list PaneId }.     (** history: panes killed at the end *)

(** A socket file leads to the process that bound it. *)
Record World := MkWorld {
  w_sockets : gmap string nat;
  w_procs : list Proc }.

Definition new_proc (m : ProcessModel) : Proc := MkProc m Look [].
Definition goto (ph : Phase) : Proc → Proc := set pr_phase (λ _, ph).
Definition on_proc (p : nat) (f : Proc → Proc) (w : World) : World := w <| w_procs ::= alter f p |>.
Definition unlink (path : string) (w : World) : World := w <| w_sockets ::= delete path |>.
Definition bind_to (path : string) (p : nat) (w : World) : World := w <| w_sockets ::= <[path := p]> |>.

(** The listener of the public socket lives from [bind] to the end of [run]. *)
Definition listening (pr : Proc) : bool :=
  match pr_phase pr with Chmod | Serving | Closing => true | _ => false end.
(** [UnixStream::connect]: the file is there and somebody listens. *)
Definition answers (path : string) (w : World) : bool :=
  match w_sockets w !! path with
  | Some p => from_option listening false (w_procs w !! p)
  | None => false
  end.

(** What the signal handler of the single process kills: every pane of every session. *)
Definition shutdown_panes (r : Registry.Reg) : list PaneId :=
  flat_map (λ kv, fst <$> map_to_list (Registry.se_panes kv.2)) (map_to_list (Registry.rg_sessions r)).

Section Steps.
Context (path callback : string).

(** The next step of process [p], which is in a phase; [ok] is the outcome of the
    operation, where it has one. *)
Definition next (p : nat) (ph : Phase) (w : World) : option World := Some (on_proc p (goto ph) w).

(** [main]: a socket somebody answers on ends the start; another is removed, and a
    failure to remove it ignored. *)
Definition main_start (ok : bool) (p : nat) (ph : Phase) (w : World) : option World :=
  match ph with
  | Look => next p (if decide (is_Some (w_sockets w !! path)) then Dial else Open) w
  | Dial => next p (if answers path w then Gone AlreadyRunning else Unlink) w
  | Unlink => next p Open (if ok then unlink path w else w)
  | _ => None
  end.

Definition bind_public (p : nat) (w : World) : option World :=
  if decide (is_Some (w_sockets w !! path)) then next p (Gone BindFailed) w else next p Chmod (bind_to path p w).

Definition run_single (ok : bool) (p : nat) (ph : Phase) (w : World) : option World :=
  match ph with
  | Open => next p (if ok then Bind else Gone OpenFailed) w
  | Bind => bind_public p w
  | Chmod => next p (if ok then Serving else Gone ChmodFailed) w
  | Serving => if ok then None else next p (Gone AcceptFailed) w
  | Closing => next p (Gone Signalled) (if ok then unlink path w else w)
  | _ => None
  end.

(** [supervisor::run]; [main] opens store and index before. *)
Definition run_supervisor (ok : bool) (p : nat) (ph : Phase) (w : World) : option World :=
  match ph with
  | Open => next p (if ok then Mkdir else Gone OpenFailed) w
  | Mkdir => next p (if ok then UnlinkCallback else Gone MkdirFailed) w
  | UnlinkCallback => next p BindCallback (if ok then unlink callback w else w)
  | BindCallback =>
      if decide (is_Some (w_sockets w !! callback)) then next p (Gone BindFailed) w
      else next p ChmodCallback (bind_to callback p w)
  | ChmodCallback => next p (if ok then Bind else Gone ChmodFailed) w
  | Bind => bind_public p w
  | Chmod => next p (if ok then Serving else Gone ChmodFailed) w
  | Serving => if ok then None else next p (Gone AcceptFailed) w
  | Closing => next p (Gone Signalled) (if ok then unlink callback (unlink path w) else w)
  | _ => None
  end.

Definition advance (ok : bool) (p : nat) (w : World) : option World :=
  pr ← w_procs w !! p;
  match pr_phase pr with
  | (Look | Dial | Unlink) as ph => main_start ok p ph w
  | ph => match pr_model pr with Single => run_single ok p ph w | Hybrid => run_supervisor ok p ph w end
  end.

(** SIGTERM or SIGINT while serving. *)
Definition signal (r : Registry.Reg) (p : nat) (w : World) : option World :=
  pr ← w_procs w !! p;
  match pr_phase pr with
  | Serving =>
      Some (on_proc p (λ pr, match pr_model pr with
                             | Single => pr <| pr_phase := Closing |> <| pr_killed := shutdown_panes r |>
                             | Hybrid => pr <| pr_phase := Closing |>
                             end) w)
  | _ => None
  end.
(** The process dies where it stands. *)
Definition crash (p : nat) (w : World) : option World :=
  pr ← w_procs w !! p;
  match pr_phase pr with Gone _ => None | _ => Some (on_proc p (goto (Gone Crashed)) w) end.

Inductive Label :=
  | Launch (m : ProcessModel)
  | Advance (ok : bool) (p : nat)
  | Signal (r : Registry.Reg) (p : nat)
  | Crash (p : nat).
Definition exec (l : Label) (w : World) : option World :=
  match l with
  | Launch m => Some (w <| w_procs ::= λ l, l ++ [new_proc m] |>)
  | Advance ok p => advance ok p w
  | Signal r p => signal r p w
  | Crash p => crash p w
  end.
Fixpoint execs (ls : list Label) (w : World) : option World :=
  match ls with [] => Some w | l :: ls' => w' ← exec l w; execs ls' w' end.

(** ** What holds *)
(** Between having seen no daemon and having a socket. *)
Definition taking_over (pr : Proc) : bool :=
  match pr_phase pr with
  | Unlink | Open | Mkdir | UnlinkCallback | BindCallback | ChmodCallback | Bind => true
  | _ => false
  end.
Definition starters (w : World) : nat := length (filter (λ pr, taking_over pr = true) (w_procs w)).
(** At most one start at a time, all along. *)
Fixpoint one_at_a_time (ls : list Label) (w : World) : Prop :=
  (starters w ≤ 1)%nat ∧
  match ls with
  | [] => True
  | l :: ls' => match exec l w with Some w' => one_at_a_time ls' w' | None => True end
  end.

Definition socket_ok (w : World) : Prop :=
  (∀ p pr, w_procs w !! p = Some pr → listening pr = true → w_sockets w !! path = Some p) ∧
  (∀ p pr q pr', w_procs w !! p = Some pr → taking_over pr = true → w_procs w !! q = Some pr' → listening pr' = false).

Context (Hpaths : path ≠ callback).

Lemma proc_alter p f w q pr' :
  alter f p (w_procs w) !! q = Some pr' →
  (q = p ∧ ∃ pr, w_procs w !! p = Some pr ∧ pr' = f pr) ∨ (q ≠ p ∧ w_procs w !! q = Some pr').
Proof.
  destruct (decide (q = p)) as [->|Hne].
  - rewrite list_lookup_alter_eq. intros (pr & ? & ->)%fmap_Some. left. eauto.
  - rewrite list_lookup_alter_ne by done. by right.
Qed.

Lemma starters_two w p q pr pr' :
  p ≠ q → w_procs w !! p = Some pr → w_procs w !! q = Some pr' → taking_over pr = true → taking_over pr' = true →
  (2 ≤ starters w)%nat.
Proof.
  intros Hne Hp Hq Ht Ht'. unfold starters.
  assert (∀ l, ∀ i x, l !! i = Some x → taking_over x = true → (1 ≤ length (filter (λ pr, taking_over pr = true) l))%nat) as Hone.
  { intros l i x Hi Hx. destruct (filter _ l) as [|y ys] eqn:E; [|cbn; lia].
    assert (x ∈ filter (λ pr, taking_over pr = true) l) as Hin by (apply list_elem_of_filter; split; [done|by eapply list_elem_of_lookup_2]).
    rewrite E in Hin. by apply elem_of_nil in Hin. }
  assert (∀ i j x y, (i < j)%nat → w_procs w !! i = Some x → w_procs w !! j = Some y → taking_over x = true → taking_over y = true →
    (2 ≤ length (filter (λ pr, taking_over pr = true) (w_procs w)))%nat) as Htwo.
  { intros i j x y Hij Hi Hj Hx Hy. rewrite <- (take_drop (S i) (w_procs w)), filter_app, length_app.
    assert (take (S i) (w_procs w) !! i = Some x) as Hi' by (rewrite lookup_take_lt; [done|lia]).
    assert (drop (S i) (w_procs w) !! (j - S i)%nat = Some y) as Hj' by (rewrite lookup_drop; rewrite <- Hj; f_equal; lia).
    pose proof (Hone _ _ _ Hi' Hx). pose proof (Hone _ _ _ Hj' Hy). lia. }
  destruct (Nat.lt_total p q) as [Hlt|[->|Hlt]]; [by eapply (Htwo p q)|done|by eapply (Htwo q p)].
Qed.

(** A step of [p] alone keeps the invariant if the others do not notice. *)
Lemma serve_step_ok p pr f w w' :
  w_procs w !! p = Some pr → w_procs w' = alter f p (w_procs w) →
  (∀ q pr', q ≠ p → w_procs w !! q = Some pr' → listening pr' = true → w_sockets w' !! path = w_sockets w !! path) →
  (listening (f pr) = true → w_sockets w' !! path = Some p) →
  (taking_over (f pr) = true → ∀ q pr', q ≠ p → w_procs w !! q = Some pr' → listening pr' = false) →
  (listening (f pr) = true → ∀ q pr', q ≠ p → w_procs w !! q = Some pr' → taking_over pr' = false) →
  socket_ok w → socket_ok w'.
Proof.
  intros Hp Hprocs Hkeep Hlisten Htake Hfree [HA HB]. split.
  - intros q pr' Hq Hl. rewrite Hprocs in Hq. apply proc_alter in Hq as [[-> (pr0 & Hpr & ->)]|[Hne Hq]].
    + simplify_eq. by apply Hlisten.
    + rewrite (Hkeep q pr' Hne Hq Hl). by apply (HA q pr').
  - intros a pra b prb Ha Hta Hb. rewrite Hprocs in Ha, Hb.
    apply proc_alter in Ha as [[-> (pr0 & Hpr & ->)]|[Hnea Ha]], Hb as [[-> (pr1 & Hpr' & ->)]|[Hneb Hb]]; simplify_eq.
    + destruct (f pr) as [? [] ?]; done.
    + by apply (Htake Hta b).
    + destruct (listening (f pr)) eqn:El; [|done]. by rewrite (Hfree eq_refl a pra) in Hta.
    + by apply (HB a pra b prb).
Qed.

(** The cases: nobody else listens while [p] takes over, nor while [p] listens. *)
Lemma quiet_while_taking p pr w : socket_ok w → w_procs w !! p = Some pr → taking_over pr = true →
  ∀ q pr', w_procs w !! q = Some pr' → listening pr' = false.
Proof. intros [_ HB] Hp Ht q pr' Hq. by apply (HB p pr q pr'). Qed.
Lemma quiet_while_listening p pr w : socket_ok w → w_procs w !! p = Some pr → listening pr = true →
  ∀ q pr', q ≠ p → w_procs w !! q = Some pr' → listening pr' = false ∧ taking_over pr' = false.
Proof.
  intros [HA HB] Hp Hl q pr' Hne Hq. split.
  - destruct (listening pr') eqn:El; [|done]. pose proof (HA p pr Hp Hl). pose proof (HA q pr' Hq El). congruence.
  - destruct (taking_over pr') eqn:Et; [|done]. rewrite (HB q pr' p pr Hq Et Hp) in Hl. done.
Qed.
Lemma quiet_unless_answered w : socket_ok w → answers path w = false → ∀ q pr', w_procs w !! q = Some pr' → listening pr' = false.
Proof.
  intros [HA _] Ha q pr' Hq. destruct (listening pr') eqn:El; [|done]. unfold answers in Ha.
  rewrite (HA q pr' Hq El), Hq in Ha. cbn in Ha. congruence.
Qed.

Definition nobody_else (f : Proc → bool) (p : nat) (w : World) : Prop :=
  ∀ q pr', q ≠ p → w_procs w !! q = Some pr' → f pr' = false.

Lemma idle_step p pr f w w' :
  w_procs w !! p = Some pr → w_procs w' = alter f p (w_procs w) → listening (f pr) = false → taking_over (f pr) = false →
  w_sockets w' !! path = w_sockets w !! path ∨ nobody_else listening p w → socket_ok w → socket_ok w'.
Proof.
  intros Hp Hprocs Hl Ht Hor. apply (serve_step_ok p pr f w w' Hp Hprocs); try congruence.
  intros q pr' Hne Hq Hlq. destruct Hor as [?|Hno]; [done|]. rewrite (Hno q pr' Hne Hq) in Hlq. done.
Qed.
Lemma taking_step p pr f w w' :
  w_procs w !! p = Some pr → w_procs w' = alter f p (w_procs w) → listening (f pr) = false →
  nobody_else listening p w → socket_ok w → socket_ok w'.
Proof.
  intros Hp Hprocs Hl Hno. apply (serve_step_ok p pr f w w' Hp Hprocs); try congruence; [|done].
  intros q pr' Hne Hq Hlq. rewrite (Hno q pr' Hne Hq) in Hlq. done.
Qed.
Lemma listening_step p pr f w w' :
  w_procs w !! p = Some pr → w_procs w' = alter f p (w_procs w) → w_sockets w' !! path = Some p → taking_over (f pr) = false →
  nobody_else listening p w → nobody_else taking_over p w → socket_ok w → socket_ok w'.
Proof.
  intros Hp Hprocs Hs Ht Hno Hnt. apply (serve_step_ok p pr f w w' Hp Hprocs); try congruence; [|done].
  intros q pr' Hne Hq Hlq. rewrite (Hno q pr' Hne Hq) in Hlq. done.
Qed.

Lemma advance_ok ok p w w' :
  advance ok p w = Some w' → (starters w ≤ 1)%nat → socket_ok w → socket_ok w'.
Proof.
  unfold advance. intros (pr & Hp & He)%bind_Some Hone Hok.
  assert (taking_over pr = true → nobody_else taking_over p w) as Hsole.
  { intros Ht q pr' Hne Hq. destruct (taking_over pr') eqn:Et; [|done].
    pose proof (starters_two w p q pr pr' (not_eq_sym Hne) Hp Hq Ht Et). lia. }
  assert (taking_over pr = true → nobody_else listening p w) as Hquiet.
  { intros Ht q pr' _ Hq. by apply (quiet_while_taking p pr w Hok Hp Ht q). }
  assert (listening pr = true → nobody_else listening p w ∧ nobody_else taking_over p w ∧ w_sockets w !! path = Some p) as Hlone.
  { intros Hl. split_and!; [intros q pr' Hne Hq; by apply (quiet_while_listening p pr w Hok Hp Hl q)..|by apply Hok with pr]. }
  assert (answers path w = false → nobody_else listening p w) as Hdead.
  { intros Ha q pr' _ Hq. by apply (quiet_unless_answered w Hok Ha q). }
  assert (∀ ph v, w_procs v = w_procs w → w_procs (on_proc p (goto ph) v) = alter (goto ph) p (w_procs w)) as Hpr.
  { intros ph v Hv. cbn. by rewrite Hv. }
  unfold taking_over, listening in Hsole, Hquiet, Hlone. destruct (pr_phase pr) eqn:Eph.
  all: cbn [main_start run_single run_supervisor] in He; unfold bind_public, next in He; try (destruct (pr_model pr); [|]).
  all: try done.
  all: repeat match type of He with
              | context [decide _] => case_decide as Hs
              | context [if ?b then _ else _] => destruct b eqn:?
              end; simplify_eq.
  all: try (eapply idle_step; by eauto).
  all: try (eapply taking_step; by eauto).
  all: try (destruct (Hlone eq_refl) as (Hno & Hnt & Hsock)).
  all: try (eapply listening_step; by eauto).
  all: try (eapply listening_step; eauto; cbn; by rewrite lookup_insert_eq).
  all: try (apply (idle_step p pr (goto (Gone Signalled)) w); [exact Hp|done|done|done|by right|done]).
  all: eapply taking_step; eauto; apply Hdead; unfold answers; destruct (w_sockets w !! path) as [x|];
    [destruct Hs; by eexists|reflexivity].
Qed.

Lemma serve_exec_ok l w w' : exec l w = Some w' → (starters w ≤ 1)%nat → socket_ok w → socket_ok w'.
Proof.
  destruct l as [m|ok p|r p|p]; cbn [exec].
  - intros [= <-] _ [HA HB].
    assert (∀ q pr', (w_procs w ++ [new_proc m]) !! q = Some pr' → w_procs w !! q = Some pr' ∨ pr' = new_proc m) as Hq.
    { intros q pr' [[_ ?]|[_ <-]]%lookup_snoc_Some; eauto. }
    split.
    + intros q pr' [Hq'| ->]%Hq Hl; [by apply (HA q pr')|done].
    + intros a pra b prb [Ha| ->]%Hq Ht [Hb| ->]%Hq; try done. by apply (HB a pra b prb).
  - apply advance_ok.
  - unfold signal. intros (pr & Hp & He)%bind_Some _ Hok. destruct (pr_phase pr) eqn:Eph; try done. injection He as <-.
    assert (listening pr = true) as Hl by (unfold listening; by rewrite Eph).
    eapply listening_step; [exact Hp|reflexivity|by apply Hok with pr|cbn; by destruct (pr_model pr)| | |done];
      intros q pr' Hne Hq; by apply (quiet_while_listening p pr w Hok Hp Hl q).
  - unfold crash. intros (pr & Hp & He)%bind_Some _ Hok.
    destruct (pr_phase pr); simplify_eq; (eapply idle_step; [exact Hp|reflexivity|done|done|by left|done]).
Qed.

Lemma serve_execs_ok ls w w' : execs ls w = Some w' → one_at_a_time ls w → socket_ok w → socket_ok w'.
Proof.
  revert w. induction ls as [|l ls IH]; intros w; cbn [execs one_at_a_time]; [by intros [= <-]|].
  intros (w1 & He & Hr)%bind_Some [Hone Hrest] Hok. rewrite He in Hrest. apply (IH w1); [done..|]. by apply (serve_exec_ok l w).
Qed.

(** A start alone. *)
Fixpoint advances (n : nat) (p : nat) (w : World) : option World :=
  match n with O => Some w | S n => w' ← advance true p w; advances n p w' end.

Definition at_phase (p : nat) (m : ProcessModel) (ph : Phase) (w : World) : Prop := w_procs w !! p = Some (MkProc m ph []).
Lemma at_phase_next p m ph ph' w v : at_phase p m ph w → w_procs v = w_procs w → at_phase p m ph' (on_proc p (goto ph') v).
Proof. unfold at_phase. intros Hp Hv. cbn. by rewrite list_lookup_alter_eq, Hv, Hp. Qed.

Lemma advances_S n p w w1 : advance true p w = Some w1 → advances (S n) p w = advances n p w1.
Proof. cbn [advances]. by intros ->. Qed.
(** One step of a process whose next step is known. *)
Ltac step_of Hp :=
  unfold advance; rewrite Hp; cbn [mbind option_bind pr_phase pr_model main_start run_single run_supervisor]; unfold bind_public, next.

(** To the opening of the store: whatever is on the path is removed if nobody answers. *)
Lemma start_to_open p m w : at_phase p m Look w → answers path w = false →
  ∃ n w', (n ≤ 3)%nat ∧ advances n p w = Some w' ∧ at_phase p m Open w' ∧ w_sockets w' !! path = None.
Proof.
  intros Hp Ha. destruct (w_sockets w !! path) as [q|] eqn:Es.
  - set (w1 := on_proc p (goto Dial) w). assert (at_phase p m Dial w1) as H1 by by eapply at_phase_next.
    set (w2 := on_proc p (goto Unlink) w1). assert (at_phase p m Unlink w2) as H2 by by eapply at_phase_next.
    set (w3 := on_proc p (goto Open) (unlink path w2)). assert (at_phase p m Open w3) as H3 by by eapply at_phase_next.
    exists 3%nat, w3. split; [lia|]. split; [|split; [done|cbn; by rewrite lookup_delete_eq]].
    assert (answers path w1 = false) as Ha1.
    { revert Ha. unfold answers, w1. cbn. rewrite Es. destruct (decide (q = p)) as [->|Hne].
      - rewrite list_lookup_alter_eq, Hp. done.
      - by rewrite list_lookup_alter_ne. }
    rewrite (advances_S 2 p w w1), (advances_S 1 p w1 w2), (advances_S 0 p w2 w3); [done|..].
    + by step_of H2.
    + step_of H1. by rewrite Ha1.
    + step_of Hp. by rewrite Es, decide_True by by eexists.
  - exists 1%nat, (on_proc p (goto Open) w). split; [lia|]. split; [|split; [by eapply at_phase_next|done]].
    apply (advances_S 0). step_of Hp. by rewrite Es, decide_False by (by intros []).
Qed.

Lemma bind_to_serving p m w : at_phase p m Bind w → w_sockets w !! path = None →
  ∃ w', advances 2 p w = Some w' ∧ at_phase p m Serving w' ∧ w_sockets w' = <[path := p]> (w_sockets w).
Proof.
  intros Hp Hs. set (w1 := on_proc p (goto Chmod) (bind_to path p w)). assert (at_phase p m Chmod w1) as H1 by by eapply at_phase_next.
  set (w2 := on_proc p (goto Serving) w1). assert (at_phase p m Serving w2) as H2 by by eapply at_phase_next.
  exists w2. split; [|done]. rewrite (advances_S 1 p w w1), (advances_S 0 p w1 w2); [done|step_of H1; by destruct m|].
  step_of Hp. destruct m; by rewrite Hs, decide_False by (by intros []).
Qed.

(** The callback socket of the supervisor, stale or not. *)
Lemma mkdir_to_bind p w : at_phase p Hybrid Mkdir w →
  ∃ w', advances 4 p w = Some w' ∧ at_phase p Hybrid Bind w' ∧ w_sockets w' = <[callback := p]> (delete callback (w_sockets w)).
Proof.
  intros Hp. set (w1 := on_proc p (goto UnlinkCallback) w). assert (at_phase p Hybrid UnlinkCallback w1) as H1 by by eapply at_phase_next.
  set (w2 := on_proc p (goto BindCallback) (unlink callback w1)). assert (at_phase p Hybrid BindCallback w2) as H2 by by eapply at_phase_next.
  set (w3 := on_proc p (goto ChmodCallback) (bind_to callback p w2)). assert (at_phase p Hybrid ChmodCallback w3) as H3 by by eapply at_phase_next.
  set (w4 := on_proc p (goto Bind) w3). assert (at_phase p Hybrid Bind w4) as H4 by by eapply at_phase_next.
  assert (w_sockets w2 !! callback = None) as Hc by (cbn; by rewrite lookup_delete_eq).
  exists w4. split; [|done].
  rewrite (advances_S 3 p w w1), (advances_S 2 p w1 w2), (advances_S 1 p w2 w3), (advances_S 0 p w3 w4); [done|..].
  - by step_of H3.
  - step_of H2. by rewrite Hc, decide_False by (by intros []).
  - by step_of H1.
  - by step_of Hp.
Qed.

Lemma advances_app n k p w : advances (n + k) p w = w' ← advances n p w; advances k p w'.
Proof.
  revert w. induction n as [|n IH]; intros w; [done|]. cbn [Nat.add advances]. destruct (advance true p w); [apply IH|done].
Qed.

Lemma open_to_serving p m w : path ≠ callback → at_phase p m Open w → w_sockets w !! path = None →
  ∃ n w', (n ≤ 7)%nat ∧ advances n p w = Some w' ∧ at_phase p m Serving w' ∧ w_sockets w' !! path = Some p ∧
    (m = Hybrid → w_sockets w' !! callback = Some p).
Proof.
  intros Hne Hp Hs. destruct m.
  - set (w1 := on_proc p (goto Bind) w). assert (at_phase p Single Bind w1) as H1 by by eapply at_phase_next.
    destruct (bind_to_serving p Single w1 H1 Hs) as (w' & Hr & H2 & Hs').
    exists 3%nat, w'. split; [lia|]. split_and!; [|done| |done].
    + rewrite (advances_S 2 p w w1); [done|]. by step_of Hp.
    + rewrite Hs'. by rewrite lookup_insert_eq.
  - set (w1 := on_proc p (goto Mkdir) w). assert (at_phase p Hybrid Mkdir w1) as H1 by by eapply at_phase_next.
    destruct (mkdir_to_bind p w1 H1) as (w2 & Hr2 & H2 & Hs2).
    destruct (bind_to_serving p Hybrid w2 H2) as (w' & Hr & H3 & Hs').
    { rewrite Hs2, lookup_insert_ne, lookup_delete_ne by done. exact Hs. }
    exists 7%nat, w'. split; [lia|]. split_and!; [|done| |].
    + rewrite (advances_S 6 p w w1) by (by step_of Hp). change 6%nat with (4 + 2)%nat. by rewrite advances_app, Hr2.
    + rewrite Hs'. by rewrite lookup_insert_eq.
    + intros _. rewrite Hs', Hs2, lookup_insert_ne by done. by rewrite lookup_insert_eq.
Qed.
End Steps.

(** ** Properties *)

(** C37: one daemon per socket. Whatever daemons start, serve, are signalled and crash, as
    long as no two are between having seen that nobody answers and having bound the
    socket, at most one listens and the socket file leads to it. *)
Theorem one_daemon_per_socket path callback ls w p q pr pr' :
  path ≠ callback → execs path callback ls (MkWorld ∅ []) = Some w → one_at_a_time path callback ls (MkWorld ∅ []) →
  w_procs w !! p = Some pr → listening pr = true → w_procs w !! q = Some pr' → listening pr' = true →
  p = q ∧ w_sockets w !! path = Some p.
Proof.
  intros Hne Hrun Hone Hp Hl Hq Hl'.
  destruct (serve_execs_ok path callback Hne ls _ w Hrun Hone) as [HA _].
  { split; [by intros []|]. intros ? ? ? ? Ha; cbn in Ha; by rewrite lookup_nil in Ha. }
  pose proof (HA p pr Hp Hl). pose proof (HA q pr' Hq Hl'). split; congruence.
Qed.

(** A daemon serves, a second one finds it and leaves. *)
Definition second_leaves : list Label :=
  [Launch Single] ++ repeat (Advance true 0%nat) 4 ++ [Launch Hybrid; Advance true 1%nat; Advance true 1%nat].
Lemma one_daemon_per_socket_witness :
  match execs "pyre.sock" "supervisor.sock" second_leaves (MkWorld ∅ []) with
  | Some w => (pr_phase <$> w_procs w) = [Serving; Gone AlreadyRunning] ∧ w_sockets w !! "pyre.sock" = Some 0%nat
  | None => False
  end.
Proof.
  destruct (execs "pyre.sock" "supervisor.sock" second_leaves (MkWorld ∅ [])) as [w|] eqn:E; [|vm_compute in E; discriminate E].
  split; [vm_compute in E; injection E as <-; reflexivity|].
  refine (proj2 (one_daemon_per_socket "pyre.sock" "supervisor.sock" second_leaves w 0%nat 0%nat (MkProc Single Serving [])
    (MkProc Single Serving []) _ E _ _ eq_refl _ eq_refl)); [done| |vm_compute in E; injection E as <-; reflexivity..].
  vm_compute. repeat (first [split | apply le_n | apply le_S | exact I]).
Defined.

(** Nothing a dead daemon leaves behind keeps the next one from serving: where nobody
    listens, whatever socket files are there, a daemon started alone whose operations
    succeed comes to serve, and the socket leads to it. *)
Theorem start_takes_over path callback m w :
  path ≠ callback → (∀ q pr, w_procs w !! q = Some pr → listening pr = false) →
  let p := length (w_procs w) in
  ∃ n w', (n ≤ 10)%nat ∧ advances path callback n p (w <| w_procs ::= λ l, l ++ [new_proc m] |>) = Some w' ∧
    w_procs w' !! p = Some (goto Serving (new_proc m)) ∧ w_sockets w' !! path = Some p ∧
    (m = Hybrid → w_sockets w' !! callback = Some p).
Proof.
  intros Hne Hquiet p. set (w0 := w <| w_procs ::= λ l, l ++ [new_proc m] |>).
  assert (at_phase p m Look w0) as H0 by (unfold at_phase; by apply list_lookup_middle).
  assert (answers path w0 = false) as Ha.
  { unfold answers. cbn. destruct (w_sockets w !! path) as [q|]; [|done]. destruct ((w_procs w ++ [new_proc m]) !! q) as [pr|] eqn:E; [|done].
    apply lookup_snoc_Some in E as [[_ E]|[_ <-]]; [cbn; by eapply Hquiet|done]. }
  destruct (start_to_open path callback p m w0 H0 Ha) as (n & w1 & Hn & Hr1 & H1 & Hs1).
  destruct (open_to_serving path callback p m w1 Hne H1 Hs1) as (k & w2 & Hk & Hr2 & H2 & Hs2 & Hc2).
  exists (n + k)%nat, w2. split; [lia|]. split_and!; try done. by rewrite advances_app, Hr1.
Qed.

(** A signal ends a serving daemon cleanly: it exits, its sockets are gone, and the single
    process has killed every pane of its sessions; the supervisor kills none. *)
Theorem signal_ends_cleanly path callback r p w pr :
  path ≠ callback → w_procs w !! p = Some pr → pr_phase pr = Serving →
  ∃ w', execs path callback [Signal r p; Advance true p] w = Some w' ∧
    w_sockets w' !! path = None ∧ (pr_model pr = Hybrid → w_sockets w' !! callback = None) ∧
    w_procs w' !! p = Some (MkProc (pr_model pr) (Gone Signalled)
      match pr_model pr with Single => shutdown_panes r | Hybrid => pr_killed pr end).
Proof.
  intros Hne Hp Hph. destruct pr as [m ph k]. cbn in Hph. subst ph. cbn [execs exec]. unfold signal. rewrite Hp.
  cbn [mbind option_bind pr_phase pr_model]. unfold advance. cbn [on_proc w_procs set]. destruct m.
  all: eexists; (split; [cbn; by rewrite list_lookup_alter_eq, Hp|]).
  all: (split; [|split; [|]]); cbn; rewrite ?list_lookup_alter_eq, ?Hp; try done.
  all: try (intros; by rewrite ?lookup_delete_eq).
  by rewrite lookup_delete_ne, lookup_delete_eq by done.
Qed.

(** Two daemons started at once: both find a stale socket that does not answer, the
    first binds, the second removes that socket and binds in its place. Both serve, and
    the first can no longer be reached. *)
Example double_start :
  let w := MkWorld {["pyre.sock" := 0%nat]} [MkProc Single (Gone Crashed) []] in
  let steps n p := repeat (Advance true p) n in
  match execs "pyre.sock" "supervisor.sock"
          ([Launch Single; Launch Single] ++ steps 2%nat 1%nat ++ steps 2%nat 2%nat ++ steps 4%nat 1%nat ++ steps 4%nat 2%nat) w with
  | Some w' => (pr_phase <$> w_procs w') = [Gone Crashed; Serving; Serving] ∧ w_sockets w' !! "pyre.sock" = Some 2%nat
  | None => False
  end.
Proof. vm_compute. by split. Qed.

(** An accept error ends the daemon without an error and leaves the socket file. *)
Example accept_error_leaves_socket :
  match execs "pyre.sock" "supervisor.sock" ([Launch Single] ++ repeat (Advance true 0%nat) 4 ++ [Advance false 0%nat]) (MkWorld ∅ []) with
  | Some w' => (pr_phase <$> w_procs w') = [Gone AcceptFailed] ∧ w_sockets w' !! "pyre.sock" = Some 0%nat
  | None => False
  end.
Proof. vm_compute. by split. Qed.
End Serve.
