(* ===== verification/Themes.v ===== *)
(** * Themes: the palettes of pyre-themes and the configuration of the front end

    The crate pyre-themes: the built-in palettes as data, the registry that finds a
    theme by name, colours from hexadecimal text, and the [ui] section of the
    configuration file (config.rs). Reading and writing TOML is a parameter, the file
    system a map from paths to texts. *)
From Stdlib Require Import Strings.Byte.
From S2P Require Import Prelude Proto Text.
Local Open Scope Z_scope.

Record Rgb := rgb { r8 : Z; g8 : Z; b8 : Z }.
#[export] Instance Rgb_eq_dec : EqDecision Rgb.
Proof. solve_decision. Defined.

Definition to_rgba8 (c : Rgb) : list Z := [r8 c; g8 c; b8 c; 0xff].

(** [u8::from_str_radix(s, 16)]: a plus sign is accepted before the digits. *)
Definition hex_digit (b : Byte.byte) : option Z :=
  let z := byte_to_Z b in
  if in_range 48 57 z then Some (z - 48)
  else if in_range 97 102 z then Some (z - 87)
  else if in_range 65 70 z then Some (z - 55) else None.
Definition hex_value (ds : Bytes) : option Z :=
  ds' ← mapM hex_digit ds;
  let v := fold_left (λ a d, a * 16 + d) ds' 0 in if v <? 256 then Some v else None.
Definition from_str_radix_16 (s : Bytes) : option Z :=
  match s with
  | [] => None
  | x2b :: ((_ :: _) as ds) => hex_value ds
  | _ => hex_value s
  end.

(** [&s[a..b]] panics where it would cut a character. *)
Definition slice (a b : nat) (s : Bytes) : option Bytes :=
  let boundary n := match s !! n with Some x => negb (is_cont (byte_to_Z x)) | None => true end in
  if boundary a && boundary b then Some (take (b - a) (drop a s)) else None.

(** [None] is the panic, [Some None] malformed input. *)
Definition from_hex (hex : string) : option (option Rgb) :=
  let s := drop_while (λ b, bool_decide (b = x23)) (str_bytes hex) in
  if decide (length s ≠ 6%nat) then Some None
  else
    rs ← slice 0 2 s;
    match from_str_radix_16 rs with
    | None => Some None
    | Some r =>
        gs ← slice 2 4 s;
        match from_str_radix_16 gs with
        | None => Some None
        | Some g =>
            bs ← slice 4 6 s;
            Some (rgb r g <$> from_str_radix_16 bs)
        end
    end.

Inductive ThemeKind := Dark | Light.

Record Palette := MkPalette {
  pl_bg : Rgb; pl_bg_dim : Rgb; pl_fg : Rgb; pl_fg_dim : Rgb;
  pl_border : Rgb; pl_border_focus : Rgb; pl_cursor : Rgb; pl_accent : Rgb;
  pl_ok : Rgb; pl_warn : Rgb; pl_error : Rgb;
  pl_ansi : list Rgb }.

Record Theme := MkTheme {
  th_name : string; th_display_name : string; th_kind : ThemeKind; th_palette : Palette }.

(** ** The palettes, one module of palettes/ each *)
Definition ember_META : string * string * ThemeKind := ("ember", "Ember Black", Dark).
Definition ember_PALETTE : Palette :=
  MkPalette (rgb 0x0a 0x0b 0x0e) (rgb 0x07 0x08 0x09) (rgb 0xec 0xee 0xf4) (rgb 0x96 0x9c 0xa6)
    (rgb 0x23 0x25 0x2d) (rgb 0xe8 0x74 0x3b) (rgb 0xe8 0x74 0x3b) (rgb 0xe8 0x74 0x3b)
    (rgb 0x3f 0xb9 0x50) (rgb 0xf5 0xb0 0x42) (rgb 0xff 0x56 0x30)
    [rgb 0x15 0x17 0x1c; rgb 0xe2 0x55 0x63; rgb 0x7f 0xb9 0x58; rgb 0xe3 0xb3 0x41;
     rgb 0x4f 0x9c 0xf2; rgb 0xb8 0x86 0xf0; rgb 0x3f 0xb8 0xb8; rgb 0xc5 0xc8 0xd0;
     rgb 0x2c 0x2f 0x39; rgb 0xff 0x6b 0x7a; rgb 0x8f 0xd9 0x9a; rgb 0xff 0xcf 0x5a;
     rgb 0x6b 0xb0 0xff; rgb 0xcf 0x9c 0xff; rgb 0x5f 0xd6 0xd6; rgb 0xec 0xee 0xf4].

Definition catppuccin_mocha_META : string * string * ThemeKind := ("catppuccin-mocha", "Catppuccin Mocha", Dark).
Definition catppuccin_mocha_PALETTE : Palette :=
  MkPalette (rgb 0x1e 0x1e 0x2e) (rgb 0x18 0x18 0x25) (rgb 0xcd 0xd6 0xf4) (rgb 0x80 0x85 0x9f)
    (rgb 0x31 0x32 0x44) (rgb 0xca 0xa9 0xf5) (rgb 0xf5 0xe0 0xdc) (rgb 0xca 0xa9 0xf5)
    (rgb 0xa6 0xe3 0xa1) (rgb 0xf9 0xe2 0xaf) (rgb 0xf3 0x8b 0xa8)
    [rgb 0x45 0x47 0x5a; rgb 0xf3 0x8b 0xa8; rgb 0xa6 0xe3 0xa1; rgb 0xf9 0xe2 0xaf;
     rgb 0x89 0xb4 0xfa; rgb 0xca 0xa9 0xf5; rgb 0x89 0xdc 0xeb; rgb 0xba 0xc2 0xde;
     rgb 0x58 0x5b 0x70; rgb 0xf3 0x8b 0xa8; rgb 0xa6 0xe3 0xa1; rgb 0xf9 0xe2 0xaf;
     rgb 0x89 0xb4 0xfa; rgb 0xca 0xa9 0xf5; rgb 0x89 0xdc 0xeb; rgb 0xa6 0xad 0xc8].

Definition catppuccin_latte_META : string * string * ThemeKind := ("catppuccin-latte", "Catppuccin Latte", Light).
Definition catppuccin_latte_PALETTE : Palette :=
  MkPalette (rgb 0xef 0xf1 0xf5) (rgb 0xe6 0xe9 0xef) (rgb 0x4c 0x4f 0x69) (rgb 0x6b 0x6d 0x78)
    (rgb 0xcc 0xcf 0xd4) (rgb 0x80 0x87 0xd7) (rgb 0xdc 0x8a 0x78) (rgb 0x64 0x69 0xa7)
    (rgb 0x40 0xa0 0x2b) (rgb 0xdf 0x8e 0x1d) (rgb 0xd2 0x0f 0x39)
    [rgb 0x5c 0x5f 0x77; rgb 0xd2 0x0f 0x39; rgb 0x40 0xa0 0x2b; rgb 0xdf 0x8e 0x1d;
     rgb 0x1e 0x66 0xf5; rgb 0xea 0x76 0xcb; rgb 0x17 0x9a 0xbc; rgb 0xac 0xb0 0xbe;
     rgb 0x6c 0x6f 0x85; rgb 0xd2 0x0f 0x39; rgb 0x40 0xa0 0x2b; rgb 0xdf 0x8e 0x1d;
     rgb 0x1e 0x66 0xf5; rgb 0xea 0x76 0xcb; rgb 0x17 0x9a 0xbc; rgb 0xbc 0xc0 0xcc].

Definition tokyo_night_META : string * string * ThemeKind := ("tokyo-night", "Tokyo Night", Dark).
Definition tokyo_night_PALETTE : Palette :=
  MkPalette (rgb 0x1a 0x1b 0x26) (rgb 0x16 0x17 0x20) (rgb 0xc0 0xca 0xf5) (rgb 0x74 0x80 0xb9)
    (rgb 0x29 0x2e 0x42) (rgb 0x7a 0xa2 0xf7) (rgb 0xc0 0xca 0xf5) (rgb 0x7a 0xa2 0xf7)
    (rgb 0x9e 0xce 0x6a) (rgb 0xe0 0xaf 0x68) (rgb 0xf7 0x76 0x8e)
    [rgb 0x15 0x16 0x1e; rgb 0xf7 0x76 0x8e; rgb 0x9e 0xce 0x6a; rgb 0xe0 0xaf 0x68;
     rgb 0x7a 0xa2 0xf7; rgb 0xbb 0x9a 0xf7; rgb 0x7d 0xcf 0xff; rgb 0xa9 0xb1 0xd6;
     rgb 0x41 0x4c 0x6f; rgb 0xf7 0x76 0x8e; rgb 0x9e 0xce 0x6a; rgb 0xe0 0xaf 0x68;
     rgb 0x7a 0xa2 0xf7; rgb 0xbb 0x9a 0xf7; rgb 0x7d 0xcf 0xff; rgb 0xc0 0xca 0xf5].

Definition tokyo_night_light_META : string * string * ThemeKind := ("tokyo-night-light", "Tokyo Night Light", Light).
Definition tokyo_night_light_PALETTE : Palette :=
  MkPalette (rgb 0xd5 0xd6 0xdb) (rgb 0xca 0xcb 0xcf) (rgb 0x34 0x35 0x4a) (rgb 0x5b 0x5c 0x70)
    (rgb 0xb8 0xb9 0xc2) (rgb 0x34 0x54 0x8a) (rgb 0x34 0x35 0x4a) (rgb 0x34 0x54 0x8a)
    (rgb 0x38 0x5f 0x0e) (rgb 0x88 0x5d 0x0d) (rgb 0x8c 0x41 0x51)
    [rgb 0xd5 0xd6 0xdb; rgb 0x8c 0x41 0x51; rgb 0x38 0x5f 0x0e; rgb 0x88 0x5d 0x0d;
     rgb 0x34 0x54 0x8a; rgb 0x5a 0x37 0x96; rgb 0x0f 0x4b 0x6e; rgb 0x71 0x72 0x8a;
     rgb 0xb8 0xb9 0xc2; rgb 0x8c 0x41 0x51; rgb 0x38 0x5f 0x0e; rgb 0x88 0x5d 0x0d;
     rgb 0x34 0x54 0x8a; rgb 0x5a 0x37 0x96; rgb 0x0f 0x4b 0x6e; rgb 0x34 0x35 0x4a].

Definition gruvbox_dark_META : string * string * ThemeKind := ("gruvbox-dark", "Gruvbox Dark", Dark).
Definition gruvbox_dark_PALETTE : Palette :=
  MkPalette (rgb 0x28 0x28 0x28) (rgb 0x1d 0x20 0x21) (rgb 0xeb 0xdb 0xb2) (rgb 0xa8 0x99 0x84)
    (rgb 0x3c 0x38 0x36) (rgb 0xfe 0x80 0x19) (rgb 0xfb 0xf1 0xc7) (rgb 0xfe 0x80 0x19)
    (rgb 0xb8 0xbb 0x26) (rgb 0xfa 0xbd 0x2f) (rgb 0xcc 0x24 0x1d)
    [rgb 0x28 0x28 0x28; rgb 0xcc 0x24 0x1d; rgb 0x98 0x97 0x1a; rgb 0xd7 0x99 0x21;
     rgb 0x45 0x85 0x88; rgb 0xb1 0x62 0x86; rgb 0x68 0x96 0x89; rgb 0xa8 0x99 0x84;
     rgb 0x92 0x83 0x74; rgb 0xfb 0x49 0x34; rgb 0xb8 0xbb 0x26; rgb 0xfa 0xbd 0x2f;
     rgb 0x83 0xa5 0x98; rgb 0xd3 0x86 0x9b; rgb 0x8e 0xc0 0x7c; rgb 0xeb 0xdb 0xb2].

Definition gruvbox_light_META : string * string * ThemeKind := ("gruvbox-light", "Gruvbox Light", Light).
Definition gruvbox_light_PALETTE : Palette :=
  MkPalette (rgb 0xfb 0xf1 0xc7) (rgb 0xf2 0xe5 0xbc) (rgb 0x3c 0x38 0x36) (rgb 0x78 0x6b 0x61)
    (rgb 0xd5 0xc4 0xa1) (rgb 0xaf 0x3a 0x03) (rgb 0x28 0x28 0x28) (rgb 0xaf 0x3a 0x03)
    (rgb 0x79 0x74 0x0e) (rgb 0xb5 0x76 0x14) (rgb 0x9d 0x00 0x06)
    [rgb 0xfb 0xf1 0xc7; rgb 0x9d 0x00 0x06; rgb 0x79 0x74 0x0e; rgb 0xb5 0x76 0x14;
     rgb 0x07 0x66 0x78; rgb 0x8f 0x3f 0x71; rgb 0x42 0x7b 0x58; rgb 0x7c 0x6f 0x64;
     rgb 0x92 0x83 0x74; rgb 0xcc 0x24 0x1d; rgb 0x98 0x97 0x1a; rgb 0xd7 0x99 0x21;
     rgb 0x45 0x85 0x88; rgb 0xb1 0x62 0x86; rgb 0x68 0x96 0x89; rgb 0x3c 0x38 0x36].

Definition one_dark_META : string * string * ThemeKind := ("one-dark", "One Dark", Dark).
Definition one_dark_PALETTE : Palette :=
  MkPalette (rgb 0x28 0x2c 0x34) (rgb 0x21 0x25 0x2b) (rgb 0xb0 0xb8 0xc5) (rgb 0x88 0x93 0xa6)
    (rgb 0x3e 0x44 0x51) (rgb 0x61 0xaf 0xef) (rgb 0x52 0x8b 0xff) (rgb 0x61 0xaf 0xef)
    (rgb 0x98 0xc3 0x79) (rgb 0xe5 0xc0 0x7b) (rgb 0xe0 0x6c 0x75)
    [rgb 0x28 0x2c 0x34; rgb 0xe0 0x6c 0x75; rgb 0x98 0xc3 0x79; rgb 0xe5 0xc0 0x7b;
     rgb 0x61 0xaf 0xef; rgb 0xc6 0x78 0xdd; rgb 0x56 0xb6 0xc2; rgb 0xab 0xb2 0xbf;
     rgb 0x5c 0x63 0x70; rgb 0xbe 0x50 0x46; rgb 0x7a 0x9f 0x60; rgb 0xd1 0x9a 0x66;
     rgb 0x3b 0x84 0xc0; rgb 0x9a 0x52 0xaf; rgb 0x35 0x8b 0x96; rgb 0xff 0xff 0xff].

Definition one_light_META : string * string * ThemeKind := ("one-light", "One Light", Light).
Definition one_light_PALETTE : Palette :=
  MkPalette (rgb 0xfa 0xfa 0xfa) (rgb 0xf0 0xf0 0xf0) (rgb 0x38 0x3a 0x42) (rgb 0x73 0x73 0x78)
    (rgb 0xe5 0xe5 0xe6) (rgb 0x40 0x78 0xf2) (rgb 0x52 0x6f 0xff) (rgb 0x3b 0x6e 0xdd)
    (rgb 0x50 0xa1 0x4f) (rgb 0xc1 0x88 0x01) (rgb 0xe4 0x56 0x49)
    [rgb 0x38 0x3a 0x42; rgb 0xe4 0x56 0x49; rgb 0x50 0xa1 0x4f; rgb 0xc1 0x88 0x01;
     rgb 0x40 0x78 0xf2; rgb 0xa6 0x26 0xa4; rgb 0x09 0x99 0xb3; rgb 0xfb 0xfb 0xfb;
     rgb 0xa0 0xa1 0xa7; rgb 0xe4 0x56 0x49; rgb 0x50 0xa1 0x4f; rgb 0xc1 0x88 0x01;
     rgb 0x40 0x78 0xf2; rgb 0xa6 0x26 0xa4; rgb 0x09 0x99 0xb3; rgb 0x38 0x3a 0x42].

Definition solarized_dark_META : string * string * ThemeKind := ("solarized-dark", "Solarized Dark", Dark).
Definition solarized_dark_PALETTE : Palette :=
  MkPalette (rgb 0x00 0x2b 0x36) (rgb 0x07 0x36 0x42) (rgb 0x83 0x94 0x96) (rgb 0x74 0x92 0x9b)
    (rgb 0x07 0x36 0x42) (rgb 0x26 0x8b 0xd2) (rgb 0x93 0xa1 0xa1) (rgb 0x28 0x93 0xdd)
    (rgb 0x85 0x99 0x00) (rgb 0xb5 0x89 0x00) (rgb 0xdc 0x32 0x2f)
    [rgb 0x07 0x36 0x42; rgb 0xdc 0x32 0x2f; rgb 0x85 0x99 0x00; rgb 0xb5 0x89 0x00;
     rgb 0x26 0x8b 0xd2; rgb 0xd3 0x36 0x82; rgb 0x2a 0xa1 0x98; rgb 0x83 0x94 0x96;
     rgb 0x00 0x2b 0x36; rgb 0xcb 0x4b 0x16; rgb 0x58 0x6e 0x75; rgb 0x65 0x7b 0x83;
     rgb 0x83 0x94 0x96; rgb 0x6c 0x71 0xc4; rgb 0x93 0xa1 0xa1; rgb 0xfd 0xf6 0xe3].

Definition solarized_light_META : string * string * ThemeKind := ("solarized-light", "Solarized Light", Light).
Definition solarized_light_PALETTE : Palette :=
  MkPalette (rgb 0xfd 0xf6 0xe3) (rgb 0xee 0xe8 0xd5) (rgb 0x65 0x7b 0x83) (rgb 0x69 0x73 0x73)
    (rgb 0xee 0xe8 0xd5) (rgb 0x26 0x8b 0xd2) (rgb 0x58 0x6e 0x75) (rgb 0x20 0x76 0xb3)
    (rgb 0x85 0x99 0x00) (rgb 0xb5 0x89 0x00) (rgb 0xdc 0x32 0x2f)
    [rgb 0x07 0x36 0x42; rgb 0xdc 0x32 0x2f; rgb 0x85 0x99 0x00; rgb 0xb5 0x89 0x00;
     rgb 0x26 0x8b 0xd2; rgb 0xd3 0x36 0x82; rgb 0x2a 0xa1 0x98; rgb 0x83 0x94 0x96;
     rgb 0x00 0x2b 0x36; rgb 0xcb 0x4b 0x16; rgb 0x58 0x6e 0x75; rgb 0x65 0x7b 0x83;
     rgb 0x83 0x94 0x96; rgb 0x6c 0x71 0xc4; rgb 0x93 0xa1 0xa1; rgb 0xfd 0xf6 0xe3].

Definition kanagawa_META : string * string * ThemeKind := ("kanagawa", "Kanagawa", Dark).
Definition kanagawa_PALETTE : Palette :=
  MkPalette (rgb 0x1f 0x1f 0x28) (rgb 0x16 0x16 0x1d) (rgb 0xdc 0xd7 0xba) (rgb 0x87 0x87 0x7c)
    (rgb 0x2a 0x2a 0x37) (rgb 0x7e 0x9c 0xd8) (rgb 0xc8 0xc0 0x93) (rgb 0x7e 0x9c 0xd8)
    (rgb 0x76 0x94 0x6a) (rgb 0xff 0x9e 0x3b) (rgb 0xc3 0x42 0x43)
    [rgb 0x09 0x0b 0x10; rgb 0xc3 0x42 0x43; rgb 0x76 0x94 0x6a; rgb 0xc0 0xa3 0x6e;
     rgb 0x7e 0x9c 0xd8; rgb 0x95 0x7f 0xb8; rgb 0x6a 0x9f 0x89; rgb 0xc8 0xc0 0x93;
     rgb 0x72 0x72 0x69; rgb 0xe8 0x2b 0x2b; rgb 0x98 0xbb 0x6c; rgb 0xe6 0xc3 0x84;
     rgb 0x7f 0xb4 0xca; rgb 0x93 0x8a 0xa8; rgb 0x7a 0xa8 0x9f; rgb 0xdc 0xd7 0xba].

Definition rose_pine_META : string * string * ThemeKind := ("rose-pine", "Rosé Pine", Dark).
Definition rose_pine_PALETTE : Palette :=
  MkPalette (rgb 0x19 0x17 0x24) (rgb 0x12 0x10 0x1e) (rgb 0xe0 0xde 0xf4) (rgb 0x81 0x7d 0x9d)
    (rgb 0x26 0x23 0x3a) (rgb 0x31 0x74 0x8f) (rgb 0xeb 0x6f 0x92) (rgb 0x3a 0x8a 0xaa)
    (rgb 0x9c 0xcf 0xd8) (rgb 0xf6 0xc1 0x77) (rgb 0xeb 0x6f 0x92)
    [rgb 0x26 0x23 0x3a; rgb 0xeb 0x6f 0x92; rgb 0x31 0x74 0x8f; rgb 0xf6 0xc1 0x77;
     rgb 0x9c 0xcf 0xd8; rgb 0xc4 0xa7 0xe7; rgb 0xea 0xe9 0xfc; rgb 0xe0 0xde 0xf4;
     rgb 0x6e 0x6a 0x86; rgb 0xeb 0x6f 0x92; rgb 0x31 0x74 0x8f; rgb 0xf6 0xc1 0x77;
     rgb 0x9c 0xcf 0xd8; rgb 0xc4 0xa7 0xe7; rgb 0xea 0xe9 0xfc; rgb 0xff 0xff 0xff].

Definition rose_pine_dawn_META : string * string * ThemeKind := ("rose-pine-dawn", "Rosé Pine Dawn", Light).
Definition rose_pine_dawn_PALETTE : Palette :=
  MkPalette (rgb 0xfa 0xf4 0xed) (rgb 0xf2 0xe9 0xe1) (rgb 0x53 0x4f 0x74) (rgb 0x76 0x6d 0x7d)
    (rgb 0xdf 0xd8 0xd9) (rgb 0x28 0x6b 0x83) (rgb 0xb4 0x63 0x7a) (rgb 0x28 0x6b 0x83)
    (rgb 0x56 0x94 0x9f) (rgb 0xea 0x9d 0x34) (rgb 0xb4 0x63 0x7a)
    [rgb 0xf2 0xe9 0xe1; rgb 0xb4 0x63 0x7a; rgb 0x28 0x6b 0x83; rgb 0xea 0x9d 0x34;
     rgb 0x56 0x94 0x9f; rgb 0x90 0x7a 0xa9; rgb 0xd7 0x82 0x7e; rgb 0x57 0x52 0x79;
     rgb 0x9e 0x93 0xa8; rgb 0xb4 0x63 0x7a; rgb 0x28 0x6b 0x83; rgb 0xea 0x9d 0x34;
     rgb 0x56 0x94 0x9f; rgb 0x90 0x7a 0xa9; rgb 0xd7 0x82 0x7e; rgb 0x57 0x52 0x79].

Definition vesper_META : string * string * ThemeKind := ("vesper", "Vesper", Dark).
Definition vesper_PALETTE : Palette :=
  MkPalette (rgb 0x10 0x10 0x10) (rgb 0x0a 0x0a 0x0a) (rgb 0xc9 0xc9 0xc9) (rgb 0x7c 0x7c 0x7c)
    (rgb 0x22 0x22 0x22) (rgb 0xfd 0xc1 0x73) (rgb 0xfd 0xc1 0x73) (rgb 0xfd 0xc1 0x73)
    (rgb 0x6a 0x93 0x89) (rgb 0xfd 0xc1 0x73) (rgb 0xc6 0x6b 0x6b)
    [rgb 0x10 0x10 0x10; rgb 0xc6 0x6b 0x6b; rgb 0x6a 0x93 0x89; rgb 0xfd 0xc1 0x73;
     rgb 0x86 0xaf 0xc4; rgb 0xad 0x89 0xb5; rgb 0x5f 0xa8 0x9a; rgb 0xc9 0xc9 0xc9;
     rgb 0x57 0x57 0x57; rgb 0xd9 0x88 0x88; rgb 0x86 0xb3 0xa8; rgb 0xfe 0xd5 0x9a;
     rgb 0xa3 0xc5 0xd6; rgb 0xc4 0xa8 0xcc; rgb 0x7e 0xc0 0xb3; rgb 0xff 0xff 0xff].

Definition nord_META : string * string * ThemeKind := ("nord", "Nord", Dark).
Definition nord_PALETTE : Palette :=
  MkPalette (rgb 0x2e 0x34 0x40) (rgb 0x24 0x2a 0x35) (rgb 0xd8 0xde 0xe9) (rgb 0x89 0x9c 0xc0)
    (rgb 0x3b 0x42 0x52) (rgb 0x81 0xa1 0xc1) (rgb 0xd8 0xde 0xe9) (rgb 0x81 0xa1 0xc1)
    (rgb 0xa3 0xbe 0x8c) (rgb 0xeb 0xcb 0x8b) (rgb 0xbf 0x61 0x6a)
    [rgb 0x3b 0x42 0x52; rgb 0xbf 0x61 0x6a; rgb 0xa3 0xbe 0x8c; rgb 0xeb 0xcb 0x8b;
     rgb 0x81 0xa1 0xc1; rgb 0xb4 0x8e 0xad; rgb 0x88 0xc0 0xd0; rgb 0xe5 0xe9 0xf0;
     rgb 0x4c 0x56 0x6a; rgb 0xbf 0x61 0x6a; rgb 0xa3 0xbe 0x8c; rgb 0xeb 0xcb 0x8b;
     rgb 0x5e 0x81 0xac; rgb 0xb4 0x8e 0xad; rgb 0x8f 0xbc 0xbb; rgb 0xec 0xef 0xf4].

Definition dracula_META : string * string * ThemeKind := ("dracula", "Dracula", Dark).
Definition dracula_PALETTE : Palette :=
  MkPalette (rgb 0x28 0x2a 0x36) (rgb 0x1e 0x1f 0x29) (rgb 0xf8 0xf8 0xf2) (rgb 0x7b 0x8f 0xcd)
    (rgb 0x44 0x47 0x5a) (rgb 0xbd 0x93 0xf9) (rgb 0xf8 0xf8 0xf2) (rgb 0xbd 0x93 0xf9)
    (rgb 0x50 0xfa 0x7b) (rgb 0xf1 0xfa 0x8c) (rgb 0xff 0x55 0x55)
    [rgb 0x21 0x22 0x2c; rgb 0xff 0x55 0x55; rgb 0x50 0xfa 0x7b; rgb 0xf1 0xfa 0x8c;
     rgb 0xbd 0x93 0xf9; rgb 0xff 0x79 0xc6; rgb 0x8b 0xe9 0xfd; rgb 0xf8 0xf8 0xf2;
     rgb 0x62 0x72 0xa4; rgb 0xff 0x6e 0x6e; rgb 0x69 0xff 0x94; rgb 0xff 0xff 0xa5;
     rgb 0xd6 0xac 0xff; rgb 0xff 0x92 0xdf; rgb 0xa4 0xff 0xff; rgb 0xff 0xff 0xff].

Definition terminal_META : string * string * ThemeKind := ("terminal", "Terminal Default", Dark).
Definition terminal_PALETTE : Palette :=
  MkPalette (rgb 0x00 0x00 0x00) (rgb 0x12 0x12 0x12) (rgb 0xd0 0xd0 0xd0) (rgb 0x80 0x80 0x80)
    (rgb 0x40 0x40 0x40) (rgb 0x00 0xaf 0xff) (rgb 0xff 0xff 0xff) (rgb 0x00 0xaf 0xff)
    (rgb 0x00 0xd7 0x00) (rgb 0xff 0xd7 0x00) (rgb 0xff 0x00 0x00)
    [rgb 0x00 0x00 0x00; rgb 0x80 0x00 0x00; rgb 0x00 0x80 0x00; rgb 0x80 0x80 0x00;
     rgb 0x00 0x00 0x80; rgb 0x80 0x00 0x80; rgb 0x00 0x80 0x80; rgb 0xc0 0xc0 0xc0;
     rgb 0x80 0x80 0x80; rgb 0xff 0x00 0x00; rgb 0x00 0xff 0x00; rgb 0xff 0xff 0x00;
     rgb 0x00 0x00 0xff; rgb 0xff 0x00 0xff; rgb 0x00 0xff 0xff; rgb 0xff 0xff 0xff].

(** ** The registry *)
Definition entry (m : string * string * ThemeKind) (p : Palette) : Theme :=
  let '(name, display_name, kind) := m in MkTheme name display_name kind p.

Definition builtin : list Theme :=
  [entry ember_META ember_PALETTE;
   entry catppuccin_mocha_META catppuccin_mocha_PALETTE;
   entry catppuccin_latte_META catppuccin_latte_PALETTE;
   entry tokyo_night_META tokyo_night_PALETTE;
   entry tokyo_night_light_META tokyo_night_light_PALETTE;
   entry gruvbox_dark_META gruvbox_dark_PALETTE;
   entry gruvbox_light_META gruvbox_light_PALETTE;
   entry one_dark_META one_dark_PALETTE;
   entry one_light_META one_light_PALETTE;
   entry solarized_dark_META solarized_dark_PALETTE;
   entry solarized_light_META solarized_light_PALETTE;
   entry kanagawa_META kanagawa_PALETTE;
   entry rose_pine_META rose_pine_PALETTE;
   entry rose_pine_dawn_META rose_pine_dawn_PALETTE;
   entry vesper_META vesper_PALETTE;
   entry nord_META nord_PALETTE;
   entry dracula_META dracula_PALETTE;
   entry terminal_META terminal_PALETTE].

Definition get_theme (themes : list Theme) (name : string) : option Theme :=
  find_first (λ t, bool_decide (th_name t = name)) themes.
Definition default_theme : string := "ember".

(** The theme a front end starts with (pyre-tui/src/app/run.rs): [None] is the panic
    of its [expect]. *)
Definition startup_theme (configured : option string) : option Theme :=
  let name := default default_theme configured in
  match get_theme builtin name with
  | Some t => Some t
  | None => get_theme builtin default_theme
  end.

(** ** The configuration file *)
Record NotificationsConfig := MkNotifications { nc_enabled : bool; nc_ttl_ms : Z; nc_max_visible : nat }.
Definition default_notifications : NotificationsConfig := MkNotifications true 4000 5.
Record UiConfig := MkUi { ui_theme : option string; ui_notifications : NotificationsConfig }.
Record Config {T : Type} := MkConfig { cf_ui : UiConfig; cf_extra : T }.
Arguments Config : clear implicits.
Arguments MkConfig {T}.

(** toml's [from_str] and [to_string_pretty] on this shape. *)
Class Toml (T : Type) := {
  toml_empty : T;
  toml_parse : string → option (Config T);
  toml_print : Config T → string;
  toml_parse_print c : toml_parse (toml_print c) = Some c }.

Inductive ConfigError := ReadConfig | ParseConfig | CreateDir | WriteConfig.

(** A file is absent, readable or not. *)
Inductive File := Absent | Unreadable | Content (raw : string).

Section Config.
Context `{Toml T}.

Definition load_config (f : File) : result ConfigError (option (Config T)) :=
  match f with
  | Absent => Ok None
  | Unreadable => Err ReadConfig
  | Content raw => match toml_parse raw with Some c => Ok (Some c) | None => Err ParseConfig end
  end.

Definition load_notifications_config (f : File) : result ConfigError NotificationsConfig :=
  let? c := load_config f in
  Ok (match c with Some c => ui_notifications (cf_ui c) | None => default_notifications end).

Definition load_theme_name (f : File) : result ConfigError (option string) :=
  let? c := load_config f in
  Ok (c ≫= λ c, ui_theme (cf_ui c)).

(** How [std::fs::write] goes: a failure after the file was opened has cut it. *)
Inductive Write := Written | NotOpened | CutShort (rest : string).

Definition save_theme_name (dir_ok : bool) (w : Write) (name : string) (f : File) : File * result ConfigError unit :=
  match load_config f with
  | Err e => (f, Err e)
  | Ok c =>
      let cfg := default (MkConfig (MkUi None default_notifications) toml_empty) c in
      let cfg' := MkConfig (MkUi (Some name) (ui_notifications (cf_ui cfg))) (cf_extra cfg) in
      if negb dir_ok then (f, Err CreateDir)
      else match w with
           | Written => (Content (toml_print cfg'), Ok tt)
           | NotOpened => (f, Err WriteConfig)
           | CutShort rest => (Content rest, Err WriteConfig)
           end
  end.
End Config.

(** ** Properties *)
Lemma builtin_names : NoDup (th_name <$> builtin).
Proof. vm_compute. repeat constructor; set_solver. Qed.

Lemma get_theme_NoDup themes t : NoDup (th_name <$> themes) → t ∈ themes → get_theme themes (th_name t) = Some t.
Proof.
  intros Hnd Hin. unfold get_theme. destruct (find_first _ themes) as [u|] eqn:E.
  - apply find_first_Some in E as [Hu Hn%bool_decide_eq_true]. f_equal.
    apply list_elem_of_lookup in Hin as [i Hi], Hu as [j Hj].
    assert (i = j) as ->.
    { eapply NoDup_lookup; [exact Hnd| |]; rewrite list_lookup_fmap; [by rewrite Hi|by rewrite Hj; cbn; rewrite Hn]. }
    congruence.
  - apply find_first_None in E. rewrite Forall_forall in E. specialize (E t Hin).
    by apply bool_decide_eq_false in E.
Qed.

Lemma get_theme_None themes name : get_theme themes name = None ↔ name ∉ th_name <$> themes.
Proof.
  unfold get_theme. rewrite find_first_None, Forall_forall, list_elem_of_fmap. split.
  - intros H (t & -> & Ht). specialize (H t Ht). by apply bool_decide_eq_false in H.
  - intros H t Ht. apply bool_decide_eq_false. intros <-. eauto.
Qed.

(** a theme chosen by name. The front end always starts with a theme: the
    configured one when its name is built in, and Ember otherwise; and the name of
    each of the 18 built-in themes, as the picker lists them, finds that theme. *)
Theorem themes_by_name configured :
  length builtin = 18%nat ∧
  (∀ t, t ∈ builtin → get_theme builtin (th_name t) = Some t) ∧
  ∃ t, startup_theme configured = Some t ∧ t ∈ builtin ∧
       th_name t = match configured with
                   | Some n => if decide (n ∈ th_name <$> builtin) then n else default_theme
                   | None => default_theme
                   end.
Proof.
  assert (∀ t, t ∈ builtin → get_theme builtin (th_name t) = Some t) as Hget
    by (intros t; apply get_theme_NoDup, builtin_names).
  assert (∀ n, n ∈ th_name <$> builtin → ∃ t, get_theme builtin n = Some t ∧ t ∈ builtin ∧ th_name t = n) as Hn.
  { intros n (t & -> & Ht)%list_elem_of_fmap. eauto. }
  assert (default_theme ∈ th_name <$> builtin) as Hd by (by left).
  split; [done|]. split; [exact Hget|].
  unfold startup_theme. destruct configured as [n|]; cbn [default from_option id].
  - destruct (decide (n ∈ th_name <$> builtin)) as [Hin|Hin].
    + destruct (Hn n Hin) as (t & -> & ? & ?). eauto.
    + apply get_theme_None in Hin as ->. destruct (Hn _ Hd) as (t & -> & ? & ?). eauto.
  - destruct (Hn _ Hd) as (t & -> & ? & ?). eauto.
Qed.

(** Saving a theme: afterwards it is the one that is loaded, and the notification
    settings and all foreign sections are as before. When the file cannot be read or
    parsed, or its directory cannot be made, it is left as it is. *)
Theorem theme_saved `{Toml T} dir_ok w name f :
  match save_theme_name dir_ok w name f with
  | (f', Ok _) =>
      load_theme_name f' = Ok (Some name) ∧
      load_notifications_config f' = load_notifications_config f ∧
      cf_extra <$> (match load_config f' with Ok c => c | Err _ => None end) =
      Some (match load_config f with Ok (Some c) => cf_extra c | _ => toml_empty end)
  | (f', Err e) => (∀ rest, w ≠ CutShort rest) → f' = f
  end.
Proof.
  unfold save_theme_name, load_theme_name, load_notifications_config.
  destruct (load_config f) as [c|e] eqn:E; [|done].
  destruct dir_ok; cbn [negb]; [|done]. destruct w as [| |rest]; [|done|intros Hw; by destruct (Hw rest)].
  unfold load_config at 1 2 3. rewrite toml_parse_print. by destruct c.
Qed.

(** [from_hex] is safe on ASCII text, though not on all texts. *)
Lemma ascii_boundary s n : Forall is_ascii s →
  match s !! n with Some x => negb (is_cont (byte_to_Z x)) | None => true end = true.
Proof.
  intros Hs. destruct (s !! n) as [x|] eqn:E; [|done]. rewrite Forall_forall in Hs.
  specialize (Hs x (list_elem_of_lookup_2 _ _ _ E)). unfold is_ascii in Hs. unfold is_cont, in_range.
  apply negb_true_iff, andb_false_iff. left. apply Z.leb_gt. lia.
Qed.
Lemma slice_ascii a b s : Forall is_ascii s → slice a b s ≠ None.
Proof. intros Hs. unfold slice. by rewrite !ascii_boundary. Qed.

Lemma from_hex_ascii hex : Forall is_ascii (str_bytes hex) → from_hex hex ≠ None.
Proof.
  intros Ha. unfold from_hex. set (s := drop_while _ _).
  assert (Forall is_ascii s) as Hs.
  { subst s. induction Ha as [|x l Hx Ha IH]; cbn [drop_while]; [constructor|].
    case_match; [done|by constructor]. }
  case_decide; [done|].
  pose proof (slice_ascii 0 2 s Hs). pose proof (slice_ascii 2 4 s Hs). pose proof (slice_ascii 4 6 s Hs).
  destruct (slice 0 2 s); [cbn|done]. case_match; [|done]. destruct (slice 2 4 s); [cbn|done]. case_match; [|done].
  by destruct (slice 4 6 s).
Qed.

(** Two deviations from its documentation: a character cut in two panics, and signs
    pass for digits. *)
Lemma from_hex_panics : from_hex (of_chars [0x61; 0xe9; 0x30; 0x30; 0x30]) = None.
Proof. vm_compute. reflexivity. Qed.
Lemma from_hex_signs : from_hex "#+f+f+f" = Some (Some (rgb 15 15 15)).
Proof. vm_compute. reflexivity. Qed.
