(* ===== verification/Client.v ===== *)
(** * Client: how the front ends reach the daemon

    The service [PyreDaemon] of pyre-proto/src/service.rs as a class over the state
    of whatever answers it, with server.rs as an instance, and the helpers of the
    clients (pyre-tui/src/rpc/{client,layout}.rs, the choice of the first session in
    pyre-tui/src/main.rs): connecting, finding sessions and panes by prefix. What is
    proved of a client holds for every daemon; a reply may also be lost on the way.
    The instances at the end are for concrete runs. *)
From Stdlib Require Import Strings.Byte.
From S2P Require Import Prelude Proto Text Layout Libraries Effects EventBus GitStatus.
From S2P Require Import Store Registry BlockIndex Inspect Server.
Local Open Scope Z_scope.

(** [Result<Result<A, PyreError>, tarpc::client::RpcError>] *)
Inductive RpcFailure := Transport | Remote (e : PyreError).

Class PyreDaemon (D : Type) := {
  spawn : SpawnReq → M D RpcFailure SpawnResp;
  kill : SessionId → M D RpcFailure unit;
  list_blocks : ListBlocksReq → M D RpcFailure (list Block);
  search_blocks : SearchBlocksReq → M D RpcFailure (list BlockHit);
  list_sessions : M D RpcFailure (list SessionInfo);
  list_panes : SessionId → M D RpcFailure (list PaneInfo);
  open_pane : OpenPaneReq → M D RpcFailure PaneId;
  close_pane : PaneId → M D RpcFailure unit;
  replay : PaneId → Z → M D RpcFailure ReplayBlocks;
  get_block_stdout : BlockId → M D RpcFailure Bytes;
  capture_pane : PaneId → Z → M D RpcFailure Bytes;
  close_session : SessionId → M D RpcFailure unit;
  set_pane_state : PaneId → PaneStateKind → string → M D RpcFailure unit;
  list_all_panes : M D RpcFailure (list PaneInfo);
  inspect_pid : PaneId → M D RpcFailure Inspect.PidInspect;
  send_keys : PaneId → Bytes → M D RpcFailure unit;
  resize_pane : ResizePaneReq → M D RpcFailure bool;
  rename_session : SessionId → string → M D RpcFailure unit;
  rename_pane : PaneId → string → M D RpcFailure unit;
  wait_pane_state : PaneId → PaneStateKind → Z → M D RpcFailure bool;
  mark_pane_seen : PaneId → M D RpcFailure unit;
  last_block_for_pane : PaneId → M D RpcFailure (option Block);
  request_focus : PaneId → M D RpcFailure bool;
  take_focus_request : M D RpcFailure (option PaneId);
  next_pane_event : Z → M D RpcFailure (list PaneEvent);
  gc_stale_sessions : M D RpcFailure (list string);
  open_pane_split : Server.OpenPaneSplitReq → M D RpcFailure PaneId;
  set_pane_weight : PaneId → Z → M D RpcFailure unit;
  get_session_layout : SessionId → M D RpcFailure LayoutNode;
  list_windows : SessionId → M D RpcFailure (list WindowInfo);
  new_window : SessionId → option string → M D RpcFailure WindowId;
  rename_window : WindowId → string → M D RpcFailure unit;
  close_window : WindowId → M D RpcFailure unit;
  get_window_layout : WindowId → M D RpcFailure LayoutNode;
  git_status : SessionId → M D RpcFailure (option GitInfo);
  (** a stream connection: the bytes of its header are written *)
  stream_connect : Bytes → D → D * bool }.

(** A lost call: the daemon may have carried it out. *)
Definition rpc {D A} (m : M D PyreError A) : M D RpcFailure A := zoom id (λ d _, d) Remote m.

(** The daemon of server.rs, its system's answers given. *)
Section Server.
Context `{UuidText, LayoutJson, SqlOrder, Zstd, ChronoRange, HashOrder, BlockIndex.Tantivy}.
Context (env : Store.Env) (message : Registry.RegError → string) (index_message : BlockIndex.IndexError → string).
Context (os : Registry.Os) (now instant : Z) (reader_ok : bool) (partial : result Store.StoreError Bytes).
Context (proc : Z → Inspect.Proc) (events : list EventBus.Recv) (watch : list Server.WatchEv).
Context (cwd : Z → option PathBuf) (git : PathBuf → option (bool * Bytes)).

Definition server_daemon : PyreDaemon Server.Daemon := {|
  spawn req := rpc (Server.spawn env message os req);
  kill s := rpc (Server.kill os s);
  list_blocks req := rpc (Server.list_blocks env message req);
  search_blocks req := rpc (Server.search_blocks env message index_message reader_ok partial req);
  list_sessions := rpc Server.list_sessions;
  list_panes s := rpc (Server.list_panes now instant s);
  open_pane req := rpc (Server.open_pane env message os req);
  close_pane p := rpc (Server.close_pane env message os p);
  replay p n := rpc (Server.replay env message p n);
  get_block_stdout b := rpc (Server.get_block_stdout message partial b);
  capture_pane p n := rpc (Server.capture_pane p n);
  close_session s := rpc (Server.close_session env message os s);
  set_pane_state p k r := rpc (Server.set_pane_state message now None p k r);
  list_all_panes := rpc (Server.list_all_panes now instant);
  inspect_pid p := rpc (Server.inspect_pid proc p);
  send_keys p b := rpc (Server.send_keys true p b);
  resize_pane req := rpc (Server.resize_pane None req);
  rename_session s n := rpc (Server.rename_session env s n);
  rename_pane p n := rpc (Server.rename_pane env p n);
  wait_pane_state p k _ := rpc (Server.wait_pane_state p k watch);
  mark_pane_seen p := rpc (Server.mark_pane_seen message p);
  last_block_for_pane p := rpc (Server.last_block_for_pane env message p);
  request_focus p := rpc (Server.request_focus p);
  take_focus_request := rpc Server.take_focus_request;
  next_pane_event n := rpc (Server.next_pane_event n events);
  gc_stale_sessions := rpc (Server.gc_stale_sessions message os);
  open_pane_split req := rpc (Server.open_pane_split env message os req);
  set_pane_weight p w := rpc (Server.set_pane_weight env message p w);
  get_session_layout s := rpc (Server.get_session_layout s);
  list_windows s := rpc (Server.list_windows s);
  new_window s n := rpc (Server.new_window env s n);
  rename_window w n := rpc (Server.rename_window env message w n);
  close_window w := rpc (Server.close_window env message os w);
  get_window_layout w := rpc (Server.get_window_layout env message w);
  git_status s := rpc (Server.git_status cwd git s);
  stream_connect _ d := (d, true) |}.
End Server.

(** ** Helpers of the clients *)
Inductive ClientError :=
  | RpcTransport                                  (** [.context("rpc transport")] *)
  | DaemonError (call : string) (e : PyreError)
  | NoMatch (what prefix : string)
  | Ambiguous (count : nat) (what prefix : string)
  | NoPanes
  | AttachFailed
  | StartFailed (binary : string)                 (** [pyred] could not be started *)
  | DaemonExited (status : string)
  | NeverReady (last : option string).

Section Helpers.
Context `{UuidText} {D : Type} `{!PyreDaemon D}.

(** [.await.context("rpc transport")?.map_err(|e| anyhow!("daemon {call}: {e}"))?] *)
Definition call {A} (name : string) (m : M D RpcFailure A) : M D ClientError A :=
  zoom id (λ d _, d) (λ f, match f with Transport => RpcTransport | Remote e => DaemonError name e end) m.

(** [.await.ok().and_then(|r| r.ok())] *)
Definition call_opt {E A} (m : M D RpcFailure A) : M D E (option A) :=
  λ d, let '(d', r) := m d in (d', Ok (match r with Ok a => Some a | Err _ => None end)).

Definition session_matches (prefix : string) (s : SessionInfo) : bool :=
  starts_with (str_bytes prefix) (str_bytes (uuid_to_string (session_uuid (si_id s)))).
Definition pane_matches (prefix : string) (p : PaneInfo) : bool :=
  starts_with (str_bytes prefix) (str_bytes (uuid_to_string (pane_uuid (pi_id p)))).

(** [match matches.len() { 0 => .., 1 => Ok(..), _ => .. }] *)
Definition unique {A} (what prefix : string) (found : list A) : result ClientError A :=
  match found with
  | [] => Err (NoMatch what prefix)
  | [x] => Ok x
  | _ => Err (Ambiguous (length found) what prefix)
  end.

Definition resolve_session (prefix : string) : M D ClientError SessionId :=
  let! sessions := call "list_sessions" list_sessions in
  let! s := of_result (unique "session" prefix (filter (λ s, session_matches prefix s = true) sessions)) in
  ret (si_id s).

Definition resolve_pane (session : SessionId) (prefix : string) : M D ClientError PaneId :=
  let! panes := call "list_panes" (list_panes session) in
  let! p := of_result (unique "pane" prefix (filter (λ p, pane_matches prefix p = true) panes)) in
  ret (pi_id p).

Definition first_pane (session : SessionId) : M D ClientError PaneId :=
  let! panes := call "list_panes" (list_panes session) in
  expect (pi_id <$> head panes) NoPanes.

Definition pick_attach_session (sessions : list SessionInfo) : option SessionInfo :=
  find_first (λ s, 0 <? si_pane_count s) sessions.

(** The first eight characters of an identifier. *)
Definition short8 (u : Uuid) : string := of_chars (take 8 (chars (uuid_to_string u))).

(** ** How the terminal front end starts (pyre-tui/src/main.rs) *)
Inductive PaneInit :=
  | Spawn
  | Existing (session : SessionId) (session_name : string) (pane : PaneId).

(** The subcommand: none, or [attach session --pane pane]. *)
Inductive Sub := NoCommand | Attach (session : string) (pane : option string).

Definition attach_any (existing : list SessionInfo) : M D ClientError PaneInit :=
  match pick_attach_session existing with
  | None => ret Spawn
  | Some candidate =>
      λ d, match first_pane (si_id candidate) d with
           | (d', Ok pane) => (d', Ok (Existing (si_id candidate) (si_name candidate) pane))
           | (d', Err _) => (d', Ok Spawn)
           end
  end.

Definition attach_named (sessions : list SessionInfo) (session_prefix : string) (pane_prefix : option string) :
    M D ClientError PaneInit :=
  let! session_id := resolve_session session_prefix in
  let session_name := match find_first (λ s, bool_decide (si_id s = session_id)) sessions with
                      | Some s => si_name s
                      | None => "session-" +:+ short8 (session_uuid session_id)
                      end in
  let! pane := match pane_prefix with
               | Some prefix => resolve_pane session_id prefix
               | None => first_pane session_id
               end in
  ret (Existing session_id session_name pane).

Definition pane_init (command : Sub) : M D ClientError PaneInit :=
  let! sessions := call "list_sessions" list_sessions in
  match command with
  | NoCommand => attach_any sessions
  | Attach session pane => attach_named sessions session pane
  end.

(** [candidates] are the shells that exist. *)
Definition resolve_shell (shell_arg shell_var : option string) (candidates : list string) : option string :=
  match shell_arg with
  | Some s => Some s
  | None =>
      match shell_var with
      | Some s => Some s
      | None => find_first (λ c, bool_decide (c ∈ candidates)) ["/bin/bash"; "/bin/sh"]
      end
  end.
End Helpers.

(** ** Connecting, and starting the daemon when there is none ([control_client]) *)
Inductive Child := Exited (status : string) | StillRunning | WaitFailed.

Section Connect.
Context {C : Type}.

(** [sibling] is the [pyred] beside the executable, where it exists. *)
Definition pyred_binary (var sibling : option string) : string :=
  match var with Some b => b | None => default "pyred" sibling end.

(** One round of the wait: the child is looked at, then the socket is tried. *)
Fixpoint wait_ready (rounds : nat) (child : nat → Child) (connect : nat → result string C) (i : nat)
    (last_err : option string) : result ClientError C :=
  match rounds with
  | O => Err (NeverReady last_err)
  | S rounds' =>
      match child i with
      | Exited status => Err (DaemonExited status)
      | _ =>
          match connect i with
          | Ok client => Ok client
          | Err e => wait_ready rounds' child connect (S i) (Some e)
          end
      end
  end.

Definition control_client (first : result string C) (binary : string) (started : bool) (child : nat → Child)
    (connect : nat → result string C) : result ClientError C :=
  match first with
  | Ok client => Ok client
  | Err _ => if started then wait_ready 50 child connect 0 None else Err (StartFailed binary)
  end.
End Connect.

(** ** A daemon of one session, for concrete runs of the clients
    Nothing here models the program. *)
(** A daemon with one session of one pane: it accepts streams and keys, lists the
    commands of two panes, closes sessions and answers nothing else. *)
Definition lost_reply {A} : M nat RpcFailure A := λ n, (n, Err Transport).
(** A command of a pane. *)
Definition a_block (pane : N) : Block :=
  MkBlock (MkBlockId 9) (MkPaneId pane) (MkSessionId 1) "ls" None 0 None None 0.
Definition a_pane : PaneInfo :=
  MkPaneInfo (MkPaneId 2) (MkSessionId 1) (MkWindowId 3) 80 24 "sh" 0 None Idle "" 0 None 7 AgUnknown true None.
Definition lone_daemon : PyreDaemon nat :=
  {| spawn := λ _, lost_reply; kill := λ _, lost_reply; list_blocks := λ _ n, (n, Ok [a_block 2; a_block 3]); search_blocks := λ _, lost_reply;
     list_sessions := λ n, (n, Ok [MkSessionInfo (MkSessionId 1) "work" 1 0 0]); list_panes := λ s n, (n, if decide (s = MkSessionId 1) then Ok [a_pane] else Err Transport);
     open_pane := λ _, lost_reply; close_pane := λ _, lost_reply; replay := λ _ _, lost_reply;
     get_block_stdout := λ _, lost_reply; capture_pane := λ _ _, lost_reply; close_session := λ _ n, (n, Ok tt);
     set_pane_state := λ _ _ _, lost_reply; list_all_panes := lost_reply; inspect_pid := λ _, lost_reply;
     send_keys := λ _ _ n, (n, Ok tt); resize_pane := λ _, lost_reply; rename_session := λ _ _, lost_reply;
     rename_pane := λ _ _, lost_reply; mark_pane_seen := λ _, lost_reply; wait_pane_state := λ _ _ _, lost_reply; git_status := λ _, lost_reply; last_block_for_pane := λ _, lost_reply;
     request_focus := λ _, lost_reply; take_focus_request := lost_reply; next_pane_event := λ _, lost_reply;
     gc_stale_sessions := lost_reply; open_pane_split := λ _, lost_reply; set_pane_weight := λ _ _, lost_reply;
     get_session_layout := λ _, lost_reply; list_windows := λ _, lost_reply; new_window := λ _ _, lost_reply;
     rename_window := λ _ _, lost_reply; close_window := λ _, lost_reply; get_window_layout := λ _, lost_reply;
     stream_connect := λ _ n, (S n, true) |}.
