(* ===== verification/Pyrec.v ===== *)
(** * Pyrec: the command line client (pyrec/src/main.rs)

    One definition per command, over any daemon. A command runs in a world: the daemon
    at the other end of the socket, what was printed, the files written and the mode of
    the terminal; what it reads of the system is the record [Env]. *)
From Stdlib Require Import Strings.Byte.
From coqutil Require Export Datatypes.RecordSettersUsingExistingGetters.
From S2P Require Import Prelude Proto Text Layout Libraries Effects PaneTracker Store Server Client.
Local Open Scope Z_scope.

(** ** The world of a command *)
Record Env := MkEnv {
  pe_socket : PathBuf;                            (** the path, as it is displayed *)
  pe_connect : option string;                     (** why connecting fails *)
  pe_term_size : option (Z * Z);
  pe_shell : option string;                       (** SHELL *)
  pe_shells : list string;                        (** the fallback shells that exist *)
  pe_cwd : option PathBuf;
  pe_vars : list (string * string);
  pe_stdin_tty : bool;
  pe_raw_ok : bool;                               (** the terminal can be made raw *)
  pe_stdin : list Bytes;                          (** read and sent before the stream ends *)
  pe_frames : list (option Bytes);                (** frames of the stream; [None]: not decodable *)
  pe_stdout_ok : nat → bool;                      (** the [n]-th frame can be written *)
  pe_ctrl_c : bool;
  pe_stdout_tty : bool;
  pe_now : DateTime;
  pe_exists : PathBuf → bool;
  pe_data_var : option PathBuf;                   (** PYRE_DATA_DIR *)
  pe_data_dir : option PathBuf;                   (** of the user *)
  pe_config_dir : option PathBuf;
  pe_runtime_dir : option PathBuf;                (** XDG_RUNTIME_DIR *)
  pe_file_error : PathBuf → option string;        (** creating or writing fails *)
  pe_chmod_error : option string;
  pe_ssh_missing : bool;
  pe_ssh : result string (option Z) }.            (** could not start, or its exit code *)

Record World {D : Type} := MkWorld {
  wo_daemon : D;
  wo_out : Bytes;
  wo_err : Bytes;
  wo_sent : list InputFrame;
  wo_files : gmap string Bytes;
  wo_executable : list PathBuf;
  wo_raw : bool }.
Arguments World : clear implicits.

Inductive CliError :=
  | Cli (e : ClientError)
  | Unconnected (why : string)
  | UnknownState (s : string)
  | WaitTimeout (secs : Z) (kind : PaneStateKind)
  | UnknownSource (s : string)
  | NoCommandGiven
  | UnsupportedShell (s : string)
  | NotRaw
  | NotJson
  | FileError (why : string)
  | NoSsh
  | SshFailed (why : string)
  | SshExit (code : Z)
  | ExitOne.                                      (** [std::process::exit(1)] *)

(** ** Text *)
Definition nl : Bytes := [x0a].
Definition spaces (n : nat) : string := bytes_str (replicate n x20).
(** [{:<w}] and [{:>w}]: in characters. *)
Definition pad_right (w : nat) (s : string) : string := s +:+ spaces (w - length (chars s)).
Definition pad_left (w : nat) (s : string) : string := spaces (w - length (chars s)) +:+ s.
Definition join_space (ss : list string) : string := String.concat " " ss.

Definition PaneState_parse `{UnicodeLower} (s : string) : result CliError PaneStateKind :=
  let t := of_chars (to_lowercase (chars s)) in
  if bool_decide (t ∈ ["running"; "working"]) then Ok Running
  else if bool_decide (t ∈ ["waiting"; "waitinginput"; "blocked"]) then Ok WaitingInput
  else if bool_decide (t = "idle") then Ok Idle
  else if bool_decide (t = "interactive") then Ok Interactive
  else if bool_decide (t = "crashed") then Ok Crashed
  else if bool_decide (t = "done") then Ok Done
  else Err (UnknownState t).

Definition esc_color (s : string) : string := bytes_str [x1b] +:+ s.
Definition state_color (st : PaneStateKind) (is_tty : bool) : string :=
  if is_tty then
    esc_color match st with
              | Running => "[32m" | WaitingInput => "[33m" | Idle => "[2m"
              | Interactive => "[36m" | Crashed => "[31m" | Done => "[2m"
              end
  else "".
Definition state_dot (st : PaneStateKind) : Z :=
  match st with
  | Running => 0x25CF | WaitingInput => 0x25CE | Idle => 0x25CB
  | Interactive => 0x25C6 | Crashed => 0x2717 | Done => 0x25E6
  end.
(** Whole seconds since then, rounded towards zero. *)
Definition elapsed (now last : DateTime) : string :=
  let secs := Z.max (Z.quot (now - last) 1000000000) 0 in
  if secs <? 60 then show_Z secs +:+ "s ago"
  else if secs <? 3600 then show_Z (secs / 60) +:+ "m ago"
  else show_Z (secs / 3600) +:+ "h ago".

(** ** Sockets for a tunnel *)
Section Tunnel.
Context (alphanumeric : Z → bool).                (** [char::is_alphanumeric] *)

Definition safe_char (c : Z) : Z := if alphanumeric c || (c =? 45) || (c =? 46) then c else 95.
Definition safe_host (host : string) : string := of_chars (safe_char <$> chars host).
Definition derive_local_socket (runtime_dir : option PathBuf) (host : string) (explicit : option PathBuf) : PathBuf :=
  match explicit with
  | Some p => p
  | None =>
      let filename := "pyre-remote-" +:+ safe_host host +:+ ".sock" in
      Store.path_join (default "/tmp" runtime_dir) filename
  end.
End Tunnel.
Definition format_ssh_args (host : string) (local_socket remote_socket : string) : list string :=
  ["-L"; local_socket +:+ ":" +:+ remote_socket; host].

(** ** The commands *)
Section Commands.
Context `{UuidText, UnicodeLower} {D : Type} `{!PyreDaemon D} (io : Env).
Context (format_time : DateTime → string).        (** [%Y-%m-%d %H:%M:%S] *)
Context (json_pretty : list PaneInfo → option string).
Context (error_text : RpcFailure → string) (alphanumeric : Z → bool).
Context (BASH_SCRIPT ZSH_SCRIPT FISH_SCRIPT : string).

Definition C (A : Type) : Type := M (World D) CliError A.

Definition on_daemon {A} (m : M D ClientError A) : C A := zoom wo_daemon (λ d w, w <| wo_daemon := d |>) Cli m.
Definition rpc_call {A} (name : string) (m : M D RpcFailure A) : C A := on_daemon (call name m).

Definition print (b : Bytes) : C unit := modify (λ w, w <| wo_out ::= (.++ b) |>).
Definition println (s : string) : C unit := print (str_bytes s ++ nl).
Definition eprintln (s : string) : C unit := modify (λ w, w <| wo_err ::= (.++ str_bytes s ++ nl) |>).
(** [print!("{}", String::from_utf8_lossy(&bytes))] *)
Definition print_lossy (bytes : Bytes) : C unit := print (encode (from_utf8_lossy bytes)).

Definition connect_control : C unit :=
  match pe_connect io with None => ret tt | Some why => throw (Unconnected why) end.
Definition term_size : Z * Z :=
  match pe_term_size io with
  | Some (cols, rows) => if 0 <? cols then (cols, Z.max rows 1) else (80, 24)
  | None => (80, 24)
  end.

(** *** Resolving prefixes (see also Client) *)
Definition resolve_session (prefix : string) : C SessionId := on_daemon (Client.resolve_session prefix).
Definition resolve_pane (session : SessionId) (prefix : string) : C PaneId := on_daemon (Client.resolve_pane session prefix).
Definition first_pane (session : SessionId) : C PaneId := on_daemon (Client.first_pane session).
Definition resolve_pane_global (prefix : string) : C PaneId :=
  let! panes := rpc_call "list_all_panes" list_all_panes in
  let! p := of_result (result_map_err Cli (unique "pane" prefix (filter (λ p, pane_matches prefix p = true) panes))) in
  ret (pi_id p).

(** The first pane of any session that matches; the sessions after it are not asked. *)
Fixpoint scan_sessions (prefix : string) (ss : list SessionInfo) : C (option PaneId) :=
  match ss with
  | [] => ret None
  | s :: ss' =>
      let! panes := rpc_call "list_panes" (list_panes (si_id s)) in
      match find_first (pane_matches prefix) panes with
      | Some p => ret (Some (pi_id p))
      | None => scan_sessions prefix ss'
      end
  end.
Definition scan_pane (prefix : string) : C PaneId :=
  let! sessions := rpc_call "list_sessions" list_sessions in
  let! found := scan_sessions prefix sessions in
  expect found (Cli (NoMatch "pane" prefix)).

(** *** Attaching *)

(** daemon → stdout: stops at a frame that cannot be decoded or written. *)
Fixpoint show_frames (n : nat) (frames : list (option Bytes)) : C unit :=
  match frames with
  | Some data :: frames' => if pe_stdout_ok io n then do! print data in show_frames (S n) frames' else ret tt
  | _ => ret tt
  end.
(** stdin → daemon *)
Definition send_stdin (session : SessionId) : C unit :=
  modify (λ w, w <| wo_sent ::= (.++ (MkInputFrame session <$> pe_stdin io)) |>).
(** ctrl-c kills the session, over a connection of its own. *)
Definition on_ctrl_c (session : SessionId) : C unit :=
  match pe_ctrl_c io, pe_connect io with
  | true, None => λ w, let '(d, _) := kill session (wo_daemon w) in (w <| wo_daemon := d |>, Ok tt)
  | _, _ => ret tt
  end.
(** [RawGuard::enter], and its drop *)
Definition enter_raw : C bool :=
  if pe_stdin_tty io then
    if pe_raw_ok io then do! modify (λ w, w <| wo_raw := true |>) in ret true else throw NotRaw
  else ret false.
Definition leave_raw (saved : bool) : C unit :=
  if saved then modify (λ w, w <| wo_raw := false |>) else ret tt.

Definition run_attach (session : SessionId) (pane : PaneId) : C unit :=
  do! on_daemon (λ d, let '(d', ok) := stream_connect (attach_stream session pane) d in
                      (d', if ok then Ok tt else Err AttachFailed)) in
  let! saved := enter_raw in
  do! send_stdin session in
  do! on_ctrl_c session in
  do! show_frames 0 (pe_frames io) in
  leave_raw saved.

Definition shell_or_fallback (arg : option string) : option string := resolve_shell arg (pe_shell io) (pe_shells io).
Definition spawn_req (sh : option string) (cwd : option PathBuf) (name : option string) : SpawnReq :=
  MkSpawnReq sh cwd term_size.1 term_size.2 (pe_vars io) name.

Definition run_default (shell_arg : option string) : C unit :=
  do! connect_control in
  let! resp := rpc_call "spawn" (spawn (spawn_req (shell_or_fallback shell_arg) (pe_cwd io) None)) in
  run_attach (sr_session resp) (sr_pane resp).

Definition run_attach_cmd (session_prefix : string) (pane_prefix : option string) : C unit :=
  do! connect_control in
  let! session := resolve_session session_prefix in
  let! pane := match pane_prefix with Some prefix => resolve_pane session prefix | None => first_pane session end in
  run_attach session pane.

(** *** Listing *)
Definition session_line (s : SessionInfo) : string :=
  short8 (session_uuid (si_id s)) +:+ "  " +:+ pad_left 3 (show_Z (si_pane_count s)) +:+ " panes  "
    +:+ format_time (si_created_at s) +:+ "  " +:+ si_name s.
Definition run_sessions : C unit :=
  do! connect_control in
  let! sessions := rpc_call "list_sessions" list_sessions in
  for_each (λ s, println (session_line s)) sessions.

Definition pane_line (p : PaneInfo) : string :=
  short8 (pane_uuid (pi_id p)) +:+ "  " +:+ (match pi_closed_at p with Some _ => "closed" | None => "open  " end) +:+ "  "
    +:+ show_Z (pi_cols p) +:+ "x" +:+ show_Z (pi_rows p) +:+ "  " +:+ format_time (pi_created_at p) +:+ "  " +:+ pi_shell p.
Definition run_panes (session_prefix : string) : C unit :=
  do! connect_control in
  let! session := resolve_session session_prefix in
  let! panes := rpc_call "list_panes" (list_panes session) in
  for_each (λ p, println (pane_line p)) panes.

Definition block_line (b : Block) : string :=
  pad_right 8 (short8 (block_uuid (blk_id b))) +:+ "  " +:+ format_time (blk_started_at b) +:+ "  "
    +:+ pad_right 4 (match blk_exit_code b with Some c => show_Z c | None => "-" end) +:+ "  " +:+ blk_command b.
Definition run_list (limit : Z) : C unit :=
  do! connect_control in
  let! blocks := rpc_call "list_blocks" (list_blocks (MkListBlocksReq None limit)) in
  for_each (λ b, println (block_line b)) blocks.

(** [.replace('\n', " ")] *)
Definition show_hit (h : BlockHit) : C unit :=
  do! println (pad_right 8 (short8 (block_uuid (blk_id (bh_block h)))) +:+ "  " +:+ blk_command (bh_block h)) in
  println ("    " +:+ one_line (bh_snippet h)).
Definition run_search (query : string) (limit : Z) (failures : bool) : C unit :=
  do! connect_control in
  let! hits := rpc_call "search_blocks" (search_blocks (MkSearchBlocksReq query limit failures None None None)) in
  for_each show_hit hits.

Definition status_header : string :=
  let '(reset, dim) := if pe_stdout_tty io then (esc_color "[0m", esc_color "[2m") else ("", "") in
  dim +:+ pad_right 8 "SESSION" +:+ "  " +:+ pad_right 8 "PANE" +:+ "  " +:+ pad_right 11 "STATE" +:+ "  "
    +:+ pad_right 14 "LAST ACTIVITY" +:+ "  " +:+ pad_right 16 "FOREGROUND" +:+ "  PID" +:+ reset.
Definition status_line (p : PaneInfo) : string :=
  let reset := if pe_stdout_tty io then esc_color "[0m" else "" in
  let state_str := state_color (pi_state p) (pe_stdout_tty io) +:+ of_chars [state_dot (pi_state p)] +:+ " "
                     +:+ PaneStateKind_to_string (pi_state p) +:+ reset in
  short8 (session_uuid (pi_session p)) +:+ "  " +:+ short8 (pane_uuid (pi_id p)) +:+ "  " +:+ pad_right 20 state_str +:+ "  "
    +:+ pad_right 14 (elapsed (pe_now io) (pi_last_activity p)) +:+ "  "
    +:+ pad_right 16 (default "-" (pi_foreground_cmd p)) +:+ "  " +:+ show_Z (pi_root_pid p).
Definition run_status (waiting json : bool) : C unit :=
  do! connect_control in
  let! all := rpc_call "list_all_panes" list_all_panes in
  let panes := if waiting then filter (λ p, pi_state p = WaitingInput) all else all in
  if json then let! text := expect (json_pretty panes) NotJson in println text
  else
    do! println status_header in
    do! for_each (λ p, println (status_line p)) panes in
    if decide (panes = []) then println "no panes" else ret tt.

(** *** Panes *)
Definition open_req (session : SessionId) (sh : option string) (cols rows : Z) : OpenPaneReq :=
  MkOpenPaneReq session (MkWindowId 0) sh (pe_cwd io) cols rows (pe_vars io) None.
Definition open_and_print (session_prefix : string) (sh : option string) (cols rows : Z) : C unit :=
  do! connect_control in
  let! session := resolve_session session_prefix in
  let! pane := rpc_call "open_pane" (open_pane (open_req session sh cols rows)) in
  println (uuid_to_string (pane_uuid pane)).
Definition run_new_pane (session_prefix : string) (sh : option string) (cols rows : Z) : C unit :=
  open_and_print session_prefix sh cols rows.
Definition run_split_window (session_prefix : string) : C unit :=
  open_and_print session_prefix (pe_shell io) term_size.1 term_size.2.

Definition run_capture_pane (pane_prefix : string) (session_prefix : option string) (lines : Z) : C unit :=
  do! connect_control in
  let! pane := match session_prefix with
               | Some sp => let! session := resolve_session sp in resolve_pane session pane_prefix
               | None => scan_pane pane_prefix
               end in
  let! bytes := rpc_call "capture_pane" (capture_pane pane lines) in
  do! print_lossy bytes in
  if bool_decide (last (from_utf8_lossy bytes) = Some 10) then ret tt else println "".

Definition run_kill_session (target : string) : C unit :=
  do! connect_control in
  let! session := resolve_session target in
  rpc_call "close_session" (close_session session).

Definition run_send_keys (pane_prefix : string) (keys : list string) (append_enter : bool) : C unit :=
  do! connect_control in
  let! pane := scan_pane pane_prefix in
  rpc_call "send_keys" (send_keys pane (str_bytes (join_space keys) ++ if append_enter then [x0d] else [])).

Definition run_wait_pane (pane_prefix : string) (state : string) (timeout : Z) : C unit :=
  do! connect_control in
  let! pane := resolve_pane_global pane_prefix in
  let! kind := of_result (PaneState_parse state) in
  let! reached := rpc_call "wait_pane_state" (wait_pane_state pane kind (Z.min (timeout * 1000) (2 ^ 32 - 1))) in
  if reached : bool then println ("reached " +:+ PaneStateKind_to_string kind) else throw (WaitTimeout timeout kind).

Definition run_pane_read (pane_prefix : string) (session : option string) (lines : Z) (source : string) : C unit :=
  do! connect_control in
  let! pane := match session with
               | Some sess => let! s := resolve_session sess in resolve_pane s pane_prefix
               | None => resolve_pane_global pane_prefix
               end in
  if bool_decide (source = "ring") then
    let! bytes := rpc_call "capture_pane" (capture_pane pane lines) in print_lossy bytes
  else if bool_decide (source = "block-last") then
    let! block := rpc_call "last_block_for_pane" (last_block_for_pane pane) in
    match block with
    | None => eprintln "no blocks for pane"
    | Some b => let! bytes := rpc_call "get_block_stdout" (get_block_stdout (blk_id b)) in print_lossy bytes
    end
  else throw (UnknownSource source).

Definition run_pane_run (session_prefix : string) (command : list string) : C unit :=
  if decide (command = []) then throw NoCommandGiven
  else
    do! connect_control in
    let! session := resolve_session session_prefix in
    let! pane := first_pane session in
    do! rpc_call "send_keys" (send_keys pane (str_bytes (join_space command) ++ [x0d])) in
    println ("sent to pane " +:+ uuid_to_string (pane_uuid pane)).

Definition run_select_pane (target : string) : C unit :=
  do! connect_control in
  let! pane := resolve_pane_global target in
  do! rpc_call "request_focus" (request_focus pane) in
  println ("focus requested for pane " +:+ short8 (pane_uuid pane) +:+ "; open `pyre` to apply").

(** *** Sessions *)
Definition run_session_new (name : string) (cwd : option PathBuf) (shell_arg : option string) (detach : bool) : C unit :=
  do! connect_control in
  let sh := match shell_arg with Some s => Some s | None => pe_shell io end in
  let! resp := rpc_call "spawn" (spawn (spawn_req sh cwd (Some name))) in
  do! println ("session=" +:+ uuid_to_string (session_uuid (sr_session resp))
                 +:+ " pane=" +:+ uuid_to_string (pane_uuid (sr_pane resp))) in
  if detach then ret tt else run_attach (sr_session resp) (sr_pane resp).

(** [new-session]: the name it is given is not used. *)
Definition run_new_session (shell_arg : option string) (detach : bool) : C unit :=
  do! connect_control in
  let! resp := rpc_call "spawn" (spawn (spawn_req (shell_or_fallback shell_arg) (pe_cwd io) None)) in
  do! println (uuid_to_string (session_uuid (sr_session resp))) in
  if detach then ret tt else run_attach (sr_session resp) (sr_pane resp).

(** *** Local commands *)
Definition run_shell_init (sh : string) : C unit :=
  if bool_decide (sh = "bash") then print (str_bytes BASH_SCRIPT)
  else if bool_decide (sh = "zsh") then print (str_bytes ZSH_SCRIPT)
  else if bool_decide (sh = "fish") then print (str_bytes FISH_SCRIPT)
  else throw (UnsupportedShell sh).

Definition integration_config_dir : PathBuf :=
  Store.path_join (Store.path_join (default "." (pe_config_dir io)) "pyre") "integrations".
(** [std::fs::create_dir_all] and [std::fs::write] *)
Definition make_dir (dir : PathBuf) : C unit :=
  match pe_file_error io dir with Some why => throw (FileError why) | None => ret tt end.
Definition write_file (path : PathBuf) (text : string) : C unit :=
  match pe_file_error io path with
  | Some why => throw (FileError why)
  | None => modify (λ w, w <| wo_files ::= <[path := str_bytes text]> |>)
  end.
Definition unlines (ls : list string) : string := String.concat (bytes_str nl) ls +:+ bytes_str nl.
Definition quoted (s : string) : string := dq +:+ s +:+ dq.

Definition notify_script : string := unlines
  ["#!/usr/bin/env sh";
   "# Notify pyred that an agent pane needs attention (or resumed).";
   "# Usage: pyre-notify.sh <state> <pane-prefix>";
   "#   state: waiting | running | done | idle";
   "#   pane-prefix: first 8+ chars of pane uuid (pyrec status --json)";
   "set -eu";
   "STATE=" +:+ quoted "${1:-waiting}";
   "PANE=" +:+ quoted "${2:-}";
   "if [ -z " +:+ quoted "$PANE" +:+ " ]; then";
   "  echo " +:+ quoted "usage: pyre-notify.sh <state> <pane-prefix>" +:+ " >&2";
   "  exit 2";
   "fi";
   "SOCKET=" +:+ quoted "${PYRE_SOCKET:-}";
   "if [ -z " +:+ quoted "$SOCKET" +:+ " ]; then";
   "  UID=" +:+ quoted "$(id -u)";
   "  SOCKET=" +:+ quoted "/tmp/pyre-${UID}.sock";
   "fi";
   "export PYRE_SOCKET=" +:+ quoted "$SOCKET";
   "exec pyrec wait-pane --socket " +:+ quoted "$SOCKET" +:+ " --pane " +:+ quoted "$PANE" +:+ " --state " +:+ quoted "$STATE"
     +:+ " --timeout " +:+ quoted "${PYRE_WAIT_TIMEOUT:-120}"].
Definition fence : string := "```".
Definition agent_notes (agent : string) : string := unlines
  ["# pyre integration: " +:+ agent; "";
   "## Quick hook"; "";
   "After starting a pane, copy its id prefix from `pyrec status --json`, then:"; "";
   fence +:+ "bash";
   "export PYRE_SOCKET=" +:+ quoted "${PYRE_SOCKET:-/tmp/pyre-$(id -u).sock}";
   "~/.config/pyre/integrations/pyre-notify.sh waiting <pane-prefix>";
   fence; "";
   "When the agent finishes or needs no more input:"; "";
   fence +:+ "bash";
   "~/.config/pyre/integrations/pyre-notify.sh running <pane-prefix>";
   fence; "";
   "## " +:+ agent +:+ "-specific"; "";
   "- Map your tool's " +:+ quoted "needs approval" +:+ " / " +:+ quoted "blocked" +:+ " event " +:+ of_chars [0x2192] +:+ " `waiting`";
   "- Map " +:+ quoted "running" +:+ " / " +:+ quoted "tool use" +:+ " " +:+ of_chars [0x2192] +:+ " `running`";
   "- Optional: call `pyrec doctor` to verify socket + RPC (`proto_version=" +:+ show_Z PROTO_VERSION +:+ "`)"; "";
   "See `docs/AGENTS.md` and `docs/agent-skill.md` in the pyre repository."].

(** The script is written once, the notes every time. *)
Definition run_integration_install (agent : string) : C unit :=
  let dir := integration_config_dir in
  do! make_dir dir in
  let script_path := Store.path_join dir "pyre-notify.sh" in
  let! files := gets wo_files in
  do! (if pe_exists io script_path || bool_decide (is_Some (files !! script_path)) then ret tt
       else
         do! write_file script_path notify_script in
         do! match pe_chmod_error io with Some why => throw (FileError why) | None => ret tt end in
         do! modify (λ w, w <| wo_executable ::= (.++ [script_path]) |>) in
         println ("wrote " +:+ script_path)) in
  let path := Store.path_join dir (agent +:+ ".md") in
  do! write_file path (agent_notes agent) in
  println ("wrote " +:+ path).

(** [mark_ok] and [mark_fail]: whether the check failed. *)
Definition mark (ok : bool) (msg : string) : C bool :=
  do! eprintln ((if ok then "OK: " else "FAIL: ") +:+ msg) in ret (negb ok).
Definition check_rpc : C bool :=
  match pe_connect io with
  | Some why => mark false ("connect/handshake: " +:+ why)
  | None =>
      do! mark true ("RPC handshake (proto_version=" +:+ show_Z PROTO_VERSION +:+ ")") in
      let! r := (λ w, let '(d, r) := list_sessions (wo_daemon w) in (w <| wo_daemon := d |>, Ok r)) in
      match r with
      | Ok sessions => mark true ("list_sessions " +:+ of_chars [0x2192] +:+ " " +:+ show_Z (Z.of_nat (length sessions)) +:+ " session(s)")
      | Err (Remote e) => mark false ("list_sessions daemon error: " +:+ error_text (Remote e))
      | Err Transport => mark false ("list_sessions transport: " +:+ error_text Transport)
      end
  end.
Definition check_data : C bool :=
  match pe_data_var io, pe_data_dir io with
  | Some dir, _ =>
      if pe_exists io (Store.path_join dir "state.db") then mark true ("state.db at " +:+ dir)
      else mark false ("state.db missing under " +:+ dir)
  | None, Some d =>
      let dir := Store.path_join d "pyre" in
      if pe_exists io (Store.path_join dir "state.db") then mark true ("state.db at " +:+ dir)
      else mark false ("state.db missing under " +:+ dir)
  | None, None => mark false "could not resolve data directory (set PYRE_DATA_DIR)"
  end.
Definition run_doctor : C unit :=
  let sock := " (" +:+ pe_socket io +:+ ")" in
  let! f1 := if pe_exists io (pe_socket io) then mark true ("socket exists" +:+ sock) else mark false ("socket missing" +:+ sock) in
  let! f2 := check_rpc in
  let! f3 := check_data in
  if f1 || f2 || f3 then throw ExitOne else ret tt.

Definition run_remote (host remote_socket : string) (local_socket : option PathBuf) (exec : bool) : C unit :=
  let local := derive_local_socket alphanumeric (pe_runtime_dir io) host local_socket in
  let args := format_ssh_args host local remote_socket in
  if exec then
    if pe_ssh_missing io then throw NoSsh
    else
      do! eprintln ("Spawning SSH tunnel " +:+ of_chars [0x2014] +:+ " open another terminal and run:" +:+ bytes_str nl
                    +:+ "  pyrec --socket " +:+ local +:+ " <cmd>" +:+ bytes_str nl +:+ "  pyre --socket " +:+ local +:+ bytes_str nl) in
      match pe_ssh io with
      | Err why => throw (SshFailed why)
      | Ok code => if bool_decide (code = Some 0) then ret tt else throw (SshExit (default (-1) code))
      end
  else
    do! println ("ssh " +:+ join_space args) in
    do! println "" in
    do! println "Then in another terminal:" in
    do! println ("  pyrec --socket " +:+ local +:+ " <subcommand>") in
    println ("  pyre  --socket " +:+ local).

(** ** The command line ([Cli] and [Sub]), as clap parsed it *)
Inductive PaneCmd := Read (pane : string) (session : option string) (lines : Z) (source : string).
Inductive Sub :=
  | SubSessions | SubPanes (session : string) | SubAttach (session : string) (pane : option string)
  | SubNewPane (session : string) (sh : option string) (cols rows : Z)
  | SubList (limit : Z) | SubSearch (query : string) (limit : Z) (failures : bool) | SubDoctor
  | SubCapturePane (pane : string) (session : option string) (lines : Z) (pipe : bool)
  | SubStatus (waiting json : bool)
  | SubListSessions | SubListPanes (target : string) | SubListWindows (target : string)
  | SubNewSession (name : option string) (detach : bool) | SubKillSession (target : string)
  | SubSendKeys (target : string) (keys : list string) (enter : bool)
  | SubSplitWindow (target : string) (horizontal vertical : bool)
  | SubSelectPane (target : string) | SubDisplayMessage (message : string)
  | SubWaitPane (pane state : string) (timeout : Z) | SubPane (cmd : PaneCmd)
  | SubPaneRun (session : string) (command : list string)
  | SubSessionNew (name : string) (cwd : option PathBuf) (detach : bool)
  | SubIntegrationInstall (agent : string) | SubShellInit (sh : string)
  | SubRemote (host remote_socket : string) (local_socket : option PathBuf) (exec : bool).

Definition main (shell_arg : option string) (command : option Sub) : C unit :=
  match command with
  | None => run_default shell_arg
  | Some SubSessions | Some SubListSessions => run_sessions
  | Some (SubPanes session) | Some (SubListPanes session) | Some (SubListWindows session) => run_panes session
  | Some (SubAttach session pane) => run_attach_cmd session pane
  | Some (SubNewPane session sh cols rows) => run_new_pane session sh cols rows
  | Some (SubStatus waiting json) => run_status waiting json
  | Some (SubList limit) => run_list limit
  | Some (SubSearch query limit failures) => run_search query limit failures
  | Some SubDoctor => run_doctor
  | Some (SubCapturePane pane session lines _) => run_capture_pane pane session lines
  | Some (SubNewSession _ detach) => run_new_session shell_arg detach
  | Some (SubKillSession target) => run_kill_session target
  | Some (SubSendKeys target keys enter) => run_send_keys target keys enter
  | Some (SubSplitWindow target _ _) => run_split_window target
  | Some (SubSelectPane target) => run_select_pane target
  | Some (SubDisplayMessage message) => eprintln message
  | Some (SubWaitPane pane state timeout) => run_wait_pane pane state timeout
  | Some (SubPane (Read pane session lines source)) => run_pane_read pane session lines source
  | Some (SubPaneRun session command) => run_pane_run session command
  | Some (SubSessionNew name cwd detach) => run_session_new name cwd shell_arg detach
  | Some (SubIntegrationInstall agent) => run_integration_install agent
  | Some (SubShellInit sh) => run_shell_init sh
  | Some (SubRemote host remote local exec) => run_remote host remote local exec
  end.
End Commands.

(** ** Properties *)
Section Facts.
Context `{UuidText, UnicodeLower} {D : Type} `{!PyreDaemon D} (io : Env).
Context (format_time : DateTime → string) (json_pretty : list PaneInfo → option string).
Context (error_text : RpcFailure → string) (alphanumeric : Z → bool) (BASH_SCRIPT ZSH_SCRIPT FISH_SCRIPT : string).

(** The terminal is in its own mode. *)
Definition cooked (w : World D) : Prop := wo_raw w = false.

Lemma cooked_zoom {A} (m : M D ClientError A) : keeps cooked (on_daemon m).
Proof. intros w Hw. unfold on_daemon, zoom. destruct (m (wo_daemon w)) as [d r]. exact Hw. Qed.
Lemma cooked_modify (f : World D → World D) : (∀ w, wo_raw (f w) = wo_raw w) → keeps (E := CliError) cooked (modify f).
Proof. intros Hf w Hw. unfold cooked, modify. cbn. by rewrite Hf. Qed.
Lemma cooked_print b : keeps cooked (print b).
Proof. by apply cooked_modify. Qed.
Lemma cooked_eprintln m : keeps cooked (eprintln m).
Proof. by apply cooked_modify. Qed.
Lemma cooked_connect : keeps cooked (connect_control io).
Proof. unfold connect_control. destruct (pe_connect io); [apply keeps_throw|apply keeps_ret]. Qed.
Lemma cooked_write path text : keeps cooked (write_file io path text).
Proof. unfold write_file. destruct (pe_file_error io path); [apply keeps_throw|by apply cooked_modify]. Qed.
End Facts.
Create HintDb cooked.
#[export] Hint Resolve cooked_zoom cooked_print cooked_eprintln cooked_connect cooked_write keeps_ret keeps_throw
  keeps_expect keeps_gets keeps_of_result : cooked.
Ltac cooked_step :=
  match goal with
  | |- keeps _ (let! _ := _ in _) => apply keeps_bind; [|intros ?]
  | |- keeps _ (for_each _ _) => apply keeps_for_each; intros ?
  | |- keeps _ (modify _) => apply cooked_modify; reflexivity
  | |- keeps _ (match ?x with _ => _ end) => destruct x
  end.
Ltac cooked_auto := cbn zeta; repeat first [solve [auto with cooked] | cooked_step].

Section Commands_facts.
Context `{UuidText, UnicodeLower} {D : Type} `{!PyreDaemon D} (io : Env).
Context (format_time : DateTime → string) (json_pretty : list PaneInfo → option string).
Context (error_text : RpcFailure → string) (alphanumeric : Z → bool) (BASH_SCRIPT ZSH_SCRIPT FISH_SCRIPT : string).
Implicit Types w : World D.

(** While the stream is shown the mode does not change, and nothing fails. *)
Lemma show_frames_run n frames w : ∃ w', show_frames io n frames w = (w', Ok tt) ∧ wo_raw w' = wo_raw w.
Proof.
  revert n w. induction frames as [|[data|] frames IH]; intros n w; cbn [show_frames]; [by eexists| |by eexists].
  destruct (pe_stdout_ok io n); [|by eexists]. destruct (IH (S n) (w <| wo_out ::= (.++ data) |>)) as (w' & Hw & Hr).
  by exists w'.
Qed.
Lemma on_ctrl_c_run session w : ∃ w', on_ctrl_c io session w = (w', Ok tt) ∧ wo_raw w' = wo_raw w.
Proof.
  unfold on_ctrl_c. destruct (pe_ctrl_c io), (pe_connect io); try by eexists.
  destruct (kill session (wo_daemon w)) as [d r]. by eexists.
Qed.
Lemma cooked_run_attach session pane : keeps cooked (run_attach io session pane).
Proof.
  unfold run_attach. apply keeps_bind; [apply cooked_zoom|]. intros _ w Hw. unfold enter_raw.
  destruct (pe_stdin_tty io); [destruct (pe_raw_ok io)|].
  - erewrite bind_ok by reflexivity. erewrite bind_ok by reflexivity.
    destruct (on_ctrl_c_run session (w <| wo_raw := true |> <| wo_sent ::= (.++ (MkInputFrame session <$> pe_stdin io)) |>)) as (w1 & H1 & _).
    erewrite bind_ok by exact H1. destruct (show_frames_run 0 (pe_frames io) w1) as (w2 & H2 & _).
    by erewrite bind_ok by exact H2.
  - by erewrite bind_err by reflexivity.
  - erewrite bind_ok by reflexivity. erewrite bind_ok by reflexivity.
    destruct (on_ctrl_c_run session (w <| wo_sent ::= (.++ (MkInputFrame session <$> pe_stdin io)) |>)) as (w1 & H1 & Hr1).
    erewrite bind_ok by exact H1. destruct (show_frames_run 0 (pe_frames io) w1) as (w2 & H2 & Hr2).
    erewrite bind_ok by exact H2. unfold leave_raw, ret, cooked in *. cbn. rewrite Hr2, Hr1. exact Hw.
Qed.
#[local] Hint Resolve cooked_run_attach : cooked.
Lemma cooked_resolve_global prefix : keeps cooked (resolve_pane_global (D := D) prefix).
Proof. unfold resolve_pane_global, rpc_call. cooked_auto. Qed.
Lemma cooked_scan prefix : keeps cooked (scan_pane (D := D) prefix).
Proof.
  unfold scan_pane, rpc_call. cooked_auto. match goal with |- keeps _ (scan_sessions _ ?ss) => induction ss as [|s ss IH] end; cbn [scan_sessions]; [apply keeps_ret|].
  unfold rpc_call. cooked_auto.
Qed.
#[local] Hint Resolve cooked_resolve_global cooked_scan : cooked.
Lemma cooked_mark ok msg : keeps cooked (mark (D := D) ok msg).
Proof. unfold mark. cooked_auto. Qed.
#[local] Hint Resolve cooked_mark : cooked.
Lemma cooked_check_rpc : keeps cooked (check_rpc io error_text).
Proof.
  unfold check_rpc. cooked_auto. intros w Hw. destruct (list_sessions (wo_daemon w)) as [d r]. exact Hw.
Qed.
#[local] Hint Resolve cooked_check_rpc : cooked.

Lemma main_cooked shell_arg command :
  keeps cooked (main io format_time json_pretty error_text alphanumeric BASH_SCRIPT ZSH_SCRIPT FISH_SCRIPT shell_arg command).
Proof.
  unfold main, run_default, run_sessions, run_panes, run_attach_cmd, run_new_pane, run_list, run_search, show_hit, run_doctor,
    check_data, run_capture_pane, run_status, run_new_session, run_kill_session, run_send_keys, run_split_window, open_and_print,
    run_select_pane, run_wait_pane, run_pane_read, run_pane_run, run_session_new, run_integration_install, run_shell_init,
    run_remote, resolve_session, resolve_pane, first_pane, rpc_call, print_lossy, println, make_dir.
  cooked_auto.
Qed.
End Commands_facts.

Section Contracts.
Context `{UuidText} {D : Type} `{!PyreDaemon D} (io : Env).
Implicit Types w : World D.

Lemma find_first_app {A} (f : A → bool) l1 l2 :
  find_first f (l1 ++ l2) = match find_first f l1 with Some x => Some x | None => find_first f l2 end.
Proof.
  unfold find_first. induction l1 as [|x l1 IH]; [done|]. cbn. case_decide; [done|].
  by destruct (list_find _ (l1 ++ l2)) as [[]|], (list_find _ l1) as [[]|].
Qed.
Lemma scan_sessions_run prefix (panes : SessionInfo → list PaneInfo) ss w :
  (∀ s, s ∈ ss → list_panes (si_id s) (wo_daemon w) = (wo_daemon w, Ok (panes s))) →
  scan_sessions prefix ss w = (w, Ok (pi_id <$> find_first (pane_matches prefix) (flat_map panes ss))).
Proof.
  intros Hp. induction ss as [|s ss IH]; [done|]. cbn [scan_sessions flat_map].
  assert (rpc_call "list_panes" (list_panes (si_id s)) w = (w, Ok (panes s))) as Hs.
  { unfold rpc_call, on_daemon, call, zoom. cbn. rewrite (Hp s) by by left. cbn. by destruct w. }
  erewrite bind_ok by exact Hs. rewrite find_first_app.
  destruct (find_first (pane_matches prefix) (panes s)); [done|]. apply IH. intros s' Hs'. apply Hp. by right.
Qed.
End Contracts.

(** C16: No command leaves the user's terminal in raw mode: whatever the command line
    is, whatever the daemon answers, wherever the command fails and however its stream
    ends, the terminal is in the mode it was in. *)
Theorem commands_restore_terminal `{UuidText, UnicodeLower} {D : Type} `{!PyreDaemon D} io format_time json_pretty error_text
    alphanumeric bash zsh fish shell_arg command (w : World D) :
  wo_raw w = false →
  wo_raw (main io format_time json_pretty error_text alphanumeric bash zsh fish shell_arg command w).1 = false.
Proof. apply main_cooked. Qed.

(** [kill-session] closes a session only if the prefix names exactly one of those
    the daemon lists, and then that one; otherwise the daemon is asked for nothing
    more and the error tells how many there are. *)
Theorem kill_session_contract `{UuidText} {D : Type} `{!PyreDaemon D} io prefix (w : World D) d ss :
  pe_connect io = None → list_sessions (wo_daemon w) = (d, Ok ss) →
  let found := filter (λ s, session_matches prefix s = true) ss in
  run_kill_session io prefix w =
  match found with
  | [s] => let '(d', r) := close_session (si_id s) d in
           (w <| wo_daemon := d' |>, match r with
                                     | Ok _ => Ok tt
                                     | Err Transport => Err (Cli RpcTransport)
                                     | Err (Remote e) => Err (Cli (DaemonError "close_session" e))
                                     end)
  | [] => (w <| wo_daemon := d |>, Err (Cli (NoMatch "session" prefix)))
  | _ => (w <| wo_daemon := d |>, Err (Cli (Ambiguous (length found) "session" prefix)))
  end.
Proof.
  intros Hc Hl found. unfold run_kill_session, connect_control. rewrite Hc. erewrite bind_ok by reflexivity.
  unfold resolve_session, Client.resolve_session, rpc_call, on_daemon, call, zoom, bind, of_result, ret. cbn. rewrite Hl. cbn.
  fold found. clearbody found. destruct found as [|s [|s2 rest]]; [done| |done]. cbn.
  change (RecordSettersUsingExistingGetters.const d (wo_daemon w)) with d.
  destruct (close_session (si_id s) d) as [d' [[]|[|e]]]; done.
Qed.

(** [send-keys] types the words, joined by blanks, and a carriage return if asked
    for, into the first pane - by the order of the daemon's sessions and of their
    panes - whose identifier starts with the prefix, even if there are others; without
    one nothing is sent. *)
Theorem send_keys_contract `{UuidText} {D : Type} `{!PyreDaemon D} io prefix keys enter (w : World D) ss panes :
  pe_connect io = None → list_sessions (wo_daemon w) = (wo_daemon w, Ok ss) →
  (∀ s, s ∈ ss → list_panes (si_id s) (wo_daemon w) = (wo_daemon w, Ok (panes s))) →
  run_send_keys io prefix keys enter w =
  match find_first (pane_matches prefix) (flat_map panes ss) with
  | None => (w, Err (Cli (NoMatch "pane" prefix)))
  | Some p => rpc_call "send_keys" (send_keys (pi_id p) (str_bytes (join_space keys) ++ if enter then [x0d] else [])) w
  end.
Proof.
  intros Hc Hl Hp. unfold run_send_keys, connect_control. rewrite Hc. erewrite bind_ok by reflexivity.
  unfold scan_pane. assert (rpc_call "list_sessions" list_sessions w = (w, Ok ss)) as Hs.
  { unfold rpc_call, on_daemon, call, zoom. cbn. rewrite Hl. cbn. by destruct w. }
  pose proof (scan_sessions_run prefix panes ss w Hp) as Hscan. destruct (find_first _ _) as [p|].
  - erewrite bind_ok; [reflexivity|]. erewrite bind_ok by exact Hs. by erewrite bind_ok by exact Hscan.
  - erewrite bind_err; [reflexivity|]. erewrite bind_ok by exact Hs. by erewrite bind_ok by exact Hscan.
Qed.

Section Example.
#[local] Existing Instances binary_uuid PaneTracker.all_ascii_lower lone_daemon.

Definition plain_env : Env :=
  MkEnv "/tmp/pyre.sock" None (Some (80, 24)) None ["/bin/sh"] None [] true true [[x6c]] [Some [x6f; x6b]] (λ _, true) false false 0
    (λ _, false) None None None None (λ _, None) None false (Ok (Some 0)).
Definition at_start : World nat := MkWorld _ 0%nat [] [] [] ∅ [] false.

(** [attach]: the stream is shown, and the mode is what it was. *)
Lemma commands_restore_terminal_witness :
  let run := main plain_env (λ _, "") (λ _, None) (λ _, "") (λ _, false) "" "" "" None (Some (SubAttach "" None)) at_start in
  wo_out run.1 = [x6f; x6b] ∧ wo_raw run.1 = false.
Proof.
  intros run. split; [vm_compute; reflexivity|].
  exact (commands_restore_terminal plain_env (λ _, "") (λ _, None) (λ _, "") (λ _, false) "" "" "" None (Some (SubAttach "" None)) at_start eq_refl).
Defined.

Lemma kill_session_contract_witness : (run_kill_session plain_env "" at_start).2 = Ok tt.
Proof. by rewrite (@kill_session_contract binary_uuid nat lone_daemon plain_env "" at_start 0%nat [MkSessionInfo (MkSessionId 1) "work" 1 0 0] eq_refl eq_refl). Defined.

Lemma send_keys_contract_witness : (run_send_keys plain_env "" ["ls"; "-l"] true at_start).2 = Ok tt.
Proof.
  rewrite (@send_keys_contract binary_uuid nat lone_daemon plain_env "" ["ls"; "-l"] true at_start [MkSessionInfo (MkSessionId 1) "work" 1 0 0]
             (λ s, if decide (si_id s = MkSessionId 1) then [a_pane] else [])); [vm_compute; reflexivity|reflexivity..|].
  intros s ->%list_elem_of_singleton. reflexivity.
Defined.
End Example.
