(* ===== verification/Json.v ===== *)
(** * Json: JSON values (the crate serde_json)

    [Value] with the accessors the bridge reads requests with, the [json!] objects it
    answers with, and the texts of values as a class. *)
From S2P Require Import Prelude Proto Text Layout Libraries.
Local Open Scope Z_scope.

(** An integer between [-2^63] and [2^64 - 1]; any other number is a float. *)
Inductive Json :=
  | JNull
  | JBool (b : bool)
  | JInt (z : Z)
  | JFloat (text : string)
  | JStr (s : string)
  | JArr (items : list Json)
  | JObj (fields : list (string * Json)).

(** Fields of an object are in the order they were written; a printer sorts them. *)
Fixpoint field {A} (key : string) (fields : list (string * A)) : option A :=
  match fields with
  | [] => None
  | (k, v) :: rest => if decide (k = key) then Some v else field key rest
  end.

(** [value.get(key)], and [value[key]], which is [Null] for what is not there. *)
Definition json_get (key : string) (v : Json) : option Json :=
  match v with JObj fields => field key fields | _ => None end.
Definition index (v : Json) (key : string) : Json := default JNull (json_get key v).

Definition as_str (v : Json) : option string := match v with JStr s => Some s | _ => None end.
Definition as_bool (v : Json) : option bool := match v with JBool b => Some b | _ => None end.
Definition as_u64 (v : Json) : option Z := match v with JInt z => if 0 <=? z then Some z else None | _ => None end.
Definition as_i64 (v : Json) : option Z := match v with JInt z => if z <? 2 ^ 63 then Some z else None | _ => None end.
Definition as_array (v : Json) : option (list Json) := match v with JArr l => Some l | _ => None end.
Definition is_object (v : Json) : bool := match v with JObj _ => true | _ => false end.

(** An [Option] as a value. *)
Definition or_null {A} (f : A → Json) (o : option A) : Json := match o with Some a => f a | None => JNull end.
Definition strings (l : list string) : Json := JArr (JStr <$> l).

(** The texts of values, and the values of the types of pyre-proto that derive
    [Serialize]. *)
Class SerdeJson := {
  json_line : Json → string;                      (** [serde_json::to_string] *)
  json_pretty : Json → string;
  pane_json : PaneInfo → Json;
  session_json : SessionInfo → Json;
  layout_json : LayoutNode → Json }.

(** Texts that say nothing. *)
Definition silent_json : SerdeJson :=
  {| json_line := λ _, ""; json_pretty := λ _, ""; pane_json := λ _, JNull; session_json := λ _, JNull; layout_json := λ _, JNull |}.

Lemma field_app {A} key (l1 l2 : list (string * A)) :
  field key (l1 ++ l2) = match field key l1 with Some v => Some v | None => field key l2 end.
Proof. induction l1 as [|[k v] l1 IH]; [done|]. cbn. by case_decide. Qed.
