(* ===== verification/Mcp.v ===== *)
(** * Mcp: the bridge for agents (pyre-mcp/src/main.rs): server state and resources

    The server answers JSON-RPC requests by calls of the daemon. A handler runs on the
    server's state: the daemon, the tasks of the subscriptions, the lines handed to the
    task that writes the standard output. The daemon is any machine that answers the
    calls (class [PyreDaemon]), so what other requests and other clients do between two
    calls of a handler is part of it. *)
From Stdlib Require Import Strings.Byte.
From coqutil Require Export Datatypes.RecordSettersUsingExistingGetters.
From S2P Require Import Prelude Proto Text Layout Libraries Effects Store Server Client Json.
Local Open Scope Z_scope.

(** ** Requests, responses and errors *)
Record Request := MkRequest { rq_id : option Json; rq_method : string; rq_params : Json }.

Record RpcErrorData := MkErrorData { red_code : string; red_hint : string }.
Record RpcError := MkRpcError { re_code : Z; re_message : string; re_data : option RpcErrorData }.
Record Response := MkResponse { rs_id : option Json; rs_result : option Json; rs_error : option RpcError }.

(** The sentences of the errors and their codes. *)
Definition quoted (s : string) : string := "'" +:+ s +:+ "'".
Definition show_nat (n : nat) : string := show_Z (Z.of_nat n).

Definition no_such_pane (prefix : string) : RpcErrorData :=
  MkErrorData "no_such_pane" ("No pane matches prefix " +:+ quoted prefix +:+ ". Call list_panes to see active pane IDs.").
Definition ambiguous_pane_id (prefix : string) (count : nat) : RpcErrorData :=
  MkErrorData "ambiguous_pane_id"
    (show_nat count +:+ " panes match prefix " +:+ quoted prefix +:+ ". Provide a longer prefix (≥12 chars).").
Definition no_such_session (prefix : string) : RpcErrorData :=
  MkErrorData "no_such_session"
    ("No session matches prefix " +:+ quoted prefix +:+ ". Call list_sessions to see active session IDs.").
Definition ambiguous_session_id (prefix : string) (count : nat) : RpcErrorData :=
  MkErrorData "ambiguous_session_id"
    (show_nat count +:+ " sessions match prefix " +:+ quoted prefix +:+ ". Provide a longer prefix (≥12 chars).").
Definition daemon_unreachable : RpcErrorData :=
  MkErrorData "daemon_unreachable" "Cannot connect to pyred. Start the daemon with `pyred` or check PYRE_SOCK.".

(** How a handler ends without a value: an error - one that carries data, or a
    sentence -, a panic of its task, or fuel that was too little. *)
Inductive McpError := Structured (message : string) (data : RpcErrorData) | Plain (message : string).
Inductive Failure := Failed (e : McpError) | Panicked | NoFuel.

Definition Response_ok (id : option Json) (result : Json) : Response := MkResponse id (Some result) None.
Definition Response_err (id : option Json) (code : Z) (message : string) : Response :=
  MkResponse id None (Some (MkRpcError code message None)).
Definition notification (method : string) (params : Json) : Json :=
  JObj [("jsonrpc", JStr "2.0"); ("method", JStr method); ("params", params)].

(** Fields that are absent are left out ([skip_serializing_if]). *)
Definition opt_field {A} (key : string) (f : A → Json) (o : option A) : list (string * Json) :=
  match o with Some a => [(key, f a)] | None => [] end.
Definition error_data_json (d : RpcErrorData) : Json := JObj [("code", JStr (red_code d)); ("hint", JStr (red_hint d))].
Definition error_json (e : RpcError) : Json :=
  JObj ([("code", JInt (re_code e)); ("message", JStr (re_message e))] ++ opt_field "data" error_data_json (re_data e)).
Definition response_json (r : Response) : Json :=
  JObj ([("jsonrpc", JStr "2.0")] ++ opt_field "id" id (rs_id r) ++ opt_field "result" id (rs_result r)
        ++ opt_field "error" error_json (rs_error r)).

(** ** The state of the server *)

(** The task of a subscription; times in milliseconds. *)
Record SubTask := MkSubTask { st_seq : Z; st_backoff : Z; st_running : bool }.
Definition new_sub : SubTask := MkSubTask 0 100 true.

Record Server {D : Type} := MkServer {
  sv_daemon : D;
  sv_subscriptions : gmap string SubTask;
  sv_out : list string;                           (** the lines sent to the writer *)
  sv_writer : bool }.                             (** the writer still takes lines *)
Arguments Server : clear implicits.
Arguments MkServer {D} _ _ _ _.

(** What a request finds of the system: why connecting fails, SHELL and the variables,
    and the clock, in milliseconds, after each sleep of the request. *)
Record Io := MkIo {
  io_connect : option string;
  io_shell : option string;
  io_vars : list (string * string);
  io_clock : nat → Z;
  io_fuel : nat }.

(** [str::splitn(n, c)] *)
Fixpoint splitn (n : nat) (c : Byte.byte) (l : Bytes) : list Bytes :=
  match n, l with
  | O, _ => []
  | S O, _ => [l]
  | S _, [] => [[]]
  | S n', _ =>
      (fix go (before l : Bytes) : list Bytes :=
         match l with
         | [] => [rev before]
         | b :: l' => if decide (b = c) then rev before :: splitn n' c l' else go (b :: before) l'
         end) [] l
  end.

Section Server.
Context `{UuidText, SerdeJson} {D : Type} `{!PyreDaemon D} (io : Io).
Context (error_text : PyreError → string).        (** its [Display] *)

Definition T (A : Type) : Type := M (Server D) Failure A.

Definition fail {A} (message : string) : T A := throw (Failed (Plain message)).
(** [.ok_or_else(|| anyhow!("missing .."))?] *)
Definition require {A} (o : option A) (message : string) : T A := expect o (Failed (Plain message)).
(** [.await.context(ctx)?.map_err(|e| anyhow!("{e}"))?] *)
Definition rpc {A} (ctx : string) (m : M D RpcFailure A) : T A :=
  zoom sv_daemon (λ d s, s <| sv_daemon := d |>)
    (λ f, Failed (Plain match f with Transport => ctx | Remote e => error_text e end)) m.

Definition client : T unit :=
  match io_connect io with
  | None => ret tt
  | Some e => throw (Failed (Structured ("daemon connection failed: " +:+ e) daemon_unreachable))
  end.

Definition send_line (value : Json) : T unit :=
  λ s, if sv_writer s then (s <| sv_out ::= (.++ [json_line value]) |>, Ok tt)
       else (s, Err (Failed (Plain "stdout closed"))).

(** ** Prefixes *)
Definition pane_starts (prefix : string) (p : PaneInfo) : bool :=
  starts_with (str_bytes prefix) (str_bytes (uuid_to_string (pane_uuid (pi_id p)))).
Definition session_starts (prefix : string) (u : SessionId) : bool :=
  starts_with (str_bytes prefix) (str_bytes (uuid_to_string (session_uuid u))).

Definition resolve_pane_id (prefix : string) : T PaneId :=
  let! all := rpc "rpc" list_all_panes in
  match filter (λ p, pane_starts prefix p = true) all with
  | [] => throw (Failed (Structured ("no pane matches prefix " +:+ quoted prefix) (no_such_pane prefix)))
  | [p] => ret (pi_id p)
  | ps => throw (Failed (Structured (show_nat (length ps) +:+ " panes match prefix " +:+ quoted prefix +:+ "; provide a longer prefix")
                                    (ambiguous_pane_id prefix (length ps))))
  end.
Definition resolve_session_id (prefix : string) : T SessionId :=
  let! sessions := rpc "rpc" list_sessions in
  match filter (λ s, session_starts prefix (si_id s) = true) sessions with
  | [] => throw (Failed (Structured ("no session matches prefix " +:+ quoted prefix) (no_such_session prefix)))
  | [s] => ret (si_id s)
  | ss => throw (Failed (Structured (show_nat (length ss) +:+ " sessions match prefix " +:+ quoted prefix +:+ "; provide a longer prefix")
                                    (ambiguous_session_id prefix (length ss))))
  end.

(** [String::from_utf8_lossy(bytes).into_owned()] *)
Definition lossy (bytes : Bytes) : string := of_chars (from_utf8_lossy bytes).

(** ** resources/list *)
Definition resource (uri name description mime : string) : Json :=
  JObj [("uri", JStr uri); ("name", JStr name); ("description", JStr description); ("mimeType", JStr mime)].
Definition pane_resources (short : string) (p : PaneInfo) : list Json :=
  let ps := short8 (pane_uuid (pi_id p)) in
  [ resource ("pane://" +:+ short +:+ "/" +:+ ps) ("Pane " +:+ ps) "PaneInfo metadata" "application/json";
    resource ("pane://" +:+ short +:+ "/" +:+ ps +:+ "/output") ("Pane " +:+ ps +:+ " output") "Last 200 lines of pane ring buffer"
      "text/plain" ].
Definition block_resource (b : Block) : Json :=
  resource ("block://" +:+ uuid_to_string (block_uuid (blk_id b))) ("Block " +:+ short8 (block_uuid (blk_id b)))
    ("Block stdout: " +:+ blk_command b) "text/plain".

Fixpoint session_resources (ss : list SessionInfo) : T (list Json) :=
  match ss with
  | [] => ret []
  | s :: ss' =>
      let short := short8 (session_uuid (si_id s)) in
      let here := resource ("session://" +:+ short) ("Session " +:+ short) ("Session info + panes for " +:+ si_name s) "application/json" in
      let! panes := rpc "rpc" (list_panes (si_id s)) in
      let! rest := session_resources ss' in
      ret (here :: flat_map (pane_resources short) panes ++ rest)
  end.

Definition handle_resources_list : T Json :=
  do! client in
  let! sessions := rpc "rpc" list_sessions in
  let first := resource "state://panes" "All panes (live state)" "JSON array of every PaneInfo across all sessions" "application/json" in
  let! of_sessions := session_resources sessions in
  let! blocks := rpc "rpc" (list_blocks (MkListBlocksReq None 100)) in
  ret (JObj [("resources", JArr (first :: of_sessions ++ (block_resource <$> blocks)))]).

(** ** resources/read: the kind of the content and its text *)
Definition read_session (prefix : string) : T (string * string) :=
  let! sessions := rpc "rpc" list_sessions in
  let! sess := require (find_first (λ s, session_starts prefix (si_id s)) sessions) ("no session matches " +:+ quoted prefix) in
  let! panes := rpc "rpc" (list_panes (si_id sess)) in
  ret ("application/json", json_pretty (JObj [("session", session_json sess); ("panes", JArr (pane_json <$> panes))])).

Definition read_pane (uri : string) (rest : Bytes) : T (string * string) :=
  match splitn 3 x2f rest with
  | sess_prefix :: pane_prefix :: more =>
      let is_output := bool_decide (head more = Some (str_bytes "output")) in
      let! all := rpc "rpc" list_all_panes in
      let! pane := require (find_first (λ p, session_starts (bytes_str sess_prefix) (pi_session p)
                                             && pane_starts (bytes_str pane_prefix) p) all)
                           ("no pane matches " +:+ quoted uri) in
      if is_output then
        let! bytes := rpc "rpc" (capture_pane (pi_id pane) 200) in
        ret ("text/plain", lossy bytes)
      else ret ("application/json", json_pretty (pane_json pane))
  | _ => fail ("invalid pane URI: " +:+ uri)
  end.

Definition read_block (text : string) : T (string * string) :=
  let! uuid := require (uuid_parse text) ("invalid block UUID: " +:+ text) in
  let! bytes := rpc "rpc" (get_block_stdout (MkBlockId uuid)) in
  ret ("text/plain", lossy bytes).

Definition read_uri (uri : string) : T (string * string) :=
  do! client in
  let u := str_bytes uri in
  if bool_decide (uri = "state://panes") then
    let! panes := rpc "rpc" list_all_panes in
    ret ("application/json", json_pretty (JArr (pane_json <$> panes)))
  else
    match strip_prefix (str_bytes "session://") u with
    | Some rest => read_session (bytes_str rest)
    | None =>
        match strip_prefix (str_bytes "pane://") u with
        | Some rest => read_pane uri rest
        | None =>
            match strip_prefix (str_bytes "block://") u with
            | Some rest => read_block (bytes_str rest)
            | None => fail ("unknown URI scheme: " +:+ uri)
            end
        end
    end.

Definition handle_resources_read (params : Json) : T Json :=
  let! uri := require (as_str (index params "uri")) "missing uri" in
  let! content := read_uri uri in
  ret (JObj [("contents", JArr [JObj [("uri", JStr uri); ("mimeType", JStr content.1); ("text", JStr content.2)]])]).

(** ** Subscriptions *)
Definition handle_resources_subscribe (params : Json) : T unit :=
  let! uri := require (as_str (index params "uri")) "missing uri" in
  let! subs := gets sv_subscriptions in
  match subs !! uri with
  | Some _ => ret tt
  | None => modify (λ s, s <| sv_subscriptions ::= <[uri := new_sub]> |>)
  end.
(** The task is aborted with its entry. *)
Definition handle_resources_unsubscribe (params : Json) : T unit :=
  let! uri := require (as_str (index params "uri")) "missing uri" in
  modify (λ s, s <| sv_subscriptions ::= delete uri |>).

(** *** One round of a task: the state it goes on with, whether it notifies, how long
    it then sleeps. *)
Inductive Poll := Unreachable | Events (events : list PaneEvent) | PollFailed.
Definition backed_off (t : SubTask) : SubTask := MkSubTask (st_seq t) (Z.min (st_backoff t * 2) 5000) (st_running t).
Definition sub_round (answer : Poll) (t : SubTask) : SubTask * bool * Z :=
  match answer with
  | Events events =>
      match last events with
      | Some ev => (MkSubTask (ev_seq ev) 100 (st_running t), true, 0)
      | None => (MkSubTask (st_seq t) 100 (st_running t), false, 0)
      end
  | Unreachable | PollFailed => (backed_off t, false, st_backoff t)
  end.

(** The round of the task of [uri], with what the daemon answers if it is reached. *)
Definition poll_daemon (connected : bool) (t : SubTask) (s : Server D) : Server D * Poll :=
  if connected then
    match next_pane_event (st_seq t) (sv_daemon s) with
    | (d, Ok events) => (s <| sv_daemon := d |>, Events events)
    | (d, Err _) => (s <| sv_daemon := d |>, PollFailed)
    end
  else (s, Unreachable).
Definition updated (uri : string) : Json := notification "notifications/resources/updated" (JObj [("uri", JStr uri)]).
Definition subscription_step (uri : string) (connected : bool) (s : Server D) : Server D :=
  match sv_subscriptions s !! uri with
  | Some t =>
      if st_running t then
        let '(s1, answer) := poll_daemon connected t s in
        let '(t', notify, _) := sub_round answer t in
        if notify then
          match send_line (updated uri) s1 with
          | (s2, Ok _) => s2 <| sv_subscriptions ::= <[uri := t']> |>
          | (s2, Err _) => s2 <| sv_subscriptions ::= <[uri := MkSubTask (st_seq t') (st_backoff t') false]> |>
          end
        else s1 <| sv_subscriptions ::= <[uri := t']> |>
      else s
  | None => s
  end.
End Server.
