(* ===== verification/McpTools.v ===== *)
(** * McpTools: the tools of the bridge (pyre-mcp/src/main.rs)

    One definition per tool: it reads its arguments, finds the pane or the session a
    prefix names, calls the daemon and tells what came of it. [pane_run_command] polls
    until a deadline: the clock is an argument, and [io_fuel] bounds the rounds. At
    the end ([McpMain]) the dispatch of requests and the loop over standard input. *)
From Stdlib Require Import Strings.Byte.
From coqutil Require Export Datatypes.RecordSettersUsingExistingGetters.
From S2P Require Import Prelude Proto Text Layout Libraries Effects Store Server Client Json Mcp.
Local Open Scope Z_scope.

(** ** Output for an answer: its last 8 KB *)
Definition OUTPUT_MAX_BYTES : nat := 8 * 1024.
Definition truncate_output (raw : Bytes) : string * bool :=
  if (length raw <=? OUTPUT_MAX_BYTES)%nat then (lossy raw, false)
  else
    let start := (length raw - OUTPUT_MAX_BYTES)%nat in
    ("[... " +:+ show_nat start +:+ " bytes truncated, showing last " +:+ show_nat OUTPUT_MAX_BYTES +:+ " bytes ...]"
       +:+ bytes_str [x0a] +:+ lossy (drop start raw), true).

(** What is added to an answer: the text, and the whole length if it was cut. *)
Definition output_fields (raw : Bytes) : list (string * Json) :=
  let '(text, truncated) := truncate_output raw in
  ("output", JStr text)
    :: if truncated then [("output_truncated", JBool true); ("output_full_bytes", JInt (Z.of_nat (length raw)))] else [].

Definition Orient_of (s : string) : option Orient :=
  if bool_decide (s = "horizontal") then Some Horizontal
  else if bool_decide (s = "vertical") then Some Vertical else None.

(** The states of [wait_pane_state], in any case, and those of [pane_set_state]. *)
Definition waited_state `{UnicodeLower} (s : string) : result string PaneStateKind :=
  let t := of_chars (to_lowercase (chars s)) in
  if bool_decide (t ∈ ["running"; "working"]) then Ok Running
  else if bool_decide (t ∈ ["waiting"; "waitinginput"; "blocked"]) then Ok WaitingInput
  else if bool_decide (t = "idle") then Ok Idle
  else if bool_decide (t = "interactive") then Ok Interactive
  else if bool_decide (t = "crashed") then Ok Crashed
  else if bool_decide (t = "done") then Ok Done
  else Err t.
Definition reported_state (s : string) : option PaneStateKind :=
  field s [("Running", Running); ("WaitingInput", WaitingInput); ("Idle", Idle); ("Interactive", Interactive);
           ("Crashed", Crashed); ("Done", Done)].

Section Tools.
Context `{UuidText, SerdeJson, UnicodeLower} {D : Type} `{!PyreDaemon D} (io : Io).
Context (error_text : PyreError → string) (to_rfc3339 : DateTime → string).
Abbreviation T := (Mcp.T (D := D)).
Abbreviation rpc := (Mcp.rpc error_text).
Abbreviation client := (Mcp.client io).
Abbreviation resolve_pane_id := (Mcp.resolve_pane_id error_text).
Abbreviation resolve_session_id := (Mcp.resolve_session_id error_text).

Definition str_arg (args : Json) (key : string) : option string := as_str (index args key).
(** An argument without which the tool fails. *)
Definition need (args : Json) (key : string) : T string := require (str_arg args key) ("missing " +:+ key).
Definition u64_arg (args : Json) (key : string) (dflt : Z) : Z := default dflt (as_u64 (index args key)).
Definition bool_arg (args : Json) (key : string) (dflt : bool) : bool := default dflt (as_bool (index args key)).
Definition pane_short (p : PaneId) : string := short8 (pane_uuid p).
Definition session_text (s : SessionId) : string := uuid_to_string (session_uuid s).
Definition pane_text (p : PaneId) : string := uuid_to_string (pane_uuid p).
Definition block_text (b : BlockId) : string := uuid_to_string (block_uuid b).

(** ** Panes *)
Definition tool_pane_send_keys (args : Json) : T string :=
  let! pane_prefix := need args "pane" in
  let! text := need args "text" in
  let payload := str_bytes text ++ (if bool_arg args "append_enter" false then [x0d] else []) in
  do! client in
  let! pane_id := resolve_pane_id pane_prefix in
  do! rpc "rpc" (send_keys pane_id payload) in
  ret ("keys sent to pane " +:+ pane_short pane_id).

Definition tool_pane_capture (args : Json) : T string :=
  let! pane_prefix := need args "pane" in
  let lines := wrap_u32 (u64_arg args "lines" 50) in
  let source := default "ring" (str_arg args "source") in
  do! client in
  let! pane_id := resolve_pane_id pane_prefix in
  let! bytes :=
    if bool_decide (source = "block-last") then
      let! block := rpc "rpc" (last_block_for_pane pane_id) in
      match block with
      | Some b => rpc "rpc" (get_block_stdout (blk_id b))
      | None => ret []
      end
    else rpc "rpc" (capture_pane pane_id lines) in
  ret (lossy bytes).

Definition tool_wait_pane_state (args : Json) : T string :=
  let! pane_prefix := need args "pane" in
  let! state_str := need args "state" in
  let timeout_secs := wrap_u32 (u64_arg args "timeout_secs" 30) in
  let! kind := of_result (result_map_err (λ other, Failed (Plain ("unknown state: " +:+ other))) (waited_state state_str)) in
  do! client in
  let! pane_id := resolve_pane_id pane_prefix in
  let! reached := rpc "rpc" (wait_pane_state pane_id kind (Z.min (timeout_secs * 1000) 4294967295)) in
  if reached : bool then ret ("pane " +:+ pane_short pane_id +:+ " reached " +:+ state_str)
  else fail ("timeout after " +:+ show_Z timeout_secs +:+ "s").

Definition tool_pane_set_state (args : Json) : T string :=
  let! pane_prefix := need args "pane" in
  let! state_str := need args "state" in
  let reason := default "set via MCP" (str_arg args "reason") in
  let! state := require (reported_state state_str) ("unknown state: " +:+ state_str) in
  do! client in
  let! pane_id := resolve_pane_id pane_prefix in
  do! rpc "rpc" (set_pane_state pane_id state reason) in
  ret ("pane " +:+ pane_short pane_id +:+ " state set to " +:+ state_str).

Definition tool_set_pane_weight (args : Json) : T string :=
  let! pane_prefix := need args "pane_id" in
  let! weight := require (as_u64 (index args "weight")) "missing weight" in
  if 100 <? weight then fail "weight must be 0-100"
  else
    do! client in
    let! pane_id := resolve_pane_id pane_prefix in
    do! rpc "rpc set_pane_weight" (set_pane_weight pane_id (wrap_u16 weight)) in
    ret ("pane " +:+ pane_short pane_id +:+ " weight set to " +:+ show_Z weight).

(** ** Blocks *)

(** A prefix that is optional: what it names, if it is there. *)
Definition optional {A} (resolve : string → T A) (o : option string) : T (option A) :=
  match o with Some prefix => let! a := resolve prefix in ret (Some a) | None => ret None end.

Definition hit_lines (h : BlockHit) : string :=
  "[" +:+ short8 (block_uuid (blk_id (bh_block h))) +:+ "] " +:+ blk_command (bh_block h) +:+ bytes_str [x0a]
      +:+ "    " +:+ one_line (bh_snippet h) +:+ bytes_str [x0a].
Definition tool_block_search (args : Json) : T string :=
  let! query := need args "query" in
  let limit := wrap_u32 (u64_arg args "limit" 20) in
  let failures_only := bool_arg args "failures_only" false in
  do! client in
  let! session := optional resolve_session_id (str_arg args "session") in
  let! pane := optional resolve_pane_id (str_arg args "pane") in
  let exit_code := wrap_i32 <$> as_i64 (index args "exit_code") in
  let! hits := rpc "rpc" (search_blocks (MkSearchBlocksReq query limit failures_only session pane exit_code)) in
  ret (if decide (hits = []) then "no results" else String.concat "" (hit_lines <$> hits)).

Definition block_path (o : option PathBuf) : Json := or_null JStr o.
Definition no_block_hint : string :=
  "No block recorded yet. The shell may be at a fresh prompt or OSC 133 integration is not active. Run `pyrec shell-init` to enable shell integration.".
Definition block_json (block : Block) : list (string * Json) :=
  [ ("block_id", JStr (block_text (blk_id block)));
    ("command", JStr (blk_command block));
    ("exit_code", or_null JInt (blk_exit_code block));
    ("duration_ms", or_null JInt (duration_ms block));
    ("cwd", block_path (blk_cwd block));
    ("started_at", JStr (to_rfc3339 (blk_started_at block)));
    ("ended_at", or_null (λ t, JStr (to_rfc3339 t)) (blk_ended_at block));
    ("stdout_len", JInt (blk_stdout_len block)) ].

(** The output of a block, if the caller wants it. *)
Definition block_output (include_output : bool) (block : BlockId) : T (list (string * Json)) :=
  if include_output then
    let! raw := rpc "rpc get_block_stdout" (get_block_stdout block) in
    ret (output_fields raw)
  else ret [].

Definition tool_pane_last_block (args : Json) : T string :=
  let! pane_prefix := need args "pane" in
  let include_output := bool_arg args "include_output" false in
  do! client in
  let! pane_id := resolve_pane_id pane_prefix in
  let! block := rpc "rpc last_block_for_pane" (last_block_for_pane pane_id) in
  match block with
  | None => ret (json_pretty (JObj [("block", JNull); ("hint", JStr no_block_hint)]))
  | Some b =>
      let! output := block_output include_output (blk_id b) in
      ret (json_pretty (JObj (block_json b ++ output)))
  end.

(** ** A command, and its end *)

(** What tells the end of the command: another block than before, finished. *)
Definition is_new (baseline : option BlockId) (b : Block) : bool := negb (bool_decide (Some (blk_id b) = baseline)).
Definition is_finished (b : Block) : bool := bool_decide (is_Some (blk_ended_at b)) && bool_decide (is_Some (blk_exit_code b)).

(** Each round sleeps 150 ms, asks, and looks at the clock. *)
Fixpoint poll_block (fuel round : nat) (deadline : Z) (pane_id : PaneId) (baseline : option BlockId) : T (option Block) :=
  match fuel with
  | O => throw NoFuel
  | S fuel' =>
      let! latest := rpc "rpc last_block_for_pane (poll)" (last_block_for_pane pane_id) in
      let again := if deadline <=? io_clock io (S round) then ret None
                   else poll_block fuel' (S round) deadline pane_id baseline in
      match latest with
      | Some block => if is_new baseline block && is_finished block then ret (Some block) else again
      | None => again
      end
  end.

(** [Instant::now() + Duration::from_secs(timeout_secs)]: the seconds of an instant are an [i64]. *)
Definition deadline_after (timeout_secs : Z) : T Z :=
  let now := io_clock io 0 in
  if 2 ^ 63 - 1 <? now / 1000 + timeout_secs then throw Panicked else ret (now + timeout_secs * 1000).

Definition completed_json (command : string) (block : Block) : list (string * Json) :=
  [ ("completed", JBool true); ("block_id", JStr (block_text (blk_id block))); ("command", JStr command);
    ("exit_code", or_null JInt (blk_exit_code block)); ("duration_ms", or_null JInt (duration_ms block));
    ("cwd", block_path (blk_cwd block)) ].

Definition unfinished_hint : string :=
  "Command started but did not finish within timeout_secs. Increase timeout_secs or the command is long-running.".
Definition no_new_block_hint : string :=
  "No new block detected. OSC 133 shell integration may be missing. Run `pyrec shell-init` in the shell and re-source your shell profile to enable block tracking.".
Definition timed_out_json (command : string) (baseline : option BlockId) (partial : option Block) : Json :=
  let '(current, hint) :=
    match partial with
    | Some b => if is_new baseline b then (Some (block_text (blk_id b)), unfinished_hint) else (None, no_new_block_hint)
    | None => (None, no_new_block_hint)
    end in
  JObj [ ("completed", JBool false); ("command", JStr command); ("exit_code", JNull); ("duration_ms", JNull);
         ("block_id", or_null JStr current); ("hint", JStr hint) ].

Definition run_command_answer (command : string) (include_output : bool) (pane_id : PaneId) (baseline : option BlockId)
    (new_block : option Block) : T string :=
  match new_block with
  | Some block =>
      let! output := block_output include_output (blk_id block) in
      ret (json_pretty (JObj (completed_json command block ++ output)))
  | None =>
      let! partial := rpc "rpc last_block_for_pane (timeout)" (last_block_for_pane pane_id) in
      ret (json_pretty (timed_out_json command baseline partial))
  end.

Definition tool_pane_run_command (args : Json) : T string :=
  let! pane_prefix := need args "pane" in
  let! command := need args "command" in
  let timeout_secs := u64_arg args "timeout_secs" 30 in
  let include_output := bool_arg args "include_output" true in
  do! client in
  let! pane_id := resolve_pane_id pane_prefix in
  let! last_block := rpc "rpc last_block_for_pane (baseline)" (last_block_for_pane pane_id) in
  let baseline := blk_id <$> last_block in
  do! rpc "rpc send_keys" (send_keys pane_id (str_bytes command ++ [x0a])) in
  let! deadline := deadline_after timeout_secs in
  let! new_block := poll_block (io_fuel io) 0 deadline pane_id baseline in
  run_command_answer command include_output pane_id baseline new_block.

(** ** Sessions *)
Definition tool_session_spawn (args : Json) : T string :=
  let shell := match str_arg args "shell" with Some s => Some s | None => io_shell io end in
  let cols := wrap_u16 (u64_arg args "cols" 80) in
  let rows := wrap_u16 (u64_arg args "rows" 24) in
  do! client in
  let! resp := rpc "rpc" (spawn (MkSpawnReq shell (str_arg args "cwd") cols rows (io_vars io) None)) in
  ret ("session_id=" +:+ session_text (sr_session resp) +:+ " pane_id=" +:+ pane_text (sr_pane resp)).

Definition tool_session_close (args : Json) : T string :=
  let! prefix := need args "session" in
  do! client in
  let! session_id := resolve_session_id prefix in
  do! rpc "rpc" (close_session session_id) in
  ret ("session " +:+ short8 (session_uuid session_id) +:+ " closed").

Definition tool_pane_open (args : Json) : T string :=
  let! session_prefix := need args "session" in
  let shell := match str_arg args "shell" with Some s => Some s | None => io_shell io end in
  let cols := wrap_u16 (u64_arg args "cols" 80) in
  let rows := wrap_u16 (u64_arg args "rows" 24) in
  do! client in
  let! session_id := resolve_session_id session_prefix in
  let! pane_id := rpc "rpc" (open_pane (MkOpenPaneReq session_id (MkWindowId 0) shell (str_arg args "cwd") cols rows (io_vars io)
                                          (str_arg args "name"))) in
  ret ("pane_id=" +:+ pane_text pane_id).

Definition tool_list_sessions : T string :=
  do! client in
  let! sessions := rpc "rpc" list_sessions in
  let row (s : SessionInfo) := JObj [ ("session_id", JStr (session_text (si_id s))); ("name", JStr (si_name s));
                                      ("pane_count", JInt (si_pane_count s)) ] in
  ret (json_pretty (JObj [("sessions", JArr (row <$> sessions))])).

Definition tool_list_panes (args : Json) : T string :=
  do! client in
  let! all := rpc "rpc" list_all_panes in
  let shown (p : PaneInfo) := match str_arg args "session_id" with Some f => session_starts f (pi_session p) | None => true end in
  let row (p : PaneInfo) := JObj [ ("pane_id", JStr (pane_text (pi_id p))); ("session_id", JStr (session_text (pi_session p)));
                                   ("name", or_null JStr (pi_name p)); ("agent", JStr (AgentKind_label (pi_agent p)));
                                   ("state", JStr (PaneStateKind_to_string (pi_state p))); ("seen", JBool (pi_seen p)) ] in
  ret (json_pretty (JObj [("panes", JArr (row <$> filter (λ p, shown p = true) all))])).

Definition tool_gc_stale_sessions : T string :=
  do! client in
  let! evicted := rpc "rpc" gc_stale_sessions in
  ret (json_pretty (JObj [("evicted_count", JInt (Z.of_nat (length evicted))); ("evicted", strings evicted)])).

Definition tool_get_session_layout (args : Json) : T string :=
  let! session_prefix := need args "session_id" in
  do! client in
  let! session_id := resolve_session_id session_prefix in
  let! layout := rpc "rpc get_session_layout" (get_session_layout session_id) in
  ret (json_pretty (layout_json layout)).

(** ** Layouts *)
Definition start_cmd (pane_id : PaneId) (cmd : option string) : T unit :=
  match cmd with
  | Some c => rpc "rpc send_keys" (send_keys pane_id (str_bytes c ++ [x0a]))
  | None => ret tt
  end.

Definition tool_open_pane_split (args : Json) : T string :=
  let! parent_prefix := need args "parent_pane_id" in
  let! orient_str := need args "orient" in
  let! orient := require (Orient_of orient_str) ("unknown orient " +:+ quoted orient_str +:+ "; expected horizontal|vertical") in
  do! client in
  let! parent_pane_id := resolve_pane_id parent_prefix in
  let! new_pane_id := rpc "rpc open_pane_split"
    (open_pane_split (Server.MkOpenPaneSplitReq parent_pane_id orient (str_arg args "name") (str_arg args "cwd") None)) in
  do! start_cmd new_pane_id (str_arg args "cmd") in
  ret (json_line (JObj [("pane_id", JStr (pane_text new_pane_id))])).

(** What a pane of a layout asks for: its name, its directory, its command. *)
Definition spec_name (spec : Json) : string := default "" (str_arg spec "name").
Definition named (name : string) : option string := if decide (name = "") then None else Some name.
Definition placed (pane_id : PaneId) (name : string) (idx : nat) : Json :=
  JObj [("pane_id", JStr (pane_text pane_id)); ("name", JStr name); ("path", JArr [JInt (Z.of_nat idx)])].
Definition first_cwd (specs : list Json) : option PathBuf := spec ← head specs; str_arg spec "cwd".
Definition layout_spawn_req (name : string) (cwd : option PathBuf) : SpawnReq :=
  MkSpawnReq (io_shell io) cwd 80 24 (io_vars io) (Some name).
Definition layout_answer (session_id : SessionId) (panes : list Json) : string :=
  json_pretty (JObj [("session_id", JStr (session_text session_id)); ("panes", JArr panes)]).

(** The flat list: the first entry is the initial pane, the others are opened. *)
Fixpoint flat_panes (session_id : SessionId) (initial : PaneId) (idx : nat) (specs : list Json) : T (list Json) :=
  match specs with
  | [] => ret []
  | spec :: rest =>
      let pane_name := spec_name spec in
      let! pane_id :=
        if (idx =? 0)%nat then ret initial
        else rpc "rpc open_pane" (open_pane (MkOpenPaneReq session_id (MkWindowId 0) (io_shell io) (str_arg spec "cwd") 80 24
                                               (io_vars io) (named pane_name))) in
      do! start_cmd pane_id (str_arg spec "cmd") in
      let! panes := flat_panes session_id initial (S idx) rest in
      ret (placed pane_id pane_name idx :: panes)
  end.

(** The split list: each entry after the first is split off the one before. *)
Fixpoint split_panes (orient : Orient) (last_pane_id : PaneId) (idx : nat) (specs : list Json) : T (list Json) :=
  match specs with
  | [] => ret []
  | spec :: rest =>
      let pane_name := spec_name spec in
      let! pane_id :=
        if (idx =? 0)%nat then ret last_pane_id
        else rpc "rpc open_pane_split" (open_pane_split (Server.MkOpenPaneSplitReq last_pane_id orient (named pane_name) (str_arg spec "cwd") None)) in
      do! start_cmd pane_id (str_arg spec "cmd") in
      let! panes := split_panes orient pane_id (S idx) rest in
      ret (placed pane_id pane_name idx :: panes)
  end.

Definition tool_session_layout_split (session_name : string) (layout_spec : Json) : T string :=
  let! orient_str := require (str_arg layout_spec "orient") "layout.orient is required" in
  let! orient := require (Orient_of orient_str) ("unknown orient " +:+ quoted orient_str +:+ "; expected horizontal|vertical") in
  let! pane_specs := require (as_array (index layout_spec "panes")) "layout.panes must be an array" in
  if decide (pane_specs = []) then fail "layout.panes must contain at least one entry"
  else
    do! client in
    let! resp := rpc "rpc spawn" (spawn (layout_spawn_req session_name (first_cwd pane_specs))) in
    let! panes := split_panes orient (sr_pane resp) 0 pane_specs in
    ret (layout_answer (sr_session resp) panes).

Definition tool_session_layout (args : Json) : T string :=
  let! name := need args "name" in
  match json_get "layout" args with
  | Some (JObj _ as layout_spec) => tool_session_layout_split name layout_spec
  | _ =>
      let pane_specs := default [] (as_array (index args "panes")) in
      do! client in
      let! resp := rpc "rpc spawn" (spawn (layout_spawn_req name (first_cwd pane_specs))) in
      let! panes := flat_panes (sr_session resp) (sr_pane resp) 0 pane_specs in
      ret (layout_answer (sr_session resp) (if decide (pane_specs = []) then [placed (sr_pane resp) "" 0] else panes))
  end.

(** ** tools/call: text of the tool called *)
Definition tools (args : Json) : list (string * T string) :=
  [ ("pane_send_keys", tool_pane_send_keys args);
    ("pane_capture", tool_pane_capture args);
    ("pane_set_state", tool_pane_set_state args);
    ("block_search", tool_block_search args);
    ("session_spawn", tool_session_spawn args);
    ("session_close", tool_session_close args);
    ("pane_open", tool_pane_open args);
    ("wait_pane_state", tool_wait_pane_state args);
    ("list_sessions", tool_list_sessions);
    ("list_panes", tool_list_panes args);
    ("session_layout", tool_session_layout args);
    ("gc_stale_sessions", tool_gc_stale_sessions);
    ("set_pane_weight", tool_set_pane_weight args);
    ("get_session_layout", tool_get_session_layout args);
    ("open_pane_split", tool_open_pane_split args);
    ("pane_last_block", tool_pane_last_block args);
    ("pane_run_command", tool_pane_run_command args) ].
Definition call_tool (name : string) (args : Json) : T string :=
  default (fail ("unknown tool: " +:+ name)) (field name (tools args)).

Definition handle_tools_call (params : Json) : T Json :=
  let! name := require (as_str (index params "name")) "missing name" in
  let! text := call_tool name (index params "arguments") in
  ret (JObj [("content", JArr [JObj [("type", JStr "text"); ("text", JStr text)]]); ("isError", JBool false)]).
End Tools.

(** ** tools/list *)
Definition nl : string := bytes_str [x0a].
Definition described (type description : string) : Json := JObj [("type", JStr type); ("description", JStr description)].
(** A tool: its name, what it is for, its arguments and those it needs. *)
Definition tool (name description : string) (properties : list (string * Json)) (required : option (list string)) : Json :=
  JObj [ ("name", JStr name); ("description", JStr description);
         ("inputSchema", JObj ([("type", JStr "object"); ("properties", JObj properties)] ++ opt_field "required" strings required)) ].

Definition pane_send_keys_tool : Json :=
  tool "pane_send_keys"
    "Inject keystrokes into a pane. The pane argument accepts an 8+ char prefix of the pane UUID."
    [ ("pane", described "string" "Pane id or ≥8-char prefix");
      ("text", described "string" "Text to inject");
      ("append_enter", JObj [ ("type", JStr "boolean");
          ("description", JStr "Append \r (Enter) after text");
          ("default", JBool false) ]) ]
    (Some ["pane"; "text"]).
Definition pane_capture_tool : Json :=
  tool "pane_capture"
    "Capture pane output: ring buffer (default) or last finalized block stdout (block-last)."
    [ ("pane", described "string" "Pane id or ≥8-char prefix");
      ("lines", JObj [ ("type", JStr "integer");
          ("description", JStr "Ring lines when source=ring (default 50)");
          ("default", JInt 50) ]);
      ("source", JObj [("type", JStr "string"); ("enum", strings ["ring"; "block-last"]); ("default", JStr "ring")]) ]
    (Some ["pane"]).
Definition pane_set_state_tool : Json :=
  tool "pane_set_state"
    "Self-report pane state. Valid states: Running, WaitingInput, Idle, Interactive, Crashed, Done."
    [ ("pane", described "string" "Pane id or ≥8-char prefix");
      ("state", JObj [ ("type", JStr "string");
          ("enum", strings ["Running"; "WaitingInput"; "Idle"; "Interactive"; "Crashed"; "Done"]) ]);
      ("reason", described "string" "Human-readable reason for the state change") ]
    (Some ["pane"; "state"]).
Definition block_search_tool : Json :=
  tool "block_search"
    "Full-text search across all blocks (stdout history). Optionally scoped to a session, pane, or exact exit code."
    [ ("query", described "string" "Full-text search query against block stdout.");
      ("limit", JObj [ ("type", JStr "integer");
          ("default", JInt 20);
          ("description", JStr "Maximum number of hits to return.") ]);
      ("failures_only", JObj [ ("type", JStr "boolean");
          ("default", JBool false);
          ("description", JStr "When true, restrict to blocks with non-zero exit code. Ignored when exit_code is set.") ]);
      ("session", described "string" "Optional session UUID prefix (≥8 chars) — restrict results to this session.");
      ("pane", described "string" "Optional pane UUID prefix (≥8 chars) — restrict results to this pane.");
      ("exit_code", described "integer" "Optional exact exit code filter. When set, failures_only is ignored.") ]
    (Some ["query"]).
Definition session_spawn_tool : Json :=
  tool "session_spawn"
    "Spawn a new session with one pane. Returns session_id and pane_id."
    [ ("shell", described "string" "Shell binary (default: $SHELL)");
      ("cwd", described "string" "Working directory");
      ("cols", JObj [("type", JStr "integer"); ("default", JInt 80)]);
      ("rows", JObj [("type", JStr "integer"); ("default", JInt 24)]) ]
    None.
Definition session_close_tool : Json :=
  tool "session_close"
    "Close a session and all its panes."
    [ ("session", described "string" "Session id or ≥8-char prefix") ]
    (Some ["session"]).
Definition pane_open_tool : Json :=
  tool "pane_open"
    "Open a new pane inside an existing session. Returns pane_id."
    [ ("session", described "string" "Session id or ≥8-char prefix");
      ("name", described "string" "Optional human-readable label for the pane");
      ("cols", JObj [("type", JStr "integer"); ("default", JInt 80)]);
      ("rows", JObj [("type", JStr "integer"); ("default", JInt 24)]);
      ("cwd", described "string" "Working directory (optional)");
      ("shell", described "string" "Shell binary (default: $SHELL)") ]
    (Some ["session"]).
Definition wait_pane_state_tool : Json :=
  tool "wait_pane_state"
    "Wait until a pane reaches a lifecycle state (blocked=WaitingInput, working=Running, etc.)."
    [ ("pane", JObj [("type", JStr "string")]);
      ("state", described "string" "waiting, running, idle, done, crashed, interactive");
      ("timeout_secs", JObj [("type", JStr "integer"); ("default", JInt 30)]) ]
    (Some ["pane"; "state"]).
Definition list_sessions_tool : Json :=
  tool "list_sessions"
    "List all active pyre sessions with metadata."
    []
    (Some []).
Definition list_panes_tool : Json :=
  tool "list_panes"
    "List panes optionally filtered by session_id."
    [ ("session_id", described "string" "Filter to a session (optional).") ]
    (Some []).
Definition gc_stale_sessions_tool : Json :=
  tool "gc_stale_sessions"
    "Evict sessions that have no live panes. Returns the list of evicted session UUIDs."
    []
    (Some []).
Definition session_layout_tool : Json :=
  tool "session_layout"
    ("Create a session with panes preconfigured via a split spec. Accepts either a flat `panes` array (back-compat) or a `layout` object with `orient` and `panes`. When `layout` is provided, panes are created using open_pane_split RPC calls so the daemon tracks topology. The `orient` field (" +:+ dq +:+ "horizontal" +:+ dq +:+ "|" +:+ dq +:+ "vertical" +:+ dq +:+ ") is applied uniformly: each subsequent pane is split off the previous one at that orientation. Nested specs are not yet supported — all panes are placed at the same split level.")
    [ ("name", described "string" "Session name.");
      ("panes", JObj [ ("type", JStr "array");
          ("description", JStr "Flat pane list (back-compat). First pane reuses the session's initial pane.");
          ("items", JObj [ ("type", JStr "object");
              ("properties", JObj [ ("name", JObj [("type", JStr "string")]);
                  ("cwd", JObj [("type", JStr "string")]);
                  ("cmd", described "string" "Command sent via send_keys with trailing \n.") ]);
              ("required", JArr []) ]) ]);
      ("layout", JObj [ ("type", JStr "object");
          ("description", JStr "Split spec. When present, `panes` at root level is ignored.");
          ("properties", JObj [ ("orient", JObj [ ("type", JStr "string");
                  ("enum", strings ["horizontal"; "vertical"]);
                  ("description", JStr "Split orientation applied to all pane splits.") ]);
              ("panes", JObj [ ("type", JStr "array");
                  ("description", JStr "Ordered list of pane specs. First pane reuses the session's initial pane; each subsequent pane is created via open_pane_split.");
                  ("items", JObj [ ("type", JStr "object");
                      ("properties", JObj [ ("name", JObj [("type", JStr "string")]);
                          ("cwd", JObj [("type", JStr "string")]);
                          ("cmd", described "string" "Command sent via send_keys with trailing \n.") ]);
                      ("required", JArr []) ]) ]) ]);
          ("required", strings ["orient"; "panes"]) ]) ]
    (Some ["name"]).
Definition set_pane_weight_tool : Json :=
  tool "set_pane_weight"
    "Adjust the weight of a pane within its parent split (0-100). The daemon clamps the value to [5, 95] and rebalances siblings so all weights sum to 100. Persists to SQLite and emits LayoutChanged."
    [ ("pane_id", described "string" "Full pane UUID or ≥8-char prefix.");
      ("weight", JObj [ ("type", JStr "integer");
          ("minimum", JInt 0);
          ("maximum", JInt 100);
          ("description", JStr "Desired weight (0-100). Clamped to [5, 95] by the daemon.") ]) ]
    (Some ["pane_id"; "weight"]).
Definition get_session_layout_tool : Json :=
  tool "get_session_layout"
    "Return the LayoutNode tree for a session as JSON. The tree is a recursive structure of HSplit/VSplit nodes (each child has a weight 0-100) and Leaf nodes (carrying a PaneId UUID)."
    [ ("session_id", described "string" "Full session UUID or ≥8-char prefix.") ]
    (Some ["session_id"]).
Definition open_pane_split_tool : Json :=
  tool "open_pane_split"
    "Split an existing pane: create a new pane next to it. orient = horizontal | vertical."
    [ ("parent_pane_id", described "string" "UUID prefix of the existing pane to split off.");
      ("orient", JObj [ ("type", JStr "string");
          ("enum", strings ["horizontal"; "vertical"]);
          ("description", JStr "horizontal = side-by-side, vertical = stacked.") ]);
      ("name", JObj [("type", JStr "string")]);
      ("cwd", JObj [("type", JStr "string")]);
      ("cmd", described "string" "Optional command sent via send_keys after spawn.") ]
    (Some ["parent_pane_id"; "orient"]).
Definition pane_last_block_tool : Json :=
  tool "pane_last_block"
    ("Return metadata for the most recently finalized block (command) on a pane." +:+ nl +:+ nl +:+ "Use this when you need the exit code, duration, or cwd of the last command that ran in a pane. Returns null when no block has been recorded yet (e.g. the shell is at a fresh prompt and OSC 133 integration has not fired)." +:+ nl +:+ nl +:+ "When include_output is true the response includes the block's stdout, truncated to the last 8 KB with a truncation marker when the full output is larger." +:+ nl +:+ nl +:+ "Errors: no_such_pane when the prefix does not match any live pane; ambiguous_pane_id when multiple panes match.")
    [ ("pane", described "string" "Pane UUID or ≥8-char prefix.");
      ("include_output", JObj [ ("type", JStr "boolean");
          ("default", JBool false);
          ("description", JStr "When true, fetch and include the block's stdout (truncated to 8 KB).") ]) ]
    (Some ["pane"]).
Definition pane_run_command_tool : Json :=
  tool "pane_run_command"
    ("Send a shell command to a pane and wait for it to finish, returning the exit code and output in one call." +:+ nl +:+ nl +:+ "This is the preferred tool for running a command and observing its result. It replaces the pane_send_keys → sleep → pane_capture antipattern." +:+ nl +:+ nl +:+ "Behavior:" +:+ nl +:+ "1. Records the current last block id for the pane." +:+ nl +:+ "2. Sends `command` followed by Enter." +:+ nl +:+ "3. Polls every 150 ms until a NEW finalized block appears (exit code set) or timeout_secs elapses." +:+ nl +:+ "4. Returns {completed, exit_code, duration_ms, cwd, command, output, block_id}." +:+ nl +:+ nl +:+ "When completed is false the command either timed out or no block was detected. If block_id is absent it means no new block formed — this usually indicates OSC 133 shell integration is not active. Run `pyrec shell-init` in the shell to enable it." +:+ nl +:+ nl +:+ "output is included when include_output is true (default). Output is truncated to 8 KB; the truncation marker shows the full byte size." +:+ nl +:+ nl +:+ "Errors: no_such_pane, ambiguous_pane_id, daemon_unreachable.")
    [ ("pane", described "string" "Pane UUID or ≥8-char prefix.");
      ("command", described "string" "Shell command to run (Enter is appended automatically).");
      ("timeout_secs", JObj [ ("type", JStr "integer");
          ("default", JInt 30);
          ("description", JStr "Seconds to wait for the command to finish. Returns completed=false on timeout.") ]);
      ("include_output", JObj [ ("type", JStr "boolean");
          ("default", JBool true);
          ("description", JStr "When true (default), include stdout in the response (truncated to 8 KB).") ]) ]
    (Some ["pane"; "command"]).
Definition listed_tools : list Json :=
  [ pane_send_keys_tool;
    pane_capture_tool;
    pane_set_state_tool;
    block_search_tool;
    session_spawn_tool;
    session_close_tool;
    pane_open_tool;
    wait_pane_state_tool;
    list_sessions_tool;
    list_panes_tool;
    gc_stale_sessions_tool;
    session_layout_tool;
    set_pane_weight_tool;
    get_session_layout_tool;
    open_pane_split_tool;
    pane_last_block_tool;
    pane_run_command_tool ].
Definition handle_tools_list : Json := JObj [("tools", JArr listed_tools)].

(** ** The server: subscriptions, dispatch and the loop over standard input (main.rs) *)
Module McpMain.
(** [version] is that of the package. *)
Definition handle_initialize (version : string) : Json :=
  JObj [ ("protocolVersion", JStr "2024-11-05");
         ("capabilities", JObj [ ("resources", JObj [("subscribe", JBool true); ("listChanged", JBool false)]);
                                 ("tools", JObj [("listChanged", JBool false)]) ]);
         ("serverInfo", JObj [("name", JStr "pyre-mcp"); ("version", JStr version)]) ].

Section Main.
Context `{UuidText, SerdeJson, UnicodeLower} {D : Type} `{!PyreDaemon D}.
Context (error_text : PyreError → string) (to_rfc3339 : DateTime → string) (version : string).

Definition dispatch (io : Io) (method : string) (params : Json) : T (D := D) (option Json) :=
  if bool_decide (method = "initialize") then ret (Some (handle_initialize version))
  else if bool_decide (method = "initialized") then ret None
  else if bool_decide (method = "resources/list") then let! v := handle_resources_list io error_text in ret (Some v)
  else if bool_decide (method = "resources/read") then let! v := handle_resources_read io error_text params in ret (Some v)
  else if bool_decide (method = "resources/subscribe") then do! handle_resources_subscribe params in ret (Some (JObj []))
  else if bool_decide (method = "resources/unsubscribe") then do! handle_resources_unsubscribe params in ret (Some (JObj []))
  else if bool_decide (method = "tools/list") then ret (Some handle_tools_list)
  else if bool_decide (method = "tools/call") then let! v := handle_tools_call io error_text to_rfc3339 params in ret (Some v)
  else fail ("method not found: " +:+ method).

(** The response of a handler; [None] too if its task panics. *)
Definition error_response (id : option Json) (e : McpError) : Response :=
  match e with
  | Structured message data => MkResponse id None (Some (MkRpcError (-32000) message (Some data)))
  | Plain message => Response_err id (-32000) message
  end.
Definition handle (io : Io) (req : Request) (s : Server D) : Server D * option Response :=
  match dispatch io (rq_method req) (rq_params req) s with
  | (s', Ok (Some val)) => (s', Some (Response_ok (rq_id req) val))
  | (s', Ok None) => (s', None)
  | (s', Err (Failed e)) => (s', Some (error_response (rq_id req) e))
  | (s', Err (Panicked | NoFuel)) => (s', None)
  end.

(** The task of a request: the response is sent only if there was an id. *)
Definition request_task (io : Io) (req : Request) (s : Server D) : Server D :=
  match handle io req s with
  | (s', Some resp) =>
      match rq_id req with
      | Some _ => (send_line (response_json resp) s').1
      | None => s'
      end
  | (s', None) => s'
  end.

(** ** The loop over the lines of the standard input *)

(** What happens next to the server: a line is read ([None]: the end, or an error) and
    its request is carried out, the task of a subscription goes round, the writer ends. *)
Inductive Event :=
  | Line (io : Io) (bytes : option Bytes)
  | Round (uri : string) (connected : bool)
  | WriterGone.

(** [serde_json::from_str::<Request>], or the text of its error. *)
Context (parse_request : string → result string Request).

(** [true]: the loop goes on. *)
Definition on_line (io : Io) (line : string) (s : Server D) : Server D * bool :=
  if bool_decide (line = "") then (s, true)
  else
    match parse_request line with
    | Err e =>
        match send_line (response_json (Response_err None (-32700) ("parse error: " +:+ e))) s with
        | (s', Ok _) => (s', true)
        | (s', Err _) => (s', false)
        end
    | Ok req => (request_task io req s, true)
    end.

Definition on_event (e : Event) (s : Server D) : Server D * bool :=
  match e with
  | Line io bytes =>
      match b ← bytes; from_utf8 b with
      | Some cs => on_line io (of_chars (trim cs)) s
      | None => (s, false)
      end
  | Round uri connected => (subscription_step uri connected s, true)
  | WriterGone => (s <| sv_writer := false |>, true)
  end.

Fixpoint run (events : list Event) (s : Server D) : Server D :=
  match events with
  | [] => s
  | e :: events' =>
      let '(s', go) := on_event e s in
      if go : bool then run events' s' else s'
  end.
Definition main (events : list Event) (daemon : D) : Server D := run events (MkServer daemon ∅ [] true).
End Main.
End McpMain.
