(* ===== verification/McpRuns.v ===== *)
(** * McpRuns: what the bridge answers

    Every request with an id gets one line, tools act only on the one pane or session
    their prefix names and only with the arguments they list, waiting for a command
    ends, subscriptions back off within their bounds. *)
From Stdlib Require Import Strings.Byte.
From coqutil Require Export Datatypes.RecordSettersUsingExistingGetters.
From S2P Require Import Prelude Proto Text Layout Libraries Effects PaneTracker Client Json Mcp McpTools.
Local Open Scope Z_scope.
Import McpMain.

Create HintDb bridge.

(** ** Handlers that say nothing and end as a request may *)
Section Quiet.
Context {D : Type}.
Implicit Types s : Server D.

(** The waits of the subscriptions' tasks stay between 100 ms and 5 s. *)
Definition subs_ok s : Prop := map_Forall (λ _ t, 100 ≤ st_backoff t ≤ 5000) (sv_subscriptions s).

(** The lines and the writer are left alone, and there is a value or an error. *)
Definition ends {A} (r : result Failure A) : Prop := match r with Ok _ | Err (Failed _) => True | Err _ => False end.
Definition quiet {A} (m : T (D := D) A) : Prop :=
  ∀ s, sv_out (m s).1 = sv_out s ∧ sv_writer (m s).1 = sv_writer s ∧ ends (m s).2 ∧ (subs_ok s → subs_ok (m s).1).

Lemma quiet_ret {A} (a : A) : quiet (ret a).
Proof. done. Qed.
Lemma quiet_fail {A} e : quiet (throw (A := A) (Failed e)).
Proof. done. Qed.
Lemma quiet_plain {A} message : quiet (fail (A := A) message).
Proof. done. Qed.
Lemma quiet_require {A} (o : option A) message : quiet (require o message).
Proof. by destruct o. Qed.
Lemma quiet_result {A} (r : result Failure A) : ends r → quiet (of_result r).
Proof. by intros Hr s. Qed.
Lemma quiet_gets {A} (f : Server D → A) : quiet (gets f).
Proof. done. Qed.
Lemma quiet_new_sub uri : quiet (modify (λ s, s <| sv_subscriptions ::= <[uri := new_sub]> |>)).
Proof. intros s. split_and!; [done..|]. intros Hs. apply map_Forall_insert_2; [|done]. cbn. lia. Qed.
Lemma quiet_end_sub uri : quiet (modify (λ s, s <| sv_subscriptions ::= delete uri |>)).
Proof. intros s. split_and!; [done..|]. intros Hs. by apply map_Forall_delete. Qed.
Lemma quiet_bind {A B} (m : T (D := D) A) (k : A → T B) : quiet m → (∀ a, quiet (k a)) → quiet (bind m k).
Proof.
  intros Hm Hk s. unfold bind. destruct (Hm s) as (Ho & Hw & He & Hs). destruct (m s) as [s' [a|e]]; cbn in *; [|done].
  destruct (Hk a s') as (Ho' & Hw' & He' & Hs'). rewrite <- Ho, <- Hw. split_and!; auto.
Qed.
Lemma quiet_rpc error_text {A} ctx (m : M D RpcFailure A) : quiet (rpc error_text ctx m).
Proof. intros s. unfold rpc, zoom. destruct (m (sv_daemon s)) as [d [a|[]]]; done. Qed.
Lemma quiet_client io : quiet (client io).
Proof. unfold client. by destruct (io_connect io). Qed.
End Quiet.
#[export] Hint Resolve quiet_ret quiet_fail quiet_plain quiet_require quiet_gets quiet_new_sub quiet_end_sub quiet_rpc quiet_client : bridge.

(** Through a handler, along its binds and branches. *)
Ltac quiet :=
  repeat first [ solve [eauto 2 with bridge] | apply quiet_bind; [|intros ?] | case_match | progress cbv zeta ].

Section Handlers.
Context `{UuidText, SerdeJson, UnicodeLower} {D : Type} `{!PyreDaemon D}.
Context (error_text : PyreError → string) (to_rfc3339 : DateTime → string) (io : Io).

Lemma quiet_pane prefix : quiet (D := D) (resolve_pane_id error_text prefix).
Proof. unfold resolve_pane_id. quiet. Qed.
Lemma quiet_session prefix : quiet (D := D) (resolve_session_id error_text prefix).
Proof. unfold resolve_session_id. quiet. Qed.
Hint Resolve quiet_pane quiet_session : bridge.
Lemma quiet_need args key : quiet (D := D) (need args key).
Proof. apply quiet_require. Qed.
Hint Resolve quiet_need : bridge.

Lemma quiet_sessions ss : quiet (D := D) (session_resources error_text ss).
Proof. induction ss as [|s ss IH]; cbn [session_resources]; quiet. Qed.
Hint Resolve quiet_sessions : bridge.
Lemma quiet_list : quiet (D := D) (handle_resources_list io error_text).
Proof. unfold handle_resources_list. quiet. Qed.
Lemma quiet_read params : quiet (D := D) (handle_resources_read io error_text params).
Proof. unfold handle_resources_read, read_uri, read_session, read_pane, read_block. quiet. Qed.
Lemma quiet_subscribe params : quiet (D := D) (handle_resources_subscribe params).
Proof. unfold handle_resources_subscribe. quiet. Qed.
Lemma quiet_unsubscribe params : quiet (D := D) (handle_resources_unsubscribe params).
Proof. unfold handle_resources_unsubscribe. quiet. Qed.

Lemma quiet_start_cmd pane cmd : quiet (D := D) (start_cmd error_text pane cmd).
Proof. unfold start_cmd. quiet. Qed.
Lemma quiet_block_output b block : quiet (D := D) (block_output error_text b block).
Proof. unfold block_output. quiet. Qed.
Lemma quiet_optional {A} (resolve : string → T (D := D) A) o : (∀ p, quiet (resolve p)) → quiet (optional resolve o).
Proof. intros Hr. unfold optional. destruct o; quiet; apply Hr. Qed.
Hint Resolve quiet_start_cmd quiet_block_output quiet_optional : bridge.
Lemma quiet_flat session initial idx specs : quiet (D := D) (flat_panes io error_text session initial idx specs).
Proof. revert idx. induction specs as [|sp specs IH]; intros idx; cbn [flat_panes]; quiet; apply IH. Qed.
Lemma quiet_split orient last idx specs : quiet (D := D) (split_panes error_text orient last idx specs).
Proof. revert last idx. induction specs as [|sp specs IH]; intros last idx; cbn [split_panes]; quiet; apply IH. Qed.
Hint Resolve quiet_flat quiet_split : bridge.
Lemma quiet_waited s : quiet (D := D) (of_result (result_map_err (λ other, Failed (Plain ("unknown state: " +:+ other))) (waited_state s))).
Proof. apply quiet_result. by destruct (waited_state s). Qed.
Hint Resolve quiet_waited : bridge.

End Handlers.

(** ** Waiting for the end of a command *)
Section Polling.
Context `{UuidText, SerdeJson, UnicodeLower} {D : Type} `{!PyreDaemon D}.
Context (error_text : PyreError → string) (io : Io).

Definition on_daemon (d : D) (s : Server D) : Server D :=
  MkServer d (sv_subscriptions s) (sv_out s) (sv_writer s).

Lemma rpc_run {A} ctx (m : M D RpcFailure A) s d r :
  m (sv_daemon s) = (d, r) →
  rpc error_text ctx m s =
  (on_daemon d s, result_map_err (λ f, Failed (Plain match f with Transport => ctx | Remote e => error_text e end)) r).
Proof. intros Hm. unfold rpc, zoom. rewrite Hm. by destruct s. Qed.
Lemma rpc_value {A} ctx (m : M D RpcFailure A) s d a :
  m (sv_daemon s) = (d, Ok a) → rpc error_text ctx m s = (on_daemon d s, Ok a).
Proof. intros Hm. by rewrite (rpc_run ctx m s d (Ok a) Hm). Qed.

(** The clock of a request that sleeps 150 ms in each round. *)
Definition steady (clock : nat → Z) : Prop := ∀ n, clock n + 150 ≤ clock (S n).

Context (pane : PaneId) (baseline : option BlockId) (deadline : Z).

(** The daemon after [n] polls, and what it answers the next one. *)
Definition polled (n : nat) (d : D) : D := Nat.iter n (λ d, (last_block_for_pane pane d).1) d.
Definition answer (n : nat) (d : D) : result RpcFailure (option Block) := (last_block_for_pane pane (polled n d)).2.

(** The block an answer ends the wait with. *)
Definition ending (r : option Block) : option Block :=
  match r with Some b => if is_new baseline b && is_finished b then Some b else None | None => None end.
(** Is the wait over after this round? *)
Definition over (n : nat) (d : D) : bool :=
  match answer n d with
  | Ok r => bool_decide (is_Some (ending r)) || (deadline <=? io_clock io (S n))
  | Err _ => true
  end.
Definition verdict (n : nat) (d : D) : result Failure (option Block) :=
  match answer n d with
  | Ok r => Ok (ending r)
  | Err Transport => Err (Failed (Plain "rpc last_block_for_pane (poll)"))
  | Err (Remote e) => Err (Failed (Plain (error_text e)))
  end.

Lemma polled_S n d : polled (S n) d = (last_block_for_pane pane (polled n d)).1.
Proof. done. Qed.

Lemma poll_once fuel n d (s : Server D) :
  sv_daemon s = polled n d →
  poll_block io error_text (S fuel) n deadline pane baseline s =
  if over n d then (on_daemon (polled (S n) d) s, verdict n d)
  else poll_block io error_text fuel (S n) deadline pane baseline (on_daemon (polled (S n) d) s).
Proof.
  intros Hs. rewrite polled_S. cbn [poll_block]. unfold bind at 1, over, verdict, answer.
  erewrite rpc_run by (rewrite Hs; apply surjective_pairing).
  destruct (last_block_for_pane pane (polled n d)) as [d' [[b|]|[|e]]]; cbn [result_map_err fst snd ending]; try done.
  - destruct (is_new baseline b && is_finished b); [done|]. cbn. by destruct (deadline <=? io_clock io (S n)).
  - cbn. by destruct (deadline <=? io_clock io (S n)).
Qed.

Lemma poll_from fuel n d (s : Server D) :
  steady (io_clock io) → (0 < fuel)%nat → deadline ≤ io_clock io n + 150 * Z.of_nat fuel → sv_daemon s = polled n d →
  ∃ k, (n ≤ k < n + fuel)%nat ∧ (∀ m, (n ≤ m < k)%nat → over m d = false) ∧ over k d = true ∧
       poll_block io error_text fuel n deadline pane baseline s = (on_daemon (polled (S k) d) s, verdict k d).
Proof.
  intros Hc. revert n s. induction fuel as [|fuel IH]; intros n s Hf Hd Hs; [lia|].
  rewrite (poll_once fuel n d) by done. destruct (over n d) eqn:Ho.
  - exists n. split; [lia|]. split; [intros; lia|done].
  - specialize (Hc n). destruct (decide (fuel = 0%nat)) as [->|Hn].
    { exfalso. revert Ho. unfold over. destruct (answer n d); [|done]. rewrite orb_false_iff, Z.leb_gt. lia. }
    destruct (IH (S n) (on_daemon (polled (S n) d) s)) as (k & Hk & Hbefore & Hover & ->); [lia|lia|done|].
    exists k. split; [lia|]. split; [|done]. intros m Hm. destruct (decide (m = n)) as [->|]; [done|]. apply Hbefore. lia.
Qed.

(** The rounds begin before the deadline. *)
Lemma clock_after n : steady (io_clock io) → io_clock io 0 + 150 * Z.of_nat n ≤ io_clock io n.
Proof. intros Hc. induction n as [|n IH]; [lia|]. specialize (Hc n). lia. Qed.
End Polling.

Lemma rounds_before_deadline `{PyreDaemon D} io pane baseline timeout (d : D) n :
  steady (io_clock io) → 0 ≤ timeout →
  (∀ m, (m < n)%nat → over io pane baseline (io_clock io 0 + timeout) m d = false) → 150 * Z.of_nat n ≤ timeout.
Proof.
  intros Hc Ht Hb. destruct n as [|n]; [lia|]. specialize (Hb n ltac:(lia)). pose proof (clock_after io (S n) Hc).
  revert Hb. unfold over. destruct (answer _ _ _); [|done]. rewrite orb_false_iff, Z.leb_gt. lia.
Qed.
Lemma u64_arg_pos args key dflt : 0 ≤ dflt → 0 ≤ u64_arg args key dflt.
Proof. intros Hd. unfold u64_arg. destruct (as_u64 (index args key)) as [z|] eqn:Hz; [|done]. destruct (index args key); try done. cbn in Hz. case_match; simplify_eq. cbn. lia. Qed.

(** ** Requests *)
Section Requests.
Context `{UuidText, SerdeJson, UnicodeLower} {D : Type} `{!PyreDaemon D}.
Context (error_text : PyreError → string) (to_rfc3339 : DateTime → string) (version : string).
Hint Resolve quiet_pane quiet_session quiet_need quiet_start_cmd quiet_block_output quiet_optional quiet_flat quiet_split
  quiet_waited quiet_list quiet_read quiet_subscribe quiet_unsubscribe : bridge.

(** The request has time: the deadline is an instant, and the rounds up to it are in
    the fuel. *)
Definition patient (io : Io) (args : Json) : Prop :=
  let timeout_secs := u64_arg args "timeout_secs" 30 in
  steady (io_clock io) ∧ io_clock io 0 / 1000 + timeout_secs < 2 ^ 63 ∧
  timeout_secs * 1000 ≤ 150 * Z.of_nat (io_fuel io) ∧ (0 < io_fuel io)%nat.

Lemma quiet_poll io pane baseline deadline :
  steady (io_clock io) → (0 < io_fuel io)%nat → deadline ≤ io_clock io 0 + 150 * Z.of_nat (io_fuel io) →
  quiet (D := D) (poll_block io error_text (io_fuel io) 0 deadline pane baseline).
Proof.
  intros Hc Hf Hd s. destruct (poll_from error_text io pane baseline deadline (io_fuel io) 0 (sv_daemon s) s) as (k & _ & _ & _ & ->); try done.
  unfold verdict, answer. by destruct (last_block_for_pane _ _).2 as [|[]].
Qed.

Lemma deadline_is io args :
  patient io args →
  deadline_after (D := D) io (u64_arg args "timeout_secs" 30) = ret (io_clock io 0 + u64_arg args "timeout_secs" 30 * 1000).
Proof. intros (_ & Hn & _ & _). unfold deadline_after.
  destruct (Z.ltb_spec (2 ^ 63 - 1) (io_clock io 0 / 1000 + u64_arg args "timeout_secs" 30)); [lia|done]. Qed.

Lemma quiet_run_command io args : patient io args → quiet (D := D) (tool_pane_run_command io error_text args).
Proof.
  intros Hp. unfold tool_pane_run_command. rewrite (deadline_is io args) by done. destruct Hp as (Hc & _ & Ht & Hf).
  assert (∀ include pane baseline b c, quiet (D := D) (run_command_answer error_text c include pane baseline b)) as Ha.
  { intros include p base b c. unfold run_command_answer. quiet. }
  do 6 (apply quiet_bind; [by eauto 2 with bridge|intros ?]).
  change (bind (ret ?x) ?k) with (k x). cbv beta. apply quiet_bind; [|intros ?; apply Ha]. by apply quiet_poll; [..|lia].
Qed.

(** Does the request wait for a command to end? *)
Definition waits (req : Request) : bool :=
  bool_decide (rq_method req = "tools/call") && bool_decide (as_str (index (rq_params req) "name") = Some "pane_run_command").

Lemma quiet_tool io name args : (name = "pane_run_command" → patient io args) → quiet (D := D) (call_tool io error_text to_rfc3339 name args).
Proof.
  intros Hp. unfold call_tool, tools. cbn [field].
  repeat (case_decide; [cbn [default]; first [by apply quiet_run_command, Hp | 
    unfold tool_pane_send_keys, tool_pane_capture, tool_pane_set_state, tool_block_search, tool_session_spawn,
      tool_session_close, tool_pane_open, tool_wait_pane_state, tool_list_sessions, tool_list_panes, tool_session_layout,
      tool_gc_stale_sessions, tool_set_pane_weight, tool_get_session_layout, tool_open_pane_split, tool_pane_last_block,
      tool_session_layout_split; quiet]|]). apply quiet_plain.
Qed.

Lemma quiet_dispatch io req :
  (waits req = true → patient io (index (rq_params req) "arguments")) →
  quiet (D := D) (dispatch error_text to_rfc3339 version io (rq_method req) (rq_params req)).
Proof.
  intros Hp. unfold waits in Hp. destruct (decide (rq_method req = "tools/call")) as [Hm|Hm].
  - rewrite Hm in *. rewrite bool_decide_true in Hp by done.
    change (quiet (D := D) (let! v := handle_tools_call io error_text to_rfc3339 (rq_params req) in ret (Some v))).
    apply quiet_bind; [|intros ?; apply quiet_ret].
    unfold handle_tools_call. destruct (as_str (index (rq_params req) "name")) as [name|]; [|done].
    change (bind (require (Some name) ?e) ?k) with (k name). cbv beta.
    apply quiet_bind; [|intros ?; apply quiet_ret]. apply quiet_tool. intros ->. by apply Hp.
  - unfold dispatch. rewrite (bool_decide_false (rq_method req = "tools/call")) by done. quiet.
Qed.

Context (parse_request : string → result string Request).
Abbreviation on_line := (on_line error_text to_rfc3339 version parse_request).
Abbreviation on_event := (on_event error_text to_rfc3339 version parse_request).

(** What is asked of an event: the writer is there, lines are text, requests that wait
    have the time they ask for. *)
Definition fine (e : Event) : Prop :=
  match e with
  | Line io bytes =>
      match b ← bytes; from_utf8 b with
      | Some cs => ∀ req, parse_request (of_chars (trim cs)) = Ok req → waits req = true →
                          patient io (index (rq_params req) "arguments")
      | None => False
      end
  | Round _ _ => True
  | WriterGone => False
  end.

(** A response to a request: its id, and a result or an error. *)
Definition response_to (id : Json) (resp : Response) : Prop :=
  rs_id resp = Some id ∧ (is_Some (rs_result resp) ↔ rs_error resp = None).
(** The lines an event may be answered with. *)
Definition reply_to (e : Event) (ls : list string) : Prop :=
  match e with
  | Line io bytes =>
      match b ← bytes; from_utf8 b with
      | Some cs =>
          let line := of_chars (trim cs) in
          if decide (line = "") then ls = []
          else match parse_request line with
               | Err why => ls = [json_line (response_json (Response_err None (-32700) ("parse error: " +:+ why)))]
               | Ok req =>
                   match rq_id req with
                   | Some id => if decide (rq_method req = "initialized") then ls = []
                                else ∃ resp, response_to id resp ∧ ls = [json_line (response_json resp)]
                   | None => ls = []
                   end
               end
      | None => False
      end
  | Round uri _ => ls = [] ∨ ls = [json_line (updated uri)]
  | WriterGone => False
  end.

Lemma send_line_open value (s : Server D) :
  sv_writer s = true → send_line value s = (s <| sv_out ::= (.++ [json_line value]) |>, Ok tt).
Proof. intros Hw. unfold send_line. by rewrite Hw. Qed.

Lemma handle_responds io req (s : Server D) :
  (waits req = true → patient io (index (rq_params req) "arguments")) →
  let '(s', o) := handle error_text to_rfc3339 version io req s in
  sv_out s' = sv_out s ∧ sv_writer s' = sv_writer s ∧
  if decide (rq_method req = "initialized") then o = None
  else ∃ resp, o = Some resp ∧ rs_id resp = rq_id req ∧ (is_Some (rs_result resp) ↔ rs_error resp = None).
Proof.
  intros Hp. destruct (quiet_dispatch io req Hp s) as (Ho & Hw & He & Hs). unfold handle.
  destruct (decide (rq_method req = "initialized")) as [Hm|Hm]; [by rewrite Hm in *|].
  assert (∀ s', dispatch error_text to_rfc3339 version io (rq_method req) (rq_params req) s ≠ (s', Ok None)) as Hn.
  { intros s'. unfold dispatch. rewrite (bool_decide_false (rq_method req = "initialized")) by done.
    repeat case_match; try done; intros Hr; by apply bind_inv in Hr as (? & ? & _ & ?). }
  destruct (dispatch _ _ _ _ _ _ _) as [s' [[v|]|[e| |]]]; cbn in *; try done.
  - split_and!; [done..|]. by eexists.
  - by destruct (Hn s').
  - split_and!; [done..|]. eexists. split; [done|]. destruct e; split; [done| |done|]; split; try done; by intros [].
Qed.

Lemma line_reply io line (s : Server D) :
  sv_writer s = true →
  (∀ req, parse_request line = Ok req → waits req = true → patient io (index (rq_params req) "arguments")) →
  let '(s', go) := on_line io line s in
  go = true ∧ sv_writer s' = true ∧
  ∃ ls, sv_out s' = sv_out s ++ ls ∧
        if decide (line = "") then ls = []
        else match parse_request line with
             | Err why => ls = [json_line (response_json (Response_err None (-32700) ("parse error: " +:+ why)))]
             | Ok req =>
                 match rq_id req with
                 | Some id => if decide (rq_method req = "initialized") then ls = []
                              else ∃ resp, response_to id resp ∧ ls = [json_line (response_json resp)]
                 | None => ls = []
                 end
             end.
Proof.
  intros Hw Hp. unfold McpMain.on_line. destruct (decide (line = "")) as [->|Hl].
  { rewrite bool_decide_true by done. split_and!; [done..|]. exists []. by rewrite app_nil_r. }
  rewrite bool_decide_false by done. destruct (parse_request line) as [req|why] eqn:Hr.
  - specialize (Hp req eq_refl). pose proof (handle_responds io req s Hp) as Hh. unfold request_task.
    destruct (handle _ _ _ _ _ _) as [s' o]. destruct Hh as (Ho & Hw' & Ha). rewrite Hw in Hw'.
    destruct (decide (rq_method req = "initialized")) as [Hi|Hi].
    { subst o. split_and!; [done..|]. exists []. rewrite app_nil_r. split; [done|]. by destruct (rq_id req). }
    destruct Ha as (resp & -> & Hid & Hone). destruct (rq_id req) as [i|].
    + rewrite send_line_open by done. split_and!; [done..|]. eexists. split; [by cbn; rewrite Ho|]. by exists resp.
    + split_and!; [done..|]. exists []. by rewrite app_nil_r.
  - rewrite send_line_open by done. split_and!; [done..|]. by eexists.
Qed.

Lemma round_reply uri connected (s : Server D) :
  sv_writer s = true →
  let s' := subscription_step uri connected s in
  sv_writer s' = true ∧ ∃ ls, sv_out s' = sv_out s ++ ls ∧ (ls = [] ∨ ls = [json_line (updated uri)]).
Proof.
  intros Hw. cbv zeta. unfold subscription_step.
  assert (sv_writer s = true ∧ ∃ ls, sv_out s = sv_out s ++ ls ∧ (ls = [] ∨ ls = [json_line (updated uri)])) as Hsame.
  { split; [done|]. exists []. rewrite app_nil_r. by auto. }
  destruct (sv_subscriptions s !! uri) as [t|]; [|done]. destruct (st_running t); [|done].
  assert (sv_out (poll_daemon connected t s).1 = sv_out s ∧ sv_writer (poll_daemon connected t s).1 = true) as [Ho Hw'].
  { unfold poll_daemon. destruct connected; [|done]. by destruct (next_pane_event (st_seq t) (sv_daemon s)) as [d []]. }
  destruct (poll_daemon connected t s) as [s1 ans]. cbn in Ho, Hw'. destruct (sub_round ans t) as [[t' notify] pause].
  destruct notify.
  - rewrite send_line_open by done. cbn. split; [done|]. eexists. split; [by rewrite Ho|]. by right.
  - cbn. split; [done|]. exists []. rewrite app_nil_r. by auto.
Qed.

Lemma event_reply e (s : Server D) :
  sv_writer s = true → fine e →
  let '(s', go) := on_event e s in
  go = true ∧ sv_writer s' = true ∧ ∃ ls, sv_out s' = sv_out s ++ ls ∧ reply_to e ls.
Proof.
  intros Hw He. destruct e as [io bytes|uri connected|]; cbn [McpMain.on_event reply_to fine] in *; [| |done].
  - destruct (b ← bytes; from_utf8 b) as [cs|]; [|done]. by apply line_reply.
  - split; [done|]. by apply round_reply.
Qed.

Lemma send_line_subs value (s : Server D) : subs_ok s → subs_ok (send_line value s).1.
Proof. intros Hs. unfold send_line. by destruct (sv_writer s). Qed.

Lemma sub_round_ok ans t : 100 ≤ st_backoff t ≤ 5000 → 100 ≤ st_backoff (sub_round ans t).1.1 ≤ 5000.
Proof. intros Ht. destruct ans as [|evs|]; cbn; [lia| |lia]. destruct (last evs); cbn; lia. Qed.

Lemma round_subs uri connected (s : Server D) : subs_ok s → subs_ok (subscription_step uri connected s).
Proof.
  intros Hs. unfold subscription_step. destruct (sv_subscriptions s !! uri) as [t|] eqn:Ht; [|done].
  destruct (st_running t); [|done]. pose proof (sub_round_ok (poll_daemon connected t s).2 t (Hs uri t Ht)) as Hb.
  assert (subs_ok (poll_daemon connected t s).1) as Hp.
  { unfold poll_daemon. destruct connected; [|done]. by destruct (next_pane_event (st_seq t) (sv_daemon s)) as [d []]. }
  destruct (poll_daemon connected t s) as [s1 ans]. cbn [fst snd] in *. destruct (sub_round ans t) as [[t' notify] pause].
  cbn [fst] in Hb. destruct notify.
  - pose proof (send_line_subs (updated uri) s1 Hp) as Hl. destruct (send_line (updated uri) s1) as [s2 []];
      by apply map_Forall_insert_2.
  - by apply map_Forall_insert_2.
Qed.

Lemma event_subs e (s : Server D) : fine e → subs_ok s → subs_ok (on_event e s).1.
Proof.
  intros He Hs. destruct e as [io bytes|uri connected|]; cbn [McpMain.on_event fine] in *; [|by apply round_subs|done].
  destruct (b ← bytes; from_utf8 b) as [cs|]; [|done]. unfold McpMain.on_line. destruct (bool_decide _); [done|].
  destruct (parse_request (of_chars (trim cs))) as [req|why] eqn:Hr.
  - cbn [fst]. unfold request_task, handle. destruct (quiet_dispatch io req (He req eq_refl) s) as (_ & _ & _ & Hq). specialize (Hq Hs).
    destruct (dispatch _ _ _ _ _ _ _) as [s' [[v|]|[e| |]]]; cbn in Hq; [| |..]; try done; destruct (rq_id req); try done; by apply send_line_subs.
  - pose proof (send_line_subs (response_json (Response_err None (-32700) ("parse error: " +:+ why))) s Hs) as Hl.
    by destruct (send_line _ s) as [s' []].
Qed.

Lemma run_subs events (s : Server D) :
  Forall fine events → subs_ok s → subs_ok (run error_text to_rfc3339 version parse_request events s).
Proof.
  intros Hf. revert s. induction Hf as [|e events He _ IH]; intros s Hs; cbn [run]; [done|].
  pose proof (event_subs e s He Hs) as He'. destruct (on_event e s) as [s' []]; [by apply IH|done].
Qed.

Lemma run_replies events (s : Server D) :
  sv_writer s = true → Forall fine events →
  ∃ replies, Forall2 reply_to events replies ∧
             sv_out (run error_text to_rfc3339 version parse_request events s) = sv_out s ++ concat replies.
Proof.
  intros Hw Hf. revert s Hw. induction Hf as [|e events He _ IH]; intros s Hw; cbn [run].
  - exists []. by rewrite app_nil_r.
  - pose proof (event_reply e s Hw He) as Hr. destruct (on_event e s) as [s' go]. destruct Hr as (-> & Hw' & ls & Hls & Hrep).
    destruct (IH s' Hw') as (replies & Hall & ->). exists (ls :: replies). split; [by constructor|]. cbn. by rewrite Hls, <- app_assoc.
Qed.
End Requests.


(** However often the daemon is away, the tasks of the subscriptions wait between 100
    ms and 5 s before they ask again. *)
Theorem subscriptions_back_off `{UuidText, SerdeJson, UnicodeLower} {D : Type} `{!PyreDaemon D}
    error_text to_rfc3339 version parse_request events (daemon : D) uri t :
  Forall (fine parse_request) events →
  sv_subscriptions (main error_text to_rfc3339 version parse_request events daemon) !! uri = Some t →
  100 ≤ st_backoff t ≤ 5000.
Proof. intros Hf. by apply (run_subs error_text to_rfc3339 version parse_request events (MkServer daemon ∅ [] true)). Qed.

(** ** Tools act on what their prefix names *)

(** The tools that act on a pane, and on a session, with the argument that names it. *)
Definition pane_tools : list (string * string) :=
  [ ("pane_send_keys", "pane"); ("pane_capture", "pane"); ("pane_set_state", "pane"); ("wait_pane_state", "pane");
    ("pane_last_block", "pane"); ("pane_run_command", "pane"); ("set_pane_weight", "pane_id");
    ("open_pane_split", "parent_pane_id") ].
Definition session_tools : list (string * string) :=
  [ ("session_close", "session"); ("pane_open", "session"); ("get_session_layout", "session_id") ].

Section Targets.
Context `{UuidText, SerdeJson, UnicodeLower} {D : Type} `{!PyreDaemon D}.
Context (error_text : PyreError → string) (to_rfc3339 : DateTime → string) (io : Io).

(** The computation fails and leaves the server, its daemon included, as it is. *)
Definition refuses {A} (m : T (D := D) A) (s : Server D) : Prop := ∃ e, m s = (s, Err (Failed e)).

Lemma refuses_require {A B} (o : option A) message (k : A → T B) s :
  (∀ a, o = Some a → refuses (k a) s) → refuses (bind (require o message) k) s.
Proof. intros Hk. destruct o as [a|]; [by apply Hk|]. by eexists. Qed.
Lemma refuses_result {A B} (r : result Failure A) (k : A → T B) s :
  ends r → (∀ a, refuses (k a) s) → refuses (bind (of_result r) k) s.
Proof. intros Hr Hk. destruct r as [a|[]]; [apply Hk|by eexists|done..]. Qed.
Lemma refuses_client {B} (k : unit → T B) s : refuses (k tt) s → refuses (bind (client io) k) s.
Proof. intros Hk. unfold client. destruct (io_connect io); [by eexists|done]. Qed.
Lemma refuses_bind {A B} (m : T (D := D) A) (k : A → T B) s : refuses m s → refuses (bind m k) s.
Proof. intros [e He]. exists e. by apply bind_err. Qed.

Lemma refuses_pane prefix s panes :
  list_all_panes (sv_daemon s) = (sv_daemon s, Ok panes) →
  length (filter (λ p, pane_starts prefix p = true) panes) ≠ 1%nat → refuses (resolve_pane_id error_text prefix) s.
Proof.
  intros Hl Hn. unfold refuses, resolve_pane_id. erewrite bind_ok by (by apply rpc_value).
  destruct (filter _ panes) as [|p [|q ps]]; [|done|]; eexists; by destruct s.
Qed.
Lemma refuses_session prefix s sessions :
  list_sessions (sv_daemon s) = (sv_daemon s, Ok sessions) →
  length (filter (λ x, session_starts prefix (si_id x) = true) sessions) ≠ 1%nat → refuses (resolve_session_id error_text prefix) s.
Proof.
  intros Hl Hn. unfold refuses, resolve_session_id. erewrite bind_ok by (by apply rpc_value).
  destruct (filter _ sessions) as [|p [|q ps]]; [|done|]; eexists; by destruct s.
Qed.

Lemma resolve_one prefix s d panes p :
  list_all_panes (sv_daemon s) = (d, Ok panes) → filter (λ p, pane_starts prefix p = true) panes = [p] →
  resolve_pane_id error_text prefix s = (on_daemon d s, Ok (pi_id p)).
Proof. intros Hl Hp. unfold resolve_pane_id. erewrite bind_ok by (by apply rpc_value). by rewrite Hp. Qed.

(** Along a tool, up to the resolution of its prefix. *)
Ltac refuse lemma :=
  repeat first [ apply refuses_client | apply refuses_bind; by eapply lemma | apply refuses_require; intros ? ?; simplify_eq
               | apply refuses_result; [by destruct (waited_state _)|intros ?] | progress cbv zeta
               | case_match; [by eexists|] ].

(** The tool of a name. *)
Ltac pick_tool :=
  unfold call_tool, tools; cbn [field]; repeat (rewrite decide_False by done); rewrite decide_True by done; cbn [default].

Lemma pane_tool_refuses name key args prefix s panes :
  (name, key) ∈ pane_tools → str_arg args key = Some prefix →
  list_all_panes (sv_daemon s) = (sv_daemon s, Ok panes) →
  length (filter (λ p, pane_starts prefix p = true) panes) ≠ 1%nat →
  refuses (call_tool io error_text to_rfc3339 name args) s.
Proof.
  intros Hin Harg Hl Hn. repeat (apply elem_of_cons in Hin as [[= -> ->]|Hin]); [..|by inversion Hin]; pick_tool;
    unfold tool_pane_send_keys, tool_pane_capture, tool_pane_set_state, tool_wait_pane_state, tool_pane_last_block,
      tool_pane_run_command, tool_set_pane_weight, tool_open_pane_split; refuse refuses_pane.
Qed.
Lemma session_tool_refuses name key args prefix s sessions :
  (name, key) ∈ session_tools → str_arg args key = Some prefix →
  list_sessions (sv_daemon s) = (sv_daemon s, Ok sessions) →
  length (filter (λ x, session_starts prefix (si_id x) = true) sessions) ≠ 1%nat →
  refuses (call_tool io error_text to_rfc3339 name args) s.
Proof.
  intros Hin Harg Hl Hn. repeat (apply elem_of_cons in Hin as [[= -> ->]|Hin]); [..|by inversion Hin]; pick_tool;
    unfold tool_session_close, tool_pane_open, tool_get_session_layout; refuse refuses_session.
Qed.

(** The arguments a listed tool needs. *)
Definition required (t : Json) : list string :=
  omap as_str (default [] (as_array (index (index t "inputSchema") "required"))).
Definition tool_name (t : Json) : string := default "" (as_str (index t "name")).

(** The names listed are those of the tools, each once. *)
Lemma listed_names args : tool_name <$> listed_tools ≡ₚ (tools (D := D) io error_text to_rfc3339 args).*1.
Proof.
  change (tools io error_text to_rfc3339 args).*1 with
    ["pane_send_keys"; "pane_capture"; "pane_set_state"; "block_search"; "session_spawn"; "session_close"; "pane_open";
     "wait_pane_state"; "list_sessions"; "list_panes"; "session_layout"; "gc_stale_sessions"; "set_pane_weight";
     "get_session_layout"; "open_pane_split"; "pane_last_block"; "pane_run_command"].
  vm_compute. solve_Permutation.
Qed.

Lemma missing_str args key : json_get key args = None → str_arg args key = None.
Proof. intros Hn. unfold str_arg, index. by rewrite Hn. Qed.
Lemma missing_u64 args key : json_get key args = None → as_u64 (index args key) = None.
Proof. intros Hn. unfold index. by rewrite Hn. Qed.

(** What each tool needs, by name. *)
Definition needs : list (string * list string) := (λ t, (tool_name t, required t)) <$> listed_tools.
Lemma needs_eq :
  needs =
  [ ("pane_send_keys", ["pane"; "text"]); ("pane_capture", ["pane"]); ("pane_set_state", ["pane"; "state"]); ("block_search", ["query"]);
    ("session_spawn", []); ("session_close", ["session"]); ("pane_open", ["session"]); ("wait_pane_state", ["pane"; "state"]);
    ("list_sessions", []); ("list_panes", []); ("gc_stale_sessions", []); ("session_layout", ["name"]);
    ("set_pane_weight", ["pane_id"; "weight"]); ("get_session_layout", ["session_id"]);
    ("open_pane_split", ["parent_pane_id"; "orient"]); ("pane_last_block", ["pane"]); ("pane_run_command", ["pane"; "command"]) ].
Proof. vm_compute. reflexivity. Qed.

Lemma tool_needs_arguments name keys key args s :
  (name, keys) ∈ needs → key ∈ keys → json_get key args = None → refuses (call_tool io error_text to_rfc3339 name args) s.
Proof.
  rewrite needs_eq. intros Hin Hk Hn. pose proof (missing_str args key Hn). pose proof (missing_u64 args key Hn).
  repeat (apply elem_of_cons in Hin as [[= -> ->]|Hin]; [try by inversion Hk|]); [..|by inversion Hin].
  all: pick_tool; repeat (apply elem_of_cons in Hk as [->|Hk]; [|try by inversion Hk]);
    unfold tool_pane_send_keys, tool_pane_capture, tool_pane_set_state, tool_block_search, tool_session_close, tool_pane_open,
      tool_wait_pane_state, tool_session_layout, tool_set_pane_weight, tool_get_session_layout, tool_open_pane_split,
      tool_pane_last_block, tool_pane_run_command;
    repeat (apply refuses_require; intros ? ?; simplify_eq).
Qed.
End Targets.

(** C31: A tool acts only on what its prefix names: if no pane, or more than one, has an
    identifier that starts with the prefix - no session, for the tools of sessions -,
    the tool fails and has changed nothing: the daemon, the subscriptions and the
    output are as they were. *)
Theorem tools_need_one_target `{UuidText, SerdeJson, UnicodeLower} {D : Type} `{!PyreDaemon D} error_text to_rfc3339 io
    name key args prefix (s : Server D) panes sessions :
  list_all_panes (sv_daemon s) = (sv_daemon s, Ok panes) → list_sessions (sv_daemon s) = (sv_daemon s, Ok sessions) →
  str_arg args key = Some prefix →
  (name, key) ∈ pane_tools ∧ length (filter (λ p, pane_starts prefix p = true) panes) ≠ 1%nat ∨
  (name, key) ∈ session_tools ∧ length (filter (λ x, session_starts prefix (si_id x) = true) sessions) ≠ 1%nat →
  ∃ e, call_tool io error_text to_rfc3339 name args s = (s, Err (Failed e)).
Proof.
  intros Hp Hs Ha [[Hin Hn]|[Hin Hn]].
  - by eapply pane_tool_refuses.
  - by eapply session_tool_refuses.
Qed.

(** What [tools/list] says is what [tools/call] does: the names listed are those that
    can be called, and a call without an argument that is listed as required fails,
    having changed nothing. *)
Theorem tools_as_listed `{UuidText, SerdeJson, UnicodeLower} {D : Type} `{!PyreDaemon D} error_text to_rfc3339 io args (s : Server D) :
  tool_name <$> listed_tools ≡ₚ (tools (D := D) io error_text to_rfc3339 args).*1 ∧
  ∀ name keys key, (name, keys) ∈ needs → key ∈ keys → json_get key args = None →
                   ∃ e, call_tool io error_text to_rfc3339 name args s = (s, Err (Failed e)).
Proof. split; [apply listed_names|]. intros. by eapply tool_needs_arguments. Qed.

(** C29: [pane_run_command] ends, and says how the command ended only if it did. After
    the keys are sent it asks for the last block in rounds of 150 ms, as many as begin
    before the deadline: the wait is over in the first round in which the block is
    another than before and finished, or the clock has reached the deadline, or the
    call fails; the answer is that of this round. *)
Theorem run_command_ends `{UuidText, SerdeJson, UnicodeLower} {D : Type} `{!PyreDaemon D} error_text io
    args prefix command panes pane last d1 d2 d3 (s : Server D) :
  io_connect io = None → str_arg args "pane" = Some prefix → str_arg args "command" = Some command → patient io args →
  list_all_panes (sv_daemon s) = (d1, Ok panes) → filter (λ p, pane_starts prefix p = true) panes = [pane] →
  last_block_for_pane (pi_id pane) d1 = (d2, Ok last) →
  send_keys (pi_id pane) (str_bytes command ++ [x0a]) d2 = (d3, Ok tt) →
  let timeout := u64_arg args "timeout_secs" 30 * 1000 in
  let baseline := blk_id <$> last in
  let over n := over io (pi_id pane) baseline (io_clock io 0 + timeout) n d3 in
  ∃ n, 150 * Z.of_nat n ≤ timeout ∧ (∀ m, (m < n)%nat → over m = false) ∧ over n = true ∧
       tool_pane_run_command io error_text args s =
       let s' := on_daemon (polled (pi_id pane) (S n) d3) s in
       match verdict error_text (pi_id pane) baseline n d3 with
       | Ok new_block => run_command_answer error_text command (bool_arg args "include_output" true) (pi_id pane) baseline new_block s'
       | Err e => (s', Err e)
       end.
Proof.
  intros Hc Hpane Hcmd Hp Hall Hone Hlast Hkeys timeout baseline ov.
  destruct (poll_from error_text io (pi_id pane) baseline (io_clock io 0 + timeout) (io_fuel io) 0 d3 (on_daemon d3 s))
    as (n & Hn & Hbefore & Hover & Hrun); [apply Hp|apply Hp|destruct Hp as (_ & _ & ? & _); subst timeout; lia|done|].
  exists n. split_and!; [|intros m Hm; apply Hbefore; lia|done|].
  - apply (rounds_before_deadline io (pi_id pane) baseline timeout d3 n); [apply Hp| |intros m Hm; apply Hbefore; lia].
    pose proof (u64_arg_pos args "timeout_secs" 30 ltac:(lia)). lia.
  - unfold tool_pane_run_command, need. rewrite Hpane, Hcmd, (deadline_is io args Hp). unfold client. rewrite Hc.
    do 3 (erewrite bind_ok by reflexivity). erewrite bind_ok by exact (resolve_one error_text prefix s d1 panes pane Hall Hone).
    erewrite bind_ok by (by apply rpc_value). erewrite bind_ok by (by apply rpc_value). erewrite bind_ok by reflexivity.
    change (on_daemon d3 (on_daemon d2 (on_daemon d1 s))) with (on_daemon d3 s).
    fold timeout baseline. unfold bind. rewrite Hrun. by destruct (verdict _ _ _ _ _).
Qed.

Section Example.
#[local] Existing Instances binary_uuid silent_json PaneTracker.all_ascii_lower.

(** A daemon whose pane ends its command before the third poll. *)
Definition done_block : Block := MkBlock (MkBlockId 9) (MkPaneId 2) (MkSessionId 1) "make" None 0 (Some 5) (Some 0) 0.
Definition busy_daemon : PyreDaemon nat :=
  let d := lone_daemon in
  {| spawn := @spawn _ d; kill := @kill _ d; list_blocks := @list_blocks _ d; search_blocks := @search_blocks _ d;
     list_sessions := @list_sessions _ d; list_panes := @list_panes _ d; open_pane := @open_pane _ d; close_pane := @close_pane _ d;
     replay := @replay _ d; get_block_stdout := λ _ n, (n, Ok []); capture_pane := @capture_pane _ d; close_session := @close_session _ d;
     set_pane_state := @set_pane_state _ d; list_all_panes := λ n, (n, Ok [a_pane]); inspect_pid := @inspect_pid _ d;
     send_keys := @send_keys _ d; resize_pane := @resize_pane _ d; rename_session := @rename_session _ d; rename_pane := @rename_pane _ d;
     wait_pane_state := @wait_pane_state _ d; mark_pane_seen := @mark_pane_seen _ d;
     last_block_for_pane := λ _ n, (S n, Ok (if (n <? 3)%nat then None else Some done_block));
     request_focus := @request_focus _ d; take_focus_request := @take_focus_request _ d; next_pane_event := @next_pane_event _ d;
     gc_stale_sessions := @gc_stale_sessions _ d; open_pane_split := @open_pane_split _ d; set_pane_weight := @set_pane_weight _ d;
     get_session_layout := @get_session_layout _ d; list_windows := @list_windows _ d; new_window := @new_window _ d;
     rename_window := @rename_window _ d; close_window := @close_window _ d; get_window_layout := @get_window_layout _ d;
     git_status := @git_status _ d; stream_connect := @stream_connect _ d |}.
#[local] Existing Instance busy_daemon.
Definition calm_io : Io := MkIo None None [] (λ n, 150 * Z.of_nat n) 10.
Definition at_start : Server nat := MkServer 0%nat ∅ [] true.

(** A request to list the tools, a notification, a line that is no request. *)
Definition parse_words (line : string) : result string Request :=
  if decide (line = "list") then Ok (MkRequest (Some (JInt 1)) "tools/list" JNull)
  else if decide (line = "note") then Ok (MkRequest None "tools/list" JNull) else Err "expected value".
Definition a_run : list Event := Line calm_io ∘ Some ∘ str_bytes <$> ["list"; "note"; "?"].

Definition short_args : Json := JObj [("pane", JStr ""); ("command", JStr "make"); ("timeout_secs", JInt 1)].
Lemma short_args_patient : patient calm_io short_args.
Proof. split; [intros n; cbn; lia|]. vm_compute. repeat split; congruence || lia. Qed.

Lemma tools_need_one_target_witness :
  ∃ e, call_tool calm_io (λ _, "") (λ _, "") "pane_send_keys" (JObj [("pane", JStr "7"); ("text", JStr "ls")]) at_start
       = (at_start, Err (Failed e)).
Proof.
  apply (tools_need_one_target _ _ _ _ "pane" _ "7" _ [a_pane] [MkSessionInfo (MkSessionId 1) "work" 1 0 0]); [reflexivity..|]. left. split; [by left|]. vm_compute. lia.
Defined.

Lemma run_command_ends_witness :
  (tool_pane_run_command calm_io (λ _, "") short_args at_start).1 = on_daemon 4%nat at_start.
Proof.
  destruct (run_command_ends (λ _, "") calm_io short_args "" "make" [a_pane] a_pane None 0%nat 1%nat 1%nat at_start) as (n & Hn & Hb & Ho & ->);
    [reflexivity..|apply short_args_patient|reflexivity|reflexivity|reflexivity|reflexivity|].
  assert (n = 2%nat) as ->; [|vm_compute; reflexivity].
  destruct n as [|[|[|n]]]; [vm_compute in Ho; done..|done|]. specialize (Hb 2%nat ltac:(lia)). vm_compute in Hb. done.
Defined.
End Example.
