(* ===== verification/Tui.v ===== *)
(** * Tui: the state of the terminal front end

    The crate pyre-tui: [AppState] (app/state.rs) with the types of model/ it is made
    of - sessions, tabs, pane slots, selections, menus, prompts, toasts, the pager and
    the search box - and their pure operations. A [usize] is a [nat], a [u16] a [Z], a
    text under edit the list of its characters. The terminal emulator
    (alacritty_terminal) is known by the operations applied to it, and the solver of
    ratatui's [Layout] by one law. ratatui's [Rect::new] is taken on rectangles that
    fit the screen, which it leaves as they are. *)
From Stdlib Require Import Strings.Byte.
From coqutil Require Export Datatypes.RecordSettersUsingExistingGetters.
From S2P Require Import Prelude Proto Text Layout Libraries Effects Themes Inspect Client.
Local Open Scope Z_scope.

(** ** Geometry (model/layout.rs) *)
Definition rect_contains (r : Rect) (col row : Z) : bool :=
  (rx r <=? col) && (col <? wrap_u16 (rx r + rw r)) && (ry r <=? row) && (row <? wrap_u16 (ry r + rh r)).

Definition sat_sub (a b : Z) : Z := Z.max 0 (a - b).
Definition sat_add_u16 (a b : Z) : Z := Z.min 65535 (a + b).
Definition abs_diff (a b : Z) : Z := Z.abs (a - b).

Inductive Direction := DVertical | DHorizontal.

(** [Layout::default().direction(d).constraints(cs).split(area)]: one rectangle for
    each constraint; and [Block::inner] of a block with borders. *)
Inductive Constraint := Percentage (n : Z) | Length (n : Z) | Min (n : Z).
Class LayoutSolver := {
  solve : Direction → list Constraint → Rect → list Rect;
  solve_length d cs area : length (solve d cs area) = length cs;
  block_inner : Rect → Rect }.
Definition percentages (children : list (LayoutNode * Z)) : list Constraint := Percentage <$> children.*2.

Fixpoint pane_leaves_in_order (n : LayoutNode) : list PaneId :=
  match n with
  | Leaf id => [id]
  | HSplit children | VSplit children => flat_map (λ c, pane_leaves_in_order c.1) children
  end.

Section Rects.
Context `{LayoutSolver}.
Section Zip.
Context (collect : LayoutNode → Rect → list (PaneId * Rect)).
Fixpoint zip_rects (children : list (LayoutNode * Z)) (rects : list Rect) : list (PaneId * Rect) :=
  match children, rects with
  | (child, _) :: children', rect :: rects' => collect child rect ++ zip_rects children' rects'
  | _, _ => []
  end.
End Zip.
Fixpoint collect_leaf_rects (n : LayoutNode) (area : Rect) : list (PaneId * Rect) :=
  match n with
  | Leaf id => [(id, area)]
  | HSplit children => zip_rects collect_leaf_rects children (solve DVertical (percentages children) area)
  | VSplit children => zip_rects collect_leaf_rects children (solve DHorizontal (percentages children) area)
  end.
End Rects.

(** A failure of the front end: a panic, or an [anyhow::Error] the caller handles. *)
Inductive Stop :=
  | IndexOutOfBounds (index len : nat)
  | EmptyRemainder                        (** [% 0] *)
  | BadClamp (lo hi : Z)                  (** [clamp] with its bounds crossed *)
  | Failed (e : ClientError).

Definition is_panic (s : Stop) : bool := match s with Failed _ => false | _ => true end.

(** [&v[i]] *)
Definition index {A} (l : list A) (i : nat) : result Stop A := ok_or (l !! i) (IndexOutOfBounds i (length l)).

(** [children_at_mut]: the children of the split at [path], and their change. *)
Fixpoint children_at (root : LayoutNode) (path : list nat) : result Stop (option (list (LayoutNode * Z))) :=
  match path with
  | [] => Ok (match root with Leaf _ => None | HSplit cs | VSplit cs => Some cs end)
  | i :: path' =>
      match root with
      | Leaf _ => Ok None
      | HSplit cs | VSplit cs => let? c := index cs i in children_at c.1 path'
      end
  end.
Fixpoint with_children_at (f : list (LayoutNode * Z) → list (LayoutNode * Z)) (path : list nat) (root : LayoutNode) :
    LayoutNode :=
  match path with
  | [] => match root with Leaf _ => root | HSplit cs | VSplit cs => rebuild root (f cs) end
  | i :: path' =>
      match root with
      | Leaf _ => root
      | HSplit cs | VSplit cs => rebuild root (alter (λ c, (with_children_at f path' c.1, c.2)) i cs)
      end
  end.

(** ** Pane slots (model/pane.rs) *)

(** A terminal: its size and what was done to it. *)
Inductive TermOp := Advance (data : Bytes) | Resize (cols rows : Z).
Record Term := MkTerm { tm_columns : Z; tm_lines : Z; tm_ops : list TermOp }.
Definition term_new (cols rows : Z) : Term := MkTerm cols rows [].

Class Alacritty := {
  cell : Term → Z → nat → Z;              (** the character at a line and a column *)
  history_size : Term → nat;
  pty_writes : Term → Bytes → list string; (** replies to queries in the data *)
  is_alphanumeric : Z → bool }.            (** [char::is_alphanumeric] *)

Definition advance (data : Bytes) (t : Term) : Term := t <| tm_ops ::= (.++ [Advance data]) |>.
Definition term_resize (cols rows : Z) (t : Term) : Term := MkTerm cols rows (tm_ops t ++ [Resize cols rows]).

(** Events of the output stream, and the two channels of a slot with the tasks at
    their other ends ([attach_pane]). *)
Inductive StreamEvent := Output (data : Bytes) | StreamClosed (frames_received : Z).

Record Link := MkLink {
  lk_session : SessionId;
  lk_rx : list StreamEvent;               (** queued for the loop *)
  lk_frames : Z;                          (** decoded by the reading task *)
  lk_reading : bool;                      (** the reading task is alive *)
  lk_tx : list Bytes;                     (** queued for the writing task *)
  lk_writing : bool;                      (** the writing task is alive *)
  lk_sent : list InputFrame }.            (** written to the socket *)

Record PaneSlot := MkSlot {
  sl_pane_id : PaneId;
  sl_term : Term;
  sl_link : Link;
  sl_recent_blocks : list Block;
  sl_ribbon_cursor : option nat;
  sl_last_sent_size : Z * Z;
  sl_frames_received : Z;
  sl_scroll_offset : nat;
  sl_scrollback_capacity : nat;
  sl_last_screen_rect : Rect;
  sl_ribbon_chip_rects : list (nat * Rect);
  sl_pending_output : Bytes;
  sl_parser_sized : bool;
  sl_replies : Bytes }.                   (** the queue of its event proxy *)

Definition Slots := list (option PaneSlot).

Definition pane_to_slot_idx (slots : Slots) (pane_id : PaneId) : option nat :=
  position (λ s, match s with Some sl => bool_decide (sl_pane_id sl = pane_id) | None => false end) slots.
Definition focused_slot_idx (focus_pane : PaneId) (slots : Slots) : option nat := pane_to_slot_idx slots focus_pane.

(** The last slot of a pane wins. *)
Definition build_pane_slot_map (slots : Slots) : gmap PaneId nat :=
  fold_left (λ m e, match e.2 with Some sl => <[sl_pane_id sl := e.1]> m | None => m end)
    (imap pair slots) ∅.

(** Bytes enter the terminal, whose replies are queued; before the first frame they
    wait ([process_output]). [drain_pty_responses] takes the replies. *)
Definition feed `{Alacritty} (data : Bytes) (s : PaneSlot) : PaneSlot :=
  s <| sl_replies ::= (.++ flat_map str_bytes (pty_writes (sl_term s) data)) |> <| sl_term ::= advance data |>.
Definition process_output `{Alacritty} (data : Bytes) (s : PaneSlot) : PaneSlot :=
  if sl_parser_sized s then feed data s else s <| sl_pending_output ::= (.++ data) |>.
Definition drain_pty_responses (s : PaneSlot) : PaneSlot * Bytes := (s <| sl_replies := [] |>, sl_replies s).

Record SplitBoundary := MkBoundary {
  bd_coord : Z; bd_is_hsplit : bool; bd_parent_path : list nat; bd_child_idx : nat; bd_parent_size : Z }.
Record DragState := MkDrag { dg_boundary : SplitBoundary; dg_start_coord : Z; dg_start_weights : list Z }.

(** ** Tabs and sessions (model/tab.rs, app/sessions.rs, app/active.rs) *)
Record Tab := MkTab {
  tb_root : LayoutNode;
  tb_focus_pane : PaneId;
  tb_zoomed : option PaneId;
  tb_boundaries : list SplitBoundary;
  tb_drag : option DragState;
  tb_window_id : WindowId;
  tb_window_name : string }.

Definition tab_reorder {A} (tabs : list A) (from to : nat) : list A :=
  if decide (from = to ∨ (length tabs ≤ from)%nat ∨ (length tabs ≤ to)%nat) then tabs
  else match tabs !! from with
       | Some tab => let rest := delete from tabs in take to rest ++ tab :: drop to rest
       | None => tabs
       end.

Record SessionView := MkView { sv_id : SessionId; sv_name : string; sv_tabs : list Tab; sv_active_tab : nat }.

Definition leaf_tab (pane_id : PaneId) (window_id : WindowId) (window_name : string) : Tab :=
  MkTab (Leaf pane_id) pane_id None [] None window_id window_name.
Definition new_single_pane (id : SessionId) (name : string) (pane_id : PaneId) : SessionView :=
  MkView id name [leaf_tab pane_id (MkWindowId 0) ""] 0.

Definition session_is_live (sv : SessionView) (slots : Slots) : bool :=
  existsb (λ tab, existsb (λ pid, bool_decide (is_Some (pane_to_slot_idx slots pid)))
                    (pane_leaves_in_order (tb_root tab))) (sv_tabs sv).

(** The new value of [active_session]. *)
Definition restore_active_session (sessions : list SessionView) (active_session : nat)
    (prev_active_id : option SessionId) : nat :=
  match prev_active_id with
  | Some id =>
      match position (λ sv, bool_decide (sv_id sv = id)) sessions with
      | Some new_idx => new_idx
      | None => if decide (sessions = []) then active_session else (length sessions - 1)%nat
      end
  | None =>
      if decide ((length sessions ≤ active_session)%nat ∧ sessions ≠ []) then (length sessions - 1)%nat
      else active_session
  end.

(** [focus_next]: cycles through the leaves that have a slot. *)
Definition focus_next (slots : Slots) (forward : bool) (tab : Tab) : Tab :=
  let live_panes := filter (λ pid, is_Some (pane_to_slot_idx slots pid)) (pane_leaves_in_order (tb_root tab)) in
  let len := length live_panes in
  let current_pos := default 0%nat (position (λ p, bool_decide (p = tb_focus_pane tab)) live_panes) in
  let next_pos := if forward then ((current_pos + 1) mod len)%nat else ((current_pos + len - 1) mod len)%nat in
  match live_panes !! next_pos with
  | Some p => tab <| tb_focus_pane := p |>
  | None => tab
  end.

(** ** Selections and clicks (model/selection.rs) *)
Inductive SelectionBase := Live | Scrollback (offset : nat).

Record Selection := MkSelection {
  sn_pane_idx : nat; sn_start : Z * Z; sn_end : Z * Z; sn_dragging : bool; sn_base : SelectionBase }.

(** The order of Rust's pairs. *)
Definition pair_le (a b : Z * Z) : bool := (a.1 <? b.1) || (a.1 =? b.1) && (a.2 <=? b.2).
Definition normalized (s : Selection) : (Z * Z) * (Z * Z) :=
  if pair_le (sn_start s) (sn_end s) then (sn_start s, sn_end s) else (sn_end s, sn_start s).
Definition clamp_to (max_row max_col : Z) (s : Selection) : Selection :=
  let clamp_point p := (Z.min p.1 max_row, Z.min p.2 max_col) in
  s <| sn_start ::= clamp_point |> <| sn_end ::= clamp_point |>.
Definition selection_contains (s : Selection) (row col : Z) : bool :=
  let '((r0, c0), (r1, c1)) := normalized s in
  if (row <? r0) || (r1 <? row) then false
  else if (row =? r0) && (col <? c0) then false
  else if (row =? r1) && (c1 <? col) then false
  else true.

(** Instants are nanoseconds. *)
Record ClickTracker := MkClick { ck_last_at : Z; ck_last_pos : Z * Z; ck_count : Z }.
Definition click_count (now last_at : Z) (last_pos new_pos : Z * Z) (prev_count window_ms : Z) : Z :=
  let elapsed := wrap_u64 (Z.max 0 (now - last_at) / 1000000) in
  if (elapsed <=? window_ms) && bool_decide (last_pos = new_pos) then Z.min (Z.min 255 (prev_count + 1)) 3 else 1.

(** ** Overlays *)
Inductive MenuItem := Copy | KillPane | SplitH | SplitV | ZoomToggle | InspectPid.
Definition label (i : MenuItem) : string :=
  match i with
  | Copy => " Copy selection" | KillPane => " Kill pane" | SplitH => " Split horizontal"
  | SplitV => " Split vertical" | ZoomToggle => " Zoom toggle" | InspectPid => " Inspect PID"
  end.
Definition MENU_ITEMS : list MenuItem := [Copy; KillPane; SplitH; SplitV; ZoomToggle; InspectPid].
Record ContextMenu := MkMenu {
  cm_rect : Rect; cm_cursor : nat; cm_target_slot : nat; cm_item_rects : list Rect }.

Inductive PromptKind :=
  | NewSession | NewTab | RenameSession (session : SessionId) | RenameWindow (window : WindowId).
Record NamePrompt := MkPrompt { np_kind : PromptKind; np_input : list Z }.

Record PagerState := MkPager {
  pg_block_id : string; pg_exit_code : option Z; pg_lines : list (list Z); pg_scroll : nat }.
(** [text.split('\n')] *)
Fixpoint split_newline (cs : list Z) : list (list Z) :=
  match cs with
  | [] => [[]]
  | c :: cs' =>
      if c =? 10 then [] :: split_newline cs'
      else match split_newline cs' with l :: ls => (c :: l) :: ls | [] => [[c]] end
  end.
Definition pager_new (block_id : string) (exit_code : option Z) (raw : Bytes) : PagerState :=
  MkPager block_id exit_code (split_newline (from_utf8_lossy raw)) 0.
Definition scroll_up (n : nat) (p : PagerState) : PagerState := p <| pg_scroll ::= λ s, (s - n)%nat |>.
Definition scroll_down (n visible_rows : nat) (p : PagerState) : PagerState :=
  let max_scroll := (length (pg_lines p) - visible_rows)%nat in
  p <| pg_scroll ::= λ s, Nat.min (s + n) max_scroll |>.

Record SearchState := MkSearch {
  se_open : bool;
  se_input : list Z;
  se_cursor : nat;
  se_results : list BlockHit;
  se_last_query_at : Z;
  se_pending_query : option (list Z);
  se_failures_only : bool;
  se_rx : option (option (list BlockHit));  (** the channel of a query, and the answer on its way *)
  se_result_rects : list (nat * Rect) }.
(** [!] before the query asks for failures only. *)
Definition parse_search_input (input : list Z) : list Z * bool :=
  match input with
  | c :: rest => if c =? 33 then (drop_while is_whitespace rest, true) else (input, false)
  | [] => (input, false)
  end.

Record ThemePickerState := MkPicker { tp_cursor : nat; tp_names : list string; tp_original_theme : Theme }.

(** ** Toasts (model/toast.rs) *)
Inductive ToastKind := TkInfo | TkSuccess | TkWarn | TkError.
Record Toast := MkToast { to_title : string; to_body : string; to_kind : ToastKind; to_born_at : Z; to_ttl : Z }.
Record ToastDeck := MkDeck { td_toasts : list Toast; td_max_visible : nat; td_enabled : bool; td_ttl : Z }.

Definition is_expired (now : Z) (t : Toast) : bool := to_ttl t <=? Z.max 0 (now - to_born_at t).
(** [while self.toasts.len() > self.max_visible { pop_front }] *)
Definition trim_deck (max_visible : nat) (ts : list Toast) : list Toast := drop (length ts - max_visible) ts.
Definition push_toast (now : Z) (title body : string) (kind : ToastKind) (d : ToastDeck) : ToastDeck :=
  if td_enabled d then
    d <| td_toasts ::= λ ts, trim_deck (td_max_visible d) (ts ++ [MkToast title body kind now (td_ttl d)]) |>
  else d.
Definition tick (now : Z) (d : ToastDeck) : ToastDeck :=
  d <| td_toasts ::= filter (λ t, is_expired now t = false) |>.

Definition pane_event_to_toast `{UuidText} (now ttl : Z) (event : PaneEvent) : option Toast :=
  let title := short8 (pane_uuid (ev_pane_id event)) +:+
               match ev_agent event with Some a => " (" +:+ AgentKind_label a +:+ ")" | None => "" end in
  let toast body kind := Some (MkToast title body kind now ttl) in
  match ev_kind event with
  | Spawned => toast "Spawned" TkInfo
  | Closed => toast "Closed" TkInfo
  | StateChanged =>
      match ev_state event with
      | Some WaitingInput => toast "Waiting for input" TkWarn
      | Some Done => toast "Done" TkSuccess
      | Some Crashed => toast "Failed" TkError
      | _ => None
      end
  | LayoutChanged => None
  end.

(** ** The state of the application (app/state.rs) *)
Inductive PendingMenuAction :=
  | ContextMenuCommit | ContextMenuActivate (item : nat) | PendingSplitH | PendingSplitV
  | PendingRenameSession | SearchJump (result : nat).

(** A call made without waiting for its answer. *)
Inductive Request := BgClose (pane : PaneId) | BgResize (pane : PaneId) (size : PaneSize).

(** [control] is the daemon at the other end of the connection; what is sent to the
    clipboard is listed. *)
Record AppState {D : Type} := MkApp {
  sessions : list SessionView;
  active_session : nat;
  slots : Slots;
  session_lost : bool;
  control : D;
  shell : option string;
  search : SearchState;
  status_msg : option string;
  sidebar_open : bool;
  sidebar_data : list PaneInfo;
  sidebar_last_poll : Z;
  sidebar_cursor : nat;
  sidebar_focused : bool;
  selection : option Selection;
  last_click : option ClickTracker;
  context_menu : option ContextMenu;
  pid_inspect : option Inspect.PidInspect;
  prompt : option NamePrompt;
  session_strip_rects : list (nat * Rect);
  session_strip_scroll : nat;
  session_strip_left_arrow : option Rect;
  session_strip_right_arrow : option Rect;
  session_plus_rect : option Rect;
  tab_plus_rect : option Rect;
  pending_resizes : list (PaneId * PaneSize);
  tab_chip_rects : list (nat * Rect);
  dragging_tab : option (nat * Z);
  pager_rect : option Rect;
  session_list_last_poll : Z;
  layout_resync_last_poll : Z;
  pager : option PagerState;
  theme : Theme;
  theme_picker : option ThemePickerState;
  toast_deck : ToastDeck;
  pending_menu_action : option PendingMenuAction;
  last_split_at : option Z;
  help_open : bool;
  clock : Z;                              (** [Instant::now] *)
  clipboard : list (list Z);
  background : list Request }.            (** calls in tasks of their own *)
Arguments AppState : clear implicits.

(** A handler: it changes the state, and may panic or fail. *)
Definition T (D A : Type) : Type := M (AppState D) Stop A.

Section State.
Context {D : Type}.
Implicit Types s : AppState D.

(** [if let Err(e) = m.await { warn }]: failures are logged, panics are not caught. *)
Definition warn {A} (m : T D A) : T D unit :=
  λ s, match m s with
       | (s', Ok _) => (s', Ok tt)
       | (s', Err e) => if is_panic e then (s', Err e) else (s', Ok tt)
       end.

(** A call to the daemon, as its caller looks at the result. *)
Definition on_control {A} (m : M D RpcFailure A) : T D (result RpcFailure A) :=
  λ s, let '(d, r) := m (control s) in (s <| control := d |>, Ok r).
Definition call_daemon {A} (m : M D ClientError A) : T D A :=
  λ s, let '(d, r) := m (control s) in (s <| control := d |>, result_map_err Failed r).

Definition at_index {A} (l : list A) (i : nat) : T D A := of_result (index l i).

(** [&state.sessions[i]], and its active tab *)
Definition session_at (i : nat) : T D SessionView := λ s, at_index (sessions s) i s.
Definition active_view : T D SessionView := let! i := gets active_session in session_at i.
Definition tab_of (sv : SessionView) (i : nat) : T D Tab := at_index (sv_tabs sv) i.
Definition active_tab : T D Tab := let! sv := active_view in tab_of sv (sv_active_tab sv).

Definition set_view (i : nat) (f : SessionView → SessionView) : T D unit := modify (λ s, s <| sessions ::= alter f i |>).
Definition set_tab (si ti : nat) (f : Tab → Tab) : T D unit := set_view si (λ sv, sv <| sv_tabs ::= alter f ti |>).
(** [let tab = &mut sv.tabs[sv.active_tab]] of the active session *)
Definition with_active_tab (f : Tab → Tab) : T D unit :=
  let! sv := active_view in
  do! tab_of sv (sv_active_tab sv) in
  let! si := gets active_session in set_tab si (sv_active_tab sv) f.

(** [state.slots[i]] *)
Definition slot_at (i : nat) : T D (option PaneSlot) := λ s, at_index (slots s) i s.
Definition set_slot (i : nat) (f : PaneSlot → PaneSlot) : T D unit :=
  modify (λ s, s <| slots ::= alter (fmap f) i |>).

(** The slot of the focused pane of the active tab, if it has one. *)
Definition focused_slot : T D (option nat) :=
  let! tab := active_tab in gets (λ s, focused_slot_idx (tb_focus_pane tab) (slots s)).

Definition say (msg : string) : T D unit := modify (λ s, s <| status_msg := Some msg |>).

(** [state.active_session_id()] *)
Definition active_session_id : T D SessionId := let! sv := active_view in ret (sv_id sv).
End State.
