(* ===== verification/TuiPanes.v ===== *)
(** * TuiPanes: attaching, splitting, opening and closing panes

    pyre-tui/src/app/pane_ops.rs: the two tasks behind a pane slot, and the operations
    on panes, tabs and sessions that call the daemon and follow it in the local state. *)
From Stdlib Require Import Strings.Byte.
From S2P Require Import Prelude Proto Text Layout Libraries Effects Themes Server Client Tui.
Local Open Scope Z_scope.

(** What the front end reads of its own process: current directory, environment, size
    of the terminal (columns, rows), and the answer of the clipboard tool. *)
Record Io := MkIo {
  io_cwd : option PathBuf;
  io_env : list (string * string);
  io_term_size : option (Z * Z);
  io_clipboard : option string;            (** the error, if any *)
  io_config_ok : bool }.                   (** the theme can be saved *)

Definition term_size (io : Io) : Z * Z := default (80, 24) (io_term_size io).
Definition compute_pane_inner_size (sz : Z * Z) : Z * Z :=
  (Z.max (sat_sub sz.1 2) 1, Z.max (sat_sub sz.2 6) 1).

(** ** The tasks of a slot *)
Definition NET_CAP : nat := 1024.
Definition KEY_CAP : nat := 64.

(** [net_tx.try_send(event)]: a full channel drops it. *)
Definition net_try_send (e : StreamEvent) (l : Link) : Link :=
  if (length (lk_rx l) <? NET_CAP)%nat then l <| lk_rx ::= (.++ [e]) |> else l.

(** net → UI: a frame was decoded, or the stream ended ([None]). *)
Definition net_task (frame : option Bytes) (l : Link) : Link :=
  if lk_reading l then
    match frame with
    | Some data => net_try_send (Output data) (l <| lk_frames ::= λ n, wrap_u64 (n + 1) |>)
    | None => (net_try_send (StreamClosed (lk_frames l)) l) <| lk_reading := false |>
    end
  else l.

(** UI → net: one frame with everything that is queued. [ok]: it could be sent. *)
Definition key_task (ok : bool) (l : Link) : Link :=
  if lk_writing l then
    match lk_tx l with
    | [] => l
    | queued =>
        let l := l <| lk_tx := [] |> in
        if ok then l <| lk_sent ::= (.++ [MkInputFrame (lk_session l) (concat queued)]) |>
        else l <| lk_writing := false |>
    end
  else l.

(** [input_tx.try_send(bytes)] *)
Definition key_try_send (bytes : Bytes) (l : Link) : Link :=
  if lk_writing l && (length (lk_tx l) <? KEY_CAP)%nat then l <| lk_tx ::= (.++ [bytes]) |> else l.
(** [input_tx.send(bytes).await] waits on a full channel until the task has emptied it. *)
Definition key_send (bytes : Bytes) (l : Link) : Link :=
  let l := if (length (lk_tx l) <? KEY_CAP)%nat then l else key_task true l in
  if lk_writing l then l <| lk_tx ::= (.++ [bytes]) |> else l.

Section Panes.
Context `{UuidText} {D : Type} `{!PyreDaemon D} (io : Io).

(** [attach_pane]: a stream connection for the pane, and its slot. *)
Definition new_slot (session : SessionId) (pane_id : PaneId) (cols rows : Z) : PaneSlot :=
  MkSlot pane_id (term_new cols rows) (MkLink session [] 0 true [] true []) [] None (cols, rows) 0 0 0
    (MkRect 0 0 0 0) [] [] false [].
Definition attach_slot (session : SessionId) (pane_id : PaneId) (cols rows : Z) : M D ClientError PaneSlot :=
  λ d, let '(d', ok) := stream_connect (attach_stream session pane_id) d in
       (d', if ok then Ok (new_slot session pane_id cols rows) else Err AttachFailed).
Definition attach_pane (session : SessionId) (pane_id : PaneId) (cols rows : Z) : T D PaneSlot :=
  call_daemon (attach_slot session pane_id cols rows).
Definition push_slot (slot : PaneSlot) : T D unit := modify (λ s, s <| slots ::= (.++ [Some slot]) |>).

(** ** Focus *)
Definition focus_slot (target_slot_idx : nat) : T D unit :=
  let! sl := gets slots in
  match sl !! target_slot_idx with
  | Some (Some slot) =>
      let target_pane_id := sl_pane_id slot in
      let! tab := active_tab in
      if decide (target_pane_id ∈ pane_leaves_in_order (tb_root tab))
      then with_active_tab (λ tab, tab <| tb_focus_pane := target_pane_id |>)
      else ret tt
  | _ => ret tt
  end.

Definition apply_focus_request : T D unit :=
  let! r := on_control take_focus_request in
  match r with
  | Ok (Some pane_id) =>
      let! sl := gets slots in
      match pane_to_slot_idx sl pane_id with
      | Some slot_idx =>
          do! focus_slot slot_idx in
          say ("focused pane " +:+ short8 (pane_uuid pane_id) +:+ " (select-pane)")
      | None =>
          say ("select-pane: pane " +:+ uuid_to_string (pane_uuid pane_id)
                 +:+ " not open in this TUI — attach it first")
      end
  | _ => ret tt
  end.

(** ** Splitting and opening *)
Definition split_active (horizontal : bool) : T D unit :=
  let '(cols, rows) := compute_pane_inner_size (term_size io) in
  let! session_id := active_session_id in
  let! tab := active_tab in
  do! with_active_tab (λ tab, tab <| tb_zoomed := None |>) in
  let focused_pane := tb_focus_pane tab in
  let orient := if horizontal then Horizontal else Vertical in
  let! new_pane_id :=
    call_daemon (call "open_pane_split"
      (open_pane_split (Server.MkOpenPaneSplitReq focused_pane orient None (io_cwd io) None))) in
  let half_cols := Z.max (cols / 2) 1 in
  let half_rows := Z.max (rows / 2) 1 in
  let '(sc, sr) := if horizontal then (cols, half_rows) else (half_cols, rows) in
  let! slot := attach_pane session_id new_pane_id sc sr in
  do! push_slot slot in
  do! with_active_tab (λ tab, tab <| tb_root ::= λ n, split_focused n focused_pane new_pane_id orient |>
                                  <| tb_focus_pane := new_pane_id |>) in
  modify (λ s, s <| last_split_at := Some (clock s) |>).

(** The name of the [n]-th tab when it has no label. *)
Definition tab_label (n : nat) : string := bytes_str (show_uint (Z.of_nat n)).

Definition open_new_tab (label : option string) : T D unit :=
  let '(cols, rows) := compute_pane_inner_size (term_size io) in
  let! session_id := active_session_id in
  let! window_id := call_daemon (call "new_window" (new_window session_id label)) in
  let! sh := gets shell in
  let! new_pane_id :=
    call_daemon (call "open_pane"
      (open_pane (MkOpenPaneReq session_id window_id sh (io_cwd io) cols rows (io_env io) None))) in
  let! slot := attach_pane session_id new_pane_id cols rows in
  do! push_slot slot in
  let! sv := active_view in
  let tab_n := S (length (sv_tabs sv)) in
  let window_name := match label with
                     | Some l => if decide (l = "") then tab_label tab_n else l
                     | None => tab_label tab_n
                     end in
  let! si := gets active_session in
  set_view si (λ sv, sv <| sv_tabs ::= (.++ [leaf_tab new_pane_id window_id window_name]) |>
                        <| sv_active_tab := length (sv_tabs sv) |>).

Definition open_new_session (name : option string) : T D unit :=
  let '(cols, rows) := compute_pane_inner_size (term_size io) in
  let resolved_name := n ← name; if decide (n = "") then None else Some n in
  let! sh := gets shell in
  let! resp := call_daemon (call "spawn" (spawn (MkSpawnReq sh (io_cwd io) cols rows (io_env io) resolved_name))) in
  let! slot := attach_pane (sr_session resp) (sr_pane resp) cols rows in
  do! push_slot slot in
  let display_name := default ("session-" +:+ short8 (session_uuid (sr_session resp))) resolved_name in
  modify (λ s, s <| sessions ::= (.++ [MkView (sr_session resp) display_name
                                         [leaf_tab (sr_pane resp) (sr_window resp) "1"] 0]) |>
                 <| active_session := length (sessions s) |>).

(** ** Closing *)
Definition locate_pane (target_pane : PaneId) (ss : list SessionView) : option (nat * nat) :=
  let in_tab tab := bool_decide (target_pane ∈ pane_leaves_in_order (tb_root tab)) in
  si ← position (λ sv, existsb in_tab (sv_tabs sv)) ss;
  sv ← ss !! si;
  ti ← position in_tab (sv_tabs sv);
  Some (si, ti).

(** The end of [close_pane_inner], on a tab without leaves and on one with some. *)
Definition remove_tab (sess_idx tab_idx : nat) : T D unit :=
  do! set_view sess_idx (λ sv, sv <| sv_tabs ::= delete tab_idx |>) in
  let! sv := session_at sess_idx in
  if decide (sv_tabs sv = []) then
    do! modify (λ s, s <| sessions ::= delete sess_idx |>) in
    modify (λ s, if decide (sessions s = []) then s
                 else s <| active_session ::= λ a, Nat.min a (length (sessions s) - 1) |>)
  else
    let new_tab_idx := Nat.min tab_idx (length (sv_tabs sv) - 1) in
    do! set_view sess_idx (λ sv, sv <| sv_active_tab := new_tab_idx |>) in
    let! tab := tab_of sv new_tab_idx in
    match head (pane_leaves_in_order (tb_root tab)) with
    | Some first_pane => set_tab sess_idx new_tab_idx (λ tab, tab <| tb_focus_pane := first_pane |>)
    | None => ret tt
    end.

Definition refocus_tab (sess_idx tab_idx : nat) (new_focus_pane : option PaneId) (remaining : list PaneId) : T D unit :=
  let focus := match new_focus_pane with
               | Some p => if decide (p ∈ remaining) then Some p else head remaining
               | None => head remaining
               end in
  do! match focus with
      | Some fp => set_tab sess_idx tab_idx (λ tab, tab <| tb_focus_pane := fp |>)
      | None => ret tt
      end in
  set_tab sess_idx tab_idx (λ tab, tab <| tb_zoomed := None |>).

Definition close_pane_inner (slot_idx : nat) (fire_rpc : bool) : T D unit :=
  let! sl := gets slots in
  match sl !! slot_idx with
  | Some (Some slot) =>
      let pane_id := sl_pane_id slot in
      let! ss := gets sessions in
      match locate_pane pane_id ss with
      | None => ret tt
      | Some (sess_idx, tab_idx) =>
          do! (if fire_rpc then modify (λ s, s <| background ::= (.++ [BgClose pane_id]) |>) else ret tt) in
          let! sv := session_at sess_idx in
          let! tab := tab_of sv tab_idx in
          let '(new_focus_pane, root) := close (tb_root tab) pane_id in
          do! set_tab sess_idx tab_idx (λ tab, tab <| tb_root := root |>) in
          do! modify (λ s, s <| slots ::= <[slot_idx := None]> |>) in
          let leaves := pane_leaves_in_order root in
          let remaining := if decide (new_focus_pane = None ∧ leaves = [pane_id]) then [] else leaves in
          if decide (remaining = []) then remove_tab sess_idx tab_idx
          else refocus_tab sess_idx tab_idx new_focus_pane remaining
      end
  | _ => ret tt
  end.

Definition close_pane_by_slot_idx (slot_idx : nat) : T D unit := close_pane_inner slot_idx true.
Definition close_pane_locally (slot_idx : nat) : T D unit := close_pane_inner slot_idx false.

Definition close_focused_pane : T D unit :=
  let! slot_idx := focused_slot in
  match slot_idx with
  | Some i => close_pane_by_slot_idx i
  | None => ret tt
  end.
End Panes.
