(* ===== verification/TuiKeys.v ===== *)
(** * TuiKeys: the keyboard of the terminal front end

    pyre-tui/src/input/keyboard.rs and input/prefix.rs: the bytes of a key, the keys
    after Ctrl-Space, and [handle_key], which gives a key to the first of the overlays
    and modes that is active and to the focused pane otherwise. *)
From Stdlib Require Import Strings.Byte.
From S2P Require Import Prelude Proto Text Layout Libraries Effects Themes Server Client Tui TuiPanes.
Local Open Scope Z_scope.

(** crossterm's key events; a character is a number. *)
Inductive KeyCode :=
  | KChar (c : Z) | KEnter | KBackspace | KTab | KEsc | KUp | KDown | KRight | KLeft | KBackTab
  | KHome | KEnd | KInsert | KDelete | KPageUp | KPageDown | KNull | KF (n : Z) | KOther.
#[export] Instance KeyCode_eq_dec : EqDecision KeyCode.
Proof. solve_decision. Defined.

Record KeyModifiers := MkMods { km_control : bool; km_shift : bool; km_alt : bool }.
#[export] Instance KeyModifiers_eq_dec : EqDecision KeyModifiers.
Proof. solve_decision. Defined.
Definition NONE : KeyModifiers := MkMods false false false.
Definition CONTROL : KeyModifiers := MkMods true false false.

(** [KeyCode::Char(c)] for a literal character *)
Definition is_char (code : KeyCode) (c : Byte.byte) : bool := bool_decide (code = KChar (byte_to_Z c)).

Definition to_ascii_lowercase (c : Z) : Z := if in_range 65 90 c then c + 32 else c.

Definition esc_seq (s : string) : Bytes := x1b :: str_bytes s.

Definition key_to_bytes (code : KeyCode) (modifiers : KeyModifiers) : option Bytes :=
  match code with
  | KChar c =>
      if km_control modifiers then Some [byte_of_Z (Z.land (to_ascii_lowercase c mod 256) 0x1f)]
      else Some (encode_char c)
  | KEnter => Some [x0d]
  | KBackspace => Some [x7f]
  | KTab => Some [x09]
  | KEsc => Some [x1b]
  | KUp => Some (esc_seq "[A")
  | KDown => Some (esc_seq "[B")
  | KRight => Some (esc_seq "[C")
  | KLeft => Some (esc_seq "[D")
  | KBackTab => Some (esc_seq "[Z")
  | KHome => Some (esc_seq "[H")
  | KEnd => Some (esc_seq "[F")
  | KInsert => Some (esc_seq "[2~")
  | KDelete => Some (esc_seq "[3~")
  | KF 1 => Some (esc_seq "OP")
  | KF 2 => Some (esc_seq "OQ")
  | KF 3 => Some (esc_seq "OR")
  | KF 4 => Some (esc_seq "OS")
  | KF 5 => Some (esc_seq "[15~")
  | KF 6 => Some (esc_seq "[17~")
  | KF 7 => Some (esc_seq "[18~")
  | KF 8 => Some (esc_seq "[19~")
  | KF 9 => Some (esc_seq "[20~")
  | KF 10 => Some (esc_seq "[21~")
  | KF 11 => Some (esc_seq "[23~")
  | KF 12 => Some (esc_seq "[24~")
  | _ => None
  end.

Inductive PrefixAction := PrefixContinue | PrefixQuit | PrefixDetach | PrefixToggleHelp.
Inductive KeyAction := KeyContinue | KeyQuit | KeyDetach.

Definition immediate_prefix_action (code : KeyCode) : option PrefixAction :=
  if is_char code x71 then Some PrefixQuit
  else if is_char code x64 then Some PrefixDetach
  else if is_char code x3f then Some PrefixToggleHelp
  else None.

(** [String::pop] and [push] on a text under edit. *)
Definition pop (cs : list Z) : list Z := removelast cs.

Section Keys.
Context `{UuidText, Alacritty} {D : Type} `{!PyreDaemon D} (io : Io) (error_text : RpcFailure → string).

(** [copy_to_clipboard]: the error, if any. *)
Definition copy_to_clipboard (text : list Z) : T D (option string) :=
  match io_clipboard io with
  | None => do! modify (λ s, s <| clipboard ::= (.++ [text]) |>) in ret None
  | Some e => ret (Some e)
  end.

(** ** After the prefix ([handle_prefix_key]) *)
Definition on_view (f : SessionView → SessionView) : T D unit :=
  do! active_view in let! si := gets active_session in set_view si f.

(** [(sv.active_tab + k) % sv.tabs.len()] *)
Definition rotate_tab (k : nat → nat) : T D unit :=
  let! sv := active_view in
  let len := length (sv_tabs sv) in
  if decide (len = 0%nat) then throw EmptyRemainder
  else on_view (λ sv, sv <| sv_active_tab ::= λ a, ((a + k len) mod len)%nat |>).

Definition zoom_toggle : T D unit :=
  with_active_tab (λ tab, tab <| tb_zoomed := match tb_zoomed tab with
                                              | Some _ => None
                                              | None => Some (tb_focus_pane tab)
                                              end |>).

Definition set_ribbon (f : PaneSlot → option nat) : T D unit :=
  let! slot_idx := focused_slot in
  match slot_idx with
  | Some i => do! slot_at i in set_slot i (λ sl, sl <| sl_ribbon_cursor := f sl |>)
  | None => ret tt
  end.

Definition copy_last_block : T D unit :=
  let! slot_idx := focused_slot in
  match slot_idx with
  | None => ret tt
  | Some i =>
      let! slot := slot_at i in
      match slot with
      | None => ret tt
      | Some slot =>
          match last (sl_recent_blocks slot) with
          | None => say "no blocks"
          | Some last_block =>
              let! r := on_control (get_block_stdout (blk_id last_block)) in
              match r with
              | Ok bytes =>
                  let! failed := copy_to_clipboard (from_utf8_lossy bytes) in
                  match failed with
                  | None => say "copied to clipboard"
                  | Some e => say ("clipboard error: " +:+ e)
                  end
              | Err (Remote e) => say ("get_block_stdout rpc: " +:+ error_text (Remote e))
              | Err Transport => say ("rpc transport: " +:+ error_text Transport)
              end
          end
      end
  end.

Definition open_search : T D unit :=
  modify (λ s, s <| search ::= λ q, q <| se_open := true |> <| se_input := [] |> <| se_cursor := 0%nat |>
                                      <| se_results := [] |> <| se_pending_query := None |> <| se_rx := None |> |>
                 <| status_msg := None |>).

Definition toggle_sidebar : T D unit :=
  modify (λ s, let opened := negb (sidebar_open s) in
               let s := s <| sidebar_open := opened |> <| sidebar_focused := opened |> in
               if opened then s <| sidebar_last_poll := clock s - 10000000000 |> else s).

Definition open_theme_picker : T D unit :=
  modify (λ s, let names := th_name <$> builtin in
               let cursor := default 0%nat (position (λ n, bool_decide (n = th_name (theme s))) names) in
               s <| theme_picker := Some (MkPicker cursor names (theme s)) |>).

Definition open_prompt (kind : PromptKind) (input : list Z) : T D unit :=
  modify (λ s, s <| prompt := Some (MkPrompt kind input) |>).

Definition toggle_toasts : T D unit :=
  modify (λ s, let enabled := negb (td_enabled (toast_deck s)) in
               s <| toast_deck ::= λ d, d <| td_enabled := enabled |> |>
                 <| status_msg := Some (if enabled then "notifications on" else "notifications off") |>).

Definition focus_by (forward : bool) : T D unit :=
  let! sl := gets slots in with_active_tab (focus_next sl forward).

Definition handle_prefix_key (code : KeyCode) : T D PrefixAction :=
  let act (m : T D unit) : T D PrefixAction := do! m in ret PrefixContinue in
  match code with
  | KRight | KDown => act (focus_by true)
  | KLeft | KUp => act (focus_by false)
  | _ =>
      if is_char code x71 then ret PrefixQuit
      else if is_char code x64 then ret PrefixDetach
      else if is_char code x3f then ret PrefixToggleHelp
      else if is_char code x63 then act (warn (open_new_tab io None))
      else if is_char code x6e then act (rotate_tab (λ _, 1%nat))
      else if is_char code x70 then act (rotate_tab (λ len, (len - 1)%nat))
      else if is_char code x22 then act (warn (split_active io true))
      else if is_char code x25 then act (warn (split_active io false))
      else if is_char code x5b then act (set_ribbon (λ sl, Some (length (sl_recent_blocks sl) - 1)%nat))
      else if is_char code x5d then act (set_ribbon (λ _, None))
      else if is_char code x2f then act open_search
      else if is_char code x7a then act zoom_toggle
      else if is_char code x79 then act copy_last_block
      else if is_char code x78 then
        do! close_focused_pane in
        let! ss := gets sessions in
        ret (if decide (ss = []) then PrefixQuit else PrefixContinue)
      else if is_char code x73 then act toggle_sidebar
      else if is_char code x53 then act (open_prompt NewSession [])
      else if is_char code x54 then act open_theme_picker
      else if is_char code x2c then
        act (let! sv := active_view in open_prompt (RenameSession (sv_id sv)) (chars (sv_name sv)))
      else if is_char code x2e then
        act (let! tab := active_tab in open_prompt (RenameWindow (tb_window_id tab)) (chars (tb_window_name tab)))
      else if is_char code x4e then act toggle_toasts
      else ret PrefixContinue
  end.

(** ** Overlays and modes, in the order of [handle_key] *)
Definition help_key (code : KeyCode) : T D KeyAction :=
  do! (if bool_decide (code = KEsc) || is_char code x71 || is_char code x3f
       then modify (λ s, s <| help_open := false |>) else ret tt) in
  ret KeyContinue.

Definition lost_key (code : KeyCode) (mods : KeyModifiers) : T D KeyAction :=
  ret (if is_char code x71 || bool_decide (code = KEsc) || (is_char code x63 && bool_decide (mods = CONTROL))
       then KeyQuit else KeyContinue).

(** [iter_mut().find(p)]: the first element that fits is changed. *)
Definition alter_first {A} (p : A → bool) (f : A → A) (l : list A) : list A :=
  match position p l with Some i => alter f i l | None => l end.

Definition rename_failed (f : RpcFailure) : T D unit :=
  say ((match f with Remote _ => "rename failed: " | Transport => "rename rpc: " end) +:+ error_text f).

Definition submit_prompt (p : NamePrompt) : T D unit :=
  let input := if decide (np_input p = []) then None else Some (of_chars (np_input p)) in
  match np_kind p, input with
  | NewSession, _ => warn (open_new_session io input)
  | NewTab, _ => warn (open_new_tab io input)
  | RenameSession session_id, Some new_name =>
      let! r := on_control (rename_session session_id new_name) in
      match r with
      | Ok _ => modify (λ s, s <| sessions ::= alter_first (λ sv, bool_decide (sv_id sv = session_id))
                                                 (λ sv, sv <| sv_name := new_name |>) |>)
      | Err f => rename_failed f
      end
  | RenameWindow window_id, Some new_name =>
      let! r := on_control (rename_window window_id new_name) in
      match r with
      | Ok _ =>
          on_view (λ sv, sv <| sv_tabs ::= alter_first (λ t, bool_decide (tb_window_id t = window_id))
                                             (λ t, t <| tb_window_name := new_name |>) |>)
      | Err f => rename_failed f
      end
  | _, None => ret tt
  end.

Definition prompt_key (code : KeyCode) (p : NamePrompt) : T D KeyAction :=
  let edit (f : list Z → list Z) : T D unit := modify (λ s, s <| prompt := Some (p <| np_input ::= f |>) |>) in
  do! match code with
      | KEsc => modify (λ s, s <| prompt := None |>)
      | KBackspace => edit pop
      | KEnter => do! modify (λ s, s <| prompt := None |>) in submit_prompt p
      | KChar c => edit (.++ [c])
      | _ => ret tt
      end in
  ret KeyContinue.

(** The text of a selection: rows [r0] to [r1], the first from [c0], the last to [c1].
    [offset] is how far the grid is scrolled back. *)
Definition char_or_space (c : Z) : Z := if c =? 0 then 32 else c.
Definition row_text (t : Term) (offset : Z) (row : Z) (cs ce : nat) : list Z :=
  (λ c, char_or_space (cell t (row - offset) c)) <$> seq cs (S ce - cs).
Definition selected_rows (t : Term) (offset : Z) (a b : Z * Z) : list (list Z) :=
  (λ row, row_text t offset row (if row =? a.1 then Z.to_nat a.2 else 0%nat)
            (if row =? b.1 then Z.to_nat b.2 else Z.to_nat (tm_columns t - 1)))
  <$> seqZ a.1 (b.1 - a.1 + 1).
Fixpoint join_lines (ls : list (list Z)) : list Z :=
  match ls with
  | [] => []
  | [l] => l
  | l :: ls' => l ++ 10 :: join_lines ls'
  end.
(** [text.lines()]: a final empty line is dropped. *)
Definition char_lines (cs : list Z) : list (list Z) :=
  let parts := split_newline cs in
  match last parts with Some [] => removelast parts | _ => parts end.
Definition extract_selection_text (t : Term) (a b : Z * Z) (offset : nat) : list Z :=
  join_lines (trim_end <$> char_lines (join_lines (selected_rows t (Z.of_nat offset) a b))).

(** An item of the context menu, with the slot it was opened on; whether to quit. The
    menu copies from the lines on screen before any scrolling back. *)
Definition menu_copy : T D unit :=
  let! sel := gets selection in
  match sel with
  | None => ret tt
  | Some sel =>
      let! slot := slot_at (sn_pane_idx sel) in
      match slot with
      | None => ret tt
      | Some slot =>
          let '(a, b) := normalized sel in
          let trimmed := extract_selection_text (sl_term slot) a b 0 in
          if decide (trimmed = []) then ret tt
          else do! copy_to_clipboard trimmed in say "copied"
      end
  end.

Definition inspect_slot (target : nat) : T D unit :=
  let! slot := slot_at target in
  match slot with
  | None => ret tt
  | Some slot =>
      let! r := on_control (inspect_pid (sl_pane_id slot)) in
      match r with
      | Ok info => modify (λ s, s <| pid_inspect := Some info |>)
      | Err (Remote e) => say ("inspect_pid: " +:+ error_text (Remote e))
      | Err Transport => say ("rpc transport: " +:+ error_text Transport)
      end
  end.

Definition no_sessions : T D bool := gets (λ s, bool_decide (sessions s = [])).

Definition menu_action (item : MenuItem) (target : nat) : T D bool :=
  let go (m : T D unit) : T D bool := do! m in ret false in
  match item with
  | Copy => go menu_copy
  | KillPane => do! close_pane_by_slot_idx target in no_sessions
  | SplitH => go (warn (split_active io true))
  | SplitV => go (warn (split_active io false))
  | ZoomToggle => go zoom_toggle
  | InspectPid => go (inspect_slot target)
  end.

Definition menu_key (code : KeyCode) (m : ContextMenu) : T D KeyAction :=
  let move (f : nat → nat) : T D KeyAction :=
    do! modify (λ s, s <| context_menu := Some (m <| cm_cursor ::= f |>) |>) in ret KeyContinue in
  if bool_decide (code = KEsc) || is_char code x71 then
    do! modify (λ s, s <| context_menu := None |>) in ret KeyContinue
  else if bool_decide (code = KUp) || is_char code x6b then move (λ c, c - 1)%nat
  else if bool_decide (code = KDown) || is_char code x6a then
    move (λ c, Nat.min (c + 1) (length MENU_ITEMS - 1))%nat
  else if bool_decide (code = KEnter) then
    do! modify (λ s, s <| context_menu := None |>) in
    let! item := at_index MENU_ITEMS (cm_cursor m) in
    let! quit := menu_action item (cm_target_slot m) in
    ret (if quit then KeyQuit else KeyContinue)
  else ret KeyContinue.

(** The theme under the cursor is shown while the picker is open. *)
Definition picker_move (f : nat → nat) (p : ThemePickerState) : T D unit :=
  let p := p <| tp_cursor ::= f |> in
  do! modify (λ s, s <| theme_picker := Some p |>) in
  let! name := at_index (tp_names p) (tp_cursor p) in
  modify (λ s, match get_theme builtin name with Some t => s <| theme := t |> | None => s end).

Definition picker_key (code : KeyCode) (p : ThemePickerState) : T D KeyAction :=
  do! (if bool_decide (code = KEsc) || is_char code x71 then
         modify (λ s, s <| theme_picker := None |> <| theme := tp_original_theme p |>)
       else if bool_decide (code = KUp) || is_char code x6b then picker_move (λ c, c - 1)%nat p
       else if bool_decide (code = KDown) || is_char code x6a then
         picker_move (λ c, Nat.min (c + 1) (length (tp_names p) - 1))%nat p
       else if bool_decide (code = KEnter) then
         do! modify (λ s, s <| theme_picker := None |>) in
         let! name := at_index (tp_names p) (tp_cursor p) in
         match get_theme builtin name with
         | Some t =>
             do! modify (λ s, s <| theme := t |>) in
             say (if io_config_ok io then "theme: " +:+ th_display_name t else "theme saved (warn)")
         | None => ret tt
         end
       else ret tt) in
  ret KeyContinue.

Definition pager_key (code : KeyCode) (body_area : Rect) (p : PagerState) : T D KeyAction :=
  let visible_rows := Z.to_nat (sat_sub (rh body_area) 2) in
  let move (f : PagerState → PagerState) : T D unit := modify (λ s, s <| pager := Some (f p) |>) in
  do! (if bool_decide (code = KEsc) || is_char code x71 then modify (λ s, s <| pager := None |>)
       else if bool_decide (code = KUp) || is_char code x6b then move (scroll_up 1)
       else if bool_decide (code = KDown) || is_char code x6a then move (scroll_down 1 visible_rows)
       else if bool_decide (code = KPageUp) then move (scroll_up (Nat.max visible_rows 1))
       else if bool_decide (code = KPageDown) then move (scroll_down (Nat.max visible_rows 1) visible_rows)
       else ret tt) in
  ret KeyContinue.

(** Going to the pane of a search result: its first place in the active session, or
    else the last one in any. *)
Definition places (sl : Slots) (target : PaneId) (ss : list SessionView) : list (nat * nat * nat) :=
  concat (imap (λ si sv, concat (imap (λ ti tab,
    omap (λ pid, if decide (pid = target) then slot_idx ← pane_to_slot_idx sl pid; Some (si, ti, slot_idx) else None)
      (pane_leaves_in_order (tb_root tab))) (sv_tabs sv))) ss).
Definition jump_target (active : nat) (ps : list (nat * nat * nat)) : option (nat * nat * nat) :=
  match find_first (λ p, (p.1.1 =? active)%nat) ps with
  | Some p => Some p
  | None => last ps
  end.

Definition search_jump (hit : BlockHit) : T D unit :=
  let target_pane := blk_pane (bh_block hit) in
  let! jump := gets (λ s, jump_target (active_session s) (places (slots s) target_pane (sessions s))) in
  match jump with
  | Some (si, ti, slot_idx) =>
      do! modify (λ s, s <| active_session := si |>) in
      do! set_view si (λ sv, sv <| sv_active_tab := ti |>) in
      do! set_tab si ti (λ tab, tab <| tb_focus_pane := target_pane |>) in
      do! slot_at slot_idx in
      set_slot slot_idx (λ sl,
        match position (λ b, bool_decide (blk_id b = blk_id (bh_block hit))) (sl_recent_blocks sl) with
        | Some c => sl <| sl_ribbon_cursor := Some c |>
        | None => sl
        end)
  | None => say "search: result pane not loaded"
  end.

Definition on_search (f : SearchState → SearchState) : T D unit := modify (λ s, s <| search ::= f |>).
Definition close_search : T D unit := on_search (λ q, q <| se_open := false |> <| se_rx := None |>).
(** A change of the input is searched for later. *)
Definition edit_search (f : list Z → list Z) : T D unit :=
  modify (λ s, s <| search ::= λ q, let input := f (se_input q) in
                                    q <| se_input := input |> <| se_pending_query := Some input |>
                                      <| se_last_query_at := clock s |> |>).

Definition search_key (code : KeyCode) (mods : KeyModifiers) : T D KeyAction :=
  do! (if bool_decide (code = KEsc) then close_search
       else if bool_decide (code = KEnter) then
         let! q := gets search in
         do! (if decide (se_results q = []) then ret tt
              else let! hit := at_index (se_results q) (se_cursor q) in search_jump hit) in
         close_search
       else if bool_decide (code = KUp) || (is_char code x70 && bool_decide (mods = CONTROL)) then
         on_search (λ q, q <| se_cursor ::= λ c, (c - 1)%nat |>)
       else if bool_decide (code = KDown) || (is_char code x6e && bool_decide (mods = CONTROL)) then
         on_search (λ q, q <| se_cursor ::= λ c, Nat.min (c + 1) (length (se_results q) - 1) |>)
       else match code with
            | KBackspace => edit_search pop
            | KChar c => edit_search (.++ [c])
            | _ => ret tt
            end) in
  ret KeyContinue.

(** The remaining stages may let the key pass on: [None]. *)
Definition sidebar_enter : T D unit :=
  let! s := gets id in
  match sidebar_data s !! sidebar_cursor s with
  | None => ret tt
  | Some info =>
      let target := pi_id info in
      let! tab := active_tab in
      if decide (target ∈ pane_leaves_in_order (tb_root tab)) then
        do! with_active_tab (λ tab, tab <| tb_focus_pane := target |>) in
        do! modify (λ s, s <| sidebar_focused := false |>) in
        do! on_control (mark_pane_seen target) in ret tt
      else say "open this pane first in a tab to focus"
  end.

Definition sidebar_key (code : KeyCode) : T D (option KeyAction) :=
  let done (m : T D unit) : T D (option KeyAction) := do! m in ret (Some KeyContinue) in
  match code with
  | KUp => done (modify (λ s, s <| sidebar_cursor ::= λ c, (c - 1)%nat |>))
  | KDown => done (modify (λ s, s <| sidebar_cursor ::= λ c, Nat.min (c + 1) (length (sidebar_data s) - 1) |>))
  | KEnter => done sidebar_enter
  | KEsc => done (modify (λ s, s <| sidebar_focused := false |>))
  | _ => ret None
  end.

Definition open_pager (error : string) (transport : string) (block : Block) : T D unit :=
  let! r := on_control (get_block_stdout (blk_id block)) in
  match r with
  | Ok bytes =>
      modify (λ s, s <| pager := Some (pager_new (uuid_to_string (block_uuid (blk_id block))) (blk_exit_code block) bytes) |>)
  | Err (Remote e) => say (error +:+ error_text (Remote e))
  | Err Transport => say (transport +:+ error_text Transport)
  end.

(** In scrollback mode every key is taken. *)
Definition ribbon_key (code : KeyCode) : T D (option KeyAction) :=
  let! slot_idx := focused_slot in
  match slot_idx with
  | None => ret None
  | Some i =>
      let! slot := slot_at i in
      match slot ≫= λ sl, c ← sl_ribbon_cursor sl; Some (sl, c) with
      | None => ret None
      | Some (slot, cursor) =>
          let move (c : option nat) : T D unit := set_slot i (λ sl, sl <| sl_ribbon_cursor := c |>) in
          do! (if bool_decide (code = KLeft) || is_char code x68 then move (Some (cursor - 1)%nat)
               else if bool_decide (code = KRight) || is_char code x6c then
                 move (Some (Nat.min (cursor + 1) (length (sl_recent_blocks slot) - 1)))
               else if bool_decide (code = KEsc) then move None
               else if bool_decide (code = KEnter) then
                 match sl_recent_blocks slot !! cursor with
                 | Some block => open_pager "pager: rpc error: " "pager: transport error: " block
                 | None => ret tt
                 end
               else ret tt) in
          ret (Some KeyContinue)
      end
  end.

Definition page_key (code : KeyCode) (mods : KeyModifiers) (body_area : Rect) : T D (option KeyAction) :=
  if decide (mods = NONE) then
    let! slot_idx := focused_slot in
    match slot_idx with
    | None => ret None
    | Some i =>
        let half_page := Z.to_nat (Z.max (rh body_area / 2) 1) in
        let! slot := slot_at i in
        match slot, code with
        | Some _, KPageUp =>
            do! set_slot i (λ sl, sl <| sl_scroll_offset ::=
                                     λ o, Nat.min (o + half_page) (sl_scrollback_capacity sl) |>) in
            ret (Some KeyContinue)
        | Some _, KPageDown =>
            do! set_slot i (λ sl, sl <| sl_scroll_offset ::= λ o, (o - half_page)%nat |>) in
            ret (Some KeyContinue)
        | _, _ => ret None
        end
    end
  else ret None.

(** Bytes for the focused pane, which goes back to the live view. *)
Definition send_focused (bytes : Bytes) : T D unit :=
  let! slot_idx := focused_slot in
  match slot_idx with
  | None => ret tt
  | Some i =>
      do! slot_at i in
      set_slot i (λ sl, sl <| sl_scroll_offset := 0%nat |> <| sl_link ::= key_send bytes |>)
  end.

Definition forward_key (code : KeyCode) (mods : KeyModifiers) : T D KeyAction :=
  do! match key_to_bytes code mods with
      | Some bytes => send_focused bytes
      | None => ret tt
      end in
  ret KeyContinue.

(** [a.or_else(b)]: the first stage that takes the key. *)
Definition or_else (a : T D (option KeyAction)) (b : T D KeyAction) : T D KeyAction :=
  let! r := a in match r with Some k => ret k | None => b end.

Definition is_prefix (code : KeyCode) (mods : KeyModifiers) : bool :=
  km_control mods && (is_char code x20 || bool_decide (code = KNull)).

Definition after_prefix (code : KeyCode) : T D KeyAction :=
  let! a := handle_prefix_key code in
  match a with
  | PrefixContinue => ret KeyContinue
  | PrefixQuit => ret KeyQuit
  | PrefixDetach => ret KeyDetach
  | PrefixToggleHelp => do! modify (λ s, s <| help_open ::= negb |>) in ret KeyContinue
  end.

Definition plain_key (code : KeyCode) (mods : KeyModifiers) (body_area : Rect) : T D KeyAction :=
  let! s := gets id in
  if se_open (search s) then search_key code mods
  else
    or_else (if sidebar_open s && sidebar_focused s then sidebar_key code else ret None)
      (or_else (ribbon_key code) (or_else (page_key code mods body_area) (forward_key code mods))).

(** The flag of the prefix afterwards, and what the loop is to do. *)
Definition handle_key (code : KeyCode) (mods : KeyModifiers) (prefix_active : bool) (body_area : Rect) :
    T D (bool * KeyAction) :=
  let keep (m : T D KeyAction) : T D (bool * KeyAction) := let! k := m in ret (prefix_active, k) in
  let! s := gets id in
  if help_open s then keep (help_key code)
  else if session_lost s then keep (lost_key code mods)
  else match prompt s, context_menu s, theme_picker s, pager s with
  | Some p, _, _, _ => keep (prompt_key code p)
  | _, Some m, _, _ => keep (menu_key code m)
  | _, _, Some p, _ => keep (picker_key code p)
  | _, _, _, Some p => keep (pager_key code body_area p)
  | None, None, None, None =>
      if negb prefix_active && is_prefix code mods then ret (true, KeyContinue)
      else if prefix_active then let! k := after_prefix code in ret (false, k)
      else keep (plain_key code mods body_area)
  end.
End Keys.
