(* ===== verification/TuiMouse.v ===== *)
(** * TuiMouse: the mouse of the terminal front end

    pyre-tui/src/input/mouse.rs: what a click, drag or turn of the wheel does, by the
    rectangles of the last frame, and the deferred actions of app/run.rs it leaves for
    the loop. *)
From Stdlib Require Import Strings.Byte.
From S2P Require Import Prelude Proto Text Layout Libraries Effects Themes Server Client Tui TuiPanes TuiKeys.
Local Open Scope Z_scope.

Inductive MouseButton := BLeft | BRight | BMiddle.
Inductive MouseEventKind :=
  | MDown (b : MouseButton) | MUp (b : MouseButton) | MDrag (b : MouseButton) | MMoved | MScrollUp | MScrollDown | MOther.
Record MouseEvent := MkMouse { me_kind : MouseEventKind; me_column : Z; me_row : Z }.

Definition CLICK_WINDOW_MS : Z := 500.

(** ** Words and weights *)
Section Words.
Context `{Alacritty}.
Definition is_word_char (c : Z) : bool := (c =? 0) || is_alphanumeric c || (c =? 95).
Fixpoint word_left (t : Term) (row : Z) (c0 : nat) : nat :=
  match c0 with
  | O => O
  | S c => if is_word_char (cell t row c) then word_left t row c else c0
  end.
(** [fuel] columns are to the right. *)
Fixpoint word_right (t : Term) (row : Z) (fuel c1 : nat) : nat :=
  match fuel with
  | O => c1
  | S fuel' => if is_word_char (cell t row (S c1)) then word_right t row fuel' (S c1) else c1
  end.
Definition word_bounds (t : Term) (row col : Z) : Z * Z :=
  let c := Z.to_nat col in
  (Z.of_nat (word_left t row c), Z.of_nat (word_right t row (Z.to_nat (tm_columns t) - 1 - c) c)).
End Words.

(** The pair at [idx] shares its total anew; [clamp] panics when its bounds cross. *)
Definition apply_resize_weights (weights : list Z) (idx : nat) (delta_pct min_pct : Z) : result Stop (list Z) :=
  match weights !! idx, weights !! S idx with
  | Some a, Some b =>
      let total := a + b in
      let hi := total - min_pct in
      if hi <? min_pct then Err (BadClamp min_pct hi)
      else
        let left := clamp (a + delta_pct) min_pct hi in
        Ok (<[S idx := wrap_u16 (total - left)]> (<[idx := wrap_u16 left]> weights))
  | _, _ => Ok weights
  end.

(** [for (i, w) in new_weights { if i < children.len() { children[i].1 = w } }] *)
Fixpoint set_weights (ws : list Z) (children : list (LayoutNode * Z)) : list (LayoutNode * Z) :=
  match ws, children with
  | w :: ws', c :: children' => (c.1, w) :: set_weights ws' children'
  | _, _ => children
  end.
(** Equal shares of 100, the first with the remainder. *)
Definition equal_weights (children : list (LayoutNode * Z)) : list (LayoutNode * Z) :=
  let n := wrap_u16 (Z.of_nat (length children)) in
  if n =? 0 then children
  else let each := 100 / n in
       imap (λ i c, (c.1, each + if decide (i = 0%nat) then 100 - each * n else 0)) children.

(** ** Hit tests *)
Definition hit_rect {A} (rects : list (A * Rect)) (col row : Z) : option A :=
  fst <$> find_first (λ r, rect_contains r.2 col row) rects.
Definition in_rect (r : option Rect) (col row : Z) : bool :=
  match r with Some r => rect_contains r col row | None => false end.
Definition on_boundary (b : SplitBoundary) (col row : Z) : bool :=
  if bd_is_hsplit b then abs_diff row (bd_coord b) <=? 1 else abs_diff col (bd_coord b) <=? 1.

(** The content of a pane: as drawn last, or the pane's rectangle less its border and
    ribbon. *)
Definition inset (rect : Rect) : Rect :=
  MkRect (sat_add_u16 (rx rect) 1) (sat_add_u16 (ry rect) 1) (sat_sub (rw rect) 2) (sat_sub (rh rect) 3).
Definition has_area (r : Rect) : bool := 0 <? rw r * rh r.

(** What the loop does next: its next round, its end, or the rest of this round. *)
Inductive Flow := Continue | Break | Through.

Section Mouse.
Context `{UuidText, Alacritty, LayoutSolver} {D : Type} `{!PyreDaemon D}.
Context (io : Io) (error_text : RpcFailure → string) (body_area : Rect) (col row : Z).

Definition active_leaf_rects : T D (list (PaneId * Rect)) :=
  let! tab := active_tab in ret (collect_leaf_rects (tb_root tab) body_area).

Definition scroll_strip (f : nat → nat) : T D bool :=
  do! modify (λ s, s <| session_strip_scroll ::= f |>) in ret true.

(** The leaf under the pointer takes the focus; its slot is scrolled. *)
Definition wheel_pane (pane : PaneSlot → nat) : T D bool :=
  let! leaf_rects := active_leaf_rects in
  match hit_rect leaf_rects col row with
  | None => ret false
  | Some pane_id =>
      let! sl := gets slots in
      match pane_to_slot_idx sl pane_id with
      | Some slot_idx =>
          do! focus_slot slot_idx in
          do! slot_at slot_idx in
          do! set_slot slot_idx (λ sl, sl <| sl_scroll_offset := pane sl |>) in ret true
      | None => ret true
      end
  end.

(** The wheel: over the strip, the pager or a pane. *)
Definition wheel (strip : nat → nat) (page : Rect → PagerState → PagerState) (pane : PaneSlot → nat) : T D bool :=
  if row =? 0 then scroll_strip strip
  else
    let! pr := gets pager_rect in
    match pr with
    | Some pr =>
        if rect_contains pr col row then do! modify (λ s, s <| pager ::= fmap (page pr) |>) in ret true
        else wheel_pane pane
    | None => wheel_pane pane
    end.

Definition scrolled_up : T D bool :=
  wheel (λ s, s - 1)%nat (λ _, scroll_up 3)
    (λ sl, Nat.min (sl_scroll_offset sl + 3) (sl_scrollback_capacity sl)).
Definition scrolled_down : T D bool :=
  wheel S (λ pr, scroll_down 3 (Nat.max (Z.to_nat (sat_sub (rh pr) 3)) 1)) (λ sl, sl_scroll_offset sl - 3)%nat.

(** ** Right button: the context menu *)
Definition right_down : T D bool :=
  do! modify (λ s, s <| context_menu := None |>) in
  if 2 <=? row then
    let! leaf_rects := active_leaf_rects in
    match hit_rect leaf_rects col row with
    | None => ret false
    | Some pane_id =>
        let! sl := gets slots in
        match pane_to_slot_idx sl pane_id with
        | Some slot_idx =>
            do! focus_slot slot_idx in
            let max_label := foldr Nat.max 0%nat ((λ i, String.length (label i)) <$> MENU_ITEMS) in
            let w := Z.of_nat max_label + 4 in
            let h := Z.of_nat (length MENU_ITEMS) + 2 in
            do! modify (λ s, s <| context_menu := Some (MkMenu (MkRect col row w h) 0 slot_idx []) |>) in
            ret true
        | None => ret true
        end
    end
  else ret false.

(** ** Left button: the two strips *)
Definition strip_down : T D bool :=
  do! modify (λ s, s <| context_menu := None |>) in
  let! s := gets id in
  if in_rect (session_strip_left_arrow s) col row then scroll_strip (λ n, n - 1)%nat
  else if in_rect (session_strip_right_arrow s) col row then scroll_strip S
  else if in_rect (session_plus_rect s) col row then do! open_prompt NewSession [] in ret true
  else match hit_rect (session_strip_rects s) col row with
       | Some sess_idx => do! modify (λ s, s <| active_session := sess_idx |>) in ret true
       | None => ret false
       end.

(** The last column of a chip closes the focused pane of its tab. *)
Definition close_col (chip_rect : Rect) : Z := wrap_u16 (rx chip_rect + sat_sub (rw chip_rect) 1).

Definition close_tab_pane (tab_idx : nat) : T D bool :=
  let! sv := active_view in
  let! tab := tab_of sv tab_idx in
  let! sl := gets slots in
  match focused_slot_idx (tb_focus_pane tab) sl with
  | Some si => do! close_pane_by_slot_idx si in ret true
  | None => ret true
  end.

Definition tabs_down : T D bool :=
  do! modify (λ s, s <| context_menu := None |>) in
  let! s := gets id in
  if in_rect (tab_plus_rect s) col row then do! open_prompt NewTab [] in ret true
  else match find_first (λ r, rect_contains r.2 col row) (tab_chip_rects s) with
       | Some (tab_idx, chip_rect) =>
           if col =? close_col chip_rect then close_tab_pane tab_idx
           else
             do! modify (λ s, s <| dragging_tab := Some (tab_idx, col) |>) in
             do! on_view (λ sv, sv <| sv_active_tab := tab_idx |>) in ret true
       | None => ret false
       end.

(** ** Left button: boundaries, sidebar, panes *)
Definition clicks (s : AppState D) (otherwise : Z) : Z :=
  match last_click s with
  | Some lc => click_count (clock s) (ck_last_at lc) (ck_last_pos lc) (col, row) (ck_count lc) CLICK_WINDOW_MS
  | None => otherwise
  end.
Definition record_click (count : Z) : T D unit :=
  modify (λ s, s <| last_click := Some (MkClick (clock s) (col, row) count) |>).

(** A double click shares the split evenly, a single one starts a drag. A boundary
    that is a leaf by now is passed over. *)
Fixpoint boundary_down (bs : list SplitBoundary) : T D (option bool) :=
  match bs with
  | [] => ret None
  | b :: bs' =>
      if on_boundary b col row then
        let! s := gets id in
        let! tab := active_tab in
        let! children := of_result (children_at (tb_root tab) (bd_parent_path b)) in
        if 2 <=? clicks s 0 then
          do! with_active_tab (λ tab, tab <| tb_root ::= with_children_at equal_weights (bd_parent_path b) |>) in
          do! record_click 2 in ret (Some true)
        else
          match children with
          | None => boundary_down bs'
          | Some children =>
              let start_coord := if bd_is_hsplit b then row else col in
              do! with_active_tab (λ tab, tab <| tb_drag := Some (MkDrag b start_coord children.*2) |>) in
              do! record_click 1 in ret (Some true)
          end
      else boundary_down bs'
  end.

Definition sidebar_down : T D (option bool) :=
  let! s := gets id in
  let sidebar_rect := MkRect (rx body_area) (ry body_area) 24 (rh body_area) in
  if sidebar_open s && rect_contains sidebar_rect col row then
    let row_idx := Z.to_nat (sat_sub row (sat_add_u16 (ry sidebar_rect) 1)) in
    match sidebar_data s !! row_idx with
    | None => ret (Some true)
    | Some info =>
        do! modify (λ s, s <| sidebar_cursor := row_idx |> <| sidebar_focused := true |>) in
        let! tab := active_tab in
        do! (if decide (pi_id info ∈ pane_leaves_in_order (tb_root tab))
             then with_active_tab (λ tab, tab <| tb_focus_pane := pi_id info |>) else ret tt) in
        ret (Some true)
    end
  else ret None.

Definition chip_down (slot_idx chip_idx : nat) : T D unit :=
  let! count := gets (λ s, clicks s 1) in
  do! record_click count in
  do! set_slot slot_idx (λ sl, sl <| sl_ribbon_cursor := Some chip_idx |>) in
  if 2 <=? count then modify (λ s, s <| pending_menu_action := Some ContextMenuCommit |>) else ret tt.

(** A click selects a cell, a second one the word, a third one the line. *)
Definition select_down (slot_idx : nat) (slot : PaneSlot) (content : Rect) : T D unit :=
  let sel_row := sat_sub row (ry content) in
  let sel_col := sat_sub col (rx content) in
  let! count := gets (λ s, clicks s 1) in
  do! record_click count in
  let base := if decide (sl_scroll_offset slot = 0%nat) then Live else Scrollback (sl_scroll_offset slot) in
  let '(start, stop) :=
    if 3 <=? count then ((sel_row, 0), (sel_row, wrap_u16 (sat_sub (tm_columns (sl_term slot)) 1)))
    else if count =? 2 then
      let '(wc0, wc1) := word_bounds (sl_term slot) sel_row sel_col in
      ((sel_row, wrap_u16 wc0), (sel_row, wrap_u16 wc1))
    else ((sel_row, sel_col), (sel_row, sel_col)) in
  modify (λ s, s <| selection := Some (MkSelection slot_idx start stop (count =? 1) base) |>).

Definition content_of (slot : PaneSlot) (rect : Rect) : Rect :=
  if has_area (sl_last_screen_rect slot) then sl_last_screen_rect slot else inset rect.

Definition pane_down : T D bool :=
  let! leaf_rects := active_leaf_rects in
  let! sl := gets slots in
  let with_slots := omap (λ lr, i ← pane_to_slot_idx sl lr.1; Some (i, lr.2)) leaf_rects in
  match find_first (λ r, rect_contains r.2 col row) with_slots with
  | None => ret false
  | Some (slot_idx, rect) =>
      do! focus_slot slot_idx in
      let! slot := slot_at slot_idx in
      match slot with
      | None => ret true
      | Some slot =>
          match hit_rect (sl_ribbon_chip_rects slot) col row with
          | Some chip_idx => do! chip_down slot_idx chip_idx in ret true
          | None =>
              let content := content_of slot rect in
              do! (if rect_contains content col row then select_down slot_idx slot content else ret tt) in
              ret true
          end
      end
  end.

Definition body_down : T D bool :=
  let! tab := active_tab in
  let! r := boundary_down (tb_boundaries tab) in
  match r with
  | Some b => ret b
  | None =>
      let! r := sidebar_down in
      match r with Some b => ret b | None => pane_down end
  end.

Definition left_down : T D bool :=
  if row =? 0 then strip_down else if row =? 1 then tabs_down else body_down.

(** ** Dragging *)
Definition drag_tab : T D bool :=
  let! s := gets id in
  match dragging_tab s with
  | None => ret false
  | Some (from_idx, start_col) =>
      match find_first (λ r, rect_contains r.2 col row && negb (r.1 =? from_idx)%nat) (tab_chip_rects s) with
      | None => ret false
      | Some (over_idx, chip_rect) =>
          let mid := wrap_u16 (rx chip_rect + rw chip_rect / 2) in
          let cross := if start_col <? col then mid <=? col else col <=? mid in
          do! (if cross then
                 do! on_view (λ sv, sv <| sv_tabs ::= λ ts, tab_reorder ts from_idx over_idx |>
                                       <| sv_active_tab := over_idx |>) in
                 modify (λ s, s <| dragging_tab := Some (over_idx, col) |>)
               else ret tt) in
          ret true
      end
  end.

Definition drag_boundary (drag : DragState) (tab : Tab) : T D unit :=
  let b := dg_boundary drag in
  let cur_coord := if bd_is_hsplit b then row else col in
  let delta := cur_coord - dg_start_coord drag in
  let delta_pct := Z.quot (delta * 100) (Z.max (bd_parent_size b) 1) in
  let! new_weights := of_result (apply_resize_weights (dg_start_weights drag) (bd_child_idx b) delta_pct 5) in
  do! of_result (children_at (tb_root tab) (bd_parent_path b)) in
  with_active_tab (λ tab, tab <| tb_root ::= with_children_at (set_weights new_weights) (bd_parent_path b) |>).

(** The end of the selection follows the pointer, kept inside the content. *)
Definition drag_selection (sel : Selection) (content : Rect) : T D unit :=
  let new_row := if row <? ry content then 0
                 else if wrap_u16 (ry content + rh content) <=? row then sat_sub (rh content) 1
                 else sat_sub row (ry content) in
  let new_col := Z.min (sat_sub col (rx content)) (sat_sub (rw content) 1) in
  modify (λ s, s <| selection := Some (sel <| sn_end := (new_row, new_col) |>) |>).

Definition drag_body : T D bool :=
  do! modify (λ s, s <| dragging_tab := None |>) in
  let! tab := active_tab in
  match tb_drag tab with
  | Some drag => do! drag_boundary drag tab in ret true
  | None =>
      let! sel := gets selection in
      match sel with
      | Some sel =>
          if sn_dragging sel then
            let! slot := slot_at (sn_pane_idx sel) in
            match slot with
            | None => ret false
            | Some slot =>
                if has_area (sl_last_screen_rect slot) then
                  do! drag_selection sel (sl_last_screen_rect slot) in ret true
                else
                  let leaf_rects := collect_leaf_rects (tb_root tab) body_area in
                  match find_first (λ lr, bool_decide (lr.1 = sl_pane_id slot)) leaf_rects with
                  | Some (_, leaf_rect) => do! drag_selection sel (inset leaf_rect) in ret true
                  | None => ret true
                  end
            end
          else ret false
      | None => ret false
      end
  end.

(** ** Releasing and hovering *)
Definition left_up : T D bool :=
  do! modify (λ s, s <| dragging_tab := None |>) in
  let! tab := active_tab in
  match tb_drag tab with
  | Some _ => do! with_active_tab (λ tab, tab <| tb_drag := None |>) in ret true
  | None =>
      let! sel := gets selection in
      match sel with
      | Some sel =>
          if sn_dragging sel then
            do! modify (λ s, s <| selection := Some (sel <| sn_dragging := false |>) |>) in
            let! slot := slot_at (sn_pane_idx sel) in
            match slot with
            | None => ret true
            | Some slot =>
                let '(a, b) := normalized sel in
                let trimmed := extract_selection_text (sl_term slot) a b (sl_scroll_offset slot) in
                do! (if decide (trimmed = []) then ret tt else do! copy_to_clipboard io trimmed in ret tt) in
                ret true
            end
          else ret false
      | None => ret false
      end
  end.

Definition hover : T D bool :=
  let! s := gets id in
  let! tab := active_tab in
  let selecting := match selection s with Some sel => sn_dragging sel | None => false end in
  if bool_decide (is_Some (tb_drag tab)) || selecting then ret false
  else
    do! (if existsb (λ b, on_boundary b col row) (tb_boundaries tab) then say "drag to resize"
         else if bool_decide (status_msg s = Some "drag to resize")
         then modify (λ s, s <| status_msg := None |>) else ret tt) in
    ret false.

(** ** [handle_mouse]: whether the event was taken *)
Definition dismiss_menu (kind : MouseEventKind) : T D unit :=
  modify (λ s, match kind, context_menu s with
               | MDown _, Some m => if rect_contains (cm_rect m) col row then s else s <| context_menu := None |>
               | _, _ => s
               end).

Definition menu_down : T D bool :=
  let! s := gets id in
  match context_menu s with
  | None => ret false
  | Some m =>
      match hit_rect (imap pair (cm_item_rects m)) col row with
      | Some idx =>
          do! modify (λ s, s <| context_menu := Some (m <| cm_cursor := idx |>) |>
                             <| pending_menu_action := Some (ContextMenuActivate idx) |>) in
          ret true
      | None => ret false
      end
  end.

Definition search_down : T D bool :=
  let! s := gets id in
  if se_open (search s) then
    match hit_rect (se_result_rects (search s)) col row with
    | Some result_idx =>
        do! on_search (λ q, q <| se_cursor := result_idx |>) in
        do! modify (λ s, s <| pending_menu_action := Some (SearchJump result_idx) |>) in
        ret true
    | None => ret false
    end
  else ret false.

Definition dispatch_mouse (kind : MouseEventKind) : T D bool :=
  match kind with
  | MScrollUp => scrolled_up
  | MScrollDown => scrolled_down
  | MDown BRight => right_down
  | MDown BMiddle => ret false
  | MDown BLeft =>
      let! taken := menu_down in
      if taken then ret true
      else
        let! taken := search_down in
        if taken then ret true else left_down
  | MDrag BLeft => if row =? 1 then drag_tab else drag_body
  | MUp BLeft => left_up
  | MMoved => hover
  | _ => ret false
  end.

Definition handle_mouse (kind : MouseEventKind) : T D bool :=
  do! dismiss_menu kind in dispatch_mouse kind.

(** ** The deferred actions (app/run.rs) *)
Definition commit_block : T D Flow :=
  let! s := gets id in
  match sessions s !! active_session s with
  | None => ret Continue
  | Some sv =>
      let! tab := tab_of sv (sv_active_tab sv) in
      do! match focused_slot_idx (tb_focus_pane tab) (slots s) with
          | None => ret tt
          | Some slot_idx =>
              let! slot := slot_at slot_idx in
              match slot ≫= λ sl, c ← sl_ribbon_cursor sl; sl_recent_blocks sl !! c with
              | Some block => open_pager error_text "get_block_stdout: " "rpc transport: " block
              | None => ret tt
              end
          end in
      ret Through
  end.

Definition activate_item (item_idx : nat) : T D Flow :=
  let! menu := gets context_menu in
  match menu with
  | None => ret Through
  | Some menu =>
      do! modify (λ s, s <| context_menu := None |>) in
      let! item := at_index MENU_ITEMS (Nat.min item_idx (length MENU_ITEMS - 1)) in
      let! quit := menu_action io error_text item (cm_target_slot menu) in
      ret (if quit then Break else Through)
  end.

Definition run_pending (action : PendingMenuAction) : T D Flow :=
  let go (m : T D unit) : T D Flow := do! m in ret Through in
  match action with
  | PendingSplitH => go (warn (split_active io true))
  | PendingSplitV => go (warn (split_active io false))
  | PendingRenameSession =>
      go (let! sv := active_view in open_prompt (RenameSession (sv_id sv)) (chars (sv_name sv)))
  | SearchJump idx =>
      go (let! q := gets search in
          do! match se_results q !! idx with Some hit => search_jump hit | None => ret tt end in
          close_search)
  | ContextMenuActivate item_idx => activate_item item_idx
  | ContextMenuCommit => commit_block
  end.

(** An event of the mouse in the loop. *)
Definition on_mouse (kind : MouseEventKind) : T D Flow :=
  do! handle_mouse kind in
  let! action := gets pending_menu_action in
  do! modify (λ s, s <| pending_menu_action := None |>) in
  let! flow := match action with Some a => run_pending a | None => ret Through end in
  match flow with
  | Through => let! none_left := no_sessions in ret (if none_left then Break else Through)
  | _ => ret flow
  end.
End Mouse.
