(* ===== verification/TuiDraw.v ===== *)
(** * TuiDraw: what drawing a frame does to the state

    pyre-tui/src/render/: a frame is drawn from the state, and leaves in it the
    rectangles the mouse is tested against, the sizes of terminals and the boundaries
    of splits ([draw_frame], [render_session_strip], [render_layout], [render_pane],
    [render_ribbon], [render_context_menu], [render_search_overlay]). What is painted on
    the screen is in TuiPaint and TuiOverlays. *)
From Stdlib Require Import Strings.Byte.
From S2P Require Import Prelude Proto Text Layout Libraries Effects Themes Server Client Tui TuiPanes TuiKeys.
Local Open Scope Z_scope.

(** ** The session strip (render/session_strip.rs, render/sidebar.rs) *)
Definition agent_ui_label (state : PaneStateKind) (seen : bool) : string :=
  match state, seen with
  | WaitingInput, _ => "blocked"
  | Running, _ => "working"
  | Interactive, _ => "interactive"
  | Crashed, _ => "crashed"
  | Done, false => "done"
  | Done, true => "idle"
  | Idle, _ => "idle"
  end.
Definition state_rank (s : PaneStateKind) : Z :=
  match s with Crashed => 0 | WaitingInput => 1 | Running => 2 | Interactive => 3 | Idle => 4 | Done => 5 end.
Definition session_worst_pane (sidebar : list PaneInfo) (session_id : SessionId) : option PaneInfo :=
  min_by_key (λ p, state_rank (pi_state p)) (filter (λ p, pi_session p = session_id) sidebar).

Record PillItem := MkPill { pill_sess_idx : nat; pill_label : list Z }.
Definition pill_width (p : PillItem) : Z := Z.of_nat (length (pill_label p)).

Definition pill_text (sidebar : list PaneInfo) (i : nat) (sv : SessionView) : list Z :=
  let tag := match session_worst_pane sidebar (sv_id sv) with
             | Some p => ":" +:+ agent_ui_label (pi_state p) (pi_seen p)
             | None => ""
             end in
  chars (" " +:+ tab_label (S i) +:+ " " +:+ sv_name sv +:+ tag +:+ " ").
(** Sessions without a live pane have no pill. *)
Definition pills (sidebar : list PaneInfo) (sl : Slots) (ss : list SessionView) : list PillItem :=
  omap id (imap (λ i sv, if session_is_live sv sl then Some (MkPill i (pill_text sidebar i sv)) else None) ss).

(** Columns of the pills, one apart. *)
Fixpoint pill_offsets (ps : list PillItem) (col_cur : Z) : list Z :=
  match ps with
  | [] => []
  | p :: ps' => col_cur :: pill_offsets ps' (col_cur + pill_width p + 1)
  end.
Definition pills_width (ps : list PillItem) : Z :=
  sum_Z (pill_width <$> ps) + Z.max 0 (Z.of_nat (length ps) - 1).

(** The scroll that brings the active pill into view. *)
Definition auto_scroll (ps : list PillItem) (offsets : list Z) (active : nat) (left_reserved visible_w scroll : Z) : Z :=
  let active := Nat.min active (length ps - 1) in
  match ps !! active, offsets !! active with
  | Some p, Some pill_start =>
      let pill_end := pill_start + pill_width p in
      let scroll := if pill_start <? scroll + left_reserved then sat_sub pill_start left_reserved else scroll in
      if scroll + left_reserved + visible_w <? pill_end then sat_sub (sat_sub pill_end visible_w) left_reserved else scroll
  | _, _ => scroll
  end.

(** Rectangles of the visible parts, from left to right. [vx] is the column reached,
    [first] that no pill was passed; the flag in the middle of the source that tells a
    drawn separator from a scrolled one has no effect here. *)
Fixpoint strip_rects (first : bool) (ps : list (PillItem * Z)) (area : Rect) (content_start scroll viewport vx : Z) :
    list (nat * Rect) :=
  match ps with
  | [] => []
  | (p, pill_vstart) :: ps' =>
      let pill_vend := pill_vstart + pill_width p in
      if pill_vend <=? scroll then
        strip_rects false ps' area content_start scroll viewport (if decide (ps' = []) then pill_vend else pill_vend + 1)
      else if scroll + viewport <=? pill_vstart then []
      else
        let vx := if first then vx else vx + 1 in
        let clip_start := sat_sub scroll vx in
        let clip_end := Z.min (sat_sub (scroll + viewport) vx) (pill_width p) in
        let visible_len := wrap_u16 (clip_end - clip_start) in
        let screen_x := wrap_u16 (content_start + wrap_u16 (sat_sub (vx + clip_start) scroll)) in
        (if (0 <? rh area) && (0 <? visible_len)
         then [(pill_sess_idx p, MkRect screen_x (ry area) visible_len 1)] else [])
          ++ strip_rects false ps' area content_start scroll viewport pill_vend
  end.

Record Strip := MkStrip {
  st_scroll : Z; st_rects : list (nat * Rect);
  st_left : option Rect; st_right : option Rect; st_plus : option Rect }.

Definition arrow (b : bool) : Z := if b then 1 else 0.

Definition layout_strip (area : Rect) (ps : list PillItem) (active : nat) (scroll : Z) : Strip :=
  let viewport_w := rw area in
  let offsets := pill_offsets ps 0 in
  let plus_virtual_x := pills_width ps + 1 in
  let total_virtual_w := plus_virtual_x + 3 in
  let left_reserved := arrow (0 <? scroll) in
  let right_reserved := arrow (viewport_w + scroll <? total_virtual_w) in
  let visible_w := sat_sub viewport_w (left_reserved + right_reserved) in
  let scroll := auto_scroll ps offsets active left_reserved visible_w scroll in
  let scroll := Z.min scroll (sat_sub total_virtual_w viewport_w) in
  let needs_left := 0 <? scroll in
  let needs_right := viewport_w + scroll <? total_virtual_w in
  let content_start := wrap_u16 (rx area + arrow needs_left) in
  let viewport := sat_sub viewport_w (arrow needs_left + arrow needs_right) in
  let visible := 0 <? rh area in
  let right_x := wrap_u16 (rx area + rw area - 1) in
  let clip_s := sat_sub scroll plus_virtual_x in
  let clip_e := Z.min (sat_sub (scroll + viewport) plus_virtual_x) 3 in
  let plus_w := wrap_u16 (clip_e - clip_s) in
  let plus_x := wrap_u16 (content_start + wrap_u16 (sat_sub plus_virtual_x scroll)) in
  MkStrip scroll (strip_rects true (zip ps offsets) area content_start scroll viewport 0)
    (if needs_left && visible then Some (MkRect (rx area) (ry area) 1 1) else None)
    (if needs_right && visible then Some (MkRect right_x (ry area) 1 1) else None)
    (if visible && (scroll <? plus_virtual_x + 3) && (plus_virtual_x <? scroll + viewport) && (0 <? plus_w)
     then Some (MkRect plus_x (ry area) plus_w 1) else None).

(** ** The tab chips (render/frame.rs) *)
Definition chip_width (i : nat) (tab : Tab) : Z :=
  let win_label := if decide (tb_window_name tab = "") then tab_label (S i) else tb_window_name tab in
  wrap_u16 (Z.of_nat (length (chars win_label)) + 3).
(** Chips from [x] on, and the column after the last. *)
Fixpoint tab_chips (area : Rect) (i : nat) (tabs : list Tab) (x : Z) : list (nat * Rect) * Z :=
  match tabs with
  | [] => ([], x)
  | tab :: tabs' =>
      let len := chip_width i tab in
      let x' := wrap_u16 (x + len + (if decide (tabs' = []) then 0 else 1)) in
      let r := tab_chips area (S i) tabs' x' in
      ((if 0 <? rh area then [(i, MkRect x (ry area) len 1)] else []) ++ r.1, r.2)
  end.

(** ** The ribbon of a pane (render/pane.rs) *)
Section Ribbon.
Context `{UuidText}.
(** [live_prefix▎bxxxx] *)
Definition ribbon_chip_len (b : Block) : Z :=
  wrap_u16 (Z.of_nat (length (take 4 (chars (uuid_to_string (block_uuid (blk_id b)))))) + 2
            + match blk_exit_code b with None => 1 | Some _ => 0 end).
Fixpoint ribbon_chips (area : Rect) (i : nat) (blocks : list Block) (x_offset : Z) : list (nat * Rect) :=
  match blocks with
  | [] => []
  | b :: blocks' =>
      let sep_len := if decide (i = 0%nat) then 0 else 1 in
      let chip_len := ribbon_chip_len b in
      let right := wrap_u16 (rx area + rw area) in
      let start := wrap_u16 (x_offset + sep_len) in
      (if (0 <? rh area) && (start <? right)
       then [(i, MkRect start (ry area) (Z.min chip_len (sat_sub right start)) 1)] else [])
        ++ ribbon_chips area (S i) blocks' (wrap_u16 (x_offset + sep_len + chip_len))
  end.
End Ribbon.

(** ** Panes *)
Section Draw.
Context `{UuidText, Alacritty, LayoutSolver} {D : Type}.

Definition split2 (d : Direction) (a b : Constraint) (area : Rect) : Rect * Rect :=
  match solve d [a; b] area with r0 :: r1 :: _ => (r0, r1) | _ => (area, area) end.

(** The terminal takes the size of the area; the first frame feeds what waited. *)
Definition fit_terminal (text_area : Rect) (slot : PaneSlot) : PaneSlot :=
  let '(cols, rows) := (rw text_area, rh text_area) in
  let slot := if decide (tm_columns (sl_term slot) = cols ∧ tm_lines (sl_term slot) = rows) then slot
              else if (0 <? cols) && (0 <? rows) then slot <| sl_term ::= term_resize cols rows |> else slot in
  if sl_parser_sized slot then slot
  else
    let slot := slot <| sl_parser_sized := true |> in
    if decide (sl_pending_output slot = []) then slot
    else (feed (sl_pending_output slot) slot) <| sl_pending_output := [] |>.

(** [render_pane]: the slot, and the size to send to the daemon. *)
Definition render_pane (area : Rect) (slot : PaneSlot) : PaneSlot * list (PaneId * PaneSize) :=
  let inner := block_inner area in
  if (rw inner =? 0) || (rh inner <? 2) then (slot, [])
  else
    let '(content_area, ribbon_area) := split2 DVertical (Min 1) (Length 1) inner in
    let capacity := history_size (sl_term slot) in
    let slot := slot <| sl_last_screen_rect := content_area |> <| sl_scrollback_capacity := capacity |>
                     <| sl_scroll_offset ::= λ o, Nat.min o capacity |> in
    let text_area := if (0 <? sl_scroll_offset slot)%nat && (1 <? rw content_area)
                     then (split2 DHorizontal (Min 1) (Length 1) content_area).1 else content_area in
    let slot := fit_terminal text_area slot in
    let size := (wrap_u16 (rw text_area), wrap_u16 (rh text_area)) in
    let resized := negb (bool_decide (size = sl_last_sent_size slot)) in
    let slot := slot <| sl_last_sent_size := size |>
                     <| sl_ribbon_chip_rects := ribbon_chips ribbon_area 0 (sl_recent_blocks slot) (rx ribbon_area) |> in
    (slot, if resized then [(sl_pane_id slot, MkPaneSize size.1 size.2)] else []).

Definition render_slot (i : nat) (area : Rect) (st : Slots * list (PaneId * PaneSize)) :
    Slots * list (PaneId * PaneSize) :=
  match st.1 !! i with
  | Some (Some slot) =>
      let '(slot', resizes) := render_pane area slot in (<[i := Some slot']> st.1, st.2 ++ resizes)
  | _ => st
  end.

(** The boundaries between the children of each split, parents first. *)
Section Boundaries.
Context (rec : list nat → LayoutNode → Rect → list SplitBoundary) (path : list nat).
Fixpoint child_boundaries (i : nat) (children : list (LayoutNode * Z)) (rects : list Rect) : list SplitBoundary :=
  match children, rects with
  | (child, _) :: children', rect :: rects' =>
      rec (path ++ [i]) child rect ++ child_boundaries (S i) children' rects'
  | _, _ => []
  end.
End Boundaries.
Definition split_boundaries (is_hsplit : bool) (path : list nat) (area : Rect) (rects : list Rect) : list SplitBoundary :=
  imap (λ i r, MkBoundary (wrap_u16 (if is_hsplit then ry r + rh r else rx r + rw r)) is_hsplit path i
                 (if is_hsplit then rh area else rw area))
    (removelast rects).
Fixpoint layout_boundaries (path : list nat) (n : LayoutNode) (area : Rect) : list SplitBoundary :=
  match n with
  | Leaf _ => []
  | HSplit children =>
      let rects := solve DVertical (percentages children) area in
      split_boundaries true path area rects ++ child_boundaries layout_boundaries path 0 children rects
  | VSplit children =>
      let rects := solve DHorizontal (percentages children) area in
      split_boundaries false path area rects ++ child_boundaries layout_boundaries path 0 children rects
  end.

(** [render_layout]: each leaf in its slot. *)
Definition render_layout (root : LayoutNode) (area : Rect) (sl : Slots) : Slots * list (PaneId * PaneSize) :=
  let pane_slot := build_pane_slot_map sl in
  fold_left (λ st lr, match pane_slot !! lr.1 with Some i => render_slot i lr.2 st | None => st end)
    (collect_leaf_rects root area) (sl, []).

Definition render_zoomed (zoom_pane : PaneId) (area : Rect) (sl : Slots) : Slots * list (PaneId * PaneSize) :=
  match build_pane_slot_map sl !! zoom_pane with
  | Some i => render_slot i area (sl, [])
  | None => (sl, [])
  end.

(** ** Overlays *)
Definition menu_item_rects (area : Rect) (m : ContextMenu) : list Rect :=
  let max_label := foldr Nat.max 0%nat ((λ i, String.length (label i)) <$> MENU_ITEMS) in
  let w := Z.of_nat max_label + 4 in
  let h := Z.of_nat (length MENU_ITEMS) + 2 in
  let popup := MkRect (Z.min (rx (cm_rect m)) (sat_sub (rw area) w)) (Z.min (ry (cm_rect m)) (sat_sub (rh area) h)) w h in
  let inner := block_inner popup in
  (λ idx, MkRect (rx inner) (wrap_u16 (ry inner + Z.of_nat idx)) (rw inner) 1)
    <$> take (Z.to_nat (rh inner)) (seq 0 (length MENU_ITEMS)).

(** [results_area] is what the overlay leaves for the list. *)
Definition result_rows (results_area : Rect) (count : nat) : list (nat * Rect) :=
  let inner_y := sat_add_u16 (ry results_area) 1 in
  let bottom := sat_sub (sat_add_u16 (ry results_area) (rh results_area)) 1 in
  omap (λ i, let row_y := inner_y + wrap_u16 (Z.of_nat i) in
             if (65535 <? row_y) || (bottom <=? row_y) then None
             else Some (i, MkRect (sat_add_u16 (rx results_area) 1) row_y (sat_sub (rw results_area) 2) 1))
    (seq 0 count).

(** ** [draw_frame] *)
Definition screen_rows (area : Rect) : list Rect :=
  solve DVertical [Length 1; Length 1; Min 0; Length 1] area.
Definition screen_row (area : Rect) (i : nat) : Rect := default area (screen_rows area !! i).
Definition body_of (area : Rect) : Rect := screen_row area 2.

Definition draw_strip (area : Rect) : T D unit :=
  modify (λ s,
    let st := layout_strip area (pills (sidebar_data s) (slots s) (sessions s)) (active_session s)
                (Z.of_nat (session_strip_scroll s)) in
    s <| session_strip_scroll := Z.to_nat (st_scroll st) |> <| session_strip_rects := st_rects st |>
      <| session_strip_left_arrow := st_left st |> <| session_strip_right_arrow := st_right st |>
      <| session_plus_rect := st_plus st |>).

Definition draw_tabs (area : Rect) : T D unit :=
  let! sv := active_view in
  let '(chips, x_cursor) := tab_chips area 0 (sv_tabs sv) (rx area) in
  modify (λ s, s <| tab_chip_rects := chips |>
                 <| tab_plus_rect := if (0 <? rh area) && (wrap_u16 (x_cursor + 3) <=? wrap_u16 (rx area + rw area))
                                     then Some (MkRect x_cursor (ry area) 3 1) else None |>).

(** The sidebar takes 24 columns from the panes. *)
Definition pane_body_area (sidebar : bool) (body : Rect) : Rect :=
  if sidebar then (split2 DHorizontal (Length 24) (Min 0) body).2 else body.

Definition draw_body (body : Rect) : T D unit :=
  let! tab := active_tab in
  let! sidebar := gets sidebar_open in
  let area := pane_body_area sidebar body in
  let! sl := gets slots in
  let '(sl', resizes) := match tb_zoomed tab with
                         | Some zoom_pane => render_zoomed zoom_pane area sl
                         | None => render_layout (tb_root tab) area sl
                         end in
  let boundaries := match tb_zoomed tab with Some _ => [] | None => layout_boundaries [] (tb_root tab) area end in
  do! modify (λ s, s <| slots := sl' |> <| pending_resizes ::= (.++ resizes) |>) in
  with_active_tab (λ tab, tab <| tb_boundaries := boundaries |>).

(** [results_area] is the part of the search overlay with the list. *)
Definition draw_results (area results_area : Rect) : T D unit :=
  modify (λ s,
    let s := s <| pager_rect := match pager s with Some _ => Some area | None => None end |> in
    match pager s, theme_picker s, prompt s with
    | None, None, None =>
        if se_open (search s)
        then s <| search ::= λ q, q <| se_result_rects := result_rows results_area (length (se_results q)) |> |>
        else s
    | _, _, _ => s
    end).
Definition draw_menu (area : Rect) : T D unit :=
  modify (λ s, s <| context_menu ::= fmap (λ m, m <| cm_item_rects := menu_item_rects area m |>) |>).
Definition draw_overlays (area results_area : Rect) : T D unit :=
  do! draw_results area results_area in draw_menu area.

Definition draw_frame (area results_area : Rect) : T D unit :=
  let! lost := gets session_lost in
  if lost then ret tt
  else
    do! draw_strip (screen_row area 0) in
    do! draw_tabs (screen_row area 1) in
    do! draw_body (body_of area) in
    draw_overlays area results_area.
End Draw.
