(* ===== verification/TuiLoop.v ===== *)
(** * TuiLoop: the event loop of the terminal front end

    pyre-tui/src/app/run.rs: the state it starts with, and one round of the loop as a
    sequence of stages: output of the panes, answers of the background tasks, polls of
    the daemon, the search for a live pane, the frame, and one event. What a round
    reads from outside is a [Round]; its clock stands still. *)
From Stdlib Require Import Strings.Byte.
From S2P Require Import Prelude Proto Text Layout Libraries Effects Themes Server Client.
From S2P Require Import Tui TuiPanes TuiKeys TuiMouse TuiDraw.
Local Open Scope Z_scope.

Inductive Event :=
  | EvMouse (e : MouseEvent) | EvKey (code : KeyCode) (mods : KeyModifiers) | EvPaste (text : string)
  | EvResize (cols rows : Z) | EvOther.

Record Round := MkRound {
  rd_now : Z;
  rd_net : list (nat * option Bytes);        (** frames decoded, or ends of streams, by slot *)
  rd_written : list (nat * bool);            (** writing tasks that ran *)
  rd_background : bool;                      (** the calls in the background are answered *)
  rd_blocks : option (gmap PaneId (list Block));
  rd_toasts : list Toast;
  rd_search_ready : bool;                    (** the answer of a search has arrived *)
  rd_area : Rect;                            (** of the screen *)
  rd_results_area : Rect;                    (** of the list in the search overlay *)
  rd_event : option Event }.

(** ** Output of the panes *)
Section Drain.
Context `{Alacritty}.

(** [while let Ok(event) = slot.output_rx.try_recv()]: stops at the end of the stream. *)
Fixpoint drain_events (evs : list StreamEvent) (slot : PaneSlot) : PaneSlot * option Z :=
  match evs with
  | [] => (slot <| sl_link ::= λ l, l <| lk_rx := [] |> |>, None)
  | StreamClosed frames :: evs' => (slot <| sl_link ::= λ l, l <| lk_rx := evs' |> |>, Some frames)
  | Output data :: evs' =>
      let slot := slot <| sl_frames_received ::= λ n, wrap_u64 (n + 1) |> in
      let '(slot, responses) := drain_pty_responses (process_output data slot) in
      let slot := if decide (responses = []) then slot else slot <| sl_link ::= key_try_send responses |> in
      drain_events evs' slot
  end.

Definition drain_slot (s : option PaneSlot) : option PaneSlot * option Z :=
  match s with
  | None => (None, None)
  | Some slot => let '(slot', closed) := drain_events (lk_rx (sl_link slot)) slot in (Some slot', closed)
  end.

(** The slots afterwards, and those whose stream ended, with its frames. *)
Definition drain_slots (sl : Slots) : Slots * list (nat * Z) :=
  let r := drain_slot <$> sl in
  (r.*1, omap id (imap (λ i c, frames ← c; Some (i, frames)) r.*2)).
End Drain.

Section Loop.
Context `{UuidText, Alacritty, LayoutSolver} {D : Type} `{!PyreDaemon D}.
Context (io : Io) (error_text : RpcFailure → string).

(** A stream that ended without a frame was refused: the daemon is not called. *)
Definition drain_output : T D unit :=
  let! sl := gets slots in
  let '(sl', closed) := drain_slots sl in
  do! modify (λ s, s <| slots := sl' |>) in
  for_each (λ c, if c.2 =? 0 then close_pane_locally c.1 else close_pane_by_slot_idx c.1) closed.

(** ** Answers of background tasks *)
Definition take_blocks (blocks : option (list Block)) (slot : PaneSlot) : PaneSlot :=
  match blocks with
  | Some bs =>
      slot <| sl_recent_blocks := bs |>
           <| sl_ribbon_cursor ::= λ c, cursor ← c;
                if decide (bs = []) then None else Some (Nat.min cursor (length bs - 1)) |>
  | None => slot <| sl_recent_blocks := [] |> <| sl_ribbon_cursor := None |>
  end.
Definition drain_blocks (snapshot : option (gmap PaneId (list Block))) : T D unit :=
  match snapshot with
  | None => ret tt
  | Some m => modify (λ s, s <| slots ::= map (option_map (λ sl, take_blocks (m !! sl_pane_id sl) sl)) |>)
  end.

Definition drain_toasts (toasts : list Toast) : T D unit :=
  modify (λ s, s <| toast_deck ::= λ d,
    fold_left (λ d t, push_toast (clock s) (to_title t) (to_body t) (to_kind t) d) toasts (tick (clock s) d) |>).

Definition millis (ms : Z) : Z := ms * 1000000.

(** A query 150 ms after the last keystroke; the answer arrives later. *)
Definition search_debounce : T D unit :=
  let! s := gets id in
  match se_pending_query (search s) with
  | Some raw =>
      if se_open (search s) && (millis 150 <=? clock s - se_last_query_at (search s)) then
        let '(query, failures_only) := parse_search_input raw in
        let! r := on_control (search_blocks (MkSearchBlocksReq (of_chars query) 20 failures_only None None None)) in
        let hits := match r with Ok hits => hits | Err _ => [] end in
        on_search (λ q, q <| se_pending_query := None |> <| se_failures_only := failures_only |>
                          <| se_rx := Some (Some hits) |>)
      else ret tt
  | None => ret tt
  end.
Definition drain_search (ready : bool) : T D unit :=
  on_search (λ q, match se_rx q with
                  | Some (Some hits) =>
                      if ready then q <| se_results := hits |> <| se_cursor := 0%nat |> <| se_rx := Some None |> else q
                  | _ => q
                  end).

Definition run_request (r : Request) : T D unit :=
  match r with
  | BgClose pane => do! on_control (close_pane pane) in ret tt
  | BgResize pane size => do! on_control (resize_pane (MkResizePaneReq pane size)) in ret tt
  end.
Definition run_background : T D unit :=
  let! rs := gets background in
  do! modify (λ s, s <| background := [] |>) in
  for_each run_request rs.

(** ** The list of all panes, every second *)
Definition session_name_for (ss : list SessionView) (session_id : SessionId) : string :=
  match find_first (λ sv, bool_decide (sv_id sv = session_id)) ss with
  | Some sv => sv_name sv
  | None => short8 (session_uuid session_id)
  end.
Definition pane_le (ss : list SessionView) (a b : PaneInfo) : bool :=
  match String.compare (session_name_for ss (pi_session a)) (session_name_for ss (pi_session b)) with
  | Lt => true
  | Gt => false
  | Eq => (pane_uuid (pi_id a) <=? pane_uuid (pi_id b))%N
  end.
Definition pane_before (ss : list SessionView) (a b : PaneInfo) : Prop := pane_le ss a b = true.
#[export] Instance pane_before_dec ss : RelDecision (pane_before ss).
Proof. intros a b. unfold pane_before. exact (bool_eq_dec _ _). Defined.

Definition poll_panes : T D unit :=
  let! s := gets id in
  if millis 1000 <=? clock s - sidebar_last_poll s then
    do! modify (λ s, s <| sidebar_last_poll := clock s |>) in
    let! r := on_control list_all_panes in
    match r with
    | Ok panes =>
        modify (λ s, let sorted := merge_sort (pane_before (sessions s)) (take 50 panes) in
                     s <| sidebar_data := sorted |>
                       <| sidebar_cursor ::= λ c, Nat.min c (length sorted - 1) |>)
    | Err _ => ret tt
    end
  else ret tt.

(** ** The sessions of the daemon, every second *)
Definition inner_size : Z * Z := compute_pane_inner_size (term_size io).

(** [if let Ok(slot) = attach_pane(..)]: whether the slot was added. *)
Definition try_attach (session : SessionId) (pane : PaneId) : T D bool :=
  λ s, match attach_pane session pane inner_size.1 inner_size.2 s with
       | (s', Ok slot) => (s' <| slots ::= (.++ [Some slot]) |>, Ok true)
       | (s', Err _) => (s', Ok false)
       end.

Definition adopt_session (known_ids : list SessionId) (info : SessionInfo) : T D unit :=
  if decide (si_pane_count info = 0 ∨ si_id info ∈ known_ids) then ret tt
  else
    let! r := on_control (list_panes (si_id info)) in
    match r with
    | Ok (p :: _) =>
        let! attached := try_attach (si_id info) (pi_id p) in
        if attached : bool
        then modify (λ s, s <| sessions ::= (.++ [new_single_pane (si_id info) (si_name info) (pi_id p)]) |>)
        else ret tt
    | _ => ret tt
    end.

Definition attach_missing (session : SessionId) (pane : PaneId) : T D unit :=
  let! sl := gets slots in
  match pane_to_slot_idx sl pane with
  | Some _ => ret tt
  | None => do! try_attach session pane in ret tt
  end.

(** A tree from the daemon takes the place of a tab's; the focus stays if it can. *)
Definition new_focus (old_focus : PaneId) (new_leaves : list PaneId) : PaneId :=
  if decide (old_focus ∈ new_leaves) then old_focus else default old_focus (head new_leaves).
Definition apply_layout (layout : LayoutNode) (tab : Tab) : Tab :=
  tab <| tb_root := layout |> <| tb_focus_pane := new_focus (tb_focus_pane tab) (pane_leaves_in_order layout) |>.

(** [if new tab for each pane that has a slot], when the daemon gives no tree *)
Definition fallback_tab (sv_idx : nat) (p : PaneInfo) : T D unit :=
  let! sl := gets slots in
  match pane_to_slot_idx sl (pi_id p) with
  | None => ret tt
  | Some _ => set_view sv_idx (λ sv, sv <| sv_tabs ::= λ ts, ts ++ [leaf_tab (pi_id p) (pi_window p) (tab_label (S (length ts)))] |>)
  end.

Definition local_panes (sv : SessionView) : list PaneId := flat_map (λ tab, pane_leaves_in_order (tb_root tab)) (sv_tabs sv).

Definition show_new_panes (session : SessionId) (sv_idx : nat) (new_panes : list PaneInfo) : T D unit :=
  let! fresh_layout := on_control (get_session_layout session) in
  do! for_each (λ p, attach_missing session (pi_id p)) new_panes in
  match fresh_layout with
  | Ok layout =>
      let! sv := session_at sv_idx in
      do! tab_of sv (sv_active_tab sv) in
      set_tab sv_idx (sv_active_tab sv) (apply_layout layout)
  | Err _ => for_each (fallback_tab sv_idx) new_panes
  end.

(** Slots of panes the daemon does not list any more are dropped; the leaves stay. *)
Definition drop_slots (sv_idx : nat) (daemon_ids : list PaneId) : T D unit :=
  let! sv := session_at sv_idx in
  modify (λ s,
    let to_drop := omap (λ pid, if decide (pid ∈ daemon_ids) then None else pane_to_slot_idx (slots s) pid) (local_panes sv) in
    s <| slots ::= λ sl, fold_left (λ sl i, <[i := None]> sl) to_drop sl |>).

Definition sync_session (info : SessionInfo) : T D unit :=
  let! ss := gets sessions in
  match position (λ sv, bool_decide (sv_id sv = si_id info)) ss with
  | None => ret tt
  | Some sv_idx =>
      let! sv := session_at sv_idx in
      let! r := on_control (list_panes (si_id info)) in
      match r with
      | Err _ => ret tt
      | Ok daemon_panes =>
          let new_panes := filter (λ p, pi_id p ∉ local_panes sv) daemon_panes in
          do! (if decide (new_panes = []) then ret tt else show_new_panes (si_id info) sv_idx new_panes) in
          drop_slots sv_idx (pi_id <$> daemon_panes)
      end
  end.

Definition prune_sessions (daemon_ids : list SessionId) : T D unit :=
  modify (λ s, s <| sessions ::= filter (λ sv, sv_id sv ∈ daemon_ids) |>).

Definition follow_daemon (daemon_sessions : list SessionInfo) : T D unit :=
  let! s := gets id in
  let prev_active_id := sv_id <$> sessions s !! active_session s in
  do! for_each (adopt_session (sv_id <$> sessions s)) daemon_sessions in
  do! for_each sync_session daemon_sessions in
  do! prune_sessions (si_id <$> daemon_sessions) in
  modify (λ s, s <| active_session ::= λ a, restore_active_session (sessions s) a prev_active_id |>).

Definition toast (title body : string) (kind : ToastKind) : T D unit :=
  modify (λ s, s <| toast_deck ::= push_toast (clock s) title body kind |>).

(** Whether the daemon could not be reached. *)
Definition sync_sessions : T D bool :=
  let! s := gets id in
  if millis 1000 <=? clock s - session_list_last_poll s then
    do! modify (λ s, s <| session_list_last_poll := clock s |>) in
    let! r := on_control list_sessions in
    match r with
    | Err Transport =>
        do! toast "daemon unreachable" "restart pyred or check ~/.local/state/pyre/pyre.log" TkError in ret true
    | Err (Remote _) => do! toast "daemon error" "session list RPC returned an error" TkWarn in ret false
    | Ok daemon_sessions => do! follow_daemon daemon_sessions in ret false
    end
  else ret false.

(** ** The layout of the active tab, every five seconds *)
Definition fetch_layout (sv : SessionView) (tab : Tab) : T D (result RpcFailure LayoutNode) :=
  if decide (window_uuid (tb_window_id tab) ≠ 0%N)
  then on_control (get_window_layout (tb_window_id tab))
  else on_control (get_session_layout (sv_id sv)).

Definition recently_split (s : AppState D) : bool :=
  match last_split_at s with Some t => clock s - t <? millis 2000 | None => false end.

Definition resync_layout : T D unit :=
  let! s := gets id in
  if millis 5000 <=? clock s - layout_resync_last_poll s then
    do! modify (λ s, s <| layout_resync_last_poll := clock s |>) in
    let! sv := active_view in
    let! tab := tab_of sv (sv_active_tab sv) in
    let! fresh_layout := fetch_layout sv tab in
    match fresh_layout with
    | Err _ => ret tt
    | Ok layout =>
        let! sl := gets slots in
        let new_ids := filter (λ pid, pane_to_slot_idx sl pid = None) (pane_leaves_in_order layout) in
        do! for_each (λ pid, do! try_attach (sv_id sv) pid in ret tt) new_ids in
        let! s := gets id in
        if bool_decide (pane_leaves_in_order (tb_root tab) = pane_leaves_in_order layout) || recently_split s then ret tt
        else with_active_tab (apply_layout layout)
    end
  else ret tt.

(** ** The search for a live pane *)
Definition has_slot (sl : Slots) (pid : PaneId) : bool := bool_decide (is_Some (pane_to_slot_idx sl pid)).
Definition tab_live (sl : Slots) (tab : Tab) : bool := existsb (has_slot sl) (pane_leaves_in_order (tb_root tab)).

(** Another session counts only by its active tab. *)
Definition session_shows (sl : Slots) (sv : SessionView) : bool :=
  match sv_tabs sv !! sv_active_tab sv with Some tab => tab_live sl tab | None => false end.

Definition detect_lost : T D unit :=
  let! sv := active_view in
  let! tab := tab_of sv (sv_active_tab sv) in
  let! s := gets id in
  let si := active_session s in
  let ti := sv_active_tab sv in
  if tab_live (slots s) tab then modify (λ s, s <| session_lost := false |>)
  else if session_lost s then ret tt
  else
    match find_first (λ e, negb (e.1 =? ti)%nat && tab_live (slots s) e.2) (imap pair (sv_tabs sv)) with
    | Some (next_ti, _) =>
        do! set_view si (λ sv, sv <| sv_active_tab := next_ti |>) in modify (λ s, s <| session_lost := false |>)
    | None =>
        match find_first (λ e, negb (e.1 =? si)%nat && session_shows (slots s) e.2) (imap pair (sessions s)) with
        | Some (next_si, _) => modify (λ s, s <| active_session := next_si |> <| session_lost := false |>)
        | None => modify (λ s, s <| session_lost := true |>)
        end
    end.

(** ** Events *)
Definition paste (text : string) : T D unit :=
  send_focused (esc_seq "[200~" ++ str_bytes text ++ esc_seq "[201~").

(** The flag of the prefix afterwards, whether the front end detaches, and what the
    loop does. *)
Definition on_event (body : Rect) (prefix_active : bool) (e : Event) : T D (bool * bool * Flow) :=
  match e with
  | EvMouse me =>
      let! flow := on_mouse io error_text body (me_column me) (me_row me) (me_kind me) in
      ret (prefix_active, false, flow)
  | EvKey code mods =>
      let! r := handle_key io error_text code mods prefix_active body in
      let '(prefix', k) := r in
      ret (prefix', match k with KeyDetach => true | _ => false end,
           match k with KeyContinue => Through | _ => Break end)
  | EvPaste text => do! paste text in ret (prefix_active, false, Through)
  | _ => ret (prefix_active, false, Through)
  end.

(** ** One round *)
Definition arrive (rd : Round) : T D unit :=
  modify (λ s, s <| clock := rd_now rd |> <| slots ::= λ sl,
    let sl := fold_left (λ sl e, alter (option_map (λ sl, sl <| sl_link ::= net_task e.2 |>)) e.1 sl) (rd_net rd) sl in
    fold_left (λ sl e, alter (option_map (λ sl, sl <| sl_link ::= key_task e.2 |>)) e.1 sl) (rd_written rd) sl |>).

(** What the loop keeps besides the state. *)
Record LoopVars := MkLoop { lv_prefix_active : bool; lv_detach_requested : bool; lv_daemon_lost : bool }.

Definition take_resizes : T D unit :=
  modify (λ s, s <| background ::= (.++ (λ r, BgResize r.1 r.2) <$> pending_resizes s) |> <| pending_resizes := [] |>).

(** From the polls to the frame; [sessions.is_empty()] ends the loop before it. *)
Definition polls (rd : Round) : T D bool :=
  do! drain_blocks (rd_blocks rd) in
  do! drain_toasts (rd_toasts rd) in
  do! search_debounce in
  do! drain_search (rd_search_ready rd) in
  do! apply_focus_request in
  do! poll_panes in
  sync_sessions.

Definition show (rd : Round) : T D unit :=
  do! resync_layout in
  do! detect_lost in
  do! draw_frame (rd_area rd) (rd_results_area rd) in
  take_resizes.

(** A round up to its event, and whether the loop ends before it. *)
Definition until_event (rd : Round) (lv : LoopVars) : T D (LoopVars * bool) :=
  do! arrive rd in
  do! (if rd_background rd then run_background else ret tt) in
  do! drain_output in
  let! gone := no_sessions in
  if gone : bool then ret (lv, true)
  else
    let! unreachable := polls rd in
    let lv := MkLoop (lv_prefix_active lv) (lv_detach_requested lv) (lv_daemon_lost lv || unreachable) in
    let! gone := no_sessions in
    if gone : bool
    then ret (MkLoop (lv_prefix_active lv) (lv_detach_requested lv) (lv_daemon_lost lv || negb (lv_detach_requested lv)), true)
    else do! show rd in ret (lv, false).

Definition round (rd : Round) (lv : LoopVars) : T D (LoopVars * Flow) :=
  let! r := until_event rd lv in
  let '(lv, gone) := r in
  if gone : bool then ret (lv, Break)
  else
    match rd_event rd with
    | None => ret (lv, Continue)
    | Some e =>
        let! r := on_event (body_of (rd_area rd)) (lv_prefix_active lv) e in
        let '(prefix', detach, flow) := r in
        ret (MkLoop prefix' (lv_detach_requested lv || detach) (lv_daemon_lost lv), flow)
    end.

(** The loop on the rounds it will see. *)
Fixpoint run_loop (rds : list Round) (lv : LoopVars) : T D LoopVars :=
  match rds with
  | [] => ret lv
  | rd :: rds' =>
      let! r := round rd lv in
      let '(lv', flow) := r in
      match flow with Break => ret lv' | _ => run_loop rds' lv' end
  end.

(** ** The start ([initial_app_state] and the beginning of [run_tui]) *)
Definition initial_app_state (now : Z) (session : SessionId) (session_name : string) (initial_slot : PaneSlot) (control : D)
    (sh : option string) (th : Theme) (deck : ToastDeck) : AppState D :=
  MkApp D [new_single_pane session session_name (sl_pane_id initial_slot)] 0 [Some initial_slot] false control sh
    (MkSearch false [] 0 [] now None false None []) None false [] (now - millis 10000) 0 false None None None None None
    [] 0 None None None None [] [] None None (now - millis 10000) (now - millis 10000) None th None deck None None false
    now [] [].

(** The first session and its slot, with the last commands of its pane. *)
Definition first_session (init : PaneInit) (sh : option string) : M D ClientError (SessionId * string * PaneSlot) :=
  let! first := match init with
                | Existing session name pane => ret (session, name, pane)
                | Spawn =>
                    let! resp := call "spawn" (spawn (MkSpawnReq sh (io_cwd io) inner_size.1 inner_size.2 (io_env io) None)) in
                    ret (sr_session resp, "session-" +:+ short8 (session_uuid (sr_session resp)), sr_pane resp)
                end in
  let '(session, name, pane) := first in
  let! slot := attach_slot session pane inner_size.1 inner_size.2 in
  let! blocks := call_opt (replay pane 20) in
  ret (session, name, match blocks with
                      | Some r => if decide (rb_recent r = []) then slot else slot <| sl_recent_blocks := rb_recent r |>
                      | None => slot
                      end).

(** Every other session that has a pane is attached to by its first one. *)
Definition discover (session : SessionId) (info : SessionInfo) : T D unit :=
  if decide (si_id info = session ∨ si_pane_count info = 0) then ret tt
  else
    let! r := on_control (list_panes (si_id info)) in
    match r with
    | Ok (p :: _) =>
        let! attached := try_attach (si_id info) (pi_id p) in
        if attached : bool then
          let! r := on_control (replay (pi_id p) 20) in
          do! modify (λ s, match r with
                           | Ok r => if decide (rb_recent r = []) then s
                                     else s <| slots ::= λ sl, alter (option_map (λ sl, sl <| sl_recent_blocks := rb_recent r |>))
                                                                 (length sl - 1)%nat sl |>
                           | Err _ => s
                           end) in
          modify (λ s, s <| sessions ::= (.++ [new_single_pane (si_id info) (si_name info) (pi_id p)]) |>)
        else ret tt
    | _ => ret tt
    end.

Definition discover_sessions (session : SessionId) : T D unit :=
  let! r := on_control list_sessions in
  match r with
  | Ok daemon_sessions =>
      do! for_each (discover session) daemon_sessions in
      modify (λ s, s <| session_list_last_poll := clock s |>)
  | Err _ => ret tt
  end.

Definition loop_start : LoopVars := MkLoop false false false.

(** The terminal client on the rounds it will see, with a theme and a deck for toasts. *)
Definition start_tui (now : Z) (sh : option string) (th : Theme) (deck : ToastDeck) (first : SessionId * string * PaneSlot) (d : D)
    : AppState D :=
  let '(session, name, slot) := first in
  fst (discover_sessions session (initial_app_state now session name slot d sh th deck)).
Definition run_tui (now : Z) (init : PaneInit) (sh : option string) (th : Theme) (deck : ToastDeck) (rds : list Round)
    : D → result ClientError (AppState D * result Stop LoopVars) :=
  λ d, let '(d', r) := first_session init sh d in
       match r with
       | Err e => Err e
       | Ok first => Ok (run_loop rds loop_start (start_tui now sh th deck first d'))
       end.

(** What is printed once the terminal is restored. *)
Inductive Farewell := SaidDetached | SaidUnreachable | SaidNothing.
Definition farewell (lv : LoopVars) : Farewell :=
  if lv_detach_requested lv then SaidDetached else if lv_daemon_lost lv then SaidUnreachable else SaidNothing.
End Loop.
