(* ===== verification/TuiExample.v ===== *)
(** * TuiExample: a small screen, for concrete runs of the front end

    Nothing here models the program: these are instances of what the front end is
    given from outside. *)
From S2P Require Import Prelude Proto Text Layout Libraries Effects Themes Server Client.
From S2P Require Import Tui TuiPanes TuiKeys TuiMouse TuiDraw TuiLoop.
Local Open Scope Z_scope.

(** A screen without characters, a layout that gives every part the whole area. *)
Definition blank_screen : Alacritty :=
  {| cell := λ _ _ _, 32; history_size := λ _, 0%nat; pty_writes := λ _ _, []; is_alphanumeric := λ _, false |}.
Definition whole_area : LayoutSolver :=
  {| solve := λ _ cs area, replicate (length cs) area; solve_length := λ _ cs area, length_replicate _ _;
     block_inner := λ r, r |}.
Definition no_text (_ : RpcFailure) : string := "".
Definition plain_io : Io := MkIo None [] (Some (80, 24)) None true.
Definition ember : Theme := entry ember_META ember_PALETTE.
Definition quiet_deck : ToastDeck := MkDeck [] 4 true 4000.

(** A round at a time [now] with an event, nothing else having happened. *)
Definition quiet_round (now : Z) (e : Event) : Round :=
  MkRound now [] [] false None [] false (MkRect 0 0 80 24) (MkRect 0 0 60 10) (Some e).

Definition alone : SessionId * string * PaneSlot :=
  (MkSessionId 1, "work", new_slot (MkSessionId 1) (MkPaneId 2) 78 18).
(** A click, then the prefix and [d]. *)
Definition detaching : list Round :=
  [quiet_round 1 (EvMouse (MkMouse (MDown BLeft) 10 10)); quiet_round 2 (EvKey (KChar 32) CONTROL);
   quiet_round 3 (EvKey (KChar 100) NONE)].
