(* ===== verification/TuiEvents.v ===== *)
(** * TuiEvents: the two background tasks of the terminal front end

    pyre-tui/src/rpc/events.rs: the task that waits for events of the daemon and turns
    them into toasts, and the one that polls the last commands of every pane. Durations
    are milliseconds. *)
From Stdlib Require Import Strings.Byte.
From S2P Require Import Prelude Proto Text Layout Libraries Effects Themes Registry Server Client.
From S2P Require Import Tui TuiPanes TuiKeys TuiMouse TuiDraw TuiLoop TuiExample.
Local Open Scope Z_scope.

Section Push.
Context `{UuidText} {D : Type} `{!PyreDaemon D} (ttl : Z).

(** [toasts]: what is queued in the channel of the event loop. *)
Record PushTask := MkPush { pu_seq : Z; pu_backoff : Z; pu_toasts : list Toast }.

Definition TOAST_CAP : nat := 64.
Definition FIRST_BACKOFF : Z := 200.
Definition next_backoff (b : Z) : Z := Z.min (b * 2) 5000.

Definition toast_try_send (q : list Toast) (t : Toast) : list Toast :=
  if (length q <? TOAST_CAP)%nat then q ++ [t] else q.

(** One turn of the loop at the time [now], and how long it sleeps. *)
Definition push_turn (now : Z) (connected : bool) (p : PushTask) : D → D * (PushTask * Z) :=
  λ d,
  if connected then
    let p := p <| pu_backoff := FIRST_BACKOFF |> in
    match next_pane_event (pu_seq p) d with
    | (d', Ok events) =>
        (d', (match last events with
              | None => p
              | Some ev =>
                  p <| pu_seq := ev_seq ev |>
                    <| pu_toasts ::= λ q, fold_left toast_try_send (omap (pane_event_to_toast now ttl) events) q |>
              end, 0))
    | (d', Err _) => (d', (p <| pu_backoff ::= next_backoff |>, pu_backoff p))
    end
  else (d, (p <| pu_backoff ::= next_backoff |>, pu_backoff p)).

Fixpoint push_turns (turns : list (Z * bool)) (p : PushTask) (d : D) : D * (PushTask * list Z) :=
  match turns with
  | [] => (d, (p, []))
  | (now, connected) :: turns' =>
      let '(d, (p, slept)) := push_turn now connected p d in
      let '(d, (p, sleeps)) := push_turns turns' p d in
      (d, (p, slept :: sleeps))
  end.
Definition push_start : PushTask := MkPush 0 FIRST_BACKOFF [].

(** ** The last commands *)

(** [for b in blocks { map.entry(b.pane).or_default().push(b) }] *)
Definition group_blocks (blocks : list Block) : gmap PaneId (list Block) :=
  fold_left (λ m b, <[blk_pane b := default [] (m !! blk_pane b) ++ [b]]> m) blocks ∅.

(** What is published; [timely]: the daemon answered within two seconds. *)
Definition block_poll (timely : bool) : D → D * option (gmap PaneId (list Block)) :=
  λ d, let '(d', r) := list_blocks (MkListBlocksReq None 20) d in
       (d', match r with Ok blocks => if timely then Some (group_blocks blocks) else None | Err _ => None end).
End Push.

(** ** Properties *)

Lemma group_blocks_lookup_from (m : gmap PaneId (list Block)) blocks p :
  fold_left (λ (m : gmap PaneId (list Block)) b, <[blk_pane b := default [] (m !! blk_pane b) ++ [b]]> m) blocks m !! p
  = match filter (λ b, blk_pane b = p) blocks with
    | [] => m !! p
    | bs => Some (default [] (m !! p) ++ bs)
    end.
Proof.
  revert m. induction blocks as [|b blocks IH]; intros m; [done|]. cbn [fold_left]. rewrite IH, filter_cons.
  case_decide as Hb.
  - subst p. rewrite lookup_insert_eq. cbn. destruct (filter _ blocks); [done|]. cbn. by rewrite <-app_assoc.
  - rewrite lookup_insert_ne by done. done.
Qed.
Lemma group_blocks_lookup blocks p :
  group_blocks blocks !! p = match filter (λ b, blk_pane b = p) blocks with [] => None | bs => Some bs end.
Proof. unfold group_blocks. rewrite group_blocks_lookup_from. by rewrite lookup_empty. Qed.

(** When the poll of the last commands is answered in time, each live slot gets as
    its recent commands exactly those of the answer that belong to its pane, in the
    order of the answer - none for a pane without any -, and the cursor of its ribbon
    stays inside them or goes away; nothing else of the state changes. When the call
    fails or is late, the round changes nothing. *)
Theorem ribbon_shows_last_commands {D : Type} `{!PyreDaemon D} timely (d d' : D) r (s : AppState D) :
  list_blocks (MkListBlocksReq None 20) d = (d', r) →
  let published := (block_poll timely d).2 in
  let s' := (drain_blocks published s).1 in
  match r, timely with
  | Ok blocks, true =>
      s' = s <| slots := slots s' |> ∧
      (∀ i slot, slots s !! i = Some (Some slot) →
        ∃ slot', slots s' !! i = Some (Some slot') ∧ sl_pane_id slot' = sl_pane_id slot ∧ sl_link slot' = sl_link slot ∧
          sl_recent_blocks slot' = filter (λ b, blk_pane b = sl_pane_id slot) blocks ∧
          (∀ c, sl_ribbon_cursor slot' = Some c → c < length (sl_recent_blocks slot'))%nat)
  | _, _ => s' = s
  end.
Proof.
  intros Hr published s'.
  assert (published = match r with Ok blocks => if timely then Some (group_blocks blocks) else None | Err _ => None end) as Hp.
  { unfold published, block_poll. by rewrite Hr. }
  unfold s'. clear s'. rewrite Hp. clear Hp published.
  destruct r as [blocks|e]; [destruct timely|]; [|done..]. split; [done|].
  intros i slot Hi. exists (take_blocks (group_blocks blocks !! sl_pane_id slot) slot). split.
  { cbn. change (map (option_map (λ sl, take_blocks (group_blocks blocks !! sl_pane_id sl) sl)) (slots s))
      with ((option_map (λ sl, take_blocks (group_blocks blocks !! sl_pane_id sl) sl)) <$> slots s).
    etransitivity; [apply list_lookup_fmap|]. unfold Slots in Hi. by rewrite Hi. }
  rewrite group_blocks_lookup. destruct (filter _ blocks) as [|b bs]; [done|]. cbn.
  split; [done|]. split; [done|]. split; [done|]. intros c (c0 & _ & Hc)%bind_Some. cbv beta in Hc.
  rewrite decide_False in Hc by done. injection Hc as <-. unfold const. cbn. lia.
Qed.

Section Backoff.
Context `{UuidText} {D : Type} `{!PyreDaemon D} (ttl : Z).

Lemma push_turns_backoff nows k p d :
  pu_backoff p = Z.min (200 * 2 ^ Z.of_nat k) 5000 →
  (push_turns ttl ((λ now, (now, false)) <$> nows) p d).2.2
  = (λ j, Z.min (200 * 2 ^ Z.of_nat j) 5000) <$> seq k (length nows).
Proof.
  revert k p. induction nows as [|now nows IH]; intros k p Hp; [done|]. cbn [fmap list_fmap push_turns push_turn].
  specialize (IH (S k) (p <| pu_backoff ::= next_backoff |>)).
  destruct (push_turns ttl _ _ d) as [d2 [p2 sleeps]] eqn:Heq. cbn [fst snd] in *.
  rewrite IH; [by rewrite Hp|]. cbn. rewrite Hp. unfold next_backoff. rewrite Nat2Z.inj_succ, Z.pow_succ_r by lia. lia.
Qed.

End Backoff.

(** While the daemon cannot be reached the task that waits for its events sleeps
    200 ms after the first attempt, then twice as long each time, and never more than
    five seconds; it asks for nothing and shows no toast in between. *)
Theorem push_backoff_doubles `{UuidText} {D : Type} `{!PyreDaemon D} ttl nows (d : D) :
  let '(d', (p, sleeps)) := push_turns ttl ((λ now, (now, false)) <$> nows) push_start d in
  d' = d ∧ pu_toasts p = [] ∧ sleeps = (λ j, Z.min (200 * 2 ^ Z.of_nat j) 5000) <$> seq 0 (length nows).
Proof.
  assert (∀ p, let r := push_turns ttl ((λ now, (now, false)) <$> nows) p d in r.1 = d ∧ pu_toasts r.2.1 = pu_toasts p) as Hrun.
  { induction nows as [|now nows IH]; intros p; [done|]. cbn [fmap list_fmap push_turns push_turn].
    specialize (IH (p <| pu_backoff ::= next_backoff |>)). by destruct (push_turns ttl _ _ d) as [d2 [p2 sl]]. }
  pose proof (push_turns_backoff ttl nows 0 push_start d eq_refl) as Hs. specialize (Hrun push_start).
  destruct (push_turns ttl _ push_start d) as [d' [p sleeps]]. cbv zeta in Hrun. cbn [fst snd] in Hrun, Hs. destruct Hrun as [-> Ht]. by split.
Qed.

Section Example.
#[local] Existing Instances binary_uuid blank_screen whole_area lone_daemon.

(** The second command of the answer belongs to another pane. *)
Lemma ribbon_shows_last_commands_witness :
  let s := start_tui plain_io 0 None ember quiet_deck alone 1%nat in
  ∃ slot', slots (drain_blocks (block_poll true 7%nat).2 s).1 !! 0%nat = Some (Some slot') ∧ sl_recent_blocks slot' = [a_block 2].
Proof.
  intros s. destruct (@ribbon_shows_last_commands nat lone_daemon true 7%nat 7%nat (Ok [a_block 2; a_block 3]) s eq_refl) as [_ Hs].
  destruct (Hs 0%nat alone.2 eq_refl) as (slot' & Hi & _ & _ & Hb & _). exists slot'. split; [exact Hi|].
  rewrite Hb. reflexivity.
Defined.
End Example.
