(* ===== verification/TuiInv.v ===== *)
(** * TuiInv: the front end keeps its state well-formed

    [ui_ok]: the indices the front end keeps - the active session and tab, the slot of
    the selection and of the context menu, the cursors of the lists - are in range.
    [ends] says of a handler that it does not panic and where it leaves the state. The
    handlers of TuiPanes and TuiKeys are shown to keep the state well-formed, for any
    daemon and any answer. *)
From Stdlib Require Import Strings.Byte.
From S2P Require Import Prelude Proto Text Layout Libraries Effects Themes Server Client.
From S2P Require Import Tui TuiPanes TuiKeys.
Local Open Scope Z_scope.

(** ** The invariant *)
Definition tab_in_range (sv : SessionView) : Prop := (sv_active_tab sv < length (sv_tabs sv))%nat.

(** What the invariant looks at. *)
Record Core := MkCore {
  co_tabs : list (nat * nat);               (** active tab and number of tabs *)
  co_active : nat;
  co_slots : nat;
  co_selection : option nat;
  co_menu : option (nat * nat * nat);       (** cursor, slot, rectangles *)
  co_picker : option (nat * nat);
  co_search : bool * nat * nat;
  co_pending : bool }.

Definition shape (sv : SessionView) : nat * nat := (sv_active_tab sv, length (sv_tabs sv)).

Section Invariant.
Context {D : Type}.
Implicit Types s : AppState D.

Definition core s : Core :=
  MkCore (shape <$> sessions s) (active_session s) (length (slots s)) (sn_pane_idx <$> selection s)
    ((λ m, (cm_cursor m, cm_target_slot m, length (cm_item_rects m))) <$> context_menu s)
    ((λ p, (tp_cursor p, length (tp_names p))) <$> theme_picker s)
    (se_open (search s), se_cursor (search s), length (se_results (search s)))
    (bool_decide (pending_menu_action s = None)).

Record core_ok (c : Core) : Prop := {
  ok_tabs : Forall (λ p, p.1 < p.2)%nat (co_tabs c);
  ok_active : co_tabs c ≠ [] → (co_active c < length (co_tabs c))%nat;
  ok_selection i : co_selection c = Some i → (i < co_slots c)%nat;
  ok_menu m : co_menu c = Some m → (m.1.1 < length MENU_ITEMS ∧ m.1.2 < co_slots c ∧ m.2 ≤ length MENU_ITEMS)%nat;
  ok_picker p : co_picker c = Some p → (p.1 < p.2)%nat;
  ok_pending : co_pending c = true;
  ok_search : (co_search c).1.1 = true → (co_search c).2 ≠ 0%nat → ((co_search c).1.2 < (co_search c).2)%nat }.

Definition ui_ok s : Prop := core_ok (core s).
Definition ready s : Prop := ui_ok s ∧ sessions s ≠ [].

(** Slots are added and emptied, never removed. *)
Definition later s s' : Prop := (length (slots s) ≤ length (slots s'))%nat.

(** [Q] after success, [E] after a panic or an error. *)
Definition ends {A} (E : Stop → AppState D → Prop) (Q : A → AppState D → Prop) (m : T D A) s : Prop :=
  match m s with
  | (s', Ok a) => Q a s' ∧ later s s'
  | (s', Err e) => E e s' ∧ later s s'
  end.
Definition calm {A} (E : Stop → AppState D → Prop) (m : T D A) s : Prop := ends E (λ _, ready) m s.

(** No panic, and no error; or an error only. *)
Definition never (_ : Stop) (_ : AppState D) : Prop := False.
Definition failed (e : Stop) s : Prop := is_panic e = false ∧ ready s.

Context (E : Stop → AppState D → Prop).

Lemma later_refl s : later s s.
Proof. apply Nat.le_refl. Qed.
#[local] Hint Extern 0 (later _ _) => exact (Nat.le_refl _) : core.
Lemma later_trans s1 s2 s3 : later s1 s2 → later s2 s3 → later s1 s3.
Proof. apply Nat.le_trans. Qed.
Lemma later_lt s s' i : later s s' → (i < length (slots s))%nat → (i < length (slots s'))%nat.
Proof. unfold later. lia. Qed.

Lemma core_ready s s' : core s' = core s → ready s → ready s'.
Proof.
  intros Hc [Hok Hne]. split; [unfold ui_ok; by rewrite Hc|].
  apply (f_equal co_tabs) in Hc. cbn in Hc. intros H. rewrite H in Hc.
  destruct (sessions s); [done|discriminate Hc].
Qed.
Lemma core_later s s' : core s' = core s → later s s'.
Proof.
  intros Hc. pose proof (f_equal co_slots Hc) as H. cbn [co_slots core] in H. unfold later. by rewrite H.
Qed.
Lemma core_ok' s s' : core s' = core s → ui_ok s → ui_ok s'.
Proof. intros Hc. unfold ui_ok. by rewrite Hc. Qed.

Lemma ready_active s : ready s → (active_session s < length (sessions s))%nat.
Proof.
  intros [Hok Hne]. pose proof (ok_active _ Hok) as H. cbn in H. rewrite length_fmap in H.
  apply H. by destruct (sessions s).
Qed.
Lemma ready_tab s i sv : ui_ok s → sessions s !! i = Some sv → tab_in_range sv.
Proof.
  intros Hok Hi. pose proof (ok_tabs _ Hok) as H. cbn in H.
  rewrite Forall_fmap, Forall_lookup in H. exact (H i sv Hi).
Qed.

(** ** Rules *)
Lemma ends_ret {A} (Q : A → AppState D → Prop) a s : Q a s → ends E Q (ret a) s.
Proof. intros H. split; [exact H|apply later_refl]. Qed.
Lemma ends_bind {A B} (R : A → AppState D → Prop) (Q : B → AppState D → Prop) (m : T D A) (k : A → T D B) s :
  ends E R m s → (∀ a s', R a s' → later s s' → ends E Q (k a) s') → ends E Q (bind m k) s.
Proof.
  unfold ends, bind. destruct (m s) as [s1 [a|e]]; [|done]. intros [HR Hl] Hk.
  specialize (Hk a s1 HR Hl). destruct (k a s1) as [s2 [b|e]].
  - destruct Hk as [? Hl2]. split; [done|]. exact (later_trans _ _ _ Hl Hl2).
  - destruct Hk as [? Hl2]. split; [done|]. exact (later_trans _ _ _ Hl Hl2).
Qed.
Lemma ends_seq {A B} (Q : B → AppState D → Prop) (m : T D A) (k : A → T D B) s :
  calm E m s → (∀ a s', ready s' → later s s' → ends E Q (k a) s') → ends E Q (bind m k) s.
Proof. apply ends_bind. Qed.
Lemma ends_gets {A B} (Q : B → AppState D → Prop) (f : AppState D → A) (k : A → T D B) s :
  ends E Q (k (f s)) s → ends E Q (bind (gets f) k) s.
Proof. done. Qed.
Lemma ends_modify {B} (Q : B → AppState D → Prop) f (k : unit → T D B) s :
  later s (f s) → ends E Q (k tt) (f s) → ends E Q (bind (modify f) k) s.
Proof. intros Hl Hk. eapply (ends_bind (λ _ s', s' = f s)); [by split|]. by intros [] s' -> _. Qed.
Lemma ends_conseq {A} (Q Q' : A → AppState D → Prop) (m : T D A) s :
  ends E Q m s → (∀ a s', Q a s' → later s s' → Q' a s') → ends E Q' m s.
Proof. unfold ends. destruct (m s) as [s' [a|e]]; [|done]. intros [??] Hq. split; auto. Qed.
Lemma ends_if {A} (Q : A → AppState D → Prop) (b : bool) (m1 m2 : T D A) s :
  (b = true → ends E Q m1 s) → (b = false → ends E Q m2 s) → ends E Q (if b then m1 else m2) s.
Proof. destruct b; auto. Qed.

Lemma calm_modify f s : ready (f s) → later s (f s) → calm E (modify f) s.
Proof. intros ??. by split. Qed.
Lemma calm_same f s : ready s → core (f s) = core s → calm E (modify f) s.
Proof. intros Hr Hc. apply calm_modify; [by apply (core_ready s)|by apply core_later]. Qed.
Lemma calm_say msg s : ready s → calm E (say msg) s.
Proof. intros Hr. by apply calm_same. Qed.
Lemma calm_on_control {A} (m : M D RpcFailure A) s : ready s → calm E (on_control m) s.
Proof.
  intros Hr. unfold calm, ends, on_control. destruct (m (control s)) as [d r].
  split; [by apply (core_ready s)|by apply core_later].
Qed.
Lemma calm_call_daemon {A} (m : M D ClientError A) s : ready s → calm failed (call_daemon m) s.
Proof.
  intros Hr. unfold calm, ends, call_daemon. destruct (m (control s)) as [d [a|e]]; cbn.
  - split; [by apply (core_ready s)|by apply core_later].
  - split; [split; [done|by apply (core_ready s)]|by apply core_later].
Qed.
Lemma calm_warn {A} (m : T D A) s : calm failed m s → calm E (warn m) s.
Proof.
  unfold calm, ends, warn. destruct (m s) as [s' [a|e]]; [by intros [? ?]|].
  intros [[He ?] ?]. by rewrite He.
Qed.

Lemma ends_session_at {B} (Q : B → AppState D → Prop) i (k : SessionView → T D B) s :
  ui_ok s → (i < length (sessions s))%nat →
  (∀ sv, sessions s !! i = Some sv → tab_in_range sv → ends E Q (k sv) s) → ends E Q (bind (session_at i) k) s.
Proof.
  intros Hok [sv Hi]%lookup_lt_is_Some Hk. unfold ends, bind, session_at, at_index, index. rewrite Hi. cbn.
  exact (Hk sv Hi (ready_tab _ _ _ Hok Hi)).
Qed.
Lemma ends_active_view {B} (Q : B → AppState D → Prop) (k : SessionView → T D B) s :
  ready s →
  (∀ sv, sessions s !! active_session s = Some sv → tab_in_range sv → ends E Q (k sv) s) → ends E Q (bind active_view k) s.
Proof.
  intros Hr Hk. unfold ends. change (bind active_view k s) with (bind (session_at (active_session s)) k s).
  apply (ends_session_at Q); [apply Hr|by apply ready_active|done].
Qed.
Lemma ends_tab_of {B} (Q : B → AppState D → Prop) sv i (k : Tab → T D B) s :
  (i < length (sv_tabs sv))%nat →
  (∀ tab, sv_tabs sv !! i = Some tab → ends E Q (k tab) s) → ends E Q (bind (tab_of sv i) k) s.
Proof.
  intros [tab Hi]%lookup_lt_is_Some Hk. unfold ends, bind, tab_of, at_index, index. rewrite Hi. cbn.
  exact (Hk tab Hi).
Qed.
(** The active tab of a state. *)
Definition active_tab_is s (tab : Tab) : Prop :=
  ∃ sv, sessions s !! active_session s = Some sv ∧ sv_tabs sv !! sv_active_tab sv = Some tab.
Lemma ends_active_tab {B} (Q : B → AppState D → Prop) (k : Tab → T D B) s :
  ready s → (∀ tab, active_tab_is s tab → ends E Q (k tab) s) → ends E Q (bind active_tab k) s.
Proof.
  intros Hr Hk. unfold ends. unfold active_tab.
  assert (∀ s, bind (let! sv := active_view in tab_of sv (sv_active_tab sv)) k s =
          bind active_view (λ sv, bind (tab_of sv (sv_active_tab sv)) k) s) as ->.
  { intros s0. unfold bind. destruct (active_view s0) as [? [?|?]]; done. }
  apply ends_active_view; [done|]. intros sv Hsv Ht. apply ends_tab_of; [done|]. intros tab Htab.
  apply Hk. by exists sv.
Qed.
Lemma ends_slot_at {B} (Q : B → AppState D → Prop) i (k : option PaneSlot → T D B) s :
  (i < length (slots s))%nat → (∀ o, ends E Q (k o) s) → ends E Q (bind (slot_at i) k) s.
Proof.
  intros [o Hi]%lookup_lt_is_Some Hk. unfold ends, bind, slot_at, at_index, index. rewrite Hi. cbn. apply Hk.
Qed.

Lemma pane_to_slot_lt sl pid i : pane_to_slot_idx sl pid = Some i → (i < length sl)%nat.
Proof. unfold pane_to_slot_idx. intros (x & Hi & _)%position_Some. by eapply lookup_lt_Some. Qed.
Lemma ends_focused_slot {B} (Q : B → AppState D → Prop) (k : option nat → T D B) s :
  ready s → (∀ o, (∀ i, o = Some i → i < length (slots s))%nat → ends E Q (k o) s) → ends E Q (bind focused_slot k) s.
Proof.
  intros Hr Hk. unfold ends, focused_slot.
  assert (∀ s, bind (let! tab := active_tab in gets (λ s, focused_slot_idx (tb_focus_pane tab) (slots s))) k s =
          bind active_tab (λ tab, bind (gets (λ s, focused_slot_idx (tb_focus_pane tab) (slots s))) k) s) as ->.
  { intros s0. unfold bind. destruct (active_tab s0) as [? [?|?]]; done. }
  apply ends_active_tab; [done|]. intros tab _. apply ends_gets, Hk. intros i. apply pane_to_slot_lt.
Qed.
Lemma ends_at_index {A B} (Q : B → AppState D → Prop) (l : list A) i (k : A → T D B) s :
  (i < length l)%nat → (∀ x, l !! i = Some x → ends E Q (k x) s) → ends E Q (bind (at_index l i) k) s.
Proof.
  intros [x Hi]%lookup_lt_is_Some Hk. unfold ends, bind, at_index, index. rewrite Hi. cbn. by apply Hk.
Qed.
Lemma calm_for_each {A} (f : A → T D unit) l s :
  ready s → (∀ x s', ready s' → later s s' → calm E (f x) s') → calm E (for_each f l) s.
Proof.
  revert s. induction l as [|x l IH]; intros s Hr Hf; cbn [for_each]; [by apply ends_ret|].
  apply ends_seq; [by apply Hf, later_refl|]. intros _ s' Hr' Hl. apply IH; [done|].
  intros y s2 Hr2 Hl2. apply Hf; [done|]. by eapply later_trans.
Qed.

(** ** Changes of the parts *)
Lemma fmap_alter_same {A B} (g : A → B) (f : A → A) i (l : list A) :
  (∀ x, g (f x) = g x) → g <$> alter f i l = g <$> l.
Proof.
  intros Hf. apply list_eq. intros j. rewrite !list_lookup_fmap.
  destruct (decide (i = j)) as [<-|]; [rewrite list_lookup_alter_eq|by rewrite list_lookup_alter_ne].
  destruct (l !! i) as [x|]; [exact (f_equal Some (Hf x))|done].
Qed.
Lemma shape_alter (f : SessionView → SessionView) i (ss : list SessionView) :
  (∀ sv, shape (f sv) = shape sv) → shape <$> alter f i ss = shape <$> ss.
Proof. apply fmap_alter_same. Qed.
Lemma core_set_tab si ti f s : core (s <| sessions ::= alter (λ sv, sv <| sv_tabs ::= alter f ti |>) si |>) = core s.
Proof.
  unfold core. cbn. f_equal. apply shape_alter. intros sv. exact (f_equal (pair (sv_active_tab sv)) (length_alter f (sv_tabs sv) ti)).
Qed.
Lemma core_set_slot i f s : core (s <| slots ::= alter f i |>) = core s.
Proof.
  unfold core. cbn. f_equal. apply length_alter.
Qed.

Lemma calm_set_tab si ti f s : ready s → calm E (set_tab si ti f) s.
Proof. intros Hr. apply calm_same; [done|apply core_set_tab]. Qed.
Lemma calm_set_slot i f s : ready s → calm E (set_slot i f) s.
Proof. intros Hr. apply calm_same; [done|apply core_set_slot]. Qed.
Lemma calm_with_active_tab f s : ready s → calm E (with_active_tab f) s.
Proof.
  intros Hr. apply ends_active_view; [done|]. intros sv Hsv Ht. apply ends_tab_of; [done|]. intros tab _.
  apply ends_gets, calm_set_tab, Hr.
Qed.

Lemma calm_active_session_id s : ready s → calm E active_session_id s.
Proof. intros Hr. apply ends_active_view; [done|]. intros sv _ _. by apply ends_ret. Qed.

(** A session is changed, and its active tab stays in range. *)
Lemma ui_ok_sessions (ss : list SessionView) a s :
  ui_ok s → Forall tab_in_range ss → (ss ≠ [] → (a < length ss)%nat) →
  ui_ok (s <| sessions := ss |> <| active_session := a |>).
Proof.
  intros [] Hss Ha. split; cbn; try done.
  - rewrite Forall_fmap. exact Hss.
  - rewrite length_fmap. intros H. apply Ha. by intros ->.
Qed.
Lemma ui_ok_tabs s : ui_ok s ↔ Forall tab_in_range (sessions s) ∧ ui_ok s.
Proof.
  split; [|tauto]. intros H. split; [|done]. pose proof (ok_tabs _ H) as Hf. cbn in Hf. by rewrite Forall_fmap in Hf.
Qed.
Lemma ready_set_view i (f : SessionView → SessionView) s :
  ready s → (∀ sv, sessions s !! i = Some sv → tab_in_range sv → tab_in_range (f sv)) →
  ready (s <| sessions ::= alter f i |>).
Proof.
  intros Hr Hf. pose proof (ready_active _ Hr) as Ha. destruct Hr as [[Ht Hok]%ui_ok_tabs Hne].
  assert (sessions (s <| sessions ::= alter f i |>) ≠ []) as Hne'.
  { cbn. intros H. apply (f_equal length) in H. rewrite length_alter in H. by destruct (sessions s). }
  split; [|done].
  apply (core_ok' (s <| sessions := alter f i (sessions s) |> <| active_session := active_session s |>)); [done|].
  apply ui_ok_sessions; [done| |by rewrite length_alter].
  rewrite Forall_lookup in Ht |- *. intros j sv Hj. destruct (decide (i = j)) as [<-|].
  - rewrite list_lookup_alter_eq, fmap_Some in Hj. destruct Hj as (sv0 & H0 & ->). eauto.
  - rewrite list_lookup_alter_ne in Hj by done. eauto.
Qed.
Lemma calm_set_view i f s :
  ready s → (∀ sv, sessions s !! i = Some sv → tab_in_range sv → tab_in_range (f sv)) → calm E (set_view i f) s.
Proof. intros Hr Hf. apply calm_modify; [by apply ready_set_view|done]. Qed.

Lemma ready_add_session sv s : ready s → tab_in_range sv →
  ready (s <| sessions ::= (.++ [sv]) |>) ∧
  ready (s <| sessions ::= (.++ [sv]) |> <| active_session := length (sessions s) |>).
Proof.
  intros Hr Hsv. pose proof (ready_active _ Hr) as Ha. destruct Hr as [[Ht Hok]%ui_ok_tabs Hne].
  assert (sessions s ++ [sv] ≠ []) as Hne' by (by destruct (sessions s)).
  assert (Forall tab_in_range (sessions s ++ [sv])) as Ht'.
  { apply Forall_app. split; [done|]. by constructor. }
  split; split; try done.
  - apply (core_ok' (s <| sessions := sessions s ++ [sv] |> <| active_session := active_session s |>)); [done|].
    apply ui_ok_sessions; [done..|]. rewrite length_app. cbn. lia.
  - apply (core_ok' (s <| sessions := sessions s ++ [sv] |> <| active_session := length (sessions s) |>)); [done|].
    apply ui_ok_sessions; [done..|]. rewrite length_app. cbn. lia.
Qed.

(** More slots, or other ones. *)
Lemma ready_slots sl s : ready s → (length (slots s) ≤ length sl)%nat → ready (s <| slots := sl |>) ∧ later s (s <| slots := sl |>).
Proof.
  intros [[] Hne] Hl. split; [|exact Hl]. split; [|done]. split; cbn in *; try done.
  - intros i Hi. specialize (ok_selection0 i Hi). unfold const. lia.
  - intros m Hm. specialize (ok_menu0 m Hm). unfold const. lia.
Qed.
Lemma calm_slots (f : Slots → Slots) s : ready s → (length (slots s) ≤ length (f (slots s)))%nat → calm E (modify (λ s, s <| slots ::= f |>)) s.
Proof. intros Hr Hl. by apply calm_modify; apply ready_slots. Qed.

(** The other parts of the invariant, replaced one at a time. *)
Definition search_ok (q : SearchState) : Prop :=
  se_open q = true → length (se_results q) ≠ 0%nat → (se_cursor q < length (se_results q))%nat.
Definition menu_ok (n : nat) (m : ContextMenu) : Prop :=
  (cm_cursor m < length MENU_ITEMS ∧ cm_target_slot m < n ∧ length (cm_item_rects m) ≤ length MENU_ITEMS)%nat.
Definition picker_ok (p : ThemePickerState) : Prop := (tp_cursor p < length (tp_names p))%nat.

Lemma ready_search s : ready s → search_ok (search s).
Proof. intros [Hok _]. exact (ok_search _ Hok). Qed.
Lemma ready_menu s m : ready s → context_menu s = Some m → menu_ok (length (slots s)) m.
Proof. intros [Hok _] Hm. pose proof (ok_menu _ Hok) as H. cbn in H. rewrite Hm in H. exact (H _ eq_refl). Qed.
Lemma ready_picker s p : ready s → theme_picker s = Some p → picker_ok p.
Proof. intros [Hok _] Hp. pose proof (ok_picker _ Hok) as H. cbn in H. rewrite Hp in H. exact (H _ eq_refl). Qed.
Lemma ready_selection s sel : ready s → selection s = Some sel → (sn_pane_idx sel < length (slots s))%nat.
Proof. intros [Hok _] Hp. pose proof (ok_selection _ Hok) as H. cbn in H. rewrite Hp in H. exact (H _ eq_refl). Qed.

Lemma calm_set_search f s : ready s → search_ok (f (search s)) → calm E (modify (λ s, s <| search ::= f |>)) s.
Proof. intros [[] Hne] Hf. apply calm_modify; [|done]. split; [|done]. by split. Qed.
Lemma calm_set_menu o s :
  ready s → (∀ m, o = Some m → menu_ok (length (slots s)) m) → calm E (modify (λ s, s <| context_menu := o |>)) s.
Proof.
  intros [[] Hne] Hf. apply calm_modify; [|done]. split; [|done]. split; try done.
  cbn. intros m (m' & Hm & ->)%fmap_Some. exact (Hf _ Hm).
Qed.
Lemma calm_set_picker o s :
  ready s → (∀ p, o = Some p → picker_ok p) → calm E (modify (λ s, s <| theme_picker := o |>)) s.
Proof.
  intros [[] Hne] Hf. apply calm_modify; [|done]. split; [|done]. split; try done.
  cbn. intros m (m' & Hm & ->)%fmap_Some. exact (Hf _ Hm).
Qed.
Lemma calm_set_selection o s :
  ready s → (∀ sel, o = Some sel → (sn_pane_idx sel < length (slots s))%nat) →
  calm E (modify (λ s, s <| selection := o |>)) s.
Proof.
  intros [[] Hne] Hf. apply calm_modify; [|done]. split; [|done]. split; try done.
  cbn. intros m (m' & Hm & ->)%fmap_Some. exact (Hf _ Hm).
Qed.
End Invariant.

Create HintDb calm.
#[export] Hint Resolve calm_say calm_on_control calm_call_daemon calm_set_tab calm_set_slot calm_with_active_tab calm_active_session_id : calm.
#[export] Hint Resolve later_refl : calm.

#[export] Hint Extern 0 (later _ _) => exact (Nat.le_refl _) : core.

(** One rule, by the form of the handler. *)
Ltac calm_step :=
  match goal with
  | |- ends ?E (λ _, ready) ?m ?s => change (calm E m s)
  | |- calm _ (bind active_view _) _ => apply ends_active_view; [assumption|intros ?sv ?Hsv ?Ht]
  | |- calm _ (bind active_tab _) _ => apply ends_active_tab; [assumption|intros ?tab ?Htab]
  | |- calm _ (bind focused_slot _) _ => apply ends_focused_slot; [assumption|intros ?o ?Ho]
  | |- calm _ (bind (gets _) _) _ => apply ends_gets; cbv beta delta [id]
  | |- calm _ (bind (slot_at _) _) _ =>
      apply ends_slot_at; [eauto using later_lt, pane_to_slot_lt|intros ?slot]
  | |- calm _ (bind _ _) _ => apply ends_seq; [|intros ?a ?s ?Hr ?Hl]
  | |- calm _ (ret _) _ => apply ends_ret; assumption
  | |- calm _ (warn _) _ => apply calm_warn
  | |- calm _ (modify _) _ => apply calm_same; [assumption|reflexivity]
  | |- calm _ (if ?b then _ else _) _ => destruct b eqn:?
  | |- calm _ (match ?x with _ => _ end) _ => destruct x eqn:?
  end.
Ltac calm_auto := cbn zeta; repeat first [solve [eauto with calm] | calm_step].

(** ** Panes (TuiPanes) *)
Section Fallible.
Context `{UuidText} {D : Type} `{!PyreDaemon D} (io : Io).
Implicit Types s : AppState D.

Lemma calm_push_slot E slot s : ready s → calm E (push_slot slot) s.
Proof. intros Hr. apply calm_slots; [done|]. rewrite length_app. lia. Qed.
Lemma calm_attach_pane session pane cols rows s : ready s → calm failed (attach_pane session pane cols rows) s.
Proof. intros Hr. by apply calm_call_daemon. Qed.
#[local] Hint Resolve calm_push_slot calm_attach_pane : calm.
Lemma calm_split_active horizontal s : ready s → calm failed (split_active io horizontal) s.
Proof. intros Hr. unfold split_active. calm_auto. Qed.
Lemma calm_open_new_tab lbl s : ready s → calm failed (open_new_tab io lbl) s.
Proof.
  intros Hr. unfold open_new_tab. calm_auto. apply calm_set_view; [done|].
  intros sv' _ Ht'. unfold tab_in_range in *. cbn. unfold const. rewrite length_app. cbn. lia.
Qed.
Lemma calm_open_new_session name s : ready s → calm failed (open_new_session io name) s.
Proof.
  intros Hr. unfold open_new_session. calm_auto.
  apply calm_modify; [|done]. apply ready_add_session; [done|]. unfold tab_in_range. cbn. lia.
Qed.
End Fallible.
#[export] Hint Resolve calm_push_slot calm_attach_pane calm_split_active calm_open_new_tab calm_open_new_session : calm.

Section Panes.
Context `{UuidText} {D : Type} `{!PyreDaemon D} (E : Stop → AppState D → Prop).
Implicit Types s : AppState D.

Lemma calm_focus_slot i s : ready s → calm E (focus_slot i) s.
Proof. intros Hr. unfold focus_slot. calm_auto. Qed.
#[local] Hint Resolve calm_focus_slot : calm.
Lemma calm_apply_focus_request s : ready s → calm E apply_focus_request s.
Proof. intros Hr. unfold apply_focus_request. calm_auto. Qed.

(** *** Closing: the only operations after which no session may be left *)
Lemma ends_session_eq {B} (Q : B → AppState D → Prop) i sv (k : SessionView → T D B) s :
  sessions s !! i = Some sv → ends E Q (k sv) s → ends E Q (bind (session_at i) k) s.
Proof. intros Hi Hk. unfold ends, bind, session_at, at_index, index. rewrite Hi. exact Hk. Qed.
Lemma ends_set_view {B} (Q : B → AppState D → Prop) i f (k : unit → T D B) s :
  ends E Q (k tt) (s <| sessions ::= alter f i |>) → ends E Q (bind (set_view i f) k) s.
Proof.
  intros Hk. eapply (ends_bind E (λ _ s', s' = s <| sessions ::= alter f i |>)); [by split|].
  by intros [] s' -> _.
Qed.
Lemma alter_twice {A} (f g : A → A) i (l : list A) : alter g i (alter f i l) = alter (λ x, g (f x)) i l.
Proof. revert i. induction l as [|x l IH]; intros [|i]; [done..|]. exact (f_equal (cons x) (IH i)). Qed.
Lemma delete_alter_ok f i (ss : list SessionView) :
  Forall tab_in_range ss → Forall tab_in_range (delete i (alter f i ss)).
Proof.
  rewrite !Forall_lookup. intros Hf j sv Hj. rewrite list_lookup_delete in Hj.
  case_decide; rewrite list_lookup_alter_ne in Hj by lia; eauto.
Qed.

Lemma remove_session_ends i f s :
  ui_ok s →
  ends E (λ _, ui_ok)
    (do! modify (λ s, s <| sessions ::= delete i |>) in
     modify (λ s, if decide (sessions s = []) then s
                  else s <| active_session ::= λ a, Nat.min a (length (sessions s) - 1) |>))
    (s <| sessions ::= alter f i |>).
Proof.
  intros [Ht Hok]%ui_ok_tabs. split; [|cbn; by case_decide]. cbn.
  pose proof (delete_alter_ok f i _ Ht) as Hd. case_decide as Hn.
  - apply (core_ok' (s <| sessions := delete i (alter f i (sessions s)) |> <| active_session := active_session s |>)); [done|].
    by apply ui_ok_sessions.
  - eapply core_ok'; [|apply (ui_ok_sessions _ (Nat.min (active_session s) (length (delete i (alter f i (sessions s))) - 1)) s Hok Hd)].
    + done.
    + intros _. destruct (delete i (alter f i (sessions s))); [done|cbn; lia].
Qed.

Lemma remove_tab_ends si ti sv s :
  ready s → sessions s !! si = Some sv → (ti < length (sv_tabs sv))%nat → ends E (λ _, ui_ok) (remove_tab si ti) s.
Proof.
  intros Hr Hsi Hti. unfold remove_tab. apply ends_set_view. eapply ends_session_eq.
  { cbn. by rewrite list_lookup_alter_eq, Hsi. }
  case_decide as Hn; [apply remove_session_ends, Hr|]. apply ends_set_view.
  change (delete ti (sv_tabs sv) ≠ []) in Hn.
  match goal with |- ends _ _ _ ?s2 => set (s2' := s2) end.
  assert (ready s2') as Hr2.
  { eapply core_ready; [|apply (ready_set_view si (λ sv', (sv' <| sv_tabs ::= delete ti |>)
                                  <| sv_active_tab := Nat.min ti (length (delete ti (sv_tabs sv)) - 1) |>) s Hr)].
    - unfold core. cbn. f_equal. by rewrite alter_twice.
    - intros sv' Hsv' _. rewrite Hsi in Hsv'. injection Hsv' as <-. unfold tab_in_range. cbn. unfold const.
      destruct (delete ti (sv_tabs sv)); [done|cbn; lia]. }
  assert (length (delete ti (sv_tabs sv)) ≠ 0%nat) as Hlen by by destruct (delete ti (sv_tabs sv)).
  apply ends_tab_of; [cbn; lia|]. intros tab _.
  eapply (ends_conseq E (λ _, ready)); [|by intros ? ? [? _]].
  calm_auto.
Qed.

Lemma locate_pane_Some pid ss si ti :
  locate_pane pid ss = Some (si, ti) → ∃ sv tab, ss !! si = Some sv ∧ sv_tabs sv !! ti = Some tab ∧
    pid ∈ pane_leaves_in_order (tb_root tab).
Proof.
  unfold locate_pane. intros (si' & _ & (sv & Hsv & (ti' & Hti & [= -> ->])%bind_Some)%bind_Some)%bind_Some.
  apply position_Some in Hti as (tab & Htab & Hin & _). apply bool_decide_eq_true in Hin. by exists sv, tab.
Qed.

Lemma close_pane_ends i fire s : ui_ok s → ends E (λ _, ui_ok) (close_pane_inner i fire) s.
Proof.
  intros Hok. unfold close_pane_inner. apply ends_gets. destruct (slots s !! i) as [[slot|]|]; [|by apply ends_ret..].
  apply ends_gets. destruct (locate_pane _ _) as [[si ti]|] eqn:Hloc; [|by apply ends_ret].
  apply locate_pane_Some in Hloc as (sv & tab & Hsv & Htab & Hin).
  assert (ready s) as Hr by (split; [done|by intros Hn; rewrite Hn in Hsv]).
  eapply (ends_bind E (λ _ s', ready s' ∧ sessions s' = sessions s)).
  { destruct fire; [|by apply ends_ret]. split; [|done]. split; [by apply (core_ready s)|done]. }
  intros _ s1 [Hr1 Hs1] _. eapply ends_session_eq; [by rewrite Hs1|].
  apply ends_tab_of; [by eapply lookup_lt_Some|]. intros tab' _.
  destruct (close (tb_root tab') (sl_pane_id slot)) as [nf root].
  apply ends_set_view. apply ends_modify; [apply Nat.eq_le_incl, eq_sym, length_insert|].
  match goal with |- ends _ _ _ ?s2 => set (s2' := s2) end.
  assert (ready s2') as Hr2.
  { apply (ready_slots (<[i:=None]> (slots s1))); [|apply Nat.eq_le_incl, eq_sym, length_insert].
    apply (core_ready s1); [apply core_set_tab|exact Hr1]. }
  case_decide.
  - eapply remove_tab_ends; [done|cbn; by rewrite Hs1, list_lookup_alter_eq, Hsv|].
    cbn. rewrite length_alter. by eapply lookup_lt_Some.
  - eapply (ends_conseq E (λ _, ready)); [|by intros ? ? [? _]]. unfold refocus_tab. calm_auto.
Qed.
End Panes.
#[export] Hint Resolve calm_focus_slot calm_apply_focus_request : calm.
#[export] Hint Resolve ready_menu ready_picker ready_selection ready_search : calm.

(** ** The keyboard (TuiKeys) *)
Section Keys.
Context `{UuidText, Alacritty} {D : Type} `{!PyreDaemon D} (io : Io) (error_text : RpcFailure → string).
Context (E : Stop → AppState D → Prop).
Implicit Types s : AppState D.

Lemma calm_copy_to_clipboard text s : ready s → calm E (copy_to_clipboard io text) s.
Proof. intros Hr. unfold copy_to_clipboard. calm_auto. Qed.
Lemma calm_on_view f s :
  ready s → (∀ sv, sessions s !! active_session s = Some sv → tab_in_range sv → tab_in_range (f sv)) → calm E (on_view f) s.
Proof.
  intros Hr Hf. unfold on_view. apply ends_active_view; [done|]. intros sv Hsv Ht. apply ends_gets.
  by apply calm_set_view.
Qed.
Lemma calm_rotate_tab k s : ready s → calm E (rotate_tab k) s.
Proof.
  intros Hr. unfold rotate_tab. apply ends_active_view; [done|]. intros sv Hsv Ht.
  unfold tab_in_range in Ht. case_decide; [lia|]. apply calm_on_view; [done|].
  intros sv' Hsv' _. rewrite Hsv in Hsv'. injection Hsv' as <-. unfold tab_in_range. cbn.
  by apply Nat.mod_upper_bound.
Qed.
Lemma calm_zoom_toggle s : ready s → calm E zoom_toggle s.
Proof. apply calm_with_active_tab. Qed.
Lemma calm_set_ribbon f s : ready s → calm E (set_ribbon f) s.
Proof. intros Hr. unfold set_ribbon. calm_auto. Qed.
Lemma calm_open_search s : ready s → calm E open_search s.
Proof. intros [[] Hne]. apply calm_modify; [|done]. split; [|done]. by split. Qed.
Lemma calm_toggle_sidebar s : ready s → calm E toggle_sidebar s.
Proof. intros Hr. unfold toggle_sidebar. apply calm_same; [done|]. by destruct (negb _). Qed.
Lemma calm_open_theme_picker s : ready s → calm E open_theme_picker s.
Proof.
  intros Hr. pose (cursor := default 0%nat (position (λ n, bool_decide (n = th_name (theme s))) (th_name <$> builtin))).
  assert (cursor < length (th_name <$> builtin))%nat as Hc.
  { unfold cursor. destruct (position _ _) as [i|] eqn:Hi; cbn [default]; [|vm_compute; lia].
    apply position_Some in Hi as (x & Hi & _). by eapply lookup_lt_Some. }
  refine (calm_set_picker E (Some (MkPicker cursor (th_name <$> builtin) (theme s))) s Hr _).
  intros p Hp. injection Hp as <-. exact Hc.
Qed.
Lemma calm_open_prompt kind input s : ready s → calm E (open_prompt kind input) s.
Proof. intros Hr. by apply calm_same. Qed.
Lemma calm_toggle_toasts s : ready s → calm E toggle_toasts s.
Proof. intros Hr. by apply calm_same. Qed.
Lemma calm_focus_by forward s : ready s → calm E (focus_by forward) s.
Proof. intros Hr. unfold focus_by. calm_auto. Qed.
#[local] Hint Resolve calm_copy_to_clipboard : calm.
Lemma calm_copy_last_block s : ready s → calm E (copy_last_block io error_text) s.
Proof. intros Hr. unfold copy_last_block. calm_auto. Qed.
#[local] Hint Resolve calm_rotate_tab calm_zoom_toggle calm_set_ribbon calm_open_search calm_toggle_sidebar
  calm_open_theme_picker calm_open_prompt calm_toggle_toasts calm_focus_by calm_copy_last_block : calm.

(** Afterwards a session is left, unless the front end quits. *)
Definition unless {A} (quit : A → Prop) (a : A) s : Prop := ui_ok s ∧ (¬ quit a → ready s).

Lemma unless_ready {A} (quit : A → Prop) (m : T D A) s : calm E m s → ends E (unless quit) m s.
Proof. intros Hm. eapply ends_conseq; [exact Hm|]. intros a s' Hr _. split; [apply Hr|done]. Qed.
Lemma unless_then {A B} (quit : B → Prop) (m : T D A) (b : B) s :
  calm E m s → ends E (unless quit) (do! m in ret b) s.
Proof. intros Hm. apply unless_ready. eapply ends_seq; [exact Hm|]. intros. by apply ends_ret. Qed.
Lemma unless_ret {A} (quit : A → Prop) (a : A) s : ready s → ends E (unless quit) (ret a) s.
Proof. intros Hr. apply unless_ready. by apply ends_ret. Qed.

Lemma close_focused_ends s : ready s → ends E (λ _, ui_ok) close_focused_pane s.
Proof.
  intros Hr. unfold close_focused_pane. apply ends_focused_slot; [done|]. intros [i|] _; [|apply ends_ret, Hr].
  apply close_pane_ends, Hr.
Qed.
Lemma ends_no_sessions {B} (Q : B → AppState D → Prop) (k : bool → T D B) s :
  ui_ok s → (sessions s = [] → ends E Q (k true) s) → (ready s → ends E Q (k false) s) → ends E Q (bind no_sessions k) s.
Proof.
  intros Hok Ht Hf. apply ends_gets. case_bool_decide as Hn; [by apply Ht|]. by apply Hf.
Qed.

Lemma handle_prefix_key_ends code s :
  ready s → ends E (unless (.= PrefixQuit)) (handle_prefix_key io error_text code) s.
Proof.
  intros Hr. unfold handle_prefix_key.
  assert (∀ m : T D unit, calm E m s → ends E (unless (.= PrefixQuit)) (do! m in ret PrefixContinue) s) as Hact.
  { intros m. apply unless_then. }
  assert (calm E (warn (open_new_tab io None)) s) by auto using calm_warn with calm.
  assert (∀ h, calm E (warn (split_active io h)) s) by auto using calm_warn with calm.
  assert (calm E (let! sv := active_view in open_prompt (RenameSession (sv_id sv)) (chars (sv_name sv))) s).
  { calm_auto. }
  assert (calm E (let! tab := active_tab in open_prompt (RenameWindow (tb_window_id tab)) (chars (tb_window_name tab))) s).
  { calm_auto. }
  destruct code; try (apply Hact; by auto with calm); cbn zeta.
  all: repeat (match goal with |- ends _ _ (if ?b then _ else _) _ => destruct b end;
               [first [by apply unless_ret | apply Hact; by auto with calm | idtac]|]); try by apply unless_ret.
  all: (eapply ends_bind; [by apply close_focused_ends|]; intros [] s' Hok _; apply ends_gets, ends_ret).
  all: (case_decide as Hn; [by split|]; by split; [|intros _; split]).
Qed.

(** *** Overlays *)
Definition quits (k : KeyAction) : Prop := k ≠ KeyContinue.

Lemma calm_help_key code s : ready s → calm E (help_key code) s.
Proof. intros Hr. unfold help_key. calm_auto. Qed.
Lemma calm_lost_key code mods s : ready s → calm E (lost_key code mods) s.
Proof. intros Hr. by apply ends_ret. Qed.

Lemma tab_in_range_alter (p : Tab → bool) f sv :
  tab_in_range sv → tab_in_range (sv <| sv_tabs ::= alter_first p f |>).
Proof.
  unfold tab_in_range, alter_first. cbn. destruct (position p (sv_tabs sv)); [by rewrite length_alter|done].
Qed.
Lemma shape_alter_first (p : SessionView → bool) f ss :
  (∀ sv, shape (f sv) = shape sv) → shape <$> alter_first p f ss = shape <$> ss.
Proof. intros Hf. unfold alter_first. destruct (position p ss); [by apply shape_alter|done]. Qed.
Lemma calm_submit_prompt p s : ready s → calm E (submit_prompt io error_text p) s.
Proof.
  intros Hr. unfold submit_prompt, rename_failed. calm_auto.
  - apply calm_same; [done|]. unfold core. cbn. f_equal. apply shape_alter_first. by intros sv.
  - apply calm_on_view; [done|]. intros sv _ Ht. by apply tab_in_range_alter.
Qed.
#[local] Hint Resolve calm_submit_prompt : calm.
Lemma calm_prompt_key code p s : ready s → calm E (prompt_key io error_text code p) s.
Proof. intros Hr. unfold prompt_key. calm_auto. Qed.

Lemma calm_menu_copy s : ready s → calm E (menu_copy io) s.
Proof. intros Hr. unfold menu_copy. calm_auto. Qed.
Lemma calm_inspect_slot i s : ready s → (i < length (slots s))%nat → calm E (inspect_slot error_text i) s.
Proof. intros Hr Hi. unfold inspect_slot. calm_auto. Qed.
#[local] Hint Resolve calm_menu_copy calm_inspect_slot : calm.

Lemma menu_action_ends item target s :
  ready s → (target < length (slots s))%nat → ends E (unless (.= true)) (menu_action io error_text item target) s.
Proof.
  intros Hr Ht. unfold menu_action. cbn zeta. destruct item; try (apply unless_then; by auto using calm_warn with calm).
  eapply ends_bind; [apply close_pane_ends, Hr|]. intros [] s' Hok _. split; [|apply later_refl].
  split; [done|]. intros Hq. split; [done|]. intros Hn. apply Hq. by rewrite bool_decide_true.
Qed.

Lemma menu_key_ends code m s :
  ready s → menu_ok (length (slots s)) m → ends E (unless quits) (menu_key io error_text code m) s.
Proof.
  intros Hr Hm. unfold menu_key. cbn zeta.
  assert (∀ f, (∀ c, c < length MENU_ITEMS → f c < length MENU_ITEMS)%nat →
    ends E (unless quits) (do! modify (λ s, s <| context_menu := Some (m <| cm_cursor ::= f |>) |>) in ret KeyContinue) s) as Hmove.
  { intros f Hf. apply unless_then. apply calm_set_menu; [done|]. intros m' [= <-].
    destruct Hm as (?&?&?). split; [by apply Hf|done]. }
  assert (calm E (modify (λ s, s <| context_menu := None |>)) s) as Hclose by by apply calm_set_menu.
  destruct (_ || _); [by apply unless_then|]. destruct (_ || _); [apply Hmove; lia|].
  destruct (_ || _); [apply Hmove; cbn; lia|]. destruct (bool_decide _); [|by apply unless_ret].
  eapply ends_seq; [exact Hclose|]. intros [] s' Hr' Hl. apply ends_at_index; [apply Hm|]. intros item _.
  eapply ends_bind; [apply menu_action_ends; [done|]; eapply later_lt; [exact Hl|apply Hm]|].
  intros quit s2 [Hok Hq] _. destruct quit; apply ends_ret; (split; [done|]); [by intros []|]. intros _. by apply Hq.
Qed.

Lemma calm_picker_move f p s :
  ready s → (∀ c, c < length (tp_names p) → f c < length (tp_names p))%nat → picker_ok p → calm E (picker_move f p) s.
Proof.
  intros Hr Hf Hp. unfold picker_move. cbn zeta. apply ends_seq.
  { apply calm_set_picker; [done|]. intros p' [= <-]. by apply Hf. }
  intros [] s' Hr' _. apply ends_at_index; [by apply Hf|]. intros name _.
  apply calm_same; [done|]. by destruct (get_theme builtin name).
Qed.
Lemma calm_picker_key code p s : ready s → picker_ok p → calm E (picker_key io code p) s.
Proof.
  intros Hr Hp. unfold picker_key. apply ends_seq; [|intros; by apply ends_ret].
  assert (∀ th : Theme → Theme, calm E (modify (λ s, s <| theme_picker := None |> <| theme ::= th |>)) s) as Hclose.
  { intros th. destruct Hr as [[] Hne]. apply calm_modify; [|done]. split; [|done]. by split. }
  destruct (_ || _); [apply (Hclose (λ _, tp_original_theme p))|].
  destruct (_ || _); [apply calm_picker_move; [done|lia|done]|].
  destruct (_ || _); [apply calm_picker_move; [done| |done]; unfold picker_ok in Hp; lia|].
  destruct (bool_decide _); [|by apply ends_ret]. apply ends_seq; [by apply calm_set_picker|].
  intros [] s' Hr' _. apply ends_at_index; [done|]. intros name _. calm_auto.
Qed.
Lemma calm_pager_key code body p s : ready s → calm E (pager_key code body p) s.
Proof. intros Hr. unfold pager_key. calm_auto. Qed.

(** *** Search results, sidebar, ribbon *)
Lemma elem_of_concat_imap {A B} (f : nat → A → list B) (l : list A) y :
  y ∈ concat (imap f l) ↔ ∃ i x, l !! i = Some x ∧ y ∈ f i x.
Proof.
  rewrite list_elem_of_In, in_concat. split.
  - intros (l' & Hl'%list_elem_of_In & Hy%list_elem_of_In).
    apply list_elem_of_lookup in Hl' as [i Hi]. rewrite list_lookup_imap, fmap_Some in Hi.
    destruct Hi as (x & Hx & ->). by exists i, x.
  - intros (i & x & Hx & Hy). exists (f i x). split; [|by rewrite <-list_elem_of_In].
    rewrite <-list_elem_of_In. apply list_elem_of_lookup. exists i. by rewrite list_lookup_imap, Hx.
Qed.
Lemma places_in_range sl target ss si ti i :
  (si, ti, i) ∈ places sl target ss →
  ∃ sv, ss !! si = Some sv ∧ (ti < length (sv_tabs sv))%nat ∧ (i < length sl)%nat.
Proof.
  unfold places. intros (si' & sv & Hsv & (ti' & tab & Htab & (pid & _ & Hp)%list_elem_of_omap)%elem_of_concat_imap)%elem_of_concat_imap.
  case_decide; [|done]. destruct (pane_to_slot_idx sl pid) as [j|] eqn:Hj; [|done]. cbn in Hp. injection Hp as -> -> ->.
  exists sv. split; [done|]. split; [by eapply lookup_lt_Some|by eapply pane_to_slot_lt].
Qed.
Lemma jump_target_elem a ps p : jump_target a ps = Some p → p ∈ ps.
Proof.
  unfold jump_target. destruct (find_first _ ps) as [q|] eqn:Hf.
  - intros [= <-]. by apply find_first_Some in Hf as [? _].
  - intros Hl. by apply last_Some_elem_of.
Qed.
Lemma calm_set_active i s : ready s → (i < length (sessions s))%nat → calm E (modify (λ s, s <| active_session := i |>)) s.
Proof.
  intros [[] Hne] Hi. apply calm_modify; [|done]. split; [|done]. split; try done. cbn. intros _.
  unfold const. by rewrite length_fmap.
Qed.

Lemma calm_search_jump hit s : ready s → calm E (search_jump hit) s.
Proof.
  intros Hr. unfold search_jump. apply ends_gets.
  destruct (jump_target _ _) as [[[si ti] i]|] eqn:Hj; [|by apply calm_say].
  apply jump_target_elem, places_in_range in Hj as (sv & Hsv & Hti & Hi).
  pose proof (calm_set_active si s Hr (lookup_lt_Some _ _ _ Hsv)) as [Hr1 _].
  apply ends_modify; [done|]. apply ends_set_view.
  match goal with |- ends _ _ _ ?s2 => assert (ready s2) as Hr2 end.
  { apply ready_set_view; [done|]. intros sv' Hsv' _.
    assert (sv' = sv) as -> by (change (sessions s !! si = Some sv') in Hsv'; congruence). exact Hti. }
  revert Hr2. match goal with |- ready ?s2 → _ => assert (length (slots s2) = length (slots s)) as Hl2 by done; generalize dependent s2 end.
  intros s2 Hl2 Hr2. rewrite <-Hl2 in Hi. calm_auto.
Qed.
Lemma calm_close_search s : ready s → calm E close_search s.
Proof. intros Hr. unfold close_search, on_search. by apply calm_set_search. Qed.
Lemma calm_edit_search f s : ready s → calm E (edit_search f) s.
Proof. intros Hr. unfold edit_search. by apply calm_same. Qed.

Lemma calm_search_key code mods s : ready s → se_open (search s) = true → calm E (search_key code mods) s.
Proof.
  intros Hr Hopen. unfold search_key. apply ends_seq; [|intros; by apply ends_ret].
  pose proof (ready_search s Hr) as Hs. unfold search_ok in Hs.
  destruct (bool_decide _); [by apply calm_close_search|].
  destruct (bool_decide _).
  { apply ends_gets. apply ends_seq; [|intros; by apply calm_close_search]. case_decide as Hn; [by apply ends_ret|].
    apply ends_at_index; [apply Hs; [done|by destruct (se_results (search s))]|]. intros hit _. by apply calm_search_jump. }
  destruct (_ || _).
  { unfold on_search. apply calm_set_search; [done|]. intros Ho Hl. specialize (Hs Ho Hl). cbn. lia. }
  destruct (_ || _).
  { unfold on_search. apply calm_set_search; [done|]. intros Ho Hl. cbn in *. lia. }
  destruct code; first [by apply calm_edit_search | by apply ends_ret].
Qed.

Lemma calm_sidebar_key code s : ready s → calm E (sidebar_key code) s.
Proof. intros Hr. unfold sidebar_key, sidebar_enter. calm_auto. Qed.
Lemma calm_open_pager err tr block s : ready s → calm E (open_pager error_text err tr block) s.
Proof. intros Hr. unfold open_pager. calm_auto. Qed.
#[local] Hint Resolve calm_open_pager : calm.
Lemma calm_ribbon_key code s : ready s → calm E (ribbon_key error_text code) s.
Proof. intros Hr. unfold ribbon_key. calm_auto. Qed.
Lemma calm_page_key code mods body s : ready s → calm E (page_key code mods body) s.
Proof. intros Hr. unfold page_key. calm_auto. Qed.
Lemma calm_send_focused bytes s : ready s → calm E (send_focused bytes) s.
Proof. intros Hr. unfold send_focused. calm_auto. Qed.
#[local] Hint Resolve calm_sidebar_key calm_ribbon_key calm_page_key calm_send_focused : calm.
Lemma calm_plain_key code mods body s : ready s → calm E (plain_key error_text code mods body) s.
Proof.
  intros Hr. unfold plain_key. apply ends_gets. cbv [id]. destruct (se_open (search s)) eqn:Ho; [by apply calm_search_key|].
  unfold or_else, forward_key. calm_auto.
Qed.

Lemma handle_key_ends code mods prefix body s :
  ready s → ends E (unless (λ r, quits r.2)) (handle_key io error_text code mods prefix body) s.
Proof.
  intros Hr. unfold handle_key. cbn zeta. apply ends_gets. cbv [id].
  assert (∀ m : T D KeyAction, ends E (unless quits) m s →
    ends E (unless (λ r : bool * KeyAction, quits r.2)) (let! k := m in ret (prefix, k)) s) as Hkeep.
  { intros m Hm. eapply ends_bind; [exact Hm|]. intros k s' Hk _. by apply ends_ret. }
  destruct (help_open _); [by apply Hkeep, unless_ready, calm_help_key|].
  destruct (session_lost _); [by apply Hkeep, unless_ready, calm_lost_key|].
  destruct (prompt _) as [p|]; [by apply Hkeep, unless_ready, calm_prompt_key|].
  destruct (context_menu _) as [m|] eqn:Hm; [apply Hkeep, menu_key_ends; eauto with calm|].
  destruct (theme_picker _) as [p|] eqn:Hp; [apply Hkeep, unless_ready, calm_picker_key; eauto with calm|].
  destruct (pager _) as [p|]; [by apply Hkeep, unless_ready, calm_pager_key|].
  destruct (_ && _); [by apply unless_ret|]. destruct prefix; [|by apply Hkeep, unless_ready, calm_plain_key].
  unfold after_prefix.
  eapply (ends_bind E (unless quits)); [|intros k s' Hk _; by apply ends_ret].
  eapply ends_bind; [by apply handle_prefix_key_ends|]. intros a s' [Hok Ha] _.
  destruct a; [by apply unless_ret, Ha| | |apply unless_then, calm_same; [by apply Ha|done]].
  all: apply ends_ret; (split; [done|]); intros Hq; by destruct Hq.
Qed.
End Keys.
#[export] Hint Resolve calm_copy_to_clipboard calm_zoom_toggle calm_open_prompt calm_menu_copy calm_inspect_slot
  calm_search_jump calm_close_search calm_open_pager calm_send_focused : calm.
