(* ===== verification/TuiSafe.v ===== *)
(** * TuiSafe: drawing and the mouse do not panic

    What a frame leaves in the state for the mouse - the rectangles of sessions and
    tabs, the boundaries of splits - fits the state it was drawn from ([drawn]); from
    such a state every handler of the mouse, the drag of a boundary apart, keeps the
    invariant of TuiInv. *)
From Stdlib Require Import Strings.Byte.
From S2P Require Import Prelude Proto Text Layout LayoutTree Libraries Effects Themes Server Client.
From S2P Require Import Tui TuiPanes TuiKeys TuiMouse TuiDraw TuiInv.
Local Open Scope Z_scope.

(** ** Frames *)
Lemma pills_in_range sidebar sl ss p : p ∈ pills sidebar sl ss → (pill_sess_idx p < length ss)%nat.
Proof.
  unfold pills. intros (o & Ho & Hp)%list_elem_of_omap. cbn in Hp. subst o.
  apply list_elem_of_lookup in Ho as [i Hi]. rewrite list_lookup_imap, fmap_Some in Hi.
  destruct Hi as (sv & Hsv & Hi). destruct (session_is_live sv sl); [|done]. injection Hi as ->.
  by eapply lookup_lt_Some.
Qed.
Lemma strip_rects_pills first ps area cs scroll vp vx r :
  r ∈ strip_rects first ps area cs scroll vp vx → ∃ p, p ∈ ps.*1 ∧ r.1 = pill_sess_idx p.
Proof.
  revert first vx. induction ps as [|[p start] ps IH]; intros first vx; cbn [strip_rects]; [by intros ?%elem_of_nil|].
  assert (∀ f v, r ∈ strip_rects f ps area cs scroll vp v → ∃ q, q ∈ ((p, start) :: ps).*1 ∧ r.1 = pill_sess_idx q) as Hrest.
  { intros f v (q & Hq & Hr)%IH. exists q. split; [by right|done]. }
  destruct (_ <=? scroll); [apply Hrest|]. destruct (_ <=? _); [by intros ?%elem_of_nil|].
  intros [Hr|Hr]%elem_of_app; [|by eapply Hrest].
  destruct (_ && _); [|by apply elem_of_nil in Hr]. apply list_elem_of_singleton in Hr as ->.
  exists p. split; [by left|done].
Qed.
Lemma strip_in_range sidebar sl ss area active scroll :
  Forall (λ r, r.1 < length ss)%nat (st_rects (layout_strip area (pills sidebar sl ss) active scroll)).
Proof.
  apply Forall_forall. intros r Hr. unfold layout_strip in Hr. cbn [st_rects] in Hr.
  apply strip_rects_pills in Hr as (p & Hp & ->). apply (pills_in_range sidebar sl).
  apply list_elem_of_fmap in Hp as ([q z] & -> & Hq). by apply elem_of_zip_l in Hq.
Qed.

Lemma tab_chips_in_range area i tabs x : Forall (λ r, r.1 < i + length tabs)%nat (tab_chips area i tabs x).1.
Proof.
  revert i x. induction tabs as [|t tabs IH]; intros i x; cbn; [constructor|]. apply Forall_app. split.
  - destruct (0 <? rh area); [|constructor]. repeat constructor; cbn. lia.
  - eapply Forall_impl; [apply IH|]. cbn. intros r. lia.
Qed.

Section Frames.
Context `{UuidText, Alacritty, LayoutSolver}.

Lemma render_slot_length i area st : length (render_slot i area st).1 = length st.1.
Proof.
  unfold render_slot. destruct (st.1 !! i) as [[slot|]|]; [|done..].
  destruct (render_pane area slot). cbn. apply length_insert.
Qed.
Lemma render_layout_length root area sl : length (render_layout root area sl).1 = length sl.
Proof.
  unfold render_layout. match goal with |- length (fold_left ?f ?l ?st0).1 = _ =>
    enough (∀ st, length (fold_left f l st).1 = length st.1) as Hf by apply (Hf st0); induction l as [|lr lrs IH] end.
  { done. }
  intros st. cbn [fold_left]. rewrite IH. destruct (_ !! _); [apply render_slot_length|done].
Qed.
Lemma render_zoomed_length zoom area sl : length (render_zoomed zoom area sl).1 = length sl.
Proof. unfold render_zoomed. destruct (_ !! _); [apply render_slot_length|done]. Qed.

(** The path of a boundary leads to a node of the tree. *)
Definition leads (n : LayoutNode) (path : list nat) : Prop := ∃ o, children_at n path = Ok o.
Definition leads_from (path : list nat) (n : LayoutNode) (b : SplitBoundary) : Prop :=
  ∃ q, bd_parent_path b = path ++ q ∧ leads n q.

Lemma leads_child mk cs i c q : is_split mk → cs !! i = Some c → leads c.1 q → leads (mk cs) (i :: q).
Proof.
  intros [-> | ->] Hi [o Ho]; exists o; cbn [children_at]; unfold index; rewrite Hi; exact Ho.
Qed.
Lemma child_boundaries_lead mk path pre cs rects :
  is_split mk →
  Forall (λ c, ∀ path area, Forall (leads_from path c.1) (layout_boundaries path c.1 area)) cs →
  Forall (leads_from path (mk (pre ++ cs))) (child_boundaries layout_boundaries path (length pre) cs rects).
Proof.
  intros Hmk. revert pre rects. induction cs as [|[c w] cs IH]; intros pre rects Hcs; [constructor|].
  destruct rects as [|rect rects]; [constructor|]. apply Forall_cons in Hcs as [Hc Hcs].
  cbn [child_boundaries]. apply Forall_app. split.
  - eapply Forall_impl; [apply Hc|]. cbn. intros b (q & Hb & Hq). exists (length pre :: q). split.
    + by rewrite Hb, <-app_assoc.
    + apply (leads_child mk _ _ (c, w)); [done| |done]. by apply list_lookup_middle.
  - specialize (IH (pre ++ [(c, w)]) rects Hcs). rewrite length_app, <-app_assoc in IH. cbn in IH.
    by rewrite Nat.add_1_r in IH.
Qed.
Lemma layout_boundaries_lead n path area : Forall (leads_from path n) (layout_boundaries path n area).
Proof.
  revert path area. induction n as [id|mk cs Hmk IH] using LayoutNode_ind'; intros path area; [constructor|].
  assert (∀ is_h rects, Forall (leads_from path (mk cs)) (split_boundaries is_h path area rects)) as Hsplit.
  { intros is_h rects. unfold split_boundaries. apply Forall_lookup. intros i b Hb.
    rewrite list_lookup_imap, fmap_Some in Hb. destruct Hb as (r & _ & ->). exists []. split; [by rewrite app_nil_r|].
    exists (Some cs). by destruct Hmk as [-> | ->]. }
  pose proof (λ rects, child_boundaries_lead mk path [] cs rects Hmk IH) as Hch. cbn [length app] in Hch.
  destruct Hmk as [-> | ->]; cbn [layout_boundaries]; apply Forall_app; auto.
Qed.
End Frames.

(** *** What the mouse relies on *)
Section Drawn.
Context `{UuidText, Alacritty, LayoutSolver} {D : Type} (E : Stop → AppState D → Prop).
Implicit Types s : AppState D.

Definition strip_ok s : Prop := Forall (λ r, r.1 < length (sessions s))%nat (session_strip_rects s).
Definition chips_ok s : Prop :=
  ∀ sv, sessions s !! active_session s = Some sv → Forall (λ r, r.1 < length (sv_tabs sv))%nat (tab_chip_rects s).
Definition boundaries_ok s : Prop :=
  ∀ tab, active_tab_is s tab → Forall (λ b, leads (tb_root tab) (bd_parent_path b)) (tb_boundaries tab).
Definition drawn s : Prop := strip_ok s ∧ chips_ok s ∧ boundaries_ok s.

Lemma draw_strip_ends area s : ready s → ends E (λ _ s', ready s' ∧ strip_ok s') (draw_strip area) s.
Proof.
  intros Hr. split; [|done]. split; [by apply (core_ready s)|]. apply strip_in_range.
Qed.
Lemma draw_tabs_ends area s :
  ready s → strip_ok s → ends E (λ _ s', ready s' ∧ strip_ok s' ∧ chips_ok s') (draw_tabs area) s.
Proof.
  intros Hr Hstrip. unfold draw_tabs. apply ends_active_view; [done|]. intros sv Hsv _.
  pose proof (tab_chips_in_range area 0 (sv_tabs sv) (rx area)) as Hc.
  destruct (tab_chips _ _ _ _) as [chips x]. split; [|done]. split; [by apply (core_ready s)|]. split; [done|].
  intros sv' Hsv'. change (sessions s !! active_session s = Some sv') in Hsv'.
  assert (sv' = sv) as -> by congruence. exact Hc.
Qed.

Lemma active_tab_unique s t1 t2 : active_tab_is s t1 → active_tab_is s t2 → t1 = t2.
Proof. intros (sv1 & Hv1 & Ht1) (sv2 & Hv2 & Ht2). congruence. Qed.
Definition on_active_tab (f : Tab → Tab) (sv : SessionView) s : AppState D :=
  s <| sessions ::= alter (λ sv', sv' <| sv_tabs ::= alter f (sv_active_tab sv) |>) (active_session s) |>.
Lemma with_active_tab_run f s sv :
  ready s → sessions s !! active_session s = Some sv → with_active_tab f s = (on_active_tab f sv s, Ok tt).
Proof.
  intros Hr Hsv. assert (tab_in_range sv) as Ht by (eapply ready_tab; [apply Hr|done]).
  unfold with_active_tab, active_view, bind, gets, session_at, at_index, index, of_result. rewrite Hsv. cbn.
  apply lookup_lt_is_Some in Ht as [tab Htab]. unfold tab_of, at_index, index, of_result. by rewrite Htab.
Qed.
Lemma on_active_tab_ok f s sv :
  sessions s !! active_session s = Some sv → strip_ok s → chips_ok s →
  strip_ok (on_active_tab f sv s) ∧ chips_ok (on_active_tab f sv s).
Proof.
  intros Hsv Hstrip Hchips. split; [unfold strip_ok; cbn; by rewrite length_alter|].
  intros sv' Hsv'. cbn in Hsv'. rewrite list_lookup_alter_eq, Hsv in Hsv'. injection Hsv' as <-.
  cbn. rewrite length_alter. by apply Hchips.
Qed.
Lemma on_active_tab_is f s sv tab :
  sessions s !! active_session s = Some sv → active_tab_is (on_active_tab f sv s) tab →
  ∃ t, sv_tabs sv !! sv_active_tab sv = Some t ∧ tab = f t.
Proof.
  intros Hsv (sv' & Hsv' & Htab). cbn in Hsv'. rewrite list_lookup_alter_eq, Hsv in Hsv'. injection Hsv' as <-.
  cbn in Htab. rewrite list_lookup_alter_eq in Htab. apply fmap_Some in Htab as (t & Ht & ->). by exists t.
Qed.

Lemma draw_body_ends body s :
  ready s → strip_ok s → chips_ok s → ends E (λ _ s', ready s' ∧ drawn s') (draw_body body) s.
Proof.
  intros Hr Hstrip Hchips. unfold draw_body. apply ends_active_tab; [done|]. intros tab (sv & Hsv & Htab).
  apply ends_gets, ends_gets. cbv zeta. set (area := pane_body_area (sidebar_open s) body).
  set (r := match tb_zoomed tab with Some _ => _ | None => _ end). set (bs := match tb_zoomed tab with Some _ => _ | None => _ end).
  assert (length r.1 = length (slots s)) as Hlen.
  { unfold r. destruct (tb_zoomed tab); [apply render_zoomed_length|apply render_layout_length]. }
  assert (Forall (λ b, leads (tb_root tab) (bd_parent_path b)) bs) as Hbs.
  { unfold bs. destruct (tb_zoomed tab); [constructor|]. eapply Forall_impl; [apply layout_boundaries_lead|].
    cbn. by intros b (q & -> & Hq). }
  clearbody r bs. destruct r as [sl resizes]. cbn [fst] in Hlen.
  assert (ready (s <| slots := sl |> <| pending_resizes ::= (.++ resizes) |>)) as Hr1.
  { apply (core_ready (s <| slots := sl |>)); [done|]. apply ready_slots; [done|lia]. }
  apply ends_modify; [unfold later; cbn; unfold const; lia|].
  set (s1 := s <| slots := sl |> <| pending_resizes ::= (.++ resizes) |>) in *. change (sessions s1 !! active_session s1 = Some sv) in Hsv.
  unfold ends. rewrite (with_active_tab_run _ s1 sv) by done. split; [|done].
  split; [apply (core_ready s1); [apply core_set_tab|done]|].
  destruct (on_active_tab_ok (λ t, t <| tb_boundaries := bs |>) s1 sv Hsv Hstrip Hchips) as [Hs' Hc'].
  split; [done|]. split; [done|]. intros tab' (t & Ht & ->)%on_active_tab_is; [|done].
  assert (t = tab) as -> by congruence. exact Hbs.
Qed.

Lemma draw_overlays_ends area results s :
  ready s → drawn s → ends E (λ _ s', ready s' ∧ drawn s') (draw_overlays area results) s.
Proof.
  intros Hr Hd. unfold draw_overlays. eapply (ends_bind E (λ _ s', ready s' ∧ drawn s')).
  { assert (∀ s', core s' = core s → sessions s' = sessions s → drawn s' → ready s' ∧ drawn s') as Hsame.
    { intros s' Hc _ Hd'. split; [by apply (core_ready s)|done]. }
    unfold draw_results, ends, modify. cbv zeta.
    repeat case_match; (split; [apply Hsame; [reflexivity|reflexivity|exact Hd]|done]). }
  intros [] s1 [[Hok Hne] Hd1] _. split; [|done]. split; [|exact Hd1]. split; [|exact Hne].
  destruct Hok. split; try done.
  intros m (m1 & (m0 & Hm0 & ->)%fmap_Some & ->)%fmap_Some.
  pose proof (ready_menu s1 m0) as Hm. destruct Hm as (?&?&_); [by split|done|].
  split; [done|]. split; [done|]. change (length (menu_item_rects area m0) ≤ length MENU_ITEMS)%nat.
  unfold menu_item_rects. cbv zeta. rewrite length_fmap, length_take, length_seq. lia.
Qed.

Lemma draw_frame_ends area results s :
  ready s → ends E (λ _ s', ready s' ∧ (session_lost s' = false → drawn s')) (draw_frame area results) s.
Proof.
  intros Hr. unfold draw_frame. apply ends_gets. destruct (session_lost s) eqn:Hlost.
  { apply ends_ret. split; [done|]. by rewrite Hlost. }
  eapply ends_bind; [by apply draw_strip_ends|]. intros [] s1 [Hr1 Hs1] _.
  eapply ends_bind; [by apply draw_tabs_ends|]. intros [] s2 (Hr2 & Hs2 & Hc2) _.
  eapply ends_bind; [by apply draw_body_ends|]. intros [] s3 [Hr3 Hd3] _.
  eapply ends_conseq; [by apply draw_overlays_ends|]. by intros [] s4 [? ?] _.
Qed.
End Drawn.

(** ** The mouse *)
Section Mouse.
Context `{UuidText, Alacritty, LayoutSolver} {D : Type} `{!PyreDaemon D}.
Context (io : Io) (error_text : RpcFailure → string) (body : Rect) (col row : Z).
Context (E : Stop → AppState D → Prop).
Implicit Types s : AppState D.

Lemma calm_scroll_strip f s : ready s → calm E (scroll_strip f) s.
Proof. intros Hr. unfold scroll_strip. calm_auto. Qed.
#[local] Hint Resolve calm_scroll_strip : calm.
Lemma calm_wheel_pane pane s : ready s → calm E (wheel_pane body col row pane) s.
Proof.
  intros Hr. unfold wheel_pane, active_leaf_rects. apply (ends_bind E (λ _, ready)); [calm_auto|].
  intros rects s1 Hr1 _. calm_auto.
Qed.
#[local] Hint Resolve calm_wheel_pane : calm.
Lemma calm_wheel strip page pane s : ready s → calm E (wheel body col row strip page pane) s.
Proof. intros Hr. unfold wheel. calm_auto. Qed.
Lemma calm_scrolled_up s : ready s → calm E (scrolled_up body col row) s.
Proof. apply calm_wheel. Qed.
Lemma calm_scrolled_down s : ready s → calm E (scrolled_down body col row) s.
Proof. apply calm_wheel. Qed.
Lemma calm_close_menu s : ready s → calm E (modify (λ s, s <| context_menu := None |>)) s.
Proof. intros Hr. by apply calm_set_menu. Qed.
#[local] Hint Resolve calm_close_menu : calm.
Lemma calm_leaf_rects s : ready s → calm E (active_leaf_rects body) s.
Proof. intros Hr. unfold active_leaf_rects. calm_auto. Qed.
#[local] Hint Resolve calm_leaf_rects : calm.

Lemma calm_right_down s : ready s → calm E (right_down body col row) s.
Proof.
  intros Hr. unfold right_down. calm_auto.
  apply calm_set_menu; [done|]. intros m [= <-]. split; [cbn; lia|]. split; [|cbn; lia].
  eapply later_lt; [done|]. by eapply pane_to_slot_lt.
Qed.
#[local] Hint Resolve calm_scrolled_up calm_scrolled_down calm_right_down : calm.

(** *** After [handle_mouse]: an action may be pending; the cursor of the search may
    be out of range when it is a jump, which closes the search *)
Definition cleared s : AppState D := s <| pending_menu_action := None |>.
Definition search_closed s : AppState D := s <| search ::= λ q, q <| se_open := false |> |>.
Definition handled s : Prop :=
  (∃ i, pending_menu_action s = Some (SearchJump i) ∧ ready (search_closed (cleared s))) ∨
  (ui_ok (cleared s) ∧ (pending_menu_action s ≠ None → ready (cleared s))).

Lemma pending_none s : ui_ok s → pending_menu_action s = None.
Proof. intros Hok. exact (bool_decide_eq_true_1 _ (ok_pending _ Hok)). Qed.
Lemma core_cleared s : ui_ok s → core (cleared s) = core s.
Proof.
  intros Hok%pending_none. unfold core. cbn. by rewrite Hok.
Qed.
Lemma handled_ok s : ui_ok s → handled s.
Proof.
  intros Hok. right. split; [apply (core_ok' s); [by apply core_cleared|done]|]. intros Hn. by rewrite pending_none in Hn.
Qed.
Lemma handled_pending a s : ready s → handled (s <| pending_menu_action := a |>).
Proof.
  intros Hr. right. assert (ready (cleared (s <| pending_menu_action := a |>))) as Hc.
  { apply (core_ready s); [|done]. apply (core_cleared s), Hr. }
  split; [apply Hc|done].
Qed.
Definition handles (m : T D bool) s : Prop := ends E (λ _, handled) m s.
Lemma calm_handles (m : T D bool) s : calm E m s → handles m s.
Proof. intros Hm. eapply ends_conseq; [exact Hm|]. intros b s' [Hok _] _. by apply handled_ok. Qed.
Lemma handles_seq {A} (m : T D A) k s :
  calm E m s → (∀ a s', ready s' → later s s' → handles (k a) s') → handles (bind m k) s.
Proof. apply ends_seq. Qed.

(** *** Left button *)
Lemma hit_rect_elem {A} (rects : list (A * Rect)) a :
  hit_rect rects col row = Some a → ∃ r, (a, r) ∈ rects.
Proof.
  unfold hit_rect. intros ([a' r] & Hf & ->)%fmap_Some. apply find_first_Some in Hf as [Hin _]. by exists r.
Qed.

Lemma calm_strip_down s : ready s → strip_ok s → calm E (strip_down col row) s.
Proof.
  intros Hr Hs. unfold strip_down. pose proof (calm_close_menu s Hr) as [Hr1 _].
  apply ends_modify; [done|]. set (s1 := s <| context_menu := None |>) in *. apply ends_gets. cbv [id].
  destruct (in_rect _ _ _); [by apply calm_scroll_strip|]. destruct (in_rect _ _ _); [by apply calm_scroll_strip|].
  destruct (in_rect _ _ _); [calm_auto; by apply calm_open_prompt|].
  destruct (hit_rect (session_strip_rects s1) col row) as [i|] eqn:Hi; [|by apply ends_ret].
  apply hit_rect_elem in Hi as [r Hi]. apply ends_seq; [|intros; by apply ends_ret].
  apply calm_set_active; [done|]. unfold strip_ok in Hs. rewrite Forall_forall in Hs. exact (Hs _ Hi).
Qed.

Lemma close_tab_pane_ends i s sv :
  ready s → sessions s !! active_session s = Some sv → (i < length (sv_tabs sv))%nat →
  ends E (λ _, ui_ok) (close_tab_pane i) s.
Proof.
  intros Hr Hsv Hi. unfold close_tab_pane. apply ends_active_view; [done|]. intros sv' Hsv' _.
  assert (sv' = sv) as -> by congruence. apply ends_tab_of; [done|]. intros tab _. apply ends_gets.
  destruct (focused_slot_idx _ _) as [si|]; [|apply ends_ret, Hr].
  eapply ends_bind; [apply close_pane_ends, Hr|]. intros [] s' Hok _. by apply ends_ret.
Qed.
Lemma handles_tabs_down s : ready s → chips_ok s → handles (tabs_down col row) s.
Proof.
  intros Hr Hc. unfold tabs_down. pose proof (calm_close_menu s Hr) as [Hr1 _].
  apply ends_modify; [done|]. set (s1 := s <| context_menu := None |>) in *. apply ends_gets. cbv [id].
  destruct (in_rect _ _ _); [apply calm_handles; calm_auto; by apply calm_open_prompt|].
  destruct (find_first _ (tab_chip_rects s1)) as [[i chip]|] eqn:Hf; [|by apply ends_ret, handled_ok, Hr1].
  apply find_first_Some in Hf as [Hin _].
  pose proof (ready_active _ Hr1) as [sv Hsv]%lookup_lt_is_Some. pose proof (Hc sv Hsv) as Hcs.
  rewrite Forall_forall in Hcs. pose proof (Hcs _ Hin) as Hi. cbn [fst] in Hi.
  destruct (col =? close_col chip).
  - eapply ends_conseq; [by eapply close_tab_pane_ends|]. intros b s' Hok _. by apply handled_ok.
  - apply calm_handles. apply ends_modify; [done|].
    match goal with |- ends _ _ _ ?s2 => assert (ready s2) as Hr2 by by apply (core_ready s1) end.
    apply ends_seq; [|intros; by apply ends_ret]. apply calm_on_view; [done|].
    intros sv' Hsv' _. change (sessions s1 !! active_session s1 = Some sv') in Hsv'.
    assert (sv' = sv) as -> by congruence. exact Hi.
Qed.

Lemma calm_boundary_down bs s :
  ready s → (∀ tab, active_tab_is s tab → Forall (λ b, leads (tb_root tab) (bd_parent_path b)) bs) →
  calm E (boundary_down col row bs) s.
Proof.
  intros Hr. induction bs as [|b bs IH]; intros Hbs; cbn [boundary_down]; [by apply ends_ret|].
  assert (calm E (boundary_down col row bs) s) as Hrest.
  { apply IH. intros tab Ht. by specialize (Hbs tab Ht) as [_ ?]%Forall_cons. }
  destruct (on_boundary b col row); [|done]. apply ends_gets. cbv [id]. apply ends_active_tab; [done|]. intros tab Htab.
  specialize (Hbs tab Htab) as [[o Ho] _]%Forall_cons. rewrite Ho. unfold of_result.
  match goal with |- ends _ _ (bind (λ s, (s, Ok o)) ?k) _ => change (calm E (k o) s) end. cbv beta.
  unfold record_click. calm_auto.
Qed.

Lemma calm_sidebar_down s : ready s → calm E (sidebar_down body col row) s.
Proof. intros Hr. unfold sidebar_down. calm_auto. Qed.

Lemma handles_chip_down slot chip s :
  ready s → ends E (λ _, handled) (do! chip_down col row slot chip in ret true) s.
Proof.
  intros Hr. unfold chip_down.
  eapply (ends_bind E (λ _, handled)); [|intros [] s' Hh _; by apply ends_ret].
  apply ends_gets. apply ends_seq; [unfold record_click; calm_auto|]. intros [] s1 Hr1 _.
  apply ends_seq; [calm_auto|]. intros [] s2 Hr2 _. destruct (2 <=? _); [|by apply ends_ret, handled_ok, Hr2].
  split; [|done]. by apply handled_pending.
Qed.
Lemma calm_select_down i slot content s :
  ready s → (i < length (slots s))%nat → calm E (select_down col row i slot content) s.
Proof.
  intros Hr Hi. unfold select_down. apply ends_gets. apply ends_seq; [unfold record_click; calm_auto|].
  intros [] s1 Hr1 Hl. match goal with |- ends _ _ (let '(_, _) := ?p in _) _ => destruct p end.
  apply calm_set_selection; [done|]. intros sel [= <-]. by eapply later_lt.
Qed.
Lemma handles_pane_down s : ready s → handles (pane_down body col row) s.
Proof.
  intros Hr. unfold pane_down. apply handles_seq; [by apply calm_leaf_rects|]. intros rects s1 Hr1 _.
  apply ends_gets. cbv zeta. destruct (find_first _ _) as [[i rect]|] eqn:Hf; [|by apply ends_ret, handled_ok, Hr1].
  apply find_first_Some in Hf as [([pid r] & _ & Hp)%list_elem_of_omap _].
  destruct (pane_to_slot_idx (slots s1) pid) as [j|] eqn:Hj; [|by cbn in Hp; rewrite Hj in Hp].
  cbn in Hp. rewrite Hj in Hp. injection Hp as <- <-. apply pane_to_slot_lt in Hj.
  apply handles_seq; [by apply calm_focus_slot|]. intros [] s2 Hr2 Hl2.
  apply ends_slot_at; [by eapply later_lt|]. intros [slot|]; [|by apply ends_ret, handled_ok, Hr2].
  destruct (hit_rect _ _ _) as [chip|]; [by apply handles_chip_down|]. cbv zeta.
  apply calm_handles. apply ends_seq; [|intros; by apply ends_ret].
  destruct (rect_contains _ _ _); [|by apply ends_ret]. apply calm_select_down; [done|]. by eapply later_lt.
Qed.

Lemma handles_left_down s : ready s → drawn s → handles (left_down body col row) s.
Proof.
  intros Hr (Hs & Hc & Hb). unfold left_down. destruct (row =? 0); [by apply calm_handles, calm_strip_down|].
  destruct (row =? 1); [by apply handles_tabs_down|]. unfold body_down.
  apply ends_active_tab; [done|]. intros tab Htab. apply handles_seq.
  { apply calm_boundary_down; [done|]. intros tab' Htab'. rewrite (active_tab_unique s tab' tab) by done. by apply Hb. }
  intros [b|] s1 Hr1 _; [by apply ends_ret, handled_ok, Hr1|].
  apply handles_seq; [by apply calm_sidebar_down|]. intros [b|] s2 Hr2 _; [by apply ends_ret, handled_ok, Hr2|].
  by apply handles_pane_down.
Qed.

(** *** Releasing, hovering, the overlays *)
Lemma calm_left_up s : ready s → calm E (left_up io) s.
Proof.
  intros Hr. unfold left_up. apply ends_seq; [calm_auto|]. intros [] s1 Hr1 _.
  apply ends_active_tab; [done|]. intros tab _. destruct (tb_drag tab); [calm_auto|]. apply ends_gets.
  destruct (selection s1) as [sel|] eqn:Hsel; [|by apply ends_ret]. destruct (sn_dragging sel); [|by apply ends_ret].
  pose proof (ready_selection _ _ Hr1 Hsel) as Hi. apply ends_seq.
  { apply calm_set_selection; [done|]. by intros ? [= <-]. }
  intros [] s2 Hr2 Hl2. apply ends_slot_at; [by eapply later_lt|]. intros [slot|]; [|by apply ends_ret].
  destruct (normalized sel) as [a b]. cbv zeta. calm_auto.
Qed.
Lemma calm_hover s : ready s → calm E (hover col row) s.
Proof. intros Hr. unfold hover. calm_auto. Qed.
Lemma length_tab_reorder {A} (ts : list A) i j : length (tab_reorder ts i j) = length ts.
Proof.
  unfold tab_reorder. case_decide as Hd; [done|]. destruct (ts !! i) as [t|] eqn:Hi; [|done]. cbv zeta.
  rewrite length_app, length_take. cbn. rewrite length_drop, length_delete by eauto. lia.
Qed.
Lemma calm_drag_tab s : ready s → chips_ok s → calm E (drag_tab col row) s.
Proof.
  intros Hr Hc. unfold drag_tab. apply ends_gets. cbv [id]. destruct (dragging_tab s) as [[from x]|]; [|by apply ends_ret].
  destruct (find_first _ (tab_chip_rects s)) as [[over chip]|] eqn:Hf; [|by apply ends_ret]. cbv zeta.
  apply find_first_Some in Hf as [Hin _]. apply ends_seq; [|intros; by apply ends_ret].
  destruct (if x <? col then _ else _); [|by apply ends_ret]. apply ends_seq; [|intros; calm_auto].
  apply calm_on_view; [done|]. intros sv Hsv _. unfold tab_in_range. cbn. rewrite length_tab_reorder.
  specialize (Hc sv Hsv). rewrite Forall_forall in Hc. exact (Hc _ Hin).
Qed.

Lemma handles_menu_down s : ready s → ends E (λ b s', handled s' ∧ (b = false → s' = s)) (menu_down col row) s.
Proof.
  intros Hr. unfold menu_down. apply ends_gets. cbv [id].
  assert (ends E (λ b s', handled s' ∧ (b = false → s' = s)) (ret false) s) as Hno.
  { apply ends_ret. split; [apply handled_ok, Hr|done]. }
  destruct (context_menu s) as [m|] eqn:Hm; [|done]. destruct (hit_rect _ _ _) as [i|] eqn:Hi; [|done].
  pose proof (ready_menu _ _ Hr Hm) as (?&?&Hlen). apply hit_rect_elem in Hi as [r Hi].
  split; [|done]. split; [|done].
  apply (handled_pending (Some (ContextMenuActivate i)) (s <| context_menu := Some (m <| cm_cursor := i |>) |>)).
  assert (calm E (modify (λ s, s <| context_menu := Some (m <| cm_cursor := i |>) |>)) s) as [Hr' _]; [|exact Hr'].
  apply calm_set_menu; [done|]. intros m' [= <-]. split; [|done].
  apply list_elem_of_lookup in Hi as [j Hj]. rewrite list_lookup_imap, fmap_Some in Hj.
  destruct Hj as (r' & Hj%lookup_lt_Some & [= -> _]). cbn. unfold const. cbn in Hlen. lia.
Qed.
Lemma handles_search_down s : ready s → ends E (λ b s', handled s' ∧ (b = false → s' = s)) (search_down col row) s.
Proof.
  intros Hr. unfold search_down. apply ends_gets. cbv [id].
  assert (ends E (λ b s', handled s' ∧ (b = false → s' = s)) (ret false) s) as Hno.
  { apply ends_ret. split; [apply handled_ok, Hr|done]. }
  destruct (se_open (search s)); [|done]. destruct (hit_rect _ _ _) as [i|]; [|done].
  split; [|done]. split; [|done]. left. exists i. split; [done|].
  assert (calm E (modify (λ s, s <| search ::= λ q, q <| se_cursor := i |> <| se_open := false |> |>)) s) as [Hr1 _].
  { by apply calm_set_search. }
  eapply core_ready; [|exact Hr1]. unfold core. cbn. by rewrite (pending_none s) by apply Hr.
Qed.

Definition dragging_boundary (kind : MouseEventKind) : Prop := kind = MDrag BLeft ∧ row ≠ 1.

Lemma handles_dispatch kind s :
  ready s → drawn s → ¬ dragging_boundary kind → handles (dispatch_mouse io body col row kind) s.
Proof.
  intros Hr Hd Hk. unfold dispatch_mouse.
  destruct kind as [[]|[]|[]| | | |]; try (apply calm_handles; first [by apply ends_ret | by auto using calm_left_up, calm_hover with calm]).
  - eapply ends_bind; [by apply handles_menu_down|]. intros [] s1 [Hh1 Hs1] _; [by apply ends_ret|].
    rewrite (Hs1 eq_refl). eapply ends_bind; [by apply handles_search_down|].
    intros [] s2 [Hh2 Hs2] _; [by apply ends_ret|]. rewrite (Hs2 eq_refl). by apply handles_left_down.
  - destruct (row =? 1) eqn:Hrow; [apply calm_handles, calm_drag_tab; [done|apply Hd]|].
    destruct Hk. split; [done|]. by apply Z.eqb_neq in Hrow.
Qed.

Lemma handles_mouse kind s :
  ready s → drawn s → ¬ dragging_boundary kind → handles (handle_mouse io body col row kind) s.
Proof.
  intros Hr Hd Hk. unfold handle_mouse.
  eapply (ends_bind E (λ _ s', ready s' ∧ drawn s')); [|intros [] s1 [Hr1 Hd1] _; by apply handles_dispatch].
  unfold dismiss_menu. assert (drawn (s <| context_menu := None |>)) by exact Hd.
  pose proof (calm_close_menu s Hr) as [Hr1 _].
  split; [|by repeat case_match]. by repeat case_match.
Qed.

(** *** The deferred actions *)
Definition with_search (q : SearchState) s : AppState D := s <| search := q |>.

(** A jump does not look at the search. *)
Lemma search_jump_search hit q s :
  search_jump hit (with_search q s) = (with_search q (search_jump hit s).1, (search_jump hit s).2).
Proof.
  unfold search_jump, bind, gets, with_search. cbn.
  destruct (jump_target _ _) as [[[si ti] i]|]; [|done].
  unfold set_view, set_tab, slot_at, at_index, index, of_result, modify, set_view, set_slot. cbn.
  lazymatch goal with |- context [ok_or ?o ?e] => generalize (ok_or o e) end. by intros [].
Qed.

Definition jump_and_close (i : nat) : T D unit :=
  let! q := gets search in
  do! match se_results q !! i with Some hit => search_jump hit | None => ret tt end in
  close_search.
Lemma ends_never {A} (Q : A → AppState D → Prop) (m : T D A) s : ends never Q m s → ends E Q m s.
Proof. unfold ends. destruct (m s) as [s' [a|e]]; [done|by intros [[] _]]. Qed.
Lemma jump_and_close_calm i s : ready (search_closed s) → calm E (jump_and_close i) s.
Proof.
  intros Hr. apply ends_never. unfold jump_and_close. apply ends_gets.
  assert (with_search (search s) (search_closed s) = s) as Hs by (by destruct s).
  assert (∀ s1, ready s1 → calm never close_search (with_search (search s) s1)) as Hclose.
  { intros s1 Hr1. split; [|done]. set (q := (search s) <| se_open := false |> <| se_rx := None |>).
    destruct (calm_set_search never (λ _, q) s1) as [Hr2 _]; [done|done|]. by apply (core_ready (with_search q s1)). }
  destruct (se_results (search s) !! i) as [hit|].
  - pose proof (calm_search_jump never hit _ Hr) as Hj. pose proof (search_jump_search hit (search s) (search_closed s)) as Heq.
    rewrite Hs in Heq. revert Hj. unfold calm, ends, bind. rewrite Heq.
    destruct (search_jump hit (search_closed s)) as [s1 [[]|e]]; cbn [fst snd]; [|by intros [[] _]].
    intros [Hr1 Hl]. apply Hclose in Hr1 as Hc. revert Hc. unfold calm, ends.
    destruct (close_search (with_search (search s) s1)) as [s2 [[]|e]]; intros [? Hl2];
      (split; [done|]); unfold later in *; cbn in *; lia.
  - specialize (Hclose _ Hr). by rewrite Hs in Hclose.
Qed.

(** After an action: the loop goes on only if a session is left. *)
Definition flows (f : Flow) s : Prop := ui_ok s ∧ (f = Continue → ready s).

Lemma flows_go (m : T D unit) s : calm E m s → ends E flows (do! m in ret Through) s.
Proof. intros Hm. eapply ends_seq; [exact Hm|]. intros [] s' [Hok _] _. by apply ends_ret. Qed.

Lemma commit_block_flows s : ready s → ends E flows (commit_block error_text) s.
Proof.
  intros Hr. unfold commit_block. apply ends_gets. cbv [id].
  destruct (lookup_lt_is_Some_2 _ _ (ready_active _ Hr)) as [sv Hsv]. rewrite Hsv.
  apply ends_tab_of; [by eapply ready_tab; [apply Hr|]|]. intros tab _. apply flows_go.
  destruct (focused_slot_idx _ _) as [i|] eqn:Hi; [|by apply ends_ret].
  apply ends_slot_at; [by eapply pane_to_slot_lt|]. intros slot. destruct (slot ≫= _); calm_auto.
Qed.
Lemma activate_item_flows i s : ready s → ends E flows (activate_item io error_text i) s.
Proof.
  intros Hr. unfold activate_item. apply ends_gets. destruct (context_menu s) as [m|] eqn:Hm; [|by apply ends_ret; split; [apply Hr|]].
  pose proof (ready_menu _ _ Hr Hm) as (?&?&_). apply ends_seq; [by apply calm_close_menu|]. intros [] s1 Hr1 Hl1.
  apply ends_at_index; [cbn; lia|]. intros item _.
  eapply ends_bind; [apply menu_action_ends; [done|by eapply later_lt]|]. intros quit s2 [Hok _] _.
  apply ends_ret. destruct quit; by split.
Qed.
Lemma run_pending_flows a s :
  (∀ i, a = SearchJump i → ready (search_closed s)) → ((∀ i, a ≠ SearchJump i) → ready s) →
  ends E flows (run_pending io error_text a) s.
Proof.
  intros Hj Hr. unfold run_pending. cbv zeta.
  destruct a; try (specialize (Hr ltac:(done))).
  - by apply commit_block_flows.
  - by apply activate_item_flows.
  - apply flows_go. auto using calm_warn with calm.
  - apply flows_go. auto using calm_warn with calm.
  - apply flows_go. calm_auto.
  - apply flows_go. eapply (jump_and_close_calm result). by eapply Hj.
Qed.

Lemma on_mouse_ends kind s :
  ready s → drawn s → ¬ dragging_boundary kind →
  ends E (unless (.= Break)) (on_mouse io error_text body col row kind) s.
Proof.
  intros Hr Hd Hk. unfold on_mouse. eapply ends_bind; [by apply handles_mouse|]. intros b s1 Hh Hl1.
  apply ends_gets. apply ends_modify; [done|]. change (s1 <| pending_menu_action := None |>) with (cleared s1).
  eapply (ends_bind E flows).
  - destruct (pending_menu_action s1) as [a|] eqn:Ha.
    + assert (pending_menu_action s1 ≠ None) as Hne by (by rewrite Ha). apply run_pending_flows.
      * intros i ->. destruct Hh as [(j & _ & Hj)|[_ Hc]]; [done|].
        specialize (Hc Hne). by destruct (calm_set_search never (λ q, q <| se_open := false |>) _ Hc) as [Hr2 _].
      * intros Hn. destruct Hh as [(j & Hj & _)|[_ Hc]]; [|by apply Hc].
        rewrite Ha in Hj. injection Hj as ->. by destruct (Hn j).
    + apply ends_ret. destruct Hh as [(j & Hj & _)|[Hok _]]; [by rewrite Ha in Hj|by split].
  - intros [] s2 [Hok Hf] _.
    + apply ends_ret. split; [done|]. intros _. by apply Hf.
    + apply ends_ret. split; [done|]. by intros [].
    + apply ends_no_sessions; [done| |]; intros Hs; apply ends_ret; (split; [done|]); [by intros []|done].
Qed.
End Mouse.

