(* ===== verification/TuiRuns.v ===== *)
(** * TuiRuns: runs of the event loop

    Every stage of a round - what arrived, the answers of background calls, the polls,
    the sessions of the daemon, the search for a live pane, the frame and the event -
    keeps the invariant of TuiInv, whatever the daemon answers. So a run of the loop
    ends without a panic, and with enough sessions it never ends before its rounds do. *)
From Stdlib Require Import Strings.Byte.
From S2P Require Import Prelude Proto Text Layout LayoutTree Libraries Effects Themes Server Client.
From S2P Require Import Tui TuiPanes TuiKeys TuiMouse TuiDraw TuiLoop TuiExample TuiInv TuiSafe.
Local Open Scope Z_scope.

(** ** A round of the loop *)
Section Loop.
Context `{UuidText, Alacritty, LayoutSolver} {D : Type} `{!PyreDaemon D}.
Context (io : Io) (error_text : RpcFailure → string).
Context (E : Stop → AppState D → Prop).
Implicit Types s : AppState D.

Lemma length_fold_alter {A B} (f : B → A → A) (g : B → nat) (es : list B) (sl : list A) :
  length (fold_left (λ sl e, alter (f e) (g e) sl) es sl) = length sl.
Proof. revert sl. induction es as [|e es IH]; intros sl; cbn; [done|]. by rewrite IH, length_alter. Qed.
Lemma calm_arrive rd s : ready s → calm E (arrive rd) s.
Proof.
  intros Hr. unfold arrive.
  match goal with |- calm _ (modify ?f) _ =>
    assert (length (slots (f s)) = length (slots s)) as Hlen; [|pose proof (ready_slots (slots (f s)) s Hr) as Hs] end.
  { cbn. etransitivity; eapply length_fold_alter. }
  destruct Hs as [Hr1 Hl]; [by rewrite Hlen|]. split; [|exact Hl].
  exact (core_ready _ _ eq_refl Hr1).
Qed.
Lemma calm_run_background s : ready s → calm E run_background s.
Proof.
  intros Hr. unfold run_background. apply ends_gets. apply ends_seq; [calm_auto|]. intros [] s1 Hr1 _.
  apply calm_for_each; [done|]. intros r s2 Hr2 _. destruct r; cbn [run_request]; calm_auto.
Qed.
Lemma ends_for_each {A} (I : AppState D → Prop) (f : A → T D unit) l s :
  I s → (∀ x s', I s' → ends E (λ _, I) (f x) s') → ends E (λ _, I) (for_each f l) s.
Proof.
  revert s. induction l as [|x l IH]; intros s HI Hf; cbn [for_each]; [by apply ends_ret|].
  eapply ends_bind; [by apply Hf|]. intros [] s' HI' _. by apply IH.
Qed.
Lemma drain_output_ends s : ready s → ends E (λ _, ui_ok) drain_output s.
Proof.
  intros Hr. unfold drain_output. apply ends_gets. unfold drain_slots. cbv zeta.
  apply ends_seq; [apply calm_modify; apply ready_slots; [done| |done|]; rewrite !length_fmap; lia|].
  intros [] s1 [Hok _] _. apply ends_for_each; [done|]. intros [i n] s2 Hok2. cbn [fst snd].
  destruct (n =? 0); by apply close_pane_ends.
Qed.

Lemma calm_drain_blocks o s : ready s → calm E (drain_blocks o) s.
Proof.
  intros Hr. unfold drain_blocks. destruct o; [|by apply ends_ret]. apply calm_slots; [done|]. rewrite length_map. lia.
Qed.
Lemma calm_drain_toasts ts s : ready s → calm E (drain_toasts ts) s.
Proof. intros Hr. by apply calm_same. Qed.
Lemma calm_search_debounce s : ready s → calm E search_debounce s.
Proof.
  intros Hr. unfold search_debounce. apply ends_gets. cbv [id]. destruct (se_pending_query (search s)); [|by apply ends_ret].
  destruct (_ && _); [|by apply ends_ret]. destruct (parse_search_input _) as [q b]. calm_auto. by apply calm_same.
Qed.
Lemma calm_drain_search b s : ready s → calm E (drain_search b) s.
Proof.
  intros Hr. unfold drain_search, on_search. apply calm_set_search; [done|]. pose proof (ready_search _ Hr) as Hs.
  destruct (se_rx (search s)) as [[hits|]|]; [|done..]. destruct b; [|done]. intros _. cbn. unfold const. lia.
Qed.
Lemma calm_poll_panes s : ready s → calm E poll_panes s.
Proof. intros Hr. unfold poll_panes. calm_auto. Qed.
#[local] Hint Resolve calm_arrive calm_run_background calm_drain_blocks calm_drain_toasts calm_search_debounce
  calm_drain_search calm_poll_panes : calm.

(** *** The sessions of the daemon *)
Lemma calm_try_attach session pane s : ready s → calm E (try_attach io session pane) s.
Proof.
  intros Hr. pose proof (calm_attach_pane session pane (inner_size io).1 (inner_size io).2 s Hr) as Ha.
  revert Ha. unfold calm, ends, try_attach. destruct (attach_pane _ _ _ _ s) as [s1 [slot|e]].
  - intros [Hr1 Hl1]. destruct (ready_slots (slots s1 ++ [Some slot]) s1 Hr1) as [Hr2 Hl2]; [rewrite length_app; lia|].
    split; [exact Hr2|]. by eapply later_trans.
  - by intros [[_ ?] ?].
Qed.
#[local] Hint Resolve calm_try_attach : calm.
Lemma calm_add_session sv s : ready s → tab_in_range sv → calm E (modify (λ s, s <| sessions ::= (.++ [sv]) |>)) s.
Proof. intros Hr Hsv. apply calm_modify; [|done]. by apply ready_add_session. Qed.
Lemma single_pane_in_range id name pane : tab_in_range (new_single_pane id name pane).
Proof. unfold tab_in_range. cbn. lia. Qed.
Lemma calm_adopt_session known info s : ready s → calm E (adopt_session io known info) s.
Proof. intros Hr. unfold adopt_session. calm_auto. apply calm_add_session; [done|apply single_pane_in_range]. Qed.
Lemma calm_attach_missing session pane s : ready s → calm E (attach_missing io session pane) s.
Proof. intros Hr. unfold attach_missing. calm_auto. Qed.
#[local] Hint Resolve calm_adopt_session calm_attach_missing : calm.
Lemma calm_fallback_tab i p s : ready s → calm E (fallback_tab i p) s.
Proof.
  intros Hr. unfold fallback_tab. calm_auto. apply calm_set_view; [done|]. intros sv _ Ht.
  unfold tab_in_range in *. cbn. rewrite length_app. cbn. lia.
Qed.
#[local] Hint Resolve calm_fallback_tab : calm.

(** A stage that also keeps the list of sessions. *)
Definition ids s : list SessionId := sv_id <$> sessions s.
Definition listed (l : list SessionId) s : Prop := ready s ∧ ids s = l.
Lemma ids_length s : length (ids s) = length (sessions s).
Proof. apply length_fmap. Qed.
Lemma ends_with {A} (E' : Stop → AppState D → Prop) (Q R : A → AppState D → Prop) (m : T D A) s :
  ends E' Q m s → (∀ a s', m s = (s', Ok a) → R a s') → ends E' (λ a s', Q a s' ∧ R a s') m s.
Proof. unfold ends. destruct (m s) as [s' [a|e]]; [|done]. intros [? ?] HR. split; [split; auto|done]. Qed.
Lemma calm_listed l (m : T D unit) s :
  calm E m s → ids s = l → (∀ a s', m s = (s', Ok a) → ids s' = ids s) → ends E (λ _, listed l) m s.
Proof.
  intros Hm Hl Hs. eapply ends_conseq; [apply (ends_with E _ (λ _ s', ids s' = ids s) _ _ Hm Hs)|].
  intros [] s' [? ?] _. split; [done|congruence].
Qed.

Lemma listed_on_control {A} l (m : M D RpcFailure A) s : listed l s → ends E (λ _, listed l) (on_control m) s.
Proof.
  intros [Hr Hn]. pose proof (calm_on_control E m s Hr) as Hc. revert Hc. unfold calm, ends, on_control.
  destruct (m (control s)) as [d r]. by intros [? ?].
Qed.
Lemma try_attach_sessions session pane s : sessions (try_attach io session pane s).1 = sessions s.
Proof.
  unfold try_attach, attach_pane, call_daemon. destruct (attach_slot _ _ _ _ _) as [d r]. by destruct r.
Qed.
Lemma listed_attach_missing l session pane s :
  listed l s → ends E (λ _, listed l) (attach_missing io session pane) s.
Proof.
  intros [Hr Hn]. apply calm_listed; [by apply calm_attach_missing|done|]. intros [] s'.
  unfold attach_missing, bind, gets, ret. destruct (pane_to_slot_idx _ _); [by intros [= <-]|].
  pose proof (try_attach_sessions session pane s) as Ht. unfold ids. destruct (try_attach _ _ _ _) as [s1 [|]]; [|done].
  intros [= <-]. by rewrite <-Ht.
Qed.
Lemma ids_alter (f : SessionView → SessionView) i (ss : list SessionView) :
  (∀ sv, sv_id (f sv) = sv_id sv) → sv_id <$> alter f i ss = sv_id <$> ss.
Proof. apply fmap_alter_same. Qed.
Lemma listed_fallback_tab l i p s : listed l s → ends E (λ _, listed l) (fallback_tab i p) s.
Proof.
  intros [Hr Hn]. apply calm_listed; [by apply calm_fallback_tab|done|]. intros [] s'.
  unfold fallback_tab, bind, gets, ret. destruct (pane_to_slot_idx _ _); intros [= <-]; [|done].
  by apply ids_alter.
Qed.
Lemma listed_lt l s (i : nat) : listed l s → (i < length l)%nat → (i < length (sessions s))%nat.
Proof. intros [_ <-]. by rewrite ids_length. Qed.

Lemma listed_show_new_panes l session i ps s :
  listed l s → (i < length l)%nat → ends E (λ _, listed l) (show_new_panes io session i ps) s.
Proof.
  intros Hm Hi. unfold show_new_panes. eapply ends_bind; [by apply listed_on_control|]. intros fresh s1 Hm1 _.
  eapply ends_bind; [apply (ends_for_each (listed l)); [done|]; intros; by apply listed_attach_missing|].
  intros [] s2 Hm2 _. destruct fresh as [layout|e].
  - pose proof (listed_lt _ _ _ Hm2 Hi) as Hi2. destruct Hm2 as [Hr2 Hn2].
    apply ends_session_at; [apply Hr2|done|]. intros sv Hsv Ht. apply ends_tab_of; [done|]. intros tab _.
    apply calm_listed; [by apply calm_set_tab|done|]. intros [] s' [= <-]. by apply ids_alter.
  - apply (ends_for_each (listed l)); [done|]. intros. by apply listed_fallback_tab.
Qed.

Lemma length_drop_all (sl : Slots) (js : list nat) : length (fold_left (λ sl i, <[i := None]> sl) js sl) = length sl.
Proof. revert sl. induction js as [|j js IH]; intros sl; cbn; [done|]. rewrite IH. apply length_insert. Qed.
Lemma listed_drop_slots l i ds s : listed l s → (i < length l)%nat → ends E (λ _, listed l) (drop_slots i ds) s.
Proof.
  intros Hm Hi. pose proof (listed_lt _ _ _ Hm Hi) as Hi1. destruct Hm as [Hr Hn].
  unfold drop_slots. apply ends_session_at; [apply Hr|done|]. intros sv _ _.
  match goal with |- ends _ _ (modify ?f) _ => assert (length (slots (f s)) = length (slots s)) as Hlen end.
  { apply length_drop_all. }
  match goal with |- ends _ _ (modify ?f) _ =>
    destruct (ready_slots (slots (f s)) s Hr) as [Hr1 Hl1]; [by rewrite Hlen|] end.
  by split.
Qed.
Lemma listed_sync_session l info s : listed l s → ends E (λ _, listed l) (sync_session io info) s.
Proof.
  intros Hm. pose proof Hm as [Hr Hn]. unfold sync_session. apply ends_gets.
  destruct (position _ _) as [i|] eqn:Hp; [|by apply ends_ret].
  apply position_Some in Hp as (sv0 & Hi%lookup_lt_Some & _).
  apply ends_session_at; [apply Hr|done|]. intros sv _ _. rewrite <-ids_length, Hn in Hi.
  eapply ends_bind; [by apply listed_on_control|]. intros [ps|e] s1 Hm1 _; [|by apply ends_ret]. cbv zeta.
  eapply (ends_bind E (λ _, listed l)); [|intros [] s2 Hm2 _; by apply listed_drop_slots].
  case_decide; [by apply ends_ret|by apply listed_show_new_panes].
Qed.

Lemma restore_in_range ss a prev : ss ≠ [] → (restore_active_session ss a prev < length ss)%nat.
Proof.
  intros Hne. assert (length ss ≠ 0%nat) by by destruct ss. unfold restore_active_session.
  destruct prev as [id|]; [|case_decide; [lia|]; destruct (decide (length ss ≤ a)%nat); [tauto|lia]].
  destruct (position _ ss) as [i|] eqn:Hp; [|case_decide; [done|lia]].
  apply position_Some in Hp as (sv & Hi & _). by eapply lookup_lt_Some.
Qed.
(** The sessions adopted are some of those that have panes and were not known. *)
Definition adoptable (known : list SessionId) (infos : list SessionInfo) : list SessionId :=
  si_id <$> filter (λ i, ¬ (si_pane_count i = 0 ∨ si_id i ∈ known)) infos.
Lemma adopt_ids known info s :
  ready s →
  ends E (λ _ s', ready s' ∧ ∃ a, sublist a (adoptable known [info]) ∧ ids s' = ids s ++ a) (adopt_session io known info) s.
Proof.
  intros Hr. apply ends_with; [by apply calm_adopt_session|]. intros [] s'.
  unfold adopt_session, adoptable. rewrite filter_cons, filter_nil. destruct (decide (si_pane_count info = 0 ∨ si_id info ∈ known)) as [Hk|Hk].
  { intros [= <-]. exists []. rewrite app_nil_r. split; [apply sublist_nil_l|done]. }
  rewrite decide_True by done.
  assert (∀ s1, ids s1 = ids s → ∃ a, sublist a [si_id info] ∧ ids s1 = ids s ++ a) as Hnone.
  { intros s1 ->. exists []. rewrite app_nil_r. split; [apply sublist_nil_l|done]. }
  unfold bind, on_control, gets, ret. destruct (list_panes (si_id info) (control s)) as [d [[|p ps]|e]].
  - intros [= <-]. by apply Hnone.
  - pose proof (try_attach_sessions (si_id info) (pi_id p) (s <| control := d |>)) as Ht.
    destruct (try_attach _ _ _ _) as [s1 [[]|]]; intros [= <-]; cbn in Ht.
    + exists [si_id info]. split; [done|]. unfold ids. cbn. by rewrite fmap_app, Ht.
    + apply Hnone. unfold ids. by rewrite Ht.
  - intros [= <-]. by apply Hnone.
Qed.
Lemma adopt_all_ids known infos s :
  ready s →
  ends E (λ _ s', ready s' ∧ ∃ a, sublist a (adoptable known infos) ∧ ids s' = ids s ++ a)
    (for_each (adopt_session io known) infos) s.
Proof.
  revert s. induction infos as [|info infos IH]; intros s Hr; cbn [for_each].
  { apply ends_ret. split; [done|]. exists []. by rewrite app_nil_r. }
  eapply ends_bind; [by apply adopt_ids|]. intros [] s1 (Hr1 & a1 & Ha1 & Hs1) _.
  eapply ends_conseq; [by apply IH|]. intros [] s2 (Hr2 & a2 & Ha2 & Hs2) _. split; [done|].
  exists (a1 ++ a2). rewrite Hs2, Hs1, app_assoc. split; [|done].
  replace (adoptable known (info :: infos)) with (adoptable known [info] ++ adoptable known infos).
  - by apply sublist_app.
  - unfold adoptable. by rewrite <-fmap_app, <-filter_app.
Qed.

Lemma restore_keeps ss a id :
  id ∈ sv_id <$> ss → ∃ sv, ss !! restore_active_session ss a (Some id) = Some sv ∧ sv_id sv = id.
Proof.
  intros (sv & -> & Hsv)%list_elem_of_fmap. unfold restore_active_session.
  destruct (position _ ss) as [i|] eqn:Hp.
  - apply position_Some in Hp as (sv' & Hi & Hid%bool_decide_eq_true & _). by exists sv'.
  - apply position_None in Hp. rewrite Forall_forall in Hp. specialize (Hp sv Hsv). by apply bool_decide_eq_false in Hp.
Qed.
Lemma filter_ids (P : SessionId → Prop) `{∀ i, Decision (P i)} (ss : list SessionView) :
  sv_id <$> filter (λ sv, P (sv_id sv)) ss = filter P (sv_id <$> ss).
Proof.
  induction ss as [|sv ss IH]; [done|]. rewrite fmap_cons, !filter_cons. case_decide; [rewrite fmap_cons|]; by rewrite IH.
Qed.

(** Afterwards the sessions are those known before that the daemon still lists, in
    their order, and the adopted ones; the one that was shown is still shown. *)
Definition followed (infos : list SessionInfo) s s' : Prop :=
  (∃ adopted, sublist adopted (adoptable (ids s) infos) ∧
     ids s' = filter (λ i, i ∈ si_id <$> infos) (ids s) ++ adopted) ∧
  (∀ sv, sessions s !! active_session s = Some sv → sv_id sv ∈ si_id <$> infos →
     ∃ sv', sessions s' !! active_session s' = Some sv' ∧ sv_id sv' = sv_id sv).

Lemma adoptable_listed known infos a : sublist a (adoptable known infos) → filter (λ i, i ∈ si_id <$> infos) a = a.
Proof.
  intros Ha. induction a as [|i a IH]; [done|]. assert (i ∈ si_id <$> infos) as Hi.
  { assert (i ∈ adoptable known infos) as Hin by (eapply elem_of_submseteq; [by left|by apply sublist_submseteq]).
    unfold adoptable in Hin. apply list_elem_of_fmap in Hin as (info & -> & [_ Hin]%list_elem_of_filter).
    by apply list_elem_of_fmap_2. }
  rewrite filter_cons_True by done. f_equal. apply IH. etransitivity; [|exact Ha]. by apply sublist_cons.
Qed.

Lemma follow_daemon_ends infos s :
  ready s → ends E (λ _ s', ui_ok s' ∧ followed infos s s') (follow_daemon io infos) s.
Proof.
  intros Hr. unfold follow_daemon. apply ends_gets. cbv [id]. cbv zeta.
  eapply ends_bind; [by apply adopt_all_ids|]. intros [] s1 (Hr1 & a & Ha & Hs1) _.
  eapply ends_bind; [apply (ends_for_each (listed (ids s1))); [done|]; intros; by apply listed_sync_session|].
  intros [] s2 [[[Ht Hok]%ui_ok_tabs _] Hs2] _. split; [|done].
  set (ss := filter (λ sv, sv_id sv ∈ si_id <$> infos) (sessions s2)).
  assert (sv_id <$> ss = filter (λ i, i ∈ si_id <$> infos) (ids s) ++ a) as Hids.
  { unfold ss. etransitivity; [exact (filter_ids (λ i, i ∈ si_id <$> infos) (sessions s2))|]. change (sv_id <$> sessions s2) with (ids s2).
    rewrite Hs2, Hs1, filter_app. f_equal. by eapply adoptable_listed. }
  split; [|split; [by exists a|]].
  - eapply core_ok'; [|eapply (ui_ok_sessions ss); [exact Hok| |]].
    + reflexivity.
    + rewrite Forall_forall in Ht |- *. intros sv [_ Hin]%list_elem_of_filter. by apply Ht.
    + intros Hne. by apply restore_in_range.
  - intros sv Hsv Hin. change (∃ sv', ss !! restore_active_session ss (active_session s2) (sv_id <$> sessions s !! active_session s) = Some sv' ∧ sv_id sv' = sv_id sv).
    rewrite Hsv. apply restore_keeps. rewrite Hids. apply elem_of_app. left. apply list_elem_of_filter. split; [done|].
    apply list_elem_of_fmap_2. by eapply list_elem_of_lookup_2.
Qed.
Lemma sync_sessions_ends s : ready s → ends E (λ _, ui_ok) (sync_sessions io) s.
Proof.
  intros Hr. unfold sync_sessions. apply ends_gets. cbv [id]. destruct (_ <=? _); [|apply ends_ret, Hr].
  apply ends_seq; [by apply calm_same|]. intros [] s1 Hr1 _. apply ends_seq; [by apply calm_on_control|].
  intros r s2 Hr2 _.
  destruct r as [infos|[|r]].
  - eapply ends_bind; [by apply follow_daemon_ends|]. intros [] s3 [Hok3 _] _. by apply ends_ret.
  - apply ends_seq; [by apply calm_same|]. intros [] s3 [Hok3 _] _. by apply ends_ret.
  - apply ends_seq; [by apply calm_same|]. intros [] s3 [Hok3 _] _. by apply ends_ret.
Qed.
Lemma polls_ends rd s : ready s → ends E (λ _, ui_ok) (polls io rd) s.
Proof.
  intros Hr. unfold polls. do 6 (apply ends_seq; [by auto with calm|intros [] ? ? _]). by apply sync_sessions_ends.
Qed.

(** *** The frame *)
Lemma calm_resync_layout s : ready s → calm E (resync_layout io) s.
Proof.
  intros Hr. unfold resync_layout. apply ends_gets. cbv [id]. destruct (_ <=? _); [|by apply ends_ret].
  apply ends_seq; [by apply calm_same|]. intros [] s1 Hr1 _. apply ends_active_view; [done|]. intros sv _ Ht.
  apply ends_tab_of; [done|]. intros tab _. apply ends_seq; [unfold fetch_layout; calm_auto|].
  intros [layout|e] s2 Hr2 _; [|by apply ends_ret]. apply ends_gets. cbv zeta.
  apply ends_seq; [apply calm_for_each; [done|]; intros; calm_auto|]. intros [] s3 Hr3 _. calm_auto.
Qed.
Lemma calm_detect_lost s : ready s → calm E detect_lost s.
Proof.
  intros Hr. unfold detect_lost. apply ends_active_view; [done|]. intros sv Hsv Ht.
  apply ends_tab_of; [done|]. intros tab _. apply ends_gets. cbv [id]. cbv zeta.
  destruct (tab_live _ _); [by apply calm_same|]. destruct (session_lost s); [by apply ends_ret|].
  destruct (find_first _ (imap pair (sv_tabs sv))) as [[ti t]|] eqn:Hf.
  - apply find_first_Some in Hf as [(k & Hk)%list_elem_of_lookup _].
    rewrite list_lookup_imap, fmap_Some in Hk. destruct Hk as (t' & Hk%lookup_lt_Some & [= -> _]).
    apply ends_seq; [|intros [] s1 Hr1 _; by apply calm_same]. apply calm_set_view; [done|].
    intros sv' Hsv' _. assert (sv' = sv) as -> by congruence. exact Hk.
  - destruct (find_first _ (imap pair (sessions s))) as [[j t]|] eqn:Hg; [|by apply calm_same].
    apply find_first_Some in Hg as [(k & Hk)%list_elem_of_lookup _].
    rewrite list_lookup_imap, fmap_Some in Hk. destruct Hk as (t' & Hk%lookup_lt_Some & [= -> _]).
    destruct (calm_set_active E k s Hr Hk) as [Hr1 Hl1]. split; [|done].
    by apply (core_ready (s <| active_session := k |>)).
Qed.
Lemma show_ends rd s :
  ready s → ends E (λ _ s', ready s' ∧ (session_lost s' = false → drawn s')) (show io rd) s.
Proof.
  intros Hr. unfold show. apply ends_seq; [by apply calm_resync_layout|]. intros [] s1 Hr1 _.
  apply ends_seq; [by apply calm_detect_lost|]. intros [] s2 Hr2 _.
  eapply (ends_bind E (λ _ s', ready s' ∧ (session_lost s' = false → drawn s'))).
  - by apply draw_frame_ends.
  - intros [] s3 [Hr3 Hd3] _. split; [|done]. split; [by apply (core_ready s3)|exact Hd3].
Qed.

(** *** One round *)
Definition shown s : Prop := ready s ∧ (session_lost s = false → drawn s).
Lemma until_event_ends rd lv s :
  ready s → ends E (λ r s', ui_ok s' ∧ (r.2 = false → shown s')) (until_event io rd lv) s.
Proof.
  intros Hr. unfold until_event. apply ends_seq; [by apply calm_arrive|]. intros [] s1 Hr1 _.
  apply ends_seq; [destruct (rd_background rd); [by apply calm_run_background|by apply ends_ret]|]. intros [] s2 Hr2 _.
  eapply ends_bind; [by apply drain_output_ends|]. intros [] s3 Hok3 _.
  apply ends_no_sessions; [done|intros _; by apply ends_ret|]. intros Hr3.
  eapply ends_bind; [by apply polls_ends|]. intros unreachable s4 Hok4 _. cbv zeta.
  apply ends_no_sessions; [done|intros _; by apply ends_ret|]. intros Hr4.
  eapply ends_bind; [by apply show_ends|]. intros [] s5 Hs5 _. apply ends_ret. by split; [apply Hs5|].
Qed.

(** The mouse is used on a screen that was drawn, and not to drag the boundary of a split. *)
Definition harmless (e : Event) s : Prop :=
  match e with
  | EvMouse me => session_lost s = false ∧ ¬ dragging_boundary (me_row me) (me_kind me)
  | _ => True
  end.
Definition breaks {A} (r : A * Flow) : Prop := r.2 = Break.

Lemma on_event_ends body prefix e s :
  shown s → harmless e s → ends E (unless breaks) (on_event io error_text body prefix e) s.
Proof.
  intros [Hr Hd] He. destruct e as [me|code mods|text|cols rows|]; cbn [on_event].
  - destruct He as [Hl Hb]. eapply ends_bind; [by apply on_mouse_ends; auto|].
    intros flow s1 Hu _. by apply ends_ret.
  - eapply ends_bind; [by apply handle_key_ends|]. intros [prefix' k] s1 [Hok Hq] _. apply ends_ret.
    split; [done|]. intros Hb. apply Hq. intros Hk. apply Hb. unfold breaks. cbn. by destruct k.
  - apply ends_seq; [by apply calm_send_focused|]. intros [] s1 Hr1 _. by apply unless_ret.
  - by apply unless_ret.
  - by apply unless_ret.
Qed.
Lemma round_ends rd lv s :
  ready s →
  (∀ e, rd_event rd = Some e → harmless e (until_event io rd lv s).1) →
  ends E (unless breaks) (round io error_text rd lv) s.
Proof.
  intros Hr He. pose proof (until_event_ends rd lv s Hr) as Hu. unfold round. revert Hu. unfold ends at 1.
  destruct (until_event io rd lv s) as [s1 [[lv1 gone]|e]] eqn:Heq.
  2: { intros [? ?]. unfold ends, bind. by rewrite Heq. }
  intros [[Hok Hs1] Hl]. eapply (ends_bind E (λ r s', r = (lv1, gone) ∧ s' = s1)).
  { unfold ends. by rewrite Heq. }
  intros r s' [-> ->] _. destruct gone; [by apply ends_ret; split; [|intros []]|]. cbn in He.
  specialize (Hs1 eq_refl). destruct (rd_event rd) as [e|]; [|apply unless_ret, Hs1].
  eapply ends_bind; [apply on_event_ends; [done|by apply He]|].
  intros [[prefix detach] flow] s2 Hq _. by apply ends_ret.
Qed.
End Loop.

(** ** Runs *)
Section Runs.
Context `{UuidText, Alacritty, LayoutSolver} {D : Type} `{!PyreDaemon D}.
Context (io : Io) (error_text : RpcFailure → string).
Implicit Types s : AppState D.

(** Every event of the run is harmless in the state it finds. *)
Fixpoint gentle (rds : list Round) (lv : LoopVars) s : Prop :=
  match rds with
  | [] => True
  | rd :: rds' =>
      (∀ e, rd_event rd = Some e → harmless e (until_event io rd lv s).1) ∧
      match round io error_text rd lv s with
      | (s', Ok (lv', flow)) => flow ≠ Break → gentle rds' lv' s'
      | _ => True
      end
  end.
Definition keyboard_only (rd : Round) : Prop :=
  match rd_event rd with Some (EvMouse _) => False | _ => True end.

Lemma keyboard_gentle rds lv s : Forall keyboard_only rds → gentle rds lv s.
Proof.
  revert lv s. induction rds as [|rd rds IH]; intros lv s Hk; [done|]. apply Forall_cons in Hk as [Hk Hrest].
  split.
  - intros e He. unfold keyboard_only in Hk. rewrite He in Hk. by destruct e.
  - repeat case_match; auto.
Qed.

Lemma run_loop_ends rds lv s :
  ready s → gentle rds lv s → ends never (λ _, ui_ok) (run_loop io error_text rds lv) s.
Proof.
  revert lv s. induction rds as [|rd rds IH]; intros lv s Hr Hg; [apply ends_ret, Hr|].
  destruct Hg as [He Hg]. pose proof (round_ends io error_text never rd lv s Hr He) as Hround. cbn [run_loop].
  revert Hround. unfold ends at 1. destruct (round io error_text rd lv s) as [s1 [[lv1 flow]|e]] eqn:Heq; [|by intros [[] _]].
  intros [[Hok Hb] Hl]. eapply (ends_bind never (λ r s', r = (lv1, flow) ∧ s' = s1)).
  { unfold ends. by rewrite Heq. }
  intros r s' [-> ->] _. destruct flow; [|by apply ends_ret|].
  all: apply IH; [by apply Hb|by apply Hg].
Qed.

Lemma initial_ready now session name slot (control : D) sh th deck :
  ready (initial_app_state now session name slot control sh th deck).
Proof.
  split; [|done]. split; cbn; try done.
  - repeat constructor.
  - intros _. lia.
Qed.
Lemma calm_discover_sessions session s : ready s → calm never (discover_sessions io session) s.
Proof.
  intros Hr. unfold discover_sessions. apply ends_seq; [by apply calm_on_control|].
  intros [infos|e] s1 Hr1 _; [|by apply ends_ret].
  apply ends_seq; [|intros [] s2 Hr2 _; by apply calm_same]. apply calm_for_each; [done|].
  intros info s2 Hr2 _. unfold discover. case_decide; [by apply ends_ret|].
  apply ends_seq; [by apply calm_on_control|]. intros [[|p ps]|e] s3 Hr3 _; try by apply ends_ret.
  apply ends_seq; [by apply calm_try_attach|]. intros [] s4 Hr4 _; [|by apply ends_ret].
  apply ends_seq; [by apply calm_on_control|]. intros r s5 Hr5 _.
  apply ends_seq; [|intros [] s6 Hr6 _; apply calm_add_session; [done|apply single_pane_in_range]].
  destruct r as [r|e]; [|by apply calm_same]. cbv beta. destruct (decide (rb_recent r = [])); [by apply calm_same|].
  by apply (calm_set_slot never (length (slots s5) - 1)).
Qed.

Lemma start_ready now sh th deck first d : ready (start_tui io now sh th deck first d).
Proof.
  destruct first as [[session name] slot]. unfold start_tui.
  pose proof (calm_discover_sessions session _ (initial_ready now session name slot d sh th deck)) as Hc. revert Hc.
  unfold calm, ends. destruct (discover_sessions _ _ _) as [s [[]|e]]; [by intros [? _]|by intros [[] _]].
Qed.
End Runs.




Section Example.
#[local] Existing Instances binary_uuid blank_screen whole_area lone_daemon.

Example detaching_detaches :
  match run_tui plain_io no_text 0 (Existing (MkSessionId 1) "work" (MkPaneId 2)) None ember quiet_deck detaching 0%nat with
  | Ok (_, Ok lv) => farewell lv | _ => SaidNothing end = SaidDetached.
Proof. vm_compute. reflexivity. Qed.

End Example.
