(* ===== verification/TuiInput.v ===== *)
(** * TuiInput: what is typed reaches the pane, what it prints reaches its terminal

    The two channels between a pane's slot and its stream, as a sequence of steps of
    their tasks, of the loop and of the frame: bytes are neither lost nor reordered in
    either direction as long as the channel to the loop is not full. *)
From Stdlib Require Import Strings.Byte.
From S2P Require Import Prelude Proto Text Layout Libraries Effects Themes Server Client.
From S2P Require Import Tui TuiPanes TuiKeys TuiMouse TuiDraw TuiLoop TuiExample TuiInv.
Local Open Scope Z_scope.

(** ** Steps of a slot *)
Section Slot.
Context `{UuidText, Alacritty, LayoutSolver}.
Implicit Types slot : PaneSlot.

Inductive SlotStep :=
  | Decoded (frame : option Bytes)    (** the reading task: a frame, or the end *)
  | Drained                           (** the loop takes what is queued *)
  | Rendered (area : Rect)            (** a frame shows the pane *)
  | Typed (bytes : Bytes)             (** a key, a paste *)
  | Written.                          (** the writing task *)

Definition slot_step (st : SlotStep) slot : PaneSlot :=
  match st with
  | Decoded frame => slot <| sl_link ::= net_task frame |>
  | Drained => (drain_events (lk_rx (sl_link slot)) slot).1
  | Rendered area => (render_pane area slot).1
  | Typed bytes => slot <| sl_link ::= key_send bytes |>
  | Written => slot <| sl_link ::= key_task true |>
  end.
Definition slot_steps (sts : list SlotStep) slot : PaneSlot := fold_left (λ s st, slot_step st s) sts slot.

(** *** Towards the terminal *)
Definition term_bytes (t : Term) : Bytes := flat_map (λ o, match o with Advance d => d | Resize _ _ => [] end) (tm_ops t).
Definition event_bytes (e : StreamEvent) : Bytes := match e with Output d => d | StreamClosed _ => [] end.

(** In the terminal, waiting for the first frame, queued for the loop. *)
Definition received slot : Bytes :=
  term_bytes (sl_term slot) ++ sl_pending_output slot ++ flat_map event_bytes (lk_rx (sl_link slot)).

(** What the reading task decodes until the stream ends. *)
Fixpoint decoded (sts : list SlotStep) : Bytes :=
  match sts with
  | [] => []
  | Decoded (Some d) :: sts' => d ++ decoded sts'
  | Decoded None :: _ => []
  | _ :: sts' => decoded sts'
  end.
(** The channel to the loop has room whenever the reading task uses it. *)
Fixpoint keeps_up (sts : list SlotStep) slot : Prop :=
  match sts with
  | [] => True
  | st :: sts' =>
      match st with Decoded _ => (length (lk_rx (sl_link slot)) < NET_CAP)%nat | _ => True end ∧
      keeps_up sts' (slot_step st slot)
  end.

(** Output waits only until the first frame. *)
Definition slot_ok slot : Prop := sl_parser_sized slot = true → sl_pending_output slot = [].

(** The parts of a slot the output does not touch. *)
Definition same_link (l l' : Link) : Prop :=
  lk_session l' = lk_session l ∧ lk_frames l' = lk_frames l ∧ lk_reading l' = lk_reading l.

Lemma same_link_trans l1 l2 l3 : same_link l1 l2 → same_link l2 l3 → same_link l1 l3.
Proof. intros (?&?&?) (?&?&?). repeat split; congruence. Qed.
Lemma term_bytes_advance d t : term_bytes (advance d t) = term_bytes t ++ d.
Proof. unfold term_bytes, advance. cbn. rewrite flat_map_app. cbn. by rewrite app_nil_r. Qed.
Lemma term_bytes_resize c r t : term_bytes (term_resize c r t) = term_bytes t.
Proof. unfold term_bytes, term_resize. cbn. rewrite flat_map_app. cbn. by rewrite app_nil_r. Qed.

(** What the terminal has and will have of what was taken from the queue. *)
Definition taken slot : Bytes := term_bytes (sl_term slot) ++ sl_pending_output slot.

Lemma process_output_taken d slot : slot_ok slot → taken (process_output d slot) = taken slot ++ d ∧ slot_ok (process_output d slot).
Proof.
  intros Hok. unfold process_output. destruct (sl_parser_sized slot) eqn:Hs.
  - split; [|exact Hok]. unfold taken, feed. cbn [sl_term sl_pending_output].
    change (term_bytes (advance d (sl_term slot)) ++ sl_pending_output slot = (term_bytes (sl_term slot) ++ sl_pending_output slot) ++ d).
    rewrite (Hok Hs), term_bytes_advance, !app_nil_r. done.
  - split; [unfold taken; cbn; by rewrite app_assoc|]. intros Hs'. cbn in Hs'. congruence.
Qed.
Lemma process_output_link d slot : sl_link (process_output d slot) = sl_link slot.
Proof. unfold process_output. by destruct (sl_parser_sized slot). Qed.

Lemma key_try_send_link b l : same_link l (key_try_send b l) ∧ lk_rx (key_try_send b l) = lk_rx l.
Proof. unfold key_try_send. by destruct (_ && _). Qed.

Lemma drain_events_taken evs slot :
  slot_ok slot →
  let slot' := (drain_events evs slot).1 in
  received slot' = taken slot ++ flat_map event_bytes evs ∧ slot_ok slot' ∧ same_link (sl_link slot) (sl_link slot').
Proof.
  revert slot. induction evs as [|[d|n] evs IH]; intros slot Hok; cbn [drain_events].
  - unfold received, taken. cbn. by rewrite !app_nil_r.
  - pose (s0 := slot <| sl_frames_received ::= λ n, wrap_u64 (n + 1) |>).
    destruct (process_output_taken d s0 Hok) as [Ht Ho]. pose proof (process_output_link d s0) as Hl.
    change (taken s0) with (taken slot) in Ht. change (sl_link s0) with (sl_link slot) in Hl.
    fold s0. destruct (drain_pty_responses (process_output d s0)) as [s1 rs] eqn:Hd.
    injection Hd as <- <-. cbv zeta. case_decide as Hr.
    + match goal with |- context [drain_events evs ?s] => destruct (IH s) as (-> & Hok' & Hs); [exact Ho|] end.
      split; [|split; [done|]]. { cbn [flat_map event_bytes]. rewrite app_assoc. f_equal. exact Ht. }
      by rewrite <-Hl.
    + match goal with |- context [drain_events evs ?s] => destruct (IH s) as (-> & Hok' & Hs); [exact Ho|] end.
      split; [|split; [done|]]. { cbn [flat_map event_bytes]. rewrite app_assoc. f_equal. exact Ht. }
      rewrite <-Hl. eapply same_link_trans; [apply key_try_send_link|exact Hs].
  - unfold received, taken. cbn. by rewrite <-app_assoc.
Qed.

Lemma fit_terminal_taken area slot :
  slot_ok slot → taken (fit_terminal area slot) = taken slot ∧ slot_ok (fit_terminal area slot) ∧
                 sl_link (fit_terminal area slot) = sl_link slot.
Proof.
  intros Hok. unfold fit_terminal. cbv zeta. match goal with |- context [sl_parser_sized ?s] => set (s1 := s) end.
  assert (taken s1 = taken slot ∧ slot_ok s1 ∧ sl_link s1 = sl_link slot) as (Ht & Ho & Hl).
  { unfold s1. case_decide; [done|]. destruct (_ && _); [|done].
    split; [|done]. unfold taken. f_equal. apply (term_bytes_resize (rw area) (rh area) (sl_term slot)). }
  clearbody s1. destruct (sl_parser_sized s1) eqn:Hs; [exact (conj Ht (conj Ho Hl))|]. case_decide as Hp.
  - split; [exact Ht|]. split; [by intros _|exact Hl].
  - split; [|split; [by intros _|exact Hl]]. rewrite <-Ht. unfold taken.
    change (term_bytes (advance (sl_pending_output s1) (sl_term s1)) ++ [] = term_bytes (sl_term s1) ++ sl_pending_output s1).
    by rewrite term_bytes_advance, app_nil_r.
Qed.

Lemma render_pane_taken area slot :
  slot_ok slot → let slot' := (render_pane area slot).1 in
  taken slot' = taken slot ∧ slot_ok slot' ∧ sl_link slot' = sl_link slot.
Proof.
  intros Hok. unfold render_pane. cbv zeta. destruct (_ || _); [done|]. destruct (split2 _ _ _ _) as [content ribbon].
  match goal with |- context [fit_terminal ?a ?s] => apply (fit_terminal_taken a s Hok) end.
Qed.

Lemma key_send_link b l : same_link l (key_send b l) ∧ lk_rx (key_send b l) = lk_rx l.
Proof.
  unfold key_send, key_task. cbv zeta.
  repeat case_match; done.
Qed.
Lemma key_task_link ok l : same_link l (key_task ok l) ∧ lk_rx (key_task ok l) = lk_rx l.
Proof. unfold key_task. repeat case_match; done. Qed.

Lemma net_task_rx frame l :
  lk_reading l = true → (length (lk_rx l) < NET_CAP)%nat →
  lk_rx (net_task frame l) = lk_rx l ++ [match frame with Some d => Output d | None => StreamClosed (lk_frames l) end] ∧
  lk_reading (net_task frame l) = bool_decide (is_Some frame).
Proof.
  intros Hr Hl%Nat.ltb_lt. unfold net_task, net_try_send. rewrite Hr.
  destruct frame; (replace (length _ <? NET_CAP)%nat with true by (symmetry; exact Hl)); cbn; by rewrite ?Hr.
Qed.
Lemma slot_link_id f slot : f (sl_link slot) = sl_link slot → slot <| sl_link ::= f |> = slot.
Proof. destruct slot. cbn. intros Hf. unfold set. cbn. by rewrite Hf. Qed.
Lemma received_link f slot es :
  lk_rx (f (sl_link slot)) = lk_rx (sl_link slot) ++ es →
  received (slot <| sl_link ::= f |>) = received slot ++ flat_map event_bytes es.
Proof.
  intros Hf. unfold received.
  change (term_bytes (sl_term slot) ++ sl_pending_output slot ++ flat_map event_bytes (lk_rx (f (sl_link slot)))
          = (term_bytes (sl_term slot) ++ sl_pending_output slot ++ flat_map event_bytes (lk_rx (sl_link slot))) ++ flat_map event_bytes es).
  by rewrite Hf, flat_map_app, !app_assoc.
Qed.

Lemma slot_step_received st slot :
  slot_ok slot →
  match st with Decoded _ => (length (lk_rx (sl_link slot)) < NET_CAP)%nat | _ => True end →
  received (slot_step st slot)
  = received slot ++ match st with Decoded (Some d) => if lk_reading (sl_link slot) then d else [] | _ => [] end ∧
  slot_ok (slot_step st slot) ∧
  lk_reading (sl_link (slot_step st slot))
  = match st with Decoded None => false | _ => lk_reading (sl_link slot) end.
Proof.
  intros Hok Hroom. destruct st as [frame| |area|b|]; cbn [slot_step].
  - destruct (lk_reading (sl_link slot)) eqn:Hr.
    + destruct (net_task_rx frame (sl_link slot) Hr Hroom) as [Hx Hr'].
      rewrite (received_link _ _ _ Hx). split; [by destruct frame; cbn; rewrite ?app_nil_r|]. split; [exact Hok|].
      etransitivity; [exact Hr'|by destruct frame].
    + assert (slot <| sl_link ::= net_task frame |> = slot) as ->.
      { apply slot_link_id. unfold net_task. by rewrite Hr. }
      rewrite Hr. by destruct frame; rewrite app_nil_r.
  - destruct (drain_events_taken (lk_rx (sl_link slot)) slot Hok) as (-> & ? & (_&_&->)).
    split; [|done]. unfold received, taken. by rewrite app_nil_r, app_assoc.
  - destruct (render_pane_taken area slot Hok) as (Ht & Ho & Hl). rewrite Hl.
    split; [|done]. unfold received. rewrite Hl, app_nil_r. rewrite !app_assoc. f_equal. exact Ht.
  - destruct (key_send_link b (sl_link slot)) as [(_&_&Hr) Hx]. unfold received. cbn. by rewrite Hx, Hr, app_nil_r.
  - destruct (key_task_link true (sl_link slot)) as [(_&_&Hr) Hx]. unfold received. cbn. by rewrite Hx, Hr, app_nil_r.
Qed.

Lemma ended_stays sts slot :
  slot_ok slot → lk_reading (sl_link slot) = false → keeps_up sts slot →
  received (slot_steps sts slot) = received slot ∧ slot_ok (slot_steps sts slot).
Proof.
  revert slot. induction sts as [|st sts IH]; intros slot Hok Hr Hk; [done|]. destruct Hk as [Hroom Hk].
  destruct (slot_step_received st slot Hok Hroom) as (Hrec & Hok' & Hr'). cbn [slot_steps fold_left].
  destruct (IH (slot_step st slot) Hok') as [IH1 IH2]; [rewrite Hr'; by destruct st as [[]| | | |]|done|].
  split; [|exact IH2]. etransitivity; [exact IH1|]. rewrite Hrec, Hr. destruct st as [[]| | | |]; by rewrite app_nil_r.
Qed.
Lemma slot_steps_received sts slot :
  slot_ok slot → lk_reading (sl_link slot) = true → keeps_up sts slot →
  received (slot_steps sts slot) = received slot ++ decoded sts ∧ slot_ok (slot_steps sts slot).
Proof.
  revert slot. induction sts as [|st sts IH]; intros slot Hok Hr Hk; [by rewrite app_nil_r|]. destruct Hk as [Hroom Hk].
  destruct (slot_step_received st slot Hok Hroom) as (Hrec & Hok' & Hr'). rewrite Hr in Hrec.
  change (slot_steps (st :: sts) slot) with (slot_steps sts (slot_step st slot)).
  destruct st as [[d|]| |area|b|]; try (destruct (IH _ Hok') as [-> ?]; [by rewrite Hr'|done|]; rewrite Hrec; cbn [decoded];
    by rewrite ?app_nil_r, <-?app_assoc).
  destruct (ended_stays sts _ Hok' Hr' Hk) as [-> ?]. by rewrite Hrec.
Qed.
Lemma received_terminal slot :
  slot_ok slot → sl_parser_sized slot = true → lk_rx (sl_link slot) = [] → received slot = term_bytes (sl_term slot).
Proof. intros Hok Hs Hx. unfold received. rewrite (Hok Hs), Hx. by rewrite !app_nil_r. Qed.

(** *** Towards the pane *)

(** On the socket, and queued for the writing task. *)
Definition typed_bytes (l : Link) : Bytes := flat_map if_data (lk_sent l) ++ concat (lk_tx l).
(** The frames carry the session of the stream. *)
Definition addressed (l : Link) : Prop := Forall (λ f, if_session f = lk_session l) (lk_sent l).

Lemma key_task_typed l :
  lk_writing l = true →
  typed_bytes (key_task true l) = typed_bytes l ∧ lk_writing (key_task true l) = true ∧ lk_tx (key_task true l) = [] ∧
  lk_session (key_task true l) = lk_session l ∧ (addressed l → addressed (key_task true l)).
Proof.
  intros Hw. unfold key_task. rewrite Hw. destruct (lk_tx l) as [|b bs] eqn:Htx; [done|].
  split; [|split; [exact Hw|split; [done|split; [done|]]]].
  - unfold typed_bytes. rewrite Htx.
    change (flat_map if_data (lk_sent l ++ [MkInputFrame (lk_session l) (concat (b :: bs))]) ++ []
            = flat_map if_data (lk_sent l) ++ concat (b :: bs)).
    rewrite flat_map_app. cbn. by rewrite !app_nil_r.
  - intros Ha. apply Forall_app. split; [exact Ha|]. by repeat constructor.
Qed.
Lemma key_send_typed b l :
  lk_writing l = true →
  typed_bytes (key_send b l) = typed_bytes l ++ b ∧ lk_writing (key_send b l) = true ∧
  lk_session (key_send b l) = lk_session l ∧ (addressed l → addressed (key_send b l)).
Proof.
  intros Hw. unfold key_send. cbv zeta.
  match goal with |- context [lk_writing ?x] => set (l1 := x) end.
  assert (typed_bytes l1 = typed_bytes l ∧ lk_writing l1 = true ∧ lk_session l1 = lk_session l ∧ (addressed l → addressed l1))
    as (<- & Hw1 & Hs1 & Ha1).
  { unfold l1. destruct (_ <? _)%nat; [done|]. destruct (key_task_typed l Hw) as (?&?&_&?&?). done. }
  clearbody l1. rewrite Hw1. split; [|done]. unfold typed_bytes.
  change (flat_map if_data (lk_sent l1) ++ concat (lk_tx l1 ++ [b]) = (flat_map if_data (lk_sent l1) ++ concat (lk_tx l1)) ++ b).
  rewrite concat_app. cbn. by rewrite app_nil_r, app_assoc.
Qed.
End Slot.

(** ** The keyboard *)
Section Typing.
Context `{UuidText, Alacritty} {D : Type} `{!PyreDaemon D} (io : Io) (error_text : RpcFailure → string) (body : Rect).
Implicit Types s : AppState D.

(** Not the prefix, and not a key that scrolls. *)
Definition plain (k : KeyCode * KeyModifiers) : bool :=
  negb (is_prefix k.1 k.2) && negb (bool_decide (k.2 = NONE) && (bool_decide (k.1 = KPageUp) || bool_decide (k.1 = KPageDown))).

(** No overlay is open, and the focused pane - in slot [i] - is live and not in its
    ribbon. *)
Record typing s (i : nat) (slot : PaneSlot) : Prop := {
  ty_help : help_open s = false;
  ty_lost : session_lost s = false;
  ty_prompt : prompt s = None;
  ty_menu : context_menu s = None;
  ty_picker : theme_picker s = None;
  ty_pager : pager s = None;
  ty_search : se_open (search s) = false;
  ty_sidebar : sidebar_open s && sidebar_focused s = false;
  ty_focus : focused_slot s = (s, Ok (Some i));
  ty_slot : slots s !! i = Some (Some slot);
  ty_ribbon : sl_ribbon_cursor slot = None;
  ty_writing : lk_writing (sl_link slot) = true }.

Fixpoint type_keys (ks : list (KeyCode * KeyModifiers)) : T D (list (bool * KeyAction)) :=
  match ks with
  | [] => ret []
  | (code, mods) :: ks' =>
      let! r := handle_key io error_text code mods false body in
      let! rs := type_keys ks' in
      ret (r :: rs)
  end.

Definition send_to (o : option Bytes) (slot : PaneSlot) : PaneSlot :=
  match o with
  | Some bytes => slot <| sl_scroll_offset := 0%nat |> <| sl_link ::= key_send bytes |>
  | None => slot
  end.

Lemma alter_same {A} (f : A → A) i x (l : list A) : l !! i = Some x → alter f i l = <[i := f x]> l.
Proof.
  revert i. induction l as [|y l IH]; intros [|i] Hi; [done|done|by injection Hi as ->|].
  exact (f_equal (cons y) (IH i Hi)).
Qed.
Lemma position_insert {A} (p : A → bool) i x y (l : list A) :
  l !! i = Some x → p y = p x → position p (<[i := y]> l) = position p l.
Proof.
  unfold position. revert i. induction l as [|z l IH]; intros [|i] Hi Hp; [done|done| |].
  - injection Hi as ->. cbn. repeat case_decide; try done; congruence.
  - cbn. destruct (decide (p z = true)); [done|]. specialize (IH i Hi Hp).
    destruct (list_find _ (<[i:=y]> l)) as [[]|], (list_find _ l) as [[]|]; cbn in *; congruence.
Qed.

Lemma pane_to_slot_same i slot slot' pid sl :
  sl !! i = Some (Some slot) → sl_pane_id slot' = sl_pane_id slot →
  pane_to_slot_idx (<[i := Some slot']> sl) pid = pane_to_slot_idx sl pid.
Proof. intros Hi Hp. unfold pane_to_slot_idx. eapply position_insert; [exact Hi|]. cbn. by rewrite Hp. Qed.
Lemma focused_slot_same s i slot slot' o :
  slots s !! i = Some (Some slot) → sl_pane_id slot' = sl_pane_id slot →
  focused_slot s = (s, Ok o) → let s' := s <| slots := <[i := Some slot']> (slots s) |> in focused_slot s' = (s', Ok o).
Proof.
  intros Hi Hp. unfold focused_slot, active_tab, active_view, tab_of, session_at, at_index, index, of_result, bind, gets. cbn.
  destruct (sessions s !! active_session s) as [sv|]; cbn; [|done].
  destruct (sv_tabs sv !! sv_active_tab sv) as [tab|]; cbn; [|done].
  unfold focused_slot_idx, const. intros [= <-]. do 2 f_equal. by eapply pane_to_slot_same.
Qed.

Lemma slots_ext f sl s : f (slots s) = sl → s <| slots ::= f |> = s <| slots := sl |>.
Proof. intros Hf. unfold set. by rewrite Hf. Qed.

Lemma slots_same sl s : sl = slots s → s <| slots := sl |> = s.
Proof. intros ->. by destruct s. Qed.

(** One key: the slot's link gets its bytes, and nothing else changes. *)
Lemma press_plain s i slot code mods :
  typing s i slot → plain (code, mods) = true →
  handle_key io error_text code mods false body s
  = (s <| slots := <[i := Some (send_to (key_to_bytes code mods) slot)]> (slots s) |>, Ok (false, KeyContinue)).
Proof.
  intros [] [Hp Hpage]%andb_true_iff. cbn [fst snd] in *. apply negb_true_iff in Hp, Hpage.
  assert (slot_at i s = (s, Ok (Some slot))) as Hat.
  { unfold slot_at, at_index, index, of_result. unfold Slots in ty_slot0. by rewrite ty_slot0. }
  unfold handle_key. cbv zeta. erewrite bind_ok by done. cbv [id].
  rewrite ty_help0, ty_lost0, ty_prompt0, ty_menu0, ty_picker0, ty_pager0, Hp. cbn [negb andb].
  erewrite bind_ok; [reflexivity|]. unfold plain_key. erewrite bind_ok by done. cbv [id]. rewrite ty_search0, ty_sidebar0.
  unfold or_else. erewrite bind_ok by done. cbv beta iota.
  assert (ribbon_key error_text code s = (s, Ok None)) as Hrib.
  { unfold ribbon_key. erewrite bind_ok by done. cbv beta iota. erewrite bind_ok by done. cbn. by rewrite ty_ribbon0. }
  erewrite bind_ok by done. cbv beta iota.
  assert (page_key code mods body s = (s, Ok None)) as Hpg.
  { unfold page_key. destruct (decide (mods = NONE)) as [Hm|]; [|done]. rewrite bool_decide_true in Hpage by done.
        erewrite bind_ok by done. cbv beta iota zeta. erewrite bind_ok by done. cbv beta iota. by destruct code. }
  erewrite bind_ok by done. cbv beta iota. unfold forward_key, send_to.
  destruct (key_to_bytes code mods) as [b|].
  - erewrite bind_ok; [reflexivity|]. unfold send_focused. erewrite bind_ok by done. cbv beta iota.
    erewrite bind_ok by done. unfold set_slot, modify. f_equal. apply slots_ext.
    exact (alter_same _ _ _ _ ty_slot0).
  - unfold bind, ret. f_equal. symmetry. apply slots_same. exact (list_insert_id _ _ _ ty_slot0).
Qed.
Lemma send_to_typing s i slot o :
  typing s i slot → typing (s <| slots := <[i := Some (send_to o slot)]> (slots s) |>) i (send_to o slot).
Proof.
  intros Hty. pose proof (ty_slot _ _ _ Hty) as Hi. pose proof (ty_focus _ _ _ Hty) as Hf.
  assert (sl_pane_id (send_to o slot) = sl_pane_id slot) as Hp by by destruct o.
  pose proof (focused_slot_same s i slot _ _ Hi Hp Hf) as Hf'. destruct Hty. split; try done.
  - apply list_lookup_insert_eq. exact (lookup_lt_Some _ _ _ Hi).
  - by destruct o.
  - destruct o; [|done]. cbn. by apply key_send_typed.
Qed.
Lemma type_keys_run ks s i slot :
  typing s i slot → Forall (λ k, plain k = true) ks →
  ∃ slot', type_keys ks s = (s <| slots := <[i := Some slot']> (slots s) |>, Ok (replicate (length ks) (false, KeyContinue))) ∧
    typed_bytes (sl_link slot') = typed_bytes (sl_link slot) ++ concat (omap (λ k, key_to_bytes k.1 k.2) ks) ∧
    lk_session (sl_link slot') = lk_session (sl_link slot) ∧ (addressed (sl_link slot) → addressed (sl_link slot')) ∧
    typing (s <| slots := <[i := Some slot']> (slots s) |>) i slot'.
Proof.
  revert s slot. induction ks as [|[code mods] ks IH]; intros s slot Hty Hk.
  - exists slot. rewrite app_nil_r. pose proof (list_insert_id _ _ _ (ty_slot _ _ _ Hty)) as Hid.
    assert (s <| slots := <[i := Some slot]> (slots s) |> = s) as Hs by by apply slots_same.
    rewrite Hs. done.
  - apply Forall_cons in Hk as [Hk Hks]. pose proof (press_plain s i slot code mods Hty Hk) as Hpress.
    apply (send_to_typing s i slot (key_to_bytes code mods)) in Hty as Hty1.
    destruct (IH _ _ Hty1 Hks) as (slot' & Hrun & Hb & Hs & Ha & Hty').
    set (sl1 := send_to (key_to_bytes code mods) slot) in *.
    assert (s <| slots := <[i := Some slot']> (<[i := Some sl1]> (slots s)) |> = s <| slots := <[i := Some slot']> (slots s) |>) as Heq.
    { exact (f_equal (λ X, s <| slots := X |>) (list_insert_insert_eq (slots s) i (Some slot') (Some sl1))). }
    exists slot'. rewrite <-Heq. split; [|split; [|split; [|split]]].
    + cbn [type_keys]. erewrite bind_ok by exact Hpress. erewrite bind_ok by exact Hrun. reflexivity.
    + rewrite Hb. unfold sl1, send_to. cbn [omap list_omap fst snd].
      destruct (key_to_bytes code mods) as [b|]; [|done]. cbn [concat]. rewrite app_assoc. f_equal.
      by apply (key_send_typed b), (ty_writing _ _ _ Hty).
    + rewrite Hs. unfold sl1, send_to. destruct (key_to_bytes code mods) as [b|]; [|done].
      by apply (key_send_typed b), (ty_writing _ _ _ Hty).
    + intros Had. apply Ha. unfold sl1, send_to. destruct (key_to_bytes code mods) as [b|]; [|done].
      by apply (key_send_typed b); [apply (ty_writing _ _ _ Hty)|].
    + exact Hty'.
Qed.
End Typing.

(** ** Properties *)

(** C6: What is typed is what the pane's program gets: while no overlay is open, a
    sequence of keys - any number, none of them the prefix or a key that scrolls - is
    taken key by key without an error, changes nothing but the slot of the focused
    pane, and once the writing task has run the frames on that pane's stream carry,
    in order and under the session of the stream, exactly the bytes sent before, then
    those queued, then the encodings of the keys; nothing stays queued. *)
Theorem typing_is_sent `{UuidText, Alacritty} {D : Type} `{!PyreDaemon D} io error_text body
    (s : AppState D) i slot ks :
  typing s i slot → addressed (sl_link slot) → Forall (λ k, plain k = true) ks →
  ∃ slot',
    type_keys io error_text body ks s
    = (s <| slots := <[i := Some slot']> (slots s) |>, Ok (replicate (length ks) (false, KeyContinue))) ∧
    let l := key_task true (sl_link slot') in
    lk_tx l = [] ∧ Forall (λ f, if_session f = lk_session (sl_link slot)) (lk_sent l) ∧
    flat_map if_data (lk_sent l)
    = flat_map if_data (lk_sent (sl_link slot)) ++ concat (lk_tx (sl_link slot))
      ++ concat (omap (λ k, key_to_bytes k.1 k.2) ks).
Proof.
  intros Hty Ha Hk. destruct (type_keys_run io error_text body ks s i slot Hty Hk) as (slot' & Hrun & Hb & Hs & Ha' & Hty').
  exists slot'. split; [exact Hrun|]. cbv zeta.
  destruct (key_task_typed (sl_link slot') (ty_writing _ _ _ Hty')) as (Ht & _ & Htx & Hs' & Hadd).
  split; [done|]. split.
  - specialize (Hadd (Ha' Ha)). unfold addressed in Hadd. by rewrite Hs', Hs in Hadd.
  - transitivity (typed_bytes (key_task true (sl_link slot'))); [unfold typed_bytes; by rewrite Htx, app_nil_r|].
    rewrite Ht, Hb. unfold typed_bytes. by rewrite app_assoc.
Qed.

(** C14: Output reaches the terminal complete and in order. In any interleaving of the
    reading task, the loop, frames that show the pane at any size, keys and the
    writing task - as long as the channel to the loop has room when a frame of the
    stream arrives -, what the terminal was fed, what waits for the first frame and
    what is queued are together what they were before and then every byte decoded
    until the stream ended. So when the pane has been shown and the queue is empty,
    the terminal has been fed exactly that. *)
Theorem output_reaches_terminal `{UuidText, Alacritty, LayoutSolver} sts slot :
  slot_ok slot → lk_reading (sl_link slot) = true → keeps_up sts slot →
  let slot' := slot_steps sts slot in
  received slot' = received slot ++ decoded sts ∧
  (sl_parser_sized slot' = true → lk_rx (sl_link slot') = [] → term_bytes (sl_term slot') = received slot ++ decoded sts).
Proof.
  intros Hok Hr Hk. destruct (slot_steps_received sts slot Hok Hr Hk) as [Hrec Hok']. split; [exact Hrec|].
  intros Hs Hx. by rewrite <-Hrec, received_terminal.
Qed.

Section Example.
#[local] Existing Instances binary_uuid blank_screen whole_area lone_daemon.

(** [l], [s], Enter in a client that just started. *)
Lemma typing_is_sent_witness :
  let s := start_tui plain_io 0 None ember quiet_deck alone 1%nat in
  let ks := [(KChar 108, NONE); (KChar 115, NONE); (KEnter, NONE)] in
  typing s 0 alone.2 ∧
  ∃ slot', type_keys plain_io no_text (MkRect 0 2 80 21) ks s
           = (s <| slots := [Some slot'] |>, Ok (replicate 3 (false, KeyContinue))) ∧
    flat_map if_data (lk_sent (key_task true (sl_link slot'))) = [x6c; x73; x0d].
Proof.
  intros s ks. assert (typing s 0 alone.2) as Hty by (split; vm_compute; reflexivity). split; [exact Hty|].
  destruct (typing_is_sent plain_io no_text (MkRect 0 2 80 21) s 0 alone.2 ks Hty) as (slot' & Hrun & _ & _ & Hb).
  { constructor. }
  { repeat constructor. }
  exists slot'. split; [exact Hrun|exact Hb].
Defined.

(** Output before the first frame waits for it. *)
Lemma output_reaches_terminal_witness :
  let sts := [Decoded (Some [x68]); Drained; Rendered (MkRect 0 0 20 10); Decoded (Some [x69]); Decoded None; Drained] in
  term_bytes (sl_term (slot_steps sts alone.2)) = [x68; x69].
Proof.
  intros sts. apply (output_reaches_terminal sts alone.2); [done|reflexivity|vm_compute; lia|vm_compute; reflexivity..].
Defined.
End Example.
