(* ===== verification/TuiSessions.v ===== *)
(** * TuiSessions: what the front end's operations do to its sessions

    Closing a pane against a specification that does not speak of positions, and the
    reconciliation with the daemon's list of sessions. *)
From S2P Require Import Prelude Proto Text Layout LayoutTree Libraries Effects Themes Server Client.
From S2P Require Import Tui TuiPanes TuiKeys TuiMouse TuiDraw TuiLoop TuiExample TuiInv TuiRuns.
Local Open Scope Z_scope.

(** ** The trees of the sessions *)
Definition trees (sv : SessionView) : list LayoutNode := tb_root <$> sv_tabs sv.
Definition roots (ss : list SessionView) : list (SessionId * list LayoutNode) := (λ sv, (sv_id sv, trees sv)) <$> ss.
Definition all_panes (rs : list (SessionId * list LayoutNode)) : list PaneId := flat_map (λ r, flat_map all_leaves r.2) rs.

(** The specification of closing a pane: its leaf goes from every tree, a tree without
    another leaf goes, and a session without another tree. *)
Definition prune_tree (p : PaneId) (n : LayoutNode) : option LayoutNode :=
  if decide (all_leaves n = [p]) then None else Some (close n p).2.
Definition prune_session (p : PaneId) (r : SessionId * list LayoutNode) : option (SessionId * list LayoutNode) :=
  match omap (prune_tree p) r.2 with [] => None | ts => Some (r.1, ts) end.
Definition close_everywhere (p : PaneId) (rs : list (SessionId * list LayoutNode)) : list (SessionId * list LayoutNode) :=
  omap (prune_session p) rs.

Lemma leaves_in_order n : pane_leaves_in_order n = all_leaves n.
Proof.
  induction n as [id|mk cs Hmk IH] using LayoutNode_ind'; [done|].
  destruct Hmk as [-> | ->]; cbn; (induction IH as [|c cs Hc _ IHcs]; [done|]; cbn; by rewrite Hc, IHcs).
Qed.

Lemma close_absent n p : p ∉ all_leaves n → close n p = (None, n).
Proof.
  intros Hn. unfold close. rewrite (proj2 (position_None _ _)); [done|].
  apply Forall_forall. intros x Hx. apply bool_decide_eq_false. by intros ->.
Qed.
Lemma prune_tree_absent p n : p ∉ all_leaves n → prune_tree p n = Some n.
Proof.
  intros Hn. unfold prune_tree. case_decide as Hl; [|by rewrite close_absent].
  rewrite Hl in Hn. set_solver.
Qed.
Lemma prune_trees_absent p ts : p ∉ flat_map all_leaves ts → omap (prune_tree p) ts = ts.
Proof.
  induction ts as [|t ts IH]; [done|]. cbn. intros [Ht Hts]%not_elem_of_app.
  by rewrite prune_tree_absent, IH.
Qed.
Lemma close_everywhere_absent p rs :
  p ∉ all_panes rs → Forall (λ r, r.2 ≠ []) rs → close_everywhere p rs = rs.
Proof.
  unfold all_panes, close_everywhere. induction rs as [|[id ts] rs IH]; [done|]. cbn. intros [Ht Hts]%not_elem_of_app [Hne Hrs]%Forall_cons.
  unfold prune_session at 1. cbn [fst snd] in *. rewrite prune_trees_absent by done. destruct ts; [done|]. by rewrite IH.
Qed.

(** The leaves left are those of the other panes. *)
Lemma prune_tree_leaves p n :
  NoDup (all_leaves n) → from_option all_leaves [] (prune_tree p n) = filter (λ q, q ≠ p) (all_leaves n).
Proof.
  intros Hnd. unfold prune_tree. case_decide as Hl.
  - rewrite Hl. cbn. by rewrite decide_False by auto.
  - cbn. destruct (close_cases n p) as [Hc|(_ & -> & Hr)]; [|by rewrite (proj2 (remove_leaf_spec p n) Hr)].
    destruct (decide (p ∈ all_leaves n)) as [Hin|Hn]; [|by rewrite close_absent, filter_absent by done].
    apply list_elem_of_split in Hin as (l1 & l2 & Hn).
    pose proof (proj2 (close_spec n p l1 l2 Hnd) Hn) as Hcs. case_decide as H12.
    + apply app_eq_nil in H12 as [-> ->]. done.
    + destruct Hcs as [-> _]. rewrite Hn in *. rewrite filter_app, filter_cons_False by auto.
      apply NoDup_app in Hnd as (Hnd1 & Hp & Hnd2). apply NoDup_cons in Hnd2 as [Hp2 _].
      rewrite !filter_absent; [done..|]. intros Hin. by apply (Hp p Hin); left.
Qed.

Lemma flat_map_omap_leaves p ts :
  NoDup (flat_map all_leaves ts) →
  flat_map all_leaves (omap (prune_tree p) ts) = filter (λ q, q ≠ p) (flat_map all_leaves ts).
Proof.
  induction ts as [|t ts IH]; [done|]. cbn. intros (Ht & _ & Hts)%NoDup_app.
  pose proof (prune_tree_leaves p t Ht) as Hl. rewrite filter_app, <-IH, <-Hl by done. by destruct (prune_tree p t).
Qed.
Lemma close_everywhere_leaves p rs :
  NoDup (all_panes rs) → all_panes (close_everywhere p rs) = filter (λ q, q ≠ p) (all_panes rs).
Proof.
  unfold all_panes, close_everywhere. induction rs as [|[id ts] rs IH]; [done|]. cbn. intros (Ht & _ & Hts)%NoDup_app.
  rewrite filter_app, <-(flat_map_omap_leaves p ts), <-IH by done. unfold prune_session at 1. cbn [fst snd].
  by destruct (omap (prune_tree p) ts).
Qed.

Lemma alter_mid {A} (f : A → A) l1 x l2 : alter f (length l1) (l1 ++ x :: l2) = l1 ++ f x :: l2.
Proof. induction l1 as [|y l1 IH]; [done|]. exact (f_equal (cons y) IH). Qed.
Lemma roots_app l1 l2 : roots (l1 ++ l2) = roots l1 ++ roots l2.
Proof. apply fmap_app. Qed.
Lemma roots_alter_same (f : SessionView → SessionView) i ss :
  (∀ sv, sv_id (f sv) = sv_id sv ∧ trees (f sv) = trees sv) → roots (alter f i ss) = roots ss.
Proof.
  intros Hf. revert i. induction ss as [|sv ss IH]; intros [|i]; [done|done| |].
  - cbn. unfold roots. cbn. destruct (Hf sv) as [-> ->]. done.
  - exact (f_equal (cons _) (IH i)).
Qed.
Lemma trees_alter_same (f : Tab → Tab) ti sv :
  (∀ t, tb_root (f t) = tb_root t) → trees (sv <| sv_tabs ::= alter f ti |>) = trees sv.
Proof.
  intros Hf. unfold trees. cbn. generalize (sv_tabs sv) as ts. intros ts. revert ti.
  induction ts as [|t ts IH]; intros [|ti]; [done|done| |].
  - cbn. by rewrite Hf.
  - exact (f_equal (cons _) (IH ti)).
Qed.

(** The one session and the one tree that hold the pane. *)
Lemma close_everywhere_mid p l1 id t1 n t2 l2 :
  NoDup (all_panes (l1 ++ (id, t1 ++ n :: t2) :: l2)) → p ∈ all_leaves n →
  Forall (λ r, r.2 ≠ []) (l1 ++ (id, t1 ++ n :: t2) :: l2) →
  close_everywhere p (l1 ++ (id, t1 ++ n :: t2) :: l2)
  = l1 ++ match t1 ++ option_list (prune_tree p n) ++ t2 with [] => [] | ts => [(id, ts)] end ++ l2.
Proof.
  intros Hnd Hp [Hne1 [_ Hne2]%Forall_cons]%Forall_app.
  unfold all_panes in Hnd. rewrite flat_map_app in Hnd. cbn in Hnd. rewrite flat_map_app in Hnd. cbn in Hnd.
  apply NoDup_app in Hnd as (_ & H1 & (Hmid & H2 & _)%NoDup_app).
  apply NoDup_app in Hmid as (_ & H3 & (_ & H4 & _)%NoDup_app).
  assert (p ∉ all_panes l1) as Hl1. { intros Hin. apply (H1 p Hin). rewrite !elem_of_app. auto. }
  assert (p ∉ all_panes l2) as Hl2. { intros Hin. apply (H2 p); [|exact Hin]. rewrite !elem_of_app. auto. }
  assert (p ∉ flat_map all_leaves t1) as Ht1. { intros Hin. apply (H3 p Hin). rewrite elem_of_app. auto. }
  assert (p ∉ flat_map all_leaves t2) as Ht2. { intros Hin. by apply (H4 p Hp). }
  unfold close_everywhere. rewrite omap_app. cbn [omap list_omap].
  fold (close_everywhere p l1). rewrite close_everywhere_absent by done.
  pose proof (close_everywhere_absent p l2 Hl2 Hne2) as Hc2. unfold close_everywhere in Hc2. cbn [omap] in Hc2. rewrite Hc2.
  assert (omap (prune_tree p) (t1 ++ n :: t2) = t1 ++ option_list (prune_tree p n) ++ t2) as Hts.
  { rewrite omap_app. cbn [omap list_omap]. rewrite prune_trees_absent by done.
    pose proof (prune_trees_absent p t2 Ht2) as Hc. cbn [omap] in Hc. rewrite Hc. by destruct (prune_tree p n). }
  unfold prune_session. cbn [fst snd]. rewrite Hts. by destruct (t1 ++ option_list (prune_tree p n) ++ t2).
Qed.

Section Close.
Context `{UuidText} {D : Type} `{!PyreDaemon D}.
Implicit Types s : AppState D.

(** What changes apart from the sessions. *)
Definition kept s s' : Prop := slots s' = slots s ∧ background s' = background s.
Definition leaves_roots s (rs : list (SessionId * list LayoutNode)) (_ : unit) s' : Prop :=
  kept s s' ∧ roots (sessions s') = rs.

Lemma remove_tab_roots s l1 sv l2 t1 tab t2 :
  sessions s = l1 ++ sv :: l2 → sv_tabs sv = t1 ++ tab :: t2 →
  ends never (leaves_roots s (roots l1 ++ match tb_root <$> t1 ++ t2 with [] => [] | ts => [(sv_id sv, ts)] end ++ roots l2))
    (remove_tab (length l1) (length t1)) s.
Proof.
  intros Hs Ht. unfold remove_tab. apply ends_set_view.
  set (sv1 := sv <| sv_tabs := t1 ++ t2 |>).
  assert (alter (λ sv, sv <| sv_tabs ::= delete (length t1) |>) (length l1) (sessions s) = l1 ++ sv1 :: l2) as Hs1.
  { rewrite Hs, alter_mid. unfold sv1, set. cbn. by rewrite Ht, delete_middle. }
  assert (sessions (s <| sessions ::= alter (λ sv, sv <| sv_tabs ::= delete (length t1) |>) (length l1) |>) = l1 ++ sv1 :: l2) as Hs1'
    by exact Hs1.
  set (s1 := s <| sessions ::= _ |>) in *. assert (kept s s1) as Hk by done. clearbody s1.
  eapply ends_session_eq; [rewrite Hs1'; by apply list_lookup_middle|].
  change (sv_tabs sv1) with (t1 ++ t2). case_decide as Hnil.
  - rewrite Hnil. cbn [fmap list_fmap]. split; [|cbn; by case_decide]. split; [cbn; by case_decide|].
    assert (delete (length l1) (sessions s1) = l1 ++ l2) as Hd by by rewrite Hs1', delete_middle.
    unfold bind, modify. cbn. by case_decide; cbn; rewrite Hd, roots_app.
  - assert (length (t1 ++ t2) ≠ 0)%nat as Hlen by by destruct (t1 ++ t2).
    apply ends_set_view. apply ends_tab_of; [change (Nat.min (length t1) (length (t1 ++ t2) - 1) < length (t1 ++ t2))%nat; lia|]. intros tab' _.
    assert (∀ s', kept s1 s' → roots (sessions s') = roots (sessions s1) →
      leaves_roots s (roots l1 ++ match tb_root <$> t1 ++ t2 with [] => [] | ts => [(sv_id sv, ts)] end ++ roots l2) tt s') as Hend.
    { intros s' [H1 H2] Hr. destruct Hk as [H3 H4]. split; [split; congruence|].
      rewrite Hr, Hs1', roots_app. cbn. unfold trees. cbn. by destruct (t1 ++ t2). }
    destruct (head _) as [p|]; (split; [apply Hend|]; [done| |done]).
    + cbn. rewrite roots_alter_same; [apply roots_alter_same|]; intros sv'; (split; [done|]); [done|].
      by apply (trees_alter_same (λ t, t <| tb_focus_pane := p |>)).
    + cbn. by apply roots_alter_same.
Qed.

Lemma locate_pane_is_Some p ss : p ∈ all_panes (roots ss) → is_Some (locate_pane p ss).
Proof.
  intros Hin. unfold locate_pane.
  set (in_tab := λ tab, bool_decide (p ∈ pane_leaves_in_order (tb_root tab))).
  assert (∃ sv tab, sv ∈ ss ∧ tab ∈ sv_tabs sv ∧ in_tab tab = true) as (sv & tab & Hsv & Htab & Ht).
  { unfold all_panes in Hin. apply list_elem_of_In, in_flat_map in Hin as (r & Hr%list_elem_of_In & Hp%list_elem_of_In).
    unfold roots in Hr. apply list_elem_of_fmap in Hr as (sv & -> & Hsv). cbn [snd] in Hp.
    apply list_elem_of_In, in_flat_map in Hp as (n & Hn%list_elem_of_In & Hp%list_elem_of_In).
    apply list_elem_of_fmap in Hn as (tab & -> & Htab). exists sv, tab. split; [done|]. split; [done|].
    apply bool_decide_eq_true. by rewrite leaves_in_order. }
  destruct (position (λ sv, existsb in_tab (sv_tabs sv)) ss) as [si|] eqn:Hsi.
  2: { apply position_None in Hsi. rewrite Forall_forall in Hsi. specialize (Hsi sv Hsv). cbv beta in Hsi.
       assert (existsb in_tab (sv_tabs sv) = true) as Hex; [|congruence].
       apply existsb_exists. exists tab. by rewrite <-list_elem_of_In. }
  apply position_Some in Hsi as (sv' & Hsv' & Hex & _). cbn. rewrite Hsv'. cbn.
  destruct (position in_tab (sv_tabs sv')) as [ti|] eqn:Hti; [by eexists|].
  apply position_None in Hti. rewrite Forall_forall in Hti.
  apply existsb_exists in Hex as (tab' & Htab'%list_elem_of_In & Ht'). specialize (Hti tab' Htab'). congruence.
Qed.

Lemma refocus_tab_roots si ti o rem (s : AppState D) :
  ends never (leaves_roots s (roots (sessions s))) (refocus_tab si ti o rem) s.
Proof.
  unfold refocus_tab. cbv zeta.
  assert (∀ (f : Tab → Tab) s1, (∀ t, tb_root (f t) = tb_root t) → kept s s1 → roots (sessions s1) = roots (sessions s) →
    ends never (leaves_roots s (roots (sessions s))) (set_tab si ti f) s1) as Hset.
  { intros f s1 Hf Hk Hr. split; [|done]. split; [exact Hk|]. rewrite <-Hr. apply roots_alter_same.
    intros sv. split; [done|]. by apply trees_alter_same. }
  eapply (ends_bind never (leaves_roots s (roots (sessions s)))).
  - match goal with |- ends _ _ ?m _ => match m with match ?x with Some _ => _ | None => _ end => destruct x end end.
    { by apply Hset. } by apply ends_ret.
  - intros [] s1 [Hk Hr] _. by apply Hset.
Qed.

Lemma other_leaf p (l : list PaneId) : NoDup l → p ∈ l → l ≠ [p] → filter (λ q, q ≠ p) l ≠ [].
Proof.
  intros Hnd (l1 & l2 & ->)%list_elem_of_split Hne. apply NoDup_app in Hnd as (_ & H1 & [H2 _]%NoDup_cons).
  rewrite filter_app, filter_cons_False by auto. rewrite !filter_absent; [|done|].
  - intros [-> ->]%app_eq_nil. done.
  - intros Hin. apply (H1 p Hin). by left.
Qed.
(** What is left in the tree, as [close_pane_inner] reads it. *)
Lemma close_remaining p n :
  NoDup (all_leaves n) → p ∈ all_leaves n →
  let leaves := all_leaves (close n p).2 in
  let remaining := if decide ((close n p).1 = None ∧ leaves = [p]) then [] else leaves in
  (prune_tree p n = None ∧ remaining = []) ∨ (prune_tree p n = Some (close n p).2 ∧ remaining = leaves ∧ leaves ≠ []).
Proof.
  intros Hnd Hp leaves remaining. pose proof (prune_tree_leaves p n Hnd) as Hpl.
  unfold prune_tree in *. case_decide as Hl.
  - left. split; [done|]. unfold remaining, leaves, close. rewrite Hl. cbn. rewrite bool_decide_true by done. cbn.
    by rewrite decide_True.
  - right. split; [done|]. cbn in Hpl. change (leaves = filter (λ q, q ≠ p) (all_leaves n)) in Hpl.
    split; [|rewrite Hpl; by apply other_leaf]. unfold remaining. rewrite decide_False; [done|].
    intros [_ Hc]. rewrite Hpl in Hc. assert (p ∈ filter (λ q, q ≠ p) (all_leaves n)) as Hin by (rewrite Hc; by left).
    by apply list_elem_of_filter in Hin as [? _].
Qed.

Lemma close_pane_roots i (fire : bool) s slot :
  slots s !! i = Some (Some slot) → let p := sl_pane_id slot in
  p ∈ all_panes (roots (sessions s)) → NoDup (all_panes (roots (sessions s))) →
  Forall (λ r, r.2 ≠ []) (roots (sessions s)) →
  ends never (λ (_ : unit) (s' : AppState D), slots s' = <[i := None]> (slots s) ∧
      background s' = background s ++ (if fire then [BgClose p] else []) ∧
      roots (sessions s') = close_everywhere p (roots (sessions s))) (close_pane_inner i fire) s.
Proof.
  intros Hi p Hin Hnd Hne. unfold close_pane_inner. apply ends_gets. rewrite Hi.
  apply ends_gets. fold p. destruct (locate_pane_is_Some _ _ Hin) as [[si ti] Hloc]. rewrite Hloc.
  apply locate_pane_Some in Hloc as (sv & tab & Hsv & Htab & Hp). rewrite leaves_in_order in Hp.
  apply list_elem_of_split_length in Hsv as (l1 & l2 & Hs & ->).
  apply list_elem_of_split_length in Htab as (t1 & t2 & Ht & ->).
  set (bg := background s ++ (if fire then [BgClose p] else [])).
  eapply (ends_bind never (λ (_ : unit) (s' : AppState D), slots s' = slots s ∧ background s' = bg ∧ sessions s' = sessions s)).
  { unfold bg. destruct fire; [by split|]. apply ends_ret. by rewrite app_nil_r. }
  intros [] s1 (Hsl & Hbg & Hs1) _. rewrite <-Hs1 in Hs.
  eapply ends_session_eq; [rewrite Hs; by apply list_lookup_middle|].
  apply ends_tab_of; [rewrite Ht, length_app; cbn; lia|]. intros tab' Htab'.
  rewrite Ht, list_lookup_middle in Htab' by done. injection Htab' as <-.
  destruct (close (tb_root tab) p) as [nf root] eqn:Hclose.
  apply ends_set_view. apply ends_modify; [apply Nat.eq_le_incl, eq_sym, length_insert|].
  set (tab1 := tab <| tb_root := root |>). set (sv1 := sv <| sv_tabs := t1 ++ tab1 :: t2 |>).
  match goal with |- ends _ _ _ ?x => set (s2 := x) end.
  assert (sessions s2 = l1 ++ sv1 :: l2) as Hs2.
  { change (sessions s2) with (alter (λ sv, sv <| sv_tabs ::= alter (λ tab, tab <| tb_root := root |>) (length t1) |>) (length l1) (sessions s1)).
    rewrite Hs, alter_mid. unfold sv1, set. cbn. by rewrite Ht, alter_mid. }
  assert (slots s2 = <[i := None]> (slots s)) as Hsl2 by (change (slots s2) with (<[i := None]> (slots s1)); by rewrite Hsl).
  assert (background s2 = bg) as Hbg2 by exact Hbg. clearbody s2. rewrite Hs1 in Hs.
  assert (roots (sessions s) = roots l1 ++ (sv_id sv, (tb_root <$> t1) ++ tb_root tab :: (tb_root <$> t2)) :: roots l2) as Hroots.
  { rewrite Hs, roots_app. cbn. unfold trees. by rewrite Ht, fmap_app. }
  rewrite Hroots in Hnd, Hne |- *.
  pose proof (close_everywhere_mid p _ _ _ _ _ _ Hnd Hp Hne) as Hmid.
  assert (NoDup (all_leaves (tb_root tab))) as Hnd1.
  { unfold all_panes in Hnd. rewrite flat_map_app in Hnd. cbn in Hnd. rewrite flat_map_app in Hnd. cbn in Hnd.
    apply NoDup_app in Hnd as (_ & _ & (Hm & _)%NoDup_app). apply NoDup_app in Hm as (_ & _ & (Hm & _)%NoDup_app). exact Hm. }
  rewrite Hmid. rewrite leaves_in_order.
  assert (∀ rs m, ends never (leaves_roots s2 rs) m s2 →
    ends never (λ (_ : unit) (s' : AppState D), slots s' = <[i:=None]> (slots s) ∧ background s' = bg ∧ roots (sessions s') = rs) m s2) as Hend.
  { intros rs m Hm. eapply ends_conseq; [exact Hm|]. intros [] s' [[H1 H2] H3] _. split; [congruence|]. split; congruence. }
  pose proof (close_remaining p (tb_root tab) Hnd1 Hp) as Hrem. rewrite Hclose in Hrem. cbn [fst snd] in Hrem. cbv zeta in Hrem.
  destruct Hrem as [[-> ->]|(-> & -> & Hn)]; cbn [option_list app].
  - rewrite decide_True by done. apply Hend. pose proof (remove_tab_roots s2 l1 sv1 l2 t1 tab1 t2 Hs2 eq_refl) as Hrm.
    rewrite fmap_app in Hrm. exact Hrm.
  - rewrite decide_False by done. apply Hend.
    pose proof (refocus_tab_roots (length l1) (length t1) nf (all_leaves root) s2) as Hrf.
    assert (trees sv1 = (tb_root <$> t1) ++ root :: (tb_root <$> t2)) as Htr by exact (fmap_app tb_root t1 (tab1 :: t2)).
    rewrite Hs2, roots_app in Hrf. change (roots (sv1 :: l2)) with ((sv_id sv, trees sv1) :: roots l2) in Hrf. rewrite Htr in Hrf.
    change (option_list (Some root) ++ (tb_root <$> t2)) with (root :: (tb_root <$> t2)).
    destruct ((tb_root <$> t1) ++ root :: (tb_root <$> t2)) eqn:Hnil; [by destruct (tb_root <$> t1)|].
    exact Hrf.
Qed.
End Close.

(** ** Dragging *)

(** A drag of the boundary between two shares. *)
Lemma resize_weights_run ws idx delta min_pct a b :
  ws !! idx = Some a → ws !! S idx = Some b → 0 <= min_pct → 2 * min_pct <= a + b < 2 ^ 16 →
  ∃ a' b', apply_resize_weights ws idx delta min_pct = Ok (<[S idx := b']> (<[idx := a']> ws)) ∧
    a' + b' = a + b ∧ min_pct <= a' ∧ min_pct <= b' ∧
    (min_pct <= a + delta <= a + b - min_pct → a' = a + delta).
Proof.
  intros Ha Hb Hm Ht. unfold apply_resize_weights. rewrite Ha, Hb. cbv zeta.
  destruct (Z.ltb_spec (a + b - min_pct) min_pct); [lia|].
  set (l := clamp (a + delta) min_pct (a + b - min_pct)).
  assert (min_pct <= l <= a + b - min_pct) as Hl by (unfold l, clamp; lia).
  exists l, (a + b - l). rewrite !wrap_u16_small by lia.
  split; [done|]. split; [lia|]. split; [lia|]. split; [lia|]. unfold l, clamp. lia.
Qed.

(** ** Properties *)


(** C28: Following the daemon's list of sessions never panics, whatever it answers to
    the calls on the way: the sessions shown before stay, in their order, exactly when
    the daemon still lists them; appended are some of those it lists with panes that
    were not known; and the session on the screen, if it is still listed, is the one
    on the screen afterwards, wherever it moved to. *)
Theorem sessions_follow_daemon `{UuidText, Alacritty, LayoutSolver} {D : Type} `{!PyreDaemon D} io infos (s : AppState D) :
  ready s →
  ∃ s', follow_daemon io infos s = (s', Ok tt) ∧ ui_ok s' ∧
    (∃ adopted, sublist adopted (adoptable (ids s) infos) ∧
       ids s' = filter (λ i, i ∈ si_id <$> infos) (ids s) ++ adopted) ∧
    (∀ sv, sessions s !! active_session s = Some sv → sv_id sv ∈ si_id <$> infos →
       ∃ sv', sessions s' !! active_session s' = Some sv' ∧ sv_id sv' = sv_id sv).
Proof.
  intros Hr. pose proof (follow_daemon_ends io never infos s Hr) as He. revert He. unfold ends.
  destruct (follow_daemon io infos s) as [s' [[]|e]]; [|by intros [[] _]]. intros [[Hok Hf] _]. by exists s'.
Qed.

(** C36: Dragging the boundary between two shares keeps their sum and leaves both at
    least the minimum, exactly where the pointer is when that is allowed; the other
    shares and their number do not change. It panics exactly when the two have less
    than twice the minimum between them. *)
Theorem resize_weights_spec ws idx delta min_pct a b :
  ws !! idx = Some a → ws !! S idx = Some b → 0 <= min_pct → a + b < 2 ^ 16 →
  if decide (a + b < 2 * min_pct) then apply_resize_weights ws idx delta min_pct = Err (BadClamp min_pct (a + b - min_pct))
  else ∃ ws' a' b', apply_resize_weights ws idx delta min_pct = Ok ws' ∧
    ws' !! idx = Some a' ∧ ws' !! S idx = Some b' ∧ a' + b' = a + b ∧ min_pct <= a' ∧ min_pct <= b' ∧
    (min_pct <= a + delta <= a + b - min_pct → a' = a + delta) ∧
    length ws' = length ws ∧ sum_Z ws' = sum_Z ws ∧ (∀ j, j ≠ idx → j ≠ S idx → ws' !! j = ws !! j).
Proof.
  intros Ha Hb Hm Ht. case_decide as Hd.
  - unfold apply_resize_weights. rewrite Ha, Hb. cbv zeta. by rewrite (proj2 (Z.ltb_lt _ _)) by lia.
  - destruct (resize_weights_run ws idx delta min_pct a b Ha Hb Hm) as (a' & b' & Hrun & Hs & H1 & H2 & H3); [lia|].
    exists (<[S idx := b']> (<[idx := a']> ws)), a', b'. split; [done|].
    pose proof (lookup_lt_Some _ _ _ Ha) as Hla. pose proof (lookup_lt_Some _ _ _ Hb) as Hlb.
    split; [rewrite list_lookup_insert_ne by lia; by apply list_lookup_insert_eq|].
    split; [apply list_lookup_insert_eq; by rewrite length_insert|].
    do 4 (split; [done|]). split; [by rewrite !length_insert|]. split.
    + rewrite (sum_Z_insert _ _ b); [rewrite (sum_Z_insert _ _ a) by done; lia|by rewrite list_lookup_insert_ne by lia].
    + intros j Hj1 Hj2. by rewrite !list_lookup_insert_ne by lia.
Qed.

(** Dragging a tab over another puts it there and leaves the others in their
    order; out of range, or onto itself, nothing moves. *)
Theorem tab_reorder_spec {A} (tabs : list A) (from to : nat) :
  if decide ((from < length tabs)%nat ∧ (to < length tabs)%nat)
  then tab_reorder tabs from to !! to = tabs !! from ∧ delete to (tab_reorder tabs from to) = delete from tabs ∧
       tab_reorder tabs from to ≡ₚ tabs
  else tab_reorder tabs from to = tabs.
Proof.
  unfold tab_reorder. destruct (decide (_ < _ ∧ _ < _)%nat) as [[Hf Ht]|Hd]; [|rewrite decide_True by lia; done].
  destruct (decide (from = to ∨ _)) as [He|He]; [destruct He as [->|]; [done|lia]|]. apply lookup_lt_is_Some in Hf as [x Hx]. rewrite Hx. cbv zeta.
  set (rest := delete from tabs). assert (S (length rest) = length tabs) as Hl.
  { unfold rest. rewrite length_delete by eauto. apply lookup_lt_Some in Hx. lia. }
  assert (length (take to rest) = to) as Htake by (rewrite length_take; lia).
  split; [|split].
  - rewrite lookup_app_r by lia. by rewrite Htake, Nat.sub_diag.
  - assert (delete (length (take to rest)) (take to rest ++ x :: drop to rest) = rest) as Hdel
      by (rewrite delete_middle; apply take_drop).
    by rewrite Htake in Hdel.
  - rewrite <-Permutation_middle, take_drop. symmetry. by apply delete_Permutation.
Qed.

Section Example.
#[local] Existing Instances binary_uuid blank_screen whole_area lone_daemon.


(** The daemon lists another session than the one shown: nothing of it can be attached. *)
Lemma sessions_follow_daemon_witness :
  let s := start_tui plain_io 0 None ember quiet_deck alone 1%nat in
  ∃ s', follow_daemon plain_io [MkSessionInfo (MkSessionId 1) "work" 1 0 0; MkSessionInfo (MkSessionId 5) "new" 1 0 0] s = (s', Ok tt) ∧
    ∃ sv', sessions s' !! active_session s' = Some sv' ∧ sv_id sv' = MkSessionId 1.
Proof.
  intros s. destruct (sessions_follow_daemon plain_io [MkSessionInfo (MkSessionId 1) "work" 1 0 0; MkSessionInfo (MkSessionId 5) "new" 1 0 0] s) as (s' & Hrun & _ & _ & Hv).
  - apply start_ready.
  - exists s'. split; [exact Hrun|]. apply (Hv (new_single_pane (MkSessionId 1) "work" (MkPaneId 2))); [reflexivity|left].
Defined.

(** Thirty percent from the left of the two first shares. *)
Lemma resize_weights_spec_witness :
  ∃ ws', apply_resize_weights [40; 40; 20] 0 30 5 = Ok ws' ∧ ws' !! 0%nat = Some 70 ∧ sum_Z ws' = 100.
Proof.
  destruct (resize_weights_spec [40; 40; 20] 0 30 5 40 40 eq_refl eq_refl ltac:(lia) ltac:(lia))
    as (ws' & a' & b' & Hrun & Ha & _ & _ & _ & _ & Hx & _ & Hs & _).
  exists ws'. split; [exact Hrun|]. split; [rewrite Ha; f_equal; apply Hx; lia|exact Hs].
Defined.
End Example.
