(* ===== verification/TuiStyle.v ===== *)
(** * TuiStyle: colours, styles and what is drawn with them

    pyre-tui/src/theme.rs and fire_motion.rs, the colours of render/pane.rs and
    render/sidebar.rs, and the values the drawing code hands to ratatui: styles, spans,
    widgets and the areas they are drawn in. What ratatui does with a widget is not
    modelled. Arithmetic on f32 that involves sines is the class [FireMath]; the products
    that size the overlays are computed. *)
From S2P Require Import Prelude Proto Text Layout Themes.
Local Open Scope Z_scope.

(** ** The values of ratatui *)
Inductive Color :=
  | Reset | Black | Red | Green | Yellow | Blue | Magenta | Cyan | Gray | DarkGray
  | LightRed | LightGreen | LightYellow | LightBlue | LightMagenta | LightCyan | White
  | RgbColor (r g b : Z) | Indexed (i : Z).
Inductive Modifier := BOLD | DIM | ITALIC | UNDERLINED | REVERSED | HIDDEN | CROSSED_OUT.
#[export] Instance Color_eq_dec : EqDecision Color.
Proof. solve_decision. Defined.
#[export] Instance Modifier_eq_dec : EqDecision Modifier.
Proof. solve_decision. Defined.

(** Modifiers in the order they are added. *)
Record Style := MkStyle { st_fg : option Color; st_bg : option Color; st_mods : list Modifier }.
#[export] Instance Style_eq_dec : EqDecision Style.
Proof. solve_decision. Defined.
Definition plain : Style := MkStyle None None [].
Definition fg (c : Color) (s : Style) : Style := MkStyle (Some c) (st_bg s) (st_mods s).
Definition bg (c : Color) (s : Style) : Style := MkStyle (st_fg s) (Some c) (st_mods s).
Definition add_modifier (m : Modifier) (s : Style) : Style := MkStyle (st_fg s) (st_bg s) (st_mods s ++ [m]).

Record Span := MkSpan { sp_text : list Z; sp_style : Style }.
Definition span (text : string) (s : Style) : Span := MkSpan (chars text) s.
Definition Line := list Span.
Definition line_width (l : Line) : Z := sum_Z ((λ s, Z.of_nat (length (sp_text s))) <$> l).

Inductive BorderType := Rounded | Double | Thick.
Inductive Borders := BordersAll | BordersRight.
Record RatatuiBlock := MkRatatuiBlock {
  bk_borders : Borders; bk_type : BorderType; bk_border_style : Style; bk_title : Line; bk_style : Style }.
Inductive Widget :=
  | Clear
  | Fill (style : Style)                               (** a block without borders *)
  | Framed (b : RatatuiBlock)
  | Paragraph (lines : list Line) (style : Style) (wrap : bool)
  | BoxedParagraph (b : RatatuiBlock) (lines : list Line) (style : Style)
  | ListOf (items : list (Line * Style)) (style : Style)
  | BoxedList (b : RatatuiBlock) (items : list (list Line * Style)) (highlight : Style) (selected : option nat)
  | Scrollbar (length position : nat) (style thumb : option Style).

(** One call on the frame. *)
Inductive Draw :=
  | Render (w : Widget) (area : Rect)
  | ReverseCell (x y : Z)
  | SetCursor (x y : Z).

(** ** theme.rs *)
Definition to_ratatui (c : Rgb) : Color := RgbColor (r8 c) (g8 c) (b8 c).

Record LegacyTheme := MkLegacy {
  t_bg : Color; t_surface : Color; t_muted_bg : Color; t_border : Color; t_border_focus : Color;
  t_primary : Color; t_secondary : Color; t_spark : Color; t_text : Color; t_text_dim : Color;
  t_ok : Color; t_err : Color; t_info : Color }.

Definition bg_style (t : LegacyTheme) : Style := fg (t_text t) (bg (t_bg t) plain).
Definition title_style (text_color : Color) : Style := add_modifier BOLD (fg text_color plain).
Definition tab_active (t : LegacyTheme) : Style := add_modifier BOLD (bg (t_primary t) (fg (t_bg t) plain)).
Definition tab_inactive (t : LegacyTheme) : Style := bg (t_muted_bg t) (fg (t_text_dim t) plain).
Definition status_style (t : LegacyTheme) : Style := bg (t_surface t) (fg (t_text t) plain).
Definition border_style (t : LegacyTheme) : Style := fg (t_border t) plain.
Definition border_focus_style (t : LegacyTheme) : Style := fg (t_border_focus t) plain.
Definition overlay_style (t : LegacyTheme) : Style := fg (t_text t) (bg (t_surface t) plain).
Definition selection_style (t : LegacyTheme) : Style := add_modifier BOLD (bg (t_spark t) (fg (t_bg t) plain)).

(** Indexing the sixteen ANSI colours cannot fail; the default stands for no colour. *)
Definition from_palette (p : Palette) : LegacyTheme :=
  MkLegacy (to_ratatui (pl_bg p)) (to_ratatui (pl_bg_dim p)) (to_ratatui (pl_bg_dim p)) (to_ratatui (pl_border p))
    (to_ratatui (pl_border_focus p)) (to_ratatui (pl_accent p)) (to_ratatui (pl_warn p)) (to_ratatui (pl_cursor p))
    (to_ratatui (pl_fg p)) (to_ratatui (pl_fg_dim p)) (to_ratatui (pl_ok p)) (to_ratatui (pl_error p))
    (from_option to_ratatui Reset (pl_ansi p !! 4%nat)).

Definition EMBER : LegacyTheme :=
  MkLegacy (RgbColor 0x0d 0x0a 0x08) (RgbColor 0x1a 0x14 0x10) (RgbColor 0x25 0x1b 0x14) (RgbColor 0x3d 0x2a 0x1f)
    (RgbColor 0xff 0x6b 0x35) (RgbColor 0xff 0x6b 0x35) (RgbColor 0xff 0xb3 0x47) (RgbColor 0xf7 0xc9 0x48)
    (RgbColor 0xe8 0xe3 0xd8) (RgbColor 0x7a 0x5c 0x4a) (RgbColor 0x6d 0xbf 0x6a) (RgbColor 0xe0 0x52 0x4d)
    (RgbColor 0x5a 0x9f 0xd4).

(** [ThemeRef]: the same styles straight from a palette. *)
Module ThemeRef.
Section Ref.
Context (p : Palette).
Definition ref_bg_style : Style := fg (to_ratatui (pl_fg p)) (bg (to_ratatui (pl_bg p)) plain).
Definition ref_tab_active : Style := add_modifier BOLD (bg (to_ratatui (pl_accent p)) (fg (to_ratatui (pl_bg p)) plain)).
Definition ref_tab_inactive : Style := bg (to_ratatui (pl_bg_dim p)) (fg (to_ratatui (pl_fg_dim p)) plain).
Definition ref_status : Style := bg (to_ratatui (pl_bg_dim p)) (fg (to_ratatui (pl_fg p)) plain).
Definition ref_border : Style := fg (to_ratatui (pl_border p)) plain.
Definition ref_border_focus : Style := fg (to_ratatui (pl_border_focus p)) plain.
Definition ref_overlay : Style := fg (to_ratatui (pl_fg p)) (bg (to_ratatui (pl_bg_dim p)) plain).
Definition ref_selection : Style := add_modifier BOLD (bg (to_ratatui (pl_cursor p)) (fg (to_ratatui (pl_bg p)) plain)).
End Ref.
End ThemeRef.

(** ** fire_motion.rs: pulsing colours *)
Class FireMath := {
  f32 : Type;
  pulse_phase : Z → Z → Z → f32;            (** frame, seed, speed in tenths *)
  border_mix : f32 → f32 → f32;             (** [(p * 0.65 + flicker * 0.35).clamp(0.0, 1.0)] *)
  fg_mix : f32 → Z → f32;                   (** [(p * strength).clamp(0.0, 1.0)], in hundredths *)
  lerp_u8 : Z → Z → f32 → Z }.

Section Pulse.
Context `{FireMath}.
Definition rgb_tuple (c : Color) : Z * Z * Z :=
  match c with RgbColor r g b => (r, g, b) | _ => (0xff, 0x6b, 0x35) end.
Definition lerp_rgb (a b : Z * Z * Z) (t : f32) : Color :=
  RgbColor (lerp_u8 a.1.1 b.1.1 t) (lerp_u8 a.1.2 b.1.2 t) (lerp_u8 a.2 b.2 t).

Definition ember_border_style (frame seed : Z) (base hot : Color) : Style :=
  let p := pulse_phase frame seed 140 in
  let flicker := pulse_phase (wrap_u64 (frame + 3)) (Z.lxor seed 0x9e37) 55 in
  fg (lerp_rgb (rgb_tuple base) (rgb_tuple hot) (border_mix p flicker)) plain.
Definition ember_fg_style (frame seed : Z) (base accent : Color) (strength : Z) : Style :=
  fg (lerp_rgb (rgb_tuple base) (rgb_tuple accent) (fg_mix (pulse_phase frame seed 120) strength)) plain.
Definition ember_title_style (frame seed : Z) (base accent : Color) : Style :=
  add_modifier BOLD (ember_fg_style frame seed base accent 85).
End Pulse.

(** The counter of frames: one tick per redraw. *)
Definition clock_tick (frame : Z) : Z := wrap_u64 (frame + 1).
(** [id.0.as_u128() as u32] *)
Definition seed_of (u : Uuid) : Z := wrap_u32 (Z.of_N u).

(** ** render/pane.rs: the colours of a terminal cell *)
Inductive NamedColor :=
  | NBlack | NRed | NGreen | NYellow | NBlue | NMagenta | NCyan | NWhite
  | BrightBlack | BrightRed | BrightGreen | BrightYellow | BrightBlue | BrightMagenta | BrightCyan | BrightWhite
  | Foreground | Background | Cursor
  | DimBlack | DimRed | DimGreen | DimYellow | DimBlue | DimMagenta | DimCyan | DimWhite
  | BrightForeground | DimForeground.
Inductive AnsiColor := Named (n : NamedColor) | Spec (r g b : Z) | AnsiIndexed (i : Z).

Definition ansi_color (c : AnsiColor) : option Color :=
  match c with
  | Named n =>
      match n with
      | NBlack | DimBlack => Some Black
      | NRed | DimRed => Some Red
      | NGreen | DimGreen => Some Green
      | NYellow | DimYellow => Some Yellow
      | NBlue | DimBlue => Some Blue
      | NMagenta | DimMagenta => Some Magenta
      | NCyan | DimCyan => Some Cyan
      | NWhite | DimWhite => Some Gray
      | BrightBlack => Some DarkGray
      | BrightRed => Some LightRed
      | BrightGreen => Some LightGreen
      | BrightYellow => Some LightYellow
      | BrightBlue => Some LightBlue
      | BrightMagenta => Some LightMagenta
      | BrightCyan => Some LightCyan
      | BrightWhite => Some White
      | Foreground | Background | Cursor | BrightForeground | DimForeground => None
      end
  | Spec r g b => Some (RgbColor r g b)
  | AnsiIndexed i => Some (Indexed i)
  end.

(** ** render/sidebar.rs *)
Definition state_dot_char (s : PaneStateKind) : string :=
  match s with
  | Running => "●" | WaitingInput => "◎" | Idle => "○" | Interactive => "◆" | Crashed => "✗" | Done => "◦"
  end.
Definition state_dot_color (s : PaneStateKind) (t : LegacyTheme) : Color :=
  match s with
  | Running => t_ok t | WaitingInput => t_spark t | Idle | Done => t_text_dim t | Interactive => t_info t | Crashed => t_err t
  end.

(** ** [(n as f32 * c) as u16]
    A u16 is exact in f32. The product with the f32 [m * 2^-24] is rounded to 24
    significant bits, to even when halfway, and then truncated. *)
Definition round_f32 (p : Z) : Z :=
  let s := Z.log2 p - 23 in
  if s <=? 0 then p
  else
    let q := Z.shiftr p s in
    let r := p - Z.shiftl q s in
    let half := Z.shiftl 1 (s - 1) in
    let q := if (half <? r) || ((r =? half) && Z.odd q) then q + 1 else q in
    Z.shiftl q s.
Definition scale_u16 (m n : Z) : Z := wrap_u16 (Z.shiftr (round_f32 (n * m)) 24).
(** The nearest f32 to 0.60 and to 0.70. *)
Definition f32_060 : Z := 10066330.
Definition f32_070 : Z := 11744051.

(** ** Lemmas *)
Fixpoint check_below (f : Z → bool) (fuel : nat) (z : Z) : bool :=
  match fuel with O => true | S fuel => f z && check_below f fuel (z + 1) end.
Lemma check_below_ok f fuel z : check_below f fuel z = true → ∀ x, z <= x < z + Z.of_nat fuel → f x = true.
Proof.
  revert z. induction fuel as [|fuel IH]; intros z Hc x Hx; [lia|]. cbn in Hc. apply andb_true_iff in Hc as [Hz Hc].
  destruct (decide (x = z)) as [->|Hne]; [done|]. apply (IH (z + 1)); [done|lia].
Qed.
(** The rounding never loses the integer part: the scaled sizes are exact. *)
Lemma scale_060 n : 0 <= n < 65536 → scale_u16 f32_060 n = 3 * n / 5.
Proof.
  intros Hn. apply Z.eqb_eq. revert n Hn.
  apply (check_below_ok (λ n, scale_u16 f32_060 n =? 3 * n / 5) (Z.to_nat 65536) 0). vm_compute. reflexivity.
Qed.
Lemma scale_070 n : 0 <= n < 65536 → scale_u16 f32_070 n = 7 * n / 10.
Proof.
  intros Hn. apply Z.eqb_eq. revert n Hn.
  apply (check_below_ok (λ n, scale_u16 f32_070 n =? 7 * n / 10) (Z.to_nat 65536) 0). vm_compute. reflexivity.
Qed.

(** The unused adapter and the one in use give the same styles. *)
Theorem theme_ref_agrees p :
  let t := from_palette p in
  ThemeRef.ref_bg_style p = bg_style t ∧ ThemeRef.ref_tab_active p = tab_active t ∧ ThemeRef.ref_tab_inactive p = tab_inactive t ∧
  ThemeRef.ref_status p = status_style t ∧ ThemeRef.ref_border p = border_style t ∧ ThemeRef.ref_border_focus p = border_focus_style t ∧
  ThemeRef.ref_overlay p = overlay_style t ∧ ThemeRef.ref_selection p = selection_style t.
Proof. by repeat split. Qed.

(** The constant kept as the Ember palette is not the Ember palette. *)
Example ember_constant_differs : t_bg EMBER ≠ t_bg (from_palette ember_PALETTE) ∧ t_primary EMBER ≠ t_primary (from_palette ember_PALETTE).
Proof. by split. Qed.
