(* ===== verification/TuiFire.v ===== *)
(** * TuiFire: the fire of the start screen, and the clipboard

    pyre-tui/src/fire_motion.rs (palette, random numbers, heat propagation) and
    splash.rs (bands of colour, the frames of the animation and what is written to the
    terminal). The wind, the updraft and the blending of colours are f32 arithmetic with
    sines: the class [FireField]. Module [Clipboard] is clipboard.rs. *)
From Stdlib Require Import Strings.Byte.
From S2P Require Import Prelude Proto Text Themes.
Local Open Scope Z_scope.

Module TuiFire.

(** ** fire_motion.rs *)
Definition Triple : Type := Z * Z * Z.
Definition PALETTE : list Triple :=
  [(0, 0, 0); (7, 7, 7); (31, 7, 7); (47, 15, 7); (71, 15, 7); (87, 23, 7);
   (103, 31, 7); (119, 31, 7); (143, 39, 7); (159, 47, 7); (175, 63, 7); (191, 71, 7);
   (199, 71, 7); (223, 79, 7); (223, 87, 7); (223, 87, 7); (215, 95, 7); (215, 95, 7);
   (215, 103, 15); (207, 111, 15); (207, 119, 15); (207, 127, 15); (207, 135, 23); (199, 135, 23);
   (199, 143, 23); (199, 151, 31); (191, 159, 31); (191, 159, 31); (191, 167, 39); (191, 167, 39);
   (191, 175, 47); (183, 175, 47); (183, 183, 47); (183, 183, 55); (207, 207, 111); (223, 223, 159);
   (239, 239, 199); (239, 239, 215); (239, 239, 223); (239, 243, 227); (243, 243, 231); (243, 243, 235);
   (245, 245, 237); (247, 247, 239); (249, 249, 241); (251, 251, 245); (253, 253, 249); (255, 255, 253);
   (255, 255, 255)].
Definition MAX_HEAT : Z := 48.
Definition color_at_heat (heat : Z) : option Triple := PALETTE !! Z.to_nat (Z.min heat MAX_HEAT).

(** *** The random numbers: a 32-bit xorshift *)
Definition rng_seed (subsec_nanos : option Z) : Z := Z.lxor (default 0x12345678 subsec_nanos) 0xdeadbeef.
Definition shl32 (x n : Z) : Z := wrap_u32 (Z.shiftl x n).
Definition rng_next (x : Z) : Z :=
  let x := Z.lxor x (shl32 x 13) in
  let x := Z.lxor x (Z.shiftr x 17) in
  Z.lxor x (shl32 x 5).
(** The value and the new state. *)
Definition rng_range (max x : Z) : Z * Z :=
  if max =? 0 then (0, x) else let x' := rng_next x in (x' mod max, x').

(** ** Heat *)
Class FireField := {
  wind_at : nat → nat → nat → nat → Z;        (** x, y, frame, columns: an i32 *)
  updraft_at : nat → nat → Z;                 (** x, columns: an i32 *)
  ember_bias : nat → nat → nat → Z;           (** x, frame, columns: a u8 *)
  blend_u8 : Z → Z → Z → Z → Z }.             (** base, theme, step, steps *)
Definition updraft_field `{FireField} (cols : nat) : list Z := (λ x, updraft_at x cols) <$> seq 0 cols.

(** A buffer and the generator; [None] is an index out of bounds. *)
Definition Fire : Type := list Z * Z.
Definition sat_sub_u8 (a b : Z) : Z := Z.max 0 (a - b).
Definition read (heat : list Z) (i : nat) : option Z := heat !! i.
Definition write (heat : list Z) (i : nat) (v : Z) : option (list Z) :=
  if (i <? length heat)%nat then Some (<[i := v]> heat) else None.

Section Fire.
Context `{FireField}.

(** One cell takes the heat of a cell below it, cooled. *)
Definition propagate_cell (cols heat_rows frame : nat) (cooling_base : Z) (updraft : list Z) (y x : nat) (s : Fire) :
    option Fire :=
  let '(heat, rng) := s in
  let src_x := Z.to_nat (clamp (Z.of_nat x + wind_at x y frame cols) 0 (Z.of_nat cols - 1)) in
  let '(src_y, rng) :=
    if (y + 2 <? heat_rows)%nat then
      let '(r, rng) := rng_range 8 rng in (if r =? 0 then (y + 2)%nat else (y + 1)%nat, rng)
    else ((y + 1)%nat, rng) in
  up ← updraft !! x;
  let cooling_adj := Z.max 0 (cooling_base - up) mod 256 in
  let '(per_cell, rng) := rng_range (cooling_adj + 1) rng in
  let total_cooling := Z.min 255 (per_cell mod 256 + cooling_base) in
  src_heat ← read heat (src_y * cols + src_x);
  heat ← write heat (y * cols + x) (sat_sub_u8 src_heat total_cooling);
  Some (heat, rng).

(** [for y in 0..heat_rows - 1 { for x in 0..cols { .. } }] *)
Definition cells (cols rows : nat) : list (nat * nat) := flat_map (λ y, (λ x, (y, x)) <$> seq 0 cols) (seq 0 rows).
Fixpoint each {A S} (f : A → S → option S) (l : list A) (s : S) : option S :=
  match l with [] => Some s | a :: l' => s' ← f a s; each f l' s' end.
Definition propagate (cols heat_rows frame : nat) (cooling_base : Z) (updraft : list Z) (s : Fire) : option Fire :=
  each (λ yx, propagate_cell cols heat_rows frame cooling_base updraft yx.1 yx.2) (cells cols (heat_rows - 1)) s.

(** ** splash.rs: colours *)
Record SplashColors := MkSplash {
  sc_core_hot : option Triple; sc_core : option Triple; sc_mid : option Triple; sc_edge : option Triple;
  sc_smoke : option Triple; sc_bg : option Triple; sc_title_fg : option Triple }.
Definition triple (c : Rgb) : Triple := (r8 c, g8 c, b8 c).
Definition from_palette (p : Palette) : SplashColors :=
  MkSplash (Some (triple (pl_cursor p))) (Some (triple (pl_border_focus p))) (Some (triple (pl_warn p)))
    (Some (triple (pl_accent p))) (Some (triple (pl_fg_dim p))) (Some (triple (pl_bg p))) (Some (triple (pl_fg p))).
Definition no_colors : SplashColors := MkSplash None None None None None None None.

Definition blend (base theme : Triple) (step steps : Z) : Triple :=
  (blend_u8 base.1.1 theme.1.1 step steps, blend_u8 base.1.2 theme.1.2 step steps, blend_u8 base.2 theme.2 step steps).
Definition band (c : option Triple) (base : Triple) (step steps : Z) : Triple :=
  match c with Some theme => blend base theme step steps | None => base end.
Definition heat_to_rgb (heat : Z) (sc : SplashColors) : option Triple :=
  let idx := Z.min heat MAX_HEAT in
  base ← PALETTE !! Z.to_nat idx;
  Some (if 38 <=? idx then default base (sc_core_hot sc)
        else if 29 <=? idx then band (sc_core sc) base (idx - 29) 8
        else if 20 <=? idx then band (sc_mid sc) base (idx - 20) 8
        else if 10 <=? idx then band (sc_edge sc) base (idx - 10) 9
        else if 3 <=? idx then band (sc_smoke sc) base (idx - 3) 6
        else default base (sc_bg sc)).

(** ** splash.rs: frames *)
Definition PHASE_A_END : nat := 14.
Definition FRAMES_TOTAL : nat := 65.
(** [((heat_rows as f32 / 14.0).ceil() as usize).clamp(2, 16)]: the quotient of a small
    integer by 14 is never rounded to an integer. *)
Definition passes_per_frame_a (heat_rows : nat) : nat := Nat.max 2 (Nat.min 16 ((heat_rows + 13) / 14)).

(** The two bottom rows of a column in the first phase. *)
Definition seed_column (cols heat_rows frame : nat) (x : nat) (s : Fire) : option Fire :=
  let '(heat, rng) := s in
  let bottom := (heat_rows - 1)%nat in
  let '(r, rng) := rng_range 3 rng in
  let v := sat_sub_u8 MAX_HEAT (wrap_u 8 (r + ember_bias x frame cols)) in
  heat ← write heat (bottom * cols + x) v;
  if (1 <=? bottom)%nat then
    let '(r2, rng) := rng_range 2 rng in
    heat ← write heat ((bottom - 1) * cols + x) (sat_sub_u8 v r2); Some (heat, rng)
  else Some (heat, rng).

(** The buffer moves up a row, the bottom row is cold. *)
Definition shift_up (cols heat_rows : nat) (heat : list Z) : list Z :=
  drop cols heat ++ replicate (Nat.min cols (length heat)) 0.

Definition fire_frame (cols heat_rows : nat) (updraft : list Z) (frame : nat) (s : Fire) : option Fire :=
  if (frame <? PHASE_A_END)%nat then
    s ← each (seed_column cols heat_rows frame) (seq 0 cols) s;
    each (λ _, propagate cols heat_rows frame 0 updraft) (seq 0 (passes_per_frame_a heat_rows)) s
  else
    let '(heat, rng) := s in
    let cooling_base := Z.of_nat ((frame - PHASE_A_END) * 3 / (FRAMES_TOTAL - PHASE_A_END)) mod 256 in
    propagate cols heat_rows frame cooling_base updraft (shift_up cols heat_rows heat, rng).

(** What is written: the two sequences around the animation, and per frame a half block
    in two colours for each column of each row. *)
Inductive Out :=
  | EnterScreen | LeaveScreen
  | Home | ResetNewline | ResetStyle
  | HalfBlock (upper lower : Triple).

Definition half_block (cols rows : nat) (sc : SplashColors) (heat : list Z) (tr x : nat) : option Out :=
  top ← read heat (tr * 2 * cols + x);
  bot ← if (tr * 2 + 1 <? rows * 2)%nat then read heat ((tr * 2 + 1) * cols + x) else Some 0;
  u ← heat_to_rgb (Z.min top MAX_HEAT) sc;
  l ← heat_to_rgb (Z.min bot MAX_HEAT) sc;
  Some (HalfBlock u l).
Definition frame_row (cols rows : nat) (sc : SplashColors) (heat : list Z) (tr : nat) : option (list Out) :=
  blocks ← mapM (half_block cols rows sc heat tr) (seq 0 cols);
  Some (blocks ++ if (tr + 1 <? rows)%nat then [ResetNewline] else []).
Definition frame_out (cols rows : nat) (sc : SplashColors) (heat : list Z) : option (list Out) :=
  lines ← mapM (frame_row cols rows sc heat) (seq 0 rows);
  Some (Home :: concat lines ++ [ResetStyle]).

(** A write to the terminal succeeds or not; an error ends the splash at once. *)
Fixpoint run_frames (cols rows : nat) (updraft : list Z) (sc : SplashColors) (writes : nat → bool) (fs : list nat)
    (s : Fire) (out : list Out) : option (list Out * bool) :=
  match fs with
  | [] => Some (out, true)
  | frame :: fs' =>
      s ← fire_frame cols (rows * 2) updraft frame s;
      o ← frame_out cols rows sc s.1;
      if writes frame then run_frames cols rows updraft sc writes fs' s (out ++ o) else Some (out, false)
  end.

(** [None] is a panic; the flag is [Ok]. *)
Definition run_fire (size : option (Z * Z)) (subsec_nanos : option Z) (opens : bool) (writes : nat → bool) (closes : bool)
    (sc : SplashColors) : option (list Out * bool) :=
  let '(term_cols, term_rows) := default (80, 24) size in
  if (term_cols =? 0) || (term_rows =? 0) then Some ([], true)
  else if opens then
    let cols := Z.to_nat term_cols in
    let rows := Z.to_nat term_rows in
    r ← run_frames cols rows (updraft_field cols) sc writes (seq 0 FRAMES_TOTAL)
          (replicate (cols * (rows * 2)) 0, rng_seed subsec_nanos) [EnterScreen];
    let '(out, ok) := r in
    Some (if ok : bool then if closes then (out ++ [LeaveScreen], true) else (out, false) else (out, false))
  else Some ([], false).

(** [play_splash]: the flag, the environment and the terminal can each skip it; its
    error is ignored. *)
Definition play_splash (no_splash : bool) (env_no_splash : option string) (is_terminal : bool) (colors : option SplashColors)
    (size : option (Z * Z)) (subsec_nanos : option Z) (opens : bool) (writes : nat → bool) (closes : bool) : option (list Out) :=
  if no_splash || bool_decide (env_no_splash = Some "1") || negb is_terminal then Some []
  else fst <$> run_fire size subsec_nanos opens writes closes (default no_colors colors).
End Fire.

(** ** The generator never sticks at zero *)
Definition u32 (x : Z) : Prop := 0 <= x < 2 ^ 32.
Lemma shl32_fixed x n : u32 x → 0 <= n → Z.gcd (2 ^ 32) (2 ^ n - 1) = 1 → x = shl32 x n → x = 0.
Proof.
  intros Hx Hn Hgcd Heq. unfold shl32, wrap_u32, wrap_u in Heq. rewrite Z.shiftl_mul_pow2 in Heq by lia.
  assert ((2 ^ 32 | (2 ^ n - 1) * x)) as Hdiv.
  { exists (x * 2 ^ n / 2 ^ 32). pose proof (Z.div_mod (x * 2 ^ n) (2 ^ 32) ltac:(lia)). lia. }
  apply Z.gauss in Hdiv; [|done]. destruct (decide (x = 0)); [done|]. unfold u32 in Hx. apply Z.divide_pos_le in Hdiv; lia.
Qed.
Lemma shr_fixed x n : 0 <= x → 0 < n → x = Z.shiftr x n → x = 0.
Proof.
  intros Hx Hn Heq. rewrite Z.shiftr_div_pow2 in Heq by lia. destruct (decide (x = 0)); [done|].
  assert (1 < 2 ^ n) by (by apply Z.pow_gt_1). pose proof (Z.div_lt x (2 ^ n)). lia.
Qed.
Lemma lxor_u32 a b : u32 a → u32 b → u32 (Z.lxor a b).
Proof.
  unfold u32. intros Ha Hb. assert (0 <= Z.lxor a b) by (by apply Z.lxor_nonneg; lia). split; [done|].
  destruct (decide (Z.lxor a b = 0)) as [->|]; [lia|]. apply Z.log2_lt_pow2; [lia|].
  assert (∀ c, 0 <= c < 2 ^ 32 → Z.log2 c < 32) as Hlog.
  { intros c Hc. destruct (decide (c = 0)) as [->|]; [by cbn|]. by apply Z.log2_lt_pow2; lia. }
  pose proof (Z.log2_lxor a b ltac:(lia) ltac:(lia)). pose proof (Hlog a Ha). pose proof (Hlog b Hb). lia.
Qed.
Lemma shl32_u32 x n : u32 (shl32 x n).
Proof. unfold u32, shl32, wrap_u32, wrap_u. apply Z.mod_pos_bound. lia. Qed.

Lemma rng_next_ok x : u32 x → u32 (rng_next x) ∧ (x ≠ 0 → rng_next x ≠ 0).
Proof.
  intros Hx. unfold rng_next. set (a := Z.lxor x (shl32 x 13)). set (b := Z.lxor a (Z.shiftr a 17)).
  assert (u32 a) as Ha by (apply lxor_u32; [done|apply shl32_u32]).
  assert (u32 (Z.shiftr a 17)) as Hs.
  { unfold u32 in *. rewrite Z.shiftr_div_pow2 by lia. split; [apply Z.div_pos; lia|].
    apply Z.div_lt_upper_bound; lia. }
  assert (u32 b) as Hb by by apply lxor_u32.
  split; [apply lxor_u32; [done|apply shl32_u32]|]. intros Hne.
  assert (a ≠ 0) as Ha0 by (intros E%Z.lxor_eq; apply Hne; by apply (shl32_fixed x 13)).
  assert (b ≠ 0) as Hb0.
  { intros E%Z.lxor_eq. apply Ha0. apply (shr_fixed a 17); [|lia|done]. unfold u32 in Ha. lia. }
  intros E%Z.lxor_eq. apply Hb0. by apply (shl32_fixed b 5).
Qed.

(** The clock's nanoseconds cannot make the seed zero. *)
Lemma rng_seed_ok nanos : (∀ n, nanos = Some n → 0 <= n < 10 ^ 9) → u32 (rng_seed nanos) ∧ rng_seed nanos ≠ 0.
Proof.
  intros Hn. unfold rng_seed. destruct nanos as [n|]; cbn [default from_option].
  - specialize (Hn n eq_refl). split; [apply lxor_u32; unfold u32; cbn; lia|]. intros E%Z.lxor_eq. cbn in *. lia.
  - split; [by vm_compute|by vm_compute].
Qed.

(** ** Nothing is read or written outside the buffer *)
Section Safe.
Context `{FireField}.

Lemma each_inv {A S} (P : S → Prop) (f : A → S → option S) l s :
  (∀ a s, a ∈ l → P s → ∃ s', f a s = Some s' ∧ P s') → P s → ∃ s', each f l s = Some s' ∧ P s'.
Proof.
  revert s. induction l as [|a l IH]; intros s Hf Hs; [by exists s|]. cbn [each].
  destruct (Hf a s) as (s' & -> & Hs'); [by left|done|]. cbn. apply IH; [|done]. intros a' s'' Ha'. apply Hf. by right.
Qed.

Definition warm (v : Z) : Prop := 0 <= v <= MAX_HEAT.
Definition fire_ok (cols heat_rows : nat) (s : Fire) : Prop := length s.1 = (cols * heat_rows)%nat ∧ Forall warm s.1.

Lemma sat_sub_warm v c : warm v → 0 <= c → warm (sat_sub_u8 v c).
Proof. unfold warm, sat_sub_u8, MAX_HEAT. lia. Qed.
Lemma write_ok cols heat_rows heat rng y x v :
  fire_ok cols heat_rows (heat, rng) → (y < heat_rows)%nat → (x < cols)%nat → warm v →
  ∃ heat', write heat (y * cols + x) v = Some heat' ∧ ∀ r, fire_ok cols heat_rows (heat', r).
Proof.
  intros [Hlen Hw] Hy Hx Hv. cbn [fst] in *. unfold write. exists (<[(y * cols + x)%nat := v]> heat).
  destruct (Nat.ltb_spec (y * cols + x) (length heat)); [|nia]. split; [done|]. intros r. split; cbn [fst].
  - by rewrite length_insert.
  - by apply Forall_insert.
Qed.
Lemma read_ok cols heat_rows heat rng y x :
  fire_ok cols heat_rows (heat, rng) → (y < heat_rows)%nat → (x < cols)%nat →
  ∃ v, read heat (y * cols + x) = Some v ∧ warm v.
Proof.
  intros [Hlen Hw] Hy Hx. cbn [fst] in *. unfold read. destruct (heat !! (y * cols + x)%nat) as [v|] eqn:E.
  - exists v. split; [done|]. by eapply Forall_lookup_1.
  - apply lookup_ge_None in E. nia.
Qed.
Lemma cells_elem cols rows yx : yx ∈ cells cols rows → (yx.1 < rows)%nat ∧ (yx.2 < cols)%nat.
Proof.
  unfold cells. intros Hin. apply list_elem_of_In, in_flat_map in Hin as (y & Hy%in_seq & Hx).
  apply list_elem_of_In, list_elem_of_fmap in Hx as (x & -> & Hx%elem_of_seq). cbn. lia.
Qed.

Lemma propagate_cell_ok cols heat_rows frame base updraft y x s :
  fire_ok cols heat_rows s → length updraft = cols → (y < heat_rows - 1)%nat → (x < cols)%nat → 0 <= base →
  ∃ s', propagate_cell cols heat_rows frame base updraft y x s = Some s' ∧ fire_ok cols heat_rows s'.
Proof.
  intros Hs Hup Hy Hx Hbase. destruct s as [heat rng]. unfold propagate_cell.
  set (src_x := Z.to_nat _). assert (src_x < cols)%nat as Hsx.
  { unfold src_x. pose proof (clamp_bounds (Z.of_nat x + wind_at x y frame cols) 0 (Z.of_nat cols - 1) ltac:(lia)). lia. }
  assert (∃ sy rng', (if (y + 2 <? heat_rows)%nat then let '(r, rng0) := rng_range 8 rng in ((if r =? 0 then (y + 2)%nat else (y + 1)%nat), rng0)
            else ((y + 1)%nat, rng)) = (sy, rng') ∧ (sy < heat_rows)%nat) as (sy & rng' & -> & Hsy).
  { destruct (Nat.ltb_spec (y + 2) heat_rows); [|exists (y + 1)%nat, rng; split; [done|lia]].
    destruct (rng_range 8 rng) as [r rng0]. eexists _, rng0. split; [done|]. destruct (r =? 0); lia. }
  destruct (lookup_lt_is_Some_2 updraft x) as [up ->]; [lia|]. cbn [mbind option_bind].
  set (adj := Z.max 0 (base - up) mod 256 + 1). destruct (rng_range adj rng') as [per rng''] eqn:Er.
  destruct (read_ok cols heat_rows heat rng sy src_x Hs Hsy Hsx) as (v & -> & Hv). cbn [mbind option_bind].
  destruct (write_ok cols heat_rows heat rng y x (sat_sub_u8 v (Z.min 255 (per mod 256 + base)))) as (heat' & -> & Hok); [done|lia|done| |].
  - apply sat_sub_warm; [done|]. pose proof (Z.mod_pos_bound per 256 ltac:(lia)). lia.
  - eexists. split; [done|]. apply Hok.
Qed.

Lemma propagate_ok cols heat_rows frame base updraft s :
  fire_ok cols heat_rows s → length updraft = cols → 0 <= base →
  ∃ s', propagate cols heat_rows frame base updraft s = Some s' ∧ fire_ok cols heat_rows s'.
Proof.
  intros Hs Hup Hbase. apply each_inv; [|done]. intros [y x] s' [Hy Hx]%cells_elem Hs'. by apply propagate_cell_ok.
Qed.

Lemma seed_column_ok cols heat_rows frame x s :
  fire_ok cols heat_rows s → (x < cols)%nat → (0 < heat_rows)%nat →
  ∃ s', seed_column cols heat_rows frame x s = Some s' ∧ fire_ok cols heat_rows s'.
Proof.
  intros Hs Hx Hr. destruct s as [heat rng]. unfold seed_column. destruct (rng_range 3 rng) as [r rng1] eqn:E1.
  set (v := sat_sub_u8 MAX_HEAT _). assert (warm v) as Hv.
  { apply sat_sub_warm; [unfold warm, MAX_HEAT; lia|]. unfold wrap_u. apply Z.mod_pos_bound. lia. }
  destruct (write_ok cols heat_rows heat rng (heat_rows - 1) x v) as (heat1 & -> & Hok1); [done|lia|done|done|]. cbn [mbind option_bind].
  destruct (Nat.leb_spec 1 (heat_rows - 1)); [|eexists; split; [done|apply Hok1]].
  destruct (rng_range 2 rng1) as [r2 rng2] eqn:E2.
  destruct (write_ok cols heat_rows heat1 rng2 (heat_rows - 1 - 1) x (sat_sub_u8 v r2)) as (heat2 & -> & Hok2); [apply Hok1|lia|done| |].
  - apply sat_sub_warm; [done|]. unfold rng_range in E2. cbn in E2. injection E2 as <- _. apply Z.mod_pos_bound. lia.
  - cbn. eexists. split; [done|]. apply Hok2.
Qed.

Lemma shift_up_ok cols heat_rows heat rng r :
  fire_ok cols heat_rows (heat, rng) → (0 < heat_rows)%nat → fire_ok cols heat_rows (shift_up cols heat_rows heat, r).
Proof.
  intros [Hlen Hw] Hr. cbn [fst] in *. split; cbn [fst]; unfold shift_up.
  - rewrite length_app, length_drop, length_replicate. nia.
  - apply Forall_app. split; [by apply Forall_drop|]. apply Forall_replicate. unfold warm, MAX_HEAT. lia.
Qed.

Lemma fire_frame_ok cols heat_rows updraft frame s :
  fire_ok cols heat_rows s → length updraft = cols → (0 < heat_rows)%nat →
  ∃ s', fire_frame cols heat_rows updraft frame s = Some s' ∧ fire_ok cols heat_rows s'.
Proof.
  intros Hs Hup Hr. unfold fire_frame. destruct (frame <? PHASE_A_END)%nat.
  - destruct (each_inv (fire_ok cols heat_rows) (seed_column cols heat_rows frame) (seq 0 cols) s) as (s1 & -> & Hs1); [|done|].
    { intros x s1 Hx%elem_of_seq Hs1. apply seed_column_ok; [done|lia|done]. }
    cbn [mbind option_bind]. apply each_inv; [|done]. intros _ s2 _ Hs2. by apply propagate_ok.
  - destruct s as [heat rng]. apply propagate_ok; [by eapply shift_up_ok|done|]. apply Z.mod_pos_bound. lia.
Qed.

Lemma palette_total v : warm v → ∃ c, PALETTE !! Z.to_nat v = Some c.
Proof. intros Hv. apply lookup_lt_is_Some_2. unfold warm, MAX_HEAT in Hv. cbn. lia. Qed.
Lemma heat_to_rgb_total v sc : warm v → ∃ c, heat_to_rgb (Z.min v MAX_HEAT) sc = Some c.
Proof.
  intros Hv. unfold heat_to_rgb. destruct (palette_total v Hv) as (base & Hbase). unfold warm in Hv.
  rewrite !Z.min_l by lia. rewrite Hbase. by eexists.
Qed.

Lemma mapM_total {A B} (f : A → option B) l : (∀ a, a ∈ l → ∃ b, f a = Some b) → ∃ bs, mapM f l = Some bs ∧ length bs = length l.
Proof.
  induction l as [|a l IH]; intros Hf; [by exists []|]. destruct (Hf a) as (b & Hb); [by left|].
  destruct IH as (bs & Hbs & Hlen); [intros; apply Hf; by right|]. exists (b :: bs). cbn. rewrite Hb. cbn. rewrite Hbs. cbn. by rewrite Hlen.
Qed.

(** ** What is drawn *)
Definition is_block (o : Out) : bool := match o with HalfBlock _ _ => true | _ => false end.
Definition blocks (out : list Out) : nat := length (filter (λ o, is_block o = true) out).
Lemma blocks_app a b : blocks (a ++ b) = (blocks a + blocks b)%nat.
Proof. unfold blocks. by rewrite filter_app, length_app. Qed.

(** Drawn: half blocks between sequences that do not leave the screen. *)
Definition drawn (n : nat) (out : list Out) : Prop := blocks out = n ∧ LeaveScreen ∉ out.
Lemma drawn_app m n a b : drawn m a → drawn n b → drawn (m + n) (a ++ b).
Proof. intros [Ha Hla] [Hb Hlb]. split; [by rewrite blocks_app, Ha, Hb|]. rewrite elem_of_app. tauto. Qed.
Lemma drawn_nil : drawn 0 [].
Proof. split; [done|]. by intros ?%elem_of_nil. Qed.
Lemma drawn_concat n ls : Forall (drawn n) ls → drawn (length ls * n) (concat ls).
Proof. induction 1; cbn [concat length Nat.mul]; [apply drawn_nil|by apply drawn_app]. Qed.

Lemma half_block_ok cols rows sc s tr x :
  fire_ok cols (rows * 2) s → (tr < rows)%nat → (x < cols)%nat → ∃ o, half_block cols rows sc s.1 tr x = Some o ∧ drawn 1 [o].
Proof.
  intros Hs Htr Hx. destruct s as [heat rng]. unfold half_block. cbn [fst].
  destruct (read_ok cols (rows * 2) heat rng (tr * 2) x Hs) as (top & -> & Ht); [lia|done|]. cbn [mbind option_bind].
  destruct (Nat.ltb_spec (tr * 2 + 1) (rows * 2)); [|lia].
  destruct (read_ok cols (rows * 2) heat rng (tr * 2 + 1) x Hs) as (bot & -> & Hb); [lia|done|]. cbn [mbind option_bind].
  destruct (heat_to_rgb_total (Z.min top MAX_HEAT) sc) as (u & Hu); [unfold warm, MAX_HEAT in *; lia|].
  destruct (heat_to_rgb_total (Z.min bot MAX_HEAT) sc) as (l & Hl); [unfold warm, MAX_HEAT in *; lia|].
  unfold warm in *. rewrite Z.min_l in Hu, Hl by lia. rewrite Hu. cbn [mbind option_bind]. rewrite Hl. eexists. split; [done|].
  split; [done|]. by rewrite list_elem_of_singleton.
Qed.

Lemma mapM_drawn {A} (f : A → option Out) l :
  (∀ a, a ∈ l → ∃ o, f a = Some o ∧ drawn 1 [o]) → ∃ os, mapM f l = Some os ∧ drawn (length l) os.
Proof.
  induction l as [|a l IH]; intros Hf; [exists []; by split; [|apply drawn_nil]|].
  destruct (Hf a) as (o & Ho & Hd); [by left|]. destruct IH as (os & Hos & Hds); [intros; apply Hf; by right|].
  exists (o :: os). cbn. rewrite Ho. cbn. rewrite Hos. split; [done|]. by apply (drawn_app 1 (length l) [o] os).
Qed.
Lemma mapM_rows {A} (f : A → option (list Out)) n l :
  (∀ a, a ∈ l → ∃ o, f a = Some o ∧ drawn n o) → ∃ os, mapM f l = Some os ∧ Forall (drawn n) os ∧ length os = length l.
Proof.
  induction l as [|a l IH]; intros Hf; [by exists []|].
  destruct (Hf a) as (o & Ho & Hd); [by left|]. destruct IH as (os & Hos & Hds & Hlen); [intros; apply Hf; by right|].
  exists (o :: os). cbn. rewrite Ho. cbn. rewrite Hos. split_and!; [done|by constructor|cbn; by rewrite Hlen].
Qed.

Lemma frame_out_ok cols rows sc s :
  fire_ok cols (rows * 2) s → ∃ o, frame_out cols rows sc s.1 = Some o ∧ drawn (rows * cols) o.
Proof.
  intros Hs. unfold frame_out.
  destruct (mapM_rows (frame_row cols rows sc s.1) cols (seq 0 rows)) as (ls & -> & Hd & Hlen).
  { intros tr Htr%elem_of_seq. unfold frame_row.
    destruct (mapM_drawn (half_block cols rows sc s.1 tr) (seq 0 cols)) as (bs & -> & Hb).
    { intros x Hx%elem_of_seq. apply half_block_ok; [done|lia|lia]. }
    cbn [mbind option_bind]. eexists. split; [done|]. rewrite length_seq in Hb. rewrite <- (Nat.add_0_r cols). apply drawn_app; [done|].
    destruct (tr + 1 <? rows)%nat; [|apply drawn_nil]. split; [done|]. by rewrite list_elem_of_singleton. }
  cbn. eexists. split; [done|]. rewrite length_seq in Hlen. pose proof (drawn_concat _ _ Hd) as Hc. rewrite Hlen in Hc.
  assert (∀ o, is_block o = false → o ≠ LeaveScreen → drawn 0 [o]) as Hone.
  { intros o Ho Hne. split; [unfold blocks; by rewrite filter_cons_False by congruence|]. rewrite list_elem_of_singleton. congruence. }
  rewrite <- (Nat.add_0_r (rows * cols)). apply (drawn_app 0 _ [Home]); [by apply Hone|].
  apply drawn_app; [done|]. by apply Hone.
Qed.

Lemma run_frames_ok cols rows updraft sc writes fs s out n :
  fire_ok cols (rows * 2) s → length updraft = cols → (0 < rows)%nat → drawn n out →
  ∃ out' n', run_frames cols rows updraft sc writes fs s out = Some (out', forallb writes fs) ∧ drawn n' out' ∧
    (forallb writes fs = true → n' = (n + length fs * (rows * cols))%nat).
Proof.
  intros Hs Hup Hr. revert s out n Hs. induction fs as [|frame fs IH]; intros s out n Hs Hd.
  { exists out, n. split; [done|]. split; [done|]. cbn. lia. }
  cbn [run_frames forallb]. destruct (fire_frame_ok cols (rows * 2) updraft frame s) as (s1 & -> & Hs1); [done..|lia|]. cbn [mbind option_bind].
  destruct (frame_out_ok cols rows sc s1 Hs1) as (o & -> & Ho). cbn [mbind option_bind].
  destruct (writes frame); [|by exists out, n].
  destruct (IH s1 (out ++ o) (n + rows * cols)%nat Hs1) as (out' & n' & Hrun & Hd' & Hn); [by apply drawn_app|].
  exists out', n'. split; [done|]. split; [done|]. intros Hall. rewrite (Hn Hall). cbn [length Nat.mul]. lia.
Qed.
End Safe.

(** the start screen is safe whatever the wind. For every size a terminal can have,
    every clock and every outcome of the writes, and whatever the f32 fields give, no
    index leaves the heat buffer, the palette or the updraft. When every write succeeds,
    65 frames of a half block per column and row are drawn and the screen is left as the
    last thing; when a write fails nothing leaves it. *)
Theorem splash_is_safe `{FireField} term_cols term_rows nanos opens writes closes sc
    (Hc : 0 <= term_cols < 65536) (Hr : 0 <= term_rows < 65536) :
  ∃ out ok, run_fire (Some (term_cols, term_rows)) nanos opens writes closes sc = Some (out, ok) ∧
    (ok = false → LeaveScreen ∉ out) ∧
    (ok = true → term_cols ≠ 0 → term_rows ≠ 0 →
       last out = Some LeaveScreen ∧ blocks out = (FRAMES_TOTAL * Z.to_nat (term_rows * term_cols))%nat).
Proof.
  unfold run_fire. cbn [default from_option id]. destruct ((term_cols =? 0) || (term_rows =? 0)) eqn:Ez.
  { exists [], true. split; [done|]. split; [done|]. intros _ ? ?. apply orb_true_iff in Ez as [?%Z.eqb_eq|?%Z.eqb_eq]; lia. }
  apply orb_false_iff in Ez as [Hcz%Z.eqb_neq Hrz%Z.eqb_neq].
  destruct opens; [|exists [], false; split; [done|]; split; [by intros _ ?%elem_of_nil|done]].
  set (cols := Z.to_nat term_cols). set (rows := Z.to_nat term_rows).
  destruct (run_frames_ok cols rows (updraft_field cols) sc writes (seq 0 FRAMES_TOTAL)
    (replicate (cols * (rows * 2)) 0, rng_seed nanos) [EnterScreen] 0) as (out & n & -> & [Hb Hl] & Hn).
  - split; cbn [fst]; [by rewrite length_replicate|]. apply Forall_replicate. unfold warm, MAX_HEAT. lia.
  - unfold updraft_field. by rewrite length_fmap, length_seq.
  - unfold rows. lia.
  - split; [done|]. by rewrite list_elem_of_singleton.
  - cbn [mbind option_bind]. destruct (forallb writes (seq 0 FRAMES_TOTAL)); [destruct closes|].
    + exists (out ++ [LeaveScreen]), true. split; [done|]. split; [done|]. intros _ _ _. split; [by rewrite last_snoc|].
      rewrite blocks_app, Hb, Hn by done. rewrite length_seq. unfold rows, cols.
      rewrite Z2Nat.inj_mul by lia. change (blocks [LeaveScreen]) with 0%nat. lia.
    + by exists out, false.
    + by exists out, false.
Qed.

#[local] Instance still_air : FireField := {|
  wind_at _ _ _ _ := 3; updraft_at _ _ := -1; ember_bias _ _ _ := 2; blend_u8 base theme _ _ := (base + theme) / 2 |}.
Lemma splash_is_safe_witness :
  ∃ out, run_fire (Some (3, 2)) None true (λ _, true) true no_colors = Some (out, true) ∧
    last out = Some LeaveScreen ∧ blocks out = 390%nat.
Proof.
  destruct (splash_is_safe 3 2 None true (λ _, true) true no_colors) as (out & ok & Hrun & _ & Hok); [lia..|].
  exists out. assert (ok = true) as ->; [|split; [exact Hrun|]; by apply Hok].
  assert (snd <$> run_fire (Some (3, 2)) None true (λ _, true) true no_colors = Some true) as Hs by (vm_compute; reflexivity).
  rewrite Hrun in Hs. by injection Hs.
Defined.
End TuiFire.

(** ** The clipboard (clipboard.rs)
    The first tool found is kept for the life of the process, and every copy pipes its
    text into it. TuiKeys has the calls and what they say. *)
Module Clipboard.
Inductive Backend := WlCopy | Xclip | Xsel | Pbcopy.
#[export] Instance Backend_eq_dec : EqDecision Backend.
Proof. solve_decision. Defined.
Inductive CopyError := NoTool | SpawnFailed | StdinNotCaptured | WriteFailed | WaitFailed | ExitStatus (status : Z).

(** What the system does during a copy: the status [which] ends with for a program
    ([None]: it cannot be run), whether a command starts, its standard input is there and
    takes the text, and how it ends. *)
Record Attempt := MkAttempt {
  at_which : string → option Z; at_spawns : bool; at_stdin : bool; at_writes : bool; at_status : option Z }.

Definition which (a : Attempt) (program : string) : bool := bool_decide (at_which a program = Some 0).
Fixpoint first_found (a : Attempt) (l : list (string * Backend)) : option Backend :=
  match l with
  | [] => None
  | (name, backend) :: l' => if which a name then Some backend else first_found a l'
  end.
Definition detect_backend (macos : bool) (a : Attempt) : option Backend :=
  if macos then (if which a "pbcopy" then Some Pbcopy else None)
  else first_found a [("wl-copy", WlCopy); ("xclip", Xclip); ("xsel", Xsel)].

Definition command (b : Backend) : string * list string :=
  match b with
  | WlCopy => ("wl-copy", [])
  | Xclip => ("xclip", ["-selection"; "clipboard"])
  | Xsel => ("xsel", ["--clipboard"; "--input"])
  | Pbcopy => ("pbcopy", [])
  end.

(** The static [OnceLock], and a copy: the command that got the text, or the error. *)
Definition Backends : Type := option (option Backend).
Definition get_or_init (init : option Backend) (cache : Backends) : option Backend := default init cache.
Definition copy_to_clipboard (macos : bool) (a : Attempt) (text : string) (cache : Backends) :
    Backends * result CopyError (string * list string * Bytes) :=
  let found := get_or_init (detect_backend macos a) cache in
  (Some found,
   match found with
   | None => Err NoTool
   | Some backend =>
       if negb (at_spawns a) then Err SpawnFailed
       else if negb (at_stdin a) then Err StdinNotCaptured
       else if negb (at_writes a) then Err WriteFailed
       else match at_status a with
            | None => Err WaitFailed
            | Some status => if status =? 0 then Ok (command backend, str_bytes text) else Err (ExitStatus status)
            end
   end).
(** The copies of a process, one after another. *)
Fixpoint copies (macos : bool) (l : list (Attempt * string)) (cache : Backends) :
    list (result CopyError (string * list string * Bytes)) :=
  match l with
  | [] => []
  | (a, text) :: l' =>
      let '(cache', r) := copy_to_clipboard macos a text cache in r :: copies macos l' cache'
  end.

(** ** Properties *)

(** A copy that succeeds has given the whole text to a command that ended well; the tool
    is one that was found. *)
Theorem copy_ok macos a text cache cache' cmd bytes :
  copy_to_clipboard macos a text cache = (cache', Ok (cmd, bytes)) →
  bytes = str_bytes text ∧ at_writes a = true ∧ at_status a = Some 0 ∧
  ∃ b, cache' = Some (Some b) ∧ cmd = command b ∧ (cache = None → which a cmd.1 = true).
Proof.
  unfold copy_to_clipboard. destruct (get_or_init _ cache) as [b|] eqn:Ef; [|done].
  repeat case_match; intros [= <- <- <-]; try done.
  match goal with H : (_ =? 0) = true |- _ => apply Z.eqb_eq in H as -> end.
  split_and!; [done|by apply negb_false_iff|done|]. exists b. split_and!; [done..|]. intros ->. cbn in Ef.
  unfold detect_backend in Ef. cbn [first_found] in Ef. repeat case_match; by simplify_eq.
Qed.
(** The tool is looked for once: what the first copy finds serves all that follow, and if
    it finds none they all fail, whatever is installed in the meantime. *)
Lemma copies_keep_tool macos l found :
  Forall (λ r, match r with
               | Ok (cmd, _) => ∃ b, found = Some b ∧ cmd = command b
               | Err NoTool => found = None
               | Err _ => is_Some found
               end) (copies macos l (Some found)).
Proof.
  induction l as [|[a text] l IH]; [constructor|]. cbn [copies copy_to_clipboard get_or_init default from_option].
  constructor; [|exact IH]. destruct found as [b|]; [|done]. repeat case_match; eauto; simplify_eq; eauto.
Qed.
Theorem tool_is_found_once macos a text l :
  match detect_backend macos a with
  | Some b => Forall (λ r, match r with Ok (cmd, _) => cmd = command b | Err e => e ≠ NoTool end) (copies macos ((a, text) :: l) None)
  | None => Forall (λ r, r = Err NoTool) (copies macos ((a, text) :: l) None)
  end.
Proof.
  assert (copies macos ((a, text) :: l) None = copies macos ((a, text) :: l) (Some (detect_backend macos a))) as -> by reflexivity.
  pose proof (copies_keep_tool macos ((a, text) :: l) (detect_backend macos a)) as Hk.
  destruct (detect_backend macos a) as [b|]; (eapply Forall_impl; [exact Hk|]); cbn; intros [[cmd bs]|[]].
  all: try done; try (by intros (b' & [= <-] & ->)); try (by intros (b' & ? & _)); by intros [? ?].
Qed.
End Clipboard.
