(* ===== verification/TuiPaint.v ===== *)
(** * TuiPaint: what a pane looks like

    pyre-tui/src/render/pane.rs: the border with its title, the cells of the terminal
    grouped into spans, the highlighted selection, the scroll bar and the ribbon of
    blocks. TuiDraw has what drawing does to the state; here is what it draws, as the
    calls on the frame. *)
From Stdlib Require Import Strings.Byte.
From S2P Require Import Prelude Proto Text Layout Libraries Themes Client Server Tui TuiPanes TuiKeys TuiDraw TuiLoop TuiExample TuiStyle.
Local Open Scope Z_scope.

(** What the grid of a terminal shows besides its characters: colours and flags, how far
    it is scrolled back once it was asked to be and was resized, and the cursor. *)
Record Flags := MkFlags {
  fl_bold : bool; fl_dim : bool; fl_italic : bool; fl_underline : bool; fl_inverse : bool; fl_hidden : bool; fl_strikeout : bool }.
Class TermCells := {
  cell_fg : Term → Z → nat → AnsiColor;
  cell_bg : Term → Z → nat → AnsiColor;
  cell_flags : Term → Z → nat → Flags;
  display_offset : Term → nat → Z;
  cursor_point : Term → Z * Z }.

(** ** Rows of cells *)
Definition style_of (f : option Color) (b : option Color) (fl : Flags) : Style :=
  let add (on : bool) (m : Modifier) (s : Style) := if on then add_modifier m s else s in
  add (fl_strikeout fl) CROSSED_OUT (add (fl_hidden fl) HIDDEN (add (fl_inverse fl) REVERSED
    (add (fl_underline fl) UNDERLINED (add (fl_italic fl) ITALIC (add (fl_dim fl) DIM (add (fl_bold fl) BOLD
      (bg (default Reset b) (fg (default Reset f) plain)))))))).
Definition no_flags : Flags := MkFlags false false false false false false false.

(** The loop over a row: a span for each run of cells of one style. *)
Fixpoint group_cells (cells : list (Z * Style)) (current_text : list Z) (current_style : Style) : Line :=
  let flush := if decide (current_text = []) then [] else [MkSpan current_text current_style] in
  match cells with
  | [] => flush
  | (ch, style) :: cells' =>
      if decide (style = current_style) then group_cells cells' (current_text ++ [ch]) current_style
      else flush ++ group_cells cells' [ch] style
  end.

Section Cells.
Context `{Alacritty, TermCells}.

(** Beyond the grid there are blanks. *)
Definition cell_at (t : Term) (offset : Z) (row col : nat) : Z * Style :=
  if (Z.of_nat row <? tm_lines t) && (Z.of_nat col <? tm_columns t) then
    let display_line := Z.of_nat row - offset in
    (char_or_space (cell t display_line col),
     style_of (ansi_color (cell_fg t display_line col)) (ansi_color (cell_bg t display_line col)) (cell_flags t display_line col))
  else (32, style_of None None no_flags).
Definition row_cells (t : Term) (offset : Z) (width row : nat) : list (Z * Style) := cell_at t offset row <$> seq 0 width.
Definition screen_lines (t : Term) (offset : Z) (text_area : Rect) : list Line :=
  (λ row, group_cells (row_cells t offset (Z.to_nat (rw text_area)) row) [] plain) <$> seq 0 (Z.to_nat (rh text_area)).
End Cells.

(** ** The selection *)
Definition base_offset (b : SelectionBase) : nat := match b with Live => 0 | Scrollback off => off end.
(** The inclusive range [a..=b]. *)
Definition range_incl (a b : Z) : list Z := seqZ a (b - a + 1).
Definition highlight_cells (text_area : Rect) (sel : Selection) : list (Z * Z) :=
  let '((r0, c0), (r1, c1)) := normalized sel in
  flat_map (λ row,
    let col_start := if row =? r0 then c0 else 0 in
    let col_end := if row =? r1 then Z.min c1 (sat_sub (rw text_area) 1) else sat_sub (rw text_area) 1 in
    flat_map (λ col,
      let sx := wrap_u16 (rx text_area + col) in
      let sy := wrap_u16 (ry text_area + row) in
      if (sx <? wrap_u16 (rx text_area + rw text_area)) && (sy <? wrap_u16 (ry text_area + rh text_area)) then [(sx, sy)] else [])
      (range_incl col_start col_end))
    (range_incl r0 (Z.min r1 (sat_sub (rh text_area) 1))).
Definition highlight (text_area : Rect) (slot_idx scroll_offset : nat) (sel : option Selection) : list (Z * Z) :=
  match sel with
  | Some sel =>
      if bool_decide (sn_pane_idx sel = slot_idx) && bool_decide (base_offset (sn_base sel) = scroll_offset)
      then highlight_cells text_area sel else []
  | None => []
  end.

(** ** Title and border *)
Definition build_pane_title (base_title : string) (scroll_offset : nat) (is_zoomed : bool) : string :=
  (if (0 <? scroll_offset)%nat then base_title +:+ "  SCROLL " else base_title) +:+ (if is_zoomed then " [ZOOM]" else "").
Definition pane_needs_attention (meta : list PaneInfo) (pane_id : PaneId) : bool :=
  existsb (λ p, bool_decide (pi_id p = pane_id) && bool_decide (pi_state p = WaitingInput) && negb (pi_seen p)) meta.

Section Pane.
Context `{UuidText, Alacritty, TermCells, LayoutSolver, FireMath}.
Context (anim : Z) (t : LegacyTheme) (panes_meta : list PaneInfo) (selection : option Selection).

Definition base_title (slot : PaneSlot) : string :=
  let named := p ← find_first (λ p, bool_decide (pi_id p = sl_pane_id slot)) panes_meta;
               n ← pi_name p; if decide (n = "") then None else Some n in
  match named with
  | Some s => " " +:+ s +:+ " "
  | None => " pane " +:+ Client.short8 (pane_uuid (sl_pane_id slot)) +:+ " "
  end.

Definition border_block (focused attention is_zoomed : bool) (slot : PaneSlot) : RatatuiBlock :=
  let seed := seed_of (pane_uuid (sl_pane_id slot)) in
  let title style := [span (build_pane_title (base_title slot) (sl_scroll_offset slot) is_zoomed) style] in
  if focused then
    MkRatatuiBlock BordersAll Thick
      (if is_zoomed then fg (t_info t) plain
       else if attention then ember_border_style anim seed (t_border_focus t) (t_spark t) else border_focus_style t)
      (title (if is_zoomed then title_style (t_info t)
              else if attention then ember_title_style anim seed (t_primary t) (t_spark t) else title_style (t_primary t)))
      plain
  else if attention then
    MkRatatuiBlock BordersAll Rounded (ember_border_style anim seed (t_border t) (t_primary t))
      (title (ember_title_style anim seed (t_text_dim t) (t_secondary t))) plain
  else MkRatatuiBlock BordersAll Rounded (border_style t) (title (title_style (t_text_dim t))) plain.

(** ** The ribbon *)
Definition chip_text (b : Block) : string :=
  (match blk_exit_code b with None => "●" | Some _ => "" end) +:+ "▎b"
    +:+ of_chars (take 4 (chars (uuid_to_string (block_uuid (blk_id b))))).
Definition badge_fg (b : Block) : Color :=
  match blk_exit_code b with Some 0 => t_ok t | Some _ => t_err t | None => t_spark t end.
Definition chip_style (cursor : option nat) (count i : nat) (b : Block) : Style :=
  match cursor with
  | Some h => if decide (i = h) then selection_style t else bg (t_muted_bg t) (fg (badge_fg b) plain)
  | None =>
      if decide (i = (count - 1)%nat) then add_modifier BOLD (bg (t_primary t) (fg (t_bg t) plain))
      else bg (t_muted_bg t) (fg (badge_fg b) plain)
  end.
Definition ribbon_spans (cursor : option nat) (blocks : list Block) : Line :=
  concat (imap (λ i b, (if decide (i = 0%nat) then [] else [span "│" (fg (t_text_dim t) plain)])
                         ++ [span (chip_text b) (chip_style cursor (length blocks) i b)]) blocks).
Definition paint_ribbon (area : Rect) (slot : PaneSlot) : list Draw :=
  if decide (sl_recent_blocks slot = [])
  then [Render (Paragraph [[span " (no blocks)" plain]] (bg (t_bg t) (fg (t_text_dim t) plain)) false) area]
  else [Render (Paragraph [ribbon_spans (sl_ribbon_cursor slot) (sl_recent_blocks slot)] (bg (t_bg t) plain) false) area].

(** ** The pane *)
Definition scroll_bar (area : Rect) (slot : PaneSlot) : Draw :=
  let virtual_total := Nat.max (sl_scrollback_capacity slot) 1 in
  Render (Scrollbar virtual_total (virtual_total - sl_scroll_offset slot) (Some (border_style t)) (Some (fg (t_primary t) plain))) area.

(** [slot] is the slot before the frame; what is drawn inside the border is drawn from
    the slot as the frame leaves it. *)
Definition paint_pane (focused attention is_zoomed : bool) (slot_idx : nat) (area : Rect) (slot : PaneSlot) : list Draw :=
  let inner := block_inner area in
  Render (Framed (border_block focused attention is_zoomed slot)) area ::
  if (rw inner =? 0) || (rh inner <? 2) then []
  else
    let slot' := (render_pane area slot).1 in
    let '(content_area, ribbon_area) := split2 DVertical (Min 1) (Length 1) inner in
    let '(text_area, sb_area) :=
      if (0 <? sl_scroll_offset slot')%nat && (1 <? rw content_area)
      then let '(a, b) := split2 DHorizontal (Min 1) (Length 1) content_area in (a, Some b)
      else (content_area, None) in
    [Render (Paragraph (screen_lines (sl_term slot') (display_offset (sl_term slot') (sl_scroll_offset slot')) text_area) plain false)
       text_area]
    ++ ((λ xy, ReverseCell xy.1 xy.2) <$> highlight text_area slot_idx (sl_scroll_offset slot') selection)
    ++ (match sb_area with Some sb_rect => [scroll_bar sb_rect slot'] | None => [] end)
    ++ paint_ribbon ribbon_area slot'.

(** One leaf: its slot is drawn and left as the frame leaves it. *)
Definition paint_leaf (focus_pane : PaneId) (pane_slot : gmap PaneId nat) (st : Slots * list Draw) (leaf : PaneId * Rect) :
    Slots * list Draw :=
  match pane_slot !! leaf.1 with
  | Some i =>
      match st.1 !! i with
      | Some (Some slot) =>
          (<[i := Some (render_pane leaf.2 slot).1]> st.1,
           st.2 ++ paint_pane (bool_decide (leaf.1 = focus_pane)) (pane_needs_attention panes_meta (sl_pane_id slot)) false i leaf.2 slot)
      | _ => st
      end
  | None => st
  end.
Definition paint_layout (root : LayoutNode) (focus_pane : PaneId) (area : Rect) (sl : Slots) : Slots * list Draw :=
  fold_left (paint_leaf focus_pane (build_pane_slot_map sl)) (collect_leaf_rects root area) (sl, []).
Definition paint_zoomed (zoom_pane : PaneId) (area : Rect) (sl : Slots) : Slots * list Draw :=
  match build_pane_slot_map sl !! zoom_pane with
  | Some i =>
      match sl !! i with
      | Some (Some slot) =>
          (<[i := Some (render_pane area slot).1]> sl,
           paint_pane true (pane_needs_attention panes_meta (sl_pane_id slot)) true i area slot)
      | _ => (sl, [])
      end
  | None => (sl, [])
  end.
End Pane.

(** ** Lemmas *)

(** *** Spans *)
Definition span_cells (sp : Span) : list (Z * Style) := (λ ch, (ch, sp_style sp)) <$> sp_text sp.
Lemma group_cells_flat cells text style :
  flat_map span_cells (group_cells cells text style) = ((λ ch, (ch, style)) <$> text) ++ cells.
Proof.
  revert text style. induction cells as [|[ch st] cells IH]; intros text style; cbn [group_cells].
  - destruct (decide (text = [])) as [->|]; [done|]. cbn. by rewrite !app_nil_r.
  - destruct (decide (st = style)) as [->|Hne].
    + rewrite IH, fmap_app, <- app_assoc. done.
    + destruct (decide (text = [])) as [->|]; cbn [app]; [by rewrite IH|].
      cbn [flat_map]. by rewrite IH.
Qed.

(** A span for each run: none is empty and neighbours differ in style. *)
Fixpoint maximal_runs (prev : option Style) (l : Line) : Prop :=
  match l with
  | [] => True
  | sp :: l' => sp_text sp ≠ [] ∧ prev ≠ Some (sp_style sp) ∧ maximal_runs (Some (sp_style sp)) l'
  end.
Lemma group_cells_runs cells text style prev :
  (text = [] → prev = None ∧ Forall (λ c, c.2 ≠ style) (take 1 cells)) → prev ≠ Some style → maximal_runs prev (group_cells cells text style).
Proof.
  revert text style prev. induction cells as [|[ch st] cells IH]; intros text style prev Hempty Hprev; cbn [group_cells].
  - by destruct (decide (text = [])).
  - destruct (decide (st = style)) as [->|Hne].
    + apply IH; [|done]. intros Hnil. by destruct text.
    + destruct (decide (text = [])) as [Ht|Ht]; cbn [app].
      * destruct (Hempty Ht) as [-> _]. by apply IH.
      * cbn [maximal_runs sp_text sp_style]. split_and!; [done..|]. apply IH; [done|congruence].
Qed.
Lemma style_of_not_plain f b fl : style_of f b fl ≠ plain.
Proof. unfold style_of, add_modifier, fg, bg. intros Heq. apply (f_equal st_fg) in Heq. by repeat case_match. Qed.

(** *** The two halves of drawing agree on the slots *)
Section Agree.
Context `{UuidText, Alacritty, TermCells, LayoutSolver, FireMath}.
Lemma paint_leaf_slots anim t meta sel focus m st rs leaf :
  (paint_leaf anim t meta sel focus m st leaf).1 =
    (match m !! leaf.1 with Some i => render_slot i leaf.2 (st.1, rs) | None => (st.1, rs) end).1.
Proof.
  unfold paint_leaf, render_slot. destruct (m !! leaf.1) as [i|]; [|done]. cbn [fst].
  destruct (st.1 !! i) as [[slot|]|]; [|done..]. by destruct (render_pane leaf.2 slot).
Qed.
Lemma paint_layout_slots anim t meta sel root focus area sl :
  (paint_layout anim t meta sel root focus area sl).1 = (render_layout root area sl).1.
Proof.
  unfold paint_layout, render_layout. generalize (build_pane_slot_map sl) as m. intros m.
  generalize (@nil Draw) as ds, (@nil (PaneId * PaneSize)) as rs. generalize (collect_leaf_rects root area) as leaves.
  intros leaves. revert sl. induction leaves as [|leaf leaves IH]; intros sl ds rs; [done|]. cbn [fold_left].
  pose proof (paint_leaf_slots anim t meta sel focus m (sl, ds) rs leaf) as Hs.
  destruct (paint_leaf _ _ _ _ _ _ _ leaf) as [sl1 ds1]. cbn [fst] in Hs.
  destruct (match m !! leaf.1 with Some i => render_slot i leaf.2 (sl, rs) | None => (sl, rs) end) as [sl2 rs2]. cbn in Hs.
  subst sl2. apply IH.
Qed.
End Agree.

(** *** The highlight *)
Lemma range_incl_elem a b x : x ∈ range_incl a b ↔ a <= x <= b.
Proof. unfold range_incl. rewrite elem_of_seqZ. lia. Qed.
Lemma flat_map_elem {A B} (f : A → list B) l b : b ∈ flat_map f l ↔ ∃ a, a ∈ l ∧ b ∈ f a.
Proof.
  rewrite list_elem_of_In, in_flat_map. split; intros (a & Ha & Hb); exists a; by rewrite ?list_elem_of_In in *.
Qed.

Lemma highlight_cells_elem area sel p :
  0 <= rx area → 0 <= ry area → 0 <= rw area → 0 <= rh area → rx area + rw area < 65536 → ry area + rh area < 65536 →
  0 <= (sn_start sel).1 → 0 <= (sn_start sel).2 → 0 <= (sn_end sel).1 → 0 <= (sn_end sel).2 →
  p ∈ highlight_cells area sel ↔
    ∃ row col, selection_contains sel row col = true ∧ 0 <= row < rh area ∧ 0 <= col < rw area ∧
      p = (rx area + col, ry area + row).
Proof.
  intros Hx Hy Hw Hh Hxw Hyh Hs1 Hs2 He1 He2. unfold highlight_cells, selection_contains.
  assert (∃ r0 c0 r1 c1, normalized sel = ((r0, c0), (r1, c1)) ∧ 0 <= r0 ∧ 0 <= c0 ∧ 0 <= r1 ∧ 0 <= c1) as (r0 & c0 & r1 & c1 & -> & ?).
  { unfold normalized. destruct (sn_start sel) as [a b], (sn_end sel) as [c d]. cbn in *.
    destruct (pair_le _ _); eauto 10. }
  rewrite flat_map_elem. unfold sat_sub. split.
  - intros (row & Hrow%range_incl_elem & Hp). apply flat_map_elem in Hp as (col & Hcol%range_incl_elem & Hp).
    rewrite !wrap_u16_small in Hp by (destruct (row =? r0), (row =? r1); lia).
    destruct (_ && _) eqn:E; [|by apply elem_of_nil in Hp]. apply list_elem_of_singleton in Hp as ->.
    apply andb_true_iff in E as [E1%Z.ltb_lt E2%Z.ltb_lt]. exists row, col.
    destruct (Z.eqb_spec row r0), (Z.eqb_spec row r1), (Z.ltb_spec row r0), (Z.ltb_spec r1 row); cbn; try lia;
      rewrite ?(proj2 (Z.ltb_ge _ _)) by lia; split_and!; try done; lia.
  - intros (row & col & Hc & Hrow & Hcol & ->). exists row.
    destruct (Z.ltb_spec row r0); [done|]. destruct (Z.ltb_spec r1 row); [done|]. cbn in Hc.
    split; [apply range_incl_elem; lia|]. apply flat_map_elem. exists col. rewrite !wrap_u16_small by lia.
    rewrite !(proj2 (Z.ltb_lt _ _)) by lia. split; [|by apply list_elem_of_singleton]. apply range_incl_elem.
    destruct (Z.eqb_spec row r0), (Z.eqb_spec row r1); cbn in Hc;
      repeat match type of Hc with context [?a <? ?b] => destruct (Z.ltb_spec a b); cbn in Hc end; try done; lia.
Qed.

(** *** The highlight and the copy *)
Lemma filter_interval {A} (f : nat → A) (lo hi n : nat) : (hi < n)%nat →
  f <$> filter (λ c, (lo ≤ c ≤ hi)%nat) (seq 0 n) = f <$> seq lo (S hi - lo).
Proof.
  intros Hn. f_equal.
  destruct (le_lt_dec lo hi) as [Hle|Hlt].
  - replace n with (lo + ((S hi - lo) + (n - S hi)))%nat by lia. rewrite !seq_app, !filter_app.
    rewrite (filter_none _ (seq 0 lo)), (filter_none _ (seq _ (n - S hi))) by (intros c Hc%elem_of_seq; lia).
    rewrite filter_kept by (apply Forall_forall; intros c Hc%elem_of_seq; lia).
    by rewrite app_nil_r.
  - rewrite filter_none by (intros; lia). by replace (S hi - lo)%nat with 0%nat by lia.
Qed.

Section Copied.
Context `{UuidText, Alacritty, TermCells, LayoutSolver, FireMath}.

Lemma filter_agree {A} (P Q : A → Prop) `{∀ x, Decision (P x), ∀ x, Decision (Q x)} (l : list A) :
  (∀ x, x ∈ l → P x ↔ Q x) → filter P l = filter Q l.
Proof.
  induction l as [|x l IH]; intros Hagree; [done|]. rewrite !filter_cons, IH by (intros; apply Hagree; by constructor).
  pose proof (Hagree x ltac:(by constructor)). repeat case_decide; tauto.
Qed.
(** The columns of a selected row are an interval. *)
Lemma selected_columns sel row w : 0 <= row → 0 <= (sn_start sel).2 < w → 0 <= (sn_end sel).2 < w →
  let '(a, b) := normalized sel in a.1 <= row <= b.1 →
  filter (λ c, selection_contains sel row (Z.of_nat c) = true) (seq 0 (Z.to_nat w)) =
  filter (λ c, ((if (row =? a.1)%Z then Z.to_nat a.2 else 0) ≤ c ≤ (if (row =? b.1)%Z then Z.to_nat b.2 else Z.to_nat (w - 1)))%nat)
    (seq 0 (Z.to_nat w)).
Proof.
  intros Hrow Hs He. destruct (normalized sel) as [[r0 c0] [r1 c1]] eqn:E. intros Hr. cbn [fst snd] in *.
  assert (0 <= c0 < w ∧ 0 <= c1 < w) as [Hc0 Hc1].
  { unfold normalized in E. destruct (pair_le _ _); injection E as E1 E2; rewrite ?E1, ?E2 in *; done. }
  apply filter_agree. intros c Hc%elem_of_seq. unfold selection_contains. rewrite E.
  destruct (Z.ltb_spec row r0); [lia|]. destruct (Z.ltb_spec r1 row); [lia|]. cbn [orb].
  destruct (Z.eqb_spec row r0), (Z.eqb_spec row r1); cbn [andb];
    repeat match goal with |- context [?a <? ?b] => destruct (Z.ltb_spec a b); cbn [andb] end; split; try done; lia.
Qed.
(** The characters shown in the reversed cells of a row. *)
Definition reversed_chars (t : Term) (offset : Z) (text_area : Rect) (sel : Selection) (row : Z) : list Z :=
  (λ c, (cell_at t offset (Z.to_nat row) c).1)
    <$> filter (λ c, selection_contains sel row (Z.of_nat c) = true) (seq 0 (Z.to_nat (rw text_area))).

(** ** Properties *)

(** The text area of a pane shows the grid, cell by cell: there is a line per row, its
    spans read off left to right are the characters of the row with their styles, no
    span is empty and neighbouring spans differ in style. *)
Theorem screen_shows_grid t offset text_area row :
  (row < Z.to_nat (rh text_area))%nat →
  ∃ l, screen_lines t offset text_area !! row = Some l ∧
    flat_map span_cells l = row_cells t offset (Z.to_nat (rw text_area)) row ∧ maximal_runs None l.
Proof.
  intros Hrow. unfold screen_lines. rewrite list_lookup_fmap, lookup_seq_lt by done. eexists. split; [done|]. split.
  - by rewrite group_cells_flat.
  - apply group_cells_runs; [|done]. intros _. split; [done|]. unfold row_cells.
    destruct (seq 0 (Z.to_nat (rw text_area))) as [|c cs]; [constructor|]. cbn. constructor; [|constructor].
    unfold cell_at. destruct (_ && _); apply style_of_not_plain.
Qed.

End Copied.

(** A terminal in white on black with the cursor at home. *)
Definition plain_cells : TermCells :=
  {| cell_fg := λ _ _ _, Named NWhite; cell_bg := λ _ _ _, Named NBlack; cell_flags := λ _ _ _, no_flags;
     display_offset := λ _ n, Z.of_nat n; cursor_point := λ _, (0, 0) |}.
