(* ===== verification/TuiOverlays.v ===== *)
(** * TuiOverlays: the whole frame, as it is painted

    pyre-tui/src/render/: the strips, the sidebar, the status bar, the cards of toasts
    and the overlays ([render_session_strip], [render_sidebar], [render_toast_deck],
    overlay/*.rs, [render_name_prompt], [render_context_menu]) as the calls they make on
    the frame, and [draw_frame] that puts them one over another. TuiDraw has what the
    frame leaves in the state, TuiPaint what a pane looks like. *)
From Stdlib Require Import Strings.Byte.
From S2P Require Import Prelude Proto Text Layout Libraries Effects Themes Client Server Tui TuiPanes TuiKeys TuiDraw TuiLoop TuiExample TuiStyle TuiPaint.
Local Open Scope Z_scope.

(** f32 arithmetic of the sidebar and of the cards: the share of a toast's life left,
    the columns of its bar, never more than there are, and the pulse of a dot. *)
Class OverlayMath `{FireMath} := {
  dot_mix : f32 → f32;                     (** [p * 0.55] *)
  remaining : Z → Z → f32;                 (** [1.0 - elapsed / ttl] *)
  bar_columns : Z → f32 → Z;               (** [(width as f32 * frac) as usize] *)
  bar_columns_le w elapsed ttl : 0 <= w → 0 <= elapsed < ttl → 0 <= bar_columns w (remaining elapsed ttl) <= w }.

Definition text_style (c : Color) : Style := fg c plain.
(** [format!("{:<width$}", s)] *)
Definition pad_right (width : nat) (cs : list Z) : list Z := cs ++ replicate (width - length cs) 32.
(** [area.x + area.width.saturating_sub(w) / 2] *)
Definition centered (origin size w : Z) : Z := wrap_u16 (origin + sat_sub size w / 2).
Definition one_line_paragraph (l : Line) (s : Style) : Widget := Paragraph [l] s false.
Definition input_bytes (cs : list Z) : Z := Z.of_nat (length (encode cs)).

(** ** Where the overlays are *)
Definition prompt_rect (area : Rect) : Rect :=
  let w := scale_u16 f32_060 (rw area) in
  MkRect (centered (rx area) (rw area) w) (centered (ry area) (rh area) 5) (Z.max w 30) 5.
Definition picker_rect (area : Rect) : Rect :=
  let w := scale_u16 f32_060 (rw area) in
  let h := scale_u16 f32_070 (rh area) in
  MkRect (centered (rx area) (rw area) w) (centered (ry area) (rh area) h) (Z.max w 40) (Z.max h 8).
Definition search_rect (area : Rect) : Rect :=
  let w := scale_u16 f32_070 (rw area) in
  let h := scale_u16 f32_060 (rh area) in
  MkRect (centered (rx area) (rw area) w) (centered (ry area) (rh area) h) (Z.max w 20) (Z.max h 6).
Definition session_lost_rect (area : Rect) : Rect :=
  MkRect (centered (rx area) (rw area) 52) (centered (ry area) (rh area) 5) (Z.min 52 (rw area)) (Z.min 5 (rh area)).

(** The context menu, where it was opened but on the screen. *)
Definition menu_width : Z := Z.of_nat (foldr Nat.max 0%nat ((λ i, String.length (label i)) <$> MENU_ITEMS)) + 4.
Definition menu_height : Z := Z.of_nat (length MENU_ITEMS) + 2.
Definition menu_popup (area : Rect) (m : ContextMenu) : Rect :=
  MkRect (Z.min (rx (cm_rect m)) (sat_sub (rw area) menu_width)) (Z.min (ry (cm_rect m)) (sat_sub (rh area) menu_height))
    menu_width menu_height.

(** Card [i] from the bottom, while there is room. *)
Definition toast_rect (area : Rect) (i : nat) : option Rect :=
  let card_bottom := sat_sub (rh area) (2 + Z.of_nat i * 4) in
  if card_bottom <? 3 then None
  else Some (MkRect (sat_sub (rw area) 41) (card_bottom - 3) (Z.min 40 (rw area)) 3).

(** ** The help overlay (overlay/help.rs) *)
Definition CATEGORIES : list (string * list (string * string)) :=
  [("Panes",
    [("Ctrl-Space c", "New pane in current session");
     ("Ctrl-Space " +:+ dq, "Horizontal split (below)");
     ("Ctrl-Space %", "Vertical split (right)");
     ("Ctrl-Space x", "Close focused pane");
     ("Ctrl-Space z", "Toggle zoom (fullscreen)");
     ("Ctrl-Space →/↓", "Focus next pane");
     ("Ctrl-Space ←/↑", "Focus previous pane")]);
   ("Sessions",
    [("Ctrl-Space S", "New session (with name prompt)");
     ("Ctrl-Space ,", "Rename active session");
     ("Ctrl-Space n", "Next tab");
     ("Ctrl-Space p", "Previous tab");
     ("Ctrl-Space d", "Detach (leave daemon running)");
     ("Ctrl-Space q", "Quit TUI")]);
   ("Scrollback / Blocks",
    [("Ctrl-Space [", "Enter scrollback mode");
     ("Ctrl-Space ]", "Exit scrollback mode");
     ("Ctrl-Space y", "Copy last block stdout to clipboard")]);
   ("Overlays / Misc",
    [("Ctrl-Space /", "Search blocks (Tantivy)");
     ("Ctrl-Space s", "Toggle sidebar");
     ("Ctrl-Space T", "Theme picker");
     ("Ctrl-Space N", "Toggle toast notifications");
     ("Ctrl-Space ?", "This help overlay")])].

Definition help_rows : Z := sat_sub (sum_Z ((λ c, 1 + Z.of_nat (length c.2) + 1) <$> CATEGORIES)) 1.
(** Widths count bytes. *)
Definition max_bytes (ss : list string) : Z := foldr Z.max 0 ((λ s, Z.of_nat (String.length s)) <$> ss).
Definition max_key_w : Z := max_bytes ((flat_map snd CATEGORIES).*1).
Definition max_desc_w : Z := max_bytes ((flat_map snd CATEGORIES).*2).
Definition help_rect (area : Rect) : Rect :=
  let w := Z.min (Z.max (max_key_w + 2 + max_desc_w + 2) 50) (sat_sub (rw area) 4) in
  let h := Z.min (help_rows + 2) (sat_sub (rh area) 4) in
  MkRect (centered (rx area) (rw area) w) (centered (ry area) (rh area) h) w h.

Section Overlays.
Context `{UuidText, Alacritty, TermCells, LayoutSolver, FireMath, !OverlayMath}.
Context (anim : Z) (t : LegacyTheme) (area : Rect).

Definition overlay_block (ty : BorderType) (title : Line) : RatatuiBlock :=
  MkRatatuiBlock BordersAll ty (border_focus_style t) title (overlay_style t).
Definition titled (title : string) : Line := [span title (title_style (t_primary t))].

Fixpoint help_entries (inner : Rect) (entries : list (string * string)) (row_y : Z) : list Draw * Z :=
  match entries with
  | [] => ([], row_y)
  | (key, desc) :: entries' =>
      if wrap_u16 (ry inner + rh inner) <=? row_y then ([], row_y)
      else
        let l := [MkSpan (pad_right (Z.to_nat max_key_w) (chars key)) (text_style (t_secondary t));
                  span "  " (text_style (t_text_dim t)); span desc (text_style (t_text t))] in
        let r := help_entries inner entries' (row_y + 1) in
        (Render (one_line_paragraph l (overlay_style t)) (MkRect (rx inner) row_y (rw inner) 1) :: r.1, r.2)
  end.
Fixpoint help_categories (inner : Rect) (cats : list (string * list (string * string))) (row_y : Z) : list Draw :=
  match cats with
  | [] => []
  | (category, entries) :: cats' =>
      let bottom := wrap_u16 (ry inner + rh inner) in
      if bottom <=? row_y then []
      else
        let header := [span category (add_modifier UNDERLINED (add_modifier BOLD (text_style (t_primary t))))] in
        let '(ds, row_y') := help_entries inner entries (row_y + 1) in
        Render (one_line_paragraph header (overlay_style t)) (MkRect (rx inner) row_y (rw inner) 1)
          :: ds ++ help_categories inner cats'
                     (if negb (bool_decide (cats' = [])) && (row_y' <? bottom) then row_y' + 1 else row_y')
  end.
Definition paint_help : list Draw :=
  let r := help_rect area in
  Render Clear r :: Render (Framed (overlay_block Double (titled " key bindings  q / Esc to close "))) r
    :: help_categories (block_inner r) CATEGORIES (ry (block_inner r)).

(** ** The theme picker (overlay/picker.rs) *)

(** The rows of the list and the theme on each: enough is scrolled off to show the cursor. *)
Definition picker_scroll (cursor visible_rows : nat) : nat :=
  if decide (visible_rows ≤ cursor)%nat then (cursor - visible_rows + 1)%nat else 0%nat.
Definition picker_rows (cursor visible_rows : nat) : list (nat * nat * Theme) :=
  imap (λ row th, (row, (picker_scroll cursor visible_rows + row)%nat, th))
    (take visible_rows (drop (picker_scroll cursor visible_rows) builtin)).
Definition swatch_roles (p : Palette) : list Color :=
  to_ratatui <$> [pl_bg p; pl_fg p; pl_accent p; pl_border_focus p; pl_cursor p; pl_ok p; pl_warn p; pl_error p].
Definition picker_line (selected : bool) (th : Theme) : Line :=
  let kind_badge := match th_kind th with Dark => "dark " | Light => "lite " end in
  let row_bg := if selected then t_primary t else t_bg t in
  let row_fg := if selected then t_bg t else t_text t in
  [MkSpan ([32] ++ pad_right 28 (chars (kind_badge +:+ th_display_name th)) ++ [32]) (bg row_bg (fg row_fg plain))]
  ++ ((λ sw, span "░" (bg row_bg (fg sw plain))) <$> swatch_roles (th_palette th))
  ++ [span " " (bg row_bg plain)].
Definition paint_picker (picker : ThemePickerState) : list Draw :=
  let r := picker_rect area in
  let inner := block_inner r in
  Render Clear r :: Render (Framed (overlay_block Double (titled " theme picker  ↑/↓ select  Enter apply  Esc cancel "))) r
    :: ((λ row, Render (one_line_paragraph (picker_line (bool_decide (row.1.2 = tp_cursor picker)) row.2) plain)
                  (MkRect (rx inner) (wrap_u16 (ry inner + wrap_u16 (Z.of_nat row.1.1))) (rw inner) 1))
         <$> picker_rows (tp_cursor picker) (Z.to_nat (rh inner))).

(** ** The pager (overlay/pager.rs) *)
Definition pager_visible (pager : PagerState) (visible_rows : nat) : list (list Z) :=
  take visible_rows (drop (pg_scroll pager) (pg_lines pager)).
Definition pager_title (pager : PagerState) : string :=
  let exit_label := match pg_exit_code pager with
                    | None => " running "
                    | Some 0 => " exit 0 "
                    | Some n => " exit " +:+ show_Z n +:+ " "
                    end in
  " " +:+ pg_block_id pager +:+ " |" +:+ exit_label.
Definition paint_pager (pager : PagerState) : list Draw :=
  let outer := overlay_block Double (titled (pager_title pager)) in
  let '(body_area, footer_area) := split2 DVertical (Min 1) (Length 1) (block_inner area) in
  let visible_rows := Z.to_nat (rh body_area) in
  let total_lines := length (pg_lines pager) in
  [Render Clear area; Render (Framed outer) area;
   Render (Paragraph ((λ l, [MkSpan l (text_style (t_text t))]) <$> pager_visible pager visible_rows) (bg_style t) true) body_area]
  ++ (if (visible_rows <? total_lines)%nat
      then [Render (Scrollbar (total_lines - visible_rows) (pg_scroll pager) None None) body_area] else [])
  ++ [Render (one_line_paragraph
        [span " ↑/↓ " (text_style (t_primary t)); span "scroll  " (text_style (t_text_dim t));
         span "PgUp/PgDn " (text_style (t_primary t)); span "page  " (text_style (t_text_dim t));
         span "q/Esc " (text_style (t_primary t)); span "close" (text_style (t_text_dim t))] (bg_style t)) footer_area].

(** ** The search box (overlay/search.rs)
    [hms] writes a time of day. An item takes a row for each line of its text. *)
Definition hit_text (hms : DateTime → string) (hit : BlockHit) : list Z :=
  let b := bh_block hit in
  let snippet := if decide (bh_snippet hit = "") then take 80 (chars (blk_command b)) else take 80 (chars (bh_snippet hit)) in
  chars ("[" +:+ Client.short8 (pane_uuid (blk_pane b)) +:+ "] " +:+ hms (blk_started_at b) +:+ " ") ++ snippet.
Definition search_item (hms : DateTime → string) (hit : BlockHit) : list Line * Style :=
  ((λ l, [MkSpan l plain]) <$> char_lines (hit_text hms hit), text_style (t_text t)).
Definition search_areas : Rect * Rect := split2 DVertical (Length 3) (Min 1) (block_inner (search_rect area)).
Definition paint_search (hms : DateTime → string) (s : SearchState) : list Draw :=
  let r := search_rect area in
  let '(input_area, results_area) := search_areas in
  let input_spans := [span "> " (text_style (t_primary t)); MkSpan (se_input s) (text_style (t_text t));
                      span "█" (ember_fg_style anim 0xa11ce (t_spark t) (t_secondary t) 90)] in
  let boxed title := MkRatatuiBlock BordersAll Rounded (border_style t) title (overlay_style t) in
  let inner_width := sat_sub (rw input_area) 2 in
  let cursor_col := Z.min (wrap_u16 (2 + wrap_u16 (input_bytes (se_input s)))) (sat_sub inner_width 1) in
  [Render Clear r; Render (Framed (overlay_block Double (titled " search (! = failures) "))) r;
   Render (BoxedParagraph (boxed []) [input_spans] (bg_style t)) input_area;
   SetCursor (wrap_u16 (rx input_area + 1 + cursor_col)) (wrap_u16 (ry input_area + 1));
   Render (BoxedList (boxed [span (" " +:+ show_Z (Z.of_nat (length (se_results s))) +:+ " results ") (text_style (t_text_dim t))])
             (search_item hms <$> se_results s) (selection_style t)
             (if decide (se_results s = []) then None else Some (se_cursor s))) results_area].

(** ** The end of a session (overlay/session_lost.rs) *)
Definition paint_session_lost : list Draw :=
  let r := session_lost_rect area in
  let dim s := span s (text_style (t_text_dim t)) in
  let key s := span s (add_modifier BOLD (text_style (t_primary t))) in
  let '(first, second) := split2 DVertical (Length 1) (Length 1) (block_inner r) in
  [Render (Fill (bg_style t)) area; Render Clear r;
   Render (Framed (MkRatatuiBlock BordersAll Rounded (text_style (t_text_dim t)) [dim " session ended "] (bg_style t))) r;
   Render (one_line_paragraph [dim "All panes closed."] (bg_style t)) first;
   Render (one_line_paragraph [dim "Press "; key "q"; dim " / "; key "Esc"; dim " / "; key "Ctrl-C"; dim " to quit."] (bg_style t)) second].

(** ** The name prompt and the context menu (frame.rs) *)
Definition prompt_title (k : PromptKind) : string :=
  match k with
  | NewSession => " new session name " | NewTab => " new tab label "
  | RenameSession _ => " rename session " | RenameWindow _ => " rename window "
  end.
Definition paint_prompt (p : NamePrompt) : list Draw :=
  let r := prompt_rect area in
  let split := solve DVertical [Length 1; Length 1; Min 0] (block_inner r) in
  let input_area := default area (split !! 0%nat) in
  let hint_area := default area (split !! 1%nat) in
  let cursor_col := Z.min (wrap_u16 (2 + wrap_u16 (input_bytes (np_input p)))) (sat_sub (rw input_area) 1) in
  [Render Clear r; Render (Framed (overlay_block Double (titled (prompt_title (np_kind p))))) r;
   Render (one_line_paragraph [span "> " (text_style (t_primary t)); MkSpan (np_input p) (text_style (t_text t));
             span "█" (ember_fg_style anim 0xc0ffee (t_spark t) (t_secondary t) 90)] plain) input_area;
   Render (one_line_paragraph [span " Enter = create  |  Esc = cancel" plain] (text_style (t_text_dim t))) hint_area;
   SetCursor (wrap_u16 (rx input_area + cursor_col)) (ry input_area)].

Definition paint_menu (m : ContextMenu) : list Draw :=
  let popup := menu_popup area m in
  let inner := block_inner popup in
  Render Clear popup
    :: Render (Framed (MkRatatuiBlock BordersAll Rounded (border_focus_style t) [] (overlay_style t))) popup
    :: imap (λ idx item,
         let style := if decide (idx = cm_cursor m) then selection_style t else bg (t_bg t) (fg (t_text t) plain) in
         Render (one_line_paragraph [MkSpan (pad_right (Z.to_nat (rw inner)) (chars (label item))) style] plain)
           (MkRect (rx inner) (wrap_u16 (ry inner + Z.of_nat idx)) (rw inner) 1))
         (take (Z.to_nat (rh inner)) MENU_ITEMS).

(** ** The deck of toasts (render/toast.rs) *)
Definition toast_color (k : ToastKind) : Color :=
  match k with TkInfo => t_info t | TkSuccess => t_ok t | TkWarn => t_spark t | TkError => t_err t end.
Definition toast_bar (now width : Z) (to : Toast) : Z :=
  let elapsed := Z.max 0 (now - to_born_at to) in
  if to_ttl to <=? elapsed then 0 else bar_columns width (remaining elapsed (to_ttl to)).
Definition toast_line (now width : Z) (to : Toast) : Line :=
  let bar_width := toast_bar now width to in
  [span (" " +:+ to_title to +:+ " ") (add_modifier BOLD (text_style (toast_color (to_kind to))));
   span (to_body to +:+ " ") (text_style (t_text_dim t));
   MkSpan (replicate (Z.to_nat bar_width) 0x2501 ++ replicate (Z.to_nat (width - bar_width)) 0x2591)
     (text_style (toast_color (to_kind to)))].
Definition paint_toast (now : Z) (card_rect : Rect) (to : Toast) : list Draw :=
  let inner := block_inner card_rect in
  [Render Clear card_rect;
   Render (Framed (MkRatatuiBlock BordersAll Rounded (text_style (toast_color (to_kind to))) [] (bg (t_muted_bg t) plain))) card_rect;
   Render (one_line_paragraph (toast_line now (rw inner) to) (bg (t_muted_bg t) plain)) inner].
(** Newest first, from the bottom up. *)
Fixpoint paint_cards (now : Z) (i : nat) (ts : list Toast) : list Draw :=
  match ts with
  | [] => []
  | to :: ts' =>
      match toast_rect area i with
      | Some r => paint_toast now r to ++ paint_cards now (S i) ts'
      | None => []
      end
  end.
Definition paint_toasts (now : Z) (d : ToastDeck) : list Draw :=
  if td_enabled d then paint_cards now 0 (take (td_max_visible d) (rev (td_toasts d))) else [].
End Overlays.

(** ** The strips, the sidebar and the status bar *)
Section Strips.
Context `{UuidText, Alacritty, TermCells, LayoutSolver, FireMath, !OverlayMath}.
Context (anim : Z) (t : LegacyTheme).

(** [render_session_strip]: the spans of the pills, as [strip_rects] walks them; the
    column reached. *)
Definition gap : Span := span " " (bg (t_bg t) plain).
Fixpoint strip_spans (style_at : nat → Style) (first : bool) (ps : list (PillItem * Z)) (scroll viewport vx : Z) : Line * Z :=
  match ps with
  | [] => ([], vx)
  | (p, pill_vstart) :: ps' =>
      let pill_vend := pill_vstart + pill_width p in
      if pill_vend <=? scroll then
        strip_spans style_at false ps' scroll viewport (if decide (ps' = []) then pill_vend else pill_vend + 1)
      else if scroll + viewport <=? pill_vstart then ([], vx)
      else
        let sep := if negb first && (scroll <? vx) then [gap] else [] in
        let vx := if first then vx else vx + 1 in
        let clip_start := sat_sub scroll vx in
        let clip_end := Z.min (sat_sub (scroll + viewport) vx) (pill_width p) in
        let visible_label := take (Z.to_nat (clip_end - clip_start)) (drop (Z.to_nat clip_start) (pill_label p)) in
        let r := strip_spans style_at false ps' scroll viewport pill_vend in
        (sep ++ MkSpan visible_label (style_at (pill_sess_idx p)) :: r.1, r.2)
  end.
Definition pill_style (sidebar : list PaneInfo) (active : nat) (ss : list SessionView) (i : nat) : Style :=
  if decide (i = active) then tab_active t
  else
    match ss !! i with
    | Some sv =>
        match session_worst_pane sidebar (sv_id sv) with
        | Some p =>
            if bool_decide (pi_state p = WaitingInput) && negb (pi_seen p)
            then bg (t_bg t) (ember_fg_style anim (seed_of (session_uuid (sv_id sv))) (t_spark t) (t_primary t) 100)
            else tab_inactive t
        | None => tab_inactive t
        end
    | None => tab_inactive t
    end.
Definition plus_spans (plus_virtual_x scroll viewport vx : Z) : Line :=
  if (scroll <? plus_virtual_x + 3) && (plus_virtual_x <? scroll + viewport) then
    let clip_s := sat_sub scroll plus_virtual_x in
    let clip_e := Z.min (sat_sub (scroll + viewport) plus_virtual_x) 3 in
    (if (scroll <? plus_virtual_x) && (vx <=? scroll + viewport) then [gap] else [])
      ++ [MkSpan (take (Z.to_nat (clip_e - clip_s)) (drop (Z.to_nat clip_s) (chars "[+]"))) (tab_inactive t)]
  else [].
(** [st] is the layout of the strip ([layout_strip]). *)
Definition paint_strip (area : Rect) (ps : list PillItem) (style_at : nat → Style) (st : Strip) : list Draw :=
  let scroll := st_scroll st in
  let total_virtual_w := pills_width ps + 1 + 3 in
  let left := arrow (0 <? scroll) in
  let right := arrow (rw area + scroll <? total_virtual_w) in
  let viewport := sat_sub (rw area) (left + right) in
  let arrow_text s := one_line_paragraph [span s plain] (bg (t_bg t) (fg (t_text_dim t) plain)) in
  let '(spans, vx) := strip_spans style_at true (zip ps (pill_offsets ps 0)) scroll viewport 0 in
  let plus := if 0 <? rh area then plus_spans (pills_width ps + 1) scroll viewport vx else [] in
  (match st_left st with Some r => [Render (arrow_text "◄") r] | None => [] end)
    ++ (match st_right st with Some r => [Render (arrow_text "►") r] | None => [] end)
    ++ [Render (one_line_paragraph (spans ++ plus) (bg (t_bg t) plain))
          (MkRect (wrap_u16 (rx area + left)) (ry area) (wrap_u16 viewport) (rh area))].

(** The tabs of the active session. *)
Definition chip_label (i : nat) (tab : Tab) : list Z :=
  let win_label := if decide (tb_window_name tab = "") then tab_label (S i) else tb_window_name tab in
  [32] ++ chars win_label ++ chars " ×".
Fixpoint tab_spans (active i : nat) (tabs : list Tab) : Line :=
  match tabs with
  | [] => []
  | tab :: tabs' =>
      MkSpan (chip_label i tab) (if decide (i = active) then tab_active t else tab_inactive t)
        :: (if decide (tabs' = []) then [] else [gap]) ++ tab_spans active (S i) tabs'
  end.
Definition paint_tabs (area : Rect) (sv : SessionView) : list Draw :=
  let spans := tab_spans (sv_active_tab sv) 0 (sv_tabs sv) in
  [Render (one_line_paragraph (spans ++ (if decide (spans = []) then [] else [gap]) ++ [span "[+]" (tab_inactive t)])
             (bg (t_bg t) plain)) area].

(** [render_sidebar] *)
Definition sidebar_item (ss : list SessionView) (cursor : nat) (focused : bool) (i : nat) (info : PaneInfo) : Line * Style :=
  let seed := seed_of (pane_uuid (pi_id info)) in
  let waiting := bool_decide (pi_state info = WaitingInput) && negb (pi_seen info) in
  let dot_color :=
    if waiting then lerp_rgb (rgb_tuple (state_dot_color (pi_state info) t)) (rgb_tuple (t_secondary t)) (dot_mix (pulse_phase anim seed 90))
    else state_dot_color (pi_state info) t in
  let row_style :=
    if bool_decide (i = cursor) && focused then add_modifier BOLD (bg (t_primary t) (fg (t_bg t) plain))
    else if bool_decide (i = cursor) then add_modifier REVERSED plain
    else if waiting then ember_fg_style anim seed (t_spark t) (t_text t) 45
    else text_style (t_text t) in
  ([span "  " row_style; span (state_dot_char (pi_state info)) (text_style dot_color);
    span (" " +:+ session_name_for ss (pi_session info) +:+ " " +:+ agent_ui_label (pi_state info) (pi_seen info) +:+ " "
            +:+ AgentKind_label (pi_agent info) +:+ " " +:+ Client.short8 (pane_uuid (pi_id info))) row_style],
   plain).
Definition paint_sidebar (area : Rect) (ss : list SessionView) (data : list PaneInfo) (cursor : nat) (focused : bool) : list Draw :=
  let inner := block_inner area in
  [Render (Framed (MkRatatuiBlock BordersRight Rounded plain [span " agents " (title_style (t_primary t))] (bg_style t))) area;
   Render (ListOf (imap (sidebar_item ss cursor focused) (take (Z.to_nat (rh inner)) data)) (bg_style t)) inner].

(** The status bar: what has the keyboard, and the message. *)
Definition mode_and_message {D} (prefix_active : bool) (focused : option PaneSlot) (s : AppState D) : string * option (list Z) :=
  let msg := (λ m, chars (" " +:+ m +:+ " ")) <$> status_msg s in
  if se_open (search s) then
    ("SEARCH", Some (chars " search: " ++ se_input (search s)
                       ++ chars (" (" +:+ show_Z (Z.of_nat (length (se_results (search s)))) +:+ " results) ")))
  else if prefix_active then ("PREFIX", msg)
  else match focused with
       | Some slot => if decide (is_Some (sl_ribbon_cursor slot)) then ("SCROLL", msg) else ("LIVE", msg)
       | None => ("LIVE", msg)
       end.
Definition status_left (name : string) (focused : option PaneSlot) : string :=
  match focused with
  | Some slot => " ● " +:+ name +:+ " ▸ " +:+ Client.short8 (pane_uuid (sl_pane_id slot)) +:+ " "
  | None => " ● " +:+ name +:+ " "
  end.
Definition paint_status {D} (area : Rect) (prefix_active : bool) (sv : SessionView) (tab : Tab) (focused : option PaneSlot)
    (s : AppState D) : list Draw :=
  let '(mode_label, mid_msg) := mode_and_message prefix_active focused s in
  let chip := add_modifier BOLD (bg (t_primary t) (fg (t_bg t) plain)) in
  [Render (one_line_paragraph
     ([span (status_left (sv_name sv) focused) (status_style t)]
        ++ (match mid_msg with Some m => [MkSpan m (bg (t_surface t) (fg (t_secondary t) plain))] | None => [] end)
        ++ [span " " (bg (t_surface t) plain)]
        ++ (if decide (is_Some (tb_zoomed tab)) then [span " ZOOM " chip] else [])
        ++ [span (" " +:+ mode_label +:+ " ") chip]) (status_style t)) area].

(** The cursor of the terminal in the focused pane, unless it is scrolled back. *)
Definition pane_cursor (slot : PaneSlot) : list Draw :=
  if decide (sl_scroll_offset slot = 0%nat) then
    let vt_area := sl_last_screen_rect slot in
    let '(line, column) := cursor_point (sl_term slot) in
    let vt_row := wrap_u16 (Z.max line 0) in
    let vt_col := wrap_u16 column in
    [SetCursor (Z.min (sat_add_u16 (rx vt_area) vt_col) (sat_sub (sat_add_u16 (rx vt_area) (rw vt_area)) 1))
               (Z.min (sat_add_u16 (ry vt_area) vt_row) (sat_sub (sat_add_u16 (ry vt_area) (rh vt_area)) 1))]
  else [].
End Strips.

(** ** [draw_frame], as it is painted *)
Section Frame.
Context `{UuidText, Alacritty, TermCells, LayoutSolver, FireMath, !OverlayMath} {D : Type}.
Context (anim : Z) (hms : DateTime → string) (area : Rect) (prefix_active : bool).

(** Nothing has the keyboard but the pane. *)
Definition no_overlay (s : AppState D) : bool :=
  bool_decide (pager s = None) && bool_decide (theme_picker s = None) && bool_decide (prompt s = None)
  && negb (se_open (search s)) && negb (help_open s) && bool_decide (context_menu s = None) && bool_decide (pid_inspect s = None).

Definition paint_overlay (t : LegacyTheme) (s : AppState D) : list Draw :=
  match pager s, theme_picker s, prompt s with
  | Some p, _, _ => paint_pager t area p
  | None, Some picker, _ => paint_picker t area picker
  | None, None, Some p => paint_prompt anim t area p
  | None, None, None =>
      if se_open (search s) then paint_search anim t area hms (search s)
      else if help_open s then paint_help t area else []
  end.

(** The panes of the active tab: their slots after the frame, and what is drawn. *)
Definition paint_body (t : LegacyTheme) (body : Rect) (tab : Tab) (s : AppState D) : Slots * list Draw :=
  match tb_zoomed tab with
  | Some zoom_pane => paint_zoomed anim t (sidebar_data s) (selection s) zoom_pane body (slots s)
  | None => paint_layout anim t (sidebar_data s) (selection s) (tb_root tab) (tb_focus_pane tab) body (slots s)
  end.
Definition slot_of (sl : Slots) (i : nat) : option PaneSlot := mjoin (sl !! i).

Definition paint_frame : T D (list Draw) :=
  let! s := gets id in
  let t := from_palette (th_palette (theme s)) in
  if session_lost s then ret (Render (Fill (bg_style t)) area :: paint_session_lost t area)
  else
    let! sv := active_view in
    let! tab := active_tab in
    let sessions_area := screen_row area 0 in
    let body := body_of area in
    let ps := pills (sidebar_data s) (slots s) (sessions s) in
    let strip := layout_strip sessions_area ps (active_session s) (Z.of_nat (session_strip_scroll s)) in
    let '(sl, panes) := paint_body t (pane_body_area (sidebar_open s) body) tab s in
    let focused := i ← focused_slot_idx (tb_focus_pane tab) sl; slot_of sl i in
    let owner := i ← focused_slot_idx (default (tb_focus_pane tab) (tb_zoomed tab)) sl; slot_of sl i in
    ret (Render (Fill (bg_style t)) area
         :: paint_strip t sessions_area ps (pill_style anim t (sidebar_data s) (active_session s) (sessions s)) strip
         ++ paint_tabs t (screen_row area 1) sv
         ++ (if sidebar_open s then paint_sidebar anim t (split2 DHorizontal (Length 24) (Min 0) body).1 (sessions s)
                                      (sidebar_data s) (sidebar_cursor s) (sidebar_focused s) else [])
         ++ panes
         ++ paint_status t (screen_row area 3) prefix_active sv tab focused s
         ++ paint_toasts t area (clock s) (toast_deck s)
         ++ paint_overlay t s
         ++ (match context_menu s with Some m => paint_menu t area m | None => [] end)
         ++ (if no_overlay s then match owner with Some slot => pane_cursor slot | None => [] end else [])).
End Frame.

(** ** Lemmas *)

(** *** What only paints: it neither clears an area nor places the cursor *)
Definition paints (d : Draw) : Prop :=
  match d with Render Clear _ | SetCursor _ _ => False | _ => True end.
Definition clears (ds : list Draw) : list Rect := omap (λ d, match d with Render Clear r => Some r | _ => None end) ds.
Definition cursors (ds : list Draw) : list (Z * Z) := omap (λ d, match d with SetCursor x y => Some (x, y) | _ => None end) ds.
Lemma clears_app a b : clears (a ++ b) = clears a ++ clears b.
Proof. apply omap_app. Qed.
Lemma cursors_app a b : cursors (a ++ b) = cursors a ++ cursors b.
Proof. apply omap_app. Qed.
Lemma paints_clears ds : Forall paints ds → clears ds = [].
Proof. induction 1 as [|[[]| |] ds Hd _ IH]; try done; exact IH. Qed.
Lemma paints_cursors ds : Forall paints ds → cursors ds = [].
Proof. induction 1 as [|[| |] ds Hd _ IH]; try done; exact IH. Qed.

Ltac paints_tac :=
  repeat first [ apply Forall_app; split | apply Forall_cons; split | apply Forall_nil; exact I
               | match goal with |- paints _ => exact I end
               | match goal with |- context [match ?x with _ => _ end] => destruct x end ].

Section Paints.
Context `{UuidText, Alacritty, TermCells, LayoutSolver, FireMath, !OverlayMath}.
Lemma paint_pane_paints anim t meta sel f a z i area slot : Forall paints (paint_pane anim t meta sel f a z i area slot).
Proof.
  unfold paint_pane, paint_ribbon, scroll_bar. paints_tac. all: try done.
  all: apply Forall_fmap, Forall_true; intros; exact I.
Qed.
Lemma paint_layout_paints anim t meta sel root focus area sl : Forall paints (paint_layout anim t meta sel root focus area sl).2.
Proof.
  unfold paint_layout. generalize (build_pane_slot_map sl) as m. intros m.
  assert (Forall paints ([] : list Draw)) as Hnil by constructor. revert Hnil. generalize (@nil Draw) as ds. revert sl.
  induction (collect_leaf_rects root area) as [|leaf leaves IH]; intros sl ds Hds; [done|]. cbn [fold_left].
  destruct (paint_leaf _ _ _ _ _ _ _ leaf) as [sl1 ds1] eqn:E. apply IH. unfold paint_leaf in E.
  destruct (m !! leaf.1) as [i|]; [|by injection E as <- <-]. cbn [fst snd] in E.
  destruct (sl !! i) as [[slot|]|]; injection E as <- <-; try done. apply Forall_app. split; [done|apply paint_pane_paints].
Qed.
Lemma paint_zoomed_paints anim t meta sel p area sl : Forall paints (paint_zoomed anim t meta sel p area sl).2.
Proof. unfold paint_zoomed. repeat case_match; cbn [snd]; first [exact (Forall_nil_2 _) | apply paint_pane_paints]. Qed.
Lemma paint_body_paints {D} anim t body tab (s : AppState D) : Forall paints (paint_body anim t body tab s).2.
Proof. unfold paint_body. case_match; [apply paint_zoomed_paints|apply paint_layout_paints]. Qed.
Lemma paint_strip_paints t area ps sty st : Forall paints (paint_strip t area ps sty st).
Proof. unfold paint_strip. paints_tac; done. Qed.
Lemma paint_sidebar_paints anim t area ss data c f : Forall paints (paint_sidebar anim t area ss data c f).
Proof. unfold paint_sidebar. by repeat constructor. Qed.
Lemma paint_status_paints {D} t area p sv tab focused (s : AppState D) : Forall paints (paint_status t area p sv tab focused s).
Proof. unfold paint_status. destruct (mode_and_message _ _ _). by repeat constructor. Qed.
Lemma help_entries_paints t inner es y : Forall paints (help_entries t inner es y).1.
Proof. revert y. induction es as [|[k d] es IH]; intros y; cbn [help_entries]; [constructor|]. case_match; constructor; done || apply IH. Qed.
Lemma help_categories_paints t inner cs y : Forall paints (help_categories t inner cs y).
Proof.
  revert y. induction cs as [|[c es] cs IH]; intros y; cbn [help_categories]; [constructor|]. case_match; [constructor|].
  pose proof (help_entries_paints t inner es (y + 1)) as He. destruct (help_entries _ _ _ _) as [ds y'].
  constructor; [done|]. apply Forall_app. split; [done|apply IH].
Qed.
End Paints.

(** *** The rectangles *)
Definition inside (r area : Rect) : Prop :=
  rx area <= rx r ∧ ry area <= ry r ∧ rx r + rw r <= rx area + rw area ∧ ry r + rh r <= ry area + rh area.
(** The frame of a terminal. *)
Definition frame_of (w h : Z) : Rect := MkRect 0 0 w h.

Section Rects.
Context (w h : Z) (Hw : 0 <= w < 65536) (Hh : 0 <= h < 65536).
Lemma centered_u16 size x : 0 <= size < 65536 → 0 <= x → centered 0 size x = sat_sub size x / 2.
Proof. intros Hs Hx. unfold centered, sat_sub. apply wrap_u16_small. Z.to_euclidean_division_equations. lia. Qed.
Ltac rect_tac := unfold inside, frame_of, sat_sub; cbn [rx ry rw rh]; rewrite ?scale_060, ?scale_070, ?centered_u16 by (Z.to_euclidean_division_equations; lia);
  unfold sat_sub; Z.to_euclidean_division_equations.
Lemma frame_inside : inside (frame_of w h) (frame_of w h).
Proof. rect_tac. lia. Qed.
Lemma prompt_inside : 37 <= w → 5 <= h → inside (prompt_rect (frame_of w h)) (frame_of w h).
Proof. unfold prompt_rect. rect_tac. lia. Qed.
Lemma picker_inside : 50 <= w → 9 <= h → inside (picker_rect (frame_of w h)) (frame_of w h).
Proof. unfold picker_rect. rect_tac. lia. Qed.
Lemma search_inside : 23 <= w → 7 <= h → inside (search_rect (frame_of w h)) (frame_of w h).
Proof. unfold search_rect. rect_tac. lia. Qed.
Lemma session_lost_inside : inside (session_lost_rect (frame_of w h)) (frame_of w h).
Proof. unfold session_lost_rect. rect_tac. lia. Qed.
Lemma help_inside : inside (help_rect (frame_of w h)) (frame_of w h).
Proof.
  unfold help_rect. assert (0 <= help_rows) as Hr by (vm_compute; congruence).
  assert (0 <= max_key_w + 2 + max_desc_w + 2) as Hk by (vm_compute; congruence).
  generalize dependent help_rows. generalize dependent (max_key_w + 2 + max_desc_w + 2). intros k Hk r Hr.
  rect_tac. lia.
Qed.
Lemma menu_inside m : 21 <= w → 8 <= h → 0 <= rx (cm_rect m) → 0 <= ry (cm_rect m) →
  inside (menu_popup (frame_of w h) m) (frame_of w h).
Proof. unfold menu_popup. change menu_width with 21. change menu_height with 8. rect_tac. lia. Qed.
Lemma toast_inside i r : toast_rect (frame_of w h) i = Some r → inside r (frame_of w h).
Proof.
  unfold toast_rect. destruct (Z.ltb_spec (sat_sub (rh (frame_of w h)) (2 + Z.of_nat i * 4)) 3) as [|Hr]; [done|].
  intros [= <-]. revert Hr. rect_tac. lia.
Qed.
End Rects.

(** *** The parts of the frame *)
Section Parts.
Context `{UuidText, Alacritty, TermCells, LayoutSolver, FireMath, !OverlayMath}.
Lemma cards_clear t area now i ts r : r ∈ clears (paint_cards t area now i ts) → ∃ j, toast_rect area j = Some r.
Proof.
  revert i. induction ts as [|to ts IH]; intros i; cbn [paint_cards]; [by intros ?%elem_of_nil|].
  destruct (toast_rect area i) as [r'|] eqn:E; [|by intros ?%elem_of_nil].
  cbn. intros [->|Hr]%elem_of_cons; [by exists i|by apply (IH (S i))].
Qed.
Lemma cards_no_cursor t area now i ts : cursors (paint_cards t area now i ts) = [].
Proof.
  revert i. induction ts as [|to ts IH]; intros i; cbn [paint_cards]; [done|]. destruct (toast_rect area i); [|done]. apply IH.
Qed.
Lemma toasts_clear t area now d r : r ∈ clears (paint_toasts t area now d) → ∃ j, toast_rect area j = Some r.
Proof. unfold paint_toasts. case_match; [apply cards_clear|by intros ?%elem_of_nil]. Qed.
Lemma toasts_no_cursor t area now d : cursors (paint_toasts t area now d) = [].
Proof. unfold paint_toasts. case_match; [apply cards_no_cursor|done]. Qed.

Lemma paints_after d ds : Forall paints ds → clears (d :: ds) = clears [d] ∧ cursors (d :: ds) = cursors [d].
Proof.
  intros Hd. change (d :: ds) with ([d] ++ ds). by rewrite clears_app, cursors_app, (paints_clears ds), (paints_cursors ds), !app_nil_r.
Qed.
Lemma pager_parts t area p : clears (paint_pager t area p) = [area] ∧ cursors (paint_pager t area p) = [].
Proof. unfold paint_pager. destruct (split2 _ _ _ _). cbn [app]. by repeat case_match. Qed.
Lemma picker_parts t area p : clears (paint_picker t area p) = [picker_rect area] ∧ cursors (paint_picker t area p) = [].
Proof.
  unfold paint_picker. apply paints_after. constructor; [done|]. apply Forall_fmap, Forall_true. by intros [].
Qed.
Lemma help_parts t area : clears (paint_help t area) = [help_rect area] ∧ cursors (paint_help t area) = [].
Proof. unfold paint_help. apply paints_after. constructor; [done|apply help_categories_paints]. Qed.
Lemma menu_parts t area m : clears (paint_menu t area m) = [menu_popup area m] ∧ cursors (paint_menu t area m) = [].
Proof.
  unfold paint_menu. apply paints_after. constructor; [done|]. apply Forall_forall. intros d Hd.
  apply elem_of_lookup_imap in Hd as (i & x & -> & _). done.
Qed.
Lemma prompt_parts anim t area p :
  clears (paint_prompt anim t area p) = [prompt_rect area] ∧ length (cursors (paint_prompt anim t area p)) = 1%nat.
Proof. done. Qed.
Lemma search_parts anim t area hms s :
  clears (paint_search anim t area hms s) = [search_rect area] ∧ length (cursors (paint_search anim t area hms s)) = 1%nat.
Proof. unfold paint_search. by destruct (search_areas area). Qed.
Lemma lost_parts t area : clears (paint_session_lost t area) = [session_lost_rect area] ∧ cursors (paint_session_lost t area) = [].
Proof. unfold paint_session_lost. by destruct (split2 _ _ _ _). Qed.
Lemma pane_cursor_clears slot : clears (pane_cursor slot) = [].
Proof. unfold pane_cursor. destruct (decide _); [|done]. by destruct (cursor_point _). Qed.

(** What [paint_overlay] clears is one of the rectangles of the overlays. *)
Lemma overlay_clears {D} anim hms area t (s : AppState D) r :
  r ∈ clears (paint_overlay anim hms area t s) →
  r = area ∨ r = picker_rect area ∨ r = prompt_rect area ∨ r = search_rect area ∨ r = help_rect area.
Proof.
  unfold paint_overlay. repeat case_match.
  all: rewrite ?(proj1 (pager_parts _ _ _)), ?(proj1 (picker_parts _ _ _)), ?(proj1 (prompt_parts _ _ _ _)),
         ?(proj1 (search_parts _ _ _ _ _)), ?(proj1 (help_parts _ _)).
  all: first [intros ->%list_elem_of_singleton; tauto | by intros ?%elem_of_nil].
Qed.
Lemma overlay_cursors {D} anim hms area t (s : AppState D) :
  (length (cursors (paint_overlay anim hms area t s)) ≤ 1)%nat ∧
  (no_overlay s = true → cursors (paint_overlay anim hms area t s) = []).
Proof.
  unfold paint_overlay, no_overlay. split; intros; repeat case_match; try discriminate.
  all: rewrite ?(proj2 (pager_parts _ _ _)), ?(proj2 (picker_parts _ _ _)), ?(proj2 (prompt_parts _ _ _ _)),
         ?(proj2 (search_parts _ _ _ _ _)), ?(proj2 (help_parts _ _)); cbn; try done; try lia.
  all: repeat match goal with H : _ && _ = true |- _ => apply andb_true_iff in H as [? ?] end.
  all: repeat match goal with H : bool_decide _ = true |- _ => apply bool_decide_eq_true in H end; congruence || done.
Qed.
Lemma pane_cursor_one slot : (length (cursors (pane_cursor slot)) ≤ 1)%nat.
Proof. unfold pane_cursor. destruct (decide _); [|cbn; lia]. destruct (cursor_point _). cbn. lia. Qed.
End Parts.

Section Assembled.
Context `{UuidText, Alacritty, TermCells, LayoutSolver, FireMath, !OverlayMath} {D : Type}.

(** Drawing looks at the active tab, and at nothing that may be missing. *)
Lemma paint_frame_run anim hms area prefix (s : AppState D) sv tab :
  session_lost s = false → active_view s = (s, Ok sv) → active_tab s = (s, Ok tab) →
  ∃ ds, paint_frame anim hms area prefix s = (s, Ok ds) ∧
    clears ds = clears (paint_toasts (from_palette (th_palette (theme s))) area (clock s) (toast_deck s))
                ++ clears (paint_overlay anim hms area (from_palette (th_palette (theme s))) s)
                ++ (match context_menu s with Some m => [menu_popup area m] | None => [] end) ∧
    cursors ds = cursors (paint_overlay anim hms area (from_palette (th_palette (theme s))) s)
                 ++ (if no_overlay s then
                       match (i ← focused_slot_idx (default (tb_focus_pane tab) (tb_zoomed tab))
                                    (paint_body anim (from_palette (th_palette (theme s)))
                                       (pane_body_area (sidebar_open s) (body_of area)) tab s).1;
                              slot_of (paint_body anim (from_palette (th_palette (theme s)))
                                       (pane_body_area (sidebar_open s) (body_of area)) tab s).1 i)
                       with Some slot => cursors (pane_cursor slot) | None => [] end
                     else []).
Proof.
  intros Hlost Hv Ht. unfold paint_frame, gets, bind. cbn [id]. rewrite Hlost, Hv, Ht.
  set (t := from_palette _). pose proof (paint_body_paints anim t (pane_body_area (sidebar_open s) (body_of area)) tab s) as Hb.
  destruct (paint_body _ _ _ _ _) as [sl panes]. cbn [fst snd] in *. eexists. split; [reflexivity|].
  match goal with |- clears (?d :: ?l) = _ ∧ _ => change (d :: l) with ([d] ++ l) end.
  rewrite !clears_app, !cursors_app.
  change (clears [Render (Fill _) area]) with (@nil Rect). change (cursors [Render (Fill _) area]) with (@nil (Z * Z)). cbn [app].
  rewrite !(paints_clears (paint_strip _ _ _ _ _)), !(paints_cursors (paint_strip _ _ _ _ _)) by apply paint_strip_paints.
  change (clears (paint_tabs t (screen_row area 1) sv)) with (@nil Rect).
  change (cursors (paint_tabs t (screen_row area 1) sv)) with (@nil (Z * Z)). cbn [app].
  rewrite (paints_clears panes), (paints_cursors panes) by done.
  rewrite !(paints_clears (paint_status _ _ _ _ _ _ _)), !(paints_cursors (paint_status _ _ _ _ _ _ _)) by apply paint_status_paints.
  rewrite toasts_no_cursor.
  assert (∀ b l, Forall paints l → clears (if b : bool then l else []) = [] ∧ cursors (if b then l else []) = []) as Hif.
  { intros [] l Hl; [|done]. by rewrite paints_clears, paints_cursors. }
  rewrite !(proj1 (Hif _ _ (paint_sidebar_paints _ _ _ _ _ _ _))), !(proj2 (Hif _ _ (paint_sidebar_paints _ _ _ _ _ _ _))).
  cbn [app]. split.
  - f_equal. f_equal. destruct (context_menu s); rewrite ?(proj1 (menu_parts _ _ _));
      destruct (no_overlay s); repeat case_match; rewrite ?pane_cursor_clears; done.
  - f_equal. destruct (context_menu s); rewrite ?(proj2 (menu_parts _ _ _)); cbn [app];
      destruct (no_overlay s); repeat case_match; done.
Qed.
End Assembled.

Section Whole.
Context `{UuidText, Alacritty, TermCells, LayoutSolver, FireMath, !OverlayMath} {D : Type}.

Lemma active_view_reads (s : AppState D) : (active_view s).1 = s.
Proof. unfold active_view, gets, bind, session_at, at_index, of_result. reflexivity. Qed.
Lemma active_tab_reads (s : AppState D) : (active_tab s).1 = s.
Proof.
  unfold active_tab, bind. pose proof (active_view_reads s) as Hs. destruct (active_view s) as [s' [sv|e]]; cbn in *; by subst.
Qed.
(** A frame that was painted. *)
Lemma painted anim hms area prefix (s s' : AppState D) ds :
  paint_frame anim hms area prefix s = (s', Ok ds) →
  s' = s ∧ ((session_lost s = true ∧ ds = Render (Fill (bg_style (from_palette (th_palette (theme s))))) area
                                         :: paint_session_lost (from_palette (th_palette (theme s))) area) ∨
            session_lost s = false ∧ ∃ sv tab, active_view s = (s, Ok sv) ∧ active_tab s = (s, Ok tab)).
Proof.
  intros Hp. pose proof (active_view_reads s) as Hv. pose proof (active_tab_reads s) as Ht.
  unfold paint_frame, gets, bind in Hp. cbn [id] in Hp. destruct (session_lost s) eqn:El; [injection Hp as <- <-; auto|].
  destruct (active_view s) as [s1 [sv|e]] eqn:E1; cbn in Hv; [|done]. subst s1.
  destruct (active_tab s) as [s1 [tab|e]] eqn:E2; cbn in Ht; [|done]. subst s1.
  destruct (paint_body _ _ _ _ _). injection Hp as <- _. eauto 10.
Qed.

(** A cursor placed for a pane is on the screen of the pane. *)
Lemma pane_cursor_inside slot x y :
  0 <= rx (sl_last_screen_rect slot) → 0 <= ry (sl_last_screen_rect slot) →
  rx (sl_last_screen_rect slot) + rw (sl_last_screen_rect slot) < 65536 →
  ry (sl_last_screen_rect slot) + rh (sl_last_screen_rect slot) < 65536 →
  0 < rw (sl_last_screen_rect slot) → 0 < rh (sl_last_screen_rect slot) →
  (x, y) ∈ cursors (pane_cursor slot) →
  sl_scroll_offset slot = 0%nat ∧ rect_contains (sl_last_screen_rect slot) x y = true.
Proof.
  intros Hx Hy Hxw Hyh Hw Hh. unfold pane_cursor. destruct (decide _) as [Ho|]; [|by intros ?%elem_of_nil].
  destruct (cursor_point _) as [l c]. cbn. intros [= -> ->]%list_elem_of_singleton. split; [done|].
  assert (∀ z, 0 <= wrap_u16 z < 65536) as Hwrap by (intros; unfold wrap_u16; apply Z.mod_pos_bound; lia).
  pose proof (Hwrap c). pose proof (Hwrap (Z.max l 0)). unfold rect_contains, sat_add_u16, sat_sub.
  rewrite !(wrap_u16_small (_ + _)) by lia. rewrite !andb_true_iff, !Z.leb_le, !Z.ltb_lt. lia.
Qed.

(** The picker shows the theme under the cursor, highlighted, and what is on each row. *)
Lemma picker_rows_elem cursor visible row i th :
  (row, i, th) ∈ picker_rows cursor visible ↔
  (row < visible)%nat ∧ i = (picker_scroll cursor visible + row)%nat ∧ builtin !! i = Some th.
Proof.
  unfold picker_rows. rewrite elem_of_lookup_imap. split.
  - intros (k & th' & [= -> -> ->] & Hk). apply lookup_take_Some in Hk as [Hk Hlt]. rewrite lookup_drop in Hk. done.
  - intros (Hr & -> & Hth). exists row, th. split; [done|]. apply lookup_take_Some. by rewrite lookup_drop.
Qed.

(** *** The strip *)
Lemma line_width_app l1 l2 : line_width (l1 ++ l2) = line_width l1 + line_width l2.
Proof. unfold line_width. by rewrite fmap_app, sum_Z_app. Qed.
Lemma line_width_cons sp l : line_width (sp :: l) = Z.of_nat (length (sp_text sp)) + line_width l.
Proof. done. Qed.
Lemma strip_stops ps c area cs scroll viewport vx : scroll < c → scroll + viewport <= c →
  strip_rects false (zip ps (pill_offsets ps c)) area cs scroll viewport vx = [].
Proof.
  intros Hc Hv. destruct ps as [|p ps]; [done|]. cbn [pill_offsets zip zip_with strip_rects].
  assert (0 <= pill_width p) by (unfold pill_width; lia).
  destruct (Z.leb_spec (c + pill_width p) scroll); [lia|]. by destruct (Z.leb_spec (scroll + viewport) c); [|lia].
Qed.
(** From a pill on: [vx] columns are behind, [c] is where the pill starts. *)
Lemma strip_hits_from t sty area cs scroll viewport first ps c vx i r :
  0 <= scroll → 0 <= cs → 0 <= viewport → cs + viewport < 65536 →
  (first = true ∧ vx = 0 ∧ c = 0 ∧ (∀ p, head ps = Some p → scroll < pill_width p)) ∨ (first = false ∧ c = vx + 1 ∧ scroll < vx) →
  (i, r) ∈ strip_rects first (zip ps (pill_offsets ps c)) area cs scroll viewport vx →
  ∃ p before label after, p ∈ ps ∧ pill_sess_idx p = i ∧
    (strip_spans t sty first (zip ps (pill_offsets ps c)) scroll viewport vx).1 = before ++ MkSpan label (sty i) :: after ∧
    label `sublist_of` pill_label p ∧ rx r = cs + Z.max 0 (vx - scroll) + line_width before ∧ rw r = Z.of_nat (length label) ∧
    rx r + rw r <= cs + viewport.
Proof.
  intros Hs Hcs Hv Hu. revert first c vx. induction ps as [|p ps IH]; intros first c vx Hst; [by intros ?%elem_of_nil|].
  assert (0 <= pill_width p) as Hw by (unfold pill_width; lia).
  cbn [pill_offsets zip zip_with strip_rects strip_spans].
  destruct (Z.leb_spec (c + pill_width p) scroll) as [Hle|_].
  { destruct Hst as [(_ & _ & -> & Hh)|(_ & -> & ?)]; [specialize (Hh p eq_refl)|]; lia. }
  destruct (Z.leb_spec (scroll + viewport) c) as [|Hc]; [by intros ?%elem_of_nil|].
  assert ((if first then vx else vx + 1) = c ∧ Z.max 0 (c - scroll) = Z.max 0 (vx - scroll) + (if first then 0 else 1) ∧
          negb first && (scroll <? vx) = negb first ∧ 0 <= c) as (-> & Hmax & -> & Hc0).
  { destruct Hst as [(-> & -> & -> & _)|(-> & -> & ?)]; cbn; [lia|]. rewrite (proj2 (Z.ltb_lt _ _)) by lia. lia. }
  set (clip_start := sat_sub scroll c). set (clip_end := Z.min (sat_sub (scroll + viewport) c) (pill_width p)).
  set (lbl := take (Z.to_nat (clip_end - clip_start)) (drop (Z.to_nat clip_start) (pill_label p))).
  set (sep := if negb first then [gap t] else []).
  assert (line_width sep = if first then 0 else 1) as Hsep by (unfold sep; by destruct first).
  assert (0 <= clip_start <= clip_end) as Hclip.
  { unfold clip_start, clip_end, sat_sub. destruct Hst as [(_ & _ & -> & Hh)|(_ & -> & ?)]; [specialize (Hh p eq_refl)|]; lia. }
  assert (Z.of_nat (length lbl) = clip_end - clip_start) as Hlbl.
  { unfold lbl. rewrite length_take, length_drop. unfold clip_end, pill_width in *. lia. }
  assert (clip_end - clip_start <= viewport) by (unfold clip_start, clip_end, sat_sub in *; lia).
  rewrite elem_of_app. intros [Hr|Hr].
  - destruct ((0 <? rh area) && _) eqn:Ev; [|by apply elem_of_nil in Hr].
    apply list_elem_of_singleton in Hr. injection Hr as -> ->. exists p, sep, lbl. eexists. cbn [fst rx rw].
    assert (sat_sub (c + clip_start) scroll = Z.max 0 (vx - scroll) + line_width sep) as Hpos
      by (rewrite Hsep; unfold clip_start, sat_sub; destruct first; lia).
    assert (0 <= sat_sub (c + clip_start) scroll ∧ sat_sub (c + clip_start) scroll + (clip_end - clip_start) <= viewport) as Hfit
      by (unfold clip_start, clip_end, sat_sub; lia).
    rewrite (wrap_u16_small (clip_end - clip_start)), !wrap_u16_small by (rewrite ?wrap_u16_small; lia).
    split_and!; [by left|done|reflexivity| |lia|lia|lia].
    unfold lbl. etrans; [apply sublist_take|apply sublist_drop].
  - destruct (decide (scroll + viewport < c + pill_width p)) as [Hcut|Hall].
    { rewrite strip_stops in Hr by (destruct Hst as [(_ & _ & -> & Hh)|(_ & -> & ?)]; [specialize (Hh p eq_refl)|]; lia).
      by apply elem_of_nil in Hr. }
    apply IH in Hr as (q & before & label & after & Hq & Hi & -> & Hsub & Hx & Hrw & Hend).
    2: { right. split_and!; [done..|]. destruct Hst as [(_ & _ & -> & Hh)|(_ & -> & ?)]; [specialize (Hh p eq_refl)|]; lia. }
    exists q, (sep ++ MkSpan lbl (sty (pill_sess_idx p)) :: before), label, after. cbn [fst].
    rewrite line_width_app, line_width_cons. cbn [sp_text]. rewrite Hsep, Hlbl, <- app_assoc.
    split_and!; [by right|done|done|done| |done|done]. rewrite Hx. unfold clip_start, clip_end, sat_sub in *. lia.
Qed.

Lemma auto_scroll_nonneg ps offs active l v scroll : 0 <= scroll → 0 <= auto_scroll ps offs active l v scroll.
Proof. intros Hs. unfold auto_scroll, sat_sub. repeat case_match; lia. Qed.

(** *** Painting and drawing *)
Lemma paint_body_slots anim t body tab (s : AppState D) :
  (paint_body anim t body tab s).1 =
    (match tb_zoomed tab with
     | Some zoom_pane => render_zoomed zoom_pane body (slots s)
     | None => render_layout (tb_root tab) body (slots s)
     end).1.
Proof.
  unfold paint_body. case_match; [|apply paint_layout_slots]. unfold paint_zoomed, render_zoomed, render_slot.
  destruct (build_pane_slot_map (slots s) !! _) as [i|]; [|done]. cbn [fst].
  destruct (slots s !! i) as [[slot|]|]; [|done..]. by destruct (render_pane body slot).
Qed.
Lemma active_tab_inv (s : AppState D) sv tab :
  active_view s = (s, Ok sv) → active_tab s = (s, Ok tab) →
  sessions s !! active_session s = Some sv ∧ sv_tabs sv !! sv_active_tab sv = Some tab.
Proof.
  unfold active_tab, bind. intros Hv. rewrite Hv. unfold active_view, gets, bind, session_at, at_index, index, of_result, tab_of in *.
  destruct (sessions s !! active_session s) as [sv'|]; cbn in Hv; [|done]. injection Hv as ->.
  unfold at_index, index, of_result. destruct (sv_tabs sv !! sv_active_tab sv); cbn; [|done]. by intros [= ->].
Qed.
Lemma active_tab_of (s : AppState D) sv tab :
  sessions s !! active_session s = Some sv → sv_tabs sv !! sv_active_tab sv = Some tab →
  active_view s = (s, Ok sv) ∧ active_tab s = (s, Ok tab).
Proof.
  intros Hsv Htab. assert (active_view s = (s, Ok sv)) as Hv
    by (unfold active_view, gets, bind, session_at, at_index, index, of_result; by rewrite Hsv).
  split; [done|]. unfold active_tab, bind. rewrite Hv. unfold tab_of, at_index, index, of_result. by rewrite Htab.
Qed.
(** The body of the frame, from a state with the tab of [s]. *)
Lemma draw_body_run anim t body (s : AppState D) sv tab :
  sessions s !! active_session s = Some sv → sv_tabs sv !! sv_active_tab sv = Some tab →
  ∃ s', draw_body body s = (s', Ok tt) ∧ slots s' = (paint_body anim t (pane_body_area (sidebar_open s) body) tab s).1.
Proof.
  intros Hsv Htab. unfold draw_body. rewrite (bind_ok _ _ _ _ _ (proj2 (active_tab_of _ _ _ Hsv Htab))).
  rewrite paint_body_slots. unfold gets at 1 2, bind at 1 2.
  destruct (match tb_zoomed tab with Some _ => _ | None => _ end) as [sl resizes].
  set (s1 := s <| slots := sl |> <| pending_resizes ::= (.++ resizes) |>).
  change (sessions s1 !! active_session s1 = Some sv) in Hsv.
  erewrite bind_ok; [|reflexivity]. fold s1. unfold with_active_tab.
  rewrite (bind_ok _ _ _ _ _ (proj1 (active_tab_of _ _ _ Hsv Htab))).
  rewrite (bind_ok _ _ s1 s1 tab) by (unfold tab_of, at_index, index, of_result; by rewrite Htab).
  eexists. split; [reflexivity|]. done.
Qed.

Lemma chars_cons a s : chars (String.String a s) ≠ [].
Proof.
  unfold chars, from_utf8_lossy. change (str_bytes (String.String a s)) with (Ascii.byte_of_ascii a :: str_bytes s).
  intros E%(f_equal length). rewrite length_fmap in E. cbn [utf8_chunks] in E. revert E. repeat case_match; discriminate.
Qed.
(** The bar of a toast is as wide as the card, and comes after the title and the text: the
    line is never shown whole. *)
Lemma toast_line_too_wide t now width to : 0 <= width → 0 < to_ttl to → width < line_width (toast_line t now width to).
Proof.
  intros Hw Ht. assert (0 <= toast_bar now width to <= width) as Hb.
  { unfold toast_bar. destruct (Z.leb_spec (to_ttl to) (Z.max 0 (now - to_born_at to))); [lia|]. apply bar_columns_le; lia. }
  unfold toast_line. rewrite !line_width_cons. cbn [sp_text]. rewrite length_app, !length_replicate.
  assert (0 < Z.of_nat (length (sp_text (span (to_body to +:+ " ") (text_style (t_text_dim t)))))) as Hbody.
  { cbn [span sp_text]. destruct (chars (to_body to +:+ " ")) as [|c cs] eqn:E; [|cbn; lia].
    exfalso. revert E. destruct (to_body to); apply chars_cons. }
  change (line_width []) with 0. lia.
Qed.

(** ** Properties *)

(** C39: the popups stay on the screen. In a terminal of at least 50 columns and 9 rows,
    with a context menu opened on the screen, every area a frame clears for a popup -
    toasts, pager, theme picker, prompt, search box, help, context menu, the end of the
    session - lies inside the terminal. *)
Theorem clears_stay_inside anim hms w h prefix (s s' : AppState D) ds r :
  50 <= w < 65536 → 9 <= h < 65536 →
  (∀ m, context_menu s = Some m → 0 <= rx (cm_rect m) ∧ 0 <= ry (cm_rect m)) →
  paint_frame anim hms (frame_of w h) prefix s = (s', Ok ds) → r ∈ clears ds → inside r (frame_of w h).
Proof.
  intros Hw Hh Hm Hp Hr. destruct (painted _ _ _ _ _ _ _ Hp) as [-> [[_ ->]|(Hl & sv & tab & Hv & Ht)]].
  - assert (r ∈ clears (paint_session_lost (from_palette (th_palette (theme s))) (frame_of w h))) as Hr' by exact Hr.
    rewrite (proj1 (lost_parts _ _)) in Hr'. apply list_elem_of_singleton in Hr' as ->. apply session_lost_inside; lia.
  - destruct (paint_frame_run anim hms (frame_of w h) prefix s sv tab Hl Hv Ht) as (ds' & Hp' & Hc & _).
    rewrite Hp in Hp'. injection Hp' as <-. rewrite Hc, !elem_of_app in Hr. destruct Hr as [Hr|[Hr|Hr]].
    + apply toasts_clear in Hr as [j Hj]. apply toast_inside in Hj; [done|lia..].
    + apply overlay_clears in Hr as [->|[->|[->|[->| ->]]]].
      * apply frame_inside; lia. * apply picker_inside; lia. * apply prompt_inside; lia.
      * apply search_inside; lia. * apply help_inside; lia.
    + destruct (context_menu s) as [m|]; [|by apply elem_of_nil in Hr]. apply list_elem_of_singleton in Hr as ->.
      destruct (Hm m eq_refl). apply menu_inside; lia.
Qed.

(** The keyboard has one cursor. A frame places the cursor at most once; when
    nothing but the pane has the keyboard it is on the screen of the pane that has the
    focus (or is zoomed), which is not scrolled back. *)
Theorem one_cursor anim hms area prefix (s s' : AppState D) ds :
  paint_frame anim hms area prefix s = (s', Ok ds) →
  (length (cursors ds) ≤ 1)%nat ∧
  (session_lost s = true → cursors ds = []) ∧
  (no_overlay s = true → session_lost s = false → ∀ x y, (x, y) ∈ cursors ds →
     ∃ tab slot i, active_tab s = (s, Ok tab) ∧
       let sl := (paint_body anim (from_palette (th_palette (theme s))) (pane_body_area (sidebar_open s) (body_of area)) tab s).1 in
       focused_slot_idx (default (tb_focus_pane tab) (tb_zoomed tab)) sl = Some i ∧ sl !! i = Some (Some slot) ∧
       (x, y) ∈ cursors (pane_cursor slot)).
Proof.
  intros Hp. destruct (painted _ _ _ _ _ _ _ Hp) as [-> [[Hl ->]|(Hl & sv & tab & Hv & Ht)]].
  - change (cursors (?d :: ?l)) with (cursors l). rewrite (proj2 (lost_parts _ _)).
    split_and!; [cbn; lia|done|congruence].
  - destruct (paint_frame_run anim hms area prefix s sv tab Hl Hv Ht) as (ds' & Hp' & _ & Hc).
    rewrite Hp in Hp'. injection Hp' as <-.
    set (t := from_palette _) in *. set (sl := (paint_body _ _ _ _ _).1) in *.
    pose proof (overlay_cursors anim hms area t s) as [Ho1 Ho2]. rewrite Hc.
    split_and!; [|congruence|].
    + destruct (no_overlay s); [rewrite Ho2 by done|by rewrite app_nil_r].
      destruct (i ← _; _) as [slot|]; [apply pane_cursor_one|cbn; lia].
    + intros Hno _ x y Hxy. rewrite Hno, Ho2 in Hxy by done. cbn [app] in Hxy.
      destruct (focused_slot_idx _ sl) as [i|] eqn:Ei; cbn in Hxy; [|by apply elem_of_nil in Hxy].
      unfold slot_of in Hxy. destruct (sl !! i) as [[slot|]|] eqn:Es; cbn in Hxy; try (by apply elem_of_nil in Hxy).
      exists tab, slot, i. auto.
Qed.

(** The theme picker shows its cursor. With the cursor on a theme and room for a row,
    one row of the list is that theme, highlighted; rows show consecutive themes. *)
Theorem picker_shows_cursor cursor visible th :
  builtin !! cursor = Some th → (0 < visible)%nat →
  (∃ row, (row, cursor, th) ∈ picker_rows cursor visible) ∧
  ∀ row i th', (row, i, th') ∈ picker_rows cursor visible →
    (row < visible)%nat ∧ builtin !! i = Some th' ∧ i = (picker_scroll cursor visible + row)%nat.
Proof.
  intros Hc Hv. split.
  - exists (cursor - picker_scroll cursor visible)%nat. apply picker_rows_elem. unfold picker_scroll.
    case_decide; split_and!; [lia|lia|done|lia|lia|done].
  - intros row i th' (? & -> & ?)%picker_rows_elem. done.
Qed.
(** A click on the session strip hits what is drawn there. While the first session is
    not scrolled off, the rectangle kept for a session covers exactly the columns where
    its part of the strip is painted, within the strip. *)
Theorem strip_hits t sty area ps active scroll i r :
  0 <= rx area → 0 <= rw area → rx area + rw area < 65535 → 0 <= scroll →
  (∀ p, head ps = Some p → st_scroll (layout_strip area ps active scroll) < pill_width p) →
  (i, r) ∈ st_rects (layout_strip area ps active scroll) →
  ∃ p spans content before label after,
    p ∈ ps ∧ pill_sess_idx p = i ∧
    Render (one_line_paragraph spans (bg (t_bg t) plain)) content ∈ paint_strip t area ps sty (layout_strip area ps active scroll) ∧
    spans = before ++ MkSpan label (sty i) :: after ∧ label `sublist_of` pill_label p ∧
    rx r = rx content + line_width before ∧ rw r = Z.of_nat (length label) ∧ rx r + rw r <= rx content + rw content.
Proof.
  intros Hx Hw Hxw Hs Hfirst Hr. unfold paint_strip. remember (layout_strip area ps active scroll) as st eqn:E.
  assert (0 <= st_scroll st) as Hst.
  { subst st. cbn [layout_strip st_scroll]. apply Z.min_glb; [by apply auto_scroll_nonneg|unfold sat_sub; lia]. }
  set (left := arrow (0 <? st_scroll st)). set (right := arrow (rw area + st_scroll st <? pills_width ps + 1 + 3)).
  set (viewport := sat_sub (rw area) (left + right)).
  assert (st_rects st = strip_rects true (zip ps (pill_offsets ps 0)) area (wrap_u16 (rx area + left)) (st_scroll st) viewport 0) as Hrects
    by (subst st; reflexivity).
  assert (0 <= left <= 1 ∧ 0 <= right <= 1) as [Hleft Hright] by (unfold left, right, arrow; repeat case_match; lia).
  assert (0 <= viewport ∧ viewport + left <= Z.max 1 (rw area)) as [Hv Hv'] by (unfold viewport, sat_sub; lia).
  rewrite Hrects in Hr. rewrite wrap_u16_small in Hr by lia.
  apply (strip_hits_from t sty) in Hr as (p & before & label & after & Hp & Hi & Hspans & Hsub & Hrx & Hrw & Hend); [|lia..|].
  2: { left. split_and!; [done..|]. intros p Hp. by apply Hfirst. }
  destruct (strip_spans _ _ _ _ _ _ _) as [spans vx]. cbn [fst] in Hspans. subst spans.
  exists p. eexists _, _, before, label, _. split_and!; [done..| | | | | |].
  - apply elem_of_app. right. apply elem_of_app. right. by left.
  - rewrite <- app_assoc. reflexivity.
  - done.
  - cbn [rx]. rewrite wrap_u16_small by lia. lia.
  - done.
  - cbn [rx rw]. rewrite !wrap_u16_small by lia. lia.
Qed.
End Whole.

(** ** Concrete frames *)
Section Example.
#[local] Existing Instances binary_uuid blank_screen whole_area lone_daemon plain_cells.
#[local] Instance still_fire : FireMath :=
  {| f32 := Z; pulse_phase := λ _ _ _, 0; border_mix := λ p _, p; fg_mix := λ p _, p; lerp_u8 := λ a _ _, a |}.
#[local] Instance full_bars : OverlayMath.
Proof. refine {| dot_mix := id; remaining := λ _ _, 100; bar_columns := λ w _, w |}. intros. lia. Defined.
Definition no_clock (_ : DateTime) : string := "00:00:00".
Definition quiet : AppState _ := start_tui plain_io 0 None ember quiet_deck alone 1%nat.

(** A context menu near the corner over a search box: three areas are cleared. *)
Definition crowded : AppState _ :=
  quiet <| search ::= λ q, q <| se_open := true |> |>
        <| context_menu := Some (MkMenu (MkRect 76 22 1 1) 0 0 []) |>
        <| toast_deck := MkDeck [MkToast "pane" "Done" TkSuccess 0 4000] 4 true 4000 |>.
Lemma clears_stay_inside_witness :
  ∃ ds, paint_frame 0 no_clock (frame_of 80 24) false crowded = (crowded, Ok ds) ∧
    clears ds = [MkRect 39 19 40 3; MkRect 12 5 56 14; MkRect 59 16 21 8] ∧ Forall (λ r, inside r (frame_of 80 24)) (clears ds).
Proof.
  destruct (paint_frame 0 no_clock (frame_of 80 24) false crowded) as [s' [ds|e]] eqn:E; [|by vm_compute in E].
  exists ds. assert (clears ds = [MkRect 39 19 40 3; MkRect 12 5 56 14; MkRect 59 16 21 8]) as Hc
    by (apply (f_equal (λ x, match x.2 with Ok ds => clears ds | Err _ => [] end)) in E; cbn [snd] in E; rewrite <- E; vm_compute; reflexivity).
  split; [by destruct (painted _ _ _ _ _ _ _ E) as [-> _]|]. split; [exact Hc|]. apply Forall_forall. intros r Hr.
  refine (clears_stay_inside 0 no_clock 80 24 false crowded s' ds r _ _ _ E Hr); [lia|lia|].
  intros m [= <-]. cbn. lia.
Defined.
(** One column less, and the theme picker is wider than what is left of the screen. *)
Example picker_leaves_screen : ¬ inside (picker_rect (frame_of 49 9)) (frame_of 49 9).
Proof. unfold inside. vm_compute. intros (_ & _ & Hx & _). by apply Hx. Qed.


(** Once the first session is scrolled off, the second is painted from the second column
    after the arrow, and its rectangle starts in the third. *)
Definition two_pills : list PillItem := [MkPill 0 (replicate 10 97); MkPill 1 (replicate 10 98)].
Example scrolled_strip_is_off :
  let t := from_palette ember_PALETTE in
  let st := layout_strip (MkRect 0 0 12 1) two_pills 1 0 in
  st_scroll st = 10 ∧ st_rects st = [(1%nat, MkRect 3 0 8 1)] ∧
  Render (one_line_paragraph [gap t; MkSpan (replicate 8 98) plain] (bg (t_bg t) plain)) (MkRect 1 0 10 1)
    ∈ paint_strip t (MkRect 0 0 12 1) two_pills (λ _, plain) st.
Proof.
  split; [reflexivity|]. split; [reflexivity|]. right. right. left.
Qed.

(** The cursor of the prompt counts bytes: the text starts in column 16, and after the
    three characters [> é] the cursor is in column 20. *)
Example prompt_cursor_counts_bytes :
  cursors (paint_prompt 0 (from_palette ember_PALETTE) (frame_of 80 24) (MkPrompt NewTab [0xE9])) = [(20, 9)].
Proof. vm_compute. reflexivity. Qed.
(** A hit on a command of two lines takes two rows of the list; [result_rows] keeps one. *)
Example two_line_hit :
  let b := MkBlock (MkBlockId 1) (MkPaneId 1) (MkSessionId 1) (of_chars [97; 10; 98]) None 0 None None 0 in
  length (search_item (from_palette ember_PALETTE) no_clock (MkBlockHit b "")).1 = 2%nat ∧
  length (result_rows (frame_of 40 10) 1) = 1%nat.
Proof. vm_compute. auto. Qed.
(** Of the prefix keys the help lists, the one that renames a window is missing. *)
Example help_misses_rename_window : (sum_Z ((λ c, Z.of_nat (length c.2)) <$> CATEGORIES) = 21) ∧ "Ctrl-Space ." ∉ (flat_map snd CATEGORIES).*1.
Proof. split; [reflexivity|]. by apply (bool_decide_eq_false_1 ("Ctrl-Space ." ∈ (flat_map snd CATEGORIES).*1)). Qed.
End Example.
