(* ===== verification/GpuPaint.v ===== *)
(** * GpuPaint: drawing into the frame buffer (pyre-gpu/src/{atlas,paint,toast,search}.rs)

    The functions that write pixels. A canvas is the buffer with the glyph cache; an
    index or a slice outside the buffer is a panic ([None]), as in Rust. Rasterizing
    is the crate fontdue (class [Fontdue]); mixing two colours, which is done with
    32-bit floats, is a parameter. [usize] is [nat]. *)
From coqutil Require Export Datatypes.RecordSettersUsingExistingGetters.
From S2P Require Import Prelude Proto Text Layout Themes.
Local Open Scope nat_scope.

Definition CELL_W : nat := 10.
Definition CELL_H : nat := 20.

Record CachedGlyph := MkGlyph {
  gl_width : nat; gl_height : nat; gl_left : Z; gl_top : Z; gl_pixels : list Z }.
Class Fontdue := {
  rasterize : Z → CachedGlyph;
  rasterize_size c : length (gl_pixels (rasterize c)) = gl_width (rasterize c) * gl_height (rasterize c) }.

Record Canvas := MkCanvas { cv_pixels : list Z; cv_cache : gmap (Z * bool) CachedGlyph }.

(** [buffer[i] = v] and [buffer[start..stop].fill(v)] *)
Definition put (i : nat) (v : Z) (c : Canvas) : option Canvas :=
  if decide (i < length (cv_pixels c)) then Some (c <| cv_pixels ::= <[i := v]> |>) else None.
Definition fill (start stop : nat) (v : Z) (c : Canvas) : option Canvas :=
  if decide (start ≤ stop ∧ stop ≤ length (cv_pixels c)) then
    Some (c <| cv_pixels ::= λ b, take start b ++ replicate (stop - start) v ++ drop stop b |>)
  else None.

(** A loop: the first panic ends it. [before]: the indices of [0..n] up to a [break]. *)
Fixpoint each {A} (f : A → Canvas → option Canvas) (l : list A) (c : Canvas) : option Canvas :=
  match l with
  | [] => Some c
  | x :: l' => c' ← f x c; each f l' c'
  end.
Definition before (go : nat → bool) (n : nat) : list nat := take_while go (seq 0 n).

(** The channels of a pixel, as [0x00rrggbb]. *)
Definition rgb_u32 (c : Rgb) : Z :=
  Z.lor (Z.lor (Z.shiftl (r8 c) 16) (Z.shiftl (g8 c) 8)) (b8 c).

(** [GlyphAtlas::glyph]; the glyph of a bold character is the same. *)
Definition glyph `{Fontdue} (ch : Z) (bold : bool) (c : Canvas) : CachedGlyph * Canvas :=
  match cv_cache c !! (ch, bold) with
  | Some g => (g, c)
  | None => let g := rasterize ch in (g, c <| cv_cache ::= <[(ch, bold) := g]> |>)
  end.

Section Atlas.
Context `{Fontdue} (blend : Z → Z → Z → Z).
Context (width height : nat).                     (** of the buffer *)

(** One pixel of a glyph; a position off the buffer is skipped. *)
Definition glyph_pixel (g : CachedGlyph) (x0 : nat) (py : Z) (gy : nat) (fg_px bg_px : Z) (gx : nat) (c : Canvas) : option Canvas :=
  alpha ← gl_pixels g !! (gy * gl_width g + gx);
  if (alpha =? 0)%Z then Some c
  else
    let px := (Z.of_nat x0 + gl_left g + Z.of_nat gx)%Z in
    if (px <? 0)%Z || (Z.of_nat width <=? px)%Z then Some c
    else put (Z.to_nat py * width + Z.to_nat px) (blend fg_px bg_px alpha) c.
Definition glyph_row (g : CachedGlyph) (x0 baseline : nat) (fg_px bg_px : Z) (gy : nat) (c : Canvas) : option Canvas :=
  let py := (Z.of_nat baseline - gl_top g - Z.of_nat gy)%Z in
  if (py <? 0)%Z || (Z.of_nat height <=? py)%Z then Some c
  else each (glyph_pixel g x0 py gy fg_px bg_px) (seq 0 (gl_width g)) c.

(** The rows of the background of a cell. *)
Definition cell_row (x0 y0 : nat) (bg_px : Z) (dy : nat) (c : Canvas) : option Canvas :=
  let y := y0 + dy in
  let start := y * width + x0 in
  fill start (Nat.min (start + CELL_W) (y * width + width)) bg_px c.

Definition paint_cell (col row : nat) (ch : Z) (fg bg : Rgb) (bold : bool) (c : Canvas) : option Canvas :=
  let x0 := col * CELL_W in
  let y0 := row * CELL_H in
  let bg_px := rgb_u32 bg in
  c1 ← each (cell_row x0 y0 bg_px) (before (λ dy, y0 + dy <? height) CELL_H) c;
  if (ch =? 32)%Z then Some c1
  else
    let '(g, c2) := glyph ch bold c1 in
    each (glyph_row g x0 (y0 + (CELL_H - 4)) (rgb_u32 fg) bg_px) (seq 0 (gl_height g)) c2.

(** A text from a column on: [paint_text_row] goes on to the right edge and beyond,
    [draw_line] stops at the last column. *)
Definition text_cell (col row : nat) (fg bg : Rgb) (ic : nat * Z) : Canvas → option Canvas :=
  paint_cell (col + ic.1) row ic.2 fg bg false.
Definition paint_text_row (text : list Z) (cell_col cell_row : nat) (fg bg : Rgb) : Canvas → option Canvas :=
  each (text_cell cell_col cell_row fg bg) (imap pair text).
Definition draw_line (col row : nat) (text : list Z) (fg bg : Rgb) : Canvas → option Canvas :=
  each (text_cell col row fg bg) (take_while (λ ic, col + ic.1 <? width / CELL_W) (imap pair text)).

(** *** Rectangles of pixels (toast.rs) *)
Definition fill_rect (px_x px_y w h : nat) (pixel : Z) : Canvas → option Canvas :=
  each (λ row, let y := px_y + row in
               each (λ col, let x := px_x + col in
                            if x <? width then put (y * width + x) pixel else Some) (seq 0 w))
       (before (λ row, px_y + row <? height) h).
Definition put_if (x y : nat) (pixel : Z) (c : Canvas) : option Canvas :=
  if (x <? width) && (y <? height) then put (y * width + x) pixel c else Some c.
Definition draw_border_rect (px_x px_y w h : nat) (pixel : Z) (c : Canvas) : option Canvas :=
  c ← each (λ x c, c ← put_if (px_x + x) px_y pixel c; put_if (px_x + x) (px_y + (h - 1)) pixel c) (seq 0 w) c;
  each (λ y c, c ← put_if px_x (px_y + y) pixel c; put_if (px_x + (w - 1)) (px_y + y) pixel c) (seq 0 h) c.

(** *** A pane (paint.rs) *)
Record CellRgb := MkCell { ce_ch : Z; ce_fg : Rgb; ce_bg : Rgb; ce_bold : bool }.

Definition pane_cell (x y w h cell_cols : nat) (ic : nat * CellRgb) : Canvas → option Canvas :=
  let col := ic.1 mod cell_cols in
  let row := ic.1 / cell_cols in
  let abs_col := x / CELL_W + col in
  let abs_row := y / CELL_H + row in
  if (x + w <=? abs_col * CELL_W) || (y + h <=? abs_row * CELL_H) then Some
  else paint_cell abs_col abs_row (ce_ch ic.2) (ce_fg ic.2) (ce_bg ic.2) (ce_bold ic.2).
Definition paint_pane_at (x y w h : nat) (cells : list CellRgb) (cell_cols cell_rows : nat) (bg_fill : Rgb) (c : Canvas) :
    option Canvas :=
  c ← each (pane_cell x y w h cell_cols) (imap pair cells) c;
  let painted_h := cell_rows * CELL_H in
  if painted_h <? h then
    let y_start := y + painted_h in
    each (λ i, let y := y_start + i in
               each (λ j, put (y * width + (x + j)) (rgb_u32 bg_fill)) (before (λ j, x + j <? width) w))
         (before (λ i, y_start + i <? height) (h - painted_h)) c
  else Some c.

(** The border of a rectangle; [x1] and [y1] are included. *)
Definition paint_border (x y w h : nat) (color : Rgb) (c : Canvas) : option Canvas :=
  let x1 := (x + w) - 1 in
  let y1 := (y + h) - 1 in
  let pixel := rgb_u32 color in
  c ← each (λ i c, c ← put_if (x + i) y pixel c; put_if (x + i) y1 pixel c) (seq 0 (S x1 - x)) c;
  each (λ i c, c ← put_if x (y + i) pixel c; put_if x1 (y + i) pixel c) (seq 0 (S y1 - y)) c.
End Atlas.

(** ** Drawing does not leave the buffer *)
Section Safe.
Context `{Fontdue} (blend : Z → Z → Z → Z) (width height : nat).

(** The buffer has the size it is said to have, the cache is that of the font. *)
Definition canvas_ok (c : Canvas) : Prop :=
  length (cv_pixels c) = width * height ∧ map_Forall (λ k g, g = rasterize k.1) (cv_cache c).
Definition draws (f : Canvas → option Canvas) : Prop := ∀ c, canvas_ok c → ∃ c', f c = Some c' ∧ canvas_ok c'.

Lemma draws_some : draws Some.
Proof. intros c Hc. by exists c. Qed.
Lemma draws_then f g : draws f → draws g → draws (λ c, c' ← f c; g c').
Proof. intros Hf Hg c Hc. destruct (Hf c Hc) as (c1 & -> & H1). exact (Hg c1 H1). Qed.
Lemma draws_each {A} (f : A → Canvas → option Canvas) l : Forall (λ x, draws (f x)) l → draws (each f l).
Proof.
  induction 1 as [|x l Hx _ IH]; [apply draws_some|]. intros c Hc. cbn [each]. destruct (Hx c Hc) as (c1 & -> & H1). by apply IH.
Qed.
Lemma draws_if (b : bool) f g : (b = true → draws f) → (b = false → draws g) → draws (λ c, if b then f c else g c).
Proof. intros Hf Hg. destruct b; [by apply Hf|by apply Hg]. Qed.

Lemma pixel_index x y : x < width → y < height → y * width + x < width * height.
Proof. nia. Qed.
Lemma draws_put i v : i < width * height → draws (put i v).
Proof.
  intros Hi c [Hl Hc]. unfold put. rewrite Hl. rewrite decide_True by done. eexists. split; [done|]. split; [|done].
  cbn. by rewrite length_insert.
Qed.
Lemma draws_put_if x y v : draws (put_if width height x y v).
Proof.
  unfold put_if. apply draws_if; [|intros _; apply draws_some]. rewrite andb_true_iff, !Nat.ltb_lt. intros [Hx Hy].
  by apply draws_put, pixel_index.
Qed.
Lemma draws_fill start stop v : start ≤ stop → stop ≤ width * height → draws (fill start stop v).
Proof.
  intros Hs Ht c [Hl Hc]. unfold fill. rewrite Hl. rewrite decide_True by done. eexists. split; [done|]. split; [|done].
  cbn. rewrite !length_app, length_take, length_replicate, length_drop, Hl. lia.
Qed.

Lemma before_spec go n : Forall (λ i, i < n ∧ go i = true) (before go n).
Proof.
  unfold before. assert (∀ l, Forall (λ i, i < n) l → Forall (λ i, i < n ∧ go i = true) (take_while go l)) as Ht.
  { induction 1 as [|i l Hi _ IH]; [constructor|]. cbn. destruct (go i) eqn:Hg; constructor; [done|exact IH]. }
  apply Ht, Forall_seq. lia.
Qed.
Lemma draws_before f go n : (∀ i, i < n → go i = true → draws (f i)) → draws (each f (before go n)).
Proof. intros Hf. apply draws_each. eapply Forall_impl; [apply before_spec|]. intros i [Hi Hg]. by apply Hf. Qed.
Lemma draws_seq f n : (∀ i, i < n → draws (f i)) → draws (each f (seq 0 n)).
Proof. intros Hf. apply draws_each, Forall_seq. intros i Hi. apply Hf. lia. Qed.

Lemma glyph_ok ch bold c : canvas_ok c → (glyph ch bold c).1 = rasterize ch ∧ canvas_ok (glyph ch bold c).2.
Proof.
  intros [Hl Hc]. unfold glyph. destruct (cv_cache c !! (ch, bold)) as [g|] eqn:Hg; cbn [fst snd].
  - split; [exact (Hc _ _ Hg)|done].
  - split; [done|]. split; [done|]. by apply map_Forall_insert_2.
Qed.

Lemma draws_glyph_row ch x0 baseline fg bg gy :
  gy < gl_height (rasterize ch) → draws (glyph_row blend width height (rasterize ch) x0 baseline fg bg gy).
Proof.
  intros Hgy. unfold glyph_row. apply draws_if; [intros _; apply draws_some|]. rewrite orb_false_iff, Z.ltb_ge, Z.leb_gt. intros [Hp1 Hp2].
  apply draws_seq. intros gx Hgx. unfold glyph_pixel.
  destruct (lookup_lt_is_Some_2 (gl_pixels (rasterize ch)) (gy * gl_width (rasterize ch) + gx)) as [alpha Ha].
  { rewrite rasterize_size. nia. }
  rewrite Ha. cbn. apply draws_if; [intros _; apply draws_some|intros _].
  apply draws_if; [intros _; apply draws_some|]. rewrite orb_false_iff, Z.ltb_ge, Z.leb_gt. intros [Hx1 Hx2].
  apply draws_put, pixel_index; lia.
Qed.

(** A cell can be painted up to the column at the right edge, in any row. *)
Lemma draws_paint_cell col row ch fg bg bold :
  col * CELL_W ≤ width → draws (paint_cell blend width height col row ch fg bg bold).
Proof.
  intros Hcol. unfold paint_cell. cbv zeta. apply draws_then.
  - apply draws_before. intros dy Hdy Hgo. apply Nat.ltb_lt in Hgo. unfold cell_row. cbv zeta. apply draws_fill; nia.
  - apply draws_if; [intros _; apply draws_some|intros _]. intros c Hc. destruct (glyph_ok ch bold c Hc) as [Hg Hc'].
    destruct (glyph ch bold c) as [g c2]. cbn [fst snd] in *. subst g. revert c2 Hc'. apply draws_seq.
    intros gy Hgy. by apply draws_glyph_row.
Qed.

(** Beyond it the slice of the first row is turned round: a panic. *)
Lemma paint_cell_beyond col row ch fg bg bold c :
  width < col * CELL_W → row * CELL_H < height → paint_cell blend width height col row ch fg bg bold c = None.
Proof.
  intros Hcol Hrow. unfold paint_cell. cbv zeta.
  assert (∃ n, before (λ dy, row * CELL_H + dy <? height) CELL_H = 0 :: n) as [n ->].
  { unfold before, CELL_H in *. cbn [seq take_while]. rewrite Nat.add_0_r, (proj2 (Nat.ltb_lt _ _) Hrow). by eexists. }
  cbn [each]. assert (cell_row width (col * CELL_W) (row * CELL_H) (rgb_u32 bg) 0 c = None) as ->; [|done].
  unfold cell_row, fill. cbv zeta. rewrite decide_False; [done|]. lia.
Qed.

Lemma Forall_imap_pair {A} (P : nat * A → Prop) (l : list A) :
  (∀ i x, l !! i = Some x → P (i, x)) → Forall P (imap pair l).
Proof.
  intros HP. apply Forall_lookup. intros i p Hp. rewrite list_lookup_imap in Hp.
  destruct (l !! i) as [x|] eqn:Hx; [|done]. injection Hp as <-. by apply HP.
Qed.
Lemma Forall_take_while {A} (P : A → Prop) (f : A → bool) l : (∀ x, f x = true → P x) → Forall P (take_while f l).
Proof. intros HP. induction l as [|x l IH]; cbn; [constructor|]. destruct (f x) eqn:Hf; constructor; auto. Qed.

Lemma draws_paint_text_row text col row fg bg :
  (col + length text) * CELL_W ≤ width + CELL_W → draws (paint_text_row blend width height text col row fg bg).
Proof.
  intros Hw. apply draws_each, Forall_imap_pair. intros i ch Hi. apply lookup_lt_Some in Hi.
  apply draws_paint_cell. cbn. unfold CELL_W in *. lia.
Qed.
Lemma draws_draw_line col row text fg bg : draws (draw_line blend width height col row text fg bg).
Proof.
  apply draws_each, Forall_take_while. intros [i ch] Hi. apply Nat.ltb_lt in Hi. apply draws_paint_cell. cbn [fst] in *.
  unfold CELL_W in *. pose proof (Nat.Div0.mul_div_le width 10). lia.
Qed.
Lemma draws_fill_rect x y w h v : draws (fill_rect width height x y w h v).
Proof.
  apply draws_before. intros row Hrow Hgo. apply Nat.ltb_lt in Hgo. cbv zeta. apply draws_seq. intros col Hcol.
  destruct (x + col <? width) eqn:Hx; [|apply draws_some]. apply Nat.ltb_lt in Hx. by apply draws_put, pixel_index.
Qed.
Lemma draws_border_rect x y w h v : draws (draw_border_rect width height x y w h v).
Proof. unfold draw_border_rect. apply draws_then; apply draws_seq; intros i Hi; apply draws_then; apply draws_put_if. Qed.
Lemma draws_paint_border x y w h color : draws (paint_border width height x y w h color).
Proof. unfold paint_border. cbv zeta. apply draws_then; apply draws_seq; intros i Hi; apply draws_then; apply draws_put_if. Qed.

(** A pane inside the buffer, whatever its cells are. *)
Lemma draws_paint_pane x y w h cells cols rows bg :
  x + w ≤ width → draws (paint_pane_at blend width height x y w h cells cols rows bg).
Proof.
  intros Hx. unfold paint_pane_at. cbv zeta. apply draws_then.
  - apply draws_each, Forall_imap_pair. intros i cell _. unfold pane_cell. cbv zeta. cbn [fst snd].
    destruct ((x + w <=? _) || _) eqn:Hout; [apply draws_some|]. apply orb_false_iff in Hout as [Hc _].
    apply Nat.leb_gt in Hc. apply draws_paint_cell. lia.
  - apply draws_if; [intros _|intros _; apply draws_some]. apply draws_before. intros i Hi Hgo. apply Nat.ltb_lt in Hgo. cbv zeta.
    apply draws_before. intros j Hj Hj2. apply Nat.ltb_lt in Hj2. by apply draws_put, pixel_index.
Qed.
End Safe.
