(* ===== verification/Gpu.v ===== *)
(** * Gpu: the state of the graphical viewer (pyre-gpu/src/{main,term,search,toast}.rs)

    Terminals, output streams, the search overlay, toasts, the context menu and the
    application's record. The terminal emulator (alacritty_terminal) is the class
    [GpuTerm] over what was done to a terminal; instants are nanoseconds; positions of
    the mouse are whole pixels. A task that was spawned waits in [ap_tasks] until it
    runs; its answer is found by its ticket. *)
From Stdlib Require Import Strings.Byte.
From coqutil Require Export Datatypes.RecordSettersUsingExistingGetters.
From S2P Require Import Prelude Proto Text Layout Libraries Effects Server Client Themes GpuPaint.
Local Open Scope Z_scope.

(** ** Terminals (term.rs) *)
Inductive TermOp := Advance (data : Bytes) | TermResize (cols rows : Z) | ScrollDelta (n : Z).
Record Term := MkTerm { tm_columns : Z; tm_lines : Z; tm_ops : list TermOp }.

Inductive NamedColor :=
  | Black | Red | Green | Yellow | Blue | Magenta | Cyan | White
  | BrightBlack | BrightRed | BrightGreen | BrightYellow | BrightBlue | BrightMagenta | BrightCyan | BrightWhite
  | Foreground | Background | OtherNamed.
Inductive AnsiColor := Named (n : NamedColor) | Spec (c : Rgb) | Indexed (i : Z).
Record Cell := MkTermCell { tc_ch : Z; tc_fg : AnsiColor; tc_bg : AnsiColor; tc_bold : bool }.

Class GpuTerm := {
  cell_at : Term → Z → Z → Cell;                  (** the line, and the column *)
  display_offset : Term → Z;
  pty_writes : Term → Bytes → list Bytes;         (** replies to queries in the data *)
  is_alphanumeric : Z → bool }.

Record TermView := MkTermView {
  tv_term : Term; tv_proxy_rx : list Bytes; tv_pending_output : Bytes; tv_parser_sized : bool }.
Definition TermView_new (cols rows : Z) : TermView := MkTermView (MkTerm cols rows []) [] [] false.
Definition do_op (op : TermOp) (t : Term) : Term := t <| tm_ops ::= (.++ [op]) |>.
Definition term_resize (cols rows : Z) (v : TermView) : TermView :=
  v <| tv_term ::= λ t, MkTerm cols rows (tm_ops t ++ [TermResize cols rows]) |>.

Section Views.
Context `{GpuTerm}.
Definition processor_advance (data : Bytes) (v : TermView) : TermView :=
  v <| tv_proxy_rx ::= (.++ pty_writes (tv_term v) data) |> <| tv_term ::= do_op (Advance data) |>.
Definition push_bytes (data : Bytes) (v : TermView) : TermView :=
  if tv_parser_sized v then processor_advance data v else v <| tv_pending_output ::= (.++ data) |>.
Definition flush_pending (v : TermView) : TermView :=
  if tv_parser_sized v then v
  else
    let v := v <| tv_parser_sized := true |> in
    if decide (tv_pending_output v = []) then v
    else processor_advance (tv_pending_output v) (v <| tv_pending_output := [] |>).
Definition drain_pty_replies (v : TermView) : list Bytes * TermView := (tv_proxy_rx v, v <| tv_proxy_rx := [] |>).

Definition named_index (n : NamedColor) : option nat :=
  match n with
  | Black => Some 0 | Red => Some 1 | Green => Some 2 | Yellow => Some 3 | Blue => Some 4 | Magenta => Some 5
  | Cyan => Some 6 | White => Some 7 | BrightBlack => Some 8 | BrightRed => Some 9 | BrightGreen => Some 10
  | BrightYellow => Some 11 | BrightBlue => Some 12 | BrightMagenta => Some 13 | BrightCyan => Some 14 | BrightWhite => Some 15
  | _ => None
  end%nat.
(** The table of a palette has 16 colours. *)
Definition ansi_color (palette : Palette) (i : nat) : Rgb := default (pl_fg palette) (pl_ansi palette !! i).
Definition ansi_to_rgb (color : AnsiColor) (palette : Palette) : Rgb :=
  match color with
  | Named Background => pl_bg palette
  | Named n => match named_index n with Some i => ansi_color palette i | None => pl_fg palette end
  | Spec c => c
  | Indexed i =>
      if i <? 16 then ansi_color palette (Z.to_nat i)
      else if i <=? 231 then
        let i := i - 16 in
        rgb (i / 36 * 51) ((i / 6) mod 6 * 51) (i mod 6 * 51)
      else let v := 8 + (i - 232) * 10 in rgb v v v
  end.

(** Row by row; what the terminal does not have is blank. *)
Definition grid_cell (v : TermView) (palette : Palette) (row col : nat) : CellRgb :=
  let t := tv_term v in
  if (Z.of_nat row <? tm_lines t) && (Z.of_nat col <? tm_columns t) then
    let c := cell_at t (Z.of_nat row - display_offset t) (Z.of_nat col) in
    MkCell (if tc_ch c =? 0 then 32 else tc_ch c) (ansi_to_rgb (tc_fg c) palette) (ansi_to_rgb (tc_bg c) palette) (tc_bold c)
  else MkCell 32 (pl_fg palette) (pl_bg palette) false.
Definition collect_grid (v : TermView) (cols rows : nat) (palette : Palette) : list CellRgb :=
  flat_map (λ row, grid_cell v palette row <$> seq 0 cols) (seq 0 rows).
End Views.

(** ** Toasts and the context menu (toast.rs) *)
Inductive ToastKind := TkInfo | TkSuccess | TkWarn | TkError.
Record Toast := MkToast { to_title : string; to_body : string; to_kind : ToastKind; to_born_at : Z; to_ttl : Z }.
Record ToastDeck := MkDeck { td_toasts : list Toast; td_max_visible : nat; td_enabled : bool; td_ttl : Z }.

Definition is_expired (now : Z) (t : Toast) : bool := to_ttl t <=? Z.max 0 (now - to_born_at t).
Definition push_toast (now : Z) (title body : string) (kind : ToastKind) (d : ToastDeck) : ToastDeck :=
  if td_enabled d then
    let ts := td_toasts d ++ [MkToast title body kind now (td_ttl d)] in
    d <| td_toasts := drop (length ts - td_max_visible d) ts |>
  else d.
Definition tick (now : Z) (d : ToastDeck) : ToastDeck := d <| td_toasts ::= filter (λ t, is_expired now t = false) |>.
Definition has_live (d : ToastDeck) : bool := td_enabled d && negb (bool_decide (td_toasts d = [])).

Definition pane_event_to_toast `{UuidText} (now ttl : Z) (event : PaneEvent) : option Toast :=
  let title := short8 (pane_uuid (ev_pane_id event))
               +:+ match ev_agent event with Some a => " (" +:+ AgentKind_label a +:+ ")" | None => "" end in
  let toast body kind := Some (MkToast title body kind now ttl) in
  match ev_kind event with
  | Spawned => toast "Spawned" TkInfo
  | Closed => toast "Closed" TkInfo
  | StateChanged =>
      match ev_state event with
      | Some WaitingInput => toast "Waiting for input" TkWarn
      | Some Done => toast "Done" TkSuccess
      | Some Crashed => toast "Failed" TkError
      | _ => None
      end
  | LayoutChanged => None
  end.

Inductive MenuItem := Copy | KillPane | SplitH | SplitV | ZoomToggle | InspectPid.
Definition label (i : MenuItem) : string :=
  match i with
  | Copy => " Copy selection" | KillPane => " Kill pane" | SplitH => " Split horizontal"
  | SplitV => " Split vertical" | ZoomToggle => " Zoom toggle" | InspectPid => " Inspect PID"
  end.
Definition MENU_ITEMS : list MenuItem := [Copy; KillPane; SplitH; SplitV; ZoomToggle; InspectPid].
Record ContextMenu := MkMenu {
  cm_px_x : nat; cm_px_y : nat; cm_width : nat; cm_height : nat; cm_cursor : nat; cm_target_pane : PaneId }.
Definition ContextMenu_new (cursor_px_x cursor_px_y : nat) (target_pane : PaneId) (buf_w buf_h : nat) : ContextMenu :=
  let max_label_chars := list_max ((λ i, length (chars (label i))) <$> MENU_ITEMS) in
  let w := ((max_label_chars + 2) * CELL_W)%nat in
  let h := ((length MENU_ITEMS + 2) * CELL_H)%nat in
  MkMenu (Nat.min cursor_px_x (buf_w - w)) (Nat.min cursor_px_y (buf_h - h)) w h 0 target_pane.
Definition menu_contains (m : ContextMenu) (px py : nat) : bool :=
  ((cm_px_x m <=? px) && (px <? cm_px_x m + cm_width m) && (cm_px_y m <=? py) && (py <? cm_px_y m + cm_height m))%nat.
Definition item_at (m : ContextMenu) (px py : nat) : option nat :=
  if menu_contains m px py then
    let row := ((py - (cm_px_y m + CELL_H)) / CELL_H)%nat in
    if (row <? length MENU_ITEMS)%nat then Some row else None
  else None.
Definition item_at_cursor (m : ContextMenu) : option MenuItem := MENU_ITEMS !! cm_cursor m.

(** ** The search overlay (search.rs) *)
Record SearchUi := MkSearch {
  su_open : bool;
  su_input : list Z;
  su_cursor : nat;
  su_results : list BlockHit;
  su_status : string;
  su_pending_query : option (list Z);
  su_last_query_at : Z;
  su_failures_only : bool;
  su_rx : option (nat * list (list BlockHit)) }.  (** the ticket of the query, the answers that came *)
Definition search_default (now : Z) : SearchUi := MkSearch false [] 0 [] "" None now false None.

Definition parse_search_input (input : list Z) : list Z * bool :=
  match input with
  | c :: rest => if c =? 33 then (drop_while is_whitespace rest, true) else (input, false)
  | [] => (input, false)
  end.
Definition pane_scoped_prefix `{UuidText} (pane_id : PaneId) : string :=
  "pane:" +:+ uuid_to_string (pane_uuid pane_id) +:+ " ".

Definition open_overlay (u : SearchUi) : SearchUi :=
  u <| su_open := true |> <| su_input := [] |> <| su_cursor := 0%nat |> <| su_results := [] |>
    <| su_status := "search (! = failures only) — Enter run, Esc close" |>.
Definition open_overlay_scoped `{UuidText} (pane_id : PaneId) (u : SearchUi) : SearchUi :=
  let prefix := pane_scoped_prefix pane_id in
  (open_overlay u) <| su_input := chars prefix |> <| su_cursor := String.length prefix |>.
Definition close_search (u : SearchUi) : SearchUi := u <| su_open := false |> <| su_rx := None |> <| su_pending_query := None |>.

Definition show_nat (n : nat) : string := show_Z (Z.of_nat n).
(** The answers in the channel, the last of which stays; [true]: there was one. *)
Definition poll_results (u : SearchUi) : SearchUi * bool :=
  match su_rx u with
  | Some (ticket, answers) =>
      match last answers with
      | Some hits =>
          (u <| su_rx := Some (ticket, []) |> <| su_results := hits |> <| su_cursor := 0%nat |>
             <| su_status := show_nat (length hits) +:+ " result(s)" |>, true)
      | None => (u, false)
      end
  | None => (u, false)
  end.

(** [ticket] is that of the next task; the request of the query, if one is made. *)
Definition tick_debounce (now : Z) (ticket : nat) (u : SearchUi) : SearchUi * option SearchBlocksReq * bool :=
  if negb (su_open u) then (u, None, false)
  else
    match su_pending_query u with
    | None => (u, None, false)
    | Some raw =>
        if Z.max 0 (now - su_last_query_at u) <? 150000000 then (u, None, false)
        else
          let '(query, failures_only) := parse_search_input raw in
          let u := u <| su_pending_query := None |> <| su_failures_only := failures_only |> in
          if decide (query = []) then (u <| su_results := [] |> <| su_status := "empty query" |>, None, true)
          else (u <| su_status := "searching…" |> <| su_rx := Some (ticket, []) |>,
                Some (MkSearchBlocksReq (of_chars query) 20 failures_only None None None), true)
    end.
Definition queue_query (now : Z) (raw : list Z) (u : SearchUi) : SearchUi :=
  u <| su_pending_query := Some raw |> <| su_last_query_at := now |>.
Definition run_query_now (now : Z) (ticket : nat) (u : SearchUi) : SearchUi * option SearchBlocksReq :=
  let u := (queue_query now (su_input u) u) <| su_pending_query := None |> <| su_last_query_at := now - 200000000 |> in
  (tick_debounce now ticket u).1.

(** ** Keys (winit) *)
Inductive Phys :=
  | PhEscape | PhEnter | PhBackspace | PhTab | PhUp | PhDown | PhH | PhJ | PhK | PhL | PhN | PhS | PhV | PhW | PhX
  | PhSlash | PhOther.
Inductive Logical := LChar (s : string) | LEnter | LBackspace | LTab | LEscape | LOther.
Record KeyEvent := MkKey { ke_pressed : bool; ke_phys : Phys; ke_logical : Logical }.
Record Mods := MkMods { md_control : bool; md_shift : bool }.
#[export] Instance Phys_eq_dec : EqDecision Phys.
Proof. solve_decision. Defined.

Definition is_control (c : Z) : bool := (c <? 32) || (127 <=? c) && (c <? 160).
Definition pop_char (input : list Z) : list Z := take (length input - 1) input.

(** A key while the overlay is open: it is always consumed. *)
Definition search_key (now : Z) (ticket : nat) (k : KeyEvent) (u : SearchUi) : SearchUi * option SearchBlocksReq :=
  let edited (input : list Z) := (queue_query now input (u <| su_input := input |>), None) in
  if negb (ke_pressed k) then (u, None)
  else
    match ke_phys k with
    | PhEscape => (close_search u, None)
    | PhEnter => run_query_now now ticket u
    | PhBackspace => edited (pop_char (su_input u))
    | PhUp => (u <| su_cursor ::= pred |>, None)
    | PhDown =>
        (if (negb (bool_decide (su_results u = [])) && (su_cursor u + 1 <? length (su_results u))%nat)
         then u <| su_cursor ::= S |> else u, None)
    | _ =>
        match ke_logical k with
        | LChar s => edited (su_input u ++ filter (λ c, is_control c = false) (chars s))
        | LBackspace => edited (pop_char (su_input u))
        | _ => (u, None)
        end
    end.

Definition window_prefix_key (k : KeyEvent) (m : Mods) : bool :=
  ke_pressed k && bool_decide (ke_phys k = PhW) && md_control m.
Definition cycle_pane_key (k : KeyEvent) (m : Mods) : bool :=
  ke_pressed k && bool_decide (ke_phys k = PhTab) && md_control m && negb (md_shift m).
Definition cycle_pane_key_back (k : KeyEvent) (m : Mods) : bool :=
  ke_pressed k && bool_decide (ke_phys k = PhTab) && (md_control m && md_shift m).
Definition search_toggle_key (k : KeyEvent) (m : Mods) : bool :=
  if negb (ke_pressed k) || negb (md_control m) then false
  else bool_decide (ke_phys k = PhSlash) || match ke_logical k with LChar s => bool_decide (s = "/") | _ => false end.
Definition key_to_bytes (k : KeyEvent) : option Bytes :=
  match ke_phys k with
  | PhEnter => Some [x0d]
  | PhBackspace => Some [x7f]
  | PhTab => Some [x09]
  | PhEscape => Some [x1b]
  | _ =>
      match ke_logical k with
      | LChar s => Some (str_bytes s)
      | LEnter => Some [x0d]
      | LBackspace => Some [x7f]
      | LTab => Some [x09]
      | LEscape => Some [x1b]
      | LOther => None
      end
  end.
