(* ===== verification/GpuApp.v ===== *)
(** * GpuApp: the application of the graphical viewer (pyre-gpu/src/main.rs)

    The record [App] and what the window's events do to it. A step is [None] when it
    panics. Calls made without waiting are tasks, listed until they run. *)
From Stdlib Require Import Strings.Byte.
From coqutil Require Export Datatypes.RecordSettersUsingExistingGetters.
From S2P Require Import Prelude Proto Text Layout Libraries Effects Server Client Themes Registry GpuPaint Gpu.
Local Open Scope Z_scope.

(** ** Streams, clicks, drags, selections *)

(** The channels of a pane's stream: what the task has read from the socket, what it
    has still to write. *)
Record StreamHandle := MkHandle { hd_output : list Bytes; hd_input : list Bytes }.

Record ClickTracker := MkClick { ck_last_at : Z; ck_last_pos : Z * Z; ck_count : Z }.
Definition ClickTracker_new (now : Z) : ClickTracker := MkClick (now - 10000000000) (0, 0) 0.
Definition click_record (now : Z) (pos : Z * Z) (c : ClickTracker) : ClickTracker * Z :=
  let elapsed := Z.max 0 (now - ck_last_at c) / 1000000 in
  let count := if (elapsed <=? 300) && bool_decide (ck_last_pos c = pos) then Z.min (Z.min 255 (ck_count c + 1)) 3 else 1 in
  (MkClick now pos count, count).

Inductive DragAxis := AxisHorizontal | AxisVertical.
Record DragResize := MkDrag {
  dr_axis : DragAxis; dr_start_px : Z; dr_viewport_dim : Z; dr_left_pane : PaneId; dr_right_pane : PaneId;
  dr_start_weight_left : Z; dr_start_weight_right : Z }.

Record Selection := MkSelection {
  sn_pane_id : PaneId; sn_start : nat * nat; sn_end : nat * nat; sn_dragging : bool }.
(** The order of Rust's pairs. *)
Definition normalized (s : Selection) : (nat * nat) * (nat * nat) :=
  let '(a, b) := (sn_start s, sn_end s) in
  if ((a.1 <? b.1) || (a.1 =? b.1) && (a.2 <=? b.2))%nat then (a, b) else (b, a).

(** A pane that was asked for: its answer, once the task has run. *)
Record PendingPane := MkPending { pp_ticket : nat; pp_rx : option PaneId; pp_orient : Orient; pp_focused : PaneId }.

(** Tasks: calls of the daemon nobody waits for. *)
Inductive Task :=
  | ResizePane (pane : PaneId) (size : PaneSize)
  | SplitPane (ticket : nat) (req : Server.OpenPaneSplitReq)
  | ClosePane (pane : PaneId)
  | WeighPane (pane : PaneId) (weight : Z)
  | SearchBlocks (ticket : nat) (req : SearchBlocksReq).

(** ** The application *)
Record App {D : Type} := MkApp {
  ap_cached_layout : LayoutNode;
  ap_focused : PaneId;
  ap_streams : gmap PaneId StreamHandle;
  ap_terms : gmap PaneId TermView;
  ap_palette : Palette;
  ap_control : D;
  ap_search : SearchUi;
  ap_open : bool;                                 (** there is a window *)
  ap_title : PaneId;                              (** the pane its title names *)
  ap_cols : nat;
  ap_rows : nat;
  ap_needs_redraw : bool;
  ap_session : SessionId;
  ap_modifiers : Mods;
  ap_awaiting_window_key : bool;
  ap_cursor_pos : Z * Z;
  ap_left_held : bool;
  ap_click_tracker : ClickTracker;
  ap_drag_resize : option DragResize;
  ap_selection : option Selection;
  ap_context_menu : option ContextMenu;
  ap_toast_deck : ToastDeck;
  ap_toast_rx : list Toast;
  ap_layout_rx : list LayoutNode;
  ap_pending_panes : list PendingPane;
  ap_tasks : list Task;
  ap_ticket : nat;                                (** of the next task *)
  ap_exit : bool }.
Arguments App : clear implicits.

(** [grid_dims_for_window], [rect_to_cells] *)
Definition grid_dims_for_window (win_w win_h : nat) : nat * nat :=
  (Nat.max (win_w / CELL_W) 20, Nat.max (win_h / CELL_H) 8)%nat.
Definition rect_to_cells (r : Rect) : nat * nat :=
  (Nat.max (Z.to_nat (rw r) / CELL_W) 1, Nat.max (Z.to_nat (rh r) / CELL_H) 1)%nat.
(** [px as u32] *)
Definition as_u32 (px : Z) : Z := clamp px 0 4294967295.

(** The weights of two leaves that are children of the same split. *)
Definition leaf_position (pane : PaneId) (children : list (LayoutNode * Z)) : option nat :=
  last (List.filter (λ i, match children !! i with Some (Leaf id, _) => bool_decide (id = pane) | _ => false end)
                    (seq 0 (length children))).
Fixpoint apply_weights_for_pair (left_pane right_pane : PaneId) (new_left new_right : Z) (node : LayoutNode) : bool * LayoutNode :=
  match node with
  | Leaf _ => (false, node)
  | HSplit children | VSplit children =>
      match leaf_position left_pane children, leaf_position right_pane children with
      | Some li, Some ri =>
          (true, rebuild node (alter (λ c, (c.1, new_right)) ri (alter (λ c, (c.1, new_left)) li children)))
      | _, _ =>
          let r := iter_mut_until (apply_weights_for_pair left_pane right_pane new_left new_right) children in
          (r.1, rebuild node r.2)
      end
  end.

Section App.
Context `{UuidText, HashOrder, GpuTerm} {D : Type} `{!PyreDaemon D}.
(** [((a as f64 / b as f64) * 100.0) as i32], and [std::env::current_dir().ok()]. *)
Context (percent : Z → Z → Z) (cwd : option PathBuf).
Abbreviation App := (App D).

Definition viewport_rect (s : App) : Rect := MkRect 0 0 (Z.of_nat (ap_cols s * CELL_W)) (Z.of_nat (ap_rows s * CELL_H)).
Definition app_leaves (s : App) : list (PaneId * Rect) := leaves (ap_cached_layout s) (viewport_rect s).
Definition redraw (s : App) : App := s <| ap_needs_redraw := true |>.
Definition update_title (s : App) : App := if ap_open s then s <| ap_title := ap_focused s |> else s.
Definition focus (pane : PaneId) (s : App) : App := update_title (s <| ap_focused := pane |>).
Definition task (t : Task) (s : App) : App := s <| ap_tasks ::= (.++ [t]) |>.
Definition search_task (req : option SearchBlocksReq) (s : App) : App :=
  match req with
  | Some r => (task (SearchBlocks (ap_ticket s) r) s) <| ap_ticket ::= S |>
  | None => s
  end.

(** The terminal of a pane takes the size of its rectangle. *)
Definition fit_terms (s : App) : App :=
  fold_left (λ s '(pane, r), let '(c, l) := rect_to_cells r in
                             s <| ap_terms ::= alter (λ v, flush_pending (term_resize (Z.of_nat c) (Z.of_nat l) v)) pane |>)
            (app_leaves s) s.

Definition resized (width height : nat) (s : App) : App :=
  let '(c, r) := grid_dims_for_window width height in
  let s := s <| ap_cols := c |> <| ap_rows := r |> in
  let lvs := app_leaves s in
  let s := fit_terms s in
  let s := fold_left (λ s '(pane, rect), let '(pc, pr) := rect_to_cells rect in
                                         task (ResizePane pane (MkPaneSize (wrap_u16 (Z.of_nat pc)) (wrap_u16 (Z.of_nat pr)))) s) lvs s in
  redraw s.

(** *** Focus *)
Definition move_focus (dir : Dir) (s : App) : App :=
  match focus_dir (ap_cached_layout s) (ap_focused s) dir with Some next => focus next s | None => s end.
Definition cycle_pane (delta : Z) (s : App) : App :=
  let ids := (app_leaves s).*1 in
  if (length ids <=? 1)%nat then s
  else
    let pos := default 0%nat (position (λ id, bool_decide (id = ap_focused s)) ids) in
    let next := Z.to_nat ((Z.of_nat pos + delta) mod Z.of_nat (length ids)) in
    match ids !! next with Some p => redraw (focus p s) | None => s end.

(** *** Opening and closing panes *)
Definition spawn_pane (orient : Orient) (s : App) : App :=
  let req := Server.MkOpenPaneSplitReq (ap_focused s) orient None cwd None in
  (task (SplitPane (ap_ticket s) req) s)
    <| ap_pending_panes ::= (.++ [MkPending (ap_ticket s) None orient (ap_focused s)]) |> <| ap_ticket ::= S |>.

Definition insert_pane (pane_id : PaneId) (s : App) : App :=
  let approx_cols := Nat.max (ap_cols s / 2) 20 in
  let approx_rows := Nat.max (ap_rows s / 2) 8 in
  let s := s <| ap_terms ::= <[pane_id := TermView_new (Z.of_nat approx_cols) (Z.of_nat approx_rows)]> |>
             <| ap_streams ::= <[pane_id := MkHandle [] []]> |> in
  redraw (focus pane_id s).
Definition drain_pending_panes (s : App) : App :=
  let answered := omap pp_rx (ap_pending_panes s) in
  let s := fold_left (λ s p, insert_pane p s) answered s in
  s <| ap_pending_panes ::= filter (λ p, pp_rx p = None) |>.

Definition close_focused (s : App) : App :=
  let pane_id := ap_focused s in
  let s := task (ClosePane pane_id) s in
  let '(new_focus, layout) := close (ap_cached_layout s) pane_id in
  let s := s <| ap_cached_layout := layout |> <| ap_streams ::= delete pane_id |> <| ap_terms ::= delete pane_id |> in
  match new_focus with
  | Some f => redraw (focus f s)
  | None => s <| ap_exit := true |>
  end.

(** Several layouts in the channel: the last is taken. *)
Definition drain_layout_updates (s : App) : App :=
  match last (ap_layout_rx s) with
  | Some node => redraw (fit_terms (s <| ap_layout_rx := [] |> <| ap_cached_layout := node |>))
  | None => s
  end.

(** *** The mouse *)
Definition pane_at_px (px py : Z) (s : App) : option PaneId :=
  fst <$> find_first (λ lf, contains_pt lf.2 (as_u32 px) (as_u32 py)) (app_leaves s).

(** The border between two rectangles: within 6 pixels, along their common extent.
    [None]: both have no extent, and the weights are a division by zero. *)
Definition hit_vertical (px py : Z) (l r : PaneId * Rect) (s : App) : option (option DragResize) :=
  let '(lid, lr) := l in
  let '(rid, rr) := r in
  let edge := wrap_u32 (rx lr + rw lr) in
  if (ry lr =? ry rr) && (rh lr =? rh rr) && (Z.abs (px - edge) <=? 6) && (ry lr <=? py) && (py <? wrap_u32 (ry lr + rh lr)) then
    let total := wrap_u32 (rw lr + rw rr) in
    if total =? 0 then None
    else
      let wl := wrap_u16 (rw lr * 100 / total) in
      Some (Some (MkDrag AxisVertical px (rw (viewport_rect s)) lid rid wl (Z.max 0 (100 - wl))))
  else Some None.
Definition hit_horizontal (px py : Z) (t b : PaneId * Rect) (s : App) : option (option DragResize) :=
  let '(tid, tr) := t in
  let '(bid, br) := b in
  let edge := wrap_u32 (ry tr + rh tr) in
  if (rx tr =? rx br) && (rw tr =? rw br) && (Z.abs (py - edge) <=? 6) && (rx tr <=? px) && (px <? wrap_u32 (rx tr + rw tr)) then
    let total := wrap_u32 (rh tr + rh br) in
    if total =? 0 then None
    else
      let wt := wrap_u16 (rh tr * 100 / total) in
      Some (Some (MkDrag AxisHorizontal py (rh (viewport_rect s)) tid bid wt (Z.max 0 (100 - wt))))
  else Some None.
(** The first hit over the pairs of leaves, in order. *)
Fixpoint first_hit {A} (hits : list (option (option A))) : option (option A) :=
  match hits with
  | [] => Some None
  | Some None :: hits' => first_hit hits'
  | hit :: _ => hit
  end.
Definition pairs {A} (l : list A) : list (A * A) :=
  flat_map (λ '(i, x), pair x <$> drop (S i) l) (imap pair l).
Definition try_hit_boundary (px py : Z) (s : App) : option (option DragResize) :=
  first_hit (flat_map (λ '(l, r), [hit_vertical px py l r s; hit_horizontal px py l r s]) (pairs (app_leaves s))).

(** The weight of the left or top pane after a move from [dr_start_px] to [px]. *)
Definition drag_weight (drag : DragResize) (px : Z) : Z :=
  clamp (wrap_i32 (dr_start_weight_left drag + percent (px - dr_start_px drag) (dr_viewport_dim drag))) 5 95.
Definition drag_coord (drag : DragResize) (s : App) : Z :=
  match dr_axis drag with AxisVertical => (ap_cursor_pos s).1 | AxisHorizontal => (ap_cursor_pos s).2 end.
Definition apply_drag_weights (drag : DragResize) (px : Z) (s : App) : App :=
  let new_left := drag_weight drag px in
  s <| ap_cached_layout ::= λ n, (apply_weights_for_pair (dr_left_pane drag) (dr_right_pane drag) new_left (100 - new_left) n).2 |>.

Definition px_to_cell_in_pane (pane_id : PaneId) (px py : Z) (s : App) : nat * nat :=
  let vp := viewport_rect s in
  let r := default vp (rect_for (ap_cached_layout s) vp pane_id) in
  let rel_x := Z.to_nat (as_u32 px - rx r) in
  let rel_y := Z.to_nat (as_u32 py - ry r) in
  let '(max_cols, max_rows) := rect_to_cells r in
  (Nat.min (rel_x / CELL_W) (max_cols - 1), Nat.min (rel_y / CELL_H) (max_rows - 1))%nat.

Definition is_word_char (c : Z) : bool := is_alphanumeric c || (c =? 95).
(** From [col] to the left, and to the right, over the word: [fuel] columns at most. *)
Fixpoint walk_left (word : nat → bool) (col : nat) : nat :=
  match col with
  | O => 0
  | S c => if word c then walk_left word c else col
  end.
Fixpoint walk_right (word : nat → bool) (fuel col : nat) : nat :=
  match fuel with
  | O => col
  | S fuel' => if word (S col) then walk_right word fuel' (S col) else col
  end.
Definition select_word_at (pane_id : PaneId) (px py : Z) (s : App) : App :=
  let '(col, row) := px_to_cell_in_pane pane_id px py s in
  match ap_terms s !! pane_id with
  | None => s
  | Some v =>
      let t := tv_term v in
      let num_cols := Z.to_nat (tm_columns t) in
      if (Z.to_nat (tm_lines t) <=? row)%nat || (num_cols <=? col)%nat then s
      else
        let line := Z.of_nat row - display_offset t in
        let word c := is_word_char (tc_ch (cell_at t line (Z.of_nat c))) in
        s <| ap_selection := Some (MkSelection pane_id (walk_left word col, row) (walk_right word (num_cols - 1 - col) col, row) false) |>
  end.
Definition select_line_at (pane_id : PaneId) (px py : Z) (s : App) : App :=
  let '(_, row) := px_to_cell_in_pane pane_id px py s in
  match ap_terms s !! pane_id with
  | None => s
  | Some v =>
      let num_cols := Z.to_nat (tm_columns (tv_term v)) in
      if (num_cols =? 0)%nat then s
      else s <| ap_selection := Some (MkSelection pane_id (0%nat, row) ((num_cols - 1)%nat, row) false) |>
  end.

Definition handle_left_down (now : Z) (s : App) : option App :=
  let '(px, py) := ap_cursor_pos s in
  let s := s <| ap_left_held := true |> <| ap_context_menu := None |> in
  hit ← try_hit_boundary px py s;
  match hit with
  | Some drag => Some (s <| ap_drag_resize := Some drag |>)
  | None =>
      let '(tracker, click_count) := click_record now (as_u32 px, as_u32 py) (ap_click_tracker s) in
      let s := s <| ap_click_tracker := tracker |> in
      Some match pane_at_px px py s with
           | Some pane_id =>
               let s := focus pane_id s in
               if click_count =? 2 then select_word_at pane_id px py s
               else if click_count =? 3 then select_line_at pane_id px py s
               else
                 let at_cell := px_to_cell_in_pane pane_id px py s in
                 s <| ap_selection := Some (MkSelection pane_id at_cell at_cell true) |>
           | None => s
           end
  end.

Definition end_drag (sel : Selection) : Selection := sel <| sn_dragging := false |>.
Definition handle_left_up (s : App) : App :=
  let s := s <| ap_left_held := false |> in
  let s := match ap_drag_resize s with
           | Some drag => task (WeighPane (dr_left_pane drag) (drag_weight drag (drag_coord drag s))) (s <| ap_drag_resize := None |>)
           | None => s
           end in
  s <| ap_selection ::= fmap end_drag |>.

Definition handle_mouse_drag (s : App) : App :=
  match ap_drag_resize s with
  | Some drag => apply_drag_weights drag (drag_coord drag s) s
  | None =>
      match ap_selection s with
      | Some sel =>
          if sn_dragging sel then
            let at_cell := px_to_cell_in_pane (sn_pane_id sel) (ap_cursor_pos s).1 (ap_cursor_pos s).2 s in
            s <| ap_selection := Some (sel <| sn_end := at_cell |>) |>
          else s
      | None => s
      end
  end.

Definition handle_right_down (s : App) : App :=
  let '(px, py) := ap_cursor_pos s in
  let s := s <| ap_context_menu := None |> in
  match pane_at_px px py s with
  | Some pane_id =>
      let s := focus pane_id s in
      let vp := viewport_rect s in
      s <| ap_context_menu := Some (ContextMenu_new (Z.to_nat px) (Z.to_nat py) pane_id (Z.to_nat (rw vp)) (Z.to_nat (rh vp))) |>
  | None => s
  end.
Definition commit_context_menu (s : App) : App :=
  let item := m ← ap_context_menu s; item_at_cursor m in
  let s := s <| ap_context_menu := None |> in
  match item with
  | Some KillPane => close_focused s
  | Some SplitH => spawn_pane Horizontal s
  | Some SplitV => spawn_pane Vertical s
  | _ => s
  end.

(** The wheel, in lines rounded away from zero. *)
Definition handle_scroll (lines : Z) (s : App) : App :=
  s <| ap_terms ::= alter (λ v, v <| tv_term ::= do_op (ScrollDelta lines) |>) (ap_focused s) |>.

(** *** The keyboard *)
Definition handle_window_key (k : KeyEvent) (s : App) : App :=
  redraw match ke_phys k with
         | PhV => spawn_pane Vertical s
         | PhS => spawn_pane Horizontal s
         | PhH => move_focus DirLeft s
         | PhJ => move_focus DirDown s
         | PhK => move_focus DirUp s
         | PhL => move_focus DirRight s
         | PhX => close_focused s
         | _ => s
         end.

(** The menu: [None] for a key that closes it and goes on. *)
Definition menu_key (k : KeyEvent) (m : ContextMenu) (s : App) : option App :=
  match ke_phys k with
  | PhDown | PhJ => Some (s <| ap_context_menu := Some (m <| cm_cursor ::= λ c, Nat.min (c + 1) (length MENU_ITEMS - 1) |>) |>)
  | PhUp | PhK => Some (s <| ap_context_menu := Some (m <| cm_cursor ::= pred |>) |>)
  | PhEnter => Some (commit_context_menu s)
  | PhEscape => Some (s <| ap_context_menu := None |>)
  | _ => None
  end.

Definition send_input (data : Bytes) (h : StreamHandle) : StreamHandle := h <| hd_input ::= (.++ [data]) |>.
Definition type_key (k : KeyEvent) (s : App) : App :=
  match key_to_bytes k with
  | Some text => s <| ap_streams ::= alter (send_input text) (ap_focused s) |>
  | None => s
  end.
Definition toggle_toasts (s : App) : App :=
  redraw (s <| ap_toast_deck ::= λ d, if td_enabled d then d <| td_enabled := false |> <| td_toasts := [] |>
                                      else d <| td_enabled := true |> |>).
Definition toggle_search (s : App) : App :=
  redraw (s <| ap_search ::= λ u, if su_open u then close_search u else open_overlay_scoped (ap_focused s) u |>).

(** [tick_debounce] with the request it makes as a task; [true]: something to draw. *)
Definition run_debounce (now : Z) (s : App) : App * bool :=
  let '(u, req, changed) := tick_debounce now (ap_ticket s) (ap_search s) in
  (search_task req (s <| ap_search := u |>), changed).
Definition search_input (now : Z) (k : KeyEvent) (s : App) : App :=
  let '(u, req) := search_key now (ap_ticket s) k (ap_search s) in
  let s := search_task req (s <| ap_search := u |>) in
  redraw (run_debounce now s).1.

Definition after_menu (now : Z) (k : KeyEvent) (s : App) : App :=
  let m := ap_modifiers s in
  if search_toggle_key k m then toggle_search s
  else if su_open (ap_search s) then search_input now k s
  else if md_control m && bool_decide (ke_phys k = PhN) then toggle_toasts s
  else if ap_awaiting_window_key s then handle_window_key k (s <| ap_awaiting_window_key := false |>)
  else if window_prefix_key k m then s <| ap_awaiting_window_key := true |>
  else if cycle_pane_key k m then cycle_pane 1 s
  else if cycle_pane_key_back k m then cycle_pane (-1) s
  else type_key k s.
Definition handle_keyboard (now : Z) (k : KeyEvent) (s : App) : App :=
  if negb (ke_pressed k) then s
  else
    match ap_context_menu s with
    | Some m =>
        match menu_key k m s with
        | Some s' => redraw s'
        | None => after_menu now k (s <| ap_context_menu := None |>)
        end
    | None => after_menu now k s
    end.

(** *** Output *)

(** The output of a pane goes to its terminal, and the terminal's replies back. *)
Definition drain_pane (pane : PaneId) (h : StreamHandle) (s : App) : App :=
  match ap_terms s !! pane with
  | Some v =>
      let v := flush_pending (fold_left (λ v chunk, push_bytes chunk v) (hd_output h) v) in
      let '(replies, v) := drain_pty_replies v in
      s <| ap_terms ::= <[pane := v]> |>
        <| ap_streams ::= <[pane := MkHandle [] (hd_input h ++ replies)]> |>
  | None => s
  end.
Definition drain_output (s : App) : App :=
  fold_left (λ s '(pane, h), drain_pane pane h s) (hash_order (map_to_list (ap_streams s))) s.

(** A chunk is taken from the first stream that has one: [try_recv().is_ok()]. *)
Fixpoint take_chunk (l : list (PaneId * StreamHandle)) : option (PaneId * StreamHandle) :=
  match l with
  | [] => None
  | (pane, h) :: l' =>
      match hd_output h with
      | _ :: rest => Some (pane, h <| hd_output := rest |>)
      | [] => take_chunk l'
      end
  end.
Definition check_output (s : App) : App :=
  match take_chunk (hash_order (map_to_list (ap_streams s))) with
  | Some (pane, h) => redraw (s <| ap_streams ::= <[pane := h]> |>)
  | None => s
  end.

Definition drain_toasts (now : Z) (s : App) : App :=
  let ts := ap_toast_rx s in
  let s := s <| ap_toast_deck ::= λ d, fold_left (λ d t, push_toast now (to_title t) (to_body t) (to_kind t) d) ts d |>
             <| ap_toast_rx := [] |> in
  if decide (ts = []) then s else redraw s.

Definition about_to_wait (now : Z) (s : App) : App :=
  let s := check_output s in
  let '(u, changed) := poll_results (ap_search s) in
  let s := s <| ap_search := u |> in
  let s := if changed then redraw s else s in
  let '(s, changed) := run_debounce now s in
  let s := if changed then redraw s else s in
  let s := drain_toasts now s in
  let s := drain_layout_updates s in
  let s := s <| ap_toast_deck ::= tick now |> in
  if has_live (ap_toast_deck s) then redraw s else s.
(** [AppWrapper] *)
Definition wait_step (now : Z) (s : App) : App := about_to_wait now (drain_pending_panes s).

(** *** The window's events *)
Inductive WindowEvent :=
  | CloseRequested
  | ModifiersChanged (m : Mods)
  | Resized (width height : nat)
  | RedrawRequested
  | KeyboardInput (k : KeyEvent)
  | CursorMoved (x y : Z)
  | LeftPressed | LeftReleased | RightPressed | OtherMouse
  | MouseWheel (lines : Z).

(** [draw]: does the frame get drawn? *)
Definition window_event (draw : App → bool) (now : Z) (e : WindowEvent) (s : App) : option App :=
  match e with
  | CloseRequested => Some (s <| ap_exit := true |>)
  | ModifiersChanged m => Some (s <| ap_modifiers := m |>)
  | Resized width height => Some (resized width height s)
  | RedrawRequested =>
      let s := drain_output s in
      if draw s then Some (s <| ap_needs_redraw := false |>) else None
  | KeyboardInput k => Some (handle_keyboard now k s)
  | CursorMoved x y =>
      let s := s <| ap_cursor_pos := (x, y) |> in
      Some (redraw (if ap_left_held s then handle_mouse_drag s else s))
  | LeftPressed => redraw <$> handle_left_down now s
  | LeftReleased => Some (redraw (handle_left_up s))
  | RightPressed => Some (redraw (handle_right_down s))
  | OtherMouse => Some (redraw s)
  | MouseWheel lines =>
      let s := s <| ap_context_menu := None |> in
      Some (redraw (if lines =? 0 then s else handle_scroll lines s))
  end.
Definition resumed (s : App) : App :=
  if ap_open s then s else redraw (s <| ap_open := true |> <| ap_title := ap_focused s |>).

(** ** What runs beside the window *)

(** A task: its call, and its answer in the channel that waits for it. *)
Definition answer_pending (ticket : nat) (pane : PaneId) (ps : list PendingPane) : list PendingPane :=
  (λ p, if (pp_ticket p =? ticket)%nat then p <| pp_rx := Some pane |> else p) <$> ps.
Definition answer_search (ticket : nat) (hits : list BlockHit) (u : SearchUi) : SearchUi :=
  match su_rx u with
  | Some (t, answers) => if (t =? ticket)%nat then u <| su_rx := Some (t, answers ++ [hits]) |> else u
  | None => u
  end.
Definition run_task (t : Task) (s : App) : App :=
  match t with
  | ResizePane pane size => s <| ap_control := (resize_pane (MkResizePaneReq pane size) (ap_control s)).1 |>
  | ClosePane pane => s <| ap_control := (close_pane pane (ap_control s)).1 |>
  | WeighPane pane weight => s <| ap_control := (set_pane_weight pane weight (ap_control s)).1 |>
  | SplitPane ticket req =>
      let '(d, r) := open_pane_split req (ap_control s) in
      let s := s <| ap_control := d |> in
      match r with Ok pane => s <| ap_pending_panes ::= answer_pending ticket pane |> | Err _ => s end
  | SearchBlocks ticket req =>
      let '(d, r) := search_blocks req (ap_control s) in
      let hits := match r with Ok hits => hits | Err _ => [] end in
      s <| ap_control := d |> <| ap_search ::= answer_search ticket hits |>
  end.
(** Tasks run in any order. *)
Definition task_runs (n : nat) (s : App) : App :=
  match ap_tasks s !! n with
  | Some t => run_task t (s <| ap_tasks ::= delete n |>)
  | None => s
  end.

(** The stream of a pane: a frame that is not empty goes to the output, an input is
    written as a frame. *)
Definition frame_arrives (pane : PaneId) (data : Bytes) (s : App) : App :=
  if decide (data = []) then s
  else s <| ap_streams ::= alter (λ h, h <| hd_output ::= (.++ [data]) |>) pane |>.
Definition frame_leaves (pane : PaneId) (s : App) : App * option InputFrame :=
  match ap_streams s !! pane with
  | Some h =>
      match hd_input h with
      | data :: rest => (s <| ap_streams ::= <[pane := h <| hd_input := rest |>]> |>, Some (MkInputFrame (ap_session s) data))
      | [] => (s, None)
      end
  | None => (s, None)
  end.

(** The task of the push events: its cursor and its delay (ms). A round tells how long
    the task then sleeps. *)
Record PushTask := MkPush { pu_seq : Z; pu_backoff : Z }.
Definition push_start : PushTask := MkPush 0 200.
Definition next_backoff (b : Z) : Z := Z.min (b * 2) 5000.
Definition fetch_layout (session : SessionId) : D → D * option LayoutNode :=
  λ d, let '(d1, r) := list_windows session d in
       let win := match r with Ok ws => wi_id <$> head ws | Err _ => None end in
       let '(d2, r) := match win with Some w => get_window_layout w d1 | None => get_session_layout session d1 end in
       (d2, match r with Ok node => Some node | Err _ => None end).
Definition push_round (ttl now : Z) (connected : bool) (p : PushTask) (s : App) : App * PushTask * Z :=
  if connected then
    let p := MkPush (pu_seq p) 200 in
    let '(d, r) := next_pane_event (pu_seq p) (ap_control s) in
    let s := s <| ap_control := d |> in
    match r with
    | Ok events =>
        match last events with
        | Some ev =>
            let s := s <| ap_toast_rx ::= (.++ omap (pane_event_to_toast now ttl) events) |> in
            let p := MkPush (ev_seq ev) (pu_backoff p) in
            if existsb (λ e, bool_decide (ev_kind e = LayoutChanged)) events then
              let '(d, node) := fetch_layout (ap_session s) (ap_control s) in
              (s <| ap_control := d |> <| ap_layout_rx ::= (.++ match node with Some n => [n] | None => [] end) |>, p, 0)
            else (s, p, 0)
        | None => (s, p, 0)
        end
    | Err _ => (s, MkPush (pu_seq p) (next_backoff (pu_backoff p)), pu_backoff p)
    end
  else (s, MkPush (pu_seq p) (next_backoff (pu_backoff p)), pu_backoff p).

(** ** Starting *)
Inductive GpuError := Rpc | Daemon (e : PyreError) | NoSession (prefix : string) | Sessions (n : nat) (prefix : string)
  | NoPane (prefix : string) | Panes (n : nat) (prefix : string) | NoPanes.
Definition rpc {A} (m : M D RpcFailure A) : M D GpuError A :=
  zoom id (λ d _, d) (λ f, match f with Transport => Rpc | Remote e => Daemon e end) m.

Definition resolve_session (prefix : string) : M D GpuError SessionId :=
  let! sessions := rpc list_sessions in
  match filter (λ s, session_matches prefix s = true) sessions with
  | [] => throw (NoSession prefix)
  | [s] => ret (si_id s)
  | ss => throw (Sessions (length ss) prefix)
  end.
Definition resolve_pane (session : SessionId) (prefix : string) : M D GpuError PaneId :=
  let! panes := rpc (list_panes session) in
  match filter (λ p, pane_matches prefix p = true) panes with
  | [] => throw (NoPane prefix)
  | [p] => ret (pi_id p)
  | ps => throw (Panes (length ps) prefix)
  end.
Definition first_pane (session : SessionId) : M D GpuError PaneId :=
  let! panes := rpc (list_panes session) in
  expect (pi_id <$> head panes) NoPanes.
Definition term_size : Z * Z := (120, 40).
Definition spawn_default (shell shell_var : option string) (vars : list (string * string)) : M D GpuError (SessionId * PaneId) :=
  let shell := match shell with Some s => Some s | None => shell_var end in
  let! resp := rpc (spawn (MkSpawnReq shell cwd term_size.1 term_size.2 vars None)) in
  ret (sr_session resp, sr_pane resp).

(** The session and pane to show: those of the command line, else the first session's. *)
Definition choose_pane (session pane shell shell_var : option string) (vars : list (string * string)) : M D GpuError (SessionId * PaneId) :=
  match session with
  | Some prefix =>
      let! session := resolve_session prefix in
      let! pane := match pane with Some p => resolve_pane session p | None => first_pane session end in
      ret (session, pane)
  | None =>
      let! existing := rpc list_sessions in
      match existing with
      | sess :: _ =>
          λ d, match first_pane (si_id sess) d with
               | (d', Ok p) => (d', Ok (si_id sess, p))
               | (d', Err _) => spawn_default shell shell_var vars d'
               end
      | [] => spawn_default shell shell_var vars
      end
  end.

(** The first layout: of the first window; of the session if there is no window or the
    daemon refuses; the pane alone if the connection fails. *)
Definition session_layout (session : SessionId) (pane : PaneId) : D → D * LayoutNode :=
  λ d, let '(d', r) := get_session_layout session d in (d', match r with Ok n => n | Err _ => Leaf pane end).
Definition first_layout (session : SessionId) (pane : PaneId) : D → D * LayoutNode :=
  λ d, let '(d1, r) := list_windows session d in
       match match r with Ok ws => wi_id <$> head ws | Err _ => None end with
       | Some w =>
           match get_window_layout w d1 with
           | (d2, Ok n) => (d2, n)
           | (d2, Err (Remote _)) => session_layout session pane d2
           | (d2, Err Transport) => (d2, Leaf pane)
           end
       | None => session_layout session pane d1
       end.
Definition first_app (session : SessionId) (pane : PaneId) (layout : LayoutNode) (palette : Palette) (cfg : NotificationsConfig)
    (now : Z) (d : D) : App :=
  MkApp _ layout pane {[pane := MkHandle [] []]} {[pane := TermView_new 80 24]} palette d (search_default now) false pane 80 24 true
    session (MkMods false false) false (0, 0) false (ClickTracker_new now) None None None
    (MkDeck [] (nc_max_visible cfg) (nc_enabled cfg) (nc_ttl_ms cfg * 1000000)) [] [] [] [] 0 false.
Definition start_gpu (session pane shell shell_var : option string) (vars : list (string * string)) (palette : Palette)
    (cfg : NotificationsConfig) (now : Z) : D → D * result GpuError App :=
  λ d, match choose_pane session pane shell shell_var vars d with
       | (d1, Ok (session, pane)) =>
           let '(d2, layout) := first_layout session pane d1 in
           (d2, Ok (first_app session pane layout palette cfg now d2))
       | (d1, Err e) => (d1, Err e)
       end.

(** ** A run: the window's events and what happens beside it, until the loop ends *)
Inductive GpuStep :=
  | Window (now : Z) (e : WindowEvent)
  | Wait (now : Z)
  | TaskRuns (n : nat)
  | FrameIn (pane : PaneId) (data : Bytes)
  | FrameOut (pane : PaneId)
  | Push (ttl now : Z) (connected : bool).
Definition gpu_step (draw : App → bool) (e : GpuStep) (sp : App * PushTask) : option (App * PushTask) :=
  let '(s, p) := sp in
  match e with
  | Window now e => s' ← window_event draw now e s; Some (s', p)
  | Wait now => Some (wait_step now s, p)
  | TaskRuns n => Some (task_runs n s, p)
  | FrameIn pane data => Some (frame_arrives pane data s, p)
  | FrameOut pane => Some ((frame_leaves pane s).1, p)
  | Push ttl now connected => Some (push_round ttl now connected p s).1
  end.
Fixpoint gpu_run (draw : App → bool) (es : list GpuStep) (sp : App * PushTask) : option (App * PushTask) :=
  match es with
  | [] => Some sp
  | e :: es' => if ap_exit sp.1 then Some sp else sp' ← gpu_step draw e sp; gpu_run draw es' sp'
  end.
End App.
