(* ===== verification/GpuFrame.v ===== *)
(** * GpuFrame: a frame of the graphical viewer (pyre-gpu/src/{main,search,toast}.rs)

    [draw_frame] paints the panes, the search overlay, the menu and the toasts into a
    buffer of the size of the grid; that the buffer is then copied to the window is
    not modelled. It cannot panic if the toasts fit, which they do in a window of 43
    columns. *)
From coqutil Require Export Datatypes.RecordSettersUsingExistingGetters.
From S2P Require Import Prelude Proto Text Layout LayoutTree LayoutGeometry Libraries Server Client Themes Registry GpuPaint Gpu GpuApp.
Local Open Scope nat_scope.

Section Frame.
Context `{Fontdue, UuidText, HashOrder, GpuTerm} {D : Type}.
Context (blend : Z → Z → Z → Z).                  (** with 32-bit floats *)
Context (bar_width : Toast → nat).                (** what is left of a toast's time, in pixels *)

(** ** The search overlay *)
Definition blank_cell (col0 row0 : nat) (bg : Rgb) (width height : nat) (rc : nat * nat) : Canvas → option Canvas :=
  paint_cell blend width height (col0 + rc.2) (row0 + rc.1) 32 (rgb 0 0 0) bg false.
(** A difference below zero is a panic, or with wrapping ends in one. *)
Definition fill_cells (width height x0 y0 x1 y1 : nat) (bg : Rgb) (c : Canvas) : option Canvas :=
  if (x1 <? x0) || (y1 <? y0) then None
  else
    let cols := (x1 - x0) / CELL_W in
    let rows := (y1 - y0) / CELL_H in
    each (blank_cell (x0 / CELL_W) (y0 / CELL_H) bg width height)
         (flat_map (λ r, pair r <$> seq 0 cols) (seq 0 rows)) c.
Definition draw_hline (width height x0 y x1 : nat) (color : Rgb) (c : Canvas) : option Canvas :=
  if x1 <? x0 then None
  else each (λ i, paint_cell blend width height (x0 / CELL_W + i) (y / CELL_H) 0x2500 color color false)
            (seq 0 ((x1 - x0) / CELL_W)) c.

Definition PANEL_MARGIN : nat := 2.
Definition MAX_VISIBLE_RESULTS : nat := 10.
Definition hit_line (hit : BlockHit) : list Z :=
  let b := bh_block hit in
  chars " " ++ take 32 (chars (blk_command b))
    ++ chars (match blk_exit_code b with Some code => " exit=" +:+ show_Z code | None => "" end)
    ++ chars " — " ++ take 48 (chars (bh_snippet hit)).
Definition paint_overlay (u : SearchUi) (width height term_cols term_rows : nat) (c : Canvas) : option Canvas :=
  if negb (su_open u) then Some c
  else
    let x0 := PANEL_MARGIN * CELL_W in
    let y0 := PANEL_MARGIN * CELL_H in
    let x1 := (term_cols - PANEL_MARGIN) * CELL_W in
    let y1 := (term_rows - PANEL_MARGIN) * CELL_H in
    let bg := rgb 0x18 0x18 0x22 in
    let border := rgb 0xff 0x6b 0x35 in
    let fg := rgb 0xe8 0xe8 0xe8 in
    let dim := rgb 0x88 0x88 0x99 in
    let col := x0 / CELL_W + 1 in
    let row := y0 / CELL_H + 1 in
    c ← fill_cells width height x0 y0 x1 y1 bg c;
    c ← draw_hline width height x0 y0 x1 border c;
    c ← draw_hline width height x0 (y1 - CELL_H) x1 border c;
    c ← draw_line blend width height col row (chars " search (!prefix = failures) ") border bg c;
    c ← draw_line blend width height col (row + 1) (chars "> " ++ su_input u) fg bg c;
    c ← draw_line blend width height col (row + 2) (chars (su_status u)) dim bg c;
    each (λ ih, draw_line blend width height col (row + 3 + ih.1) (hit_line ih.2) fg
                  (if ih.1 =? su_cursor u then rgb 0x2a 0x22 0x18 else bg))
         (imap pair (take MAX_VISIBLE_RESULTS (su_results u))) c.

(** ** The context menu *)
Definition menu_row (menu : ContextMenu) (palette : Palette) (width height : nat) (ii : nat * MenuItem) (c : Canvas) : option Canvas :=
  let row := cm_px_y menu / CELL_H + 1 + ii.1 in
  let selected := ii.1 =? cm_cursor menu in
  let fg := if selected then pl_bg palette else pl_fg palette in
  let row_bg := if selected then pl_accent palette else pl_bg palette in
  c ← fill_rect width height (cm_px_x menu + 1) (row * CELL_H) (cm_width menu - 2) CELL_H (rgb_u32 row_bg) c;
  paint_text_row blend width height (take (cm_width menu / CELL_W - 1) (chars (label ii.2))) ((cm_px_x menu + CELL_W) / CELL_W) row fg row_bg c.
Definition paint_context_menu (menu : ContextMenu) (width height : nat) (palette : Palette) (c : Canvas) : option Canvas :=
  c ← fill_rect width height (cm_px_x menu) (cm_px_y menu) (cm_width menu) (cm_height menu) (rgb_u32 (pl_bg palette)) c;
  c ← draw_border_rect width height (cm_px_x menu) (cm_px_y menu) (cm_width menu) (cm_height menu) (rgb_u32 (pl_border_focus palette)) c;
  each (menu_row menu palette width height) (imap pair MENU_ITEMS) c.

(** ** The toasts *)
Definition CARD_W : nat := 42 * CELL_W.
Definition CARD_H : nat := 3 * CELL_H.
Definition card_text (t : Toast) : list Z := take (42 - 2) (chars (to_title t +:+ " | " +:+ to_body t)).
Definition accent (t : Toast) (palette : Palette) : Rgb :=
  match to_kind t with TkInfo => pl_accent palette | TkSuccess => pl_ok palette | TkWarn => pl_warn palette | TkError => pl_error palette end.
Definition paint_card (width height : nat) (palette : Palette) (it : nat * Toast) (c : Canvas) : option Canvas :=
  let card_x := width - (CARD_W + CELL_W) in
  let card_y := (height - (CELL_H + it.1 * (CARD_H + CELL_H))) - CARD_H in
  let color := accent it.2 palette in
  c ← fill_rect width height card_x card_y CARD_W CARD_H (rgb_u32 (pl_bg palette)) c;
  c ← draw_border_rect width height card_x card_y CARD_W CARD_H (rgb_u32 color) c;
  c ← paint_text_row blend width height (card_text it.2) ((card_x + CELL_W) / CELL_W) (card_y / CELL_H + 1) color (pl_bg palette) c;
  each (λ bx, put_if width height (card_x + bx) (card_y + CARD_H - 1) (rgb_u32 color)) (seq 0 (Nat.min (bar_width it.2) CARD_W)) c.
(** The latest first; the first card that does not fit ends the loop. *)
Definition card_fits (height : nat) (it : nat * Toast) : bool := CARD_H <=? height - (CELL_H + it.1 * (CARD_H + CELL_H)).
Definition paint_toast_deck (deck : ToastDeck) (width height : nat) (palette : Palette) (c : Canvas) : option Canvas :=
  if negb (td_enabled deck) || bool_decide (td_toasts deck = []) then Some c
  else
    each (paint_card width height palette)
         (take_while (card_fits height) (imap pair (take (td_max_visible deck) (rev (td_toasts deck))))) c.

(** ** The frame *)
Definition paint_leaf (s : App D) (width height : nat) (lf : PaneId * Rect) (c : Canvas) : option Canvas :=
  let '(pane, r) := lf in
  let '(cell_cols, cell_rows) := rect_to_cells r in
  let cells := match ap_terms s !! pane with Some v => collect_grid v cell_cols cell_rows (ap_palette s) | None => [] end in
  let x := Z.to_nat (rx r) in
  let y := Z.to_nat (ry r) in
  let w := Z.to_nat (rw r) in
  let h := Z.to_nat (rh r) in
  let color := if decide (pane = ap_focused s) then pl_border_focus (ap_palette s) else pl_border (ap_palette s) in
  c ← paint_pane_at blend width height x y w h cells cell_cols cell_rows (pl_bg (ap_palette s)) c;
  paint_border width height x y w h color c.
Definition draw_frame (s : App D) (cache : gmap (Z * bool) CachedGlyph) : option Canvas :=
  let width := ap_cols s * CELL_W in
  let height := ap_rows s * CELL_H in
  c ← each (paint_leaf s width height) (app_leaves s) (MkCanvas (replicate (width * height) 0%Z) cache);
  c ← paint_overlay (ap_search s) width height (ap_cols s) (ap_rows s) c;
  c ← match ap_context_menu s with Some menu => paint_context_menu menu width height (ap_palette s) c | None => Some c end;
  paint_toast_deck (ap_toast_deck s) width height (ap_palette s) c.
End Frame.

(** ** Drawing a frame *)
Section Safe.
Context `{Fontdue, UuidText, HashOrder, GpuTerm} {D : Type} (blend : Z → Z → Z → Z) (bar_width : Toast → nat).
Context (cols rows : nat).
Abbreviation width := (cols * CELL_W).
Abbreviation height := (rows * CELL_H).
Abbreviation draws := (draws width height).

Lemma draws_fill_cells x1 y1 bg :
  2 * CELL_W ≤ x1 → 2 * CELL_H ≤ y1 → x1 ≤ width → draws (fill_cells blend width height (2 * CELL_W) (2 * CELL_H) x1 y1 bg).
Proof.
  intros Hx Hy Hw. unfold fill_cells. rewrite (proj2 (Nat.ltb_ge _ _) Hx), (proj2 (Nat.ltb_ge _ _) Hy). cbn [orb].
  apply draws_each, Forall_forall. intros [r c] Hin. apply list_elem_of_In, in_flat_map in Hin as (r' & _ & Hin).
  apply list_elem_of_In, list_elem_of_fmap in Hin as (c' & [= -> ->] & Hc). apply elem_of_seq in Hc.
  apply draws_paint_cell. cbn [snd]. unfold CELL_W in *. pose proof (Nat.Div0.mul_div_le (x1 - 2 * 10) 10).
  change (2 * 10 / 10) with 2. lia.
Qed.
Lemma draws_draw_hline y x1 color : 2 * CELL_W ≤ x1 → x1 ≤ width → draws (draw_hline blend width height (2 * CELL_W) y x1 color).
Proof.
  intros Hx Hw. unfold draw_hline. rewrite (proj2 (Nat.ltb_ge _ _) Hx). apply draws_seq. intros i Hi. apply draws_paint_cell.
  unfold CELL_W in *. pose proof (Nat.Div0.mul_div_le (x1 - 2 * 10) 10). change (2 * 10 / 10) with 2. lia.
Qed.
Lemma draws_overlay u : 4 ≤ cols → 4 ≤ rows → draws (paint_overlay blend u width height cols rows).
Proof.
  intros Hc Hr. unfold paint_overlay, PANEL_MARGIN. destruct (su_open u); [|apply draws_some]. cbn [negb]. cbv zeta.
  assert (2 * CELL_W ≤ (cols - 2) * CELL_W ∧ (cols - 2) * CELL_W ≤ width) as [Hx1 Hx2] by nia.
  apply draws_then; [apply draws_fill_cells; [done|unfold CELL_H; lia|done]|].
  do 2 (apply draws_then; [by apply draws_draw_hline|]). do 3 (apply draws_then; [apply draws_draw_line|]).
  apply draws_each, Forall_imap_pair. intros i hit _. apply draws_draw_line.
Qed.

(** The menu lies in the buffer, as it does when it is opened. *)
Definition menu_fits (m : ContextMenu) : Prop := cm_width m = 190 ∧ cm_px_x m + 190 ≤ width.
Lemma label_length i : length (chars (label i)) ≤ 17.
Proof. by destruct i; vm_compute; repeat constructor. Qed.
Lemma menu_new_fits px py pane h : 190 ≤ width → menu_fits (ContextMenu_new px py pane width h).
Proof.
  intros Hw. unfold ContextMenu_new. cbv zeta.
  replace (list_max ((λ i, length (chars (label i))) <$> MENU_ITEMS)) with 17 by (vm_compute; reflexivity).
  unfold menu_fits, CELL_W in *. cbn [cm_width cm_px_x]. split; [done|]. lia.
Qed.
Lemma draws_menu menu palette : menu_fits menu → draws (paint_context_menu blend menu width height palette).
Proof.
  intros [Hw Hx]. unfold paint_context_menu. apply draws_then; [apply draws_fill_rect|]. apply draws_then; [apply draws_border_rect|].
  apply draws_each, Forall_imap_pair. intros i item _. unfold menu_row. cbv zeta. apply draws_then; [apply draws_fill_rect|].
  apply draws_paint_text_row. rewrite length_take. pose proof (label_length item). cbn [snd].
  unfold CELL_W in *. pose proof (Nat.Div0.mul_div_le (cm_px_x menu + 10) 10). lia.
Qed.

(** The text of a toast is no longer than a line. *)
Definition toast_fits (t : Toast) : Prop := length (card_text t) ≤ cols.
Lemma toast_fits_wide t : 40 ≤ cols → toast_fits t.
Proof. intros Hc. unfold toast_fits, card_text. rewrite length_take. lia. Qed.
Lemma draws_deck deck palette :
  Forall toast_fits (td_toasts deck) → draws (paint_toast_deck blend bar_width deck width height palette).
Proof.
  intros Hf. unfold paint_toast_deck. destruct (_ || _); [apply draws_some|].
  apply draws_each. set (vis := take _ _). assert (Forall toast_fits vis) as Hv.
  { apply Forall_take, Forall_rev. exact Hf. }
  assert (Forall (λ it, draws (paint_card blend bar_width width height palette it)) (imap pair vis)) as Hall.
  { apply Forall_imap_pair. intros i t Ht. rewrite Forall_lookup in Hv. specialize (Hv i t Ht). unfold toast_fits in Hv.
    unfold paint_card. cbv zeta. cbn [fst snd]. apply draws_then; [apply draws_fill_rect|]. apply draws_then; [apply draws_border_rect|].
    apply draws_then; [|apply draws_seq; intros bx _; apply draws_put_if]. apply draws_paint_text_row.
    assert (length (card_text t) ≤ 40) by (unfold card_text; rewrite length_take; lia).
    unfold CARD_W, CELL_W in *. pose proof (Nat.Div0.mul_div_le (cols * 10 - (42 * 10 + 10) + 10) 10).
    destruct (decide (43 ≤ cols)); [lia|]. replace (cols * 10 - (42 * 10 + 10)) with 0 by lia. change ((0 + 10) / 10) with 1. lia. }
  clear Hv. induction Hall as [|it l Hit _ IH]; cbn [take_while]; [constructor|]. destruct (card_fits height it); [by constructor|constructor].
Qed.

Lemma draws_leaf (s : App D) lf :
  ap_cols s = cols → inside (viewport_rect s) lf.2 → draws (paint_leaf blend s width height lf).
Proof.
  destruct lf as [pane r]. intros Hc Hin. unfold paint_leaf. destruct (rect_to_cells r) as [cc cr]. cbv zeta. cbn [snd] in Hin.
  apply draws_then; [|apply draws_paint_border]. apply draws_paint_pane.
  unfold inside, viewport_rect in Hin. cbn in Hin. rewrite Hc in Hin. unfold CELL_W in *. lia.
Qed.
End Safe.

(** A frame can be drawn: the layout has its weights, the grid the size of a screen,
    the menu lies in it, the toasts fit. *)
Definition drawable {D} (s : App D) : Prop :=
  all_splits summable (ap_cached_layout s) ∧ rect_ok (viewport_rect s) ∧ 4 ≤ ap_cols s ∧ 4 ≤ ap_rows s ∧
  (∀ m, ap_context_menu s = Some m → menu_fits (ap_cols s) m) ∧
  Forall (toast_fits (ap_cols s)) (td_toasts (ap_toast_deck s)).

(** No frame of such a state panics, whatever the terminals show and the font draws. *)
Theorem frame_is_drawn `{Fontdue, UuidText, HashOrder, GpuTerm} {D : Type} blend bar_width (s : App D) cache :
  map_Forall (λ k g, g = rasterize k.1) cache → drawable s → is_Some (draw_frame blend bar_width s cache).
Proof.
  intros Hcache (Hl & Hvp & Hc & Hr & Hm & Ht). unfold draw_frame. cbv zeta.
  set (start := MkCanvas _ cache). assert (canvas_ok (ap_cols s * CELL_W) (ap_rows s * CELL_H) start) as Hs.
  { split; [|done]. cbn. by rewrite length_replicate. }
  clearbody start. revert start Hs.
  assert (draws (ap_cols s * CELL_W) (ap_rows s * CELL_H) (λ start,
    c ← each (paint_leaf blend s (ap_cols s * CELL_W) (ap_rows s * CELL_H)) (app_leaves s) start;
    c ← paint_overlay blend (ap_search s) (ap_cols s * CELL_W) (ap_rows s * CELL_H) (ap_cols s) (ap_rows s) c;
    c ← match ap_context_menu s with
        | Some menu => paint_context_menu blend menu (ap_cols s * CELL_W) (ap_rows s * CELL_H) (ap_palette s) c
        | None => Some c
        end;
    paint_toast_deck blend bar_width (ap_toast_deck s) (ap_cols s * CELL_W) (ap_rows s * CELL_H) (ap_palette s) c)) as Hd.
  { apply draws_then.
    { apply draws_each. destruct (leaves_inner_tiles _ _ Hl Hvp) as [Hin _]. eapply Forall_impl; [exact Hin|].
      intros lf Hlf. by apply draws_leaf. }
    apply draws_then; [by apply draws_overlay|]. apply draws_then; [|by apply draws_deck].
    destruct (ap_context_menu s) as [m|] eqn:Hmenu; [|apply draws_some]. by apply draws_menu, Hm. }
  intros start Hs. destruct (Hd start Hs) as (c' & -> & _). done.
Qed.

(** A loop that comes to a panic. *)
Lemma each_panics `{Fontdue} {A} w h (f : A → Canvas → option Canvas) l1 x l2 c :
  canvas_ok w h c → Forall (λ y, draws w h (f y)) l1 → (∀ c, f x c = None) → each f (l1 ++ x :: l2) c = None.
Proof.
  intros Hc Hl Hx. revert c Hc. induction Hl as [|y l1 Hy _ IH]; intros c Hc; cbn [each app]; [by rewrite Hx|].
  destruct (Hy c Hc) as (c' & -> & Hc'). by apply IH.
Qed.

(** The latest toast panics if its text is longer than the line. *)
Theorem long_toast_panics `{Fontdue} blend bar_width deck cols rows palette t rest c :
  canvas_ok (cols * CELL_W) (rows * CELL_H) c → 8 ≤ rows → td_enabled deck = true → (0 < td_max_visible deck)%nat →
  td_toasts deck = rest ++ [t] → cols < length (card_text t) →
  paint_toast_deck blend bar_width deck (cols * CELL_W) (rows * CELL_H) palette c = None.
Proof.
  intros Hc Hr He Hm Hts Hlong. assert (length (card_text t) ≤ 40) by (unfold card_text; rewrite length_take; lia).
  unfold paint_toast_deck. rewrite He, Hts, rev_app_distr. cbn [negb orb rev app].
  rewrite bool_decide_false by (by destruct rest). destruct (td_max_visible deck) as [|n]; [lia|]. cbn [take imap].
  cbn [take_while]. assert (card_fits (rows * CELL_H) (0, t) = true) as ->.
  { unfold card_fits, CARD_H, CELL_H. cbn [fst]. apply Nat.leb_le. lia. }
  cbn [each]. assert (paint_card blend bar_width (cols * CELL_W) (rows * CELL_H) palette (0, t) c = None) as ->; [|done].
  unfold paint_card. cbv zeta. cbn [fst snd].
  destruct (draws_fill_rect (cols * CELL_W) (rows * CELL_H) (cols * CELL_W - (CARD_W + CELL_W))
    (rows * CELL_H - (CELL_H + 0 * (CARD_H + CELL_H)) - CARD_H) CARD_W CARD_H (rgb_u32 (pl_bg palette)) c Hc) as (c1 & -> & Hc1). cbn [mbind option_bind].
  destruct (draws_border_rect (cols * CELL_W) (rows * CELL_H) (cols * CELL_W - (CARD_W + CELL_W))
    (rows * CELL_H - (CELL_H + 0 * (CARD_H + CELL_H)) - CARD_H) CARD_W CARD_H (rgb_u32 (accent t palette)) c1 Hc1) as (c2 & -> & Hc2). cbn [mbind option_bind].
  match goal with |- mbind _ ?m = None => assert (m = None) as ->; [|done] end.
  replace (cols * CELL_W - (CARD_W + CELL_W)) with 0 by (unfold CARD_W, CELL_W; lia).
  change ((0 + CELL_W) / CELL_W) with 1. unfold paint_text_row.
  destruct (lookup_lt_is_Some_2 (card_text t) cols) as [ch Hch]; [done|].
  rewrite <- (take_drop_middle _ _ _ Hch), imap_app. cbn [imap].
  assert (length (take cols (card_text t)) = cols) as Hlen by (rewrite length_take; lia).
  apply (each_panics (cols * CELL_W) (rows * CELL_H)); [done| |].
  - apply Forall_imap_pair. intros i x Hi. apply lookup_lt_Some in Hi. rewrite Hlen in Hi. apply draws_paint_cell.
    cbn [fst]. unfold CELL_W. lia.
  - intros c'. unfold text_cell. cbn [fst snd]. apply paint_cell_beyond.
    + rewrite Hlen. unfold CELL_W. lia.
    + unfold CARD_H, CELL_H. replace (rows * 20 - (20 + 0 * (3 * 20 + 20)) - 3 * 20) with ((rows - 4) * 20) by lia.
      rewrite Nat.div_mul by done. lia.
Qed.
