(* ===== verification/GpuRuns.v ===== *)
(** * GpuRuns: runs of the graphical viewer

    What every event keeps, that no event panics in a window that is wide enough, and
    what reaches the terminals; at the end ([GpuStream]) the task that keeps the stream of
    a pane open (pyre-gpu/src/main.rs). *)
From Stdlib Require Import Strings.Byte.
From coqutil Require Export Datatypes.RecordSettersUsingExistingGetters.
From S2P Require Import Prelude Proto Text Layout LayoutWeights LayoutTree LayoutGeometry Libraries Effects PaneTracker Server Client.
From S2P Require Import Themes Registry GpuPaint Gpu GpuApp GpuFrame.
Local Open Scope Z_scope.

(** ** The preview of a drag *)

Lemma apply_pair_split l r x y mk cs :
  is_split mk →
  apply_weights_for_pair l r x y (mk cs) =
  match leaf_position l cs, leaf_position r cs with
  | Some li, Some ri => (true, mk (alter (λ c, (c.1, y)) ri (alter (λ c, (c.1, x)) li cs)))
  | _, _ => ((iter_mut_until (apply_weights_for_pair l r x y) cs).1, mk (iter_mut_until (apply_weights_for_pair l r x y) cs).2)
  end.
Proof. intros Hmk. split_kind Hmk; cbn [apply_weights_for_pair]; by repeat case_match. Qed.

Lemma leaf_position_spec pane cs i : leaf_position pane cs = Some i → ∃ w, cs !! i = Some (Leaf pane, w).
Proof.
  unfold leaf_position. intros Hl. apply last_Some_elem_of, list_elem_of_In, filter_In in Hl as [_ Hl].
  destruct (cs !! i) as [[[id|?|?] w]|]; try done. apply bool_decide_eq_true in Hl as ->. by exists w.
Qed.

Lemma alter_fst {A B} (f : A * B → B) i (l : list (A * B)) : (alter (λ c, (c.1, f c)) i l).*1 = l.*1.
Proof. revert i. induction l as [|[a b] l IH]; intros [|i]; cbn; [done..|]. f_equal. apply IH. Qed.

(** The panes of a tree, and their order, are those before. *)
Lemma apply_pair_leaves l r x y n : all_leaves (apply_weights_for_pair l r x y n).2 = all_leaves n.
Proof.
  induction n as [id|mk cs Hmk IH] using LayoutNode_ind'; [done|]. rewrite apply_pair_split by done.
  assert (all_leaves (mk (iter_mut_until (apply_weights_for_pair l r x y) cs).2) = all_leaves (mk cs)) as Hiter.
  { rewrite !(all_leaves_split _ _ Hmk). induction IH as [|[c w] cs Hc _ IHcs]; [done|]. cbn [iter_mut_until].
    cbn [fst] in Hc. destruct (apply_weights_for_pair l r x y c) as [b c'] eqn:E. cbn [snd] in Hc. destruct b; cbn [flat_map fst snd]; by rewrite ?IHcs, Hc. }
  destruct (leaf_position l cs) as [li|]; [destruct (leaf_position r cs) as [ri|]|]; cbn [snd]; [|done..].
  by rewrite !(all_leaves_split _ _ Hmk), !flat_map_fst, !alter_fst.
Qed.

Lemma apply_pair_ok l r x n :
  l ≠ r → 5 ≤ x ≤ 95 → layout_ok n → layout_ok (apply_weights_for_pair l r x (100 - x) n).2.
Proof.
  intros Hlr Hx [Hn Hnd]. split; [|by rewrite apply_pair_leaves]. clear Hnd.
  induction n as [id|mk cs Hmk IH] using LayoutNode_ind'; [done|]. rewrite apply_pair_split by done.
  rewrite all_splits_split in Hn by done. destruct Hn as [[Hlen Hw] Hcs].
  assert (all_splits two_ok (mk (iter_mut_until (apply_weights_for_pair l r x (100 - x)) cs).2)) as Hiter.
  { rewrite all_splits_split by done. rewrite iter_mut_until_weights. split; [by split|]. apply iter_mut_until_Forall; [|done].
    rewrite Forall_forall in *. auto. }
  destruct (leaf_position l cs) as [li|] eqn:Hli; [destruct (leaf_position r cs) as [ri|] eqn:Hri|]; cbn [snd]; [|done..].
  apply leaf_position_spec in Hli as [wl Hli], Hri as [wr Hri].
  destruct cs as [|[c1 w1] [|[c2 w2] [|]]]; try done.
  assert (li ≠ ri) as Hne by (intros ->; rewrite Hli in Hri; by injection Hri).
  rewrite all_splits_split by done. inversion Hcs as [|? ? Hc1 Hcs']. inversion Hcs' as [|? ? Hc2 _]. simplify_eq.
  destruct li as [|[|li]], ri as [|[|ri]]; try done; cbn; (split; [split; [done|]|apply Forall_cons; split; [done|by apply Forall_singleton]]);
    (split; [cbn; lia|]; split; [|cbn; lia]); apply Forall_cons; (split; [|apply Forall_singleton]); unfold ok_weight; cbn [fst snd]; lia.
Qed.

(** ** What every event keeps *)
Section Inv.
Context `{UuidText, HashOrder, GpuTerm} {D : Type} `{!PyreDaemon D}.
Context (percent : Z → Z → Z) (cwd : option PathBuf).
Abbreviation App := (App D).

(** What the frames and the mouse depend on. *)
Definition core (s : App) : LayoutNode * list LayoutNode * nat * nat * option ContextMenu * option DragResize :=
  (ap_cached_layout s, ap_layout_rx s, ap_cols s, ap_rows s, ap_context_menu s, ap_drag_resize s).
Definition core_ok (c : LayoutNode * list LayoutNode * nat * nat * option ContextMenu * option DragResize) : Prop :=
  let '(layout, layouts, cols, rows, menu, drag) := c in
  layout_ok layout ∧ Forall layout_ok layouts ∧ (40 ≤ cols)%nat ∧ Z.of_nat (cols * CELL_W) < 2 ^ 31 ∧
  (8 ≤ rows)%nat ∧ Z.of_nat (rows * CELL_H) < 2 ^ 31 ∧ (∀ m, menu = Some m → menu_fits cols m) ∧
  (∀ d, drag = Some d → dr_left_pane d ≠ dr_right_pane d).
Definition gpu_ok (s : App) : Prop := core_ok (core s).

Ltac keep := repeat first [done | split; [done|]].
Lemma same_core s s' : core s' = core s → gpu_ok s → gpu_ok s'.
Proof. unfold gpu_ok. by intros ->. Qed.
Lemma fold_core {A} (f : App → A → App) l s : (∀ s x, core (f s x) = core s) → core (fold_left f l s) = core s.
Proof. intros Hf. revert s. induction l as [|x l IH]; intros s; [done|]. cbn. by rewrite IH, Hf. Qed.

Lemma core_redraw s : core (redraw s) = core s.
Proof. done. Qed.
Lemma core_focus p s : core (focus p s) = core s.
Proof. unfold focus, update_title. by case_match. Qed.
Lemma core_fit_terms s : core (fit_terms s) = core s.
Proof. apply fold_core. intros ? [pane r]. by destruct (rect_to_cells r). Qed.
Lemma core_move_focus dir s : core (move_focus dir s) = core s.
Proof. unfold move_focus. case_match; [apply core_focus|done]. Qed.
Lemma core_cycle_pane delta s : core (cycle_pane delta s) = core s.
Proof. unfold cycle_pane. cbv zeta. repeat case_match; try done. unfold redraw. apply core_focus. Qed.
Lemma core_drain_pending s : core (drain_pending_panes s) = core s.
Proof.
  unfold drain_pending_panes. cbv zeta. transitivity (core (fold_left (λ s p, insert_pane p s) (omap pp_rx (ap_pending_panes s)) s)); [done|].
  apply fold_core. intros s' p. unfold insert_pane, redraw. cbv zeta. exact (core_focus p _).
Qed.
Lemma core_drain_output s : core (drain_output s) = core s.
Proof.
  apply fold_core. intros s' [pane h]. unfold drain_pane. case_match; [|done].
  by destruct (drain_pty_replies _).
Qed.
Lemma core_check_output s : core (check_output s) = core s.
Proof. unfold check_output. by destruct (take_chunk _) as [[? ?]|]. Qed.
Lemma core_search_task req s : core (search_task req s) = core s.
Proof. by destruct req. Qed.
Lemma core_run_debounce now s : core (run_debounce now s).1 = core s.
Proof. unfold run_debounce. destruct (tick_debounce _ _ _) as [[u req] changed]. cbn [fst]. by rewrite core_search_task. Qed.
Lemma core_search_input now k s : core (search_input now k s) = core s.
Proof.
  unfold search_input. destruct (search_key _ _ _ _) as [u req]. cbv zeta.
  transitivity (core (run_debounce now (search_task req (s <| ap_search := u |>))).1); [done|]. by rewrite core_run_debounce, core_search_task.
Qed.
Lemma core_select_word pane px py s : core (select_word_at pane px py s) = core s.
Proof. unfold select_word_at. destruct (px_to_cell_in_pane _ _ _ _). cbv zeta. by repeat case_match. Qed.
Lemma core_select_line pane px py s : core (select_line_at pane px py s) = core s.
Proof. unfold select_line_at. destruct (px_to_cell_in_pane _ _ _ _). cbv zeta. by repeat case_match. Qed.
Lemma core_type_key k s : core (type_key k s) = core s.
Proof. unfold type_key. by case_match. Qed.

(** The mouse. *)
Lemma pairs_spec {A} (l : list A) p : p ∈ pairs l → ∃ i j, (i < j)%nat ∧ l !! i = Some p.1 ∧ l !! j = Some p.2.
Proof.
  unfold pairs. rewrite list_elem_of_In, in_flat_map. intros ([i x] & Hix & Hp).
  apply list_elem_of_In, elem_of_lookup_imap in Hix as (i' & x' & [= <- <-] & Hi).
  apply list_elem_of_In, list_elem_of_fmap in Hp as (y & -> & Hy). apply list_elem_of_lookup in Hy as [k Hk].
  rewrite lookup_drop in Hk. exists i, (S i + k)%nat. split; [lia|done].
Qed.
Lemma first_hit_some {A} (l : list (option (option A))) x : first_hit l = Some (Some x) → Some (Some x) ∈ l.
Proof. induction l as [|[[y|]|] l IH]; cbn; [done|intros [= ->]; by left|intros; right; auto|done]. Qed.
Lemma first_hit_none {A} (l : list (option (option A))) : first_hit l = None → None ∈ l.
Proof. induction l as [|[[y|]|] l IH]; cbn; [done|done|intros; right; auto|by left]. Qed.
Lemma hits_of px py (s : App) hit :
  hit ∈ flat_map (λ '(l, r), [hit_vertical px py l r s; hit_horizontal px py l r s]) (pairs (app_leaves s)) →
  ∃ l r, (l, r) ∈ pairs (app_leaves s) ∧ (hit = hit_vertical px py l r s ∨ hit = hit_horizontal px py l r s).
Proof.
  rewrite list_elem_of_In, in_flat_map. intros ([l r] & Hlr & Hhit). exists l, r.
  split; [by apply list_elem_of_In|]. destruct Hhit as [<-|[<-|[]]]; auto.
Qed.
Lemma hit_vertical_panes px py l r (s : App) d :
  hit_vertical px py l r s = Some (Some d) → dr_left_pane d = l.1 ∧ dr_right_pane d = r.1.
Proof. destruct l, r. unfold hit_vertical. cbv zeta. by repeat case_match; intros; simplify_eq. Qed.
Lemma hit_horizontal_panes px py l r (s : App) d :
  hit_horizontal px py l r s = Some (Some d) → dr_left_pane d = l.1 ∧ dr_right_pane d = r.1.
Proof. destruct l, r. unfold hit_horizontal. cbv zeta. by repeat case_match; intros; simplify_eq. Qed.

Lemma app_leaves_ids (s : App) : (app_leaves s).*1 = all_leaves (ap_cached_layout s).
Proof. apply leaves_inner_ids. Qed.
Lemma hit_distinct px py (s : App) d :
  gpu_ok s → try_hit_boundary px py s = Some (Some d) → dr_left_pane d ≠ dr_right_pane d.
Proof.
  intros ([_ Hnd] & _) Hd%first_hit_some%hits_of. destruct Hd as ([li lr] & [ri rr] & Hp & Hd).
  assert (dr_left_pane d = li ∧ dr_right_pane d = ri) as [-> ->].
  { destruct Hd as [Hd|Hd]; symmetry in Hd; [by apply hit_vertical_panes in Hd|by apply hit_horizontal_panes in Hd]. }
  apply pairs_spec in Hp as (i & j & Hij & Hi & Hj). intros ->.
  assert (i = j); [|lia]. rewrite <- app_leaves_ids in Hnd. eapply (NoDup_lookup _ i j ri); [exact Hnd|..].
  - by rewrite list_lookup_fmap, Hi.
  - by rewrite list_lookup_fmap, Hj.
Qed.

(** Every rectangle has an extent: no border is a division by zero. *)
Definition roomy (s : App) : Prop := Forall (λ lf, 0 < rw lf.2 ∧ 0 < rh lf.2) (app_leaves s).
Lemma summable_two ws : two_ok ws → summable ws.
Proof. intros (_ & _ & Hok & Hs). split; [|lia]. eapply Forall_impl; [exact Hok|]. unfold ok_weight. lia. Qed.
Lemma all_splits_impl (P Q : list Z → Prop) n : (∀ ws, P ws → Q ws) → all_splits P n → all_splits Q n.
Proof.
  intros HPQ. induction n as [id|mk cs Hmk IH] using LayoutNode_ind'; [done|]. rewrite !all_splits_split by done.
  intros [HP Hcs]. split; [auto|]. rewrite Forall_forall in *. auto.
Qed.
Lemma gpu_ok_rect s : gpu_ok s → rect_ok (viewport_rect s).
Proof. intros (_ & _ & _ & Hc & _ & Hr & _). unfold rect_ok, viewport_rect. cbn [rx ry rw rh]. lia. Qed.
Lemma gpu_ok_inside s : gpu_ok s → Forall (λ lf, inside (viewport_rect s) lf.2) (app_leaves s).
Proof.
  intros Hok. pose proof (gpu_ok_rect _ Hok) as Hvp. destruct Hok as ([Hl _] & _).
  by destruct (leaves_inner_tiles _ _ (all_splits_impl _ _ _ summable_two Hl) Hvp).
Qed.
Lemma hit_total px py (s : App) : gpu_ok s → roomy s → is_Some (try_hit_boundary px py s).
Proof.
  intros Hok Hroom. destruct (try_hit_boundary px py s) eqn:E; [done|exfalso].
  apply first_hit_none, hits_of in E as ([li lr] & [ri rr] & Hp & Hd).
  apply pairs_spec in Hp as (i & j & _ & Hi & Hj). pose proof (gpu_ok_inside _ Hok) as Hin.
  assert (∀ k lf, app_leaves s !! k = Some lf → 0 < rw lf.2 < 2 ^ 31 ∧ 0 < rh lf.2 < 2 ^ 31) as Hsize.
  { intros k lf Hk. pose proof (proj1 (Forall_lookup _ _) Hroom k lf Hk) as Hp. pose proof (proj1 (Forall_lookup _ _) Hin k lf Hk) as Hi'.
    destruct Hok as (_ & _ & _ & Hc & _ & Hr & _). unfold inside, viewport_rect in Hi'. cbn [rx ry rw rh] in Hi'. cbn beta in Hp. lia. }
  apply Hsize in Hi, Hj. cbn [fst snd] in *. unfold hit_vertical, hit_horizontal in Hd. cbv zeta in Hd.
  rewrite (wrap_u32_small (rw lr + rw rr)), (wrap_u32_small (rh lr + rh rr)) in Hd by lia.
  rewrite (proj2 (Z.eqb_neq (rw lr + rw rr) 0)), (proj2 (Z.eqb_neq (rh lr + rh rr) 0)) in Hd by lia. by destruct Hd as [Hd|Hd]; case_match.
Qed.

(** Every handler keeps [gpu_ok]. *)
Lemma grid_dims_ok w h c r :
  400 <= Z.of_nat w < 2 ^ 31 → Z.of_nat h < 2 ^ 31 → grid_dims_for_window w h = (c, r) →
  (40 ≤ c)%nat ∧ Z.of_nat (c * CELL_W) < 2 ^ 31 ∧ (8 ≤ r)%nat ∧ Z.of_nat (r * CELL_H) < 2 ^ 31.
Proof.
  unfold grid_dims_for_window. intros Hw Hh Heq. apply pair_eq in Heq as [<- <-]. unfold CELL_W, CELL_H.
  pose proof (Nat.Div0.mul_div_le w 10). pose proof (Nat.Div0.mul_div_le h 20). assert (40 ≤ w / 10)%nat by (apply Nat.div_le_lower_bound; lia). lia.
Qed.
Lemma resized_ok w h s :
  400 <= Z.of_nat w < 2 ^ 31 → Z.of_nat h < 2 ^ 31 →
  (∀ m, ap_context_menu s = Some m → menu_fits (grid_dims_for_window w h).1 m) → gpu_ok s → gpu_ok (resized w h s).
Proof.
  intros Hw Hh Hm (Hl & Hls & _ & _ & _ & _ & _ & Hd). unfold resized.
  destruct (grid_dims_for_window w h) as [c r] eqn:E. pose proof (grid_dims_ok _ _ _ _ Hw Hh E) as (Hc & Hcw & Hr & Hrh).
  cbv zeta. set (s1 := s <| ap_cols := c |> <| ap_rows := r |>). cbn [fst] in Hm.
  apply (same_core s1); [|keep].
  etransitivity; [|apply core_fit_terms]. etransitivity; [|apply (fold_core (λ s '(pane, rect), let '(pc, pr) := rect_to_cells rect in
     task (ResizePane pane (MkPaneSize (wrap_u16 (Z.of_nat pc)) (wrap_u16 (Z.of_nat pr)))) s) (app_leaves s1))]; [done|].
  intros s' [pane rect]. by destruct (rect_to_cells rect).
Qed.

Lemma close_focused_ok s : gpu_ok s → gpu_ok (close_focused s).
Proof.
  intros (Hl & Hrest). unfold close_focused. cbv zeta.
  pose proof (layout_step_ok _ _ (step_close (ap_cached_layout s) (ap_focused s)) Hl) as Hc.
  cbn [ap_cached_layout task]. change (ap_cached_layout (task (ClosePane (ap_focused s)) s)) with (ap_cached_layout s).
  destruct (close (ap_cached_layout s) (ap_focused s)) as [[f|] n]; cbn [snd] in Hc.
  - match goal with |- gpu_ok (redraw (focus f ?s')) => apply (same_core s'); [by rewrite core_redraw, core_focus|] end. by split.
  - by split.
Qed.
Lemma drain_layouts_ok s : gpu_ok s → gpu_ok (drain_layout_updates s).
Proof.
  intros Hok. unfold drain_layout_updates. destruct (last (ap_layout_rx s)) as [node|] eqn:E; [|done].
  match goal with |- gpu_ok (redraw (fit_terms ?s')) => apply (same_core s'); [by rewrite core_redraw, core_fit_terms|] end.
  destruct Hok as (Hl & Hls & Hrest). apply last_Some_elem_of in E. rewrite Forall_forall in Hls.
  split; [by apply Hls|]. split; [by apply Forall_nil|done].
Qed.
Lemma no_menu_ok s : gpu_ok s → gpu_ok (s <| ap_context_menu := None |>).
Proof. intros (?&?&?&?&?&?&_&?). keep. Qed.

Lemma left_down_ok now s s' : gpu_ok s → handle_left_down now s = Some s' → gpu_ok s'.
Proof.
  intros Hok. unfold handle_left_down. destruct (ap_cursor_pos s) as [px py]. cbv zeta.
  set (s1 := s <| ap_left_held := true |> <| ap_context_menu := None |>).
  assert (gpu_ok s1) as Hok1 by (apply (same_core (s <| ap_context_menu := None |>)); [done|by apply no_menu_ok]).
  destruct (try_hit_boundary px py s1) as [[drag|]|] eqn:E; cbn [mbind option_bind]; [| |done].
  - intros [= <-]. pose proof (hit_distinct _ _ _ _ Hok1 E). destruct Hok1 as (?&?&?&?&?&?&?&_). keep. by intros d [= <-].
  - destruct (click_record _ _ _) as [tracker count]. intros [= <-].
    apply (same_core s1); [|done]. case_match; [|done].
    do 2 (case_match; [by rewrite ?core_select_word, ?core_select_line, ?core_focus|]). exact (core_focus _ _).
Qed.
Lemma left_up_ok s : gpu_ok s → gpu_ok (handle_left_up percent s).
Proof.
  intros (?&?&?&?&?&?&?&?). unfold handle_left_up. cbv zeta. case_match; keep.
Qed.
Lemma mouse_drag_ok s : gpu_ok s → gpu_ok (handle_mouse_drag percent s).
Proof.
  intros Hok. unfold handle_mouse_drag. destruct (ap_drag_resize s) as [d|] eqn:Hd.
  - destruct Hok as (Hl & Hrest). unfold apply_drag_weights. cbv zeta. split; [|exact Hrest].
    apply apply_pair_ok; [by apply Hrest| |done]. apply clamp_bounds. lia.
  - by repeat case_match.
Qed.
Lemma right_down_ok s : gpu_ok s → gpu_ok (handle_right_down s).
Proof.
  intros Hok. unfold handle_right_down. destruct (ap_cursor_pos s) as [px py]. cbv zeta.
  set (s1 := s <| ap_context_menu := None |>). assert (gpu_ok s1) as Hok1 by by apply no_menu_ok.
  case_match; [|done]. assert (gpu_ok (focus p s1)) as Hf by (apply (same_core s1); [apply core_focus|done]).
  destruct Hf as (?&?&?&?&?&?&_&?). do 6 (split; [done|]). split; [|done]. intros m [= <-].
  unfold viewport_rect. cbn [rw rh]. rewrite !Nat2Z.id. apply menu_new_fits. unfold CELL_W. lia.
Qed.

(** The keyboard. *)
Lemma core_spawn_pane o s : core (spawn_pane cwd o s) = core s.
Proof. done. Qed.
Lemma core_scroll n s : core (handle_scroll n s) = core s.
Proof. done. Qed.
Lemma window_key_ok k s : gpu_ok s → gpu_ok (handle_window_key cwd k s).
Proof.
  intros Hok. unfold handle_window_key. match goal with |- gpu_ok (redraw ?s') => apply (same_core s'); [done|] end.
  case_match; first [done | by apply close_focused_ok | by apply (same_core s); [apply core_move_focus|] | by apply (same_core s); [apply core_spawn_pane|]].
Qed.
Lemma commit_menu_ok s : gpu_ok s → gpu_ok (commit_context_menu cwd s).
Proof.
  intros Hok%no_menu_ok. unfold commit_context_menu. cbv zeta. case_match; [|done].
  case_match; try done; by apply close_focused_ok.
Qed.
Lemma menu_key_ok k m s s' : gpu_ok s → ap_context_menu s = Some m → menu_key cwd k m s = Some s' → gpu_ok s'.
Proof.
  intros Hok Hm. assert (∀ m', cm_width m' = cm_width m → cm_px_x m' = cm_px_x m → gpu_ok (s <| ap_context_menu := Some m' |>)) as Hmove.
  { intros m' Hw Hx. destruct Hok as (?&?&?&?&?&?&Hfit&?). do 6 (split; [done|]). split; [|done]. intros ? [= <-].
    unfold menu_fits. rewrite Hw, Hx. by apply Hfit. }
  unfold menu_key. case_match; intros [= <-]; first [by apply Hmove | by apply commit_menu_ok | by apply no_menu_ok].
Qed.
Lemma after_menu_ok now k s : gpu_ok s → gpu_ok (after_menu cwd now k s).
Proof.
  intros Hok. unfold after_menu. cbv zeta.
  case_match; [by apply (same_core s)|]. case_match; [apply (same_core s); [by rewrite core_search_input|done]|].
  case_match; [apply (same_core s); [done|done]|].
  case_match; [apply window_key_ok; by apply (same_core s)|]. case_match; [by apply (same_core s)|].
  do 2 (case_match; [by apply (same_core s); [apply core_cycle_pane|]|]). by apply (same_core s); [apply core_type_key|].
Qed.
Lemma keyboard_ok now k s : gpu_ok s → gpu_ok (handle_keyboard cwd now k s).
Proof.
  intros Hok. unfold handle_keyboard. case_match; [done|]. destruct (ap_context_menu s) as [m|] eqn:Hm; [|by apply after_menu_ok].
  destruct (menu_key cwd k m s) as [s'|] eqn:E; [|by apply after_menu_ok, no_menu_ok].
  apply (same_core s'); [done|]. by eapply menu_key_ok.
Qed.

(** What runs beside the window. *)
Lemma wait_step_ok now s : gpu_ok s → gpu_ok (wait_step now s).
Proof.
  intros Hok. unfold wait_step, about_to_wait.
  assert (gpu_ok (check_output (drain_pending_panes s))) as Hok1.
  { apply (same_core s); [|done]. by rewrite core_check_output, core_drain_pending. }
  revert Hok1. generalize (check_output (drain_pending_panes s)). clear s Hok. intros s Hok.
  destruct (poll_results (ap_search s)) as [u changed].
  assert (∀ b s', gpu_ok s' → gpu_ok (if b : bool then redraw s' else s')) as Hif by by intros [] s' Hs'.
  assert (gpu_ok (s <| ap_search := u |>)) as Hok2 by by apply (same_core s).
  apply (Hif changed) in Hok2. cbv zeta. revert Hok2. match goal with |- gpu_ok ?x → _ => generalize x end. clear s Hok. intros s Hok.
  pose proof (core_run_debounce now s) as Hd. destruct (run_debounce now s) as [s1 changed1]. cbn [fst] in Hd.
  apply (same_core _ _ Hd), (Hif changed1) in Hok. revert Hok. match goal with |- gpu_ok ?x → _ => generalize x end. clear s s1 Hd. intros s Hok.
  apply Hif. match goal with |- gpu_ok (?s' <| ap_toast_deck ::= _ |>) => apply (same_core s'); [done|] end.
  apply drain_layouts_ok. unfold drain_toasts. cbv zeta. by case_match; apply (same_core s).
Qed.
Lemma task_runs_ok n s : gpu_ok s → gpu_ok (task_runs n s).
Proof.
  intros Hok. unfold task_runs. case_match; [|done]. apply (same_core s); [|done].
  unfold run_task. case_match; try done.
  - destruct (open_pane_split req _) as [d [|]]; done.
  - by destruct (search_blocks req _).
Qed.
Lemma frame_arrives_ok pane data s : gpu_ok s → gpu_ok (frame_arrives pane data s).
Proof. intros Hok. unfold frame_arrives. by case_match; apply (same_core s). Qed.
Lemma frame_leaves_ok pane s : gpu_ok s → gpu_ok (frame_leaves pane s).1.
Proof. intros Hok. unfold frame_leaves. by repeat case_match; apply (same_core s). Qed.

(** The daemon gives layouts that are well formed. *)
Definition sound_layouts : Prop :=
  (∀ w (d : D) n, (get_window_layout w d).2 = Ok n → layout_ok n) ∧
  (∀ x (d : D) n, (get_session_layout x d).2 = Ok n → layout_ok n).
Hypothesis Hdaemon : sound_layouts.
Lemma fetch_layout_ok x d n : (fetch_layout x d).2 = Some n → layout_ok n.
Proof.
  unfold fetch_layout. destruct (list_windows x d) as [d1 r]. destruct Hdaemon as [Hw Hs].
  destruct (match r with Ok ws => _ | Err _ => None end) as [w|].
  - specialize (Hw w d1). destruct (get_window_layout w d1) as [d2 [n'|]]; cbn; intros [= <-]; by apply Hw.
  - specialize (Hs x d1). destruct (get_session_layout x d1) as [d2 [n'|]]; cbn; intros [= <-]; by apply Hs.
Qed.
Lemma push_round_ok ttl now connected p s : gpu_ok s → gpu_ok (push_round ttl now connected p s).1.1.
Proof.
  intros Hok. unfold push_round. destruct connected; [|done]. cbv zeta.
  destruct (next_pane_event _ _) as [d [events|e]]; [|by apply (same_core s)].
  destruct (last events) as [ev|]; [|by apply (same_core s)].
  case_match; [|by apply (same_core s)].
  match goal with |- context [fetch_layout ?x ?d'] => pose proof (fetch_layout_ok x d') as Hf; destruct (fetch_layout x d') as [d2 node] end.
  cbn [fst snd] in *. destruct Hok as (Hl & Hls & Hrest). split; [done|]. split; [|done].
  apply Forall_app. split; [done|]. destruct node as [n|]; [|by apply Forall_nil]. apply Forall_singleton. by apply Hf.
Qed.

Lemma first_app_ok session pane layout palette cfg now d :
  layout_ok layout → gpu_ok (first_app session pane layout palette cfg now d).
Proof.
  intros Hl. split; [done|]. split; [by apply Forall_nil|]. unfold first_app. cbn -[Z.of_nat Z.pow menu_fits].
  unfold CELL_W, CELL_H. split_and!; [lia|reflexivity|lia|reflexivity|done|done].
Qed.
Lemma first_layout_ok session pane d : layout_ok (first_layout session pane d).2.
Proof.
  destruct Hdaemon as [Hw Hs]. assert (∀ d, layout_ok (session_layout session pane d).2) as Hsession.
  { intros d'. unfold session_layout. specialize (Hs session d'). destruct (get_session_layout session d') as [d2 [n|]]; [by apply Hs|apply leaf_layout_ok]. }
  unfold first_layout. destruct (list_windows session d) as [d1 r].
  destruct (match r with Ok ws => _ | Err _ => None end) as [w|]; [|apply Hsession].
  specialize (Hw w d1). destruct (get_window_layout w d1) as [d2 [n|[|e]]]; [by apply Hw|apply leaf_layout_ok|apply Hsession].
Qed.
Lemma start_gpu_ok session pane shell shell_var vars palette cfg now d d' s :
  start_gpu cwd session pane shell shell_var vars palette cfg now d = (d', Ok s) → gpu_ok s.
Proof.
  unfold start_gpu. destruct (choose_pane _ _ _ _ _ _ _) as [d1 [[x p]|e]]; [|done].
  pose proof (first_layout_ok x p d1) as Hl. destruct (first_layout x p d1) as [d2 layout]. intros [= <- <-]. by apply first_app_ok.
Qed.

(** ** Runs *)
Context `{Fontdue} (blend : Z → Z → Z → Z) (bar_width : Toast → nat) (cache : gmap (Z * bool) CachedGlyph).
Definition draws_frame (s : App) : bool := bool_decide (is_Some (draw_frame blend bar_width s cache)).
Abbreviation step := (gpu_step percent cwd draws_frame).
Abbreviation run := (gpu_run percent cwd draws_frame).

(** The window is at least 400 pixels wide, and as wide as an open menu; a border is
    not clicked when a pane has no extent. *)
Definition gentle (e : GpuStep) (s : App) : Prop :=
  match e with
  | Window _ (Resized w h) =>
      400 <= Z.of_nat w < 2 ^ 31 ∧ Z.of_nat h < 2 ^ 31 ∧
      ∀ m, ap_context_menu s = Some m → menu_fits (grid_dims_for_window w h).1 m
  | Window _ LeftPressed => roomy s
  | _ => True
  end.
Fixpoint gentle_run (es : list GpuStep) (sp : App * PushTask) : Prop :=
  match es with
  | [] => True
  | e :: es' => if ap_exit sp.1 then True else gentle e sp.1 ∧ ∀ sp', step e sp = Some sp' → gentle_run es' sp'
  end.

Hypothesis Hcache : map_Forall (λ k g, g = rasterize k.1) cache.
Lemma gpu_ok_drawable s : gpu_ok s → drawable s.
Proof.
  intros Hok. pose proof (gpu_ok_rect _ Hok) as Hvp. destruct Hok as ([Hl _]&_&Hc&_&Hr&_&Hm&_).
  split; [by eapply all_splits_impl; [apply summable_two|]|]. split; [done|]. split; [lia|]. split; [lia|]. split; [done|].
  apply Forall_true. intros t. by apply toast_fits_wide.
Qed.
Lemma window_event_ok now e s :
  gpu_ok s → gentle (Window now e) s → ∃ s', window_event percent cwd draws_frame now e s = Some s' ∧ gpu_ok s'.
Proof.
  intros Hok Hg. destruct e as [|m|w h| |k|x y| | | | |lines]; cbn [window_event].
  - eexists; split; [done|]. by apply (same_core s).
  - eexists; split; [done|]. by apply (same_core s).
  - destruct Hg as (Hw & Hh & Hm). eexists; split; [done|]. by apply resized_ok.
  - assert (gpu_ok (drain_output s)) as Hd by (apply (same_core s); [apply core_drain_output|done]).
    cbv zeta. unfold draws_frame at 1. rewrite bool_decide_true by (by apply frame_is_drawn, gpu_ok_drawable).
    eexists; split; [done|]. by apply (same_core (drain_output s)).
  - eexists; split; [done|]. by apply keyboard_ok.
  - eexists; split; [done|]. cbv zeta. set (s1 := s <| ap_cursor_pos := _ |>). assert (gpu_ok s1) by by apply (same_core s).
    match goal with |- gpu_ok (redraw ?s') => apply (same_core s'); [done|] end. case_match; [by apply mouse_drag_ok|done].
  - destruct (handle_left_down now s) as [s'|] eqn:E.
    + cbn [fmap option_fmap option_map]. eexists; split; [done|]. apply (same_core s'); [done|]. by eapply left_down_ok.
    + exfalso. unfold handle_left_down in E. destruct (ap_cursor_pos s) as [px py]. cbv zeta in E.
      set (s1 := s <| ap_left_held := true |> <| ap_context_menu := None |>) in *.
      assert (gpu_ok s1) as Hok1 by (apply (same_core (s <| ap_context_menu := None |>)); [done|by apply no_menu_ok]).
      destruct (hit_total px py s1 Hok1 Hg) as [[drag|] Ht]; rewrite Ht in E; [done|]. cbn [mbind option_bind] in E.
      by destruct (click_record _ _ _).
  - eexists; split; [done|]. apply (same_core (handle_left_up percent s)); [done|]. by apply left_up_ok.
  - eexists; split; [done|]. apply (same_core (handle_right_down s)); [done|]. by apply right_down_ok.
  - eexists; split; [done|]. by apply (same_core s).
  - eexists; split; [done|]. cbv zeta. apply (same_core (s <| ap_context_menu := None |>)); [by case_match|by apply no_menu_ok].
Qed.
Lemma gpu_step_ok e sp : gpu_ok sp.1 → gentle e sp.1 → ∃ sp', step e sp = Some sp' ∧ gpu_ok sp'.1.
Proof.
  destruct sp as [s p]. cbn [fst]. intros Hok Hg. destruct e as [now e|now|n|pane data|pane|ttl now c]; cbn [gpu_step].
  - destruct (window_event_ok now e s Hok Hg) as (s' & -> & Hs'). by eexists.
  - eexists; split; [done|]. by apply wait_step_ok.
  - eexists; split; [done|]. by apply task_runs_ok.
  - eexists; split; [done|]. by apply frame_arrives_ok.
  - eexists; split; [done|]. by apply frame_leaves_ok.
  - eexists; split; [done|]. by apply push_round_ok.
Qed.
Lemma gpu_run_ok es sp : gpu_ok sp.1 → gentle_run es sp → ∃ sp', run es sp = Some sp' ∧ gpu_ok sp'.1.
Proof.
  revert sp. induction es as [|e es IH]; intros sp Hok Hg; cbn [gpu_run]; [by eexists|].
  cbn [gentle_run] in Hg. destruct (ap_exit sp.1); [by eexists|]. destruct Hg as [Hg Hes].
  destruct (gpu_step_ok e sp Hok Hg) as (sp' & Hsp' & Hok'). rewrite Hsp'. cbn [mbind option_bind]. by apply IH, Hes.
Qed.
End Inv.

(** ** What reaches the terminals *)
Section Output.
Context `{UuidText, HashOrder, GpuTerm} {D : Type} `{!PyreDaemon D}.
Abbreviation App := (App D).

(** The bytes a terminal was given, those it still holds back last. *)
Definition op_bytes (op : TermOp) : Bytes := match op with Advance data => data | _ => [] end.
Definition shown (v : TermView) : Bytes := flat_map op_bytes (tm_ops (tv_term v)) ++ tv_pending_output v.
(** Nothing is held back once the size is known. *)
Definition view_ok (v : TermView) : Prop := tv_parser_sized v = true → tv_pending_output v = [].

Lemma shown_advance data v : tv_pending_output v = [] → shown (processor_advance data v) = shown v ++ data.
Proof. intros Hp. unfold shown. cbn. rewrite Hp, flat_map_app. cbn. by rewrite !app_nil_r. Qed.
Lemma push_bytes_shown data v : view_ok v → shown (push_bytes data v) = shown v ++ data ∧ view_ok (push_bytes data v).
Proof.
  intros Hv. unfold push_bytes. destruct (tv_parser_sized v) eqn:E.
  - split; [by apply shown_advance, Hv|]. intros _. by apply Hv.
  - split; [unfold shown; cbn; by rewrite app_assoc|]. intros Hs. cbn in Hs. by rewrite E in Hs.
Qed.
Lemma flush_pending_shown v : view_ok v → shown (flush_pending v) = shown v ∧ view_ok (flush_pending v).
Proof.
  intros Hv. unfold flush_pending. destruct (tv_parser_sized v) eqn:E; [done|]. cbv zeta. cbn [tv_pending_output].
  change (tv_pending_output (v <| tv_parser_sized := true |>)) with (tv_pending_output v).
  destruct (decide (tv_pending_output v = [])) as [Hp|Hp]; [split; [done|by intros _]|].
  split; [|by intros _]. rewrite shown_advance by done. unfold shown. cbn. by rewrite app_nil_r.
Qed.
Lemma push_chunks_shown chunks v :
  view_ok v → shown (fold_left (λ v c, push_bytes c v) chunks v) = shown v ++ concat chunks ∧
  view_ok (fold_left (λ v c, push_bytes c v) chunks v).
Proof.
  revert v. induction chunks as [|c chunks IH]; intros v Hv; cbn [fold_left concat]; [by rewrite app_nil_r|].
  destruct (push_bytes_shown c v Hv) as [Hs Hv']. destruct (IH _ Hv') as [-> ?]. by rewrite Hs, app_assoc.
Qed.

Lemma drain_pane_other pane p h (s : App) : p ≠ pane → ap_terms (drain_pane p h s) !! pane = ap_terms s !! pane.
Proof. intros Hne. unfold drain_pane. case_match; [|done]. destruct (drain_pty_replies _). by apply lookup_insert_ne. Qed.
Lemma drain_pane_shown pane h (s : App) v :
  ap_terms s !! pane = Some v → view_ok v →
  ∃ v', ap_terms (drain_pane pane h s) !! pane = Some v' ∧ view_ok v' ∧ shown v' = shown v ++ concat (hd_output h).
Proof.
  intros Hv Hok. unfold drain_pane. rewrite Hv. destruct (push_chunks_shown (hd_output h) v Hok) as [Hs Hok1].
  destruct (flush_pending_shown _ Hok1) as [Hs2 Hok2]. unfold drain_pty_replies. eexists. split; [apply lookup_insert_eq|].
  split; [exact Hok2|]. by rewrite <- Hs, <- Hs2.
Qed.
Lemma fold_drain_other pane l (s : App) :
  pane ∉ l.*1 → ap_terms (fold_left (λ s '(p, h), drain_pane p h s) l s) !! pane = ap_terms s !! pane.
Proof.
  revert s. induction l as [|[p h] l IH]; intros s Hn; [done|]. cbn in Hn. apply not_elem_of_cons in Hn as [Hp Hl].
  cbn [fold_left]. by rewrite IH, drain_pane_other.
Qed.
Lemma fold_drain_shown pane h l (s : App) v :
  NoDup l.*1 → (pane, h) ∈ l → ap_terms s !! pane = Some v → view_ok v →
  ∃ v', ap_terms (fold_left (λ s '(p, h), drain_pane p h s) l s) !! pane = Some v' ∧ view_ok v' ∧ shown v' = shown v ++ concat (hd_output h).
Proof.
  revert s v. induction l as [|[p hp] l IH]; intros s v Hnd Hin Hv Hok; [by apply not_elem_of_nil in Hin|].
  cbn in Hnd. apply NoDup_cons in Hnd as [Hp Hnd]. cbn [fold_left]. apply elem_of_cons in Hin as [[= <- <-]|Hin].
  - rewrite fold_drain_other by done. by apply drain_pane_shown.
  - apply IH; [done|done| |done]. rewrite drain_pane_other; [done|]. intros ->. apply Hp.
    apply list_elem_of_fmap. by exists (pane, h).
Qed.
Lemma streams_in_order (m : gmap PaneId StreamHandle) :
  NoDup (hash_order (map_to_list m)).*1 ∧ ∀ p h, (p, h) ∈ hash_order (map_to_list m) ↔ m !! p = Some h.
Proof.
  split; [rewrite hash_order_perm; apply NoDup_fst_map_to_list|]. intros p h. by rewrite hash_order_perm, elem_of_map_to_list.
Qed.

(** All the output of a pane reaches its terminal, in order, whatever order the map
    has. *)
Lemma drain_output_shown pane h (s : App) v :
  ap_streams s !! pane = Some h → ap_terms s !! pane = Some v → view_ok v →
  ∃ v', ap_terms (drain_output s) !! pane = Some v' ∧ view_ok v' ∧ shown v' = shown v ++ concat (hd_output h).
Proof.
  intros Hh Hv Hok. destruct (streams_in_order (ap_streams s)) as [Hnd Hin].
  by apply fold_drain_shown; [|apply Hin| |].
Qed.

Lemma take_chunk_only pane h c rest l :
  hd_output h = c :: rest → (pane, h) ∈ l → (∀ q hq, (q, hq) ∈ l → (q, hq) = (pane, h) ∨ hd_output hq = []) →
  take_chunk l = Some (pane, h <| hd_output := rest |>).
Proof.
  intros Hh. induction l as [|[q hq] l IH]; intros Hin Hall; [by apply not_elem_of_nil in Hin|]. cbn [take_chunk].
  destruct (Hall q hq) as [[= -> ->]|Hq]; [by left|by rewrite Hh|]. rewrite Hq. apply IH.
  - apply elem_of_cons in Hin as [[= <- <-]|Hin]; [by rewrite Hh in Hq|done].
  - intros q' hq' Hin'. apply Hall. by right.
Qed.
Definition receive (chunks : list Bytes) (h : StreamHandle) : StreamHandle := h <| hd_output ::= (.++ chunks) |>.
Lemma arrivals pane chunks (s : App) :
  Forall (λ c, c ≠ []) chunks →
  fold_left (λ s c, frame_arrives pane c s) chunks s = s <| ap_streams ::= alter (receive chunks) pane |>.
Proof.
  assert (∀ (s : App) f, (∀ h, f h = h) → s = s <| ap_streams ::= alter f pane |>) as Hid.
  { intros s0 f Hf. transitivity (s0 <| ap_streams := alter f pane (ap_streams s0) |>); [|done]. rewrite alter_id by by intros. by destruct s0. }
  assert (∀ (s : App) f g h, (∀ x, h x = g (f x)) →
    s <| ap_streams ::= alter f pane |> <| ap_streams ::= alter g pane |> = s <| ap_streams ::= alter h pane |>) as Hcomp.
  { intros s0 f g h Hh. transitivity (s0 <| ap_streams := alter g pane (alter f pane (ap_streams s0)) |>); [done|].
    assert (alter g pane (alter f pane (ap_streams s0)) = alter h pane (ap_streams s0)) as ->; [|done].
    rewrite alter_alter_eq. apply alter_ext. intros; cbn. by rewrite Hh. }
  revert s. induction chunks as [|c chunks IH]; intros s Hc; cbn [fold_left].
  - apply Hid. intros [out inp]. unfold receive. change (MkHandle (out ++ []) inp = MkHandle out inp). by rewrite app_nil_r.
  - apply Forall_cons in Hc as [Hc Hcs]. rewrite IH by done. unfold frame_arrives. rewrite decide_False by done.
    apply Hcomp. intros [out inp]. unfold receive. change (MkHandle (out ++ c :: chunks) inp = MkHandle ((out ++ [c]) ++ chunks) inp).
    by rewrite <- app_assoc.
Qed.

(** Waiting leaves the terminals as they are, and of the streams takes what
    [check_output] takes. *)
Lemma wait_step_output now (s : App) :
  ap_pending_panes s = [] → ap_layout_rx s = [] →
  ap_terms (wait_step now s) = ap_terms s ∧ ap_streams (wait_step now s) = ap_streams (check_output s).
Proof.
  intros Hp Hl. assert (ap_terms (check_output s) = ap_terms s ∧ ap_layout_rx (check_output s) = []) as [Ht Hl'].
  { unfold check_output. by destruct (take_chunk _) as [[??]|]. }
  assert (drain_pending_panes s = s) as Hd.
  { unfold drain_pending_panes. rewrite Hp. destruct s. cbn in *. by subst. }
  unfold wait_step. rewrite Hd, <- Ht. unfold about_to_wait. revert Hl'. generalize (check_output s). clear. intros s Hl.
  destruct (poll_results (ap_search s)) as [u changed]. cbv zeta.
  set (s1 := if changed then _ else _).
  assert (ap_terms s1 = ap_terms s ∧ ap_streams s1 = ap_streams s ∧ ap_layout_rx s1 = []) as (<- & <- & Hl1).
  { by subst s1; destruct changed. }
  clearbody s1. clear s Hl u changed.
  destruct (run_debounce now s1) as [s2 changed] eqn:E.
  assert (ap_terms s2 = ap_terms s1 ∧ ap_streams s2 = ap_streams s1 ∧ ap_layout_rx s2 = []) as (<- & <- & Hl2).
  { unfold run_debounce in E. destruct (tick_debounce _ _ _) as [[u req] ch]. injection E as <- <-. by destruct req. }
  clear E s1 Hl1. unfold drain_toasts, drain_layout_updates. cbv zeta.
  destruct changed; cbn [redraw]; repeat case_match; subst; try done; match goal with
  | E : last ?l = Some _ |- _ => exfalso; cbn in E; by rewrite Hl2 in E
  end.
Qed.

(** What a redraw finds after frames came to one pane and the loop waited. *)
Lemma burst_then_wait pane h c rest now (s : App) :
  ap_pending_panes s = [] → ap_layout_rx s = [] → ap_streams s !! pane = Some h →
  map_Forall (λ _ h, hd_output h = []) (ap_streams s) → Forall (λ c, c ≠ []) (c :: rest) →
  let s' := wait_step now (fold_left (λ s c, frame_arrives pane c s) (c :: rest) s) in
  ap_terms s' = ap_terms s ∧ ap_streams s' !! pane = Some (h <| hd_output := rest |>).
Proof.
  intros Hp Hl Hh Hall Hc. rewrite arrivals by done. set (s1 := s <| ap_streams ::= _ |>).
  destruct (wait_step_output now s1 Hp Hl) as [Ht Hs]. cbv zeta. rewrite Ht, Hs. split; [done|].
  assert (ap_streams s1 !! pane = Some (receive (c :: rest) h)) as Hpane.
  { subst s1. cbn. by rewrite lookup_alter_eq, Hh. }
  destruct (streams_in_order (ap_streams s1)) as [_ Hin]. unfold check_output.
  assert (hd_output (receive (c :: rest) h) = c :: rest) as Hout by (cbn; by rewrite (Hall _ _ Hh)).
  rewrite (take_chunk_only pane _ _ _ _ Hout); [|by apply Hin|].
  - cbn -[receive]. rewrite lookup_insert_eq. by destruct h.
  - intros q hq Hq%Hin. subst s1. cbn in Hq. destruct (decide (q = pane)) as [->|Hne].
    + left. cbn in Hpane. rewrite Hpane in Hq. by injection Hq as <-.
    + right. rewrite lookup_alter_ne in Hq by done. by eapply Hall.
Qed.
End Output.

(** ** Properties *)


(** C17: frames that come to a pane between two redraws, when every stream was read,
    reach its terminal in order, except the first: the loop looks for output with
    [try_recv], which takes the chunk it finds. *)
Theorem burst_loses_first_chunk `{UuidText, HashOrder, GpuTerm} {D : Type} `{!PyreDaemon D} pane h v c rest now (s : App D)
    (Hpending : ap_pending_panes s = []) (Hlayouts : ap_layout_rx s = [])
    (Hstream : ap_streams s !! pane = Some h) (Hterm : ap_terms s !! pane = Some v) (Hview : view_ok v)
    (Hread : map_Forall (λ _ h, hd_output h = []) (ap_streams s)) (Hchunks : Forall (λ c, c ≠ []) (c :: rest)) :
  ∃ v', ap_terms (drain_output (wait_step now (fold_left (λ s c, frame_arrives pane c s) (c :: rest) s))) !! pane = Some v' ∧
    shown v' = shown v ++ concat rest.
Proof.
  destruct (burst_then_wait pane h c rest now s Hpending Hlayouts Hstream Hread Hchunks) as [Ht Hs].
  destruct (drain_output_shown pane _ _ v Hs) as (v' & Hv' & _ & Hshown); [by rewrite Ht|done|]. by exists v'.
Qed.

(** Enter in the search overlay asks the daemon nothing, and forgets the query. *)
Theorem enter_discards_query now ticket k u :
  ke_pressed k = true → ke_phys k = PhEnter → su_open u = true →
  (search_key now ticket k u).2 = None ∧ su_pending_query (search_key now ticket k u).1 = None.
Proof.
  intros Hk Hp Hu. unfold search_key. rewrite Hk, Hp. cbn [negb]. destruct u. cbn in Hu. subst. by split.
Qed.

(** ** Concrete runs *)
(** Events that are gentle in every state. *)
Definition harmless (e : GpuStep) : Prop :=
  match e with Window _ (Resized _ _) | Window _ LeftPressed => False | _ => True end.
Lemma harmless_run `{Fontdue, UuidText, HashOrder, GpuTerm} {D : Type} `{!PyreDaemon D} percent cwd blend bar_width cache es (sp : App D * PushTask) :
  Forall harmless es → gentle_run percent cwd blend bar_width cache es sp.
Proof.
  intros Hes. revert sp. induction Hes as [|e es He _ IH]; intros sp; cbn [gentle_run]; [done|].
  destruct (ap_exit sp.1); [done|]. split; [|by intros sp' _]. by destruct e as [now []| | | | |].
Qed.

#[local] Existing Instances binary_uuid lone_daemon.
#[local] Instance in_map_order : HashOrder := {| hash_order := λ _ l, l; hash_order_perm := λ _ l, Permutation_refl l |}.
(** A font without ink, and a terminal that shows nothing. *)
#[local] Instance no_ink : Fontdue := {| rasterize := λ _, MkGlyph 0 0 0 0 []; rasterize_size := λ _, eq_refl |}.
#[local] Instance blank_term : GpuTerm :=
  {| cell_at := λ _ _ _, MkTermCell 32 (Named Foreground) (Named Background) false; display_offset := λ _, 0;
     pty_writes := λ _ _, []; is_alphanumeric := λ _, false |}.
Lemma lone_layouts : sound_layouts (D := nat).
Proof. split; intros ? ? ? [=]. Qed.
Definition at_gpu_start : App nat :=
  first_app (MkSessionId 1) (MkPaneId 2) (Leaf (MkPaneId 2)) ember_PALETTE default_notifications 0 0%nat.
Definition press (p : Phys) : GpuStep := Window 0 (KeyboardInput (MkKey true p LOther)).
(** A larger window; the menu, a split from it, a search, a tab; what the daemon says. *)
Definition a_gpu_run : list GpuStep :=
  [Window 0 (Resized 1280 800); Window 0 RedrawRequested; Window 0 (CursorMoved 30 40); Window 0 RightPressed; press PhDown;
   press PhDown; Window 0 RedrawRequested; press PhEnter; TaskRuns 0; FrameIn (MkPaneId 2) [x41]; Wait 5; Window 0 RedrawRequested;
   Push 4000 6 true; Window 0 (ModifiersChanged (MkMods true false)); press PhSlash; press PhTab; Window 0 RedrawRequested;
   press PhEnter; Wait 200000000; Window 0 (MouseWheel 3); Window 0 RedrawRequested].


Lemma burst_loses_first_chunk_witness :
  ∃ v', ap_terms (drain_output (wait_step 5 (fold_left (λ s c, frame_arrives (MkPaneId 2) c s) [[x41]; [x42; x43]] at_gpu_start))) !! MkPaneId 2 = Some v' ∧
    shown v' = [x42; x43].
Proof.
  apply (@burst_loses_first_chunk binary_uuid in_map_order blank_term nat lone_daemon (MkPaneId 2) (MkHandle [] []) (TermView_new 80 24) [x41] [[x42; x43]] 5 at_gpu_start); try reflexivity.
  - intros Hs. discriminate Hs.
  - intros p h Hp. vm_compute in Hp. by repeat case_match; simplify_eq.
  - by repeat constructor.
Defined.

(** ** The connection behind a pane
    [open_stream] starts a task that bridges a pane's stream to two channels
    ([stream_bridge]) and opens the stream again whenever it ends, until the handle is
    dropped. *)
Module GpuStream.

(** Where the task is: in [attach_stream], in the loop of [stream_bridge], or over. *)
Inductive Phase := Attaching | Bridging | Over.
#[export] Instance Phase_eq_dec : EqDecision Phase.
Proof. solve_decision. Defined.

Record Bridge := MkBridge {
  br_phase : Phase;
  br_handle : bool;                  (** the handle is alive: its three channel ends *)
  br_input : list Bytes;             (** typed and not yet taken by the task *)
  br_taken : list (Bytes * bool);    (** taken, and whether it was written *)
  br_output : list Bytes;            (** sent to the view *)
  br_attaches : nat }.               (** calls of [attach_stream] *)
Definition open_stream : Bridge := MkBridge Attaching true [] [] [] 1.

(** What happens: the view's side, the end of [attach_stream], and the three arms of the
    [select!]. *)
Inductive Event :=
  | Typed (data : Bytes)
  | Dropped
  | Attached (ok : bool)
  | Cancelled
  | Frame (f : option (result unit Bytes))
  | InputTaken (written : bool).

(** The bridge has returned: the loop goes on unless the handle is gone. *)
Definition ended (b : Bridge) : Bridge :=
  if br_handle b then b <| br_phase := Attaching |> <| br_attaches ::= S |> else b <| br_phase := Over |>.

(** [None]: the event cannot happen. *)
Definition step (e : Event) (b : Bridge) : option Bridge :=
  match e, br_phase b with
  | Typed data, _ => if br_handle b then Some (b <| br_input ::= (.++ [data]) |>) else None
  | Dropped, _ => if br_handle b then Some (b <| br_handle := false |>) else None
  | Attached true, Attaching => Some (b <| br_phase := Bridging |>)
  | Attached false, Attaching => Some (ended b)
  | Cancelled, Bridging => if br_handle b then None else Some (ended b)
  | Frame (Some (Ok data)), Bridging =>
      Some (if br_handle b && negb (bool_decide (data = [])) then b <| br_output ::= (.++ [data]) |> else b)
  | Frame (Some (Err _)), Bridging | Frame None, Bridging => Some (ended b)
  | InputTaken written, Bridging =>
      match br_input b with
      | data :: rest =>
          let b := b <| br_input := rest |> <| br_taken ::= (.++ [(data, written)]) |> in
          Some (if written then b else ended b)
      | [] => if br_handle b then None else Some (ended b)
      end
  | _, _ => None
  end.
Fixpoint steps (es : list Event) (b : Bridge) : option Bridge :=
  match es with [] => Some b | e :: es' => b' ← step e b; steps es' b' end.

(** What the view was typed into, and what it was sent, read off the events. *)
Definition typed (es : list Event) : list Bytes := omap (λ e, match e with Typed d => Some d | _ => None end) es.
Definition frames (es : list Event) : list Bytes :=
  omap (λ e, match e with Frame (Some (Ok d)) => if decide (d = []) then None else Some d | _ => None end) es.
Definition lost (l : list (Bytes * bool)) : nat := length (filter (λ p, p.2 = false) l).

#[local] Arguments lost : simpl never.
#[local] Arguments typed : simpl never.
#[local] Arguments frames : simpl never.

(** ** Lemmas *)
Ltac set_eval := cbn; unfold const; cbn.

(** The invariant: a task is over only when its handle is gone, every byte taken was
    typed, and each connection that is over lost at most one input. *)
Definition ok (es : list Event) (b : Bridge) : Prop :=
  typed es = (br_taken b).*1 ++ br_input b ∧
  br_output b `prefix_of` frames es ∧ (br_handle b = true → br_output b = frames es) ∧
  (br_phase b = Over → br_handle b = false) ∧
  (br_phase b ≠ Over → lost (br_taken b) < br_attaches b)%nat ∧ (lost (br_taken b) ≤ br_attaches b)%nat.

Lemma lost_app l1 l2 : lost (l1 ++ l2) = (lost l1 + lost l2)%nat.
Proof. unfold lost. by rewrite filter_app, length_app. Qed.
Lemma typed_app es e : typed (es ++ [e]) = typed es ++ match e with Typed d => [d] | _ => [] end.
Proof. unfold typed. rewrite omap_app. by destruct e. Qed.
Lemma frames_app es e :
  frames (es ++ [e]) = frames es ++ match e with Frame (Some (Ok d)) => if decide (d = []) then [] else [d] | _ => [] end.
Proof. unfold frames. rewrite omap_app. f_equal. destruct e as [| | | |[[]|]|]; try done. cbn. by case_decide. Qed.
(** When a bridge ends the task attaches again or is over. *)
Lemma ended_ok es b :
  typed es = (br_taken b).*1 ++ br_input b → br_output b `prefix_of` frames es → (br_handle b = true → br_output b = frames es) →
  (lost (br_taken b) ≤ br_attaches b)%nat → ok es (ended b).
Proof.
  intros Ht Hp Ho Hl. unfold ended, ok. destruct (br_handle b) eqn:E; set_eval; rewrite ?E; split_and!; try done; try (by intros); intros; lia.
Qed.
Ltac finish := repeat match goal with H : br_phase ?b = _ |- _ => rewrite H | H : br_handle ?b = _ |- _ => rewrite H end; naive_solver.
Lemma step_keeps es e b b' : ok es b → step e b = Some b' → ok (es ++ [e]) b'.
Proof.
  intros (Ht & Hp & Ho & Hover & Hl & Hle) Hs. unfold step in Hs.
  assert (frames es `prefix_of` frames (es ++ [e])) as Hgrow by (rewrite frames_app; by apply prefix_app_r).
  assert (∀ b1, ended b1 = b' → br_taken b1 = br_taken b → br_input b1 = br_input b → br_output b1 = br_output b →
            br_handle b1 = br_handle b → br_attaches b1 = br_attaches b → typed (es ++ [e]) = typed es →
            (br_handle b = true → frames (es ++ [e]) = frames es) → ok (es ++ [e]) b') as Hend.
  { intros b1 <- E1 E2 E3 E4 E5 E6 E7. apply ended_ok; rewrite ?E1, ?E2, ?E3, ?E4, ?E5, ?E6; try done; [by etrans|].
    intros Hh. rewrite E7 by done. by apply Ho. }
  destruct e as [data| |ok0| |f|written].
  - destruct (br_handle b) eqn:Eh; [|by destruct (br_phase b)]. assert (Some (b <| br_input ::= (.++ [data]) |>) = Some b') as [= <-] by (by destruct (br_phase b)).
    unfold ok. set_eval. rewrite typed_app, frames_app, app_nil_r, Ht, app_assoc. split_and!; finish.
  - destruct (br_handle b) eqn:Eh; [|by destruct (br_phase b)]. assert (Some (b <| br_handle := false |>) = Some b') as [= <-] by (by destruct (br_phase b)).
    unfold ok. set_eval. rewrite typed_app, frames_app, !app_nil_r. split_and!; finish.
  - destruct ok0, (br_phase b) eqn:Ep; try done; injection Hs as <-.
    + unfold ok. set_eval. rewrite typed_app, frames_app, !app_nil_r. split_and!; finish.
    + apply (Hend b); try done; by rewrite ?typed_app, ?frames_app, ?app_nil_r.
  - destruct (br_phase b) eqn:Ep; try done. destruct (br_handle b) eqn:Eh; [done|]. injection Hs as <-.
    apply (Hend b); try done; rewrite ?Eh; try done; by rewrite typed_app, app_nil_r.
  - destruct f as [[data|[]]|]; destruct (br_phase b) eqn:Ep; try done; injection Hs as <-.
    2, 3: apply (Hend b); try done; by rewrite ?typed_app, ?frames_app, ?app_nil_r.
    destruct (br_handle b) eqn:Eh; cbn [andb].
    + destruct (bool_decide (data = [])) eqn:Ed; [apply bool_decide_eq_true in Ed as ->|apply bool_decide_eq_false in Ed];
        unfold ok; set_eval; rewrite typed_app, frames_app, ?app_nil_r; cbn.
      * rewrite ?app_nil_r. split_and!; finish.
      * rewrite ?decide_False by done. rewrite (Ho eq_refl). split_and!; finish.
    + unfold ok. rewrite typed_app, app_nil_r. split_and!; try (by etrans); finish.
  - destruct (br_phase b) eqn:Ep; try done. specialize (Hl ltac:(done)). destruct (br_input b) as [|data rest] eqn:Ei.
    + destruct (br_handle b) eqn:Eh; [done|]. injection Hs as <-. apply (Hend b); rewrite ?Eh; try done; by rewrite typed_app, app_nil_r.
    + set (b1 := b <| br_input := rest |> <| br_taken ::= (.++ [(data, written)]) |>) in *.
      assert (typed (es ++ [InputTaken written]) = (br_taken b1).*1 ++ br_input b1) as Ht'.
      { unfold b1. set_eval. rewrite typed_app, app_nil_r, Ht, fmap_app, <- app_assoc. done. }
      assert (lost (br_taken b1) = (lost (br_taken b) + if written then 0 else 1)%nat) as Hlost
        by (unfold b1; set_eval; rewrite lost_app; by destruct written).
      assert (br_output b1 `prefix_of` frames (es ++ [InputTaken written]) ∧
              (br_handle b1 = true → br_output b1 = frames (es ++ [InputTaken written]))) as [Hp1 Ho1].
      { rewrite frames_app, app_nil_r. by unfold b1. }
      assert (br_attaches b1 = br_attaches b) as Ha by done.
      destruct written; injection Hs as <-; [|apply ended_ok; [done..|lia]].
      split_and!; [done..| | |]; rewrite ?Ha, ?Hlost; [|intros|]; try lia. unfold b1. set_eval. by rewrite Ep.
Qed.
Lemma steps_keep es es' b b' : ok es b → steps es' b = Some b' → ok (es ++ es') b'.
Proof.
  revert es b. induction es' as [|e es' IH]; intros es b Hok Hs; cbn [steps] in Hs; [injection Hs as <-; by rewrite app_nil_r|].
  destruct (step e b) as [b1|] eqn:E; [|done]. cbn in Hs. replace (es ++ e :: es') with ((es ++ [e]) ++ es') by (by rewrite <- app_assoc).
  eapply IH; [by eapply step_keeps|done].
Qed.
Lemma open_ok : ok [] open_stream.
Proof. unfold ok. cbn. change (lost []) with 0%nat. split_and!; try done; lia. Qed.

(** ** Properties *)

(** What is typed into a pane leaves in order, over however many connections: taken or
    still queued, and of what was taken at most one input was lost per connection. While
    the handle is alive the view has every frame that was not empty, in order; and the
    task is over only when the handle was dropped. *)
Theorem bridge_keeps_order es b : steps es open_stream = Some b →
  typed es = (br_taken b).*1 ++ br_input b ∧ (lost (br_taken b) ≤ br_attaches b)%nat ∧
  (br_handle b = true → br_output b = frames es) ∧ (br_phase b = Over → br_handle b = false).
Proof. intros Hs. destruct (steps_keep [] es _ _ open_ok Hs) as (Ht & _ & Ho & Hover & _ & Hl). by split_and!. Qed.

(** Dropping the handle ends the task: it has at most to attach and see that it was cancelled. *)
Theorem dropping_ends b : br_handle b = false → br_phase b ≠ Over →
  ∃ es b', (length es ≤ 2)%nat ∧ steps es b = Some b' ∧ br_phase b' = Over.
Proof.
  intros Hh Hp. destruct (br_phase b) eqn:E; [| |done].
  - exists [Attached true; Cancelled]. eexists. split; [cbn; lia|]. cbn [steps step]. rewrite E. cbn. rewrite Hh. cbn.
    split; [done|]. unfold ended. set_eval. by rewrite Hh.
  - exists [Cancelled]. eexists. split; [cbn; lia|]. cbn [steps step]. rewrite E, Hh. cbn.
    split; [done|]. unfold ended. set_eval. by rewrite Hh.
Qed.

(** A pane that is gone is attached to over and over: the daemon closes the connection,
    and nothing delays the next one. *)
Theorem dead_pane_spins n :
  ∃ b, steps (concat (replicate n [Attached true; Frame None])) open_stream = Some b ∧ br_attaches b = S n ∧ br_phase b = Attaching.
Proof.
  assert (∀ k b, br_phase b = Attaching → br_handle b = true → br_attaches b = k →
            ∃ b', steps (concat (replicate n [Attached true; Frame None])) b = Some b' ∧ br_attaches b' = (n + k)%nat ∧ br_phase b' = Attaching)
    as Hloop.
  { induction n as [|n IH]; intros k b Hp Hh Hk; [by exists b|]. destruct b as [ph h inp tk out a]. cbn in Hp, Hh, Hk. subst ph h k.
      destruct (IH (S a) (MkBridge Attaching true inp tk out (S a))) as (b' & Hs & Ha & Hp'); [done..|].
      exists b'. split; [exact Hs|]. split; [lia|done]. }
  destruct (Hloop 1%nat open_stream) as (b & Hs & Ha & Hp); [done..|]. exists b. split; [exact Hs|]. split; [lia|done].
Qed.

(** A stream opened again starts with the snapshot again: what the pane shows comes twice. *)
Example snapshot_comes_twice :
  option_map br_output (steps [Attached true; Frame (Some (Ok [x61])); Frame None; Attached true; Frame (Some (Ok [x61]))] open_stream)
    = Some [[x61]; [x61]].
Proof. reflexivity. Qed.
End GpuStream.
