(* ===== verification/Github.v ===== *)
(** * Github: the GitHub account of the desktop GUI (gui/src-tauri/src/github.rs)

    The device flow that obtains a token, the file the token is kept in, the account
    and the state of a branch's pull request. The network is the class [Network], the
    parser of JSON texts an argument; the record [Io] tells which system calls fail. *)
From Stdlib Require Import Strings.Byte.
From coqutil Require Export Datatypes.RecordSettersUsingExistingGetters.
From S2P Require Import Prelude Proto Text Layout Libraries Effects Store Json.
Local Open Scope Z_scope.

(** ** The network and the system *)
Inductive HttpMethod := Get | Post.
Record HttpRequest := MkHttp {
  hq_method : HttpMethod; hq_url : string; hq_headers : list (string * string); hq_form : list (string * string) }.
(** The body may fail to be read. *)
Record HttpResponse := MkResponse { hr_status : Z; hr_body : result string string }.
Class Network (N : Type) := { http_send : HttpRequest → N → N * result string HttpResponse }.

(** [None]: the call succeeds. A write that fails leaves a part of the data. *)
Record Io := MkIo {
  io_client : option string;                      (** building the HTTP client *)
  io_mkdir : option string;
  io_chmod : bool;
  io_open : option string;
  io_write : option (nat * string);
  io_read : bool;
  io_remove : bool;
  io_umask : Z }.
Record Vars := MkVars { va_client_id : option string; va_config_home : option string; va_home : option string }.

Record TokenFile := MkTokenFile { tf_data : Bytes; tf_mode : Z }.
(** The GUI's side of the account: the directory's mode and the token file, where they
    exist, and the managed [GithubState]. *)
Record Github {N : Type} := MkGithub {
  gh_net : N;
  gh_dir : option Z;
  gh_file : option TokenFile;
  gh_device_code : option string }.
Arguments Github : clear implicits.

(** ** Constants and paths *)
Definition DEFAULT_CLIENT_ID : string := "Ov23li1g0XoYJex02nIG".
Definition GITHUB_SCOPE : string := "read:user".
Definition client_id (v : Vars) : string := default DEFAULT_CLIENT_ID (va_client_id v).
Definition token_path (v : Vars) : PathBuf :=
  let base := match va_config_home v with Some d => d | None => Store.path_join (default "" (va_home v)) ".config" end in
  Store.path_join (Store.path_join base "pyre") "github-token".

(** ** The answers of GitHub *)
Record DeviceStart := MkDeviceStart { ds_user_code : string; ds_verification_uri : string; ds_expires_in : Z; ds_interval : Z }.
Inductive PollState := PsPending | PsAuthorized | PsDenied | PsExpired | PsSlowDown.
Record Account := MkAccount { ac_login : string; ac_name : option string; ac_avatar_url : string; ac_html_url : string }.
Inductive PollResult := PrPending | PrAuthorized (token : string) | PrDenied | PrExpired | PrSlowDown.
Inductive CiState := CiSuccess | CiFailure | CiPending | CiRunning | CiNone.
Record PrCiInfo := MkPrCi { pr_number : option Z; pr_url : option string; pr_state : CiState }.

Section Parsers.
Context (from_str : string → result string Json).

Definition parsed (what text : string) : result string Json :=
  result_map_err (λ e, what +:+ " response parse error: " +:+ e) (from_str text).
Definition parse_device_start (text : string) : result string (DeviceStart * string) :=
  let str v key := ok_or (as_str (index v key)) ("device/code response: missing " +:+ key) in
  let num v key := let? n := ok_or (as_u64 (index v key)) ("device/code response: missing " +:+ key) in Ok (wrap_u32 n) in
  let? v := parsed "device/code" text in
  let? device_code := str v "device_code" in
  let? user_code := str v "user_code" in
  let? verification_uri := str v "verification_uri" in
  let? expires_in := num v "expires_in" in
  let? interval := num v "interval" in
  Ok (MkDeviceStart user_code verification_uri expires_in interval, device_code).

Definition parse_error (v : Json) : result string PollResult :=
  let error := default "" (as_str (index v "error")) in
  if bool_decide (error = "authorization_pending") then Ok PrPending
  else if bool_decide (error = "slow_down") then Ok PrSlowDown
  else if bool_decide (error = "expired_token") then Ok PrExpired
  else if bool_decide (error = "access_denied") then Ok PrDenied
  else if bool_decide (error = "") then Err "access_token response has neither access_token nor error field"
  else Err (default error (as_str (index v "error_description"))).
Definition parse_poll (text : string) : result string PollResult :=
  let? v := parsed "access_token" text in
  match as_str (index v "access_token") with
  | Some token => if decide (token = "") then parse_error v else Ok (PrAuthorized token)
  | None => parse_error v
  end.

Definition parse_account (text : string) : result string Account :=
  let str v key := ok_or (as_str (index v key)) ("user response: missing " +:+ key) in
  let? v := parsed "user" text in
  let? login := str v "login" in
  let name := as_str (index v "name") in
  let? avatar_url := str v "avatar_url" in
  let? html_url := str v "html_url" in
  Ok (MkAccount login name avatar_url html_url).

Definition ok {A} (r : result string A) : option A := match r with Ok a => Some a | Err _ => None end.
Definition parse_pulls (text : string) : option (Z * string * string) :=
  v ← ok (from_str text);
  prs ← as_array v;
  pr ← head prs;
  number ← as_u64 (index pr "number");
  url ← as_str (index pr "html_url");
  sha ← as_str (index (index pr "head") "sha");
  Some (wrap_u32 number, url, sha).

(** What the loop over the runs has seen. *)
Record Seen := MkSeen { sn_failure : bool; sn_running : bool; sn_pending : bool; sn_success : bool }.
Definition see_run (s : Seen) (run : Json) : Seen :=
  let status := default "" (as_str (index run "status")) in
  let conclusion := default "" (as_str (index run "conclusion")) in
  if bool_decide (status = "in_progress") then s <| sn_running := true |>
  else if bool_decide (status = "queued") then s <| sn_pending := true |>
  else if bool_decide (status = "completed") then
    if bool_decide (conclusion ∈ ["failure"; "timed_out"; "action_required"; "cancelled"]) then s <| sn_failure := true |>
    else if bool_decide (conclusion ∈ ["success"; "neutral"; "skipped"; "stale"]) then s <| sn_success := true |>
    else s
  else s.
Definition fold_ci (s : Seen) : CiState :=
  if sn_failure s then CiFailure
  else if sn_running s then CiRunning
  else if sn_pending s then CiPending
  else if sn_success s then CiSuccess else CiNone.
Definition parse_check_runs (text : string) : CiState :=
  match from_str text with
  | Err _ => CiNone
  | Ok v =>
      match as_array (index v "check_runs") with
      | None | Some [] => CiNone
      | Some runs => fold_ci (fold_left see_run runs (MkSeen false false false false))
      end
  end.
End Parsers.

(** [split_once('/')] *)
Definition split_once (c : Byte.byte) (l : Bytes) : option (Bytes * Bytes) :=
  n ← position (λ b, bool_decide (b = c)) l; Some (take n l, drop (S n) l).
Definition git_prefixes : list string := ["git@github.com:"; "https://github.com/"; "http://github.com/"].
Definition split_remote (url : Bytes) : option (Bytes * Bytes) :=
  let url := default url (strip_suffix (str_bytes ".git") url) in
  rest ← head (omap (λ p, strip_prefix (str_bytes p) url) git_prefixes);
  split_once x2f rest.
Definition parse_owner_repo (url : string) : option (string * string) :=
  '(owner, repo) ← split_remote (str_bytes (str_trim url)); Some (bytes_str owner, bytes_str repo).

(** ** Commands *)
Section Commands.
Context {N : Type} `{!Network N} (from_str : string → result string Json) (vars : Vars).
(** [git -C cwd remote get-url origin]: whether it succeeds, and what it prints. *)
Context (git : string → option (bool * Bytes)).
Abbreviation Cmd := (M (Github N) string).

Definition store_token (io : Io) (token : string) : Cmd unit :=
  do! of_result (match io_mkdir io with Some e => Err e | None => Ok tt end) in
  do! modify (λ s, s <| gh_dir ::= λ d, Some (default (Z.ldiff 0x1ff (io_umask io)) d) |>) in
  do! modify (λ s, if io_chmod io then s <| gh_dir := Some 0x1c0 |> else s) in
  do! of_result (match io_open io with Some e => Err e | None => Ok tt end) in
  do! modify (λ s, s <| gh_file ::= λ f, Some (MkTokenFile [] (match f with Some f => tf_mode f | None => Z.ldiff 0x180 (io_umask io) end)) |>) in
  let data := str_bytes token in
  match io_write io with
  | Some (n, e) =>
      do! modify (λ s, s <| gh_file ::= fmap (λ f, MkTokenFile (take n data) (tf_mode f)) |>) in throw e
  | None => modify (λ s, s <| gh_file ::= fmap (λ f, MkTokenFile data (tf_mode f)) |>)
  end.

(** The token of a file: its text, trimmed, unless empty. *)
Definition token_of (f : option TokenFile) : option string :=
  f ← f; cs ← from_utf8 (tf_data f);
  let t := of_chars (trim cs) in if decide (t = "") then None else Some t.
Definition load_token (io : Io) : Cmd (option string) := gets (λ s, if io_read io then token_of (gh_file s) else None).
Definition clear_token (io : Io) : Cmd unit := modify (λ s, if io_remove io then s <| gh_file := None |> else s).

Definition http_client (io : Io) : Cmd unit :=
  of_result (match io_client io with Some e => Err ("failed to build HTTP client: " +:+ e) | None => Ok tt end).
Definition send (what : string) (req : HttpRequest) : Cmd HttpResponse :=
  zoom gh_net (λ n s, s <| gh_net := n |>) (λ e, what +:+ " request failed: " +:+ e) (http_send req).
Definition text (what : string) (resp : HttpResponse) : Cmd string :=
  of_result (result_map_err (λ e, what +:+ " read body failed: " +:+ e) (hr_body resp)).
Definition is_success (status : Z) : bool := in_range 200 299 status.

Definition github_device_start (io : Io) : Cmd DeviceStart :=
  do! http_client io in
  let! resp := send "device/code" (MkHttp Post "https://github.com/login/device/code" [("Accept", "application/json")]
                                          [("client_id", client_id vars); ("scope", GITHUB_SCOPE)]) in
  let! body := text "device/code" resp in
  let! start := of_result (parse_device_start from_str body) in
  do! modify (λ s, s <| gh_device_code := Some start.2 |>) in
  ret start.1.

Definition github_device_poll (io : Io) : Cmd PollState :=
  let! code := gets gh_device_code in
  let! device_code := expect code "no device flow in progress" in
  do! http_client io in
  let! resp := send "access_token" (MkHttp Post "https://github.com/login/oauth/access_token" [("Accept", "application/json")]
                                           [("client_id", client_id vars); ("device_code", device_code);
                                            ("grant_type", "urn:ietf:params:oauth:grant-type:device_code")]) in
  let! body := text "access_token" resp in
  let! answer := of_result (parse_poll from_str body) in
  match answer with
  | PrAuthorized token =>
      do! modify (λ s, s <| gh_device_code := None |>) in
      do! zoom id (λ s _, s) (λ e, "TOKEN_STORE_FAILED: couldn't write ~/.config/pyre/github-token: " +:+ e) (store_token io token) in
      ret PsAuthorized
  | PrPending => ret PsPending
  | PrSlowDown => ret PsSlowDown
  | PrDenied => ret PsDenied
  | PrExpired => ret PsExpired
  end.

Definition bearer (token : string) : string * string := ("Authorization", "Bearer " +:+ token).
(** [status]: the code with its reason. *)
Definition github_account (io : Io) (status_text : Z → string) : Cmd (option Account) :=
  let! token := load_token io in
  match token with
  | None => ret None
  | Some token =>
      do! http_client io in
      let! resp := send "user" (MkHttp Get "https://api.github.com/user" [("Accept", "application/json"); bearer token] []) in
      if hr_status resp =? 401 then do! clear_token io in ret None
      else if negb (is_success (hr_status resp)) then throw ("user request failed with HTTP " +:+ status_text (hr_status resp))
      else
        let! body := text "user" resp in
        let! account := of_result (parse_account from_str body) in
        ret (Some account)
  end.
Definition github_disconnect (io : Io) : Cmd unit := clear_token io.

Definition get_remote_origin_url (cwd : string) : option string :=
  '(success, stdout) ← git cwd;
  if (success : bool) then
    cs ← from_utf8 stdout;
    let t := of_chars (trim cs) in if decide (t = "") then None else Some t
  else None.
Definition api_headers (token : string) : list (string * string) :=
  [("Accept", "application/vnd.github+json"); bearer token; ("X-GitHub-Api-Version", "2022-11-28")].
(** A request that may fail: [None]. *)
Definition try_get (url token : string) : Cmd (option HttpResponse) :=
  λ s, let '(s', r) := send "" (MkHttp Get url (api_headers token) []) s in (s', Ok (ok r)).
Definition pulls_url (owner repo branch : string) : string :=
  "https://api.github.com/repos/" +:+ owner +:+ "/" +:+ repo +:+ "/pulls?head=" +:+ owner +:+ ":" +:+ branch +:+ "&state=open".
Definition checks_url (owner repo head_sha : string) : string :=
  "https://api.github.com/repos/" +:+ owner +:+ "/" +:+ repo +:+ "/commits/" +:+ head_sha +:+ "/check-runs".
Definition body_of (resp : option HttpResponse) : option string :=
  r ← resp; if is_success (hr_status r) then ok (hr_body r) else None.

(** The checks of the head of a pull request; the chip of the branch. *)
Definition check_state (owner repo token head_sha : string) : Cmd CiState :=
  let! resp := try_get (checks_url owner repo head_sha) token in
  ret (match body_of resp with Some body => parse_check_runs from_str body | None => CiNone end).
Definition pr_chip (owner repo branch token : string) : Cmd (option PrCiInfo) :=
  let! resp := try_get (pulls_url owner repo branch) token in
  match (body ← body_of resp; parse_pulls from_str body) with
  | Some (number, url, head_sha) =>
      let! state := check_state owner repo token head_sha in
      ret (Some (MkPrCi (Some number) (Some url) state))
  | None => ret None
  end.
Definition github_pr_ci (io : Io) (cwd branch : string) : Cmd (option PrCiInfo) :=
  let! token := load_token io in
  match token, (url ← get_remote_origin_url cwd; parse_owner_repo url), io_client io with
  | Some token, Some (owner, repo), None => pr_chip owner repo branch token
  | _, _, _ => ret None
  end.
End Commands.
