(* ===== verification/GithubRuns.v ===== *)
(** * GithubRuns: what the GitHub commands of the desktop GUI keep

    The token file, the device flow, the state of the checks, and that the answers the
    web view gets do not depend on the token. *)
From Stdlib Require Import Strings.Byte.
From coqutil Require Export Datatypes.RecordSettersUsingExistingGetters.
From S2P Require Import Prelude Proto Text Layout Libraries Effects Store Json Github.
Local Open Scope Z_scope.

(** ** Remotes *)
Lemma split_once_here c l r : c ∉ l → split_once c (l ++ c :: r) = Some (l, r).
Proof.
  intros Hl. unfold split_once, position. rewrite list_find_app_r.
  - cbn [list_find]. rewrite decide_True by by apply bool_decide_true. cbn -[take drop]. rewrite ?Nat.add_0_r, ?Nat.add_0_l, take_app_length.
    replace (S (length l)) with (length l + 1)%nat by lia. rewrite <- drop_drop, drop_app_length. done.
  - apply list_find_None, Forall_forall. intros y Hy Hc%bool_decide_eq_true. by subst.
Qed.
Lemma starts_with_cut (x : Byte.byte) pat l r : x ∉ pat → starts_with pat (l ++ x :: r) = starts_with pat l.
Proof.
  intros Hx. apply eq_true_iff_eq. rewrite !starts_with_spec. split.
  - intros [t Ht]. revert l Ht. induction pat as [|p pat IH]; intros l Ht; [by exists l|].
    apply not_elem_of_cons in Hx as [Hp Hx]. destruct l as [|y l]; [by injection Ht as ->|].
    injection Ht as <- Ht. destruct (IH Hx l Ht) as [t' ->]. by exists t'.
  - intros [t ->]. exists (t ++ x :: r). by rewrite <- app_assoc.
Qed.
Lemma strip_suffix_app suf l : strip_suffix suf (l ++ suf) = Some l.
Proof.
  unfold strip_suffix. rewrite rev_app_distr, starts_with_app, length_app.
  replace (length l + length suf - length suf)%nat with (length l) by lia. by rewrite take_app_length.
Qed.
Lemma strip_suffix_none suf l x r : x ∉ suf → strip_suffix suf r = None → strip_suffix suf (l ++ x :: r) = None.
Proof.
  unfold strip_suffix. intros Hx Hr. rewrite rev_app_distr. cbn [rev]. rewrite <- app_assoc. cbn [app].
  rewrite starts_with_cut by (rewrite list_elem_of_In, <- in_rev, <- list_elem_of_In; done). by destruct (starts_with _ (rev r)).
Qed.

Lemma split_remote_prefix p owner repo url :
  p ∈ git_prefixes → x2f ∉ owner → default url (strip_suffix (str_bytes ".git") url) = str_bytes p ++ owner ++ x2f :: repo →
  split_remote url = Some (owner, repo).
Proof.
  intros Hp Ho Hu. unfold split_remote. rewrite Hu.
  assert (head (omap (λ p', strip_prefix (str_bytes p') (str_bytes p ++ owner ++ x2f :: repo)) git_prefixes) = Some (owner ++ x2f :: repo)) as ->.
  { unfold git_prefixes in *. cbn [omap list_omap].
    repeat (apply elem_of_cons in Hp as [->|Hp]; [by rewrite strip_prefix_app|]).
    by apply not_elem_of_nil in Hp. }
  cbn [mbind option_bind]. by apply split_once_here.
Qed.
Lemma git_form_split p owner repo ext :
  p ∈ git_prefixes → x2f ∉ owner → strip_suffix (str_bytes ".git") repo = None → ext ∈ [[]; str_bytes ".git"] →
  split_remote (str_bytes p ++ owner ++ x2f :: repo ++ ext) = Some (owner, repo).
Proof.
  intros Hp Ho Hr He. apply (split_remote_prefix p); [done|done|].
  apply elem_of_cons in He as [->|He%list_elem_of_singleton]; [|subst].
  - rewrite app_nil_r. rewrite (app_assoc (str_bytes p)), strip_suffix_none; [done| |done].
    vm_compute. intros H. repeat (apply elem_of_cons in H as [H|H]; [discriminate H|]). by apply not_elem_of_nil in H.
  - change (x2f :: repo ++ str_bytes ".git") with ((x2f :: repo) ++ str_bytes ".git").
    by rewrite !app_assoc, strip_suffix_app.
Qed.

(** ** Checks *)
#[export] Instance CiState_eq_dec : EqDecision CiState.
Proof. solve_decision. Defined.
(** What one run says. *)
Definition run_state (run : Json) : option CiState :=
  let status := default "" (as_str (index run "status")) in
  let conclusion := default "" (as_str (index run "conclusion")) in
  if decide (status = "in_progress") then Some CiRunning
  else if decide (status = "queued") then Some CiPending
  else if decide (status = "completed") then
    if decide (conclusion ∈ ["failure"; "timed_out"; "action_required"; "cancelled"]) then Some CiFailure
    else if decide (conclusion ∈ ["success"; "neutral"; "skipped"; "stale"]) then Some CiSuccess
    else None
  else None.
Definition says (c : CiState) (run : Json) : bool := bool_decide (run_state run = Some c).
(** The gravest state a run has. *)
Definition gravest (runs : list Json) : CiState :=
  default CiNone (find_first (λ c, existsb (says c) runs) [CiFailure; CiRunning; CiPending; CiSuccess]).

Lemma see_run_state s run :
  see_run s run = match run_state run with
                  | Some CiFailure => s <| sn_failure := true |>
                  | Some CiRunning => s <| sn_running := true |>
                  | Some CiPending => s <| sn_pending := true |>
                  | Some CiSuccess => s <| sn_success := true |>
                  | _ => s
                  end.
Proof.
  unfold see_run, run_state. cbv zeta. generalize (default "" (as_str (index run "status"))), (default "" (as_str (index run "conclusion"))).
  intros status conclusion. case_bool_decide; [by rewrite decide_True by done|]. rewrite (decide_False (P := status = _)) by done.
  case_bool_decide; [by rewrite decide_True by done|]. rewrite (decide_False (P := status = _)) by done.
  case_bool_decide; [|by rewrite decide_False by done]. rewrite (decide_True (P := status = _)) by done.
  case_bool_decide; [by rewrite decide_True by done|]. rewrite (decide_False (P := conclusion ∈ _)) by done.
  case_bool_decide; [by rewrite decide_True by done|by rewrite decide_False by done].
Qed.
Lemma see_run_says s run :
  see_run s run = MkSeen (sn_failure s || says CiFailure run) (sn_running s || says CiRunning run)
                         (sn_pending s || says CiPending run) (sn_success s || says CiSuccess run).
Proof.
  rewrite see_run_state. unfold says. destruct s as [f r p c], (run_state run) as [[]|]; cbn; by rewrite ?orb_false_r, ?orb_true_r.
Qed.
Lemma see_runs runs s :
  fold_left see_run runs s = MkSeen (sn_failure s || existsb (says CiFailure) runs) (sn_running s || existsb (says CiRunning) runs)
                                    (sn_pending s || existsb (says CiPending) runs) (sn_success s || existsb (says CiSuccess) runs).
Proof.
  revert s. induction runs as [|run runs IH]; intros s; cbn [fold_left existsb]; [by rewrite !orb_false_r; destruct s|].
  rewrite IH, see_run_says. cbn. by rewrite !orb_assoc.
Qed.
Lemma fold_ci_gravest runs : fold_ci (fold_left see_run runs (MkSeen false false false false)) = gravest runs.
Proof.
  rewrite see_runs. unfold fold_ci, gravest, find_first. cbn -[existsb]. repeat case_decide; simplify_eq; cbn;
    repeat match goal with |- context [if ?b then _ else _] => destruct b end; congruence.
Qed.
Lemma existsb_perm {A} (f : A → bool) l1 l2 : l1 ≡ₚ l2 → existsb f l1 = existsb f l2.
Proof. induction 1; cbn; [done|congruence|by rewrite !orb_assoc, (orb_comm (f y))|congruence]. Qed.
Lemma gravest_perm l1 l2 : l1 ≡ₚ l2 → gravest l1 = gravest l2.
Proof.
  intros Hp. unfold gravest, find_first. cbn -[existsb].
  by rewrite !(existsb_perm _ _ _ Hp).
Qed.

(** ** The token file *)
Section Commands.
Context {N : Type} `{!Network N} (from_str : string → result string Json) (vars : Vars) (git : string → option (bool * Bytes)).
Abbreviation Cmd := (M (Github N) string).

Inductive Command :=
  | CDeviceStart | CDevicePoll | CAccount | CDisconnect | CPrCi (cwd branch : string).
Inductive Answer :=
  | AnStart (r : result string DeviceStart) | AnPoll (r : result string PollState) | AnAccount (r : result string (option Account))
  | AnDone (r : result string unit) | AnPrCi (r : result string (option PrCiInfo)).
Definition run_command (status_text : Z → string) (ic : Io * Command) (s : Github N) : Github N * Answer :=
  let '(io, c) := ic in
  match c with
  | CDeviceStart => prod_map id AnStart (github_device_start from_str vars io s)
  | CDevicePoll => prod_map id AnPoll (github_device_poll from_str vars io s)
  | CAccount => prod_map id AnAccount (github_account from_str io status_text s)
  | CDisconnect => prod_map id AnDone (github_disconnect io s)
  | CPrCi cwd branch => prod_map id AnPrCi (github_pr_ci from_str git io cwd branch s)
  end.
Fixpoint run_commands (status_text : Z → string) (cs : list (Io * Command)) (s : Github N) : Github N * list Answer :=
  match cs with
  | [] => (s, [])
  | c :: cs' => let '(s1, a) := run_command status_text c s in
                let '(s2, l) := run_commands status_text cs' s1 in (s2, a :: l)
  end.

(** *** Two GUIs that differ in the token alone *)
Definition alike (s1 s2 : Github N) : Prop :=
  gh_net s1 = gh_net s2 ∧ gh_device_code s1 = gh_device_code s2 ∧
  (token_of (gh_file s1) = None ↔ token_of (gh_file s2) = None).
(** The same answer, and still alike. *)
Definition low {A} (m1 m2 : Cmd A) : Prop := ∀ s1 s2, alike s1 s2 → alike (m1 s1).1 (m2 s2).1 ∧ (m1 s1).2 = (m2 s2).2.
(** A request without the header that carries the token. *)
Definition hide (r : HttpRequest) : HttpRequest :=
  MkHttp (hq_method r) (hq_url r) (filter (λ h, h.1 ≠ "Authorization") (hq_headers r)) (hq_form r).
Definition blind : Prop := ∀ r1 r2 n, hide r1 = hide r2 → http_send r1 n = http_send r2 n.
Hypothesis Hblind : blind.

Lemma low_of_result {A} (r : result string A) : low (of_result r) (of_result r).
Proof. by intros s1 s2. Qed.
Lemma low_ret {A} (a : A) : low (ret a) (ret a).
Proof. by intros s1 s2. Qed.
Lemma low_throw {A} e : low (A := A) (throw e) (throw e).
Proof. by intros s1 s2. Qed.
Lemma low_bind {A B} (m1 m2 : Cmd A) (k1 k2 : A → Cmd B) :
  low m1 m2 → (∀ a, low (k1 a) (k2 a)) → low (bind m1 k1) (bind m2 k2).
Proof.
  intros Hm Hk s1 s2 Hs. destruct (Hm s1 s2 Hs) as [Hs' Hr]. unfold bind.
  destruct (m1 s1) as [s1' r1], (m2 s2) as [s2' r2]. cbn in *. subst r2. destruct r1 as [a|e]; [by apply Hk|done].
Qed.
Lemma low_send what r1 r2 : hide r1 = hide r2 → low (send what r1) (send what r2).
Proof.
  intros Hh s1 s2 (Hn & Hd & Ht). unfold send, zoom. rewrite (Hblind r1 r2 _ Hh), Hn. by destruct (http_send r2 (gh_net s2)).
Qed.
Lemma low_load {B} io (k1 k2 : option string → Cmd B) :
  low (k1 None) (k2 None) → (∀ t1 t2, low (k1 (Some t1)) (k2 (Some t2))) → low (bind (load_token io) k1) (bind (load_token io) k2).
Proof.
  intros Hnone Hsome s1 s2 Hs. unfold bind, load_token, gets. destruct (io_read io); [|by apply Hnone].
  destruct Hs as (Hn & Hd & Ht). destruct (token_of (gh_file s1)) as [t1|] eqn:E1, (token_of (gh_file s2)) as [t2|] eqn:E2.
  - apply Hsome. split; [done|]. split; [done|]. by rewrite E1, E2.
  - discriminate (proj2 Ht eq_refl).
  - discriminate (proj1 Ht eq_refl).
  - apply Hnone. split; [done|]. split; [done|]. by rewrite E1, E2.
Qed.
Lemma low_clear io : low (clear_token io) (clear_token io).
Proof. intros s1 s2 (Hn & Hd & Ht). unfold clear_token, modify. by destruct (io_remove io). Qed.
Lemma token_of_mode data m1 m2 : token_of (Some (MkTokenFile data m1)) = token_of (Some (MkTokenFile data m2)).
Proof. done. Qed.
Lemma low_store io token : low (store_token io token) (store_token io token).
Proof.
  intros s1 s2 (Hn & Hd & Ht). unfold store_token, bind, of_result, modify, throw. cbv zeta.
  destruct (io_mkdir io); [done|]. destruct (io_chmod io), (io_open io); try done; destruct (io_write io) as [[n e]|]; done.
Qed.
Lemma low_gets_device {B} (k1 k2 : option string → Cmd B) :
  (∀ c, low (k1 c) (k2 c)) → low (bind (gets gh_device_code) k1) (bind (gets gh_device_code) k2).
Proof. intros Hk s1 s2 Hs. unfold bind, gets. pose proof Hs as (_ & Hd & _). rewrite Hd. by apply Hk. Qed.
Lemma low_device f : low (modify (λ s, s <| gh_device_code := f |>)) (modify (λ s, s <| gh_device_code := f |>)).
Proof. by intros s1 s2 (Hn & Hd & Ht). Qed.
Lemma low_zoom {A} err (m1 m2 : Cmd A) : low m1 m2 → low (zoom id (λ s _, s) err m1) (zoom id (λ s _, s) err m2).
Proof.
  intros Hm s1 s2 Hs. destruct (Hm s1 s2 Hs) as [Hs' Hr]. unfold zoom, id. destruct (m1 s1), (m2 s2). cbn in *. by subst.
Qed.
Lemma low_try_get url t1 t2 : low (try_get url t1) (try_get url t2).
Proof.
  intros s1 s2 Hs. unfold try_get. destruct (low_send "" (MkHttp Get url (api_headers t1) []) (MkHttp Get url (api_headers t2) []) eq_refl s1 s2 Hs) as [Hs' Hr].
  destruct (send _ _ s1) as [s1' r1], (send _ _ s2) as [s2' r2]. cbn in *. subst. by split.
Qed.

Lemma low_start io : low (github_device_start from_str vars io) (github_device_start from_str vars io).
Proof.
  unfold github_device_start, http_client, text.
  repeat first [apply low_ret | apply low_device | apply low_of_result | apply (low_send _ _ _ eq_refl) | apply low_bind; [|intros ?]].
Qed.
Lemma low_poll io : low (github_device_poll from_str vars io) (github_device_poll from_str vars io).
Proof.
  unfold github_device_poll, http_client, text, expect. apply low_gets_device. intros code.
  do 5 (apply low_bind; [first [apply low_of_result | by apply low_send]|intros ?]).
  case_match; try apply low_ret. apply low_bind; [apply low_device|intros _].
  apply low_bind; [apply low_zoom, low_store|intros _; apply low_ret].
Qed.
Lemma low_account io status_text : low (github_account from_str io status_text) (github_account from_str io status_text).
Proof.
  unfold github_account, http_client, text. apply low_load; [apply low_ret|intros t1 t2].
  apply low_bind; [apply low_of_result|intros _]. apply low_bind; [by apply low_send|intros resp].
  case_match; [apply low_bind; [apply low_clear|intros _; apply low_ret]|]. case_match; [apply low_throw|].
  do 2 (apply low_bind; [apply low_of_result|intros ?]). apply low_ret.
Qed.
Lemma low_pr_ci io cwd branch : low (github_pr_ci from_str git io cwd branch) (github_pr_ci from_str git io cwd branch).
Proof.
  unfold github_pr_ci. apply low_load; [apply low_ret|intros t1 t2].
  destruct (url ← _; _) as [[owner repo]|]; [|apply low_ret]. destruct (io_client io); [apply low_ret|].
  unfold pr_chip, check_state. apply low_bind; [apply low_try_get|intros resp].
  destruct (body ← _; _) as [[[number url] sha]|]; [|apply low_ret].
  apply low_bind; [|intros ?; apply low_ret]. apply low_bind; [apply low_try_get|intros ?; apply low_ret].
Qed.
Lemma run_commands_alike status_text cs s1 s2 :
  alike s1 s2 → alike (run_commands status_text cs s1).1 (run_commands status_text cs s2).1 ∧
                (run_commands status_text cs s1).2 = (run_commands status_text cs s2).2.
Proof.
  assert (∀ A (m : Cmd A) (f : result string A → Answer) s1 s2, low m m → alike s1 s2 →
    alike (prod_map id f (m s1)).1 (prod_map id f (m s2)).1 ∧ (prod_map id f (m s1)).2 = (prod_map id f (m s2)).2) as Hlow.
  { intros A m f t1 t2 Hm Ht. destruct (Hm t1 t2 Ht) as [Ht' Hr]. destruct (m t1), (m t2). cbn in *. by subst. }
  revert s1 s2. induction cs as [|[io c] cs IH]; intros s1 s2 Hs; cbn [run_commands]; [done|].
  assert (alike (run_command status_text (io, c) s1).1 (run_command status_text (io, c) s2).1 ∧
    (run_command status_text (io, c) s1).2 = (run_command status_text (io, c) s2).2) as [Hs' Ha].
  { destruct c; cbn [run_command]; apply Hlow; try done; auto using low_start, low_poll, low_account, low_pr_ci. apply low_clear. }
  destruct (run_command status_text (io, c) s1) as [s1' a1], (run_command status_text (io, c) s2) as [s2' a2]. cbn [fst snd] in *.
  destruct (IH s1' s2' Hs') as [Hs'' Hl]. destruct (run_commands _ _ s1') as [t1 l1], (run_commands _ _ s2') as [t2 l2].
  cbn [fst snd] in *. by subst.
Qed.
End Commands.

(** A text that is valid loses nothing on the way through its characters. *)
Lemma from_utf8_lossy_valid bs cs : from_utf8 bs = Some cs → from_utf8_lossy bs = cs.
Proof.
  unfold from_utf8, from_utf8_lossy. rewrite mapM_Some. generalize (utf8_chunks bs). intros l Hl.
  induction Hl as [|o c l cs Ho _ IH]; [done|]. cbn in *. by rewrite Ho, IH.
Qed.
Lemma str_bytes_app s t : str_bytes (s +:+ t) = str_bytes s ++ str_bytes t.
Proof.
  unfold str_bytes, String.list_byte_of_string. induction s as [|c s IH]; [done|].
  change (String c s +:+ t) with (String c (s +:+ t)). cbn [String.list_ascii_of_string map app]. by rewrite IH.
Qed.
(** A word: ASCII without blanks. *)
Definition word (bs : Bytes) : Prop := Forall (λ b, is_ascii b ∧ is_whitespace (byte_to_Z b) = false) bs.
Lemma word_trim s : word (str_bytes s) → str_trim s = s.
Proof.
  intros Hw. assert (Forall is_ascii (str_bytes s)) as Ha by (eapply Forall_impl; [exact Hw|]; by intros b []).
  unfold str_trim, chars. rewrite (from_utf8_lossy_valid _ _ (from_utf8_ascii _ Ha)), trim_none.
  - unfold of_chars. by rewrite encode_ascii, bytes_str_bytes.
  - apply Forall_fmap. eapply Forall_impl; [exact Hw|]. by intros b [].
Qed.

(** ** Properties *)


(** a token that is stored is the token that is loaded; its file is readable by its
    owner only if it was created, while a file that was there keeps its mode; after it
    is removed nothing is loaded. *)
Theorem token_roundtrip {N : Type} io token (s : Github N)
    (Hio : io_mkdir io = None ∧ io_open io = None ∧ io_write io = None ∧ io_read io = true ∧ io_remove io = true)
    (Htoken : is_Some (from_utf8 (str_bytes token)) ∧ str_trim token = token ∧ token ≠ "") :
  let '(s', r) := store_token io token s in
  r = Ok tt ∧ load_token io s' = (s', Ok (Some token)) ∧
  tf_mode <$> gh_file s' = Some (match gh_file s with Some f => tf_mode f | None => Z.ldiff 0x180 (io_umask io) end) ∧
  (load_token io (clear_token io s').1).2 = Ok None.
Proof.
  destruct Hio as (Hm & Ho & Hw & Hr & Hd), Htoken as ([cs Hcs] & Htrim & Hne).
  assert (∀ m, token_of (Some (MkTokenFile (str_bytes token) m)) = Some token) as Htok.
  { intros m. unfold token_of. cbn [mbind option_bind tf_data]. rewrite Hcs. cbn [mbind option_bind]. cbv zeta.
    assert (of_chars (trim cs) = token) as ->; [|by rewrite decide_False].
    transitivity (str_trim token); [|done]. unfold str_trim, chars. by rewrite (from_utf8_lossy_valid _ _ Hcs). }
  unfold store_token, bind, of_result, modify. cbv zeta. rewrite Hm, Ho, Hw.
  unfold load_token, clear_token, modify, gets. rewrite Hr, Hd.
  destruct (io_chmod io); (split; [done|]); cbn -[token_of Z.ldiff str_bytes]; rewrite Htok; by repeat split.
Qed.

(** the owner and the name of a repository are read from each form of its remote,
    with and without the ending. *)
Theorem owner_repo_roundtrip p owner repo ext
    (Hp : p ∈ git_prefixes) (Hext : ext ∈ [""; ".git"]) (Howner : word (str_bytes owner)) (Hrepo : word (str_bytes repo))
    (Hslash : x2f ∉ str_bytes owner) (Hgit : strip_suffix (str_bytes ".git") (str_bytes repo) = None) :
  parse_owner_repo (p +:+ owner +:+ "/" +:+ repo +:+ ext) = Some (owner, repo).
Proof.
  assert (word (str_bytes p) ∧ word (str_bytes ext) ∧ word (str_bytes "/")) as (Hwp & Hwe & Hws).
  { unfold git_prefixes in Hp. repeat (apply elem_of_cons in Hp as [->|Hp]); try by apply not_elem_of_nil in Hp.
    all: repeat (apply elem_of_cons in Hext as [->|Hext]); try by apply not_elem_of_nil in Hext.
    all: by repeat constructor. }
  unfold parse_owner_repo. rewrite word_trim by (rewrite !str_bytes_app; repeat apply Forall_app_2; done).
  rewrite !str_bytes_app. change (str_bytes "/") with [x2f]. cbn [app].
  rewrite (git_form_split p (str_bytes owner) (str_bytes repo) (str_bytes ext)); [|done|done|done|].
  - cbn. by rewrite !bytes_str_bytes.
  - repeat (apply elem_of_cons in Hext as [->|Hext]); [by left|by right; left|by apply not_elem_of_nil in Hext].
Qed.

(** the state of a pull request's checks is the gravest that any of its runs has,
    in whatever order the runs are listed. *)
Theorem checks_are_gravest from_str text v runs runs'
    (Htext : from_str text = Ok v) (Hruns : as_array (index v "check_runs") = Some runs) (Hperm : runs ≡ₚ runs') :
  parse_check_runs from_str text = gravest runs'.
Proof.
  unfold parse_check_runs. rewrite Htext, Hruns, <- (gravest_perm _ _ Hperm). destruct runs as [|r runs]; [done|]. apply fold_ci_gravest.
Qed.

(** Denied and expired: the code of the attempt is kept, and polled again. *)
Theorem refused_code_is_kept {N : Type} `{!Network N} from_str vars io (s s' : Github N) st :
  github_device_poll from_str vars io s = (s', Ok st) → st ≠ PsAuthorized → gh_device_code s' = gh_device_code s.
Proof.
  unfold github_device_poll, bind, gets, expect, of_result, ok_or, http_client, send, text, zoom, throw, ret. intros Hrun Hst.
  destruct (gh_device_code s) as [code|] eqn:E; [|done]. destruct (io_client io); [done|]. unfold of_result in Hrun. cbv beta iota in Hrun.
  match type of Hrun with context [http_send ?r ?n] => destruct (http_send r n) as [net [resp|e]] end; [|done]. cbn [result_map_err] in Hrun.
  destruct (hr_body resp) as [body|e]; [|done]. cbn [result_map_err] in Hrun.
  destruct (parse_poll from_str body) as [[]|e]; try done; try (by injection Hrun as <- _).
  unfold modify in Hrun. destruct (store_token io token _) as [s2 [[]|e]]; [|done]. by injection Hrun as _ <-.
Qed.

(** ** Concrete runs *)
(** A network that answers with the address; what the addresses stand for. *)
#[local] Instance echo_net : Network nat := {| http_send := λ r n, (S n, Ok (MkResponse 200 (Ok (hq_url r)))) |}.
Definition echo_json (text : string) : result string Json :=
  if decide (text = "https://api.github.com/user") then
    Ok (JObj [("login", JStr "octocat"); ("avatar_url", JStr "a"); ("html_url", JStr "h")])
  else if decide (text = "https://github.com/login/device/code") then
    Ok (JObj [("device_code", JStr "d"); ("user_code", JStr "u"); ("verification_uri", JStr "v"); ("expires_in", JInt 900); ("interval", JInt 5)])
  else if decide (text = "https://github.com/login/oauth/access_token") then Ok (JObj [("access_token", JStr "gho_new")])
  else if decide (text = pulls_url "acme" "app" "main") then
    Ok (JArr [JObj [("number", JInt 7); ("html_url", JStr "p"); ("head", JObj [("sha", JStr "abc")])]])
  else if decide (text = checks_url "acme" "app" "abc") then
    Ok (JObj [("check_runs", JArr [JObj [("status", JStr "in_progress")]; JObj [("status", JStr "completed"); ("conclusion", JStr "failure")]])])
  else Err "not JSON".
Definition plain_io : Io := MkIo None None true None None true true 0x12.
Definition no_vars : Vars := MkVars None None (Some "/home/u").
Definition acme_git (cwd : string) : option (bool * Bytes) := Some (true, str_bytes "git@github.com:acme/app.git" ++ [x0a]).
Definition with_token (token : string) : Github nat := MkGithub _ 0%nat None (Some (MkTokenFile (str_bytes token) 0x180)) None.


Lemma token_roundtrip_witness :
  load_token plain_io (store_token plain_io "gho_abc" (MkGithub nat 0%nat None None None)).1 =
    ((store_token plain_io "gho_abc" (MkGithub nat 0%nat None None None)).1, Ok (Some "gho_abc")).
Proof.
  pose proof (token_roundtrip plain_io "gho_abc" (MkGithub nat 0%nat None None None)) as Hr.
  destruct (store_token plain_io "gho_abc" (MkGithub nat 0%nat None None None)) as [s' r]. cbn [fst]. apply Hr.
  - by split_and!.
  - split; [by eexists|]. split; [vm_compute; reflexivity|intros Hn; discriminate Hn].
Defined.

Lemma owner_repo_roundtrip_witness : parse_owner_repo "git@github.com:acme/my.app.git" = Some ("acme", "my.app").
Proof.
  apply (owner_repo_roundtrip "git@github.com:" "acme" "my.app" ".git").
  - by left.
  - by right; left.
  - by repeat constructor.
  - by repeat constructor.
  - vm_compute. intros H. repeat (apply elem_of_cons in H as [H|H]; [discriminate H|]). by apply not_elem_of_nil in H.
  - vm_compute. reflexivity.
Defined.

Lemma checks_are_gravest_witness :
  parse_check_runs echo_json (checks_url "acme" "app" "abc") =
  gravest [JObj [("status", JStr "completed"); ("conclusion", JStr "failure")]; JObj [("status", JStr "in_progress")]].
Proof.
  eapply (checks_are_gravest echo_json _ _ [JObj [("status", JStr "in_progress")]; JObj [("status", JStr "completed"); ("conclusion", JStr "failure")]]).
  - vm_compute. reflexivity.
  - reflexivity.
  - apply Permutation_swap.
Defined.
