(* ===== verification/Gui.v ===== *)
(** * Gui: the bridge of the desktop GUI (gui/src-tauri/src/lib.rs)

    The managed state, the connection to the daemon that starts pyred once, the
    commands the web view calls, and the tasks that pump the output of panes to it.
    The system is the class [GuiHost]; what is read of the process' environment is the
    record [GuiEnv]. *)
From Stdlib Require Import Strings.Byte QArith.QArith QArith.Qround.
From coqutil Require Export Datatypes.RecordSettersUsingExistingGetters.
From S2P Require Import Prelude Proto Text Layout Libraries Effects Store Inspect Server Client Themes.
Local Open Scope Z_scope.

(** ** The system *)
Class GuiHost (D : Type) := {
  connect_control : PathBuf → D → D * result string unit;
  host_exists : PathBuf → D → bool;
  start_process : PathBuf → D → D * result string unit;   (** detached, its output to /dev/null *)
  sleep_ms : Z → D → D }.
Record GuiEnv := MkGuiEnv {
  ge_pyre_sock : option PathBuf; ge_pyre_socket : option PathBuf; ge_default_socket : PathBuf;
  ge_path : option string; ge_exe_dir : option PathBuf; ge_home : option PathBuf;
  ge_cwd : option PathBuf; ge_vars : list (string * string) }.

Inductive GuiError :=
  | BadId (what text : string)
  | TransportError (call : string)
  | CallError (call : string) (e : PyreError)
  | PyredNotFound
  | PyredNotStarted (bin : PathBuf) (why : string)
  | StillUnreachable (socket : PathBuf) (why : string)
  | NotConnected (socket : PathBuf) (why : string)
  | BadDirection (text : string)
  | StreamFailed (pane : string)
  | NoActivePane
  | UnknownTheme (name : string).

(** ** The state *)

(** A pump: the pane as it was named, and whether [start_pane] made it. *)
Record Pump := MkPump { pm_pane : string; pm_legacy : bool }.
Inductive Emit :=
  | PtyOutput (pane : string) (data : Bytes) | PaneClosed (pane : string)
  | LegacyOutput (data : Bytes) | LegacyClosed.

(** [Inner], the tasks that run, by their handle, what was emitted to the web view,
    and the processes that were started. *)
Record Gui {D : Type} := MkGui {
  gu_client : bool;
  gu_stream_tasks : gmap PaneId nat;
  gu_legacy_pane : option PaneId;
  gu_spawn_attempted : bool;
  gu_daemon : D;
  gu_pumps : gmap nat Pump;
  gu_next : nat;
  gu_emitted : list Emit;
  gu_started : list PathBuf }.
Arguments Gui : clear implicits.
Definition gui_default {D} (d : D) : Gui D := MkGui _ false ∅ None false d ∅ 0 [] [].

(** ** Data for the web view *)
Record DaemonStatusDto := MkStatusDto { dt_connected : bool; dt_socket : PathBuf }.
Record SessionDto := MkSessionDto {
  sd_id : string; sd_name : string; sd_pane_count : Z; sd_created_at : string; sd_last_active_at : string }.
Record SpawnDto := MkSpawnDto { sp_session : string; sp_pane : string }.
Record PaneStateDto := MkPaneStateDto {
  pd_pane : string; pd_session : string; pd_state : string; pd_title : option string; pd_agent : string; pd_name : option string }.
Record BlockDto := MkBlockDto {
  bd_id : string; bd_pane : string; bd_session : string; bd_command : string; bd_cwd : option string; bd_started_at : string;
  bd_ended_at : option string; bd_exit_code : option Z; bd_duration_ms : option Z; bd_running : bool }.
Record BlockHitDto := MkHitDto { hd_block : BlockDto; hd_snippet : string }.
Record WindowInfoDto := MkWindowDto {
  wd_id : string; wd_session : string; wd_name : string; wd_position : Z; wd_pane_count : Z; wd_created_at : string }.
Inductive LayoutDto := DLeaf (pane : string) | DSplit (dir : string) (children : list LayoutDto) (weights : list Z).
Record PaneEventDto := MkEventDto { ed_kind : string; ed_pane : string; ed_session : option string; ed_state : option string }.
Record EventsDto := MkEventsDto { es_events : list PaneEventDto; es_last_seq : Z }.
Record ThemeListItemDto := MkThemeItem {
  ti_name : string; ti_display_name : string; ti_kind : string; ti_accent : string; ti_bg : string; ti_fg : string }.
Record ThemeDetailDto := MkThemeDetail {
  tt_bg : string; tt_bg_dim : string; tt_fg : string; tt_fg_dim : string; tt_border : string; tt_border_focus : string;
  tt_cursor : string; tt_accent : string; tt_ok : string; tt_warn : string; tt_error : string; tt_ansi : list string }.

(** [{:02x}] of a byte. *)
Definition hex_char (n : Z) : Byte.byte := byte_of_Z (if n <? 10 then 48 + n else 87 + n).
Definition hex2 (n : Z) : Bytes := [hex_char (n / 16); hex_char (n mod 16)].
Definition rgb_hex (c : Rgb) : string := bytes_str (x23 :: hex2 (r8 c) ++ hex2 (g8 c) ++ hex2 (b8 c)).

Definition pane_state_label (st : PaneStateKind) : string :=
  match st with
  | Running => "running" | WaitingInput => "waiting" | Idle => "idle" | Interactive => "interactive" | Crashed => "crashed" | Done => "done"
  end.
Definition pane_event_kind_label (k : PaneEventKind) : string :=
  match k with Spawned => "spawned" | Closed => "closed" | StateChanged => "state_changed" | LayoutChanged => "layout_changed" end.

Section Dto.
Context `{UuidText} (to_rfc3339 : DateTime → string).
Definition block_to_dto (b : Block) : BlockDto :=
  MkBlockDto (uuid_to_string (block_uuid (blk_id b))) (uuid_to_string (pane_uuid (blk_pane b))) (uuid_to_string (session_uuid (blk_session b)))
    (blk_command b) (blk_cwd b) (to_rfc3339 (blk_started_at b)) (to_rfc3339 <$> blk_ended_at b) (blk_exit_code b) (duration_ms b)
    (bool_decide (blk_ended_at b = None)).
Fixpoint layout_to_dto (node : LayoutNode) : LayoutDto :=
  match node with
  | Leaf pane_id => DLeaf (uuid_to_string (pane_uuid pane_id))
  | HSplit children => DSplit "h" ((λ c, layout_to_dto c.1) <$> children) children.*2
  | VSplit children => DSplit "v" ((λ c, layout_to_dto c.1) <$> children) children.*2
  end.
Definition session_dto (s : SessionInfo) : SessionDto :=
  MkSessionDto (uuid_to_string (session_uuid (si_id s))) (si_name s) (si_pane_count s) (to_rfc3339 (si_created_at s)) (to_rfc3339 (si_last_active_at s)).
Definition pane_state_dto (p : PaneInfo) : PaneStateDto :=
  MkPaneStateDto (uuid_to_string (pane_uuid (pi_id p))) (uuid_to_string (session_uuid (pi_session p))) (pane_state_label (pi_state p))
    (pi_name p) (AgentKind_label (pi_agent p)) (pi_name p).
Definition window_dto (w : WindowInfo) : WindowInfoDto :=
  MkWindowDto (uuid_to_string (window_uuid (wi_id w))) (uuid_to_string (session_uuid (wi_session w))) (wi_name w) (wi_position w)
    (wi_pane_count w) (to_rfc3339 (wi_created_at w)).
Definition pane_event_dto (e : PaneEvent) : PaneEventDto :=
  MkEventDto (pane_event_kind_label (ev_kind e)) (uuid_to_string (pane_uuid (ev_pane_id e))) None (pane_state_label <$> ev_state e).
Definition theme_item (t : Theme) : ThemeListItemDto :=
  MkThemeItem (th_name t) (th_display_name t) (match th_kind t with Light => "light" | Dark => "dark" end)
    (rgb_hex (pl_accent (th_palette t))) (rgb_hex (pl_bg (th_palette t))) (rgb_hex (pl_fg (th_palette t))).
Definition theme_detail (p : Palette) : ThemeDetailDto :=
  MkThemeDetail (rgb_hex (pl_bg p)) (rgb_hex (pl_bg_dim p)) (rgb_hex (pl_fg p)) (rgb_hex (pl_fg_dim p)) (rgb_hex (pl_border p))
    (rgb_hex (pl_border_focus p)) (rgb_hex (pl_cursor p)) (rgb_hex (pl_accent p)) (rgb_hex (pl_ok p)) (rgb_hex (pl_warn p))
    (rgb_hex (pl_error p)) (rgb_hex <$> pl_ansi p).
End Dto.

(** ** The connection *)
Definition resolve_socket (env : GuiEnv) : PathBuf :=
  match ge_pyre_sock env with
  | Some s => s
  | None => default (ge_default_socket env) (ge_pyre_socket env)
  end.
(** Where pyred may be, in order. *)
Definition pyred_candidates (env : GuiEnv) : list PathBuf :=
  match ge_path env with Some paths => (λ d, Store.path_join (bytes_str d) "pyred") <$> split_on x3a (str_bytes paths) | None => [] end
  ++ match ge_exe_dir env with Some d => [Store.path_join d "pyred"] | None => [] end
  ++ match ge_home env with Some h => [Store.path_join h ".local/bin/pyred"] | None => [] end.

Section Bridge.
Context `{UuidText} {D : Type} `{!PyreDaemon D, !GuiHost D} (env : GuiEnv) (to_rfc3339 : DateTime → string).
Abbreviation Cmd := (M (Gui D) GuiError).

Definition set_daemon (d : D) (s : Gui D) : Gui D := s <| gu_daemon := d |>.
Definition find_pyred : Cmd (option PathBuf) := gets (λ s, find_first (λ p, host_exists p (gu_daemon s)) (pyred_candidates env)).
Definition connect : Cmd (result string unit) :=
  λ s, let '(d, r) := connect_control (resolve_socket env) (gu_daemon s) in (set_daemon d s, Ok r).
Definition spawn_pyred_detached (bin : PathBuf) : Cmd unit :=
  λ s, let '(d, r) := start_process bin (gu_daemon s) in
       match r with
       | Ok _ => ((set_daemon d s) <| gu_started ::= (.++ [bin]) |>, Ok tt)
       | Err e => (set_daemon d s, Err (PyredNotStarted bin e))
       end.
Fixpoint poll_socket_ready (rounds : nat) (socket : PathBuf) (d : D) : D :=
  match rounds with
  | O => d
  | S rounds' => if host_exists socket d then d else poll_socket_ready rounds' socket (sleep_ms 100 d)
  end.
Definition remember_client : Cmd unit := modify (λ s, s <| gu_client := true |>).

Definition spawn_and_retry : Cmd unit :=
  do! modify (λ s, s <| gu_spawn_attempted := true |>) in
  let! found := find_pyred in
  let! bin := expect found PyredNotFound in
  do! spawn_pyred_detached bin in
  do! modify (λ s, s <| gu_daemon ::= poll_socket_ready 50 (resolve_socket env) |>) in
  let! r := connect in
  match r with
  | Ok _ => remember_client
  | Err e => throw (StillUnreachable (resolve_socket env) e)
  end.
Definition ensure_client : Cmd unit :=
  let! connected := gets gu_client in
  if (connected : bool) then ret tt
  else
    let! r := connect in
    let! attempted := gets gu_spawn_attempted in
    match r with
    | Ok _ => remember_client
    | Err e => if (attempted : bool) then throw (NotConnected (resolve_socket env) e) else spawn_and_retry
    end.

Definition call {A} (name : string) (m : M D RpcFailure A) : Cmd A :=
  zoom gu_daemon set_daemon (λ f, match f with Transport => TransportError name | Remote e => CallError name e end) m.
(** A command that is one call. *)
Definition client_call {A} (name : string) (m : M D RpcFailure A) : Cmd A := do! ensure_client in call name m.

(** ** Identifiers *)
Definition parse_pane (text : string) : Cmd PaneId := expect (MkPaneId <$> uuid_parse text) (BadId "pane" text).
Definition parse_session (text : string) : Cmd SessionId := expect (MkSessionId <$> uuid_parse text) (BadId "session" text).
Definition parse_window (text : string) : Cmd WindowId := expect (MkWindowId <$> uuid_parse text) (BadId "window" text).
Definition parse_block_id (text : string) : Cmd BlockId := expect (MkBlockId <$> uuid_parse text) (BadId "block" text).
Definition pane_text (p : PaneId) : string := uuid_to_string (pane_uuid p).

(** ** Commands *)
Definition daemon_status : Cmd DaemonStatusDto :=
  λ s, let '(s', r) := ensure_client s in
       (s', Ok (MkStatusDto (match r with Ok _ => true | Err _ => false end) (resolve_socket env))).
Definition reconnect : Cmd DaemonStatusDto := do! modify (λ s, s <| gu_client := false |>) in daemon_status.

Definition gui_list_sessions : Cmd (list SessionDto) :=
  let! sessions := client_call "list_sessions" list_sessions in ret (session_dto to_rfc3339 <$> sessions).
Definition spawn_session (cols rows : Z) : Cmd SpawnDto :=
  let! resp := client_call "spawn" (spawn (MkSpawnReq None (ge_cwd env) cols rows (ge_vars env) None)) in
  ret (MkSpawnDto (uuid_to_string (session_uuid (sr_session resp))) (pane_text (sr_pane resp))).
Definition gui_rename_session (session name : string) : Cmd unit :=
  let! sid := parse_session session in client_call "rename_session" (rename_session sid name).
Definition gui_rename_pane (pane name : string) : Cmd unit :=
  let! pid := parse_pane pane in client_call "rename_pane" (rename_pane pid name).
Definition gui_close_session (session : string) : Cmd unit :=
  let! sid := parse_session session in
  do! client_call "close_session" (close_session sid) in
  do! call "gc_stale_sessions" gc_stale_sessions in ret tt.
Definition gui_git_status (session : string) : Cmd (option GitInfo) :=
  let! sid := parse_session session in client_call "git_status" (git_status sid).

Definition gui_close_pane (pane : string) : Cmd unit :=
  let! pid := parse_pane pane in client_call "close_pane" (close_pane pid).
Definition gui_resize_pane (pane : string) (cols rows : Z) : Cmd unit :=
  let! pid := parse_pane pane in
  do! client_call "resize_pane" (resize_pane (MkResizePaneReq pid (MkPaneSize cols rows))) in ret tt.
Definition pane_states : Cmd (list PaneStateDto) :=
  let! panes := client_call "list_all_panes" list_all_panes in ret (pane_state_dto <$> panes).
Definition gui_inspect_pid (pane : string) : Cmd Inspect.PidInspect :=
  let! pid := parse_pane pane in client_call "inspect_pid" (inspect_pid pid).

Definition session_layout (session : string) : Cmd LayoutDto :=
  let! sid := parse_session session in
  let! node := client_call "get_session_layout" (get_session_layout sid) in ret (layout_to_dto node).
Definition parse_direction (text : string) : Cmd Orient :=
  if bool_decide (text = "h") then ret Horizontal else if bool_decide (text = "v") then ret Vertical else throw (BadDirection text).
Definition open_split (pane direction : string) : Cmd string :=
  let! pid := parse_pane pane in
  let! orient := parse_direction direction in
  let! new_pane := client_call "open_pane_split" (open_pane_split (Server.MkOpenPaneSplitReq pid orient None None None)) in
  ret (pane_text new_pane).
Definition gui_open_pane (window session : string) (cols rows : option Z) : Cmd string :=
  let! wid := parse_window window in
  let! sid := parse_session session in
  let! new_pane := client_call "open_pane"
    (open_pane (MkOpenPaneReq sid wid None (ge_cwd env) (default 80 cols) (default 24 rows) (ge_vars env) None)) in
  ret (pane_text new_pane).
(** [weight.clamp(5.0, 95.0) as u16] *)
Definition clamp_weight (weight : Q) : Z := Qfloor (if Qle_bool weight 5 then 5 else if Qle_bool 95 weight then 95 else weight)%Q.
Definition set_weight (pane : string) (weight : Q) : Cmd unit :=
  let! pid := parse_pane pane in client_call "set_pane_weight" (set_pane_weight pid (clamp_weight weight)).

Definition gui_list_windows (session : string) : Cmd (list WindowInfoDto) :=
  let! sid := parse_session session in
  let! windows := client_call "list_windows" (list_windows sid) in ret (window_dto to_rfc3339 <$> windows).
Definition gui_new_window (session : string) (name : option string) : Cmd string :=
  let! sid := parse_session session in
  let! w := client_call "new_window" (new_window sid name) in ret (uuid_to_string (window_uuid w)).
Definition gui_rename_window (window name : string) : Cmd unit :=
  let! wid := parse_window window in client_call "rename_window" (rename_window wid name).
Definition gui_close_window (window : string) : Cmd unit :=
  let! wid := parse_window window in client_call "close_window" (close_window wid).
Definition gui_get_window_layout (window : string) : Cmd LayoutDto :=
  let! wid := parse_window window in
  let! node := client_call "get_window_layout" (get_window_layout wid) in ret (layout_to_dto node).

(** *** Streams *)

(** [guard.stream_tasks.remove(&pid)], and the task is aborted. *)
Definition drop_pump (pid : PaneId) (s : Gui D) : Gui D :=
  match gu_stream_tasks s !! pid with
  | Some handle => s <| gu_stream_tasks ::= delete pid |> <| gu_pumps ::= delete handle |>
  | None => s
  end.
(** The stream is opened and its task spawned. *)
Definition open_pump (session : SessionId) (pid : PaneId) (pump : Pump) : Cmd nat :=
  λ s, let '(d, ok) := stream_connect (Proto.attach_stream session pid) (gu_daemon s) in
       let s := set_daemon d s in
       if ok then (s <| gu_pumps ::= <[gu_next s := pump]> |> <| gu_next ::= S |>, Ok (gu_next s)) else (s, Err (StreamFailed (pm_pane pump))).
Definition register_pump (pid : PaneId) (handle : nat) : Cmd unit := modify (λ s, s <| gu_stream_tasks ::= <[pid := handle]> |>).
Definition attach_pane_stream (session pane : string) : Cmd unit :=
  let! sid := parse_session session in
  let! pid := parse_pane pane in
  do! modify (drop_pump pid) in
  let! handle := open_pump sid pid (MkPump pane false) in
  register_pump pid handle.
Definition detach_pane_stream (pane : string) : Cmd unit :=
  let! pid := parse_pane pane in modify (drop_pump pid).

Definition gui_send_keys (pane : option string) (data : Bytes) : Cmd unit :=
  let! legacy := gets gu_legacy_pane in
  let! pid := match pane with Some text => parse_pane text | None => expect legacy NoActivePane end in
  client_call "send_keys" (send_keys pid data).

(** What happens to a running pump: a frame, an error or the end of the stream; the
    web view may be gone. *)
Definition closed_event (p : Pump) : Emit := if pm_legacy p then LegacyClosed else PaneClosed (pm_pane p).
Definition output_event (p : Pump) (data : Bytes) : Emit := if pm_legacy p then LegacyOutput data else PtyOutput (pm_pane p) data.
Definition pump_event (handle : nat) (frame : option Bytes) (emit_ok : bool) (s : Gui D) : Gui D :=
  match gu_pumps s !! handle with
  | None => s
  | Some p =>
      match frame with
      | Some data =>
          if emit_ok then s <| gu_emitted ::= (.++ [output_event p data]) |>
          else s <| gu_pumps ::= delete handle |>
      | None =>
          let s := s <| gu_pumps ::= delete handle |> in
          if emit_ok then s <| gu_emitted ::= (.++ [closed_event p]) |> else s
      end
  end.

(** *** Blocks, events, themes *)
Definition gui_list_blocks (pane : string) : Cmd (list BlockDto) :=
  let! pid := parse_pane pane in
  let! blocks := client_call "list_blocks" (list_blocks (MkListBlocksReq None 100)) in
  ret (block_to_dto to_rfc3339 <$> filter (λ b, blk_pane b = pid) blocks).
Definition block_stdout (block : string) : Cmd string :=
  let! bid := parse_block_id block in
  let! data := client_call "get_block_stdout" (get_block_stdout bid) in ret (of_chars (from_utf8_lossy data)).
Definition gui_search_blocks (query : string) (failures_only : bool) (session : option string) : Cmd (list BlockHitDto) :=
  let! session_id := match session with Some t => let! sid := parse_session t in ret (Some sid) | None => ret None end in
  let! hits := client_call "search_blocks" (search_blocks (MkSearchBlocksReq query 50 failures_only session_id None None)) in
  ret ((λ h, MkHitDto (block_to_dto to_rfc3339 (bh_block h)) (bh_snippet h)) <$> hits).

(** [raw.iter().map(|e| e.seq).max().unwrap_or(after_seq)] *)
Definition last_seq (after_seq : Z) (raw : list PaneEvent) : Z :=
  match ev_seq <$> raw with [] => after_seq | n :: ns => fold_left Z.max ns n end.
Definition poll_events (after_seq : Z) : Cmd EventsDto :=
  let! raw := client_call "poll_events" (next_pane_event after_seq) in
  ret (MkEventsDto (pane_event_dto <$> raw) (last_seq after_seq raw)).

Definition list_themes : list ThemeListItemDto := theme_item <$> builtin.
Definition gui_get_theme (name : string) : result GuiError ThemeDetailDto :=
  match get_theme builtin name with Some t => Ok (theme_detail (th_palette t)) | None => Err (UnknownTheme name) end.

(** *** The first version's command *)
Definition start_pane : Cmd (string * string) :=
  do! modify (λ s, s <| gu_client := false |>) in
  let! resp := client_call "spawn" (spawn (MkSpawnReq None (ge_cwd env) 80 24 (ge_vars env) (Some "gui-spike"))) in
  let! handle := open_pump (sr_session resp) (sr_pane resp) (MkPump (pane_text (sr_pane resp)) true) in
  do! modify (λ s, s <| gu_legacy_pane := Some (sr_pane resp) |>) in
  do! register_pump (sr_pane resp) handle in
  ret (short8 (pane_uuid (sr_pane resp)), short8 (session_uuid (sr_session resp))).

(** ** The handler table *)
Inductive GuiCommand :=
  | DaemonStatus | Reconnect | ListSessions | SpawnSession (cols rows : Z) | RenameSession (session name : string)
  | CloseSession (session : string) | GitStatus (session : string) | ListWindows (session : string)
  | NewWindow (session : string) (name : option string) | RenameWindow (window name : string) | CloseWindow (window : string)
  | GetWindowLayout (window : string) | ClosePane (pane : string) | ResizePane (pane : string) (cols rows : Z)
  | RenamePane (pane name : string) | PaneStates | InspectPid (pane : string) | SessionLayout (session : string)
  | OpenSplit (pane direction : string) | OpenPane (window session : string) (cols rows : option Z) | SetWeight (pane : string) (weight : Q)
  | AttachPaneStream (session pane : string) | DetachPaneStream (pane : string) | SendKeys (pane : option string) (data : Bytes)
  | PollEvents (after_seq : Z) | ListBlocks (pane : string) | BlockStdout (block : string)
  | SearchBlocks (query : string) (failures_only : bool) (session : option string)
  | ListThemes | GetTheme (name : string) | StartPane.
Inductive GuiAnswer :=
  | AUnit | AStatus (d : DaemonStatusDto) | ASessions (l : list SessionDto) | ASpawn (d : SpawnDto) | AGit (g : option GitInfo)
  | AWindows (l : list WindowInfoDto) | AText (t : string) | ALayout (l : LayoutDto) | APanes (l : list PaneStateDto)
  | APid (p : Inspect.PidInspect) | AEvents (e : EventsDto) | ABlocks (l : list BlockDto) | AHits (l : list BlockHitDto)
  | AThemes (l : list ThemeListItemDto) | ATheme (t : ThemeDetailDto) | AStarted (pane session : string).
Definition answer {A} (f : A → GuiAnswer) (m : Cmd A) : Cmd GuiAnswer := let! a := m in ret (f a).
Definition unit_answer (m : Cmd unit) : Cmd GuiAnswer := answer (λ _, AUnit) m.
Definition invoke (c : GuiCommand) : Cmd GuiAnswer :=
  match c with
  | DaemonStatus => answer AStatus daemon_status
  | Reconnect => answer AStatus reconnect
  | ListSessions => answer ASessions gui_list_sessions
  | SpawnSession cols rows => answer ASpawn (spawn_session cols rows)
  | RenameSession session name => unit_answer (gui_rename_session session name)
  | CloseSession session => unit_answer (gui_close_session session)
  | GitStatus session => answer AGit (gui_git_status session)
  | ListWindows session => answer AWindows (gui_list_windows session)
  | NewWindow session name => answer AText (gui_new_window session name)
  | RenameWindow window name => unit_answer (gui_rename_window window name)
  | CloseWindow window => unit_answer (gui_close_window window)
  | GetWindowLayout window => answer ALayout (gui_get_window_layout window)
  | ClosePane pane => unit_answer (gui_close_pane pane)
  | ResizePane pane cols rows => unit_answer (gui_resize_pane pane cols rows)
  | RenamePane pane name => unit_answer (gui_rename_pane pane name)
  | PaneStates => answer APanes pane_states
  | InspectPid pane => answer APid (gui_inspect_pid pane)
  | SessionLayout session => answer ALayout (session_layout session)
  | OpenSplit pane direction => answer AText (open_split pane direction)
  | OpenPane window session cols rows => answer AText (gui_open_pane window session cols rows)
  | SetWeight pane weight => unit_answer (set_weight pane weight)
  | AttachPaneStream session pane => unit_answer (attach_pane_stream session pane)
  | DetachPaneStream pane => unit_answer (detach_pane_stream pane)
  | SendKeys pane data => unit_answer (gui_send_keys pane data)
  | PollEvents after_seq => answer AEvents (poll_events after_seq)
  | ListBlocks pane => answer ABlocks (gui_list_blocks pane)
  | BlockStdout block => answer AText (block_stdout block)
  | SearchBlocks query failures_only session => answer AHits (gui_search_blocks query failures_only session)
  | ListThemes => ret (AThemes list_themes)
  | GetTheme name => answer ATheme (of_result (gui_get_theme name))
  | StartPane => answer (λ t, AStarted t.1 t.2) start_pane
  end.

(** A run: commands in the order they end, and what happens to the pumps. *)
Inductive GuiStep := Invoke (c : GuiCommand) | PumpEvent (handle : nat) (frame : option Bytes) (emit_ok : bool).
Definition gui_step (e : GuiStep) (s : Gui D) : Gui D :=
  match e with
  | Invoke c => (invoke c s).1
  | PumpEvent handle frame emit_ok => pump_event handle frame emit_ok s
  end.
Definition gui_run (es : list GuiStep) (s : Gui D) : Gui D := fold_left (λ s e, gui_step e s) es s.
End Bridge.
