(* ===== verification/GuiRuns.v ===== *)
(** * GuiRuns: what the commands of the desktop GUI keep

    That pyred is started once, that no pane has two pumps, and that what is shown of
    layouts, colours and events loses nothing. *)
From Stdlib Require Import Strings.Byte QArith.QArith QArith.Qround.
From coqutil Require Export Datatypes.RecordSettersUsingExistingGetters.
From S2P Require Import Prelude Proto Text Layout LayoutTree Libraries Effects Store Inspect Server Client Themes Gui.
Local Open Scope Z_scope.

Section Keeps.
Context `{UuidText} {D : Type} `{!PyreDaemon D, !GuiHost D} (env : GuiEnv) (to_rfc3339 : DateTime → string).
Abbreviation Cmd := (M (Gui D) GuiError).
Abbreviation invoke := (invoke env to_rfc3339).

(** ** Commands that only call *)
Section Plain.
Context (I : Gui D → Prop).
Hypothesis Hdaemon : ∀ d s, I s → I (set_daemon d s).
Hypothesis Hensure : keeps I (ensure_client (D := D) env).
Hypothesis Hclient : ∀ s, I s → I (s <| gu_client := false |>).

Lemma keeps_call {A} name (m : M D RpcFailure A) : keeps I (call name m).
Proof. intros s Hs. unfold call, zoom. destruct (m (gu_daemon s)). cbn [fst]. auto. Qed.
Lemma keeps_client_call {A} name (m : M D RpcFailure A) : keeps I (client_call env name m).
Proof. apply keeps_bind; [done|]. intros _. apply keeps_call. Qed.
Lemma keeps_status : keeps I (daemon_status (D := D) env).
Proof. intros s Hs. unfold daemon_status. specialize (Hensure s Hs). by destruct (ensure_client env s). Qed.
Lemma keeps_reconnect : keeps I (reconnect (D := D) env).
Proof. apply keeps_bind; [|intros _; apply keeps_status]. intros s Hs. by apply Hclient. Qed.
Lemma keeps_answer {A} (f : A → GuiAnswer) (m : Cmd A) : keeps I m → keeps I (answer f m).
Proof. intros Hm. apply keeps_bind; [done|]. intros a. apply keeps_ret. Qed.
(** All commands but those of the streams. *)
Definition streams (c : GuiCommand) : bool :=
  match c with AttachPaneStream _ _ | DetachPaneStream _ | StartPane => true | _ => false end.
Lemma keeps_plain c : streams c = false → keeps I (invoke c).
Proof.
  intros Hc. destruct c; try discriminate Hc; cbn [Gui.invoke]; unfold unit_answer;
    first [apply keeps_answer | apply keeps_ret]; try apply keeps_status; try apply keeps_reconnect; try apply keeps_of_result;
    unfold gui_list_sessions, spawn_session, gui_rename_session, gui_rename_pane, gui_close_session, gui_git_status, gui_close_pane,
      gui_resize_pane, pane_states, gui_inspect_pid, session_layout, open_split, gui_open_pane, set_weight, gui_list_windows, gui_new_window,
      gui_rename_window, gui_close_window, gui_get_window_layout, gui_send_keys, poll_events, gui_list_blocks, block_stdout,
      gui_search_blocks, parse_pane, parse_session, parse_window, parse_block_id, parse_direction;
    repeat first [apply keeps_client_call | apply keeps_call | apply keeps_expect | apply keeps_gets | apply keeps_ret | apply keeps_throw
                 | apply keeps_bind; [|intros ?] | case_match ].
Qed.
End Plain.

(** ** pyred is started once *)
Definition started_ok (s : Gui D) : Prop :=
  (length (gu_started s) ≤ 1)%nat ∧ (gu_spawn_attempted s = false → gu_started s = []).
Lemma ensure_started : keeps started_ok (ensure_client (D := D) env).
Proof.
  intros s [Hlen Hno]. unfold ensure_client, bind, gets, connect. destruct (gu_client s); [by split|].
  destruct (connect_control _ _) as [d [[]|e]]; [by split|]. cbn [gu_spawn_attempted set_daemon].
  change (gu_spawn_attempted (set_daemon d s)) with (gu_spawn_attempted s). destruct (gu_spawn_attempted s) eqn:E; [split; [done|cbn; congruence]|].
  specialize (Hno eq_refl). unfold spawn_and_retry, bind, modify, find_pyred, gets, expect, of_result.
  destruct (find_first _ _) as [bin|]; cbn [ok_or]; [|by split].
  unfold spawn_pyred_detached. destruct (start_process bin _) as [d2 [[]|e2]]; [|by split].
  assert (started_ok (set_daemon d2 (set_daemon d s <| gu_spawn_attempted := true |>) <| gu_started ::= (.++ [bin]) |>)) as Hok.
  { split; [|done]. cbn. by rewrite Hno. }
  unfold connect. destruct (connect_control _ _) as [d3 [[]|e3]]; cbn [fst]; exact Hok.
Qed.
Lemma open_pump_started sid pid pump : keeps started_ok (open_pump (D := D) sid pid pump).
Proof. intros s Hs. unfold open_pump. by destruct (stream_connect _ _) as [d []]. Qed.
Lemma drop_pump_started pid s : started_ok s → started_ok (drop_pump pid s).
Proof. unfold drop_pump. by case_match. Qed.
Lemma step_started e s : started_ok s → started_ok (gui_step env to_rfc3339 e s).
Proof.
  intros Hs. destruct e as [c|h f ok]; cbn [gui_step].
  - destruct (streams c) eqn:E; [|apply keeps_plain; [by intros|apply ensure_started|by intros|done|done]].
    revert s Hs. change (keeps started_ok (invoke c)). destruct c; try discriminate E; cbn [Gui.invoke]; apply keeps_answer;
      unfold attach_pane_stream, detach_pane_stream, start_pane, parse_pane, parse_session;
      repeat first [ apply keeps_client_call; [by intros|apply ensure_started] | apply keeps_bind; [|intros ?] | apply keeps_expect
                   | apply keeps_ret | apply open_pump_started | by intros s Hs; apply drop_pump_started | by intros s Hs ].
  - unfold pump_event. by repeat case_match.
Qed.

(** ** One pump per pane *)

(** The pump of a handle belongs to the pane the handle is registered for. *)
Definition pumps_ok (s : Gui D) : Prop :=
  (∀ h p, gu_pumps s !! h = Some p → ∃ pid, gu_stream_tasks s !! pid = Some h ∧ uuid_parse (pm_pane p) = Some (pane_uuid pid)) ∧
  (∀ pid h, gu_stream_tasks s !! pid = Some h → (h < gu_next s)%nat).
Lemma pumps_same s s' :
  gu_pumps s' = gu_pumps s → gu_stream_tasks s' = gu_stream_tasks s → gu_next s' = gu_next s → pumps_ok s → pumps_ok s'.
Proof. unfold pumps_ok. by intros -> -> ->. Qed.
Lemma drop_pump_ok pid s : pumps_ok s → pumps_ok (drop_pump pid s) ∧ gu_stream_tasks (drop_pump pid s) !! pid = None.
Proof.
  intros [Hreg Hnext]. unfold drop_pump. destruct (gu_stream_tasks s !! pid) as [h|] eqn:E; [|done].
  split; [|cbn; apply lookup_delete_eq]. split; cbn.
  - intros h' p [Hne Hp]%lookup_delete_Some. destruct (Hreg h' p Hp) as (pid' & Hpid' & Htext). exists pid'.
    split; [|done]. apply lookup_delete_Some. split; [|done]. intros ->. rewrite E in Hpid'. by injection Hpid'.
  - intros pid' h' [_ Hh']%lookup_delete_Some. by eapply Hnext.
Qed.
(** A pane that is not registered gets a pump. *)
Definition attach_new (sid : SessionId) (pid : PaneId) (pump : Pump) : Cmd unit :=
  let! handle := open_pump sid pid pump in register_pump pid handle.
Lemma attach_new_ok sid pid pump s :
  uuid_parse (pm_pane pump) = Some (pane_uuid pid) → gu_stream_tasks s !! pid = None → pumps_ok s → pumps_ok (attach_new sid pid pump s).1.
Proof.
  intros Htext Hnone [Hreg Hnext]. unfold attach_new, bind, open_pump. destruct (stream_connect _ _) as [d []]; [|done].
  unfold register_pump, modify. split; cbn.
  - intros h p Hp. apply lookup_insert_Some in Hp as [[<- <-]|[Hne Hp]].
    + exists pid. by rewrite lookup_insert_eq.
    + destruct (Hreg h p Hp) as (pid' & Hpid' & Ht). exists pid'. split; [|done]. rewrite lookup_insert_ne; [done|].
      intros ->. by rewrite Hnone in Hpid'.
  - intros pid' h [[<- <-]|[_ Hh]]%lookup_insert_Some; [lia|]. specialize (Hnext pid' h Hh). lia.
Qed.

(** [start_pane] opens a pane that no pump is registered for. *)
Definition fresh_start (e : GuiStep) (s : Gui D) : Prop :=
  match e with
  | Invoke StartPane => ∀ req d resp, (spawn req d).2 = Ok resp → gu_stream_tasks s !! sr_pane resp = None
  | _ => True
  end.
Fixpoint fresh_run (es : list GuiStep) (s : Gui D) : Prop :=
  match es with
  | [] => True
  | e :: es' => fresh_start e s ∧ fresh_run es' (gui_step env to_rfc3339 e s)
  end.
(** What [ensure_client] leaves alone. *)
Definition pumps_as (s0 s : Gui D) : Prop :=
  gu_pumps s = gu_pumps s0 ∧ gu_stream_tasks s = gu_stream_tasks s0 ∧ gu_next s = gu_next s0.
Lemma ensure_pumps_as s0 : keeps (pumps_as s0) (ensure_client (D := D) env).
Proof.
  intros s Hs. unfold ensure_client, bind, gets, connect. destruct (gu_client s); [done|].
  destruct (connect_control _ _) as [d [[]|e]]; [done|].
  change (gu_spawn_attempted (set_daemon d s)) with (gu_spawn_attempted s). destruct (gu_spawn_attempted s); [done|].
  unfold spawn_and_retry, bind, modify, find_pyred, gets, expect, of_result.
  destruct (find_first _ _) as [bin|]; cbn [ok_or]; [|done].
  unfold spawn_pyred_detached. destruct (start_process bin _) as [d2 [[]|e2]]; [|done].
  unfold connect. by destruct (connect_control _ _) as [d3 [[]|e3]].
Qed.
Lemma pumps_as_ok s0 s : pumps_as s0 s → pumps_ok s0 → pumps_ok s.
Proof. intros (Hp & Ht & Hn). by apply pumps_same. Qed.

Lemma start_pane_ok s :
  (∀ req d resp, (spawn req d).2 = Ok resp → gu_stream_tasks s !! sr_pane resp = None) →
  pumps_ok s → pumps_ok (start_pane (D := D) env s).1.
Proof.
  intros Hfresh Hs. unfold start_pane. unfold bind at 1, modify at 1. unfold bind at 1, client_call, bind at 1.
  set (s1 := s <| gu_client := false |>). assert (pumps_as s s1) as Hs1 by by split_and!.
  pose proof (ensure_pumps_as s s1 Hs1) as Hs2. destruct (ensure_client env s1) as [s2 [[]|e]]; cbn [fst] in Hs2; [|by apply (pumps_as_ok s)].
  unfold call, zoom. pose proof (Hfresh (MkSpawnReq None (ge_cwd env) 80 24 (ge_vars env) (Some "gui-spike")) (gu_daemon s2)) as Hf.
  destruct (spawn _ (gu_daemon s2)) as [d [resp|e]]; cbn [result_map_err]; [|by apply (pumps_as_ok s)]. specialize (Hf resp eq_refl).
  destruct Hs2 as (Hp & Ht & Hn).
  pose proof (attach_new_ok (sr_session resp) (sr_pane resp) (MkPump (pane_text (sr_pane resp)) true) (set_daemon d s2)) as Hnew.
  unfold attach_new, bind in Hnew. unfold bind. destruct (open_pump _ _ _ (set_daemon d s2)) as [s3 [handle|e]].
  - eapply pumps_same; [..|apply Hnew]; [done|done|done|apply uuid_parse_to_string| |].
    + cbn. by rewrite Ht.
    + by apply (pumps_same s).
  - apply Hnew; [apply uuid_parse_to_string| |].
    + cbn. by rewrite Ht.
    + by apply (pumps_same s).
Qed.
Lemma answer_state {A} (f : A → GuiAnswer) (m : Cmd A) s : (answer f m s).1 = (m s).1.
Proof. unfold answer, bind. by destruct (m s) as [s' [a|e]]. Qed.
Lemma step_pumps e s : fresh_start e s → pumps_ok s → pumps_ok (gui_step env to_rfc3339 e s).
Proof.
  intros Hf Hs. destruct e as [c|h f ok]; cbn [gui_step].
  - destruct (streams c) eqn:E.
    + destruct c as [| | | | | | | | | | | | | | | | | | | | |session pane|pane| | | | | | | |]; try discriminate E; cbn [Gui.invoke];
        unfold unit_answer; rewrite answer_state.
      * unfold attach_pane_stream, parse_session, parse_pane, bind, expect, of_result, modify.
        destruct (uuid_parse session) as [su|]; [|done]. destruct (uuid_parse pane) as [pu|] eqn:Ep; [|done]. cbn [fmap option_fmap option_map ok_or].
        destruct (drop_pump_ok (MkPaneId pu) s Hs) as [Hd Hnone].
        by apply (attach_new_ok (MkSessionId su) (MkPaneId pu) (MkPump pane false)).
      * unfold detach_pane_stream, parse_pane, bind, expect, of_result, modify.
        destruct (uuid_parse pane) as [pu|]; [|done]. by apply drop_pump_ok.
      * by apply start_pane_ok.
    + assert (pumps_as s (invoke c s).1) as Hsame by (apply (keeps_plain (pumps_as s)); [by intros|apply ensure_pumps_as|by intros|done|by split_and!]).
      by apply (pumps_as_ok s).
  - destruct Hs as [Hreg Hnext]. unfold pump_event. destruct (gu_pumps s !! h) as [p|] eqn:Hp; [|done].
    assert (∀ s', gu_pumps s' = delete h (gu_pumps s) → gu_stream_tasks s' = gu_stream_tasks s → gu_next s' = gu_next s → pumps_ok s') as Hdel.
    { intros s' E1 E2 E3. unfold pumps_ok. rewrite E1, E2, E3. split; [|done]. intros h' p' [_ Hp']%lookup_delete_Some. by apply Hreg. }
    destruct f as [data|].
    + destruct ok; [by split|by apply Hdel].
    + cbv zeta. destruct ok; by apply Hdel.
Qed.
Lemma run_ok es s : fresh_run es s → pumps_ok s → pumps_ok (gui_run env to_rfc3339 es s).
Proof.
  revert s. induction es as [|e es IH]; intros s Hf Hs; [done|]. destruct Hf as [He Hes]. unfold gui_run. cbn [fold_left].
  by apply IH, step_pumps.
Qed.
Lemma run_started es s : started_ok s → started_ok (gui_run env to_rfc3339 es s).
Proof. revert s. induction es as [|e es IH]; intros s Hs; [done|]. unfold gui_run. cbn [fold_left]. by apply IH, step_started. Qed.
End Keeps.

(** ** What the web view reads back *)
Fixpoint layout_of_dto `{UuidText} (d : LayoutDto) : option LayoutNode :=
  match d with
  | DLeaf pane => (λ u, Leaf (MkPaneId u)) <$> uuid_parse pane
  | DSplit dir children weights =>
      cs ← mapM layout_of_dto children;
      Some (if bool_decide (dir = "h") then HSplit (zip cs weights) else VSplit (zip cs weights))
  end.

Lemma hex_digit_char n : 0 <= n < 16 → hex_digit (hex_char n) = Some n.
Proof.
  intros Hn. assert (n ∈ seqZ 0 16) as Hin by (apply elem_of_seqZ; lia).
  revert Hin. vm_compute seqZ. intros Hin.
  repeat (apply elem_of_cons in Hin as [->|Hin]; [vm_compute; reflexivity|]). by apply not_elem_of_nil in Hin.
Qed.
Lemma from_hex2 n : 0 <= n < 256 → from_str_radix_16 (hex2 n) = Some n.
Proof.
  intros Hn. assert (0 <= n / 16 < 16) as Hhi by (split; [apply Z.div_pos; lia|apply Z.div_lt_upper_bound; lia]).
  pose proof (Z.mod_pos_bound n 16 ltac:(lia)) as Hlo. pose proof (hex_digit_char _ Hhi) as Dhi. pose proof (hex_digit_char _ Hlo) as Dlo.
  assert (from_str_radix_16 (hex2 n) = hex_value (hex2 n)) as ->.
  { unfold hex2, from_str_radix_16. destruct (hex_char (n / 16)) eqn:E; done. }
  unfold hex_value, hex2. cbn [mapM]. rewrite Dhi, Dlo. cbn [mbind option_bind mret option_ret fold_left].
  pose proof (Z.div_mod n 16 ltac:(lia)). rewrite (proj2 (Z.ltb_lt _ _)) by lia. f_equal. lia.
Qed.
Lemma hex_char_plain n : 0 <= n < 16 → is_cont (byte_to_Z (hex_char n)) = false ∧ hex_char n ≠ x23.
Proof.
  intros Hn. assert (n ∈ seqZ 0 16) as Hin by (apply elem_of_seqZ; lia).
  revert Hin. vm_compute seqZ. intros Hin.
  repeat (apply elem_of_cons in Hin as [->|Hin]; [by vm_compute|]). by apply not_elem_of_nil in Hin.
Qed.

Lemma from_hex_six a b c d e f r g bl :
  a ≠ x23 → is_cont (byte_to_Z a) = false → is_cont (byte_to_Z c) = false → is_cont (byte_to_Z e) = false →
  from_str_radix_16 [a; b] = Some r → from_str_radix_16 [c; d] = Some g → from_str_radix_16 [e; f] = Some bl →
  from_hex (bytes_str [x23; a; b; c; d; e; f]) = Some (Some (rgb r g bl)).
Proof.
  intros Ha Ca Cc Ce Hr Hg Hb. unfold from_hex. rewrite str_bytes_str.
  match goal with |- context [drop_while ?F ?l] =>
    assert (drop_while F l = [a; b; c; d; e; f]) as -> by (cbn [drop_while]; repeat case_bool_decide; done)
  end.
  rewrite decide_False by (intros Hl; by apply Hl). unfold slice. cbn -[from_str_radix_16 is_cont byte_to_Z]. rewrite Ca, Cc, Ce. cbn -[from_str_radix_16].
  rewrite Hr. cbn -[from_str_radix_16]. rewrite Hg. cbn -[from_str_radix_16]. by rewrite Hb.
Qed.

(** ** Properties *)

(** what a theme's colour is shown as reads back as the colour. *)
Theorem rgb_hex_roundtrip c (Hr : 0 <= r8 c < 256) (Hg : 0 <= g8 c < 256) (Hb : 0 <= b8 c < 256) :
  from_hex (rgb_hex c) = Some (Some c).
Proof.
  assert (∀ n, 0 <= n < 256 → 0 <= n / 16 < 16) as Hd.
  { intros n Hn. split; [apply Z.div_pos; lia|apply Z.div_lt_upper_bound; lia]. }
  destruct (hex_char_plain _ (Hd _ Hr)) as [Cr Pr], (hex_char_plain _ (Hd _ Hg)) as [Cg _], (hex_char_plain _ (Hd _ Hb)) as [Cb _].
  destruct c as [r g b]. by apply from_hex_six; [..|apply from_hex2|apply from_hex2|apply from_hex2].
Qed.

Lemma children_of_dto `{UuidText} (cs : list (LayoutNode * Z)) :
  Forall (λ c, layout_of_dto (layout_to_dto c.1) = Some c.1) cs → mapM layout_of_dto ((λ c, layout_to_dto c.1) <$> cs) = Some cs.*1.
Proof. intros Hcs. rewrite mapM_Some. apply Forall2_fmap_l, Forall2_fmap_r. induction Hcs; by constructor. Qed.
(** the layout the web view is given determines the daemon's: every pane, orientation
    and weight, in order. *)
Theorem layout_dto_roundtrip `{UuidText} n : layout_of_dto (layout_to_dto n) = Some n.
Proof.
  induction n as [[u]|mk cs Hmk IH] using LayoutNode_ind'; [cbn; by rewrite uuid_parse_to_string|].
  apply children_of_dto in IH. split_kind Hmk; cbn [layout_to_dto layout_of_dto]; rewrite IH; cbn; by rewrite zip_fst_snd.
Qed.

(** C25: the bridge starts pyred at most once, whatever the web view calls and whatever
    becomes of the daemon: later failures to connect start none. *)
Theorem pyred_started_once `{UuidText} {D : Type} `{!PyreDaemon D, !GuiHost D} env to_rfc3339 es (d : D) :
  (length (gu_started (gui_run env to_rfc3339 es (gui_default d))) ≤ 1)%nat.
Proof. apply run_started. split; [cbn; lia|done]. Qed.


(** A poll that continues from the last number of the one before loses no event and
    repeats none, if the daemon answers a beginning of what it has beyond the number
    it is given. *)
Definition in_order (log : list PaneEvent) : Prop := StronglySorted (λ a b, ev_seq a < ev_seq b) log.
Lemma last_seq_sorted after raw : in_order raw → last_seq after raw = default after (ev_seq <$> last raw).
Proof.
  intros Ho. unfold last_seq. destruct raw as [|e raw]; [done|]. cbn [fmap list_fmap].
  revert e Ho. induction raw as [|e' raw IH]; intros e Ho; [done|].
  apply StronglySorted_inv in Ho as [Ho He]. cbn [fmap list_fmap fold_left].
  pose proof (Forall_inv He) as Hlt. cbn beta in Hlt. rewrite Z.max_r by lia. change (last (e :: e' :: raw)) with (last (e' :: raw)). by apply IH.
Qed.
Theorem polls_lose_nothing log after k :
  in_order log →
  let raw := take k (filter (λ e, after < ev_seq e) log) in
  raw ++ filter (λ e, last_seq after raw < ev_seq e) log = filter (λ e, after < ev_seq e) log.
Proof.
  intros Ho raw. set (rest := filter (λ e, after < ev_seq e) log) in *.
  assert (in_order rest) as Hr.
  { unfold rest. clear raw rest. induction Ho as [|e log Ho IH He]; [constructor|]. destruct (decide (after < ev_seq e)).
    - rewrite filter_cons_True by done. constructor; [done|]. apply Forall_forall. intros x Hx.
      apply list_elem_of_filter in Hx as [_ Hx]. rewrite Forall_forall in He. by apply He.
    - by rewrite filter_cons_False. }
  assert (Forall (λ e, after < ev_seq e) rest) as Ha.
  { apply Forall_forall. intros e He. unfold rest in He. by apply list_elem_of_filter in He as [He _]. }
  assert (in_order raw) as Hraw by (subst raw; rewrite <- (take_drop k rest) in Hr; by apply StronglySorted_app_1_l in Hr).
  assert (Forall (λ e, after < ev_seq e) raw) as Haraw by by apply Forall_take.
  rewrite (last_seq_sorted _ _ Hraw). set (b := default after (ev_seq <$> last raw)).
  assert (after <= b ∧ Forall (λ e, ev_seq e <= b) raw) as [Hb Hle].
  { destruct (last raw) as [l|] eqn:El; cbn in b; [|by apply last_None in El; rewrite El].
    apply last_Some in El as [init ->]. apply Forall_app in Haraw as [_ Hl%Forall_inv]. split; [subst b; lia|].
    apply Forall_app. split; [|apply Forall_singleton; done].
    apply Forall_forall. intros e He. apply (StronglySorted_app_1_elem_of _ _ _ e l) in Hraw; [|done|by left]. cbn beta in Hraw. unfold b. lia. }
  assert (filter (λ e, b < ev_seq e) log = filter (λ e, b < ev_seq e) rest) as ->.
  { unfold rest. rewrite list_filter_filter. apply list_filter_iff. intros e. lia. }
  rewrite <- (take_drop k rest) at 1 2. rewrite filter_app. fold raw. rewrite (filter_none _ raw)
    by (rewrite Forall_forall in Hle; intros x Hx; specialize (Hle x Hx); cbn; lia).
  f_equal. apply filter_kept.
  assert (∀ e, e ∈ drop k rest → Forall (λ x, ev_seq x < ev_seq e) raw) as Hbelow.
  { intros e He. apply Forall_forall. intros x Hx. rewrite <- (take_drop k rest) in Hr. by apply (StronglySorted_app_1_elem_of _ _ _ x e Hr). }
  apply Forall_forall. intros e He. subst b. destruct (last raw) as [l|] eqn:El; cbn.
  - apply last_Some in El as [init El]. specialize (Hbelow e He). rewrite El in Hbelow. by apply Forall_app in Hbelow as [_ Hl%Forall_inv].
  - rewrite Forall_forall in Ha. apply Ha. rewrite <- (take_drop k rest). apply elem_of_app. by right.
Qed.

(** ** Concrete runs *)
#[local] Existing Instances binary_uuid lone_daemon.
#[local] Instance ready_host : GuiHost nat :=
  {| connect_control := λ _ n, (n, Ok tt); host_exists := λ _ _, true; start_process := λ _ n, (n, Ok tt); sleep_ms := λ _ n, n |}.
Definition gui_env : GuiEnv := MkGuiEnv None None "/tmp/pyre.sock" (Some "/usr/bin:/bin") None (Some "/home/u") None [].
Definition p2 : string := pane_text (MkPaneId 2).
Definition s1 : string := uuid_to_string 1.

Lemma rgb_hex_roundtrip_witness : from_hex "#ff6b35" = Some (Some (rgb 0xff 0x6b 0x35)).
Proof. apply (rgb_hex_roundtrip (rgb 0xff 0x6b 0x35)); cbn; lia. Defined.
Definition attached_twice : list GuiStep :=
  [Invoke (AttachPaneStream s1 p2); Invoke (AttachPaneStream s1 p2); PumpEvent 1 (Some [x41]) true].

(** Two attachments of a pane that overlap: both remove, then both insert. One of the
    two pumps is registered, and both run. *)
Definition overlapping_attach : M (Gui nat) GuiError unit :=
  do! modify (drop_pump (MkPaneId 2)) in
  do! modify (drop_pump (MkPaneId 2)) in
  let! first := open_pump (MkSessionId 1) (MkPaneId 2) (MkPump p2 false) in
  let! second := open_pump (MkSessionId 1) (MkPaneId 2) (MkPump p2 false) in
  do! register_pump (MkPaneId 2) first in
  register_pump (MkPaneId 2) second.
Example concurrent_attach_leaks :
  let s := (overlapping_attach (gui_default 0%nat)).1 in
  size (gu_pumps s) = 2%nat ∧ map_to_list (gu_stream_tasks s) = [(MkPaneId 2, 1%nat)].
Proof. vm_compute. by split. Qed.

(** Once connected, the bridge says so whatever became of the daemon. *)
Theorem status_trusts_client `{UuidText} {D : Type} `{!PyreDaemon D, !GuiHost D} env (s : Gui D) :
  gu_client s = true → daemon_status env s = (s, Ok (MkStatusDto true (resolve_socket env))).
Proof. intros Hc. unfold daemon_status, ensure_client, bind, gets. by rewrite Hc. Qed.
